(* ===== verification/_CoqProject ===== *)
-Q . S2P
Prelude.v
JsMap.v
Codec.v
CodecLaws.v
DemoPlatform.v
Authority.v
Hashes.v
HashLaws.v
SchemaKit.v
ResultBinding.v
SchemasDescribe.v
SchemasCell.v
SchemasInbox.v
SchemasForward.v
SchemasDurability.v
SchemasInternal.v
Catalog.v
Dispatch.v
DispatchLaws.v
OuterEnvelope.v
Orders.v
Accepted.v
BodyBounds.v
CatalogLaws.v
DescribeLaws.v
RouteScope.v
RouteScopeLaws.v
StorageLaws.v
RelayLaws.v
ResourceBudget.v
BudgetLaws.v
StreamSession.v
StreamLaws.v
WriteAheadLog.v
WalFrames.v
WalLog.v
WalScan.v
WalStore.v
WalCommit.v
WalLaws.v
WalTermination.v
WalPrune.v
WalDemo.v
SecretSharing.v
PvssOrder.v
PvssArith.v
PvssCurve.v
PvssDleq.v
PvssShares.v
PvssDealer.v
DemoCurve.v
PvssLaws.v
PvssBundle.v
PvssDemo.v
AsyncCalls.v
DescriptorState.v
DescriptorChain.v
DescriptorBooks.v
DescriptorLaws.v
DescriptorDemo.v
PostEofAuthority.v
AdmissionCoordinator.v
AdmissionLaws.v
AdmissionDemo.v
CellRecords.v
ExpiryHeap.v
CellStore.v
CellApply.v
CellBooks.v
CellLife.v
CellSpends.v
CellOperations.v
CellProposals.v
CellReads.v
CellRecovery.v
CellStaging.v
CellLedger.v
CellAtomic.v
CellSafety.v
CellDemo.v
