(* ===== verification/Prelude.v ===== *)
(** * HiveRelay blind substrate: verification library (root file)

    The blind substrate stores and forwards bytes whose meaning a relay cannot
    read. What a relay can check is the form of the messages, and the whole
    protocol rests on that form being exact: one value has one encoding, one
    encoding has one reading, and what is hashed or signed determines every
    field. This library models packages/blind-protocol, which fixes the form,
    and the parts of packages/blind-daemon that decide on it; and the verifiable
    secret sharing of packages/core and packages/client.

    ** Values, errors and effects

    Prelude.v (this file): JavaScript values ([val]: numbers and BigInts as Z,
    byte arrays as byte lists, objects as association lists in insertion
    order), the 32-bit operators with their wrap-around, byte lists, and the
    [result] monad in which a thrown error is a value carrying its code.
    Messages of errors are not modelled. A getter, a proxy or a value that
    changes while it is read is outside the model: objects are immutable
    trees.

    ** The parts and where they are

    - Codec.v: codec.js. The cursor [state] with start, end and buffer, and each
      combinator with the three passes of the source: sizing ([preencode]),
      writing ([encode]) and reading ([decode]). CodecLaws.v: the class
      [Lawful], which says the three passes agree on one byte string, with an
      instance per combinator; everything about the schemas follows from it.
    - Authority.v: wire-runtime-authority.js, the frozen tables and lookups.
    - Hashes.v, HashLaws.v: hashes.js, the preimages and commitments.
    - SchemaKit.v, ResultBinding.v, SchemasDescribe.v, SchemasCell.v,
      SchemasInbox.v, SchemasForward.v, SchemasDurability.v: schemas.js,
      result-binding.js, durability-schemas.js, one encoding, validator and
      value type per schema. Catalog.v: the part of the table of schema-codecs.js
      that holds these three files' 77 codecs, with their [Lawful] instances.
    - Dispatch.v, DispatchLaws.v: dispatch.js, the frame header and the guard of
      sequence numbers. OuterEnvelope.v: outer-envelope.js, the padding of
      frames to size classes.
    - RouteScope.v, RouteScopeLaws.v: forward-route-scope.js of the protocol and
      of the daemon, the signed hash chain of relays behind a circuit.
    - ResourceBudget.v: resource-budget.js of the daemon. The handles that
      acquire returns are indices into the list of all reservations ever made,
      so that a second call of [release] is expressible.
    - StreamSession.v: stream-session.js of the daemon. The stream scopes are a
      heap; the plane, tickets, timers and buffer closures refer to locations.
    - WriteAheadLog.v: the log of transaction-store.js of the daemon. The control
      directory is part of the state, each file with the length that has been
      synced; file operations, faults and callbacks are numbered calls that
      succeed or throw, with or without their effect.
    - WalFrames.v, WalLog.v, WalScan.v, WalStore.v, WalCommit.v: the layout of a
      frame, logs as lists of entries, what a scan of a log sees, the relation
      [holds] between a store and the entries it stands for, and what opening
      and a group commit do to it.
    - SecretSharing.v: packages/core/core/pvss.js and
      packages/client/secret-sharing.js, which have the same helpers: the
      dealer, the holders of shares, and the relay that checks a share it cannot
      open. The curve is the class [Curve]; random bytes are numbered calls.
    - PvssOrder.v, PvssArith.v, PvssCurve.v, PvssDleq.v, PvssShares.v,
      PvssDealer.v: the order of the curve is prime; inverses and
      interpolation modulo it; the laws of the curve ([CurveLaws]) and the texts
      of scalars; the proofs of equal logarithms; what the commitments and
      shares of a dealer are.
    - SchemasInternal.v: the store manifest and checkpoint of
      client-internal-schemas.js.
    - DescriptorState.v: descriptor-state.js of the daemon, with the verifiers of
      signatures, the restoration authority and the clock as hooks, numbered by
      call. DescriptorChain.v says when one descriptor follows another and what a
      record stands for; DescriptorBooks.v sees the two maps as one list.
    - AsyncCalls.v: what is left of a call of an async function, its result or
      what it awaits and how it goes on; [segment] says what its runs may do.
    - PostEofAuthority.v, AdmissionCoordinator.v: post-eof-authority.js and
      admission-coordinator.js of the daemon, next to the descriptor state. The
      frozen empty objects that serve as authorities are their identities; the
      adapters of the payment schemes are requests that are awaited and may be
      answered in any way.
    - JsMap.v: a Map of JavaScript as the list of its entries in insertion order,
      with sums over it.
    - The cell store, storage-engine.js of the daemon. CellRecords.v: the 17
      types of record its log has. ExpiryHeap.v: the heap of expiries.
      CellStore.v: the state. CellApply.v: [applyFrame], the applying of each
      record, checks first and then the change, and [replay], opening on a log.
      CellOperations.v: the operations, cut where the source awaits; one that
      hands a record to the log ends in the [proposal] it appends. CellStaging.v:
      the atomic puts, whose staged bodies are objects in a [lobby] next to the
      store, with the ledger of their bytes.

    ** What the theorems show

    - Accepted.v, Orders.v and BodyBounds.v are the shared lemmas: from an
      accepted object to its fields and validator, strict orders, the largest
      encoding of each schema.
    - CatalogLaws.v: round trip, canonicity, self-delimitation and totality of
      those 77 schemas. DescribeLaws.v, StorageLaws.v, RelayLaws.v: what the
      validators add, schema by schema.
    - HashLaws.v and RouteScopeLaws.v: hashed inputs are injective, so that
      every security statement reads: equal hashes mean equal contents, or here
      are two inputs that collide.
    - BudgetLaws.v and StreamLaws.v: transition systems of every operation of
      the two components; what holds in every reachable state, and what each
      operation guarantees there.
    - WalLaws.v: a transition system of every operation on the log and crashes;
      what was acknowledged is found by the next opening. WalPrune.v: pruning
      and reopening with an anchor. WalTermination.v: the loops end. WalDemo.v:
      the theorems on concrete stores.
    - PvssLaws.v: enough opened shares give the secret back, and sound shares
      never give two secrets; the relay accepts the dealer's bundle.
      PvssBundle.v: the signed root pins the commitments. DemoCurve.v and
      PvssDemo.v: a curve on which the witnesses compute.
    - DescriptorLaws.v: a transition system of every operation of the descriptor
      state; it holds one chain in every reachable state, a usable snapshot is of
      the relay that is current, and a fork closes it. DescriptorDemo.v: the
      theorems on concrete descriptors.
    - AdmissionLaws.v: any number of admission calls in progress that go on in
      any order, between any other steps; the coordinator's books, what a
      confirmation confirms and that its authorities are spent once.
      AdmissionDemo.v: a relay that admits a request.
    - CellBooks.v: the invariant [sound] of the cell store, kept by every
      record. CellLife.v and CellSpends.v: what a record can do to a cell and to a
      spend, and that a slot is used once. CellRecovery.v: the relation [live]
      between a log and a running store, and that a restart gives the durable
      state back. CellProposals.v, CellReads.v and CellAtomic.v: what each
      operation decides applies. CellLedger.v: a transition system of the staged
      puts and their ledger. CellSafety.v: the store as a whole, and what a record
      that waits for its turn may not survive. CellDemo.v: the theorems on
      concrete stores.

    ** What is assumed

    Codec.v's class [Platform] stands for what the source calls outside the
    repository: BLAKE2b-256 (32 bytes long, otherwise arbitrary; no collision
    resistance is assumed), Unicode normalisation and case folding, and URL
    parsing. DemoPlatform.v instantiates it for the examples. Random padding,
    signing and verifying are arguments of the functions that use them. The
    clock, the readiness check and the entropy source of a stream plane are
    hooks that may answer anything, numbered by call. So are the signature
    verifiers, the restoration authority and the clock of a descriptor state, and
    the file operations, faults and callbacks of the log: any of them may throw. What an admission call awaits may be answered at any later
    time with any value or an error, or never. A crash takes from
    each file a part of what was not synced; renames, creations and deletions
    that have happened stay, and one that throws may or may not have happened.
    The curve of the secret sharing (@noble/secp256k1) is a group of order N that
    the base point generates, whose [multiply] takes the scalars 1 to N - 1 and
    whose points but the identity have texts that determine them. That N is
    prime is proved, not assumed.

    ** Bounds

    The only loops over unbounded input are structural recursions over the
    input itself, so no fuel is needed; loops over a count use that count. One
    loop has no bound in the source, the drawing of a ticket token that is not
    taken; it runs on fuel, and [ticket_draw_ends] says how much is enough. Scans
    of a log and writes of a buffer get one more pass than there are bytes, and
    [wal_loops_end] says that this is enough. Pushing onto and popping from the
    heap of expiries gets a pass per entry ([expiry_queue]). What a cell store
    decides applies as long as its counters have room, which is 2^21 below 2^53. The modular inverse gets two passes
    per bit of the order ([invN_total]); drawing a random scalar gets as many
    draws as the hook is given. The sizes in BodyBounds.v are
    computed from the schemas, not written down.

    ** Not modelled

    Sockets, processes, files, timers and HTTP (the daemon's and the edge's
    input and output), the inbox and core stores above the log, the files of opaque
    bodies, the scrubbing, snapshots, locks and timers of the cell store (its
    operations are cut at their awaits, and what runs in between is any other
    operation), wire versions 2 and 3, the earlier relay node in packages/core but for its
    secret sharing, services, the other clients, and the generated ABI descriptions of the schemas. *)

From Stdlib Require Import ZArith Lia Bool List String Ascii.
From Stdlib Require Import Strings.Byte.
From stdpp Require Import base tactics list strings.

#[global] Open Scope string_scope.
#[global] Open Scope list_scope.
#[global] Open Scope Z_scope.

Declare Scope js_scope.
Delimit Scope js_scope with js.
#[global] Open Scope js_scope.

Create HintDb hive discriminated.
Create Rewrite HintDb hive_len.

(** ** Errors as values *)

(** The error codes the modelled code throws: [BlindProtocolError] codes
    (errors.js), the codes the daemon puts on its errors, and JavaScript's own
    [TypeError]. Messages are not modelled, unless they are the code. *)
Inductive error : Type :=
| BAD_ENCODING
| BAD_VERSION
| TOO_LARGE
| BUSY
| UNSUPPORTED_OPERATION
| TRANSPORT_UNSUPPORTED
| CONFLICT
| EXPIRED
| RETRY_TERMINAL
(** the code of [BlindWalIntegrityError] *)
| RECOVERY_GAP_READ_ONLY
| TypeError
| GenericError
(** an error known by a text: its [code], or the message where that is the code *)
| Thrown (code : string)
(** a [DescriptorStateError] with the reason as its code *)
| Closed (reason : Z)
(** not an error of the code: the fuel of a loop ran out before it ended *)
| OUT_OF_FUEL.

#[export] Instance error_eq_dec : EqDecision error.
Proof. solve_decision. Defined.

Inductive result (A : Type) : Type :=
| Ok (a : A)
| Err (e : error).
Arguments Ok {A} a.
Arguments Err {A} e.

Definition bindR {A B} (m : result A) (f : A -> result B) : result B :=
  match m with Ok a => f a | Err e => Err e end.

Notation "'let!' x ':=' m 'in' k" := (bindR m (fun x => k))
  (at level 10, x pattern, m at level 100, k at level 200,
   format "'[v' 'let!'  x  ':='  m  'in' '/' k ']'") : js_scope.
Notation "m ';;!' k" := (bindR m (fun _ => k))
  (at level 199, right associativity, format "'[v' m  ';;!' '/' k ']'") : js_scope.

(** [if (cond) throw e] *)
Definition throw_if (cond : bool) (e : error) : result unit :=
  if cond then Err e else Ok tt.

(** [if (cond) fail(...)]: codec.js, schemas.js, ... all define [fail] as
    [protocolError('BAD_ENCODING', ...)]. *)
Definition fail_if (cond : bool) : result unit := throw_if cond BAD_ENCODING.

(** A loop [for (const x of l) body(x)] whose body may throw. *)
Fixpoint for_each {A} (body : A -> result unit) (l : list A) : result unit :=
  match l with
  | [] => Ok tt
  | x :: rest => body x ;;! for_each body rest
  end.

Definition is_ok {A} (m : result A) : bool := match m with Ok _ => true | Err _ => false end.

(** ** Objects that change

    Code whose operations update a shared object and may throw half way: the
    state survives the error. *)
Definition M (S A : Type) : Type := S -> result A * S.

Definition ret {S A} (x : A) : M S A := fun s => (Ok x, s).
Definition throw {S A} (e : error) : M S A := fun s => (Err e, s).
Definition bindM {S A B} (m : M S A) (k : A -> M S B) : M S B :=
  fun s => match m s with (Ok x, s') => k x s' | (Err e, s') => (Err e, s') end.

Notation "'let*' x ':=' m 'in' k" := (bindM m (fun x => k))
  (at level 10, x pattern, m at level 100, k at level 200,
   format "'[v' 'let*'  x  ':='  m  'in' '/' k ']'") : js_scope.
Notation "m ';;*' k" := (bindM m (fun _ => k))
  (at level 199, right associativity, format "'[v' m  ';;*' '/' k ']'") : js_scope.

Definition gets {S A} (f : S -> A) : M S A := fun s => (Ok (f s), s).
Definition modify {S} (f : S -> S) : M S unit := fun s => (Ok tt, f s).
(** A computation that only reads its arguments. *)
Definition lift {S A} (m : result A) : M S A := fun s => (m, s).
Definition throwM_if {S} (cond : bool) (e : error) : M S unit := lift (throw_if cond e).
(** [try { m } catch { handler }] *)
Definition catch {S A} (m handler : M S A) : M S A :=
  fun s => match m s with (Ok x, s') => (Ok x, s') | (Err _, s') => handler s' end.
(** A loop [for (const x of l) body(x)]. *)
Fixpoint each {S A} (body : A -> M S unit) (l : list A) : M S unit :=
  match l with [] => ret tt | x :: rest => body x ;;* each body rest end.

(** One equation per kind of step, to run a computation on a state. *)
Lemma bind_ret {S A B} (x : A) (k : A -> M S B) s : bindM (ret x) k s = k x s.
Proof. reflexivity. Qed.
Lemma bind_gets {S A B} (f : S -> A) (k : A -> M S B) s : bindM (gets f) k s = k (f s) s.
Proof. reflexivity. Qed.
Lemma bind_modify {S B} (f : S -> S) (k : unit -> M S B) s : bindM (modify f) k s = k tt (f s).
Proof. reflexivity. Qed.
Lemma bind_lift {S A B} (m : result A) (k : A -> M S B) s :
  bindM (lift m) k s = match m with Ok x => k x s | Err e => (Err e, s) end.
Proof. by destruct m. Qed.
Lemma bind_throw_if {S B} c e (k : unit -> M S B) s :
  bindM (throwM_if c e) k s = if c then (Err e, s) else k tt s.
Proof. by destruct c. Qed.
Lemma bind_bind {S A B C} (m : M S A) (k : A -> M S B) (j : B -> M S C) s :
  bindM (bindM m k) j s = bindM m (fun x => bindM (k x) j) s.
Proof. unfold bindM. by destruct (m s) as [[]]. Qed.

Create Rewrite HintDb machine.
#[export] Hint Rewrite @bind_ret @bind_gets @bind_modify @bind_lift @bind_throw_if @bind_bind : machine.

(** A computation started in [P] ends in [Q], with its result, or throws in
    [R]. *)
Definition triple {S A} (P : S -> Prop) (m : M S A) (Q : A -> S -> Prop) (R : S -> Prop) : Prop :=
  forall s, P s -> match m s with (Ok x, s') => Q x s' | (Err _, s') => R s' end.

Lemma triple_bind {S A B} (P : S -> Prop) (m : M S A) (k : A -> M S B) Q Q' R :
  triple P m Q R -> (forall x, triple (Q x) (k x) Q' R) -> triple P (bindM m k) Q' R.
Proof. intros Hm Hk s HP. unfold bindM. specialize (Hm s HP). destruct (m s) as [[x|e] s']; [by apply Hk|done]. Qed.

Lemma triple_ret {S A} (P : S -> Prop) (x : A) Q R : (forall s, P s -> Q x s) -> triple P (ret x) Q R.
Proof. intros HQ s HP. by apply HQ. Qed.

Lemma triple_gets {S A} (P : S -> Prop) (f : S -> A) R : triple P (gets f) (fun x s => x = f s /\ P s) R.
Proof. by intros s HP. Qed.

Lemma triple_modify {S} (P : S -> Prop) (f : S -> S) (Q : unit -> S -> Prop) R : (forall s, P s -> Q tt (f s)) -> triple P (modify f) Q R.
Proof. intros HQ s HP. by apply HQ. Qed.

Lemma triple_throw_if {S} (P : S -> Prop) c e (R : S -> Prop) : (forall s, P s -> c = false) -> triple P (throwM_if c e) (fun _ => P) R.
Proof. intros Hc s HP. unfold throwM_if, lift. by rewrite (Hc s HP). Qed.

Lemma triple_pre {S A} (P P' : S -> Prop) (m : M S A) Q R : (forall s, P s -> P' s) -> triple P' m Q R -> triple P m Q R.
Proof. intros HP Hm s Hs. by apply Hm, HP. Qed.

(** ** Bytes *)

Abbreviation bytes := (list byte).

Definition b2z (b : byte) : Z := Z.of_N (Byte.to_N b).

(** A store into a Uint8Array keeps the low eight bits. *)
Definition z2b (z : Z) : byte :=
  match Byte.of_N (Z.to_N (z mod 256)) with Some b => b | None => Byte.x00 end.

Definition blen (bs : bytes) : Z := Z.of_nat (List.length bs).

(** [b4a.from(s, 'ascii')] on a string literal. *)
Definition ascii_bytes (s : string) : bytes := map byte_of_ascii (list_ascii_of_string s).

Definition byte_eqb (a b : byte) : bool := Byte.eqb a b.

(** [b4a.equals] *)
Fixpoint bytes_eqb (a b : bytes) : bool :=
  match a, b with
  | [], [] => true
  | x :: a', y :: b' => Byte.eqb x y && bytes_eqb a' b'
  | _, _ => false
  end.

(** Big-endian digits: the mathematical reference the write loops are proved
    against. *)
Fixpoint be_bytes (n : nat) (z : Z) : bytes :=
  match n with
  | O => []
  | S n' => be_bytes n' (z / 256) ++ [z2b z]
  end.

Fixpoint be_val_from (acc : Z) (bs : bytes) : Z :=
  match bs with
  | [] => acc
  | b :: rest => be_val_from (acc * 256 + b2z b) rest
  end.

Definition be_val (bs : bytes) : Z := be_val_from 0 bs.

Definition le_bytes (n : nat) (z : Z) : bytes := rev (be_bytes n z).
Definition le_val (bs : bytes) : Z := be_val (rev bs).

(** Overwriting part of a buffer. *)
Definition splice (buf : bytes) (i : Z) (bs : bytes) : bytes :=
  take (Z.to_nat i) buf ++ bs ++ drop (Z.to_nat i + List.length bs)%nat buf.

(** [buf.subarray(i, i + n)] for in-range bounds. *)
Definition slice (buf : bytes) (i n : Z) : bytes := take (Z.to_nat n) (drop (Z.to_nat i) buf).

(** [buf[i] = v] on a Uint8Array: out of range it is ignored. *)
Definition set_byte (buf : bytes) (i v : Z) : bytes :=
  if i <? 0 then buf else <[Z.to_nat i := z2b v]> buf.

(** [buf[i]], read inside the array. *)
Definition get_byte (buf : bytes) (i : Z) : Z :=
  match buf !! Z.to_nat i with Some b => b2z b | None => 0 end.

(** ** JavaScript numbers: the 32-bit integer operators *)

Definition MAX_SAFE_INTEGER : Z := 9007199254740991.
Definition MAX_U64 : Z := 18446744073709551615.

Definition isSafeInteger (z : Z) : bool := (- MAX_SAFE_INTEGER <=? z) && (z <=? MAX_SAFE_INTEGER).

Definition to_int32 (z : Z) : Z :=
  let m := z mod 4294967296 in if m <? 2147483648 then m else m - 4294967296.

Definition js_and (a b : Z) : Z := Z.land (to_int32 a) (to_int32 b).
Definition js_or (a b : Z) : Z := Z.lor (to_int32 a) (to_int32 b).
Definition js_not (a : Z) : Z := Z.lnot (to_int32 a).
Definition js_shl (a n : Z) : Z := to_int32 (Z.shiftl (to_int32 a) (n mod 32)).
Definition js_ushr (a n : Z) : Z := Z.shiftr (a mod 4294967296) (n mod 32).

(** ** JavaScript values

    [VNum] is a number with an integral value, [VBig] a BigInt, [VBytes] a
    Buffer or Uint8Array, [VStr] a string (its UTF-8 bytes), [VOther] every
    other value (fractions, NaN, functions). *)
Inductive val : Type :=
| VUndef
| VNull
| VNum (n : Z)
| VBig (n : Z)
| VBytes (bs : bytes)
| VList (vs : list val)
| VObj (fields : list (string * val))
| VStr (s : string)
| VBool (b : bool)
| VOther.

Fixpoint assoc {A} (name : string) (l : list (string * A)) : option A :=
  match l with
  | [] => None
  | (k, v) :: rest => if String.eqb k name then Some v else assoc name rest
  end.

(** [value[name]] on a value that is not null or undefined. *)
Definition get (v : val) (name : string) : val :=
  match v with
  | VObj fs => match assoc name fs with Some x => x | None => VUndef end
  | _ => VUndef
  end.

Notation "v .[ f ]" := (get v f) (at level 2, left associativity, format "v .[ f ]") : js_scope.

(** [v == null] *)
Definition nullish (v : val) : bool :=
  match v with VUndef | VNull => true | _ => false end.

(** [!v]; NaN, the one falsy value of [VOther], is left out. *)
Definition falsy (v : val) : bool :=
  match v with
  | VUndef | VNull | VBool false => true
  | VNum n | VBig n => n =? 0
  | VStr s => String.eqb s ""
  | _ => false
  end.

(** [v === true] *)
Definition is_true (v : val) : bool := match v with VBool true => true | _ => false end.

(** A nested property read, which throws on null and undefined. *)
Definition getx (v : val) (name : string) : result val :=
  if nullish v then Err TypeError else Ok (get v name).

(** [v && typeof v === 'object'] *)
Definition is_object (v : val) : bool :=
  match v with VBytes _ | VList _ | VObj _ => true | _ => false end.

(** [obj[name] = v] on the object under construction. *)
Fixpoint obj_set (fs : list (string * val)) (name : string) (v : val) : list (string * val) :=
  match fs with
  | [] => [(name, v)]
  | (k, x) :: rest => if String.eqb k name then (k, v) :: rest else (k, x) :: obj_set rest name v
  end.

(** [a === b] on primitives. Objects and arrays are compared by identity in
    JavaScript; the code never compares them with [===]. *)
Definition strict_eqb (a b : val) : bool :=
  match a, b with
  | VUndef, VUndef | VNull, VNull => true
  | VNum x, VNum y => x =? y
  | VBig x, VBig y => x =? y
  | VStr x, VStr y => String.eqb x y
  | VBool x, VBool y => Bool.eqb x y
  | _, _ => false
  end.

Definition is_num (v : val) (n : Z) : bool := strict_eqb v (VNum n).

(** [a < b] and [a <= b]: numbers and BigInts compare by value; a comparison
    with undefined is false. *)
Definition js_lt (a b : val) : bool :=
  match a, b with
  | VNum x, VNum y | VNum x, VBig y | VBig x, VNum y | VBig x, VBig y => x <? y
  | _, _ => false
  end.

Definition js_le (a b : val) : bool :=
  match a, b with
  | VNum x, VNum y | VNum x, VBig y | VBig x, VNum y | VBig x, VBig y => x <=? y
  | _, _ => false
  end.

(** The operand of a bit operator or of [-]: null and undefined count as 0. *)
Definition num (v : val) : Z := match v with VNum n => n | _ => 0 end.

(** Bytes held by a field whose own encoding has already checked it. *)
Definition raw (v : val) : bytes := match v with VBytes bs => bs | _ => [] end.
Definition elems (v : val) : list val := match v with VList vs => vs | _ => [] end.

(** ** Lemmas on the result monad *)

Lemma bindR_ok {A B} (m : result A) (f : A -> result B) b :
  bindR m f = Ok b <-> exists a, m = Ok a /\ f a = Ok b.
Proof. destruct m; simpl; naive_solver. Qed.

Lemma throw_if_ok c e u : throw_if c e = Ok u <-> c = false.
Proof. destruct c, u; simpl; naive_solver. Qed.

Lemma fail_if_ok c u : fail_if c = Ok u <-> c = false.
Proof. apply throw_if_ok. Qed.

Lemma for_each_ok {A} (body : A -> result unit) l :
  for_each body l = Ok tt <-> Forall (fun x => body x = Ok tt) l.
Proof.
  induction l as [|x l IH]; simpl; [split; auto|].
  rewrite Forall_cons, <- IH. destruct (body x) as [[]|]; simpl; naive_solver.
Qed.

(** Breaks every hypothesis [... = Ok _] built from [let!], [;;!] and
    [throw_if] into the hypotheses that each step succeeded. *)
Ltac ok_step :=
  match goal with
  | H : bindR _ _ = Ok _ |- _ => apply bindR_ok in H as (? & ? & ?)
  | H : fail_if _ = Ok _ |- _ => unfold fail_if in H
  | H : throw_if _ _ = Ok _ |- _ => apply throw_if_ok in H
  | H : Ok _ = Ok _ |- _ => injection H as H; subst
  | H : Err _ = Ok _ |- _ => discriminate H
  | H : (if ?c then Err _ else _) = Ok _ |- _ => destruct c eqn:?; [discriminate H|]
  | x : unit |- _ => destruct x
  end.
Ltac oks := repeat ok_step.

Lemma bindM_ok {S A B} (m : M S A) (k : A -> M S B) s y s' :
  bindM m k s = (Ok y, s') -> exists x s1, m s = (Ok x, s1) /\ k x s1 = (Ok y, s').
Proof. unfold bindM. destruct (m s) as [[x|e] s1]; [by exists x, s1|done]. Qed.

Lemma bindM_ext {S A B} (m : M S A) (k j : A -> M S B) s : (forall x s', k x s' = j x s') -> bindM m k s = bindM m j s.
Proof. intros Hk. unfold bindM. destruct (m s) as [[x|e] s1]; [apply Hk|done]. Qed.

Lemma bind_run {S A B} (m : M S A) (k : A -> M S B) s x s1 : m s = (Ok x, s1) -> bindM m k s = k x s1.
Proof. unfold bindM. by intros ->. Qed.

Lemma lift_ok {S A} (m : result A) (s : S) x s' : lift m s = (Ok x, s') -> m = Ok x /\ s' = s.
Proof. unfold lift. intros [= -> ->]. done. Qed.

Lemma throwM_ok {S} c e (s : S) x s' : throwM_if c e s = (Ok x, s') -> c = false /\ s' = s.
Proof. unfold throwM_if. intros [Hc ->]%lift_ok. by apply throw_if_ok in Hc. Qed.

Lemma ret_ok {S A} (x y : A) (s s' : S) : ret x s = (Ok y, s') -> y = x /\ s' = s.
Proof. by intros [= -> ->]. Qed.

(** Takes a computation that succeeded apart. *)
Ltac run_ok :=
  repeat match goal with
  | H : bindM _ _ _ = (Ok _, _) |- _ => apply bindM_ok in H as (? & ? & ? & ?)
  | H : lift _ _ = (Ok _, _) |- _ => apply lift_ok in H as [? ?]; subst
  | H : throwM_if _ _ _ = (Ok _, _) |- _ => apply throwM_ok in H as [? ?]; subst
  | H : ret _ _ = (Ok _, _) |- _ => apply ret_ok in H as [? ?]; subst
  | H : throw _ _ = (Ok _, _) |- _ => discriminate H
  end.

(** An invariant that a computation keeps, whether it throws or not. *)
Definition preserves {S A} (I : S -> Prop) (m : M S A) : Prop := forall s, I s -> I (snd (m s)).

Lemma preserves_ret {S A} (I : S -> Prop) (x : A) : preserves I (ret x).
Proof. by intros s. Qed.
Lemma preserves_throw {S A} (I : S -> Prop) e : preserves I (@throw S A e).
Proof. by intros s. Qed.
Lemma preserves_lift {S A} (I : S -> Prop) (m : result A) : preserves I (lift m).
Proof. by intros s. Qed.
Lemma preserves_check {S} (I : S -> Prop) c e : preserves I (throwM_if c e).
Proof. by intros s. Qed.
Lemma preserves_gets {S A} (I : S -> Prop) (f : S -> A) : preserves I (gets f).
Proof. by intros s. Qed.
Lemma preserves_modify {S} (I : S -> Prop) (f : S -> S) : (forall s, I s -> I (f s)) -> preserves I (modify f).
Proof. intros Hf s. apply Hf. Qed.
Lemma preserves_bind {S A B} (I : S -> Prop) (m : M S A) (k : A -> M S B) : preserves I m -> (forall x, preserves I (k x)) -> preserves I (bindM m k).
Proof. intros Hm Hk s Hs. specialize (Hm s Hs). unfold bindM. destruct (m s) as [[x|e] s']; [by apply Hk|exact Hm]. Qed.
Lemma preserves_catch {S A} (I : S -> Prop) (m k : M S A) : preserves I m -> preserves I k -> preserves I (catch m k).
Proof. intros Hm Hk s Hs. specialize (Hm s Hs). unfold catch. destruct (m s) as [[x|e] s']; [exact Hm|by apply Hk]. Qed.
Lemma preserves_each {S A} (I : S -> Prop) (body : A -> M S unit) l : (forall x, preserves I (body x)) -> preserves I (each body l).
Proof. intros Hb. induction l as [|x l IH]; [apply preserves_ret|]. by apply preserves_bind. Qed.

Create HintDb keeps discriminated.
#[export] Hint Resolve preserves_ret preserves_throw preserves_lift preserves_check preserves_gets preserves_bind preserves_catch preserves_each : keeps.

(** Follows the structure of a computation; the steps that change something are
    left, or found in the database. *)
Ltac keeping := repeat first [
  progress intros | solve [auto with keeps nocore] | apply preserves_bind | apply preserves_catch | apply preserves_each | case_match ].

(** Turns boolean comparisons into propositions. *)
Ltac b2p :=
  repeat match goal with
  | H : (_ && _)%bool = true |- _ => apply andb_prop in H as [? ?]
  | H : (_ || _)%bool = false |- _ => apply orb_false_elim in H as [? ?]
  | H : negb _ = true |- _ => apply negb_true_iff in H
  | H : negb _ = false |- _ => apply negb_false_iff in H
  | H : (_ <? _) = true |- _ => apply Z.ltb_lt in H
  | H : (_ <? _) = false |- _ => apply Z.ltb_ge in H
  | H : (_ <=? _) = true |- _ => apply Z.leb_le in H
  | H : (_ <=? _) = false |- _ => apply Z.leb_gt in H
  | H : (_ =? _) = true |- _ => apply Z.eqb_eq in H
  | H : (_ =? _) = false |- _ => apply Z.eqb_neq in H
  end.

Lemma is_num_iff v n : is_num v n = true <-> v = VNum n.
Proof.
  split; [|intros ->; apply Z.eqb_refl].
  destruct v; try discriminate. intros H. by apply Z.eqb_eq in H as ->.
Qed.

(** ** Lemmas on bytes *)

Lemma b2z_range b : 0 <= b2z b < 256.
Proof. unfold b2z. pose proof (Byte.to_N_bounded b). lia. Qed.

Lemma b2z_z2b z : b2z (z2b z) = z mod 256.
Proof.
  unfold z2b, b2z. pose proof (Z.mod_pos_bound z 256 ltac:(lia)) as Hm.
  destruct (Byte.of_N (Z.to_N (z mod 256))) as [b|] eqn:E.
  - apply Byte.to_of_N in E. rewrite E. lia.
  - apply Byte.of_N_None_iff in E. lia.
Qed.

Lemma b2z_inj a b : b2z a = b2z b -> a = b.
Proof.
  unfold b2z. intros H. assert (Byte.to_N a = Byte.to_N b) as E by lia.
  apply (f_equal Byte.of_N) in E. rewrite !Byte.of_to_N in E. congruence.
Qed.

Lemma z2b_b2z b : z2b (b2z b) = b.
Proof. apply b2z_inj. rewrite b2z_z2b. apply Z.mod_small, b2z_range. Qed.

Lemma z2b_cong y z : y mod 256 = z mod 256 -> z2b y = z2b z.
Proof. intros H. apply b2z_inj. by rewrite !b2z_z2b. Qed.

Lemma bytes_eqb_eq a b : bytes_eqb a b = true <-> a = b.
Proof.
  revert b; induction a as [|x a IH]; intros [|y b]; simpl; try naive_solver.
  rewrite andb_true_iff, IH. unfold byte_eqb.
  pose proof (Byte.byte_dec_bl x y). pose proof (Byte.byte_dec_lb (x:=x) (y:=y)). naive_solver.
Qed.

Lemma bytes_eqb_refl a : bytes_eqb a a = true.
Proof. by apply bytes_eqb_eq. Qed.

Lemma blen_nonneg bs : 0 <= blen bs.
Proof. unfold blen. lia. Qed.

Lemma blen_app a b : blen (a ++ b) = blen a + blen b.
Proof. unfold blen. rewrite length_app. lia. Qed.

Lemma blen_cons b bs : blen (b :: bs) = 1 + blen bs.
Proof. unfold blen. simpl. lia. Qed.

Lemma blen_nil : blen [] = 0.
Proof. done. Qed.

Lemma blen_replicate n b : blen (replicate n b) = Z.of_nat n.
Proof. unfold blen. by rewrite length_replicate. Qed.

Lemma length_be_bytes n z : List.length (be_bytes n z) = n.
Proof.
  revert z; induction n as [|n IH]; intros z; simpl; [done|].
  rewrite length_app, IH. simpl. lia.
Qed.

Lemma blen_be_bytes n z : blen (be_bytes n z) = Z.of_nat n.
Proof. unfold blen. by rewrite length_be_bytes. Qed.

Lemma be_val_from_app acc a b : be_val_from acc (a ++ b) = be_val_from (be_val_from acc a) b.
Proof. revert acc; induction a; simpl; auto. Qed.

Lemma be_val_snoc a b : be_val (a ++ [b]) = be_val a * 256 + b2z b.
Proof. unfold be_val. by rewrite be_val_from_app. Qed.

Lemma be_val_be_bytes n z : 0 <= z < 256 ^ Z.of_nat n -> be_val (be_bytes n z) = z.
Proof.
  revert z; induction n as [|n IH]; intros z Hz.
  - change (256 ^ Z.of_nat 0) with 1 in Hz. unfold be_val. simpl. lia.
  - simpl be_bytes. rewrite be_val_snoc, b2z_z2b, IH.
    + pose proof (Z.div_mod z 256). lia.
    + rewrite Nat2Z.inj_succ, Z.pow_succ_r in Hz by lia.
      split; [apply Z.div_pos; lia | apply Z.div_lt_upper_bound; lia].
Qed.

Lemma be_val_bound bs : 0 <= be_val bs < 256 ^ blen bs.
Proof.
  induction bs as [|b bs IH] using rev_ind.
  - unfold be_val, blen. simpl. lia.
  - rewrite be_val_snoc, blen_app. pose proof (b2z_range b).
    change (blen [b]) with 1. rewrite Z.pow_add_r by (unfold blen; lia). nia.
Qed.

Lemma be_bytes_be_val bs : be_bytes (List.length bs) (be_val bs) = bs.
Proof.
  induction bs as [|b bs IH] using rev_ind; [done|].
  rewrite length_app, Nat.add_1_r. simpl. rewrite be_val_snoc.
  pose proof (b2z_range b).
  rewrite Z.div_add_l, (Z.div_small (b2z b)), Z.add_0_r, IH by lia.
  do 2 f_equal. rewrite <- (z2b_b2z b) at 2. apply z2b_cong.
  by rewrite Z.add_comm, Z_mod_plus_full.
Qed.

Lemma be_bytes_of n bs : List.length bs = n -> be_bytes n (be_val bs) = bs.
Proof. intros <-. apply be_bytes_be_val. Qed.

Lemma blen_le_bytes n z : blen (le_bytes n z) = Z.of_nat n.
Proof. unfold blen, le_bytes. by rewrite length_rev, length_be_bytes. Qed.

Lemma le_val_le_bytes n z : 0 <= z < 256 ^ Z.of_nat n -> le_val (le_bytes n z) = z.
Proof. intros H. unfold le_val, le_bytes. rewrite rev_involutive. by apply be_val_be_bytes. Qed.

Lemma le_bytes_of n bs : List.length bs = n -> le_bytes n (le_val bs) = bs.
Proof.
  intros H. unfold le_val, le_bytes. rewrite be_bytes_of by by rewrite length_rev.
  apply rev_involutive.
Qed.

Lemma le_val_bound bs : 0 <= le_val bs < 256 ^ blen bs.
Proof.
  unfold le_val. pose proof (be_val_bound (rev bs)) as H.
  unfold blen in *. by rewrite length_rev in H.
Qed.

(** ** Lemmas on slices and splices *)

Lemma length_splice buf i bs :
  0 <= i -> i + blen bs <= blen buf -> List.length (splice buf i bs) = List.length buf.
Proof.
  unfold splice, blen. intros ??.
  rewrite !length_app, length_take, length_drop. lia.
Qed.

Lemma blen_splice buf i bs :
  0 <= i -> i + blen bs <= blen buf -> blen (splice buf i bs) = blen buf.
Proof. intros. unfold blen at 1 2. by rewrite length_splice. Qed.

Lemma splice_nil buf i : splice buf i [] = buf.
Proof. unfold splice. simpl. rewrite Nat.add_0_r. apply take_drop. Qed.

Lemma splice_all buf bs : blen bs = blen buf -> splice buf 0 bs = bs.
Proof.
  unfold splice, blen. intros H. rewrite take_0. simpl.
  rewrite drop_ge by lia. apply app_nil_r.
Qed.

Lemma splice_app buf i a b :
  0 <= i -> i + blen a + blen b <= blen buf ->
  splice (splice buf i a) (i + blen a) b = splice buf i (a ++ b).
Proof.
  unfold splice, blen. intros Hi Hl.
  replace (Z.to_nat (i + Z.of_nat (List.length a))) with (Z.to_nat i + List.length a)%nat by lia.
  set (n := Z.to_nat i) in *. assert (n <= List.length buf)%nat by lia.
  rewrite (app_assoc (take n buf)), length_app.
  rewrite take_app_le, take_ge by (rewrite length_app, length_take; lia).
  rewrite drop_app_ge by (rewrite length_app, length_take; lia).
  rewrite drop_drop, <- !app_assoc. do 4 f_equal. rewrite length_app, length_take. lia.
Qed.

Lemma splice_before buf i a b :
  0 <= i -> i + blen a + blen b <= blen buf ->
  splice (splice buf (i + blen a) b) i a = splice buf i (a ++ b).
Proof.
  unfold splice, blen. intros Hi Hl.
  replace (Z.to_nat (i + Z.of_nat (List.length a))) with (Z.to_nat i + List.length a)%nat by lia.
  set (n := Z.to_nat i) in *.
  rewrite take_app_le, take_take by (rewrite length_take; lia).
  rewrite Nat.min_l by lia. rewrite <- app_assoc. do 2 f_equal.
  rewrite drop_app_ge by (rewrite length_take; lia).
  rewrite length_take, Nat.min_l, length_app, Nat.sub_diag, Nat.add_assoc by lia. done.
Qed.

Lemma set_byte_splice buf i v :
  0 <= i < blen buf -> set_byte buf i v = splice buf i [z2b v].
Proof.
  intros [Hi Hl]. unfold set_byte, splice, blen in *.
  rewrite (proj2 (Z.ltb_ge i 0)) by lia. simpl.
  rewrite insert_take_drop by lia. do 3 f_equal. lia.
Qed.

(** Filling a buffer from the left. *)
Lemma splice_next buf a i b :
  i = blen a -> blen a + blen b <= blen buf ->
  splice (splice buf 0 a) i b = splice buf 0 (a ++ b).
Proof. intros -> Hl. by rewrite <- (splice_app buf 0 a b) by (pose proof (blen_nonneg a); lia). Qed.

Lemma set_byte_next buf a i v :
  i = blen a -> blen a + 1 <= blen buf ->
  set_byte (splice buf 0 a) i v = splice buf 0 (a ++ [z2b v]).
Proof.
  intros -> Hl. pose proof (blen_nonneg a).
  rewrite set_byte_splice by (rewrite blen_splice; lia). by apply splice_next.
Qed.

(** Reading back a part of a concatenation. *)
Lemma slice_part bs a b c i n : bs = a ++ b ++ c -> i = blen a -> n = blen b -> slice bs i n = b.
Proof.
  intros -> -> ->. unfold slice, blen. rewrite !Nat2Z.id, drop_app_length. apply take_app_length.
Qed.

Lemma get_byte_part bs a x c i : bs = a ++ x :: c -> i = blen a -> get_byte bs i = b2z x.
Proof.
  intros -> ->. unfold get_byte, blen. rewrite Nat2Z.id, lookup_app_r by lia. by rewrite Nat.sub_diag.
Qed.

Lemma drop_part bs a b i : bs = a ++ b -> i = blen a -> drop (Z.to_nat i) bs = b.
Proof. intros -> ->. unfold blen. rewrite Nat2Z.id. apply drop_app_length. Qed.

Lemma blen_slice buf i n :
  0 <= i -> 0 <= n -> i + n <= blen buf -> blen (slice buf i n) = n.
Proof. unfold slice, blen. intros. rewrite length_take, length_drop. lia. Qed.

Lemma slice_nil buf i : slice buf i 0 = [].
Proof. done. Qed.

Lemma slice_app buf i n m :
  0 <= i -> 0 <= n -> 0 <= m -> slice buf i (n + m) = slice buf i n ++ slice buf (i + n) m.
Proof.
  unfold slice. intros. rewrite !Z2Nat.inj_add by lia.
  rewrite <- drop_drop. symmetry. apply (take_take_drop (drop (Z.to_nat i) buf)).
Qed.

Lemma slice_all buf : slice buf 0 (blen buf) = buf.
Proof. unfold slice, blen. rewrite drop_0, Nat2Z.id. by apply take_ge. Qed.

Lemma slice_cons buf i n :
  0 <= i < blen buf -> 0 <= n -> slice buf i (1 + n) = z2b (get_byte buf i) :: slice buf (i + 1) n.
Proof.
  unfold blen. intros Hi Hn. rewrite slice_app by lia.
  unfold slice at 1, get_byte. change (Z.to_nat 1) with 1%nat.
  destruct (lookup_lt_is_Some_2 buf (Z.to_nat i) ltac:(lia)) as [b Hb].
  rewrite Hb, z2b_b2z. erewrite drop_S by exact Hb. done.
Qed.

(** ** Lemmas on the 32-bit operators *)

Lemma to_int32_mod z k : 0 <= k <= 32 -> to_int32 z mod 2 ^ k = z mod 2 ^ k.
Proof.
  intros Hk. unfold to_int32.
  assert (H32 : 4294967296 = 2 ^ k * 2 ^ (32 - k)) by (rewrite <- Z.pow_add_r by lia; by replace (k + (32 - k)) with 32 by lia).
  assert (0 < 2 ^ k) by lia. assert (0 < 2 ^ (32 - k)) by lia.
  assert (Hm : (z mod 4294967296) mod 2 ^ k = z mod 2 ^ k).
  { rewrite H32. rewrite <- Znumtheory.Zmod_div_mod; try lia. by exists (2 ^ (32 - k)); lia. }
  simpl. destruct (z mod 4294967296 <? 2147483648); [done|].
  rewrite <- Hm. replace (z mod 4294967296 - 4294967296) with (z mod 4294967296 + (- 2 ^ (32 - k)) * 2 ^ k) by lia.
  apply Z_mod_plus_full.
Qed.

Lemma js_and_255 z : js_and z 255 = z mod 256.
Proof.
  unfold js_and. change (to_int32 255) with (Z.ones 8). rewrite Z.land_ones by lia.
  apply (to_int32_mod z 8). lia.
Qed.

(** ** Lemmas on objects *)

Lemma String_eqb_iff (a b : string) : String.eqb a b = true <-> a = b.
Proof. apply String.eqb_eq. Qed.

Lemma obj_set_fresh fs name v :
  assoc name fs = None -> obj_set fs name v = fs ++ [(name, v)].
Proof.
  induction fs as [|[k x] fs IH]; simpl; [done|].
  destruct (String.eqb k name); [done|]. intros H. by rewrite IH.
Qed.

Lemma assoc_app {A} name (l1 l2 : list (string * A)) :
  assoc name (l1 ++ l2) = match assoc name l1 with Some x => Some x | None => assoc name l2 end.
Proof.
  induction l1 as [|[k x] l1 IH]; simpl; [done|]. by destruct (String.eqb k name).
Qed.

Lemma assoc_None {A} name (l : list (string * A)) :
  assoc name l = None <-> ~ In name (map fst l).
Proof.
  induction l as [|[k x] l IH]; simpl; [naive_solver|].
  destruct (String.eqb k name) eqn:E.
  - apply String.eqb_eq in E. naive_solver.
  - apply String.eqb_neq in E. rewrite IH. naive_solver.
Qed.

#[export] Hint Rewrite blen_app blen_cons blen_nil blen_replicate blen_be_bytes blen_le_bytes : hive_len.

(** Computes the length of a byte string built from parts. *)
Ltac len := autorewrite with hive_len; try lia.
