(* ===== verification/JsMap.v ===== *)
(** * Maps with insertion order

    A JavaScript [Map] as the list of its entries: [set] on a new key adds at
    the end, on an old one it replaces where it stands. Keys are compared with
    a function. *)

From Stdlib Require Import ZArith Lia Bool List.
From stdpp Require Import base tactics list.
From S2P Require Import Prelude.

Definition map_get {K V} (eqb : K -> K -> bool) (key : K) (entries : list (K * V)) : option V :=
  snd <$> List.find (fun e => eqb (fst e) key) entries.

Definition map_set {K V} (eqb : K -> K -> bool) (key : K) (value : V) (entries : list (K * V)) : list (K * V) :=
  if existsb (fun e => eqb (fst e) key) entries
  then map (fun e => if eqb (fst e) key then (fst e, value) else e) entries
  else entries ++ [(key, value)].

Definition map_delete {K V} (eqb : K -> K -> bool) (key : K) (entries : list (K * V)) : list (K * V) :=
  List.filter (fun e => negb (eqb (fst e) key)) entries.

(** ** Keys that are not there *)

Lemma map_set_fresh {K V} (eqb : K -> K -> bool) key (v : V) entries : Forall (fun e => eqb (fst e) key = false) entries ->
  map_set eqb key v entries = entries ++ [(key, v)].
Proof. unfold map_set. intros Hf. replace (existsb _ _) with false; [done|]. induction Hf as [|e es He _ IH]; [done|]. cbn. by rewrite He. Qed.

Lemma map_delete_fresh {K V} (eqb : K -> K -> bool) key (entries : list (K * V)) : Forall (fun e => eqb (fst e) key = false) entries ->
  map_delete eqb key entries = entries.
Proof. unfold map_delete. induction 1 as [|e es He _ IH]; [done|]. cbn. by rewrite He, IH. Qed.

Lemma map_delete_first {K V} (eqb : K -> K -> bool) key v (entries : list (K * V)) : eqb key key = true ->
  Forall (fun e => eqb (fst e) key = false) entries -> map_delete eqb key ((key, v) :: entries) = entries.
Proof. intros Hk Hf. unfold map_delete. cbn. rewrite Hk. by apply map_delete_fresh. Qed.

Lemma map_delete_app {K V} (eqb : K -> K -> bool) key (l l' : list (K * V)) : map_delete eqb key (l ++ l') = map_delete eqb key l ++ map_delete eqb key l'.
Proof. apply List.filter_app. Qed.

(** ** Maps as functions *)

Section Keyed.
Context {K V : Type} (eqb : K -> K -> bool) (eqb_eq : forall x y, eqb x y = true <-> x = y).
Implicit Types (m l r : list (K * V)) (v : V) (k : K).

Lemma eqb_refl k : eqb k k = true.
Proof. by apply eqb_eq. Qed.

Lemma get_none k m : map_get eqb k m = None <-> Forall (fun e => eqb (fst e) k = false) m.
Proof.
  unfold map_get. induction m as [|e m IH]; cbn; [by split|]. rewrite Forall_cons. destruct (eqb (fst e) k) eqn:E; [|tauto].
  split; [done|]. by intros [? _].
Qed.

Lemma get_none_keys k m : map_get eqb k m = None <-> ~ In k (map fst m).
Proof.
  rewrite get_none, List.Forall_forall. split.
  - intros Hf (e & <- & He)%in_map_iff. specialize (Hf e He). by rewrite eqb_refl in Hf.
  - intros Hn e He. apply not_true_is_false. intros Hk%eqb_eq. apply Hn. rewrite <- Hk. by apply in_map.
Qed.

Lemma get_some k m v : map_get eqb k m = Some v -> exists l r, m = l ++ (k, v) :: r /\ Forall (fun e => eqb (fst e) k = false) l.
Proof.
  unfold map_get. induction m as [|[k' v'] m IH]; [done|]. cbn. destruct (eqb k' k) eqn:E.
  - intros [= <-]. apply eqb_eq in E as ->. by exists [], m.
  - intros (l & r & -> & Hl)%IH. exists ((k', v') :: l), r. split; [done|]. by constructor.
Qed.

Lemma get_in k m v : map_get eqb k m = Some v -> In (k, v) m.
Proof. intros (l & r & -> & _)%get_some. apply in_or_app. right. by left. Qed.

Lemma get_app k l r : Forall (fun e => eqb (fst e) k = false) l -> map_get eqb k (l ++ r) = map_get eqb k r.
Proof. unfold map_get. induction 1 as [|e l He _ IH]; [done|]. cbn. by rewrite He. Qed.

Lemma get_cons k k' v m : map_get eqb k ((k', v) :: m) = if eqb k' k then Some v else map_get eqb k m.
Proof. unfold map_get. cbn. by destruct (eqb k' k). Qed.

Lemma in_get k m v : NoDup (map fst m) -> In (k, v) m -> map_get eqb k m = Some v.
Proof.
  induction m as [|[k' v'] m IH]; [done|]. cbn [map fst]. intros [Hn Hd]%NoDup_cons [[= -> ->]|Hin]; rewrite get_cons; [by rewrite eqb_refl|].
  destruct (eqb k' k) eqn:E; [|by apply IH]. apply eqb_eq in E as ->. destruct Hn. apply list_elem_of_In, in_map_iff. by exists (k, v).
Qed.

(** Replacing the first and only entry of a key. *)
Lemma set_split k v v' l r : Forall (fun e => eqb (fst e) k = false) l -> Forall (fun e => eqb (fst e) k = false) r ->
  map_set eqb k v' (l ++ (k, v) :: r) = l ++ (k, v') :: r.
Proof.
  intros Hl Hr. unfold map_set. replace (existsb _ _) with true by (symmetry; rewrite existsb_app; cbn; rewrite eqb_refl; by rewrite orb_true_r).
  assert (Hid : forall m, Forall (fun e => eqb (fst e) k = false) m -> map (fun e : K * V => if eqb (fst e) k then (fst e, v') else e) m = m).
  { induction 1 as [|e m He _ IH]; [done|]. cbn. by rewrite He, IH. }
  rewrite map_app. cbn. by rewrite eqb_refl, !Hid.
Qed.

Lemma delete_split k v l r : Forall (fun e => eqb (fst e) k = false) l -> Forall (fun e => eqb (fst e) k = false) r ->
  map_delete eqb k (l ++ (k, v) :: r) = l ++ r.
Proof. intros Hl Hr. rewrite map_delete_app, (map_delete_fresh _ _ l) by done. by rewrite map_delete_first by (done || apply eqb_refl). Qed.

(** The entries before and after the only one of a key. *)
Lemma only_entry k m v : NoDup (map fst m) -> map_get eqb k m = Some v -> exists l r, m = l ++ (k, v) :: r /\
  Forall (fun e => eqb (fst e) k = false) l /\ Forall (fun e => eqb (fst e) k = false) r.
Proof.
  intros Hd (l & r & -> & Hl)%get_some. exists l, r. split_and!; [done..|]. apply get_none. apply get_none_keys.
  rewrite map_app in Hd. cbn in Hd. apply NoDup_app in Hd as (_ & _ & [Hn _]%NoDup_cons). by rewrite <- list_elem_of_In.
Qed.

Lemma get_set k k' v m : map_get eqb k' (map_set eqb k v m) = if eqb k k' then Some v else map_get eqb k' m.
Proof.
  unfold map_set. destruct (existsb _ m) eqn:Ex.
  - induction m as [|[k0 v0] m IH]; [done|]. cbn in Ex. cbn [map fst]. destruct (eqb k0 k) eqn:E0.
    + apply eqb_eq in E0 as ->. rewrite !get_cons. destruct (eqb k k') eqn:E; [done|]. clear -E eqb_eq.
      induction m as [|[k1 v1] m IH]; [done|]. cbn [map fst]. destruct (eqb k1 k) eqn:E1; rewrite !get_cons; [apply eqb_eq in E1 as ->; by rewrite E|].
      destruct (eqb k1 k'); [done|exact IH].
    + rewrite !get_cons. destruct (eqb k0 k') eqn:E1; [|by apply IH]. apply eqb_eq in E1 as ->. destruct (eqb k k') eqn:E; [|done].
      apply eqb_eq in E as ->. by rewrite eqb_refl in E0.
  - assert (Hf : Forall (fun e => eqb (fst e) k = false) m).
    { apply List.Forall_forall. intros e He. apply not_true_is_false. intros Hk. apply not_true_iff_false in Ex. apply Ex, existsb_exists. eauto. }
    clear Ex. induction Hf as [|[k0 v0] m He _ IH]; cbn [app]; rewrite !get_cons; [by destruct (eqb k k')|]. cbn in He.
    destruct (eqb k0 k') eqn:E0; [|exact IH]. apply eqb_eq in E0 as ->. destruct (eqb k k') eqn:E; [|done]. apply eqb_eq in E as ->. by rewrite eqb_refl in He.
Qed.

Lemma get_delete k k' m : map_get eqb k' (map_delete eqb k m) = if eqb k k' then None else map_get eqb k' m.
Proof.
  unfold map_delete. induction m as [|[k0 v0] m IH]; [by destruct (eqb k k')|]. cbn [List.filter fst]. destruct (eqb k0 k) eqn:E; cbn [negb].
  - rewrite IH, get_cons. apply eqb_eq in E as ->. by destruct (eqb k k').
  - rewrite !get_cons, IH. destruct (eqb k0 k') eqn:E'; [|done]. apply eqb_eq in E' as ->. destruct (eqb k k') eqn:E''; [|done].
    apply eqb_eq in E'' as ->. by rewrite eqb_refl in E.
Qed.

Lemma set_keys k v m : NoDup (map fst m) -> NoDup (map fst (map_set eqb k v m)).
Proof.
  intros Hd. destruct (map_get eqb k m) as [v0|] eqn:E.
  - destruct (only_entry k m v0 Hd E) as (l & r & -> & Hl & Hr). rewrite set_split by done. by rewrite map_app in *.
  - rewrite map_set_fresh by (by apply get_none). rewrite map_app. apply NoDup_app. split_and!; [done| |apply NoDup_singleton].
    intros x Hx%list_elem_of_In. cbn. intros ->%list_elem_of_singleton. by apply get_none_keys in E.
Qed.

Lemma delete_keys k m : NoDup (map fst m) -> NoDup (map fst (map_delete eqb k m)).
Proof.
  intros Hd. destruct (map_get eqb k m) as [v0|] eqn:E; [|by rewrite map_delete_fresh by (by apply get_none)].
  destruct (only_entry k m v0 Hd E) as (l & r & -> & Hl & Hr). rewrite delete_split by done. rewrite map_app in *. cbn in Hd.
  apply NoDup_app in Hd as (Hd1 & Hd2 & [_ Hd3]%NoDup_cons). apply NoDup_app. split_and!; [done| |done]. intros x Hx Hr'. apply (Hd2 x Hx). by right.
Qed.

(** ** Sums over the entries *)

Definition sum_of (f : K -> V -> Z) (m : list (K * V)) : Z := fold_right (fun e n => f (fst e) (snd e) + n) 0 m.

Context (f : K -> V -> Z).

Lemma sum_of_app l r : sum_of f (l ++ r) = sum_of f l + sum_of f r.
Proof. unfold sum_of. induction l as [|e l IH]; cbn [app fold_right]; lia. Qed.

Lemma sum_cons k v m : sum_of f ((k, v) :: m) = f k v + sum_of f m.
Proof. done. Qed.

Lemma sum_new k v m : map_get eqb k m = None -> sum_of f (map_set eqb k v m) = sum_of f m + f k v.
Proof. intros Hn. rewrite map_set_fresh by (by apply get_none). rewrite sum_of_app, sum_cons. change (sum_of f []) with 0. lia. Qed.

Lemma sum_replaced k v v0 m : NoDup (map fst m) -> map_get eqb k m = Some v0 -> sum_of f (map_set eqb k v m) = sum_of f m - f k v0 + f k v.
Proof. intros Hd (l & r & -> & Hl & Hr)%only_entry; [|done]. rewrite set_split by done. rewrite !sum_of_app, !sum_cons. lia. Qed.

Lemma sum_deleted k v0 m : NoDup (map fst m) -> map_get eqb k m = Some v0 -> sum_of f (map_delete eqb k m) = sum_of f m - f k v0.
Proof. intros Hd (l & r & -> & Hl & Hr)%only_entry; [|done]. rewrite delete_split by done. rewrite !sum_of_app, !sum_cons. lia. Qed.

Lemma sum_of_nonneg m : (forall k v, In (k, v) m -> 0 <= f k v) -> 0 <= sum_of f m.
Proof.
  intros Hf. induction m as [|[k v] m IH]; [done|]. rewrite sum_cons. pose proof (Hf k v ltac:(by left)).
  assert (0 <= sum_of f m) by (apply IH; intros; apply Hf; by right). lia.
Qed.

End Keyed.

(** What is set to what it is *)
Lemma map_set_same {K V} (eqb : K -> K -> bool) (eqb_eq : forall x y, eqb x y = true <-> x = y) k (v : V) m :
  NoDup (map fst m) -> map_get eqb k m = Some v -> map_set eqb k v m = m.
Proof.
  intros Hd Hg. destruct (only_entry eqb eqb_eq k m v Hd Hg) as (l & r & -> & Hl & Hr). by rewrite set_split.
Qed.

(** ** Another value at every key *)

Section Values.
Context {K V W : Type} (eqb : K -> K -> bool) (g : V -> W).

Definition map_values (m : list (K * V)) : list (K * W) := map (fun e => (fst e, g (snd e))) m.

Lemma values_get k m : map_get eqb k (map_values m) = g <$> map_get eqb k m.
Proof. unfold map_get. induction m as [|[k' v] m IH]; [done|]. cbn. by destruct (eqb k' k). Qed.

Lemma values_keys m : map fst (map_values m) = map fst m.
Proof. unfold map_values. rewrite map_map. done. Qed.

Lemma values_set k v m : map_values (map_set eqb k v m) = map_set eqb k (g v) (map_values m).
Proof.
  unfold map_set. replace (existsb _ (map_values m)) with (existsb (fun e => eqb (fst e) k) m).
  - destruct (existsb _ m); unfold map_values; [|by rewrite map_app]. rewrite !map_map. apply map_ext. intros [k' v']. cbn. by destruct (eqb k' k).
  - induction m as [|e m IH]; [done|]. cbn. by rewrite IH.
Qed.

Lemma values_delete k m : map_values (map_delete eqb k m) = map_delete eqb k (map_values m).
Proof. unfold map_delete, map_values. induction m as [|e m IH]; [done|]. cbn. destruct (eqb (fst e) k); cbn; by rewrite IH. Qed.

Lemma sum_values (n : K -> W -> Z) m : sum_of n (map_values m) = sum_of (fun k v => n k (g v)) m.
Proof. unfold map_values. induction m as [|[k v] m IH]; [done|]. exact (f_equal (Z.add _) IH). Qed.
End Values.
