(* ===== verification/Codec.v ===== *)
(** * The canonical codec combinators (packages/blind-protocol/codec.js)

    An encoding is a JavaScript object with three methods working on a shared
    cursor state; here it is a record of three state-passing functions. The
    [parent] argument is the third argument [struct] passes to the methods of
    its fields (VUndef where the code passes nothing).

    What the code takes from outside the repository and from Unicode tables is
    the class [Platform]: BLAKE2b-256 (sodium), String.prototype.normalize,
    String.prototype.toLowerCase on a host and the URL constructor. *)

From Stdlib Require Import ZArith Lia Bool List String Ascii.
From Stdlib Require Import Strings.Byte DecimalString.
From stdpp Require Import base tactics list strings.
From S2P Require Import Prelude.

(** The components of [new URL(text)] that the code reads. *)
Record parsed_url := ParsedUrl {
  url_username : bytes;
  url_password : bytes;
  url_search : bytes;
  url_hash : bytes;
  url_hostname : bytes;
  url_pathname : bytes;
}.

Class Platform := {
  (** [sodium.crypto_generichash] with a 32-byte output. *)
  generichash : bytes -> bytes;
  (** [text === text.normalize('NFC')] for the text of valid UTF-8 bytes. *)
  is_nfc : bytes -> bool;
  (** [host === host.toLowerCase()]. *)
  is_lower_case : bytes -> bool;
  (** [new URL(text)]; None when it throws. *)
  parse_url : bytes -> option parsed_url;
}.

(** The cursor the three methods share. [copyBytes] only decides whether
    decoded bytes alias the input, so it has no field. *)
Record state := St { st_start : Z; st_end : Z; st_buffer : bytes }.

Definition with_start (s : state) (n : Z) : state := St n (st_end s) (st_buffer s).
Definition with_end (s : state) (n : Z) : state := St (st_start s) n (st_buffer s).
Definition with_buffer (s : state) (b : bytes) : state := St (st_start s) (st_end s) b.

(** [state.start += n] and [state.end += n]. *)
Definition adv (s : state) (n : Z) : state := with_start s (st_start s + n).
Definition grow (s : state) (n : Z) : state := with_end s (st_end s + n).

Record encoding := Enc {
  preencode : state -> val -> val -> result state;
  encode : state -> val -> val -> result state;
  decode : state -> val -> result (val * state);
}.

Definition asBuffer (value : val) : result bytes :=
  match value with VBytes bs => Ok bs | _ => Err BAD_ENCODING end.

Definition assertAvailable (s : state) (length : Z) : result unit :=
  fail_if (negb (isSafeInteger length) || (length <? 0) || (st_end s - st_start s <? length)).

Definition assertUnsignedNumber (value : val) (maximum : Z) : result Z :=
  match value with
  | VNum n => if negb (isSafeInteger n) || (n <? 0) || (maximum <? n) then Err BAD_ENCODING else Ok n
  | _ => Err BAD_ENCODING
  end.

Definition asU64 (value : val) : result Z :=
  let! value := match value with
                | VNum n => if negb (isSafeInteger n) || (n <? 0) then Err BAD_ENCODING else Ok (VBig n)
                | _ => Ok value
                end in
  match value with
  | VBig n => if (n <? 0) || (MAX_U64 <? n) then Err BAD_ENCODING else Ok n
  | _ => Err BAD_ENCODING
  end.

Definition readU16LE (buffer : bytes) (offset : Z) : Z :=
  js_or (get_byte buffer offset) (js_shl (get_byte buffer (offset + 1)) 8).

Definition readU32LE (buffer : bytes) (offset : Z) : Z :=
  get_byte buffer offset + get_byte buffer (offset + 1) * 0x100 +
  get_byte buffer (offset + 2) * 0x10000 + get_byte buffer (offset + 3) * 0x1000000.

Definition writeU16LE (buffer : bytes) (value offset : Z) : bytes :=
  let buffer := set_byte buffer offset value in
  set_byte buffer (offset + 1) (js_ushr value 8).

Definition writeU32LE (buffer : bytes) (value offset : Z) : bytes :=
  let buffer := set_byte buffer offset value in
  let buffer := set_byte buffer (offset + 1) (js_ushr value 8) in
  let buffer := set_byte buffer (offset + 2) (js_ushr value 16) in
  set_byte buffer (offset + 3) (js_ushr value 24).

(** [value = (value << 8n) | BigInt(buffer[offset + i])] for i in [idx]. *)
Fixpoint readU64_loop (buffer : bytes) (offset : Z) (idx : list Z) (value : Z) : Z :=
  match idx with
  | [] => value
  | i :: rest =>
      readU64_loop buffer offset rest (Z.lor (Z.shiftl value 8) (get_byte buffer (offset + i)))
  end.

Definition readU64 (buffer : bytes) (offset : Z) (littleEndian : bool) : Z :=
  readU64_loop buffer offset
    (if littleEndian then [7; 6; 5; 4; 3; 2; 1; 0] else [0; 1; 2; 3; 4; 5; 6; 7]) 0.

(** [buffer[offset + i] = Number(value & 0xffn); value >>= 8n] for i in [idx]. *)
Fixpoint writeU64_loop (buffer : bytes) (value offset : Z) (idx : list Z) : bytes :=
  match idx with
  | [] => buffer
  | i :: rest =>
      writeU64_loop (set_byte buffer (offset + i) (Z.land value 0xff)) (Z.shiftr value 8) offset rest
  end.

Definition writeU64 (buffer : bytes) (value offset : Z) (littleEndian : bool) : bytes :=
  writeU64_loop buffer value offset
    (if littleEndian then [0; 1; 2; 3; 4; 5; 6; 7] else [7; 6; 5; 4; 3; 2; 1; 0]).

(** [for (let i = bytes - 1; i >= 0; i--) { buffer[start + i] = value & 0xff;
    value = Math.floor(value / 0x100) }] *)
Fixpoint write_be_loop (n : nat) (buffer : bytes) (start value : Z) : bytes :=
  match n with
  | O => buffer
  | S i => write_be_loop i (set_byte buffer (start + Z.of_nat i) (js_and value 0xff)) start (value / 0x100)
  end.

(** [for (let i = 0; i < bytes; i++) value = value * 0x100 + buffer[start++]] *)
Fixpoint read_be_loop (n : nat) (buffer : bytes) (start value : Z) : Z :=
  match n with
  | O => value
  | S i => read_be_loop i buffer (start + 1) (value * 0x100 + get_byte buffer start)
  end.

Definition fixedUnsigned (nbytes maximum : Z) : encoding := {|
  preencode s value _ :=
    let! _ := assertUnsignedNumber value maximum in
    Ok (grow s nbytes);
  encode s value _ :=
    let! value := assertUnsignedNumber value maximum in
    assertAvailable s nbytes ;;!
    Ok (adv (with_buffer s (write_be_loop (Z.to_nat nbytes) (st_buffer s) (st_start s) value)) nbytes);
  decode s _ :=
    assertAvailable s nbytes ;;!
    Ok (VNum (read_be_loop (Z.to_nat nbytes) (st_buffer s) (st_start s) 0), adv s nbytes)
|}.

Definition u8 : encoding := fixedUnsigned 1 0xff.
Definition u16be : encoding := fixedUnsigned 2 0xffff.
Definition u32be : encoding := fixedUnsigned 4 0xffffffff.

Definition u64be : encoding := {|
  preencode s value _ :=
    let! _ := asU64 value in
    Ok (grow s 8);
  encode s value _ :=
    let! value := asU64 value in
    assertAvailable s 8 ;;!
    Ok (adv (with_buffer s (writeU64 (st_buffer s) value (st_start s) false)) 8);
  decode s _ :=
    assertAvailable s 8 ;;!
    Ok (VBig (readU64 (st_buffer s) (st_start s) false), adv s 8)
|}.

(** [value <= 0xfc ? 1 : value <= 0xffff ? 3 : value <= 0xffffffff ? 5 : 9] *)
Definition compactUint_size (value : Z) : Z :=
  if value <=? 0xfc then 1 else if value <=? 0xffff then 3 else if value <=? 0xffffffff then 5 else 9.

Definition compactUint_preencode (s : state) (value : Z) : result state :=
  let! value := assertUnsignedNumber (VNum value) MAX_SAFE_INTEGER in
  Ok (grow s (compactUint_size value)).

Definition compactUint_encode (s : state) (value : Z) : result state :=
  let! value := assertUnsignedNumber (VNum value) MAX_SAFE_INTEGER in
  let nbytes := compactUint_size value in
  assertAvailable s nbytes ;;!
  if nbytes =? 1 then
    Ok (adv (with_buffer s (set_byte (st_buffer s) (st_start s) value)) 1)
  else if nbytes =? 3 then
    let s := adv (with_buffer s (set_byte (st_buffer s) (st_start s) 0xfd)) 1 in
    Ok (adv (with_buffer s (writeU16LE (st_buffer s) value (st_start s))) 2)
  else if nbytes =? 5 then
    let s := adv (with_buffer s (set_byte (st_buffer s) (st_start s) 0xfe)) 1 in
    Ok (adv (with_buffer s (writeU32LE (st_buffer s) value (st_start s))) 4)
  else
    let s := adv (with_buffer s (set_byte (st_buffer s) (st_start s) 0xff)) 1 in
    Ok (adv (with_buffer s (writeU64 (st_buffer s) value (st_start s) true)) 8).

Definition compactUint_decode (s : state) : result (Z * state) :=
  assertAvailable s 1 ;;!
  let marker := get_byte (st_buffer s) (st_start s) in
  let s := adv s 1 in
  if marker <=? 0xfc then Ok (marker, s)
  else if marker =? 0xfd then
    assertAvailable s 2 ;;!
    let value := readU16LE (st_buffer s) (st_start s) in
    fail_if (value <=? 0xfc) ;;!
    Ok (value, adv s 2)
  else if marker =? 0xfe then
    assertAvailable s 4 ;;!
    let value := readU32LE (st_buffer s) (st_start s) in
    fail_if (value <=? 0xffff) ;;!
    Ok (value, adv s 4)
  else
    assertAvailable s 8 ;;!
    let value := readU64 (st_buffer s) (st_start s) true in
    fail_if ((value <=? 0xffffffff) || (MAX_SAFE_INTEGER <? value)) ;;!
    Ok (value, adv s 8).

(** ** Byte strings *)

Definition fixedBytes (length : Z) : encoding := {|
  preencode s value _ :=
    let! value := asBuffer value in
    fail_if (negb (blen value =? length)) ;;!
    Ok (grow s length);
  encode s value _ :=
    let! value := asBuffer value in
    fail_if (negb (blen value =? length)) ;;!
    assertAvailable s length ;;!
    Ok (adv (with_buffer s (splice (st_buffer s) (st_start s) value)) length);
  decode s _ :=
    assertAvailable s length ;;!
    Ok (VBytes (slice (st_buffer s) (st_start s) length), adv s length)
|}.

Definition constantBytes (expected : bytes) : encoding :=
  let encoding := fixedBytes (blen expected) in {|
  preencode s value p :=
    let value := if nullish value then VBytes expected else value in
    let! value := asBuffer value in
    fail_if (negb (bytes_eqb value expected)) ;;!
    preencode encoding s (VBytes expected) p;
  encode s value p :=
    let value := if nullish value then VBytes expected else value in
    let! value := asBuffer value in
    fail_if (negb (bytes_eqb value expected)) ;;!
    encode encoding s (VBytes expected) p;
  decode s p :=
    let! (value, s) := decode encoding s p in
    fail_if (negb (bytes_eqb (raw value) expected)) ;;!
    Ok (value, s)
|}.

(** The decimal name of an integer property key. *)
Definition decimal_name (n : Z) : string := NilZero.string_of_int (Z.to_int n).

(** [String(value)] of a number, BigInt, string or boolean; the text of other
    values is the caller's. *)
Definition js_text (text_of_object : val -> string) (value : val) : string :=
  match value with
  | VStr s => s
  | VNum n | VBig n => decimal_name n
  | VBool b => if b then "true" else "false"
  | VUndef => "undefined"
  | VNull => "null"
  | _ => text_of_object value
  end.

(** A table such as CELL_SIZE_CLASS, read as [table[key]]: a number or BigInt
    key is turned into its decimal name. (Keys that are arrays or functions are
    left out.) *)
Definition table_get {A} (table : list (Z * A)) (key : val) : option A :=
  match key with
  | VNum k | VBig k => snd <$> find (fun e => fst e =? k) table
  | VStr s => snd <$> find (fun e => String.eqb (decimal_name (fst e)) s) table
  | _ => None
  end.

Definition selectedLength (classField : string) (classLengths : list (Z * Z)) (parent : val)
    : result Z :=
  match table_get classLengths (get parent classField) with
  | Some length => if negb (isSafeInteger length) || (length <? 0) then Err BAD_ENCODING else Ok length
  | None => Err BAD_ENCODING
  end.

Definition exactBytesByClass (classField : string) (classLengths : list (Z * Z)) : encoding := {|
  preencode s value parent :=
    let! value := asBuffer value in
    let! length := selectedLength classField classLengths parent in
    fail_if (negb (blen value =? length)) ;;!
    Ok (grow s length);
  encode s value parent :=
    let! value := asBuffer value in
    let! length := selectedLength classField classLengths parent in
    fail_if (negb (blen value =? length)) ;;!
    assertAvailable s length ;;!
    Ok (adv (with_buffer s (splice (st_buffer s) (st_start s) value)) length);
  decode s parent :=
    let! length := selectedLength classField classLengths parent in
    assertAvailable s length ;;!
    Ok (VBytes (slice (st_buffer s) (st_start s) length), adv s length)
|}.

Definition boundedBytes (minimum maximum : Z) : encoding := {|
  preencode s value _ :=
    let! value := asBuffer value in
    fail_if ((blen value <? minimum) || (maximum <? blen value)) ;;!
    let! s := compactUint_preencode s (blen value) in
    Ok (grow s (blen value));
  encode s value _ :=
    let! value := asBuffer value in
    fail_if ((blen value <? minimum) || (maximum <? blen value)) ;;!
    let! s := compactUint_encode s (blen value) in
    assertAvailable s (blen value) ;;!
    Ok (adv (with_buffer s (splice (st_buffer s) (st_start s) value)) (blen value));
  decode s _ :=
    let! (length, s) := compactUint_decode s in
    fail_if ((length <? minimum) || (maximum <? length)) ;;!
    assertAvailable s length ;;!
    Ok (VBytes (slice (st_buffer s) (st_start s) length), adv s length)
|}.

(** ** Strict UTF-8

    [b4a.equals(b4a.from(b4a.toString(value, 'utf8'), 'utf8'), value)] holds
    exactly for well-formed UTF-8: the decoder replaces every malformed
    sequence by U+FFFD and the encoder writes the shortest form. *)
Definition in_range (lo hi : Z) (b : byte) : bool := (lo <=? b2z b) && (b2z b <=? hi).

Fixpoint strict_utf8 (bs : bytes) : bool :=
  match bs with
  | [] => true
  | b0 :: r0 =>
      if in_range 0 0x7f b0 then strict_utf8 r0
      else match r0 with
      | [] => false
      | b1 :: r1 =>
          if in_range 0xc2 0xdf b0 then in_range 0x80 0xbf b1 && strict_utf8 r1
          else match r1 with
          | [] => false
          | b2 :: r2 =>
              if in_range 0xe0 0xef b0 then
                (if b2z b0 =? 0xe0 then in_range 0xa0 0xbf b1
                 else if b2z b0 =? 0xed then in_range 0x80 0x9f b1
                 else in_range 0x80 0xbf b1)
                && in_range 0x80 0xbf b2 && strict_utf8 r2
              else match r2 with
              | [] => false
              | b3 :: r3 =>
                  in_range 0xf0 0xf4 b0 &&
                  (if b2z b0 =? 0xf0 then in_range 0x90 0xbf b1
                   else if b2z b0 =? 0xf4 then in_range 0x80 0x8f b1
                   else in_range 0x80 0xbf b1)
                  && in_range 0x80 0xbf b2 && in_range 0x80 0xbf b3 && strict_utf8 r3
              end
          end
      end
  end.

Section WithPlatform.
Context `{Platform}.

Definition canonicalTextValue (value : val) (minimum maximum : Z) (asciiOnly : bool)
    : result bytes :=
  let! value := asBuffer value in
  fail_if ((blen value <? minimum) || (maximum <? blen value)) ;;!
  for_each (fun b =>
    fail_if (b2z b =? 0) ;;!
    fail_if (asciiOnly && ((b2z b <? 0x20) || (0x7e <? b2z b)))) value ;;!
  fail_if (negb (strict_utf8 value)) ;;!
  fail_if (negb (is_nfc value)) ;;!
  Ok value.

Definition canonicalTextBytes (minimum maximum : Z) (asciiOnly : bool) : encoding :=
  let encoding := boundedBytes minimum maximum in {|
  preencode s value p :=
    let! text := canonicalTextValue value minimum maximum asciiOnly in
    preencode encoding s (VBytes text) p;
  encode s value p :=
    let! text := canonicalTextValue value minimum maximum asciiOnly in
    encode encoding s (VBytes text) p;
  decode s p :=
    let! (value, s) := decode encoding s p in
    let! _ := canonicalTextValue value minimum maximum asciiOnly in
    Ok (value, s)
|}.

Definition canonicalUtf8Bytes (minimum maximum : Z) : encoding :=
  canonicalTextBytes minimum maximum false.

Definition canonicalAsciiBytes (minimum maximum : Z) : encoding :=
  canonicalTextBytes minimum maximum true.

(** ** Canonical URLs *)

(** The byte of a literal ASCII character. *)
Definition ch (a : ascii) : byte := byte_of_ascii a.

Fixpoint strip_prefix (prefix text : bytes) : option bytes :=
  match prefix, text with
  | [], _ => Some text
  | p :: prefix', t :: text' => if Byte.eqb p t then strip_prefix prefix' text' else None
  | _, [] => None
  end.

Definition ends_with (text suffix : bytes) : bool :=
  match strip_prefix (rev suffix) (rev text) with Some _ => true | None => false end.

(** The longest prefix satisfying [p], and the rest. *)
Fixpoint span (p : byte -> bool) (text : bytes) : bytes * bytes :=
  match text with
  | [] => ([], [])
  | b :: rest => if p b then let (x, y) := span p rest in (b :: x, y) else ([], text)
  end.

Definition includes (text : bytes) (b : byte) : bool := existsb (Byte.eqb b) text.

(** [text.indexOf(b)] and [text.lastIndexOf(b)], -1 when absent. *)
Fixpoint indexOf_from (i : Z) (text : bytes) (b : byte) : Z :=
  match text with
  | [] => -1
  | x :: rest => if Byte.eqb b x then i else indexOf_from (i + 1) rest b
  end.
Definition indexOf (text : bytes) (b : byte) : Z := indexOf_from 0 text b.

Fixpoint lastIndexOf_from (i last : Z) (text : bytes) (b : byte) : Z :=
  match text with
  | [] => last
  | x :: rest => lastIndexOf_from (i + 1) (if Byte.eqb b x then i else last) rest b
  end.
Definition lastIndexOf (text : bytes) (b : byte) : Z := lastIndexOf_from 0 (-1) text b.

Definition char_at (text : bytes) (i : Z) : option byte :=
  if i <? 0 then None else text !! Z.to_nat i.

(** The match of the URL pattern: scheme http or https, then a non-empty
    authority without slash, question mark or hash, then a path that starts
    with a slash and has no question mark or hash. *)
Definition match_url (text : bytes) : option (bytes * bytes * bytes) :=
  let split (scheme rest : bytes) : option (bytes * bytes * bytes) :=
    let (authority, path) :=
      span (fun b => negb (includes (ascii_bytes "/?#") b)) rest in
    match authority, path with
    | _ :: _, _ :: _ =>
        if Byte.eqb (ch "/") (List.hd Byte.x00 path)
           && forallb (fun b => negb (includes (ascii_bytes "?#") b)) path
        then Some (scheme, authority, path) else None
    | _, _ => None
    end in
  match strip_prefix (ascii_bytes "https://") text with
  | Some rest => split (ascii_bytes "https") rest
  | None =>
      match strip_prefix (ascii_bytes "http://") text with
      | Some rest => split (ascii_bytes "http") rest
      | None => None
      end
  end.

(** [/^[1-9][0-9]{0,4}$/.test(text)] *)
Definition is_port_text (text : bytes) : bool :=
  match text with
  | d :: rest =>
      in_range 0x31 0x39 d && (blen rest <=? 4) && forallb (in_range 0x30 0x39) rest
  | [] => false
  end.

(** [Number(text)] for a string of decimal digits. *)
Definition decimal (text : bytes) : Z :=
  fold_left (fun n b => n * 10 + (b2z b - 0x30)) text 0.

Definition is_upper_hex (b : byte) : bool := in_range 0x30 0x39 b || in_range 0x41 0x46 b.

(** [/%(?![0-9A-F]{2})/.test(path)] *)
Fixpoint has_bad_escape (path : bytes) : bool :=
  match path with
  | [] => false
  | b :: rest =>
      (Byte.eqb b (ch "%") &&
       negb (match rest with x :: y :: _ => is_upper_hex x && is_upper_hex y | _ => false end))
      || has_bad_escape rest
  end.

(** [/^[a-z2-7]{56}\.onion$/.test(host)] *)
Definition is_onion (host : bytes) : bool :=
  (blen host =? 62)
  && forallb (fun b => in_range 0x61 0x7a b || in_range 0x32 0x37 b) (take 56 host)
  && bytes_eqb (drop 56 host) (ascii_bytes ".onion").

Definition split_authority (authority : bytes) : result (bytes * bytes) :=
  if match authority with b :: _ => Byte.eqb b (ch "[") | [] => false end then
    let close := indexOf authority (ch "]") in
    fail_if ((close <? 0) ||
             negb (match char_at authority (close + 1) with
                   | Some b => Byte.eqb b (ch ":") | None => false end)) ;;!
    Ok (take (Z.to_nat (close + 1)) authority, drop (Z.to_nat (close + 2)) authority)
  else
    let colon := lastIndexOf authority (ch ":") in
    fail_if ((colon <=? 0) || negb (indexOf authority (ch ":") =? colon)) ;;!
    Ok (take (Z.to_nat colon) authority, drop (Z.to_nat (colon + 1)) authority).

Definition validateCanonicalUrl (value : val) (requireOnion : bool) : result unit :=
  let! text := canonicalTextValue value 1 512 false in
  let! (scheme, authority, path) :=
    match match_url text with Some m => Ok m | None => Err BAD_ENCODING end in
  fail_if (includes authority (ch "@")) ;;!
  let! (host, portText) := split_authority authority in
  fail_if (negb (is_lower_case host)) ;;!
  fail_if (negb (is_port_text portText)) ;;!
  fail_if (65535 <? decimal portText) ;;!
  fail_if (has_bad_escape path) ;;!
  let! parsed := match parse_url text with Some u => Ok u | None => Err BAD_ENCODING end in
  fail_if ((0 <? blen (url_username parsed)) || (0 <? blen (url_password parsed))
           || (0 <? blen (url_search parsed)) || (0 <? blen (url_hash parsed))
           || negb (bytes_eqb (url_hostname parsed) host)
           || negb (bytes_eqb (url_pathname parsed) path)) ;;!
  let onion := is_onion host in
  if requireOnion then
    fail_if (negb onion || negb (bytes_eqb scheme (ascii_bytes "http")
                                 || bytes_eqb scheme (ascii_bytes "https")))
  else
    fail_if (negb (bytes_eqb scheme (ascii_bytes "https")) || onion
             || ends_with host (ascii_bytes ".onion")).

Definition canonicalHttpsUrlBytes : encoding :=
  let encoding := canonicalUtf8Bytes 1 512 in {|
  preencode s value p :=
    validateCanonicalUrl value false ;;!
    preencode encoding s value p;
  encode s value p :=
    validateCanonicalUrl value false ;;!
    encode encoding s value p;
  decode s p :=
    let! (value, s) := decode encoding s p in
    validateCanonicalUrl value false ;;!
    Ok (value, s)
|}.

End WithPlatform.

(** ** Optional values, arrays, structs *)

Definition optional (encoding : encoding) : Codec.encoding := {|
  preencode s value _ :=
    let! s := preencode u8 s (VNum (if nullish value then 0 else 1)) VUndef in
    if nullish value then Ok s else preencode encoding s value VUndef;
  encode s value _ :=
    let! s := encode u8 s (VNum (if nullish value then 0 else 1)) VUndef in
    if nullish value then Ok s else encode encoding s value VUndef;
  decode s _ :=
    let! (tag, s) := decode u8 s VUndef in
    if is_num tag 0 then Ok (VNull, s)
    else
      fail_if (negb (is_num tag 1)) ;;!
      decode encoding s VUndef
|}.

(** [for (const value of values) state = method(state, value)] *)
Fixpoint fold_values (method : state -> val -> result state) (s : state) (values : list val)
    : result state :=
  match values with
  | [] => Ok s
  | value :: rest => let! s := method s value in fold_values method s rest
  end.

(** [for (let i = 0; i < count; i++) values[i] = encoding.decode(state)] *)
Fixpoint decode_values (method : state -> result (val * state)) (count : nat) (s : state)
    : result (list val * state) :=
  match count with
  | O => Ok ([], s)
  | S n =>
      let! (value, s) := method s in
      let! (values, s) := decode_values method n s in
      Ok (value :: values, s)
  end.

Definition array_of_value (minimum maximum : Z) (values : val) : result (list val) :=
  match values with
  | VList vs =>
      if (Z.of_nat (List.length vs) <? minimum) || (maximum <? Z.of_nat (List.length vs))
      then Err BAD_ENCODING else Ok vs
  | _ => Err BAD_ENCODING
  end.

Definition arrayOf (encoding : encoding) (minimum maximum : Z) : Codec.encoding := {|
  preencode s values _ :=
    let! vs := array_of_value minimum maximum values in
    let! s := compactUint_preencode s (Z.of_nat (List.length vs)) in
    fold_values (fun s v => preencode encoding s v VUndef) s vs;
  encode s values _ :=
    let! vs := array_of_value minimum maximum values in
    let! s := compactUint_encode s (Z.of_nat (List.length vs)) in
    fold_values (fun s v => encode encoding s v VUndef) s vs;
  decode s _ :=
    let! (count, s) := compactUint_decode s in
    fail_if ((count <? minimum) || (maximum <? count)) ;;!
    let! (values, s) := decode_values (fun s => decode encoding s VUndef) (Z.to_nat count) s in
    Ok (VList values, s)
|}.

(** The field list of a struct, and [options.validate]. *)
Abbreviation fields := (list (string * encoding)).

Fixpoint struct_fields (method : encoding -> state -> val -> val -> result state)
    (fs : fields) (s : state) (value : val) : result state :=
  match fs with
  | [] => Ok s
  | (name, e) :: rest =>
      let! s := method e s (get value name) value in
      struct_fields method rest s value
  end.

Fixpoint struct_decode (fs : fields) (s : state) (value : list (string * val))
    : result (list (string * val) * state) :=
  match fs with
  | [] => Ok (value, s)
  | (name, e) :: rest =>
      let! (x, s) := decode e s (VObj value) in
      struct_decode rest s (obj_set value name x)
  end.

Definition run_validate (validate : option (val -> result unit)) (value : val) : result unit :=
  match validate with Some f => f value | None => Ok tt end.

Definition struct (fs : fields) (validate : option (val -> result unit)) : encoding := {|
  preencode s value _ :=
    fail_if (negb (is_object value)) ;;!
    let! s := struct_fields preencode fs s value in
    run_validate validate value ;;!
    Ok s;
  encode s value _ :=
    fail_if (negb (is_object value)) ;;!
    struct_fields encode fs s value;
  decode s _ :=
    let! (value, s) := struct_decode fs s [] in
    run_validate validate (VObj value) ;;!
    Ok (VObj value, s)
|}.

Definition constant (encoding : encoding) (expected : Z) : Codec.encoding := {|
  preencode s value _ :=
    let value := if nullish value then VNum expected else value in
    fail_if (negb (strict_eqb value (VNum expected))) ;;!
    preencode encoding s (VNum expected) VUndef;
  encode s value _ :=
    let value := if nullish value then VNum expected else value in
    fail_if (negb (strict_eqb value (VNum expected))) ;;!
    encode encoding s (VNum expected) VUndef;
  decode s _ :=
    let! (value, s) := decode encoding s VUndef in
    fail_if (negb (strict_eqb value (VNum expected))) ;;!
    Ok (value, s)
|}.

(** [typeof value !== 'number' || value < minimum || value > maximum]. A
    number that is not integral passes this test or not, and then fails in the
    integer encoding below, with the same error. *)
Definition out_of_range (value : val) (minimum maximum : Z) : bool :=
  match value with
  | VNum n => (n <? minimum) || (maximum <? n)
  | _ => true
  end.

Definition ranged (encoding : encoding) (minimum maximum : Z) : Codec.encoding := {|
  preencode s value _ :=
    fail_if (out_of_range value minimum maximum) ;;!
    preencode encoding s value VUndef;
  encode s value _ :=
    fail_if (out_of_range value minimum maximum) ;;!
    encode encoding s value VUndef;
  decode s _ :=
    let! (value, s) := decode encoding s VUndef in
    fail_if (js_lt value (VNum minimum) || js_lt (VNum maximum) value) ;;!
    Ok (value, s)
|}.

(** ** Entry points *)

Definition encodeCanonical (encoding : encoding) (value : val) : result bytes :=
  let s := St 0 0 [] in
  let! s := preencode encoding s value VUndef in
  let s := with_buffer s (replicate (Z.to_nat (st_end s)) Byte.x00) in
  let s := with_start s 0 in
  let! s := encode encoding s value VUndef in
  fail_if (negb (st_start s =? st_end s)) ;;!
  Ok (st_buffer s).

Definition decodeCanonical (encoding : encoding) (input : val) : result val :=
  let! input := asBuffer input in
  let s := St 0 (blen input) input in
  let! (value, s) := decode encoding s VUndef in
  fail_if (negb (st_start s =? st_end s)) ;;!
  Ok value.
