(* ===== verification/CodecLaws.v ===== *)
(** * Laws of the canonical codec

    The contract of an encoding is the class [Lawful]: what its writer emits
    is a function of the value, its reader accepts only what the writer emits,
    and the reader returns values of a known JavaScript type. Every combinator
    of Codec.v gets an instance, so the laws of a schema follow from its shape
    by instance resolution. *)

From Stdlib Require Import ZArith Lia Bool List String Ascii.
From Stdlib Require Import Strings.Byte.
From stdpp Require Import base tactics list strings.
From S2P Require Import Prelude Codec.

#[global] Arguments assertUnsignedNumber : simpl never.
#[global] Arguments assertAvailable : simpl never.
#[global] Arguments asU64 : simpl never.
#[global] Arguments compactUint_preencode : simpl never.
#[global] Arguments compactUint_encode : simpl never.
#[global] Arguments compactUint_decode : simpl never.

(** ** Types of decoded values *)

Inductive jstype : Type :=
| TNum
| TBig
| TBytes
| TConst (n : Z)
| TOpt (t : jstype)
| TArr (t : jstype)
| TObj (fs : list (string * jstype))
| TOr (a b : jstype).

Definition has_fields (ht : jstype -> val -> bool) :=
  fix go (fs : list (string * jstype)) (vs : list (string * val)) : bool :=
    match fs, vs with
    | [], [] => true
    | (n, t) :: fs', (m, x) :: vs' => String.eqb n m && ht t x && go fs' vs'
    | _, _ => false
    end.

Fixpoint has_type (t : jstype) (v : val) : bool :=
  match t with
  | TNum => match v with VNum _ => true | _ => false end
  | TBig => match v with VBig _ => true | _ => false end
  | TBytes => match v with VBytes _ => true | _ => false end
  | TConst n => is_num v n
  | TOpt t' => match v with VNull => true | _ => has_type t' v end
  | TArr t' => match v with VList vs => forallb (has_type t') vs | _ => false end
  | TObj fs => match v with VObj vs => has_fields has_type fs vs | _ => false end
  | TOr a b => has_type a v || has_type b v
  end.

Lemma has_type_nil l : has_type (TObj []) (VObj l) = true -> l = [].
Proof. by destruct l. Qed.

Lemma has_type_cons n t fs l : has_type (TObj ((n, t) :: fs)) (VObj l) = true ->
  exists x l', l = (n, x) :: l' /\ has_type t x = true /\ has_type (TObj fs) (VObj l') = true.
Proof.
  destruct l as [|[m x] l]; [done|]. cbn. intros Hq.
  apply andb_prop in Hq as [Hq Hr]. apply andb_prop in Hq as [Hn Ht].
  apply String.eqb_eq in Hn as <-. eauto.
Qed.

(** Types with no null or undefined value. *)
Fixpoint non_null (t : jstype) : bool :=
  match t with
  | TOpt _ => false
  | TOr a b => non_null a && non_null b
  | _ => true
  end.

Definition numeric (t : jstype) : bool :=
  match t with TNum | TConst _ => true | _ => false end.

(** ** Cursors *)

Definition wf (s : state) : Prop :=
  0 <= st_start s /\ st_start s <= st_end s /\ st_end s = blen (st_buffer s).

(** The cursor after [bs] has been stored at its position. *)
Definition write (s : state) (bs : bytes) : state :=
  adv (with_buffer s (splice (st_buffer s) (st_start s) bs)) (blen bs).

(** The next bytes under the cursor are [bs]. *)
Definition at_cursor (s : state) (bs : bytes) : Prop :=
  st_start s + blen bs <= st_end s /\ slice (st_buffer s) (st_start s) (blen bs) = bs.

(** A sizing pass that counts [n] bytes, a writing pass that stores [bs], a
    reading pass that recognises [bs] as [x]. *)
Definition sizes (f : state -> result state) (n : Z) : Prop :=
  forall s, f s = Ok (grow s n).

Definition writes (g : state -> result state) (bs : bytes) : Prop :=
  forall s, wf s -> st_start s + blen bs <= st_end s -> g s = Ok (write s bs).

Definition reads {A} (d : state -> result (A * state)) (bs : bytes) (x : A) : Prop :=
  forall s, wf s -> at_cursor s bs -> d s = Ok (x, adv s (blen bs)).

(** The value [v], inside [parent], is encoded as exactly [bs]. *)
Definition emits (e : encoding) (v parent : val) (bs : bytes) : Prop :=
  sizes (fun s => preencode e s v parent) (blen bs) /\
  writes (fun s => encode e s v parent) bs.

(** Two parents that agree on the fields an encoding looks at. *)
Definition agree (deps : list string) (p p' : val) : Prop :=
  Forall (fun f => get p f = get p' f) deps.

Class Lawful (e : encoding) (deps : list string) (t : jstype) : Prop := {
  sized_emits : forall s v p s', preencode e s v p = Ok s' -> exists bs, emits e v p bs;
  decode_sound : forall s p v s', wf s -> decode e s p = Ok (v, s') ->
    has_type t v = true /\
    exists bs, at_cursor s bs /\ s' = adv s (blen bs) /\
      forall p', agree deps p p' -> emits e v p' bs;
  decode_complete : forall v p p' bs, has_type t v = true -> emits e v p bs ->
    agree deps p p' -> reads (fun s => decode e s p') bs v;
}.

(** ** Lemmas on cursors *)

Lemma adv_adv s a b : adv (adv s a) b = adv s (a + b).
Proof. unfold adv, with_start; simpl. f_equal. lia. Qed.

Lemma adv_0 s : adv s 0 = s.
Proof. destruct s. unfold adv, with_start; simpl. f_equal. lia. Qed.

Lemma grow_grow s a b : grow (grow s a) b = grow s (a + b).
Proof. unfold grow, with_end; simpl. f_equal. lia. Qed.

Lemma grow_0 s : grow s 0 = s.
Proof. destruct s. unfold grow, with_end; simpl. f_equal. lia. Qed.

Lemma wf_adv s n : wf s -> 0 <= n -> st_start s + n <= st_end s -> wf (adv s n).
Proof. unfold wf, adv, with_start; simpl. lia. Qed.

Lemma wf_write s bs : wf s -> st_start s + blen bs <= st_end s -> wf (write s bs).
Proof.
  unfold wf, write, adv, with_start, with_buffer; simpl. intros (?&?&He) Hl.
  rewrite blen_splice by lia. pose proof (blen_nonneg bs). lia.
Qed.

Lemma write_write s a b :
  wf s -> st_start s + blen a + blen b <= st_end s -> write (write s a) b = write s (a ++ b).
Proof.
  unfold wf, write, adv, with_start, with_buffer; simpl. intros (?&?&He) Hl.
  rewrite splice_app by lia. rewrite blen_app. f_equal. lia.
Qed.

Lemma write_nil s : write s [] = s.
Proof.
  destruct s. unfold write, adv, with_start, with_buffer; simpl. rewrite splice_nil. f_equal.
  unfold blen; simpl; lia.
Qed.

Lemma at_cursor_nil s : wf s -> at_cursor s [].
Proof. unfold wf, at_cursor. intros. split; [unfold blen; simpl; lia | done]. Qed.

Lemma at_cursor_app s a b :
  wf s -> at_cursor s (a ++ b) <-> at_cursor s a /\ at_cursor (adv s (blen a)) b.
Proof.
  unfold wf, at_cursor, adv, with_start; simpl. intros (?&?&?).
  pose proof (blen_nonneg a). pose proof (blen_nonneg b).
  rewrite blen_app, slice_app by lia. split.
  - intros [Hl Heq]. apply app_inj_1 in Heq as [Ha Hb].
    + repeat split; auto; lia.
    + pose proof (blen_slice (st_buffer s) (st_start s) (blen a)) as Hs.
      unfold blen in *. lia.
  - intros [[Hl Ha] [Hl' Hb]]. rewrite Ha, Hb. split; [lia | done].
Qed.

Lemma at_cursor_wf s bs : wf s -> at_cursor s bs -> wf (adv s (blen bs)).
Proof. intros Hwf [Hl _]. apply wf_adv; auto. apply blen_nonneg. Qed.

(** Any in-range read gives the bytes under the cursor. *)
Lemma at_cursor_slice s n :
  wf s -> 0 <= n -> st_start s + n <= st_end s ->
  at_cursor s (slice (st_buffer s) (st_start s) n) /\
  blen (slice (st_buffer s) (st_start s) n) = n.
Proof.
  intros (?&?&?) ??. assert (blen (slice (st_buffer s) (st_start s) n) = n) as E
    by (apply blen_slice; lia).
  split; auto. unfold at_cursor. rewrite E. split; auto.
Qed.

Lemma assertAvailable_ok s n :
  assertAvailable s n = Ok tt <-> 0 <= n <= MAX_SAFE_INTEGER /\ st_start s + n <= st_end s.
Proof.
  unfold assertAvailable, fail_if. rewrite throw_if_ok, !orb_false_iff, negb_false_iff.
  unfold isSafeInteger. rewrite andb_true_iff, !Z.leb_le, !Z.ltb_ge. unfold MAX_SAFE_INTEGER. lia.
Qed.

(** Computes the components of a cursor. *)
Ltac cursor := cbn [st_buffer st_start st_end adv with_start with_buffer] in *.

Ltac available :=
  match goal with
  | |- context [assertAvailable ?s ?n] =>
      rewrite (proj2 (assertAvailable_ok s n)) by
        (unfold MAX_SAFE_INTEGER, wf, adv, write, with_start, with_buffer, at_cursor in *; simpl in *; lia)
  end.

(** *** Sequencing *)

Lemma sizes_bind f g a b :
  sizes f a -> sizes g b -> sizes (fun s => let! s := f s in g s) (a + b).
Proof. intros Hf Hg s. rewrite Hf. simpl. rewrite Hg. by rewrite grow_grow. Qed.

Lemma sizes_ret : sizes (fun s => Ok s) 0.
Proof. intros s. by rewrite grow_0. Qed.

Lemma writes_bind f g a b :
  writes f a -> writes g b -> writes (fun s => let! s := f s in g s) (a ++ b).
Proof.
  intros Hf Hg s Hwf Hl. rewrite blen_app in Hl.
  pose proof (blen_nonneg a). pose proof (blen_nonneg b).
  rewrite Hf by (auto; lia). simpl. rewrite Hg.
  - by rewrite write_write by (auto; lia).
  - apply wf_write; auto; lia.
  - unfold write, adv, with_start, with_buffer; simpl; lia.
Qed.

Lemma writes_ret : writes (fun s => Ok s) [].
Proof. intros s ??. by rewrite write_nil. Qed.

Lemma reads_bind {A B} (d : state -> result (A * state)) (k : A -> state -> result (B * state)) a b x y :
  reads d a x -> reads (k x) b y -> reads (fun s => let! (x, s) := d s in k x s) (a ++ b) y.
Proof.
  intros Hd Hk s Hwf Hc. apply at_cursor_app in Hc as [Ha Hb]; auto.
  rewrite Hd by auto. simpl. rewrite Hk by (auto using at_cursor_wf).
  by rewrite adv_adv, blen_app.
Qed.

Lemma reads_ret {A} (x : A) : reads (fun s => Ok (x, s)) [] x.
Proof. intros s ??. by rewrite adv_0. Qed.

Lemma sizes_fun f n m : sizes f n -> sizes f m -> n = m.
Proof.
  intros H1 H2. specialize (H1 (St 0 0 [])). specialize (H2 (St 0 0 [])).
  rewrite H1 in H2. injection H2. lia.
Qed.

(** A value has one encoding. *)
Lemma emits_fun e v p a b : emits e v p a -> emits e v p b -> a = b.
Proof.
  intros [Sa Wa] [Sb Wb]. pose proof (sizes_fun _ _ _ Sa Sb) as Hlen.
  pose (s := St 0 (blen a) a).
  assert (wf s) by (unfold wf, s; simpl; pose proof (blen_nonneg a); lia).
  pose proof (Wa s ltac:(auto) ltac:(unfold s; simpl; lia)) as Ea.
  pose proof (Wb s ltac:(auto) ltac:(unfold s; simpl; lia)) as Eb.
  cbv beta in Ea, Eb. rewrite Ea in Eb. 
  apply (f_equal (fun r => match r with Ok s => st_buffer s | Err _ => [] end)) in Eb.
  simpl in Eb. rewrite !splice_all in Eb by (auto; congruence). done.
Qed.

(** ** Integer primitives *)

Lemma get_byte_range buf i : 0 <= get_byte buf i < 256.
Proof. unfold get_byte. destruct (buf !! Z.to_nat i); [apply b2z_range | lia]. Qed.

Lemma b2z_get_byte buf i : b2z (z2b (get_byte buf i)) = get_byte buf i.
Proof. rewrite b2z_z2b. apply Z.mod_small, get_byte_range. Qed.

Lemma lor_shiftl_byte x b : 0 <= b < 256 -> Z.lor (Z.shiftl x 8) b = x * 256 + b.
Proof.
  intros Hb. rewrite <- Z.shiftl_mul_pow2 with (n := 8) by lia.
  rewrite <- Z.add_lor_land. replace (Z.land (Z.shiftl x 8) b) with 0; [lia|].
  symmetry. apply Z.bits_inj'. intros i Hi. rewrite Z.bits_0, Z.land_spec.
  destruct (Z.lt_ge_cases i 8) as [Hlt|Hge].
  - by rewrite Z.shiftl_spec_low.
  - replace b with (b mod 2 ^ 8) by (apply Z.mod_small; lia).
    rewrite Z.mod_pow2_bits_high by lia. apply andb_false_r.
Qed.

Lemma le_val_cons b bs : le_val (b :: bs) = le_val bs * 256 + b2z b.
Proof. unfold le_val. simpl. apply be_val_snoc. Qed.

Lemma le_val_nil : le_val [] = 0.
Proof. done. Qed.

Lemma le_bytes_S n z : le_bytes (S n) z = z2b z :: le_bytes n (z / 256).
Proof. unfold le_bytes. simpl. by rewrite rev_app_distr. Qed.

Ltac unroll_slice :=
  repeat match goal with
  | |- context [slice ?b ?i ?n] =>
      match n with
      | 0 => change (slice b i 0) with (@nil byte)
      | Z.pos _ =>
          let m := eval compute in (n - 1) in
          let j := match i with
                   | ?o + Z.pos ?k => let k' := eval compute in (Z.pos k + 1) in constr:(o + k')
                   | _ => constr:(i + 1)
                   end in
          replace (slice b i n) with (z2b (get_byte b i) :: slice b j m)
            by (replace j with (i + 1) by lia;
                symmetry; apply (slice_cons b i m); unfold blen in *; lia)
      end
  end.

Lemma readU16LE_spec buf off :
  0 <= off -> off + 2 <= blen buf -> readU16LE buf off = le_val (slice buf off 2).
Proof.
  intros. unroll_slice. rewrite !le_val_cons, le_val_nil, !b2z_get_byte. unfold readU16LE.
  pose proof (get_byte_range buf off). pose proof (get_byte_range buf (off + 1)).
  set (a := get_byte buf off) in *. set (b := get_byte buf (off + 1)) in *.
  assert (Hi : forall z, 0 <= z < 2147483648 -> to_int32 z = z).
  { intros z Hz. unfold to_int32. rewrite Z.mod_small by lia.
    destruct (z <? 2147483648) eqn:E; b2p; lia. }
  unfold js_or, js_shl. change (8 mod 32) with 8. rewrite (Hi b) by lia.
  rewrite (Hi (Z.shiftl b 8)) by (rewrite Z.shiftl_mul_pow2; lia).
  rewrite (Hi (Z.shiftl b 8)) by (rewrite Z.shiftl_mul_pow2; lia).
  rewrite (Hi a) by lia. rewrite Z.lor_comm, lor_shiftl_byte by lia. lia.
Qed.

Lemma readU32LE_spec buf off :
  0 <= off -> off + 4 <= blen buf -> readU32LE buf off = le_val (slice buf off 4).
Proof.
  intros. unroll_slice. rewrite !le_val_cons, le_val_nil, !b2z_get_byte.
  unfold readU32LE. lia.
Qed.

Lemma readU64_spec buf off :
  0 <= off -> off + 8 <= blen buf ->
  readU64 buf off true = le_val (slice buf off 8) /\ readU64 buf off false = be_val (slice buf off 8).
Proof.
  intros. unroll_slice. rewrite !le_val_cons, le_val_nil, !b2z_get_byte.
  unfold be_val. simpl be_val_from. rewrite !b2z_get_byte.
  unfold readU64. simpl readU64_loop. rewrite !lor_shiftl_byte by apply get_byte_range.
  rewrite Z.add_0_r. change (Z.shiftl 0 8) with 0. split; lia.
Qed.

Lemma readU64_le_spec buf off :
  0 <= off -> off + 8 <= blen buf -> readU64 buf off true = le_val (slice buf off 8).
Proof. intros H1 H2. exact (proj1 (readU64_spec buf off H1 H2)). Qed.

Lemma readU64_be_spec buf off :
  0 <= off -> off + 8 <= blen buf -> readU64 buf off false = be_val (slice buf off 8).
Proof. intros H1 H2. exact (proj2 (readU64_spec buf off H1 H2)). Qed.

Lemma read_be_loop_spec n buf off acc :
  0 <= off -> off + Z.of_nat n <= blen buf ->
  read_be_loop n buf off acc = be_val_from acc (slice buf off (Z.of_nat n)).
Proof.
  revert off acc; induction n as [|n IH]; intros off acc H1 H2; [done|].
  replace (Z.of_nat (S n)) with (1 + Z.of_nat n) by lia. simpl read_be_loop.
  rewrite slice_cons, IH by lia. simpl. by rewrite b2z_get_byte.
Qed.

Lemma write_be_loop_spec n buf off v :
  0 <= off -> off + Z.of_nat n <= blen buf ->
  write_be_loop n buf off v = splice buf off (be_bytes n v).
Proof.
  revert buf v; induction n as [|n IH]; intros buf v H1 H2; [by rewrite splice_nil|].
  simpl. rewrite set_byte_splice by lia. rewrite IH.
  - change 0x100 with 256. pose proof (splice_before buf off (be_bytes n (v / 256)) [z2b v]) as Hs.
    rewrite blen_be_bytes in Hs. rewrite (z2b_cong (js_and v 255) v).
    + apply Hs; [lia|]. unfold blen in *; simpl; lia.
    + change 0xff with 255. by rewrite js_and_255, Z.mod_mod.
  - lia.
  - rewrite blen_splice; unfold blen in *; simpl; lia.
Qed.

Lemma splice_step buf off a x j :
  0 <= off -> j = off + blen a -> j < blen buf ->
  set_byte (splice buf off a) j x = splice buf off (a ++ [z2b x]).
Proof.
  intros H1 -> H2. pose proof (blen_nonneg a). rewrite set_byte_splice.
  - apply splice_app; auto. unfold blen in *; simpl; lia.
  - rewrite blen_splice by lia. lia.
Qed.

(** Folds a chain of single-byte stores into one splice. *)
Ltac splice_chain :=
  match goal with
  | |- context [set_byte ?b ?i ?v] => is_var b; rewrite (set_byte_splice b i v) by lia
  end;
  repeat (rewrite splice_step by (unfold blen in *; simpl in *; lia)); simpl app.

Lemma ushr_byte v k : 0 <= v < 4294967296 -> 0 <= k < 32 -> js_ushr v k = v / 2 ^ k.
Proof. intros. unfold js_ushr. rewrite !Z.mod_small by lia. apply Z.shiftr_div_pow2. lia. Qed.

Lemma writeU16LE_spec buf v off :
  0 <= off -> off + 2 <= blen buf -> 0 <= v < 4294967296 ->
  writeU16LE buf v off = splice buf off (le_bytes 2 v).
Proof.
  intros. unfold writeU16LE. splice_chain. rewrite !le_bytes_S, ushr_byte by lia. done.
Qed.

Lemma writeU32LE_spec buf v off :
  0 <= off -> off + 4 <= blen buf -> 0 <= v < 4294967296 ->
  writeU32LE buf v off = splice buf off (le_bytes 4 v).
Proof.
  intros. unfold writeU32LE. splice_chain. rewrite !le_bytes_S, !ushr_byte by lia.
  rewrite !Z.div_div by lia. done.
Qed.

Lemma z2b_land v : z2b (Z.land v 255) = z2b v.
Proof. apply z2b_cong. change 255 with (Z.ones 8). by rewrite Z.land_ones, Z.mod_mod by lia. Qed.

Lemma writeU64_le_spec buf v off :
  0 <= off -> off + 8 <= blen buf -> writeU64 buf v off true = splice buf off (le_bytes 8 v).
Proof.
  intros. unfold writeU64. simpl writeU64_loop. rewrite Z.add_0_r. splice_chain.
  rewrite !le_bytes_S, !z2b_land. by rewrite !Z.shiftr_div_pow2 by lia.
Qed.

(** Stores at decreasing positions. *)
Lemma splice_down buf off a x :
  0 <= off -> off + 1 + blen a <= blen buf ->
  splice (set_byte buf (off + blen a) x) off a = splice buf off (a ++ [z2b x]).
Proof.
  intros. pose proof (blen_nonneg a). rewrite set_byte_splice by lia.
  apply splice_before; auto. unfold blen in *; simpl; lia.
Qed.

Lemma writeU64_down n buf v off :
  0 <= off -> off + Z.of_nat n <= blen buf ->
  writeU64_loop buf v off (rev (map Z.of_nat (seq 0 n))) = splice buf off (be_bytes n v).
Proof.
  revert buf v; induction n as [|n IH]; intros buf v H1 H2; [by rewrite splice_nil|].
  rewrite seq_S, map_app, rev_app_distr. simpl.
  rewrite IH, Z.shiftr_div_pow2 by
    (try lia; unfold set_byte; destruct (_ <? 0); unfold blen in *; rewrite ?length_insert; lia).
  pose proof (splice_down buf off (be_bytes n (v / 256)) (Z.land v 255)) as Hs.
  rewrite blen_be_bytes in Hs. change (2 ^ 8) with 256. rewrite Hs by lia. by rewrite z2b_land.
Qed.

Lemma writeU64_be_spec buf v off :
  0 <= off -> off + 8 <= blen buf -> writeU64 buf v off false = splice buf off (be_bytes 8 v).
Proof. intros. apply (writeU64_down 8); auto. Qed.

(** *** The compact unsigned integer *)

(** The one canonical form of a length or count. *)
Definition cuint_bytes (n : Z) : bytes :=
  if n <=? 0xfc then [z2b n]
  else if n <=? 0xffff then z2b 0xfd :: le_bytes 2 n
  else if n <=? 0xffffffff then z2b 0xfe :: le_bytes 4 n
  else z2b 0xff :: le_bytes 8 n.

Definition safe_uint (n : Z) : Prop := 0 <= n <= MAX_SAFE_INTEGER.

Lemma blen_cuint n : blen (cuint_bytes n) = compactUint_size n.
Proof.
  unfold cuint_bytes, compactUint_size.
  repeat case_match; rewrite ?blen_cons, ?blen_le_bytes; done.
Qed.

Lemma assertUnsigned_ok v m n :
  m <= MAX_SAFE_INTEGER -> assertUnsignedNumber v m = Ok n <-> v = VNum n /\ 0 <= n <= m.
Proof.
  intros Hm. unfold assertUnsignedNumber.
  destruct v; try (split; [discriminate | intros [? ?]; discriminate]).
  unfold isSafeInteger, MAX_SAFE_INTEGER in *.
  destruct (negb _ || _ || _) eqn:E.
  - split; [discriminate|]. intros [[= ->] Hr]. exfalso.
    rewrite !orb_true_iff, negb_true_iff, andb_false_iff, !Z.leb_gt, !Z.ltb_lt in E. lia.
  - rewrite !orb_false_iff, negb_false_iff, andb_true_iff, !Z.leb_le, !Z.ltb_ge in E.
    split; [intros [= <-]; split; [done | lia] | by intros [[= ->] _]].
Qed.

Lemma cuint_range s n s' : compactUint_preencode s n = Ok s' -> safe_uint n.
Proof.
  unfold compactUint_preencode. intros Hq. oks.
  apply assertUnsigned_ok in H as [[= <-] ?]; [done | lia].
Qed.

Lemma cuint_sizes n : safe_uint n -> sizes (fun s => compactUint_preencode s n) (blen (cuint_bytes n)).
Proof.
  intros Hn s. unfold compactUint_preencode.
  rewrite (proj2 (assertUnsigned_ok (VNum n) MAX_SAFE_INTEGER n (Z.le_refl _))) by (split; [done | exact Hn]).
  simpl. by rewrite blen_cuint.
Qed.

Lemma write_marker s m rest :
  wf s -> st_start s + 1 + blen rest <= st_end s ->
  let s1 := adv (with_buffer s (set_byte (st_buffer s) (st_start s) m)) 1 in
  adv (with_buffer s1 (splice (st_buffer s1) (st_start s1) rest)) (blen rest)
  = write s (z2b m :: rest).
Proof.
  intros Hwf Hl s1. pose proof (blen_nonneg rest).
  subst s1. assert (0 <= st_start s < blen (st_buffer s)) by (unfold wf in *; lia).
  rewrite set_byte_splice by done.
  change (write (write s [z2b m]) rest = write s (z2b m :: rest)).
  apply (write_write s [z2b m] rest); auto; unfold blen in *; simpl; lia.
Qed.

Lemma cuint_writes n : safe_uint n -> writes (fun s => compactUint_encode s n) (cuint_bytes n).
Proof.
  intros Hn s Hwf Hl. rewrite blen_cuint in Hl. unfold compactUint_encode.
  rewrite (proj2 (assertUnsigned_ok (VNum n) MAX_SAFE_INTEGER n (Z.le_refl _))) by (split; [done | exact Hn]).
  simpl bindR. unfold safe_uint, MAX_SAFE_INTEGER in Hn.
  unfold cuint_bytes, compactUint_size in *. destruct (n <=? 0xfc) eqn:E1; b2p.
  { available. simpl. unfold write. rewrite set_byte_splice by (unfold wf in *; lia). done. }
  destruct (n <=? 0xffff) eqn:E2; b2p; [|destruct (n <=? 0xffffffff) eqn:E3; b2p];
    available; simpl bindR; cbn [Z.eqb Pos.eqb];
    rewrite <- (write_marker s) by (rewrite ?blen_le_bytes; simpl; auto; lia);
    rewrite blen_le_bytes; do 2 f_equal; unfold with_buffer at 1 3; f_equal.
  - apply writeU16LE_spec; [unfold wf in *; simpl; lia | | lia].
    unfold wf in *; simpl. rewrite set_byte_splice, blen_splice; unfold blen in *; simpl; lia.
  - apply writeU32LE_spec; [unfold wf in *; simpl; lia | | lia].
    unfold wf in *; simpl. rewrite set_byte_splice, blen_splice; unfold blen in *; simpl; lia.
  - apply writeU64_le_spec; [unfold wf in *; simpl; lia |].
    unfold wf in *; simpl. rewrite set_byte_splice, blen_splice; unfold blen in *; simpl; lia.
Qed.

(** The cursor after a marker byte, and the little-endian payload there. *)
Lemma at_cursor_cons s b bs :
  wf s -> at_cursor s (b :: bs) <->
  st_start s + 1 <= st_end s /\ get_byte (st_buffer s) (st_start s) = b2z b /\ at_cursor (adv s 1) bs.
Proof.
  intros Hwf. change (b :: bs) with ([b] ++ bs). rewrite at_cursor_app by auto.
  change (blen [b]) with 1. unfold at_cursor at 1. change (blen [b]) with 1.
  split.
  - intros [[Hl Hs] Hc]. split; [done|]. split; [|done].
    change 1 with (1 + 0) in Hs. rewrite slice_cons in Hs by (unfold wf in *; lia).
    change (slice (st_buffer s) (st_start s + 1) 0) with (@nil byte) in Hs.
    injection Hs as <-. by rewrite b2z_get_byte.
  - intros (Hl & Hb & Hc). split; [|done]. split; [done|].
    change 1 with (1 + 0). rewrite slice_cons by (unfold wf in *; lia).
    rewrite Hb, z2b_b2z. done.
Qed.

Lemma at_cursor_le s n v :
  wf s -> 0 <= v < 256 ^ Z.of_nat n ->
  (st_start s + Z.of_nat n <= st_end s /\ le_val (slice (st_buffer s) (st_start s) (Z.of_nat n)) = v)
  <-> at_cursor s (le_bytes n v).
Proof.
  intros Hwf Hv. unfold at_cursor. rewrite blen_le_bytes. split; intros [Hl Heq]; split; auto.
  - rewrite <- Heq. symmetry. apply le_bytes_of. pose proof (blen_slice (st_buffer s) (st_start s) (Z.of_nat n)).
    unfold wf, blen in *. lia.
  - rewrite Heq. by apply le_val_le_bytes.
Qed.

Lemma cuint_reads n : safe_uint n -> reads compactUint_decode (cuint_bytes n) n.
Proof.
  intros Hn s Hwf Hc. unfold compactUint_decode, safe_uint, MAX_SAFE_INTEGER in *.
  rewrite blen_cuint. unfold cuint_bytes, compactUint_size in *.
  destruct (n <=? 0xfc) eqn:E1; [|destruct (n <=? 0xffff) eqn:E2; [|destruct (n <=? 0xffffffff) eqn:E3]];
    b2p; apply at_cursor_cons in Hc as (Hl & Hm & Hc); auto; rewrite b2z_z2b, Z.mod_small in Hm by lia;
    available; simpl bindR; rewrite Hm.
  - rewrite (proj2 (Z.leb_le n 0xfc)) by lia. done.
  - cbn [Z.leb Z.compare Pos.compare Pos.compare_cont Z.eqb Pos.eqb].
    apply (at_cursor_le _ 2 n) in Hc as [Hl2 Hv]; [|apply wf_adv; auto; lia | simpl; lia].
    available. simpl bindR. rewrite readU16LE_spec by (unfold wf in *; simpl in *; lia).
    change (Z.of_nat 2) with 2 in Hv. cursor. rewrite Hv. unfold fail_if.
    rewrite (proj2 (Z.leb_gt n 0xfc)) by lia. simpl. by rewrite adv_adv.
  - cbn [Z.leb Z.compare Pos.compare Pos.compare_cont Z.eqb Pos.eqb].
    apply (at_cursor_le _ 4 n) in Hc as [Hl2 Hv]; [|apply wf_adv; auto; lia | simpl; lia].
    available. simpl bindR. rewrite readU32LE_spec by (unfold wf in *; simpl in *; lia).
    change (Z.of_nat 4) with 4 in Hv. cursor. rewrite Hv. unfold fail_if.
    rewrite (proj2 (Z.leb_gt n 0xffff)) by lia. simpl. by rewrite adv_adv.
  - cbn [Z.leb Z.compare Pos.compare Pos.compare_cont Z.eqb Pos.eqb].
    apply (at_cursor_le _ 8 n) in Hc as [Hl2 Hv]; [|apply wf_adv; auto; lia | simpl; lia].
    available. simpl bindR.
    rewrite readU64_le_spec by (unfold wf in *; simpl in *; lia).
    change (Z.of_nat 8) with 8 in Hv. cursor. rewrite Hv. unfold fail_if, MAX_SAFE_INTEGER.
    rewrite (proj2 (Z.leb_gt n 0xffffffff)), (proj2 (Z.ltb_ge _ n)) by lia. simpl. by rewrite adv_adv.
Qed.

Lemma cuint_sound s n s' :
  wf s -> compactUint_decode s = Ok (n, s') ->
  safe_uint n /\ at_cursor s (cuint_bytes n) /\ s' = adv s (blen (cuint_bytes n)).
Proof.
  intros Hwf. unfold compactUint_decode, safe_uint, MAX_SAFE_INTEGER. intros Hq. oks.
  apply assertAvailable_ok in H as [_ Hl].
  pose proof (get_byte_range (st_buffer s) (st_start s)) as Hb.
  rewrite blen_cuint. unfold cuint_bytes, compactUint_size.
  assert (Hmark : forall m rest, get_byte (st_buffer s) (st_start s) = m -> at_cursor (adv s 1) rest ->
            at_cursor s (z2b m :: rest)).
  { intros m rest <- Hr. apply at_cursor_cons; auto. by rewrite b2z_get_byte. }
  assert (wf (adv s 1)) by (apply wf_adv; auto; lia).
  destruct (get_byte (st_buffer s) (st_start s) <=? 0xfc) eqn:E1.
  { oks. rewrite E1. b2p. split; [lia|]. split; [|done]. apply Hmark; auto. by apply at_cursor_nil. }
  destruct (get_byte (st_buffer s) (st_start s) =? 0xfd) eqn:E2.
  { oks. apply assertAvailable_ok in H0 as [_ Hl2]. simpl in Hl2.
    rewrite readU16LE_spec in * by (unfold wf in *; simpl in *; lia).
    set (sl := slice _ _ 2) in *. pose proof (le_val_bound sl) as Hv.
    assert (blen sl = 2) as Hsl by (apply blen_slice; unfold wf in *; simpl in *; lia).
    rewrite Hsl in Hv. change (256 ^ 2) with 65536 in Hv. b2p.
    rewrite (proj2 (Z.leb_gt (le_val sl) 0xfc)), (proj2 (Z.leb_le (le_val sl) 0xffff)) by lia.
    split; [lia|]. split; [|by rewrite adv_adv]. apply Hmark; auto.
    apply (at_cursor_le _ 2); auto; simpl; lia. }
  destruct (get_byte (st_buffer s) (st_start s) =? 0xfe) eqn:E3.
  { oks. apply assertAvailable_ok in H0 as [_ Hl2]. simpl in Hl2.
    rewrite readU32LE_spec in * by (unfold wf in *; simpl in *; lia).
    set (sl := slice _ _ 4) in *. pose proof (le_val_bound sl) as Hv.
    assert (blen sl = 4) as Hsl by (apply blen_slice; unfold wf in *; simpl in *; lia).
    rewrite Hsl in Hv. change (256 ^ 4) with 4294967296 in Hv. b2p.
    rewrite (proj2 (Z.leb_gt (le_val sl) 0xfc)), (proj2 (Z.leb_gt (le_val sl) 0xffff)),
      (proj2 (Z.leb_le (le_val sl) 0xffffffff)) by lia.
    split; [lia|]. split; [|by rewrite adv_adv]. apply Hmark; auto.
    apply (at_cursor_le _ 4); auto; simpl; lia. }
  oks. apply assertAvailable_ok in H0 as [_ Hl2]. simpl in Hl2.
  rewrite readU64_le_spec in * by (unfold wf in *; simpl in *; lia).
  set (sl := slice _ _ 8) in *. pose proof (le_val_bound sl) as Hv.
  assert (blen sl = 8) as Hsl by (apply blen_slice; unfold wf in *; simpl in *; lia).
  rewrite Hsl in Hv. change (256 ^ 8) with 18446744073709551616 in Hv. b2p. unfold MAX_SAFE_INTEGER in *.
  rewrite (proj2 (Z.leb_gt (le_val sl) 0xfc)), (proj2 (Z.leb_gt (le_val sl) 0xffff)),
      (proj2 (Z.leb_gt (le_val sl) 0xffffffff)) by lia.
  split; [lia|]. split; [|by rewrite adv_adv]. apply Hmark; [lia|].
  apply (at_cursor_le _ 8); auto; simpl; lia.
Qed.

(** ** Instances for the primitives *)

#[global] Arguments be_bytes : simpl never.
#[global] Arguments splice : simpl never.
#[global] Arguments slice : simpl never.

Lemma reads_of_spec {A} (d : state -> result (A * state)) bs x :
  (forall s, wf s -> st_start s + blen bs <= st_end s ->
     slice (st_buffer s) (st_start s) (blen bs) = bs -> d s = Ok (x, adv s (blen bs))) ->
  reads d bs x.
Proof. intros Hd s Hwf [Hl Hs]. by apply Hd. Qed.

Lemma fixedUnsigned_safe (n : nat) : (n <= 6)%nat -> 256 ^ Z.of_nat n - 1 <= MAX_SAFE_INTEGER.
Proof.
  intros Hn. assert (256 ^ Z.of_nat n <= 256 ^ 6) by (apply Z.pow_le_mono_r; lia).
  unfold MAX_SAFE_INTEGER. lia.
Qed.

Lemma fixedUnsigned_emits (n : nat) k p : (n <= 6)%nat -> 0 <= k <= 256 ^ Z.of_nat n - 1 ->
  emits (fixedUnsigned (Z.of_nat n) (256 ^ Z.of_nat n - 1)) (VNum k) p (be_bytes n k).
Proof.
  intros Hn Hk. pose proof (fixedUnsigned_safe n Hn) as Hm. set (m := 256 ^ Z.of_nat n - 1) in *.
  split; intros s; simpl; rewrite blen_be_bytes.
  - by rewrite (proj2 (assertUnsigned_ok (VNum k) m k Hm)).
  - intros Hwf Hl. rewrite (proj2 (assertUnsigned_ok (VNum k) m k Hm)) by done. simpl.
    available. simpl. rewrite Nat2Z.id. unfold write. rewrite blen_be_bytes.
    rewrite write_be_loop_spec by (unfold wf in *; lia). done.
Qed.

Lemma fixedUnsigned_lawful (n : nat) :
  (n <= 6)%nat -> Lawful (fixedUnsigned (Z.of_nat n) (256 ^ Z.of_nat n - 1)) [] TNum.
Proof.
  intros Hn. pose proof (fixedUnsigned_safe n Hn) as Hm.
  pose proof (fun k p => fixedUnsigned_emits n k p Hn) as Hem. set (m := 256 ^ Z.of_nat n - 1) in *.
  split.
  - intros s v p s' Hq. simpl in Hq. oks. apply assertUnsigned_ok in H as [-> Hk]; eauto.
  - intros s p v s' Hwf Hq. simpl in Hq. oks. apply assertAvailable_ok in H as [_ Hl].
    rewrite Nat2Z.id, read_be_loop_spec by (unfold wf in *; lia).
    change (be_val_from 0) with be_val.
    destruct (at_cursor_slice s (Z.of_nat n)) as [Hc Hlen]; auto; [lia|].
    set (sl := slice _ _ _) in *. pose proof (be_val_bound sl) as Hv. rewrite Hlen in Hv.
    split; [done|]. exists sl. rewrite Hlen. split; [done|]. split; [done|].
    intros p' _. rewrite <- (be_bytes_of n sl) at 2 by (unfold blen in *; lia). apply Hem. lia.
  - intros v p p' bs Ht He Hag. destruct v; try discriminate.
    assert (0 <= n0 <= m) as Hk.
    { destruct He as [He _]. specialize (He (St 0 0 [])). simpl in He. oks.
      apply assertUnsigned_ok in H as [[= <-] ?]; auto. }
    apply (emits_fun _ _ _ _ _ (Hem n0 p Hk)) in He as <-. apply reads_of_spec.
    rewrite blen_be_bytes. intros s Hwf Hl Hs. simpl. available. simpl. rewrite Nat2Z.id.
    rewrite read_be_loop_spec, Hs by (unfold wf in *; lia). change (be_val_from 0) with be_val.
    rewrite be_val_be_bytes by lia. done.
Qed.

#[export] Instance u8_lawful : Lawful u8 [] TNum.
Proof. apply (fixedUnsigned_lawful 1). lia. Qed.
#[export] Instance u16be_lawful : Lawful u16be [] TNum.
Proof. apply (fixedUnsigned_lawful 2). lia. Qed.
#[export] Instance u32be_lawful : Lawful u32be [] TNum.
Proof. apply (fixedUnsigned_lawful 4). lia. Qed.

(** The BigInt a u64 field stands for, whether given as a number or BigInt. *)
Lemma asU64_ok v n : asU64 v = Ok n ->
  0 <= n <= MAX_U64 /\ (v = VBig n \/ v = VNum n).
Proof.
  unfold asU64. destruct v; simpl; intros Hq; try discriminate; oks; b2p; auto.
Qed.

Lemma asU64_big n : 0 <= n <= MAX_U64 -> asU64 (VBig n) = Ok n.
Proof.
  intros Hn. unfold asU64. simpl. rewrite (proj2 (Z.ltb_ge _ _)), (proj2 (Z.ltb_ge _ _)) by lia. done.
Qed.

Lemma u64be_emits v n p : asU64 v = Ok n -> emits u64be v p (be_bytes 8 n).
Proof.
  intros Hv. split; intros s; simpl; rewrite Hv; simpl; [done|]. rewrite blen_be_bytes.
  change (Z.of_nat 8) with 8. intros Hwf Hl. available. simpl.
  rewrite writeU64_be_spec by (unfold wf in *; lia). done.
Qed.

#[export] Instance u64be_lawful : Lawful u64be [] TBig.
Proof.
  split.
  - intros s v p s' Hq. simpl in Hq. oks. eauto using u64be_emits.
  - intros s p v s' Hwf Hq. simpl in Hq. oks. apply assertAvailable_ok in H as [_ Hl].
    rewrite readU64_be_spec by (unfold wf in *; lia).
    destruct (at_cursor_slice s 8) as [Hc Hlen]; auto; [lia|].
    set (sl := slice _ _ _) in *. pose proof (be_val_bound sl) as Hv. rewrite Hlen in Hv.
    split; [done|]. exists sl. rewrite Hlen. split; [done|]. split; [done|].
    intros p' _. rewrite <- (be_bytes_of 8 sl) at 2 by (unfold blen in *; lia).
    apply u64be_emits, asU64_big. unfold MAX_U64. lia.
  - intros v p p' bs Ht He Hag. destruct v; try discriminate.
    assert (asU64 (VBig n) = Ok n) as Hk.
    { destruct He as [He _]. specialize (He (St 0 0 [])). simpl in He. oks.
      pose proof H as Hr. apply asU64_ok in Hr as [_ [[= ->]|]]; done. }
    apply (emits_fun _ _ _ _ _ (u64be_emits _ n p Hk)) in He as <-.
    apply asU64_ok in Hk as [Hk _]. unfold MAX_U64 in Hk. apply reads_of_spec.
    rewrite blen_be_bytes. change (Z.of_nat 8) with 8. intros s Hwf Hl Hs. simpl. available. simpl.
    rewrite readU64_be_spec, Hs by (unfold wf in *; lia).
    rewrite be_val_be_bytes by (simpl; lia). done.
Qed.

(** Raw bytes of a known length. *)
Lemma raw_writes (bs : bytes) :
  blen bs <= MAX_SAFE_INTEGER ->
  writes (fun s => assertAvailable s (blen bs) ;;!
    Ok (adv (with_buffer s (splice (st_buffer s) (st_start s) bs)) (blen bs))) bs.
Proof. intros Hb s Hwf Hl. pose proof (blen_nonneg bs). available. done. Qed.

Lemma raw_reads (bs : bytes) :
  blen bs <= MAX_SAFE_INTEGER ->
  reads (fun s => assertAvailable s (blen bs) ;;!
    Ok (VBytes (slice (st_buffer s) (st_start s) (blen bs)), adv s (blen bs))) bs (VBytes bs).
Proof. intros Hb s Hwf [Hl Hs]. pose proof (blen_nonneg bs). available. by rewrite Hs. Qed.

Lemma raw_sound s n v s' :
  wf s ->
  (assertAvailable s n ;;! Ok (VBytes (slice (st_buffer s) (st_start s) n), adv s n)) = Ok (v, s') ->
  n <= MAX_SAFE_INTEGER /\
  exists bs, v = VBytes bs /\ blen bs = n /\ at_cursor s bs /\ s' = adv s n.
Proof.
  intros Hwf Hq. oks. apply assertAvailable_ok in H as [Hn Hl].
  destruct (at_cursor_slice s n) as [Hc Hlen]; auto; [lia|]. split; [lia|]. eauto 6.
Qed.

Lemma asBuffer_ok v bs : asBuffer v = Ok bs <-> v = VBytes bs.
Proof. destruct v; simpl; naive_solver. Qed.

Lemma fixedBytes_emits n bs p :
  n <= MAX_SAFE_INTEGER -> blen bs = n -> emits (fixedBytes n) (VBytes bs) p bs.
Proof.
  intros Hn <-. split.
  - intros s; simpl. by rewrite Z.eqb_refl.
  - intros s Hwf Hl. simpl. rewrite Z.eqb_refl. simpl. by apply raw_writes.
Qed.

Lemma fixedBytes_inv n s v p s' :
  preencode (fixedBytes n) s v p = Ok s' -> exists bs, v = VBytes bs /\ blen bs = n.
Proof. simpl. intros Hq. oks. apply asBuffer_ok in H as ->. b2p. eauto. Qed.

Lemma fixedBytes_lawful n : n <= MAX_SAFE_INTEGER -> Lawful (fixedBytes n) [] TBytes.
Proof.
  intros Hn. split.
  - intros s v p s' Hq. apply fixedBytes_inv in Hq as (bs & -> & Hb). eauto using fixedBytes_emits.
  - intros s p v s' Hwf Hq. apply raw_sound in Hq as (_ & bs & -> & Hb & Hc & ->); auto.
    split; [done|]. exists bs. rewrite Hb. eauto using fixedBytes_emits.
  - intros v p p' bs Ht He Hag. pose proof (proj1 He (St 0 0 [])) as Hp.
    apply fixedBytes_inv in Hp as (b & -> & Hb).
    apply (emits_fun _ _ _ _ _ (fixedBytes_emits n b p Hn Hb)) in He as <-.
    subst n. apply raw_reads; auto.
Qed.

(** [TCEq] on a boolean test is a side condition that instance resolution
    settles by computation. *)
#[export] Instance fixedBytes_lawful_lit n :
  TCEq (n <=? MAX_SAFE_INTEGER) true -> Lawful (fixedBytes n) [] TBytes.
Proof. rewrite TCEq_eq. intros E. b2p. by apply fixedBytes_lawful. Qed.

(** ** Instances for the byte-string combinators *)

Lemma boundedBytes_emits lo hi bs p :
  lo <= blen bs <= hi -> hi <= MAX_SAFE_INTEGER ->
  emits (boundedBytes lo hi) (VBytes bs) p (cuint_bytes (blen bs) ++ bs).
Proof.
  intros Hb Hh. pose proof (blen_nonneg bs).
  assert (Hc : safe_uint (blen bs)) by (unfold safe_uint; lia).
  assert (Hr : (blen bs <? lo) || (hi <? blen bs) = false)
    by (apply orb_false_iff; rewrite !Z.ltb_ge; lia).
  split.
  - intros s. simpl. rewrite Hr. simpl. rewrite blen_app.
    apply (sizes_bind _ (fun s => Ok (grow s (blen bs))) _ (blen bs) (cuint_sizes _ Hc)).
    intros s0. done.
  - intros s Hwf Hl. simpl. rewrite Hr. simpl.
    apply (writes_bind _ _ _ _ (cuint_writes _ Hc) (raw_writes bs ltac:(lia)) s); auto.
Qed.

Lemma boundedBytes_inv lo hi s v p s' :
  preencode (boundedBytes lo hi) s v p = Ok s' -> exists bs, v = VBytes bs /\ lo <= blen bs <= hi.
Proof.
  simpl. intros Hq. oks. apply asBuffer_ok in H as ->. b2p. eauto.
Qed.

Lemma boundedBytes_lawful lo hi : hi <= MAX_SAFE_INTEGER -> Lawful (boundedBytes lo hi) [] TBytes.
Proof.
  intros Hh. split.
  - intros s v p s' Hq. apply boundedBytes_inv in Hq as (bs & -> & Hb). eauto using boundedBytes_emits.
  - intros s p v s' Hwf Hq. simpl in Hq. apply bindR_ok in Hq as ([n s1] & Hn & Hq).
    apply cuint_sound in Hn as (Hn & Hc & ->); auto. apply bindR_ok in Hq as ([] & Hr & Hq).
    apply throw_if_ok in Hr. b2p.
    apply raw_sound in Hq as (_ & bs & -> & Hb & Hc' & ->); [|eauto using at_cursor_wf].
    split; [done|]. subst n. exists (cuint_bytes (blen bs) ++ bs).
    rewrite at_cursor_app, adv_adv, blen_app by auto. split; [done|]. split; [done|].
    intros p' _. apply boundedBytes_emits; lia.
  - intros v p p' bs Ht He Hag. pose proof (proj1 He (St 0 0 [])) as Hp.
    apply boundedBytes_inv in Hp as (b & -> & Hb).
    apply (emits_fun _ _ _ _ _ (boundedBytes_emits lo hi b p Hb Hh)) in He as <-.
    pose proof (blen_nonneg b). assert (Hc : safe_uint (blen b)) by (unfold safe_uint; lia).
    apply (reads_bind compactUint_decode
             (fun n s => fail_if ((n <? lo) || (hi <? n)) ;;! assertAvailable s n ;;!
                Ok (VBytes (slice (st_buffer s) (st_start s) n), adv s n)) _ _ _ _ (cuint_reads _ Hc)).
    rewrite (proj2 (Z.ltb_ge _ _)), (proj2 (Z.ltb_ge _ _)) by lia. apply raw_reads. lia.
Qed.

#[export] Instance boundedBytes_lawful_lit lo hi :
  TCEq (hi <=? MAX_SAFE_INTEGER) true -> Lawful (boundedBytes lo hi) [] TBytes.
Proof. rewrite TCEq_eq. intros E. b2p. by apply boundedBytes_lawful. Qed.

Lemma selectedLength_agree f tbl p p' :
  agree [f] p p' -> selectedLength f tbl p = selectedLength f tbl p'.
Proof. intros Ha. apply Forall_inv in Ha. unfold selectedLength. by rewrite Ha. Qed.

Lemma selectedLength_safe f tbl p n : selectedLength f tbl p = Ok n -> 0 <= n <= MAX_SAFE_INTEGER.
Proof.
  unfold selectedLength, isSafeInteger. intros Hq. case_match; oks. b2p. lia.
Qed.

Lemma exactBytes_emits f tbl bs p :
  selectedLength f tbl p = Ok (blen bs) -> emits (exactBytesByClass f tbl) (VBytes bs) p bs.
Proof.
  intros Hs. pose proof (selectedLength_safe _ _ _ _ Hs) as Hn. split.
  - intros s. simpl. rewrite Hs. simpl. by rewrite Z.eqb_refl.
  - intros s Hwf Hl. simpl. rewrite Hs. simpl. rewrite Z.eqb_refl. simpl. apply raw_writes; auto; lia.
Qed.

#[export] Instance exactBytesByClass_lawful f tbl : Lawful (exactBytesByClass f tbl) [f] TBytes.
Proof.
  assert (Hinv : forall s v p s', preencode (exactBytesByClass f tbl) s v p = Ok s' ->
            exists bs, v = VBytes bs /\ selectedLength f tbl p = Ok (blen bs)).
  { intros s v p s' Hq. simpl in Hq. oks. apply asBuffer_ok in H as ->. b2p. subst. eauto. }
  split.
  - intros s v p s' Hq. apply Hinv in Hq as (bs & -> & Hb). eauto using exactBytes_emits.
  - intros s p v s' Hwf Hq. simpl in Hq. apply bindR_ok in Hq as (n & Hn & Hq).
    apply raw_sound in Hq as (_ & bs & -> & Hb & Hc & ->); auto. subst n.
    split; [done|]. exists bs. split; [done|]. split; [done|]. intros p' Ha.
    apply exactBytes_emits. by rewrite <- (selectedLength_agree _ _ _ _ Ha).
  - intros v p p' bs Ht He Ha. pose proof (proj1 He (St 0 0 [])) as Hp.
    apply Hinv in Hp as (b & -> & Hb).
    apply (emits_fun _ _ _ _ _ (exactBytes_emits _ _ _ _ Hb)) in He as <-.
    intros s Hwf Hc. simpl. rewrite <- (selectedLength_agree _ _ _ _ Ha), Hb. simpl.
    apply raw_reads; auto. apply selectedLength_safe in Hb. lia.
Qed.

(** ** Encodings that wrap another one with a check

    [e'] checks the value with [chk], hands [f v] to [e] and checks what [e]
    decodes with [chk']. *)
Section Wrapped.
Context (e e' : encoding) (deps deps' : list string) (t t' : jstype).
Context (f g : val -> val) (chk chk' : val -> result unit).
Context `{!Lawful e deps t}.
Hypothesis Hpre : forall s v p, preencode e' s v p = (chk v ;;! preencode e s (f v) (g p)).
Hypothesis Henc : forall s v p, encode e' s v p = (chk v ;;! encode e s (f v) (g p)).
Hypothesis Hdec : forall s p,
  decode e' s p = (let! (v, s) := decode e s (g p) in chk' v ;;! Ok (v, s)).
Hypothesis Hchk : forall v, has_type t v = true -> chk' v = Ok tt -> chk v = Ok tt /\ has_type t' v = true.
Hypothesis Htype : forall v, has_type t' v = true -> chk v = Ok tt ->
  has_type t v = true /\ f v = v /\ chk' v = Ok tt.
Hypothesis Hagree : forall p p', agree deps' p p' -> agree deps (g p) (g p').

Lemma wrapped_emits v p bs : chk v = Ok tt -> emits e (f v) (g p) bs -> emits e' v p bs.
Proof.
  intros Hc [Hs Hw]. split; intros s.
  - rewrite Hpre, Hc. apply Hs.
  - intros. rewrite Henc, Hc. by apply Hw.
Qed.

Lemma wrapped_emits_inv v p bs : emits e' v p bs -> chk v = Ok tt /\ emits e (f v) (g p) bs.
Proof.
  intros [Hs Hw]. assert (Hc : chk v = Ok tt).
  { specialize (Hs (St 0 0 [])). cbv beta in Hs. rewrite Hpre in Hs.
    by destruct (chk v) as [[]|]. }
  split; [done|]. split; intros s.
  - specialize (Hs s). cbv beta in Hs. by rewrite Hpre, Hc in Hs.
  - intros. specialize (Hw s). cbv beta in Hw. rewrite Henc, Hc in Hw. by apply Hw.
Qed.

Lemma wrapped_lawful : Lawful e' deps' t'.
Proof.
  split.
  - intros s v p s' Hq. rewrite Hpre in Hq. apply bindR_ok in Hq as ([] & Hc & Hq).
    apply sized_emits in Hq as [bs Hq]. eauto using wrapped_emits.
  - intros s p v s' Hwf Hq. rewrite Hdec in Hq. apply bindR_ok in Hq as ([v0 s0] & Hd & Hq). oks.
    apply decode_sound in Hd as (Ht & bs & Hc & -> & He); auto.
    apply Hchk in H as [Hk Ht']; auto. split; [done|].
    destruct (Htype v Ht' Hk) as (_ & Hf & _). exists bs. split; [done|]. split; [done|].
    intros p' Ha. apply wrapped_emits; auto. rewrite Hf. auto.
  - intros v p p' bs Ht He Ha s Hwf Hc. apply wrapped_emits_inv in He as [Hk He].
    destruct (Htype v Ht Hk) as (Ht0 & Hf & Hk'). rewrite Hf in He. rewrite Hdec.
    rewrite (decode_complete _ _ (g p') _ Ht0 He (Hagree _ _ Ha) s Hwf Hc). simpl. by rewrite Hk'.
Qed.
End Wrapped.

Lemma agree_nil p p' : agree [] p p'.
Proof. constructor. Qed.
#[export] Hint Resolve agree_nil : hive.

#[export] Instance constantBytes_lawful bs :
  TCEq (blen bs <=? MAX_SAFE_INTEGER) true -> Lawful (constantBytes bs) [] TBytes.
Proof.
  rewrite TCEq_eq. intros E. b2p.
  pose proof (fixedBytes_lawful (blen bs) E).
  apply (wrapped_lawful (fixedBytes (blen bs)) _ [] [] TBytes TBytes
    (fun _ => VBytes bs) (fun p => p)
    (fun v => let! b := asBuffer (if nullish v then VBytes bs else v) in fail_if (negb (bytes_eqb b bs)))
    (fun v => fail_if (negb (bytes_eqb (raw v) bs)))); auto with hive.
  - intros s v p. simpl preencode. destruct (asBuffer _); done.
  - intros s v p. simpl encode. destruct (asBuffer _); done.
  - intros v Ht Hc. destruct v; try discriminate. done.
  - intros v Ht Hc. destruct v; try discriminate. simpl in Hc. oks. b2p.
    apply bytes_eqb_eq in Hc as ->. simpl. by rewrite bytes_eqb_refl.
Qed.

Section TextInstances.
Context `{Platform}.

Lemma canonicalTextValue_ok v lo hi a bs : canonicalTextValue v lo hi a = Ok bs -> v = VBytes bs.
Proof. unfold canonicalTextValue. intros Hq. oks. by apply asBuffer_ok. Qed.

#[export] Instance canonicalTextBytes_lawful lo hi a :
  TCEq (hi <=? MAX_SAFE_INTEGER) true -> Lawful (canonicalTextBytes lo hi a) [] TBytes.
Proof.
  intros E.
  apply (wrapped_lawful (boundedBytes lo hi) _ [] [] TBytes TBytes (fun v => v) (fun p => p)
    (fun v => let! _ := canonicalTextValue v lo hi a in Ok tt)
    (fun v => let! _ := canonicalTextValue v lo hi a in Ok tt)); auto with hive.
  1,2: intros s v p; simpl; destruct (canonicalTextValue v lo hi a) as [b|] eqn:E1; [|done];
    simpl; apply canonicalTextValue_ok in E1 as ->; done.
  intros s p. simpl decode. destruct (compactUint_decode s) as [[n s1]|]; [|done]. simpl.
  destruct (fail_if _); [|done]; simpl. destruct (assertAvailable s1 n); [|done]; simpl.
  destruct (canonicalTextValue _ lo hi a); done.
Qed.

#[export] Instance canonicalUtf8Bytes_lawful lo hi :
  TCEq (hi <=? MAX_SAFE_INTEGER) true -> Lawful (canonicalUtf8Bytes lo hi) [] TBytes.
Proof. unfold canonicalUtf8Bytes. apply _. Qed.

#[export] Instance canonicalAsciiBytes_lawful lo hi :
  TCEq (hi <=? MAX_SAFE_INTEGER) true -> Lawful (canonicalAsciiBytes lo hi) [] TBytes.
Proof. unfold canonicalAsciiBytes. apply _. Qed.

#[export] Instance canonicalHttpsUrlBytes_lawful : Lawful canonicalHttpsUrlBytes [] TBytes.
Proof.
  apply (wrapped_lawful (canonicalUtf8Bytes 1 512) _ [] [] TBytes TBytes (fun v => v) (fun p => p)
    (fun v => validateCanonicalUrl v false) (fun v => validateCanonicalUrl v false));
    auto with hive.
Qed.
End TextInstances.

(** ** Optional values, constants and ranges *)

#[export] Instance constant_lawful e n : Lawful e [] TNum -> Lawful (constant e n) [] (TConst n).
Proof.
  intros Hl.
  apply (wrapped_lawful e _ [] [] TNum (TConst n) (fun _ => VNum n) (fun _ => VUndef)
    (fun v => fail_if (negb (strict_eqb (if nullish v then VNum n else v) (VNum n))))
    (fun v => fail_if (negb (strict_eqb v (VNum n))))); auto with hive.
  - intros v Ht Hc. oks. b2p. destruct v; simpl in *; try discriminate.
    unfold is_num. simpl. by rewrite Hc.
  - intros v Ht Hc. simpl in Ht. unfold is_num in Ht.
    assert (v = VNum n) as -> by (destruct v; simpl in Ht; try discriminate; b2p; by subst).
    split_and!; [done | done |]. by rewrite Ht.
Qed.

#[export] Instance ranged_lawful e lo hi : Lawful e [] TNum -> Lawful (ranged e lo hi) [] TNum.
Proof.
  intros Hl.
  apply (wrapped_lawful e _ [] [] TNum TNum (fun v => v) (fun _ => VUndef)
    (fun v => fail_if (out_of_range v lo hi))
    (fun v => fail_if (js_lt v (VNum lo) || js_lt (VNum hi) v))); auto with hive;
    intros [] Ht Hc; try discriminate; auto.
Qed.

Lemma non_null_sound t v : non_null t = true -> has_type t v = true -> nullish v = false.
Proof.
  revert v; induction t; intros v Hn Ht; simpl in *; try discriminate;
    try (destruct v; simpl in *; done).
  apply andb_prop in Hn as [? ?]. apply orb_true_iff in Ht as [Ht|Ht]; auto.
Qed.

Lemma u8_emits k p : 0 <= k <= 255 -> emits u8 (VNum k) p [z2b k].
Proof.
  intros Hk. assert (Hok : assertUnsignedNumber (VNum k) 0xff = Ok k)
    by (apply assertUnsigned_ok; [unfold MAX_SAFE_INTEGER; lia | done]).
  split; intros s; simpl; rewrite Hok; simpl; [done|]. change (blen [z2b k]) with 1.
  intros Hwf Hl. available. simpl. rewrite Z.add_0_r.
  rewrite set_byte_splice by (unfold wf in *; lia). unfold write.
  rewrite (z2b_cong (js_and k 255) k); [done|]. by rewrite js_and_255, Z.mod_mod.
Qed.

Lemma u8_reads k p : 0 <= k <= 255 -> reads (fun s => decode u8 s p) [z2b k] (VNum k).
Proof. intros Hk. apply (decode_complete (VNum k) p p); auto using u8_emits. by apply Forall_true. Qed.


Lemma optional_emits_none e v p : nullish v = true -> emits (optional e) v p [z2b 0].
Proof.
  intros Hn. destruct (u8_emits 0 VUndef ltac:(lia)) as [Hs Hw].
  split; intros s; cbn [preencode encode optional]; rewrite Hn.
  - specialize (Hs s). cbv beta in Hs. by rewrite Hs.
  - intros Hwf Hl. specialize (Hw s Hwf Hl). cbv beta in Hw. by rewrite Hw.
Qed.

Lemma optional_emits_some e v p bs :
  nullish v = false -> emits e v VUndef bs -> emits (optional e) v p ([z2b 1] ++ bs).
Proof.
  intros Hn [Hs Hw]. destruct (u8_emits 1 VUndef ltac:(lia)) as [Hs1 Hw1].
  split; intros s; cbn [preencode encode optional]; rewrite Hn.
  - rewrite blen_app. apply (sizes_bind _ _ _ _ Hs1 Hs).
  - intros Hwf Hl. by apply (writes_bind _ _ _ _ Hw1 Hw).
Qed.

#[export] Instance optional_lawful e t :
  Lawful e [] t -> TCEq (non_null t) true -> Lawful (optional e) [] (TOpt t).
Proof.
  rewrite TCEq_eq. intros Hl Hn.
  assert (Hnn : forall v, has_type t v = true -> nullish v = false) by eauto using non_null_sound.
  split.
  - intros s v p s' Hq. cbn [preencode optional] in Hq. apply bindR_ok in Hq as (s1 & _ & Hq).
    destruct (nullish v) eqn:En.
    + exists [z2b 0]. by apply optional_emits_none.
    + apply sized_emits in Hq as [bs Hq]. eauto using optional_emits_some.
  - intros s p v s' Hwf Hq. cbn [decode optional] in Hq. apply bindR_ok in Hq as ([tag s1] & Htag & Hq).
    apply decode_sound in Htag as (Ht & bs & Hc & -> & He); auto.
    destruct tag as [| |k| | | | | | |]; try discriminate.
    specialize (He VUndef (agree_nil _ _)). unfold is_num in Hq. simpl in Hq.
    destruct (k =? 0) eqn:E0; b2p; [subst|].
    + oks. split; [done|]. exists bs. split; [done|]. split; [done|]. intros p' _.
      rewrite (emits_fun _ _ _ _ _ He (u8_emits 0 VUndef ltac:(lia))).
      by apply optional_emits_none.
    + apply bindR_ok in Hq as ([] & Hk & Hq). oks. b2p. subst.
      rewrite (emits_fun _ _ _ _ _ He (u8_emits 1 VUndef ltac:(lia))) in *.
      apply decode_sound in Hq as (Ht' & bs' & Hc' & -> & He'); [|eauto using at_cursor_wf].
      split. { simpl. destruct v; auto. }
      exists ([z2b 1] ++ bs'). rewrite at_cursor_app, adv_adv, blen_app by auto.
      split; [done|]. split; [done|]. intros p' _.
      apply optional_emits_some; auto with hive.
  - intros v p p' bs Ht He Ha. destruct (nullish v) eqn:En.
    + rewrite (emits_fun _ _ _ _ _ He (optional_emits_none _ _ _ En)).
      assert (v = VNull) as ->.
      { destruct v; try done. simpl in Ht. apply Hnn in Ht. done. }
      intros s Hwf Hc. cbn [decode optional]. rewrite (u8_reads 0 VUndef ltac:(lia) s Hwf Hc). done.
    + assert (Ht' : has_type t v = true) by (destruct v; done).
      pose proof (proj1 He (St 0 0 [])) as Hp. cbn [preencode optional] in Hp. rewrite En in Hp.
      apply bindR_ok in Hp as (s1 & _ & Hp). apply sized_emits in Hp as [b Hb].
      rewrite (emits_fun _ _ _ _ _ He (optional_emits_some _ _ _ _ En Hb)).
      apply (reads_bind (fun s => decode u8 s VUndef)
        (fun tag s => if is_num tag 0 then Ok (VNull, s) else
           fail_if (negb (is_num tag 1)) ;;! decode e s VUndef) _ _ _ _ (u8_reads 1 VUndef ltac:(lia))).
      simpl. apply (decode_complete v VUndef VUndef); auto with hive.
Qed.

(** ** Arrays *)

(** The concatenated encodings of a list of values. *)
Inductive emits_all (e : encoding) : list val -> bytes -> Prop :=
| emits_all_nil : emits_all e [] []
| emits_all_cons v vs a b : emits e v VUndef a -> emits_all e vs b -> emits_all e (v :: vs) (a ++ b).

Lemma emits_all_sizes e vs bs :
  emits_all e vs bs -> sizes (fun s => fold_values (fun s v => preencode e s v VUndef) s vs) (blen bs).
Proof.
  induction 1 as [|v vs a b [Hs _] _ IH]; [apply sizes_ret|].
  rewrite blen_app. apply (sizes_bind _ _ _ _ Hs IH).
Qed.

Lemma emits_all_writes e vs bs :
  emits_all e vs bs -> writes (fun s => fold_values (fun s v => encode e s v VUndef) s vs) bs.
Proof.
  induction 1 as [|v vs a b [_ Hw] _ IH]; [apply writes_ret|]. apply (writes_bind _ _ _ _ Hw IH).
Qed.

Section Arrays.
Context (e : encoding) (t : jstype) `{!Lawful e [] t}.

Lemma fold_values_emits vs s s' :
  fold_values (fun s v => preencode e s v VUndef) s vs = Ok s' -> exists bs, emits_all e vs bs.
Proof.
  revert s; induction vs as [|v vs IH]; intros s Hq; simpl in Hq.
  - eexists. constructor.
  - apply bindR_ok in Hq as (s1 & Hv & Hq). apply sized_emits in Hv as [a Ha].
    apply IH in Hq as [b Hb]. eexists. by constructor.
Qed.

Lemma decode_values_sound n s vs s' :
  wf s -> decode_values (fun s => decode e s VUndef) n s = Ok (vs, s') ->
  List.length vs = n /\ forallb (has_type t) vs = true /\
  exists bs, at_cursor s bs /\ s' = adv s (blen bs) /\ emits_all e vs bs.
Proof.
  revert s vs s'; induction n as [|n IH]; intros s vs s' Hwf Hq; simpl in Hq.
  - oks. split; [done|]. split; [done|]. exists [].
    split; [by apply at_cursor_nil|]. rewrite adv_0. split; [done|constructor].
  - apply bindR_ok in Hq as ([v s1] & Hv & Hq). apply bindR_ok in Hq as ([vs1 s2] & Hvs & Hq). oks.
    apply decode_sound in Hv as (Ht & a & Ha & -> & He); auto.
    apply IH in Hvs as (<- & Hts & b & Hb & -> & Hes); [|eauto using at_cursor_wf].
    split; [done|]. split; [simpl; by rewrite Ht|].
    exists (a ++ b). rewrite at_cursor_app, adv_adv, blen_app by auto.
    split; [done|]. split; [done|]. constructor; auto with hive.
Qed.

Lemma emits_all_reads vs bs :
  forallb (has_type t) vs = true -> emits_all e vs bs ->
  reads (decode_values (fun s => decode e s VUndef) (List.length vs)) bs vs.
Proof.
  intros Ht He. induction He as [|v vs a b Hv _ IH]; [apply reads_ret|].
  simpl in Ht. b2p.
  assert (Hr : reads (fun s => decode e s VUndef) a v)
    by (apply (decode_complete v VUndef VUndef); auto with hive).
  apply (reads_bind _ (fun v s => let! (vs, s) := decode_values _ (List.length vs) s in Ok (v :: vs, s))
           _ _ _ _ Hr).
  rewrite <- (app_nil_r b).
  apply (reads_bind _ (fun vs s => Ok (v :: vs, s)) _ _ _ _ (IH ltac:(auto))), reads_ret.
Qed.

Lemma array_emits lo hi vs p bs :
  lo <= Z.of_nat (List.length vs) <= hi -> hi <= MAX_SAFE_INTEGER -> emits_all e vs bs ->
  emits (arrayOf e lo hi) (VList vs) p (cuint_bytes (Z.of_nat (List.length vs)) ++ bs).
Proof.
  intros Hb Hh He. set (n := Z.of_nat (List.length vs)) in *.
  assert (Hr : (n <? lo) || (hi <? n) = false) by (apply orb_false_iff; rewrite !Z.ltb_ge; lia).
  assert (Hc : safe_uint n) by (unfold safe_uint; lia).
  split; intros s; cbn [preencode encode arrayOf]; unfold array_of_value; fold n; rewrite Hr;
    cbn [bindR]; fold n.
  - rewrite blen_app. apply (sizes_bind _ _ _ _ (cuint_sizes _ Hc) (emits_all_sizes _ _ _ He)).
  - intros Hwf Hl. by apply (writes_bind _ _ _ _ (cuint_writes _ Hc) (emits_all_writes _ _ _ He)).
Qed.

Lemma array_inv lo hi s v p s' :
  preencode (arrayOf e lo hi) s v p = Ok s' ->
  exists vs bs, v = VList vs /\ lo <= Z.of_nat (List.length vs) <= hi /\ emits_all e vs bs.
Proof.
  cbn [preencode arrayOf]. intros Hq. apply bindR_ok in Hq as (vs & Hv & Hq).
  apply bindR_ok in Hq as (s1 & _ & Hq). apply fold_values_emits in Hq as [bs Hbs].
  exists vs, bs. destruct v; try discriminate. unfold array_of_value in Hv. case_match; oks. b2p.
  split; [done|]. split; [lia|done].
Qed.

Lemma arrayOf_lawful lo hi : hi <= MAX_SAFE_INTEGER -> Lawful (arrayOf e lo hi) [] (TArr t).
Proof.
  intros Hh. split.
  - intros s v p s' Hq. apply array_inv in Hq as (vs & bs & -> & Hb & He). eauto using array_emits.
  - intros s p v s' Hwf Hq. cbn [decode arrayOf] in Hq. apply bindR_ok in Hq as ([n s1] & Hn & Hq).
    apply cuint_sound in Hn as (Hn & Hc & ->); auto. apply bindR_ok in Hq as ([] & Hr & Hq).
    apply throw_if_ok in Hr. b2p. apply bindR_ok in Hq as ([vs s2] & Hd & Hq). oks.
    apply decode_values_sound in Hd as (Hlen & Ht & bs & Hc' & -> & He); [|eauto using at_cursor_wf].
    unfold safe_uint in Hn. assert (n = Z.of_nat (List.length vs)) as -> by lia.
    split; [done|]. exists (cuint_bytes (Z.of_nat (List.length vs)) ++ bs).
    rewrite at_cursor_app, adv_adv, blen_app by auto. split; [done|]. split; [done|].
    intros p' _. apply array_emits; auto; lia.
  - intros v p p' bs Ht He Ha. pose proof (proj1 He (St 0 0 [])) as Hp.
    apply array_inv in Hp as (vs & b & -> & Hb & Hall).
    rewrite (emits_fun _ _ _ _ _ He (array_emits _ _ _ p _ Hb Hh Hall)).
    assert (Hc : safe_uint (Z.of_nat (List.length vs))) by (unfold safe_uint; lia).
    apply (reads_bind compactUint_decode (fun n s => fail_if ((n <? lo) || (hi <? n)) ;;!
       let! (vs, s) := decode_values (fun s => decode e s VUndef) (Z.to_nat n) s in
       Ok (VList vs, s)) _ _ _ _ (cuint_reads _ Hc)).
    rewrite (proj2 (Z.ltb_ge _ _)), (proj2 (Z.ltb_ge _ _)), Nat2Z.id by lia. simpl.
    rewrite <- (app_nil_r b).
    apply (reads_bind _ (fun vs s => Ok (VList vs, s)) _ _ _ _ (emits_all_reads _ _ Ht Hall)), reads_ret.
Qed.
End Arrays.

#[export] Instance arrayOf_lawful_lit e t lo hi :
  Lawful e [] t -> TCEq (hi <=? MAX_SAFE_INTEGER) true -> Lawful (arrayOf e lo hi) [] (TArr t).
Proof. rewrite TCEq_eq. intros Hl E. b2p. by apply arrayOf_lawful. Qed.

(** ** Structs *)

Definition mem (n : string) (l : list string) : bool := existsb (String.eqb n) l.

(** A field's name is new, and the fields its encoding looks at come before it. *)
Definition field_ok (seen : list string) (name : string) (deps : list string) : bool :=
  forallb (fun d => mem d seen) deps && negb (mem name seen).

Inductive FieldsLawful : list string -> fields -> list (string * jstype) -> Prop :=
| fields_lawful_nil seen : FieldsLawful seen [] []
| fields_lawful_cons seen name e deps t fs ts :
    Lawful e deps t -> TCEq (field_ok seen name deps) true -> FieldsLawful (name :: seen) fs ts ->
    FieldsLawful seen ((name, e) :: fs) ((name, t) :: ts).
Existing Class FieldsLawful.
#[export] Existing Instances fields_lawful_nil fields_lawful_cons.

(** The concatenated encodings of the fields of [v]. *)
Inductive emits_fields (v : val) : fields -> bytes -> Prop :=
| emits_fields_nil : emits_fields v [] []
| emits_fields_cons name e fs a b :
    emits e (get v name) v a -> emits_fields v fs b -> emits_fields v ((name, e) :: fs) (a ++ b).

Lemma emits_fields_sizes v fs bs :
  emits_fields v fs bs -> sizes (fun s => struct_fields preencode fs s v) (blen bs).
Proof.
  induction 1 as [|name e fs a b [Hs _] _ IH]; [apply sizes_ret|].
  rewrite blen_app. apply (sizes_bind _ _ _ _ Hs IH).
Qed.

Lemma emits_fields_writes v fs bs :
  emits_fields v fs bs -> writes (fun s => struct_fields encode fs s v) bs.
Proof.
  induction 1 as [|name e fs a b [_ Hw] _ IH]; [apply writes_ret|]. apply (writes_bind _ _ _ _ Hw IH).
Qed.

Lemma struct_fields_emits seen fs ts v s s' :
  FieldsLawful seen fs ts -> struct_fields preencode fs s v = Ok s' -> exists bs, emits_fields v fs bs.
Proof.
  intros Hf. revert s s'; induction Hf as [|seen name e deps t fs ts Hl _ _ IH]; intros s s' Hq; simpl in Hq.
  - eexists. constructor.
  - apply bindR_ok in Hq as (s1 & Hv & Hq). apply sized_emits in Hv as [a Ha].
    apply IH in Hq as [b Hb]. eexists. by constructor.
Qed.

(** The struct reads the fields of [v] only: two objects with the same fields
    have the same encoding. *)
Lemma struct_emits fs chk v p bs :
  is_object v = true -> run_validate chk v = Ok tt -> emits_fields v fs bs -> emits (struct fs chk) v p bs.
Proof.
  intros Hv Hc He. split; intros s; cbn [preencode encode struct]; rewrite Hv; simpl.
  - rewrite (emits_fields_sizes _ _ _ He s). simpl. by rewrite Hc.
  - apply (emits_fields_writes _ _ _ He s).
Qed.

Lemma struct_inv seen fs ts chk s v p s' :
  FieldsLawful seen fs ts -> preencode (struct fs chk) s v p = Ok s' ->
  is_object v = true /\ run_validate chk v = Ok tt /\ exists bs, emits_fields v fs bs.
Proof.
  intros Hf Hq. cbn [preencode struct] in Hq. oks. apply negb_false_iff in H.
  split; [done|]. split; [done|]. eauto using struct_fields_emits.
Qed.

(** [seen] lists the names [acc] defines. *)
Definition defines (acc : list (string * val)) (seen : list string) : Prop :=
  forall n, mem n seen = true <-> assoc n acc <> None.

Lemma defines_add acc seen n x :
  defines acc seen -> assoc n acc = None -> defines (acc ++ [(n, x)]) (n :: seen).
Proof.
  intros Hd Hn k. rewrite assoc_app. unfold mem. simpl. fold (mem k seen).
  rewrite orb_true_iff, (Hd k), String.eqb_eq, String.eqb_sym.
  destruct (assoc k acc) eqn:E; [naive_solver|].
  destruct (String.eqb k n) eqn:E2; [apply String.eqb_eq in E2|apply String.eqb_neq in E2]; naive_solver.
Qed.

Lemma field_ok_inv acc seen name deps :
  defines acc seen -> TCEq (field_ok seen name deps) true ->
  assoc name acc = None /\ forall rest, agree deps (VObj acc) (VObj (acc ++ rest)).
Proof.
  rewrite TCEq_eq. unfold field_ok. intros Hd Hok. apply andb_prop in Hok as [Hdeps Hn]. split.
  - destruct (assoc name acc) eqn:E; [|done]. exfalso. apply negb_true_iff in Hn.
    assert (mem name seen = true) by (apply Hd; congruence). congruence.
  - intros rest. apply Forall_forall. intros d Hin. apply list_elem_of_In in Hin.
    rewrite forallb_forall in Hdeps. apply Hdeps, Hd in Hin. simpl. rewrite assoc_app.
    by destruct (assoc d acc).
Qed.

Lemma get_middle acc name x rest :
  assoc name acc = None -> get (VObj ((acc ++ [(name, x)]) ++ rest)) name = x.
Proof. intros Hn. simpl. rewrite !assoc_app, Hn. simpl. by rewrite String.eqb_refl. Qed.

Lemma struct_decode_sound seen fs ts :
  FieldsLawful seen fs ts -> forall s acc res s',
  wf s -> defines acc seen -> struct_decode fs s acc = Ok (res, s') ->
  exists new bs, res = acc ++ new /\ has_fields has_type ts new = true /\
    at_cursor s bs /\ s' = adv s (blen bs) /\ emits_fields (VObj res) fs bs.
Proof.
  induction 1 as [seen|seen name e deps t fs ts Hl Hok Hf IH]; intros s acc res s' Hwf Hd Hq.
  - simpl in Hq. oks. exists [], []. rewrite app_nil_r, adv_0.
    split; [done|]. split; [done|]. split; [by apply at_cursor_nil|]. split; [done|constructor].
  - simpl in Hq. apply bindR_ok in Hq as ([x s1] & Hx & Hq).
    destruct (field_ok_inv _ _ _ _ Hd Hok) as [Hn Hag]. rewrite obj_set_fresh in Hq by done.
    apply decode_sound in Hx as (Ht & a & Ha & -> & He); auto.
    apply IH in Hq as (new & b & -> & Hfs & Hb & -> & Hes);
      [|eauto using at_cursor_wf|by apply defines_add].
    exists ((name, x) :: new), (a ++ b).
    split; [by rewrite <- app_assoc|]. split; [simpl; by rewrite String.eqb_refl, Ht|].
    split; [by apply at_cursor_app|]. split; [by rewrite adv_adv, blen_app|].
    constructor; auto. rewrite get_middle by done. apply He. rewrite <- app_assoc. apply Hag.
Qed.

Lemma struct_decode_complete seen fs ts :
  FieldsLawful seen fs ts -> forall acc rest bs,
  defines acc seen -> has_fields has_type ts rest = true ->
  emits_fields (VObj (acc ++ rest)) fs bs ->
  reads (fun s => struct_decode fs s acc) bs (acc ++ rest).
Proof.
  induction 1 as [seen|seen name e deps t fs ts Hl Hok Hf IH]; intros acc rest bs Hd Ht He.
  - destruct rest as [|[]]; [|done]. inversion He; subst. rewrite app_nil_r. apply reads_ret.
  - destruct rest as [|[m x] rest]; [done|]. simpl in Ht. b2p.
    match goal with H : String.eqb _ _ = true |- _ => apply String.eqb_eq in H; subst m end.
    destruct (field_ok_inv _ _ _ _ Hd Hok) as [Hn Hag].
    inversion He as [|? ? ? a b Ha Hb]; subst.
    change ((name, x) :: rest) with ([(name, x)] ++ rest) in Ha, Hb |- *.
    rewrite app_assoc in Ha, Hb. rewrite get_middle in Ha by done.
    assert (Hr : reads (fun s => decode e s (VObj acc)) a x).
    { eapply decode_complete; eauto. rewrite <- app_assoc. apply Forall_forall. intros d Hin.
      symmetry. revert d Hin. apply Forall_forall, Hag. }
    apply (reads_bind _ (fun x s => struct_decode fs s (obj_set acc name x)) _ _ _ _ Hr).
    rewrite obj_set_fresh, app_assoc by done. apply IH; auto using defines_add.
Qed.

#[export] Instance struct_lawful fs ts chk : FieldsLawful [] fs ts -> Lawful (struct fs chk) [] (TObj ts).
Proof.
  intros Hf. assert (Hnil : defines [] []) by (intros n; simpl; naive_solver). split.
  - intros s v p s' Hq. apply (struct_inv _ _ _ _ _ _ _ _ Hf) in Hq as (Hv & Hc & bs & He).
    eauto using struct_emits.
  - intros s p v s' Hwf Hq. cbn [decode struct] in Hq. apply bindR_ok in Hq as ([vs s1] & Hd & Hq). oks.
    apply (struct_decode_sound _ _ _ Hf) in Hd as (new & bs & -> & Ht & Hc & -> & He); auto.
    split; [done|]. exists bs. split; [done|]. split; [done|]. intros p' _. by apply struct_emits.
  - intros v p p' bs Ht He Ha. pose proof (proj1 He (St 0 0 [])) as Hp.
    apply (struct_inv _ _ _ _ _ _ _ _ Hf) in Hp as (Hv & Hc & b & Hb).
    rewrite (emits_fun _ _ _ _ _ He (struct_emits _ _ _ p _ Hv Hc Hb)).
    destruct v as [| | | | | |vs| | |]; try discriminate. simpl in Ht.
    intros s Hwf Hcur. cbn [decode struct].
    rewrite (struct_decode_complete _ _ _ Hf [] vs b Hnil Ht Hb s Hwf Hcur). simpl. by rewrite Hc.
Qed.

(** ** The two entry points *)

Lemma emits_encodeCanonical e v b : emits e v VUndef b -> encodeCanonical e v = Ok b.
Proof.
  intros [Hs Hw]. unfold encodeCanonical. rewrite (Hs (St 0 0 [])). simpl.
  pose proof (blen_nonneg b). set (s := with_start _ _).
  assert (blen (st_buffer s) = blen b) as Hb
    by (unfold s, blen; simpl; rewrite length_replicate; lia).
  rewrite (Hw s); [|unfold wf, s in *; simpl in *; lia | unfold s; simpl; lia]. simpl.
  rewrite Z.eqb_refl. simpl. by rewrite splice_all.
Qed.

Section EntryPoints.
Context (e : encoding) (t : jstype) `{!Lawful e [] t}.

Lemma encodeCanonical_emits v bs : encodeCanonical e v = Ok bs <-> emits e v VUndef bs.
Proof.
  split; [|apply emits_encodeCanonical]. intros Hq. pose proof Hq as Hq'. unfold encodeCanonical in Hq.
  apply bindR_ok in Hq as (s1 & Hp & _). apply sized_emits in Hp as [b Hb].
  rewrite (emits_encodeCanonical _ _ _ Hb) in Hq'. injection Hq' as <-. done.
Qed.

Lemma decodeCanonical_inv bs v :
  decodeCanonical e (VBytes bs) = Ok v -> has_type t v = true /\ emits e v VUndef bs.
Proof.
  unfold decodeCanonical. simpl. intros Hq. apply bindR_ok in Hq as ([x s'] & Hd & Hq). oks. b2p.
  assert (wf (St 0 (blen bs) bs)) by (unfold wf; simpl; pose proof (blen_nonneg bs); lia).
  apply decode_sound in Hd as (Ht & b & [Hl Hc] & -> & He); auto. split; [done|].
  simpl in *. assert (blen b = blen bs) as Hb by lia. rewrite Hb, slice_all in Hc. subst b.
  auto with hive.
Qed.

Lemma decodeCanonical_emits v bs :
  has_type t v = true -> emits e v VUndef bs -> decodeCanonical e (VBytes bs) = Ok v.
Proof.
  intros Ht He. unfold decodeCanonical. simpl.
  assert (wf (St 0 (blen bs) bs)) by (unfold wf; simpl; pose proof (blen_nonneg bs); lia).
  rewrite (decode_complete v VUndef VUndef bs Ht He (agree_nil _ _) (St 0 (blen bs) bs)).
  - simpl. by rewrite Z.eqb_refl.
  - done.
  - split; simpl; [lia | apply slice_all].
Qed.

(** An encoding is self-delimiting: two encodings that start the same buffer
    are equal. *)
Lemma emits_delimits v w a b r s :
  has_type t v = true -> has_type t w = true -> emits e v VUndef a -> emits e w VUndef b ->
  a ++ r = b ++ s -> v = w /\ a = b /\ r = s.
Proof.
  intros Hv Hw Ha Hb Heq. set (buf := a ++ r). set (st := St 0 (blen buf) buf).
  assert (Hwf : wf st) by (unfold wf, st; simpl; pose proof (blen_nonneg buf); lia).
  assert (Hcur : forall k q, buf = k ++ q -> at_cursor st k).
  { intros k q ->. split; simpl; [rewrite blen_app; pose proof (blen_nonneg q); lia|].
    by apply (slice_part _ [] _ q). }
  pose proof (decode_complete v VUndef VUndef a Hv Ha (agree_nil _ _) st Hwf (Hcur a r eq_refl)) as H1.
  pose proof (decode_complete w VUndef VUndef b Hw Hb (agree_nil _ _) st Hwf (Hcur b s Heq)) as H2.
  cbv beta in H1, H2. rewrite H1 in H2. injection H2 as -> Hl. split; [done|].
  apply app_inj_1 in Heq; [done|]. unfold blen in *. lia.
Qed.

(** What the encoder accepts, the decoder gives back. *)
Lemma codec_roundtrip v bs :
  has_type t v = true -> encodeCanonical e v = Ok bs -> decodeCanonical e (VBytes bs) = Ok v.
Proof. rewrite encodeCanonical_emits. apply decodeCanonical_emits. Qed.

(** The decoder accepts only what the encoder produces. *)
Lemma codec_canonical v bs :
  decodeCanonical e (VBytes bs) = Ok v -> has_type t v = true /\ encodeCanonical e v = Ok bs.
Proof. rewrite encodeCanonical_emits. apply decodeCanonical_inv. Qed.

(** Once the sizing pass accepts a value, the writing pass cannot fail and
    fills the allocation exactly. *)
Lemma codec_total v s : preencode e (St 0 0 []) v VUndef = Ok s ->
  exists bs, encodeCanonical e v = Ok bs /\ blen bs = st_end s.
Proof.
  intros Hp. pose proof Hp as Hp'. apply sized_emits in Hp as [bs Hb]. exists bs.
  rewrite encodeCanonical_emits. split; [done|]. destruct Hb as [Hs _].
  specialize (Hs (St 0 0 [])). cbv beta in Hs. rewrite Hp' in Hs. injection Hs as ->. done.
Qed.
End EntryPoints.
