(* ===== verification/DemoPlatform.v ===== *)
(** * A concrete platform

    The witnesses of the library evaluate the code at concrete inputs; this
    instance gives the platform a computable meaning there: a 32-byte digest
    that is not a constant, the identity on normalisation, ASCII case, and a URL
    parser for the canonical shapes the codec accepts. *)

From Stdlib Require Import ZArith Lia Bool List String Ascii.
From Stdlib Require Import Strings.Byte.
From stdpp Require Import base tactics list strings.
From S2P Require Import Prelude Codec.

Definition demo_digest (bs : bytes) : bytes :=
  be_bytes 32 (fold_left (fun acc b => Z.land (acc * 257 + b2z b) 0xffffffffff) bs 1).

Definition demo_parse_url (text : bytes) : option parsed_url :=
  match match_url text with
  | Some (_, authority, path) =>
      match split_authority authority with
      | Ok (host, _) => Some (ParsedUrl [] [] [] [] host path)
      | Err _ => None
      end
  | None => None
  end.

Definition demo_platform : Platform := {|
  generichash := demo_digest;
  is_nfc := fun _ => true;
  is_lower_case := fun host => forallb (fun b => negb (in_range 0x41 0x5a b)) host;
  parse_url := demo_parse_url
|}.

Lemma demo_digest_length bs : blen (demo_digest bs) = 32.
Proof. apply blen_be_bytes. Qed.

(** A 32-byte value that is not zero. *)
Definition key (b : byte) : val := VBytes (replicate 32 b).
