(* ===== verification/Authority.v ===== *)
(** * The frozen wire registry (packages/blind-protocol/wire-runtime-authority.js)

    The tables are the code's own, row by row and in its order; an enum member
    [E.M] is the constant [E_M]. *)

From Stdlib Require Import ZArith Lia Bool List String Ascii.
From Stdlib Require Import Strings.Byte.
From stdpp Require Import base tactics list strings.
From S2P Require Import Prelude Codec.

Definition FRAME_KIND_REQUEST : Z := 1.
Definition FRAME_KIND_RESPONSE : Z := 2.
Definition FRAME_KIND_ERROR : Z := 3.
Definition FRAME_KIND_STREAM : Z := 4.

Definition FAMILY_DESCRIBE : Z := 1.
Definition FAMILY_CELL : Z := 2.
Definition FAMILY_INBOX : Z := 3.
Definition FAMILY_CORE : Z := 4.
Definition FAMILY_FORWARD : Z := 5.

Definition TRANSPORT_ID_HTTPS_DIRECT : Z := 1.
Definition TRANSPORT_ID_DIRECT_PROTOMUX_NOISE : Z := 2.
Definition TRANSPORT_ID_OHTTP_INGRESS : Z := 3.
Definition TRANSPORT_ID_OHTTP_GATEWAY : Z := 4.
Definition TRANSPORT_ID_SPLIT_PROTOMUX_NOISE : Z := 5.
Definition TRANSPORT_ID_HTTP3_MASQUE : Z := 6.
Definition TRANSPORT_ID_TOR_V3_ONION : Z := 7.
Definition TRANSPORT_ID_WEBTRANSPORT_WEBSOCKET_TUNNEL : Z := 8.
Definition TRANSPORT_ID_MIX_PACKET_INGRESS : Z := 9.

Definition TRANSPORT_SUPPORT_DIRECT_HTTP : Z := 1.
Definition TRANSPORT_SUPPORT_DIRECT_NATIVE : Z := 2.
Definition TRANSPORT_SUPPORT_OHTTP : Z := 4.
Definition TRANSPORT_SUPPORT_TOR_HTTP : Z := 8.
Definition TRANSPORT_SUPPORT_TOR_NATIVE : Z := 16.
Definition TRANSPORT_SUPPORT_MASQUE_NATIVE : Z := 32.

Definition ENDPOINT_LIMITS_ROLE_BITS_MASK : Z := 127.
Definition ENDPOINT_LIMITS_PRIVACY_PROFILE_BITS_MASK : Z := 255.
Definition ENDPOINT_LIMITS_ENVELOPE_CLASS_BITS_MASK : Z := 126.
Definition ENDPOINT_LIMITS_WIRE_CLASS_BITS_MASK : Z := 14.

Definition PUBLIC_PROFILE_LIMITS_CELL_SIZE_CLASS_BITS_MASK : Z := 62.
Definition PUBLIC_PROFILE_LIMITS_LEASE_CLASS_BITS_MASK : Z := 30.
Definition PUBLIC_PROFILE_LIMITS_ENABLED_OPERATION_BITS_MASK : Z := 4194303.
Definition PUBLIC_PROFILE_LIMITS_TRANSPORT_BITS_MASK : Z := 1022.
Definition PUBLIC_PROFILE_LIMITS_MAX_DESCRIPTOR_BYTES : Z := 16384.
Definition PUBLIC_PROFILE_LIMITS_MAX_DHT_POINTER_BYTES : Z := 1000.
Definition PUBLIC_PROFILE_LIMITS_MAX_RESPONSE_BYTES : Z := 4194304.
Definition PUBLIC_PROFILE_LIMITS_MAX_BATCH_COUNT : Z := 64.
Definition PUBLIC_PROFILE_LIMITS_MAX_ADMISSION_TOKEN_BYTES : Z := 4096.
Definition PUBLIC_PROFILE_LIMITS_MAX_ADMISSION_RESOURCE_COST_ROWS : Z := 512.
Definition PUBLIC_PROFILE_LIMITS_MAX_OHTTP_CONFIG_EPOCHS : Z := 120.

Definition ADMISSION_CONFORMANCE_CLASS_OPEN : Z := 1.
Definition ADMISSION_CONFORMANCE_CLASS_PRIVATE : Z := 2.

Definition CELL_RECEIPT_RESULT_STORED : Z := 1.
Definition CELL_RECEIPT_RESULT_SERVED : Z := 2.
Definition CELL_RECEIPT_RESULT_RENEWED : Z := 3.
Definition CELL_RECEIPT_RESULT_DROPPED : Z := 4.

Definition INBOX_MANAGE_OPERATION_RENEW : Z := 1.
Definition INBOX_MANAGE_OPERATION_CLOSE : Z := 2.

Definition INBOX_APPEND_AUTH_MODE_OPEN_CAPABILITY : Z := 0.
Definition INBOX_APPEND_AUTH_MODE_SIGNATURE_REQUIRED : Z := 1.

Definition INBOX_RECEIPT_RESULT_CREATED : Z := 1.
Definition INBOX_RECEIPT_RESULT_RENEWED : Z := 2.
Definition INBOX_RECEIPT_RESULT_CLOSED : Z := 3.

Definition INBOX_APPEND_RESULT_STORED : Z := 1.

Definition CORE_ACK_RESULT_MIRROR_ACCEPTED : Z := 1.
Definition CORE_ACK_RESULT_RECENTLY_SERVED : Z := 2.

Definition FORWARD_CLOSE_KIND_FIN : Z := 1.
Definition FORWARD_CLOSE_KIND_ABORT : Z := 2.

Definition STORE_LIFECYCLE_STATE_ACTIVE : Z := 1.
Definition STORE_LIFECYCLE_STATE_DRAINING : Z := 2.
Definition STORE_LIFECYCLE_STATE_RETIRED : Z := 3.

Definition HEALTH_CLOCK_STATE_READY : Z := 1.
Definition HEALTH_CLOCK_STATE_UNSAFE : Z := 2.
Definition HEALTH_CLOCK_STATE_VERIFYING : Z := 3.

Definition HEALTH_INTEGRITY_STATE_VERIFIED : Z := 1.
Definition HEALTH_INTEGRITY_STATE_DEGRADED : Z := 2.
Definition HEALTH_INTEGRITY_STATE_FAILED : Z := 3.

Definition HEALTH_REBALANCE_STATE_STABLE : Z := 0.
Definition HEALTH_REBALANCE_STATE_COPYING : Z := 1.
Definition HEALTH_REBALANCE_STATE_CATCHING_UP : Z := 2.
Definition HEALTH_REBALANCE_STATE_FENCED : Z := 3.

Definition STREAM_TRANSITION_UNARY : Z := 0.
Definition STREAM_TRANSITION_CORE_CHILD : Z := 1.
Definition STREAM_TRANSITION_FORWARD_OPEN : Z := 2.
Definition STREAM_TRANSITION_FORWARD_ACTIVE : Z := 3.

Definition DOMAIN_PURPOSE_REQUEST_COMMITMENT : Z := 1.
Definition DOMAIN_PURPOSE_RESULT_SIGNATURE : Z := 2.
Definition DOMAIN_PURPOSE_AUXILIARY_SIGNATURE : Z := 3.

Definition DOMAIN_RECIPE_OPERATION_DEFINED_COMMITMENT_PREIMAGE : Z := 1.
Definition DOMAIN_RECIPE_ED25519_DOMAIN_LEN64_PAYLOAD : Z := 2.

Definition REQUEST_COMMITMENT_DOMAIN_ID_CELL_PUT : Z := 1.
Definition REQUEST_COMMITMENT_DOMAIN_ID_CELL_GET : Z := 2.
Definition REQUEST_COMMITMENT_DOMAIN_ID_CELL_RENEW : Z := 3.
Definition REQUEST_COMMITMENT_DOMAIN_ID_CELL_DROP : Z := 4.
Definition REQUEST_COMMITMENT_DOMAIN_ID_CELL_PROVE : Z := 5.
Definition REQUEST_COMMITMENT_DOMAIN_ID_CELL_BATCH_GET : Z := 6.
Definition REQUEST_COMMITMENT_DOMAIN_ID_INBOX_CREATE : Z := 7.
Definition REQUEST_COMMITMENT_DOMAIN_ID_INBOX_RENEW : Z := 8.
Definition REQUEST_COMMITMENT_DOMAIN_ID_INBOX_CLOSE : Z := 9.
Definition REQUEST_COMMITMENT_DOMAIN_ID_INBOX_APPEND : Z := 10.
Definition REQUEST_COMMITMENT_DOMAIN_ID_INBOX_READ : Z := 11.
Definition REQUEST_COMMITMENT_DOMAIN_ID_INBOX_WATCH : Z := 12.
Definition REQUEST_COMMITMENT_DOMAIN_ID_CORE_MIRROR : Z := 13.
Definition REQUEST_COMMITMENT_DOMAIN_ID_CORE_SERVE : Z := 14.
Definition REQUEST_COMMITMENT_DOMAIN_ID_CORE_OPEN_REPLICATION : Z := 15.
Definition REQUEST_COMMITMENT_DOMAIN_ID_FORWARD_OPEN : Z := 16.

Definition RESULT_SIGNATURE_DOMAIN_ID_DESCRIPTOR : Z := 101.
Definition RESULT_SIGNATURE_DOMAIN_ID_HEALTH_RESULT : Z := 102.
Definition RESULT_SIGNATURE_DOMAIN_ID_ADMISSION_PARAMETERS : Z := 103.
Definition RESULT_SIGNATURE_DOMAIN_ID_CELL_RECEIPT : Z := 104.
Definition RESULT_SIGNATURE_DOMAIN_ID_BATCH_GET_RESULT : Z := 105.
Definition RESULT_SIGNATURE_DOMAIN_ID_INBOX_RECEIPT : Z := 106.
Definition RESULT_SIGNATURE_DOMAIN_ID_INBOX_APPEND_ACK : Z := 107.
Definition RESULT_SIGNATURE_DOMAIN_ID_INBOX_READ_RESULT : Z := 108.
Definition RESULT_SIGNATURE_DOMAIN_ID_CORE_ACK : Z := 109.
Definition RESULT_SIGNATURE_DOMAIN_ID_CORE_OPEN_RESULT : Z := 110.
Definition RESULT_SIGNATURE_DOMAIN_ID_FORWARD_OPEN_RESULT : Z := 111.

Definition AUXILIARY_SIGNATURE_DOMAIN_ID_OHTTP_KEY_CONFIG : Z := 201.
Definition AUXILIARY_SIGNATURE_DOMAIN_ID_IDENTITY_TRANSITION : Z := 202.
Definition AUXILIARY_SIGNATURE_DOMAIN_ID_DHT_POINTER : Z := 203.
Definition AUXILIARY_SIGNATURE_DOMAIN_ID_TRANSPORT_ROUTE : Z := 204.
Definition AUXILIARY_SIGNATURE_DOMAIN_ID_FORWARD_HOP_OPEN : Z := 205.
Definition AUXILIARY_SIGNATURE_DOMAIN_ID_FORWARD_HOP_ACCEPT : Z := 206.
Definition AUXILIARY_SIGNATURE_DOMAIN_ID_EXTERNAL_JOURNAL_TOPOLOGY : Z := 207.
Definition AUXILIARY_SIGNATURE_DOMAIN_ID_EXTERNAL_COMMIT_WITNESS : Z := 208.
Definition AUXILIARY_SIGNATURE_DOMAIN_ID_RESTORE_EVIDENCE_HEAD : Z := 209.
Definition AUXILIARY_SIGNATURE_DOMAIN_ID_BACKUP_MANIFEST : Z := 210.
Definition AUXILIARY_SIGNATURE_DOMAIN_ID_CLEAN_RESTORE_EVIDENCE : Z := 211.
Definition AUXILIARY_SIGNATURE_DOMAIN_ID_BACKUP_RETENTION_TRANSITION : Z := 212.
Definition AUXILIARY_SIGNATURE_DOMAIN_ID_FORWARD_ROUTE_SCOPE : Z := 213.

Definition ERROR_PROFILE_ID_CANONICAL_V1 : Z := 1.

Definition ERROR_RETRY_AFTER_MODE_MUST_BE_ABSENT : Z := 0.
Definition ERROR_RETRY_AFTER_MODE_MUST_BE_PRESENT : Z := 1.

Definition DISPATCH_LIMITS_PREFIX_BYTES : Z := 4.
Definition DISPATCH_LIMITS_HEADER_BYTES : Z := 41.
Definition DISPATCH_LIMITS_REQUEST_ID_BYTES : Z := 16.
Definition DISPATCH_LIMITS_MAX_BODY_BYTES : Z := 4194304.
Definition DISPATCH_LIMITS_MAX_FRAME_AFTER_PREFIX_BYTES : Z := 4194368.
Definition DISPATCH_LIMITS_MAX_WIRE_BYTES : Z := 4194372.
Definition DISPATCH_LIMITS_MAX_FORWARD_DATA_BYTES : Z := 65535.
Definition DISPATCH_LIMITS_MAX_FORWARD_WINDOW_BYTES : Z := 1048576.

Definition OPERATION_DESCRIBE_GET : Z := 1.
Definition OPERATION_DESCRIBE_CHALLENGE : Z := 2.
Definition OPERATION_DESCRIBE_ADMISSION_PARAMETERS : Z := 3.
Definition OPERATION_CELL_PUT : Z := 1.
Definition OPERATION_CELL_GET : Z := 2.
Definition OPERATION_CELL_RENEW : Z := 3.
Definition OPERATION_CELL_DROP : Z := 4.
Definition OPERATION_CELL_PROVE : Z := 5.
Definition OPERATION_CELL_BATCH_GET : Z := 6.
Definition OPERATION_INBOX_CREATE : Z := 1.
Definition OPERATION_INBOX_RENEW : Z := 2.
Definition OPERATION_INBOX_CLOSE : Z := 3.
Definition OPERATION_INBOX_APPEND : Z := 4.
Definition OPERATION_INBOX_READ : Z := 5.
Definition OPERATION_INBOX_WATCH : Z := 6.
Definition OPERATION_CORE_MIRROR : Z := 1.
Definition OPERATION_CORE_PROVE : Z := 2.
Definition OPERATION_CORE_OPEN_REPLICATION : Z := 3.
Definition OPERATION_FORWARD_OPEN : Z := 1.
Definition OPERATION_FORWARD_DATA : Z := 2.
Definition OPERATION_FORWARD_WINDOW : Z := 3.
Definition OPERATION_FORWARD_CLOSE : Z := 4.

Definition CELL_SIZE_CLASS : list (Z * Z) :=
  [(1, 4096); (2, 16384); (3, 65536); (4, 262144); (5, 1048576)].

Definition INBOX_FRAME_CLASS : list (Z * Z) :=
  [(1, 4096); (2, 16384); (3, 65536)].

Definition OUTER_CLASS : list (Z * Z) :=
  [(1, 4096); (2, 16384); (3, 65536); (4, 262144); (5, 1048576); (6, 8388608)].

Definition STREAM_WIRE_CLASS : list (Z * Z) :=
  [(1, 4096); (2, 16384); (3, 65535)].

Definition FAMILY_ROUTES : list (Z * string) :=
  [(1, "/api/blind/v1/describe");
   (2, "/api/blind/v1/cell");
   (3, "/api/blind/v1/inbox");
   (4, "/api/blind/v1/core");
   (5, "/api/blind/v1/forward")].

Definition FAMILY : list (string * Z) :=
  [("DESCRIBE", FAMILY_DESCRIBE); ("CELL", FAMILY_CELL); ("INBOX", FAMILY_INBOX); ("CORE", FAMILY_CORE); ("FORWARD", FAMILY_FORWARD)].

Record circuit_tuple := CircuitTuple {
  cc_grantedInitialWindow : Z; cc_maxCircuitBytes : Z; cc_idleMillis : Z; cc_lifetimeMillis : Z }.

Definition FORWARD_CIRCUIT_CLASS : list (Z * circuit_tuple) :=
  [(1, CircuitTuple 65536 16777216 30000 600000);
   (2, CircuitTuple 262144 67108864 60000 1800000);
   (3, CircuitTuple 1048576 268435456 120000 3600000)].

Record session_tuple := SessionTuple {
  cs_maxSessionBytes : Z; cs_idleMillis : Z; cs_lifetimeMillis : Z }.

Definition CORE_SESSION_CLASS : list (Z * session_tuple) :=
  [(1, SessionTuple 16777216 30000 600000);
   (2, SessionTuple 67108864 60000 1800000);
   (3, SessionTuple 268435456 120000 3600000)].

Record domain_entry := DomainEntry {
  de_domainId : Z;
  de_purpose : Z;
  de_recipeId : Z;
  de_exactAsciiBytes : string }.

Definition DOMAIN_REGISTRY : list domain_entry :=
  [DomainEntry 1 1 1 "hiverelay.blind.request.v1cell-put";
   DomainEntry 2 1 1 "hiverelay.blind.request.v1cell-get";
   DomainEntry 3 1 1 "hiverelay.blind.request.v1cell-renew";
   DomainEntry 4 1 1 "hiverelay.blind.request.v1cell-drop";
   DomainEntry 5 1 1 "hiverelay.blind.request.v1cell-prove";
   DomainEntry 6 1 1 "hiverelay.blind.request.v1cell-batch-get";
   DomainEntry 7 1 1 "hiverelay.blind.request.v1inbox-create";
   DomainEntry 8 1 1 "hiverelay.blind.request.v1inbox-renew";
   DomainEntry 9 1 1 "hiverelay.blind.request.v1inbox-close";
   DomainEntry 10 1 1 "hiverelay.blind.request.v1inbox-append";
   DomainEntry 11 1 1 "hiverelay.blind.request.v1inbox-read";
   DomainEntry 12 1 1 "hiverelay.blind.request.v1inbox-watch";
   DomainEntry 13 1 1 "hiverelay.blind.request.v1core-mirror";
   DomainEntry 14 1 1 "hiverelay.blind.request.v1core-serve";
   DomainEntry 15 1 1 "hiverelay.blind.request.v1core-open-replication";
   DomainEntry 16 1 1 "hiverelay.blind.forward-open.v1";
   DomainEntry 101 2 2 "hiverelay.blind.descriptor.v1";
   DomainEntry 102 2 2 "hiverelay.blind.health-result.v1";
   DomainEntry 103 2 2 "hiverelay.blind.admission-parameters.v1";
   DomainEntry 104 2 2 "hiverelay.blind.cell-receipt.v1";
   DomainEntry 105 2 2 "hiverelay.blind.batch-get-result.v1";
   DomainEntry 106 2 2 "hiverelay.blind.inbox-receipt.v1";
   DomainEntry 107 2 2 "hiverelay.blind.inbox-append-ack.v1";
   DomainEntry 108 2 2 "hiverelay.blind.inbox-read-result.v1";
   DomainEntry 109 2 2 "hiverelay.blind.core-ack.v1";
   DomainEntry 110 2 2 "hiverelay.blind.core-open-result.v1";
   DomainEntry 111 2 2 "hiverelay.blind.forward-open-result.v1";
   DomainEntry 201 3 2 "hiverelay.blind.ohttp-key-config.v1";
   DomainEntry 202 3 2 "hiverelay.blind.identity-transition.v1";
   DomainEntry 203 3 2 "hiverelay.blind.dht-pointer.v1";
   DomainEntry 204 3 2 "hiverelay.blind.transport-route.v1";
   DomainEntry 205 3 2 "hiverelay.blind.forward-hop-open.v1";
   DomainEntry 206 3 2 "hiverelay.blind.forward-hop-accept.v1";
   DomainEntry 207 3 2 "hiverelay.blind.external-journal-topology.v1";
   DomainEntry 208 3 2 "hiverelay.blind.external-commit-witness.v1";
   DomainEntry 209 3 2 "hiverelay.blind.restore-evidence-head.v1";
   DomainEntry 210 3 2 "hiverelay.blind.backup-manifest.v1";
   DomainEntry 211 3 2 "hiverelay.blind.clean-restore-evidence.v1";
   DomainEntry 212 3 2 "hiverelay.blind.backup-retention-transition.v1";
   DomainEntry 213 3 2 "hiverelay.blind.forward-route-scope.v1"].

Record cost_rule := CostRule {
  cr_costClassRuleId : Z;
  cr_ruleKind : Z }.

Definition ADMISSION_COST_RULES : list cost_rule :=
  [CostRule 1 1;
   CostRule 2 2;
   CostRule 3 3;
   CostRule 4 4;
   CostRule 5 5;
   CostRule 6 6;
   CostRule 7 7;
   CostRule 8 8;
   CostRule 9 9;
   CostRule 10 10;
   CostRule 11 11].

Record error_profile := ErrorProfile {
  ep_errorProfileId : Z;
  ep_code : Z;
  ep_directCorrelatedStatus : Z;
  ep_protectedInnerStatus : Z;
  ep_retryable : Z;
  ep_retryAfterMode : Z }.

Definition ERROR_PROFILE_ROWS : list error_profile :=
  [ErrorProfile 1 1 200 200 0 0;
   ErrorProfile 1 2 200 200 0 0;
   ErrorProfile 1 3 200 200 0 0;
   ErrorProfile 1 4 200 200 0 0;
   ErrorProfile 1 5 200 200 0 0;
   ErrorProfile 1 6 200 200 0 0;
   ErrorProfile 1 7 200 200 0 0;
   ErrorProfile 1 8 200 200 0 0;
   ErrorProfile 1 9 200 200 1 0;
   ErrorProfile 1 10 200 200 0 0;
   ErrorProfile 1 11 200 200 0 0;
   ErrorProfile 1 12 200 200 0 0;
   ErrorProfile 1 13 200 200 0 0;
   ErrorProfile 1 14 200 200 0 0;
   ErrorProfile 1 15 200 200 0 0;
   ErrorProfile 1 16 200 200 1 0;
   ErrorProfile 1 17 200 200 1 0;
   ErrorProfile 1 18 200 200 1 1;
   ErrorProfile 1 19 200 200 0 0;
   ErrorProfile 1 20 200 200 0 0].

Record operation_profile := OperationProfile {
  op_familyId : Z;
  op_operationId : Z;
  op_requestSchemaId : Z;
  op_resultSchemaId : Z;
  op_allowedRequestKindBits : Z;
  op_allowedResultKindBits : Z;
  op_streamTransition : Z;
  op_maxRequestBodyBytes : Z;
  op_maxResultBodyBytes : Z;
  op_admissionMode : Z;
  op_costClassRuleId : Z;
  op_requestCommitmentDomainId : Z;
  op_resultSignatureDomainId : Z;
  op_errorProfileId : Z;
  op_transportSupportBits : Z }.

Definition OPERATION_PROFILE_ROWS : list operation_profile :=
  [OperationProfile 1 1 16 39 1 6 0 16384 16384 0 0 0 101 1 31;
   OperationProfile 1 2 31 32 1 6 0 16384 16384 0 0 0 102 1 31;
   OperationProfile 1 3 9 2 1 6 0 16384 16384 0 0 0 103 1 31;
   OperationProfile 2 1 68 36 1 6 0 1056768 16384 2 1 1 104 1 31;
   OperationProfile 2 2 54 53 1 6 0 16384 1048832 1 2 2 0 1 31;
   OperationProfile 2 3 71 36 1 6 0 16384 16384 2 3 3 104 1 31;
   OperationProfile 2 4 49 36 1 6 0 16384 16384 0 0 4 104 1 31;
   OperationProfile 2 5 67 66 1 6 0 16384 1049600 1 2 5 104 1 31;
   OperationProfile 2 6 8 6 1 6 0 16384 4194304 1 4 6 105 1 31;
   OperationProfile 3 1 57 62 1 6 0 16384 16384 2 5 7 106 1 31;
   OperationProfile 3 2 58 62 1 6 0 16384 16384 2 6 8 106 1 31;
   OperationProfile 3 3 58 62 1 6 0 16384 16384 0 0 9 106 1 31;
   OperationProfile 3 4 56 55 1 6 0 70656 16384 2 7 10 107 1 31;
   OperationProfile 3 5 61 59 1 6 0 16384 4194304 1 4 11 108 1 31;
   OperationProfile 3 6 63 59 1 6 0 16384 4194304 2 8 12 108 1 31;
   OperationProfile 4 1 43 15 1 6 0 16384 16384 2 9 13 109 1 31;
   OperationProfile 4 2 46 47 1 6 0 16384 4194304 1 4 14 109 1 31;
   OperationProfile 4 3 45 44 1 6 1 16384 16384 2 10 15 110 1 18;
   OperationProfile 5 1 27 26 1 6 2 131072 131072 2 11 16 111 1 50;
   OperationProfile 5 2 23 0 8 8 3 66000 66000 0 0 0 0 1 50;
   OperationProfile 5 3 30 0 8 8 3 1024 1024 0 0 0 0 1 50;
   OperationProfile 5 4 22 0 8 12 3 1024 16384 0 0 0 0 1 50].

Definition ADVERTISED_OPERATION_PROFILE_ROWS : list operation_profile :=
  [OperationProfile 1 1 16 39 1 6 0 16384 16384 0 0 0 101 1 31;
   OperationProfile 1 2 31 32 1 6 0 16384 16384 0 0 0 102 1 31;
   OperationProfile 1 3 9 2 1 6 0 16384 16384 0 0 0 103 1 31;
   OperationProfile 2 1 68 36 1 6 0 1056768 16384 2 1 1 104 1 31;
   OperationProfile 2 2 54 53 1 6 0 16384 1048832 1 2 2 0 1 31;
   OperationProfile 2 3 71 36 1 6 0 16384 16384 2 3 3 104 1 31;
   OperationProfile 2 4 49 36 1 6 0 16384 16384 0 0 4 104 1 31;
   OperationProfile 2 5 67 66 1 6 0 16384 1049600 1 2 5 104 1 31;
   OperationProfile 2 6 8 6 1 6 0 16384 4194304 1 4 6 105 1 31;
   OperationProfile 3 1 57 62 1 6 0 16384 16384 2 5 7 106 1 31;
   OperationProfile 3 2 58 62 1 6 0 16384 16384 2 6 8 106 1 31;
   OperationProfile 3 3 58 62 1 6 0 16384 16384 0 0 9 106 1 31;
   OperationProfile 3 4 56 55 1 6 0 70656 16384 2 7 10 107 1 31;
   OperationProfile 3 5 61 59 1 6 0 16384 4194304 1 4 11 108 1 31;
   OperationProfile 3 6 63 59 1 6 0 16384 4194304 2 8 12 108 1 31;
   OperationProfile 4 1 43 15 1 6 0 16384 16384 2 9 13 109 1 31;
   OperationProfile 4 2 46 47 1 6 0 16384 4194304 1 4 14 109 1 31].

Definition RESERVED_OPERATION_PAIRS : list (Z * Z) :=
  [(4, 3); (5, 1); (5, 2); (5, 3); (5, 4)].

Definition ADVERTISED_OPERATION_BITS : Z := 131071.
Definition RESERVED_OPERATION_BITS : Z := 4063232.
Definition CLOCK_UNSAFE_OPERATION_BITS : Z := 38440.

(** *** Lookups

    The arguments are compared with [===], so they are JavaScript values. *)

Definition domainRegistryEntry (domainId : val) : option domain_entry :=
  find (fun entry => is_num domainId (de_domainId entry)) DOMAIN_REGISTRY.

Definition admissionCostRule (costClassRuleId : val) : option cost_rule :=
  find (fun entry => is_num costClassRuleId (cr_costClassRuleId entry)) ADMISSION_COST_RULES.

Definition errorProfileEntry (errorProfileId code : val) : option error_profile :=
  find (fun entry => is_num errorProfileId (ep_errorProfileId entry) && is_num code (ep_code entry))
    ERROR_PROFILE_ROWS.

Definition row_is (familyId operationId : val) (row : operation_profile) : bool :=
  is_num familyId (op_familyId row) && is_num operationId (op_operationId row).

(** [rows.findIndex(p)] *)
Fixpoint findIndex {A} (p : A -> bool) (i : Z) (rows : list A) : Z :=
  match rows with
  | [] => -1
  | row :: rest => if p row then i else findIndex p (i + 1) rest
  end.

Definition operationOrdinal (familyId operationId : val) : Z :=
  findIndex (row_is familyId operationId) 0 OPERATION_PROFILE_ROWS.

Definition operationBit (familyId operationId : val) : Z :=
  let ordinal := operationOrdinal familyId operationId in
  if ordinal <? 0 then 0 else js_shl 1 ordinal.

Definition operationProfile (familyId operationId : val) : option operation_profile :=
  find (row_is familyId operationId) OPERATION_PROFILE_ROWS.

Definition isKnownOperation (familyId operationId : val) : bool :=
  match operationProfile familyId operationId with Some _ => true | None => false end.

Definition isReservedOperation (familyId operationId : val) : bool :=
  existsb (fun row => is_num familyId (fst row) && is_num operationId (snd row)) RESERVED_OPERATION_PAIRS.

Definition isAdvertisedOperation (familyId operationId : val) : bool :=
  isKnownOperation familyId operationId && negb (isReservedOperation familyId operationId).

Definition assertAdvertisedOperation (familyId operationId : val) : result operation_profile :=
  match operationProfile familyId operationId with
  | Some profile =>
      if negb (isReservedOperation familyId operationId) then Ok profile else Err UNSUPPORTED_OPERATION
  | None => Err UNSUPPORTED_OPERATION
  end.

Definition familyName (familyId : val) : option string :=
  fst <$> find (fun entry => is_num familyId (snd entry)) FAMILY.

Definition routeForFamily (familyId : val) : option string :=
  table_get FAMILY_ROUTES familyId.

