(* ===== verification/Hashes.v ===== *)
(** * Hashes, commitments and signature payloads (packages/blind-protocol/hashes.js)

    Every commitment hashes a preimage: a registered domain string followed by
    the committed fields. The preimages are definitions of their own, so that
    what they bind can be stated without assuming anything of the hash. *)

From Stdlib Require Import ZArith Lia Bool List String Ascii.
From Stdlib Require Import Strings.Byte.
From stdpp Require Import base tactics list strings.
From S2P Require Import Prelude Codec Authority.

Module Hash.

Definition HASH_BYTES : Z := 32.

(** [b4a.concat([...])], the parts evaluated in order. *)
Fixpoint concat (parts : list (result bytes)) : result bytes :=
  match parts with
  | [] => Ok []
  | part :: rest => let! a := part in let! b := concat rest in Ok (a ++ b)
  end.

Definition asBuffer (value : val) : result bytes :=
  match value with
  | VStr s => Ok (ascii_bytes s)
  | VBytes bs => Ok bs
  | _ => Err BAD_ENCODING
  end.

(** [for (let i = 7; i >= 0; i--) { output[i] = Number(value & 0xffn);
    value >>= 8n }] on a fresh 8-byte array. *)
Definition encodeU64 (value : val) : result bytes :=
  let! value := asU64 value in
  Ok (writeU64_loop (replicate 8 Byte.x00) value 0 [7; 6; 5; 4; 3; 2; 1; 0]).

Definition encodeUnsigned (value : val) (nbytes maximum : Z) : result bytes :=
  let! value := assertUnsignedNumber value maximum in
  Ok (write_be_loop (Z.to_nat nbytes) (replicate (Z.to_nat nbytes) Byte.x00) 0 value).

Definition encodeU8 (value : val) : result bytes := encodeUnsigned value 1 0xff.
Definition encodeU16 (value : val) : result bytes := encodeUnsigned value 2 0xffff.
Definition encodeU32 (value : val) : result bytes := encodeUnsigned value 4 0xffffffff.

Definition fixedBytesInput (value : val) (length : Z) : result bytes :=
  let! value := asBuffer value in
  fail_if (negb (blen value =? length)) ;;!
  Ok value.

Definition isAllZero (value : bytes) : bool := forallb (fun b => b2z b =? 0) value.

Definition nonzeroFixedBytesInput (value : val) (length : Z) : result bytes :=
  let! value := fixedBytesInput value length in
  fail_if (isAllZero value) ;;!
  Ok value.

(** [!Number.isSafeInteger(value) || value < lo || value > hi] *)
Definition not_in_range (value : val) (lo hi : Z) : bool :=
  match value with
  | VNum n => negb (isSafeInteger n) || (n <? lo) || (hi <? n)
  | _ => true
  end.

(** Reading a property of null or undefined throws. *)
Definition dereferences (value : val) : result unit :=
  throw_if (nullish value) TypeError.

(** [[^\x20-\x7e]] does not occur in the domain string, which is not empty. *)
Definition printable_domain (domain : string) : bool :=
  negb (String.eqb domain "") && forallb (in_range 0x20 0x7e) (ascii_bytes domain).

Section WithPlatform.
Context `{Platform}.

Definition blake2b256 (bs : bytes) : bytes := generichash bs.

Definition domainLengthHash (domain : string) (value : val) : result bytes :=
  fail_if (negb (printable_domain domain)) ;;!
  let! bs := asBuffer value in
  let! preimage := concat [Ok (ascii_bytes domain); encodeU64 (VNum (blen bs)); Ok bs] in
  Ok (blake2b256 preimage).

Definition domainHash (domain : string) (value : val) : result bytes :=
  fail_if (negb (printable_domain domain)) ;;!
  let! bs := asBuffer value in
  Ok (blake2b256 (ascii_bytes domain ++ bs)).

Definition persistentResultCommitment (familyId operationId value : val) : result bytes :=
  fail_if (negb (isKnownOperation familyId operationId)) ;;!
  let! bs := asBuffer value in
  let! preimage := concat [
    Ok (ascii_bytes "hiverelay.blind.persistent-result.v1");
    encodeU8 familyId;
    encodeU8 operationId;
    encodeU64 (VNum (blen bs));
    Ok bs] in
  Ok (blake2b256 preimage).

Definition serviceDescriptorHash (value : val) : result bytes := domainHash "hiverelay.blind.descriptor-hash.v1" value.
Definition admissionParametersHash (value : val) : result bytes := domainHash "hiverelay.blind.admission-parameters-hash.v1" value.
Definition durabilityProfileHash (value : val) : result bytes := domainLengthHash "hiverelay.blind.durability-profile-hash.v1" value.
Definition durabilityContinuityHash (value : val) : result bytes := domainLengthHash "hiverelay.blind.durability-continuity-hash.v1" value.

(** *** Request commitments *)

Definition requestPreimage (domainId : Z) (fields : list (result bytes)) : result bytes :=
  let! fields := concat fields in
  match domainRegistryEntry (VNum domainId) with
  | Some entry =>
      if negb (de_purpose entry =? DOMAIN_PURPOSE_REQUEST_COMMITMENT)
         || negb (de_recipeId entry =? DOMAIN_RECIPE_OPERATION_DEFINED_COMMITMENT_PREIMAGE)
      then Err BAD_ENCODING
      else Ok (ascii_bytes (de_exactAsciiBytes entry) ++ fields)
  | None => Err BAD_ENCODING
  end.

Definition coreOpenReplicationPreimage (value : val) : result bytes :=
  fail_if (negb (is_object value)) ;;!
  fail_if (not_in_range (get value "sessionClass") 1 3) ;;!
  let! parentChannelBinding := fixedBytesInput (get value "parentChannelBinding") 32 in
  fail_if (isAllZero parentChannelBinding) ;;!
  let! controlChannelId := encodeU64 (get value "controlChannelId") in
  fail_if (isAllZero controlChannelId) ;;!
  requestPreimage REQUEST_COMMITMENT_DOMAIN_ID_CORE_OPEN_REPLICATION [
    fixedBytesInput (get value "relayPublicKey") 32;
    fixedBytesInput (get value "wireProfileHash") 32;
    Ok [z2b (num (get value "sessionClass"))];
    Ok controlChannelId;
    Ok parentChannelBinding;
    fixedBytesInput (get value "clientNonce") 32].

Definition coreMirrorPreimage (value : val) : result bytes :=
  fail_if (negb (is_object value)) ;;!
  fail_if (not_in_range (get value "leaseClass") 1 4) ;;!
  let! length := encodeU64 (get value "length") in
  fail_if (isAllZero length) ;;!
  requestPreimage REQUEST_COMMITMENT_DOMAIN_ID_CORE_MIRROR [
    nonzeroFixedBytesInput (get value "relayPublicKey") 32;
    nonzeroFixedBytesInput (get value "corePublicKey") 32;
    encodeU64 (get value "fork");
    Ok length;
    nonzeroFixedBytesInput (get value "signedHeadHash") 32;
    encodeU8 (get value "leaseClass");
    fixedBytesInput (get value "clientNonce") 32].

(** The encode-only element codec of [coreCommitmentBlockIndices]. *)
Definition coreCommitmentBlockIndex : encoding := {|
  preencode s value _ :=
    let! bs := encodeU64 value in
    Ok (grow s (blen bs));
  encode s value _ :=
    let! bs := encodeU64 value in
    Ok (adv (with_buffer s (splice (st_buffer s) (st_start s) bs)) (blen bs));
  decode _ _ := Err GenericError
|}.

Definition coreCommitmentBlockIndices : encoding := arrayOf coreCommitmentBlockIndex 1 16.

(** [for (const byte of encoded) current = (current << 8n) | BigInt(byte)] *)
Definition bigint_of_bytes (encoded : bytes) : Z :=
  fold_left (fun current b => Z.lor (Z.shiftl current 8) (b2z b)) encoded 0.

Fixpoint check_block_indices (length : bytes) (previous : Z) (indices : list val) : result unit :=
  match indices with
  | [] => Ok tt
  | index :: rest =>
      let! encoded := encodeU64 index in
      let current := bigint_of_bytes encoded in
      fail_if (current <=? previous) ;;!
      let requestedLength := bigint_of_bytes length in
      fail_if (requestedLength <=? current) ;;!
      check_block_indices length current rest
  end.

Definition coreServePreimage (value : val) : result bytes :=
  fail_if (negb (is_object value)) ;;!
  let! length := encodeU64 (get value "length") in
  fail_if (isAllZero length) ;;!
  let! blockIndices := match get value "blockIndices" with
                       | VList l => Ok l | _ => Err BAD_ENCODING end in
  check_block_indices length (-1) blockIndices ;;!
  requestPreimage REQUEST_COMMITMENT_DOMAIN_ID_CORE_SERVE [
    nonzeroFixedBytesInput (get value "relayPublicKey") 32;
    nonzeroFixedBytesInput (get value "corePublicKey") 32;
    encodeU64 (get value "fork");
    Ok length;
    nonzeroFixedBytesInput (get value "signedHeadHash") 32;
    encodeCanonical coreCommitmentBlockIndices (get value "blockIndices");
    fixedBytesInput (get value "clientNonce") 32].

Definition forwardOpenPreimage (value : val) : result bytes :=
  fail_if (negb (is_object value)) ;;!
  fail_if (not_in_range (get value "requestedWireClass") 1 3) ;;!
  fail_if (not_in_range (get value "circuitClass") 1 3) ;;!
  let! innerHandshake := fixedBytesInput (get value "innerHandshake") 32 in
  requestPreimage REQUEST_COMMITMENT_DOMAIN_ID_FORWARD_OPEN [
    nonzeroFixedBytesInput (get value "previousRelayKey") 32;
    nonzeroFixedBytesInput (get value "routeId") 16;
    encodeU64 (get value "nextDescriptorSequence");
    nonzeroFixedBytesInput (get value "nextDescriptorHash") 32;
    encodeU8 (get value "requestedWireClass");
    encodeU8 (get value "circuitClass");
    nonzeroFixedBytesInput (get value "circuitNonce") 32;
    fixedBytesInput (get value "parentRouteScopeHash") 32;
    Ok (blake2b256 innerHandshake)].

(** *** Cells *)

Definition cellStorageSlotPreimage (value : val) : result bytes :=
  dereferences value ;;!
  concat [
    Ok (ascii_bytes "hiverelay.blind.slot.v1");
    encodeU32 (get value "allocationEpoch");
    fixedBytesInput (get value "createPublicKey") 32].

Definition cellStorageSlot (value : val) : result bytes :=
  let! preimage := cellStorageSlotPreimage value in
  Ok (blake2b256 preimage).

Definition allocationCommitmentPreimage (value : val) : result bytes :=
  fail_if (negb (is_object value)) ;;!
  fail_if (not_in_range (get value "sizeClass") 1 5) ;;!
  fail_if (not_in_range (get value "leaseClass") 1 4) ;;!
  let! slot := cellStorageSlot value in
  let! storageSlot := fixedBytesInput (get value "storageSlot") 32 in
  fail_if (negb (bytes_eqb slot storageSlot)) ;;!
  concat [
    Ok (ascii_bytes "hiverelay.blind.allocate.v1");
    fixedBytesInput (get value "relayPublicKey") 32;
    fixedBytesInput (get value "storageSlot") 32;
    encodeU32 (get value "allocationEpoch");
    encodeU8 (get value "sizeClass");
    encodeU8 (get value "leaseClass");
    fixedBytesInput (get value "declaredCellBlobHash") 32;
    fixedBytesInput (get value "createPublicKey") 32;
    fixedBytesInput (get value "renewPublicKey") 32;
    fixedBytesInput (get value "dropPublicKey") 32].

Definition cellPutPreimage (value : val) : result bytes :=
  dereferences value ;;!
  requestPreimage REQUEST_COMMITMENT_DOMAIN_ID_CELL_PUT [
    fixedBytesInput (get value "allocationCommitment") 32;
    fixedBytesInput (get value "clientNonce") 32].

(** [value.operation === name] *)
Definition operation_is (value : val) (name : string) : bool :=
  strict_eqb (get value "operation") (VStr name).

Definition cellManagePreimage (value : val) : result bytes :=
  dereferences value ;;!
  fail_if (negb (operation_is value "cell-renew") && negb (operation_is value "cell-drop")) ;;!
  fail_if (not_in_range (get value "requestedLeaseClass") 0 4
           || (operation_is value "cell-renew" && is_num (get value "requestedLeaseClass") 0)
           || (operation_is value "cell-drop" && negb (is_num (get value "requestedLeaseClass") 0))) ;;!
  let domainId := if operation_is value "cell-renew"
                  then REQUEST_COMMITMENT_DOMAIN_ID_CELL_RENEW
                  else REQUEST_COMMITMENT_DOMAIN_ID_CELL_DROP in
  requestPreimage domainId [
    fixedBytesInput (get value "relayPublicKey") 32;
    fixedBytesInput (get value "storageSlot") 32;
    encodeU64 (get value "expectedRevision");
    encodeU32 (get value "expectedLeaseEpoch");
    encodeU8 (get value "requestedLeaseClass");
    fixedBytesInput (get value "clientNonce") 32].

Definition cellReadPreimage (operation : Z) (value : val) : result bytes :=
  dereferences value ;;!
  requestPreimage operation [
    fixedBytesInput (get value "relayPublicKey") 32;
    fixedBytesInput (get value "storageSlot") 32;
    fixedBytesInput (get value "clientNonce") 32].

Definition cellGetPreimage : val -> result bytes :=
  cellReadPreimage REQUEST_COMMITMENT_DOMAIN_ID_CELL_GET.
Definition cellProvePreimage : val -> result bytes :=
  cellReadPreimage REQUEST_COMMITMENT_DOMAIN_ID_CELL_PROVE.

Definition commitmentSlots : encoding := arrayOf (fixedBytes 32) 1 64.

(** The loop over [slots] with its [seen] set. *)
Fixpoint check_distinct_slots (seen : list bytes) (slots : list val) : result unit :=
  match slots with
  | [] => Ok tt
  | slot :: rest =>
      let! bs := fixedBytesInput slot 32 in
      fail_if (existsb (bytes_eqb bs) seen) ;;!
      check_distinct_slots (bs :: seen) rest
  end.

Definition cellBatchGetPreimage (value : val) : result bytes :=
  let! slots := match get value "slots" with VList l => Ok l | _ => Err BAD_ENCODING end in
  check_distinct_slots [] slots ;;!
  requestPreimage REQUEST_COMMITMENT_DOMAIN_ID_CELL_BATCH_GET [
    fixedBytesInput (get value "relayPublicKey") 32;
    fixedBytesInput (get value "clientNonce") 32;
    encodeCanonical commitmentSlots (VList slots)].

(** *** Inboxes *)

Definition inboxPhysicalTopicPreimage (value : val) : result bytes :=
  dereferences value ;;!
  concat [
    Ok (ascii_bytes "hiverelay.blind.inbox-topic.v1");
    encodeU32 (get value "allocationEpoch");
    fixedBytesInput (get value "createPublicKey") 32].

Definition inboxPhysicalTopic (value : val) : result bytes :=
  let! preimage := inboxPhysicalTopicPreimage value in
  Ok (blake2b256 preimage).

Definition inboxCreateCommitmentPreimage (value : val) : result bytes :=
  dereferences value ;;!
  fail_if (match get value "frameClassBits" with
           | VNum n => negb (isSafeInteger n) || (n =? 0) || negb (js_and n (js_not 0x07) =? 0)
           | _ => true end) ;;!
  fail_if (not_in_range (get value "appendAuthMode") 0 1) ;;!
  fail_if (not_in_range (get value "retentionClass") 1 4) ;;!
  fail_if (not_in_range (get value "leaseClass") 1 4) ;;!
  let! topic := inboxPhysicalTopic value in
  let! physicalTopic := fixedBytesInput (get value "physicalTopic") 32 in
  fail_if (negb (bytes_eqb topic physicalTopic)) ;;!
  let! appendPublicKey := if nullish (get value "appendPublicKey")
                          then Ok (replicate 32 Byte.x00)
                          else fixedBytesInput (get value "appendPublicKey") 32 in
  fail_if (xorb (is_num (get value "appendAuthMode") 1)
                (negb (nullish (get value "appendPublicKey")))) ;;!
  concat [
    Ok (ascii_bytes "hiverelay.blind.inbox-create.v1");
    fixedBytesInput (get value "relayPublicKey") 32;
    fixedBytesInput (get value "physicalTopic") 32;
    encodeU32 (get value "allocationEpoch");
    encodeU8 (get value "frameClassBits");
    encodeU8 (get value "appendAuthMode");
    Ok appendPublicKey;
    fixedBytesInput (get value "createPublicKey") 32;
    fixedBytesInput (get value "renewPublicKey") 32;
    fixedBytesInput (get value "closePublicKey") 32;
    encodeU8 (get value "retentionClass");
    encodeU8 (get value "leaseClass")].

Definition inboxCreatePreimage (value : val) : result bytes :=
  dereferences value ;;!
  requestPreimage REQUEST_COMMITMENT_DOMAIN_ID_INBOX_CREATE [
    fixedBytesInput (get value "inboxCreateCommitment") 32;
    fixedBytesInput (get value "clientNonce") 32].

Definition inboxManagePreimage (value : val) : result bytes :=
  dereferences value ;;!
  fail_if (negb (operation_is value "inbox-renew") && negb (operation_is value "inbox-close")) ;;!
  fail_if (not_in_range (get value "requestedLeaseClass") 0 4
           || (operation_is value "inbox-renew" && is_num (get value "requestedLeaseClass") 0)
           || (operation_is value "inbox-close" && negb (is_num (get value "requestedLeaseClass") 0))) ;;!
  let domainId := if operation_is value "inbox-renew"
                  then REQUEST_COMMITMENT_DOMAIN_ID_INBOX_RENEW
                  else REQUEST_COMMITMENT_DOMAIN_ID_INBOX_CLOSE in
  requestPreimage domainId [
    fixedBytesInput (get value "relayPublicKey") 32;
    fixedBytesInput (get value "physicalTopic") 32;
    encodeU64 (get value "expectedRevision");
    encodeU32 (get value "expectedLeaseEpoch");
    encodeU8 (get value "requestedLeaseClass");
    fixedBytesInput (get value "clientNonce") 32].

Definition inboxAppendPreimage (value : val) : result bytes :=
  dereferences value ;;!
  fail_if (not_in_range (get value "frameClass") 1 3) ;;!
  requestPreimage REQUEST_COMMITMENT_DOMAIN_ID_INBOX_APPEND [
    fixedBytesInput (get value "relayPublicKey") 32;
    fixedBytesInput (get value "physicalTopic") 32;
    encodeU8 (get value "frameClass");
    fixedBytesInput (get value "frameHash") 32;
    fixedBytesInput (get value "clientNonce") 32].

Definition inboxReadPreimage (value : val) : result bytes :=
  dereferences value ;;!
  let! cursor := asBuffer (get value "cursor") in
  fail_if (128 <? blen cursor) ;;!
  fail_if (not_in_range (get value "limit") 1 64) ;;!
  requestPreimage REQUEST_COMMITMENT_DOMAIN_ID_INBOX_READ [
    fixedBytesInput (get value "relayPublicKey") 32;
    fixedBytesInput (get value "physicalTopic") 32;
    Ok (blake2b256 cursor);
    encodeU16 (get value "limit");
    fixedBytesInput (get value "clientNonce") 32].

Definition inboxWatchPreimage (value : val) : result bytes :=
  dereferences value ;;!
  fail_if (not_in_range (get value "limit") 1 64) ;;!
  fail_if (not_in_range (get value "maxWaitMillis") 1 30000) ;;!
  requestPreimage REQUEST_COMMITMENT_DOMAIN_ID_INBOX_WATCH [
    fixedBytesInput (get value "relayPublicKey") 32;
    fixedBytesInput (get value "physicalTopic") 32;
    encodeU64 (get value "afterRevision");
    encodeU16 (get value "limit");
    encodeU16 (get value "maxWaitMillis");
    fixedBytesInput (get value "clientNonce") 32].

(** Every [...RequestCommitment] is the hash of its preimage. *)
Definition commitment (preimage : result bytes) : result bytes :=
  let! preimage := preimage in
  Ok (blake2b256 preimage).

Definition allocationCommitment (value : val) : result bytes := commitment (allocationCommitmentPreimage value).
Definition inboxCreateCommitment (value : val) : result bytes := commitment (inboxCreateCommitmentPreimage value).

(** *** Signature payloads *)

Definition signaturePayloadForPurpose (domainId canonicalUnsignedBytes : val) (purpose : Z)
    : result bytes :=
  match domainRegistryEntry domainId with
  | Some entry =>
      fail_if (negb (de_purpose entry =? purpose)
               || negb (de_recipeId entry =? DOMAIN_RECIPE_ED25519_DOMAIN_LEN64_PAYLOAD)) ;;!
      let! payload := asBuffer canonicalUnsignedBytes in
      concat [Ok (ascii_bytes (de_exactAsciiBytes entry)); encodeU64 (VNum (blen payload)); Ok payload]
  | None => Err BAD_ENCODING
  end.

Definition resultSignaturePayload (domainId canonicalUnsignedBytes : val) : result bytes :=
  signaturePayloadForPurpose domainId canonicalUnsignedBytes DOMAIN_PURPOSE_RESULT_SIGNATURE.

Definition auxiliarySignaturePayload (domainId canonicalUnsignedBytes : val) : result bytes :=
  signaturePayloadForPurpose domainId canonicalUnsignedBytes DOMAIN_PURPOSE_AUXILIARY_SIGNATURE.

End WithPlatform.
End Hash.
