(* ===== verification/HashLaws.v ===== *)
(** * What the commitments bind

    A commitment hashes a registered domain string and the encodings of the
    committed fields, with no separators. The laws here show that the preimage
    nevertheless determines both: no domain string is a prefix of another, and
    the field encodings are self-delimiting. Nothing is assumed of the hash. *)

From Stdlib Require Import ZArith Lia Bool List String Ascii.
From Stdlib Require Import Strings.Byte.
From stdpp Require Import base tactics list strings.
From S2P Require Import Prelude Codec CodecLaws DemoPlatform Authority Hashes.
Import Hash.

(** ** Domains *)

(** [a] is a prefix of [b]. *)
Definition is_prefix (a b : bytes) : bool :=
  match strip_prefix a b with Some _ => true | None => false end.

Lemma strip_prefix_app a b : strip_prefix a (a ++ b) = Some b.
Proof.
  induction a as [|x a IH]; simpl; [done|]. by rewrite (Byte.byte_dec_lb (x:=x) eq_refl).
Qed.

Lemma strip_prefix_some a b r : strip_prefix a b = Some r -> b = a ++ r.
Proof.
  revert b; induction a as [|x a IH]; intros [|y b] Hq; simpl in *; try discriminate; try congruence.
  destruct (Byte.eqb x y) eqn:E; [|done]. apply Byte.byte_dec_bl in E as ->. f_equal. auto.
Qed.

(** Two byte strings that start with [a] and [b]: one of them is a prefix of the
    other. *)
Lemma prefix_total a b r s : a ++ r = b ++ s -> is_prefix a b || is_prefix b a = true.
Proof.
  intros H. apply app_eq_inv in H as [(k & -> & _)|(k & -> & _)]; unfold is_prefix;
    rewrite strip_prefix_app, ?orb_true_r; done.
Qed.

Definition domain_bytes (id : Z) : bytes :=
  match domainRegistryEntry (VNum id) with
  | Some entry => ascii_bytes (de_exactAsciiBytes entry)
  | None => []
  end.

(** No two rows of the domain registry are comparable. *)
Definition prefix_free (rows : list domain_entry) : bool :=
  forallb (fun a => forallb (fun b =>
    (de_domainId a =? de_domainId b)
    || negb (is_prefix (ascii_bytes (de_exactAsciiBytes a)) (ascii_bytes (de_exactAsciiBytes b))))
    rows) rows.

Lemma domains_prefix_free : prefix_free DOMAIN_REGISTRY = true.
Proof. vm_compute. reflexivity. Qed.

Lemma domain_separation a b r s :
  In a DOMAIN_REGISTRY -> In b DOMAIN_REGISTRY ->
  ascii_bytes (de_exactAsciiBytes a) ++ r = ascii_bytes (de_exactAsciiBytes b) ++ s ->
  de_domainId a = de_domainId b.
Proof.
  intros Ha Hb Heq. pose proof domains_prefix_free as Hf. unfold prefix_free in Hf.
  rewrite forallb_forall in Hf. pose proof (Hf a Ha) as Hfa. pose proof (Hf b Hb) as Hfb.
  rewrite forallb_forall in Hfa, Hfb. specialize (Hfa b Hb). specialize (Hfb a Ha).
  apply prefix_total in Heq. apply orb_true_iff in Hfa as [E|Hfa]; [by apply Z.eqb_eq|].
  apply orb_true_iff in Hfb as [E|Hfb]; [by apply Z.eqb_eq in E|].
  apply negb_true_iff in Hfa, Hfb. rewrite Hfa, Hfb in Heq. done.
Qed.

(** ** Field encodings *)

Lemma encodeU64_ok v bs : encodeU64 v = Ok bs -> exists n, Codec.asU64 v = Ok n /\ bs = be_bytes 8 n.
Proof.
  unfold encodeU64. intros Hq. apply bindR_ok in Hq as (n & Hn & Hq). exists n. split; [done|].
  injection Hq as <-. change (writeU64 (replicate 8 Byte.x00) n 0 false = be_bytes 8 n).
  rewrite writeU64_be_spec by len. by rewrite splice_all by len.
Qed.

Lemma encodeUnsigned_ok v k m bs : encodeUnsigned v (Z.of_nat k) m = Ok bs ->
  m < 256 ^ Z.of_nat k -> m <= MAX_SAFE_INTEGER ->
  exists n, v = VNum n /\ 0 <= n < 256 ^ Z.of_nat k /\ bs = be_bytes k n.
Proof.
  unfold encodeUnsigned. intros Hq Hm Hs. apply bindR_ok in Hq as (n & Hn & Hq).
  apply assertUnsigned_ok in Hn as (-> & Hn); [|done]. exists n. split; [done|]. split; [lia|].
  injection Hq as <-. rewrite Nat2Z.id.
  assert (blen (replicate k Byte.x00) = Z.of_nat k) as Hb by (unfold blen; by rewrite length_replicate).
  rewrite write_be_loop_spec by lia. by rewrite splice_all by (rewrite Hb, blen_be_bytes; done).
Qed.

Lemma fixedBytesInput_ok v n bs : fixedBytesInput v n = Ok bs -> Hash.asBuffer v = Ok bs /\ blen bs = n.
Proof.
  unfold fixedBytesInput. intros Hq. apply bindR_ok in Hq as (b & Hb & Hq).
  apply bindR_ok in Hq as (? & Hl & Hq). injection Hq as ->. apply fail_if_ok, negb_false_iff in Hl. b2p. done.
Qed.

(** The kinds of committed fields. *)
Inductive kind := KBytes (n : Z) | KU8 | KU16 | KU32 | KU64 | KHash | KOptKey | KSlots | KIndices.

Section WithPlatform.
Context `{Platform}.

(** An absent key counts as 32 zero bytes. *)
Definition optional_key (v : val) : result bytes :=
  if nullish v then Ok (replicate 32 Byte.x00) else fixedBytesInput v 32.

(** How a kind encodes a value. *)
Definition enc_kind (k : kind) (v : val) : result bytes :=
  match k with
  | KBytes n => fixedBytesInput v n
  | KU8 => encodeU8 v
  | KU16 => encodeU16 v
  | KU32 => encodeU32 v
  | KU64 => encodeU64 v
  | KHash => let! bs := Hash.asBuffer v in Ok (blake2b256 bs)
  | KOptKey => optional_key v
  | KSlots => encodeCanonical commitmentSlots v
  | KIndices => encodeCanonical coreCommitmentBlockIndices v
  end.

(** Two values commit to the same thing: the same bytes, the same number, byte
    strings with the same hash, the same lists. *)
Definition same (k : kind) (v w : val) : Prop :=
  match k with
  | KBytes n => exists bs, blen bs = n /\ Hash.asBuffer v = Ok bs /\ Hash.asBuffer w = Ok bs
  | KU8 | KU16 | KU32 => exists n, v = VNum n /\ w = VNum n
  | KU64 => exists n, Codec.asU64 v = Ok n /\ Codec.asU64 w = Ok n
  | KHash => exists a b, Hash.asBuffer v = Ok a /\ Hash.asBuffer w = Ok b /\ generichash a = generichash b
  | KOptKey => exists key, optional_key v = Ok key /\ optional_key w = Ok key
  | KSlots => exists slots, v = VList slots /\ w = VList slots
  | KIndices => exists vs ws ns, v = VList vs /\ w = VList ws /\
      Forall2 (fun x n => Codec.asU64 x = Ok n) vs ns /\ Forall2 (fun x n => Codec.asU64 x = Ok n) ws ns
  end.

(** *** Lists of block indices *)

Lemma index_emits v p n : Codec.asU64 v = Ok n -> emits coreCommitmentBlockIndex v p (be_bytes 8 n).
Proof.
  intros Hn. assert (He : encodeU64 v = Ok (be_bytes 8 n)).
  { unfold encodeU64. rewrite Hn. cbn [bindR]. f_equal.
    change (writeU64 (replicate 8 Byte.x00) n 0 false = be_bytes 8 n).
    rewrite writeU64_be_spec by len. by rewrite splice_all by len. }
  split; intros s; cbn [preencode encode coreCommitmentBlockIndex]; rewrite He; done.
Qed.

Lemma index_all vs s s' :
  fold_values (fun s v => preencode coreCommitmentBlockIndex s v VUndef) s vs = Ok s' ->
  exists ns, Forall2 (fun x n => Codec.asU64 x = Ok n) vs ns /\
    emits_all coreCommitmentBlockIndex vs (List.concat (map (be_bytes 8) ns)).
Proof.
  revert s; induction vs as [|v vs IH]; intros s Hq; simpl in Hq.
  - exists []. split; constructor.
  - apply bindR_ok in Hq as (s1 & Hv & Hq). cbn [preencode coreCommitmentBlockIndex] in Hv.
    apply bindR_ok in Hv as (b & Hb & _). apply encodeU64_ok in Hb as (n & Hn & _).
    apply IH in Hq as (ns & Hns & He). exists (n :: ns). split; [by constructor|].
    cbn [map List.concat]. constructor; [by apply index_emits | done].
Qed.

Lemma indices_inv v bs : encodeCanonical coreCommitmentBlockIndices v = Ok bs ->
  exists vs ns, v = VList vs /\ Forall2 (fun x n => Codec.asU64 x = Ok n) vs ns /\
    safe_uint (Z.of_nat (List.length ns)) /\
    bs = cuint_bytes (Z.of_nat (List.length ns)) ++ List.concat (map (be_bytes 8) ns).
Proof.
  intros Hq. pose proof Hq as Hq'. unfold encodeCanonical in Hq. apply bindR_ok in Hq as (s1 & Hp & _).
  cbn [preencode coreCommitmentBlockIndices arrayOf] in Hp. apply bindR_ok in Hp as (vs & Hv & Hp).
  apply bindR_ok in Hp as (s2 & _ & Hp). apply index_all in Hp as (ns & Hns & He).
  assert (v = VList vs /\ 1 <= Z.of_nat (List.length vs) <= 16) as [-> Hl].
  { destruct v; try discriminate. unfold array_of_value in Hv. case_match; oks. b2p. split; [done|lia]. }
  pose proof (Forall2_length _ _ _ Hns) as Hlen.
  exists vs, ns. rewrite <- Hlen. split_and!; try done; [unfold safe_uint, MAX_SAFE_INTEGER; lia|].
  assert (Hem : emits coreCommitmentBlockIndices (VList vs) VUndef
    (cuint_bytes (Z.of_nat (List.length vs)) ++ List.concat (map (be_bytes 8) ns)))
    by (apply array_emits; [lia | unfold MAX_SAFE_INTEGER; lia | done]).
  apply emits_encodeCanonical in Hem. rewrite Hem in Hq'. by injection Hq'.
Qed.

Lemma blen_concat_be8 ns : blen (List.concat (map (be_bytes 8) ns)) = 8 * Z.of_nat (List.length ns).
Proof. induction ns as [|n ns IH]; [done|]. cbn [map List.concat]. rewrite blen_app, IH. simpl List.length. len. Qed.

(** A canonical length prefix is self-delimiting. *)
Lemma cuint_delimits m n r s : safe_uint m -> safe_uint n ->
  cuint_bytes m ++ r = cuint_bytes n ++ s -> m = n /\ r = s.
Proof.
  intros Hm Hn Heq.
  set (buf := cuint_bytes m ++ r). set (st := St 0 (blen buf) buf).
  assert (Hwf : wf st) by (unfold wf, st; simpl; pose proof (blen_nonneg buf); lia).
  assert (Hcur : forall k t, buf = cuint_bytes k ++ t -> at_cursor st (cuint_bytes k)).
  { intros k t ->. split; simpl; [len; pose proof (blen_nonneg t); lia|].
    by apply (slice_part _ [] _ t). }
  pose proof (cuint_reads m Hm st Hwf (Hcur m r eq_refl)) as H1.
  pose proof (cuint_reads n Hn st Hwf (Hcur n s Heq)) as H2.
  rewrite H1 in H2. injection H2 as -> _. split; [done|]. by apply app_inv_head in Heq.
Qed.

Lemma concat_be8_inj ns ms :
  Forall (fun n => 0 <= n <= MAX_U64) ns -> Forall (fun n => 0 <= n <= MAX_U64) ms ->
  List.length ns = List.length ms ->
  List.concat (map (be_bytes 8) ns) = List.concat (map (be_bytes 8) ms) -> ns = ms.
Proof.
  intros Hn. revert ms. induction Hn as [|n ns Hb _ IH]; intros [|m ms] Hm Hl Heq; try discriminate; [done|].
  inversion Hm as [|? ? Hmb Hms]; subst. cbn [map List.concat] in Heq.
  apply app_inj_1 in Heq as [H1 H2]; [|by rewrite !length_be_bytes].
  f_equal; [|apply IH; auto]. unfold MAX_U64 in *.
  rewrite <- (be_val_be_bytes 8 n), <- (be_val_be_bytes 8 m) by (simpl; lia). by rewrite H1.
Qed.

Lemma asU64_range v n : Codec.asU64 v = Ok n -> 0 <= n <= MAX_U64.
Proof. intros Hq. by apply asU64_ok in Hq as [? _]. Qed.

(** *** Every kind is self-delimiting and determines its value *)

Lemma be_bytes_inj k a b : 0 <= a < 256 ^ Z.of_nat k -> 0 <= b < 256 ^ Z.of_nat k ->
  be_bytes k a = be_bytes k b -> a = b.
Proof. intros Ha Hb Heq. rewrite <- (be_val_be_bytes k a), <- (be_val_be_bytes k b) by done. by rewrite Heq. Qed.

Lemma uint_delimits k m v w a b r s : m < 256 ^ Z.of_nat k -> m <= MAX_SAFE_INTEGER ->
  encodeUnsigned v (Z.of_nat k) m = Ok a -> encodeUnsigned w (Z.of_nat k) m = Ok b ->
  a ++ r = b ++ s -> r = s /\ exists n, v = VNum n /\ w = VNum n.
Proof.
  intros Hm Hs Hv Hw Heq. apply encodeUnsigned_ok in Hv as (x & -> & Hx & ->); [|done..].
  apply encodeUnsigned_ok in Hw as (y & -> & Hy & ->); [|done..].
  apply app_inj_1 in Heq as [Hxy ->]; [|by rewrite !length_be_bytes].
  apply be_bytes_inj in Hxy as ->; eauto.
Qed.

Lemma slots_type v bs : emits commitmentSlots v VUndef bs ->
  exists vs, v = VList vs /\ has_type (TArr TBytes) v = true.
Proof.
  intros [Hp _]. specialize (Hp (St 0 0 [])). cbv beta in Hp.
  apply (array_inv (fixedBytes 32) TBytes) in Hp as (vs & b & -> & _ & He). exists vs. split; [done|].
  simpl. clear bs. induction He as [|v vs a b Hv _ IH]; [done|].
  destruct Hv as [Hv _]. specialize (Hv (St 0 0 [])). apply fixedBytes_inv in Hv as (x & -> & _). done.
Qed.

Hypothesis hash_length : forall bs, blen (generichash bs) = 32.

Lemma kind_delimits k v w a b r s :
  enc_kind k v = Ok a -> enc_kind k w = Ok b -> a ++ r = b ++ s -> r = s /\ same k v w.
Proof.
  intros Hv Hw Heq. destruct k as [n| | | | | | | |]; simpl in *.
  - apply fixedBytesInput_ok in Hv as [Hv Hl], Hw as [Hw Hl'].
    apply app_inj_1 in Heq as [-> ->]; [eauto | unfold blen in *; lia].
  - by apply (uint_delimits 1 0xff v w a b r s).
  - by apply (uint_delimits 2 0xffff v w a b r s).
  - by apply (uint_delimits 4 0xffffffff v w a b r s).
  - apply encodeU64_ok in Hv as (x & Hx & ->), Hw as (y & Hy & ->).
    apply app_inj_1 in Heq as [Hxy ->]; [|by rewrite !length_be_bytes].
    pose proof (asU64_range _ _ Hx). pose proof (asU64_range _ _ Hy). unfold MAX_U64 in *.
    apply be_bytes_inj in Hxy as ->; [eauto | simpl; lia..].
  - apply bindR_ok in Hv as (x & Hx & [= <-]), Hw as (y & Hy & [= <-]). unfold blake2b256 in Heq.
    apply app_inj_1 in Heq as [Hxy ->]; [split; [done|]; by exists x, y|].
    pose proof (hash_length x). pose proof (hash_length y). unfold blen in *. lia.
  - assert (Hlen : forall x k, optional_key x = Ok k -> blen k = 32).
    { intros x k. unfold optional_key. destruct (nullish x); [by intros [= <-]|].
      intros Hx. by apply fixedBytesInput_ok in Hx as [_ ?]. }
    pose proof (Hlen _ _ Hv). pose proof (Hlen _ _ Hw).
    apply app_inj_1 in Heq as [-> ->]; [eauto | unfold blen in *; lia].
  - apply (encodeCanonical_emits commitmentSlots (TArr TBytes)) in Hv, Hw.
    pose proof (slots_type _ _ Hv) as (x & -> & Hx). pose proof (slots_type _ _ Hw) as (y & -> & Hy).
    destruct (emits_delimits commitmentSlots (TArr TBytes) _ _ _ _ _ _ Hx Hy Hv Hw Heq) as ([= ->] & _ & ->).
    eauto.
  - apply indices_inv in Hv as (vs & ns & -> & Hns & Hsn & ->), Hw as (ws & ms & -> & Hms & Hsm & ->).
    rewrite <- !app_assoc in Heq. apply cuint_delimits in Heq as [Hlen Heq]; [|done..].
    apply app_inj_1 in Heq as [Hc ->].
    + split; [done|]. exists vs, ws, ns. split_and!; try done.
      assert (Hr : forall us ks, Forall2 (fun x n => Codec.asU64 x = Ok n) us ks -> Forall (fun n => 0 <= n <= MAX_U64) ks)
        by (induction 1; constructor; eauto using asU64_range).
      rewrite (concat_be8_inj ns ms); eauto. lia.
    + pose proof (blen_concat_be8 ns). pose proof (blen_concat_be8 ms). unfold blen in *. lia.
Qed.

Lemma kinds_delimit (fields : list (string * kind)) v w a b r s :
  Hash.concat (map (fun f => enc_kind (snd f) (get v (fst f))) fields) = Ok a ->
  Hash.concat (map (fun f => enc_kind (snd f) (get w (fst f))) fields) = Ok b ->
  a ++ r = b ++ s ->
  r = s /\ Forall (fun f => same (snd f) (get v (fst f)) (get w (fst f))) fields.
Proof.
  revert a b; induction fields as [|f fields IH]; intros a b Hv Hw Heq; cbn [map Hash.concat] in *.
  - injection Hv as <-. injection Hw as <-. split; [done|constructor].
  - apply bindR_ok in Hv as (a1 & Ha1 & Hv), Hw as (b1 & Hb1 & Hw).
    apply bindR_ok in Hv as (a2 & Ha2 & [= <-]), Hw as (b2 & Hb2 & [= <-]).
    rewrite <- !app_assoc in Heq. destruct (kind_delimits _ _ _ _ _ _ _ Ha1 Hb1 Heq) as [Hr Hs].
    destruct (IH _ _ Ha2 Hb2 Hr). split; [done|by constructor].
Qed.

(** ** The commitments *)

(** A commitment of the protocol: the function of Hashes.v that computes its
    preimage, the prefixes it can start with and the fields that follow. *)
Record row := Row {
  r_preimage : val -> result bytes;
  r_prefix : val -> bytes;
  r_prefixes : list bytes;
  r_fields : list (string * kind);
}.

Definition request (preimage : val -> result bytes) (domain : Z) (fields : list (string * kind)) : row :=
  Row preimage (fun _ => domain_bytes domain) [domain_bytes domain] fields.

(** Renewal and the other management operation share a function. *)
Definition managed (preimage : val -> result bytes) (renew : string) (d1 d2 : Z) (fields : list (string * kind)) : row :=
  Row preimage (fun v => domain_bytes (if operation_is v renew then d1 else d2))
    [domain_bytes d1; domain_bytes d2] fields.

Definition tagged (preimage : val -> result bytes) (tag : string) (fields : list (string * kind)) : row :=
  Row preimage (fun _ => ascii_bytes tag) [ascii_bytes tag] fields.

Definition COMMITMENTS : list row := [
  request cellPutPreimage REQUEST_COMMITMENT_DOMAIN_ID_CELL_PUT
    [("allocationCommitment", KBytes 32); ("clientNonce", KBytes 32)];
  request cellGetPreimage REQUEST_COMMITMENT_DOMAIN_ID_CELL_GET
    [("relayPublicKey", KBytes 32); ("storageSlot", KBytes 32); ("clientNonce", KBytes 32)];
  request cellProvePreimage REQUEST_COMMITMENT_DOMAIN_ID_CELL_PROVE
    [("relayPublicKey", KBytes 32); ("storageSlot", KBytes 32); ("clientNonce", KBytes 32)];
  managed cellManagePreimage "cell-renew" REQUEST_COMMITMENT_DOMAIN_ID_CELL_RENEW
    REQUEST_COMMITMENT_DOMAIN_ID_CELL_DROP
    [("relayPublicKey", KBytes 32); ("storageSlot", KBytes 32); ("expectedRevision", KU64);
     ("expectedLeaseEpoch", KU32); ("requestedLeaseClass", KU8); ("clientNonce", KBytes 32)];
  request cellBatchGetPreimage REQUEST_COMMITMENT_DOMAIN_ID_CELL_BATCH_GET
    [("relayPublicKey", KBytes 32); ("clientNonce", KBytes 32); ("slots", KSlots)];
  request inboxCreatePreimage REQUEST_COMMITMENT_DOMAIN_ID_INBOX_CREATE
    [("inboxCreateCommitment", KBytes 32); ("clientNonce", KBytes 32)];
  managed inboxManagePreimage "inbox-renew" REQUEST_COMMITMENT_DOMAIN_ID_INBOX_RENEW
    REQUEST_COMMITMENT_DOMAIN_ID_INBOX_CLOSE
    [("relayPublicKey", KBytes 32); ("physicalTopic", KBytes 32); ("expectedRevision", KU64);
     ("expectedLeaseEpoch", KU32); ("requestedLeaseClass", KU8); ("clientNonce", KBytes 32)];
  request inboxAppendPreimage REQUEST_COMMITMENT_DOMAIN_ID_INBOX_APPEND
    [("relayPublicKey", KBytes 32); ("physicalTopic", KBytes 32); ("frameClass", KU8);
     ("frameHash", KBytes 32); ("clientNonce", KBytes 32)];
  request inboxReadPreimage REQUEST_COMMITMENT_DOMAIN_ID_INBOX_READ
    [("relayPublicKey", KBytes 32); ("physicalTopic", KBytes 32); ("cursor", KHash); ("limit", KU16);
     ("clientNonce", KBytes 32)];
  request inboxWatchPreimage REQUEST_COMMITMENT_DOMAIN_ID_INBOX_WATCH
    [("relayPublicKey", KBytes 32); ("physicalTopic", KBytes 32); ("afterRevision", KU64); ("limit", KU16);
     ("maxWaitMillis", KU16); ("clientNonce", KBytes 32)];
  request coreMirrorPreimage REQUEST_COMMITMENT_DOMAIN_ID_CORE_MIRROR
    [("relayPublicKey", KBytes 32); ("corePublicKey", KBytes 32); ("fork", KU64); ("length", KU64);
     ("signedHeadHash", KBytes 32); ("leaseClass", KU8); ("clientNonce", KBytes 32)];
  request coreServePreimage REQUEST_COMMITMENT_DOMAIN_ID_CORE_SERVE
    [("relayPublicKey", KBytes 32); ("corePublicKey", KBytes 32); ("fork", KU64); ("length", KU64);
     ("signedHeadHash", KBytes 32); ("blockIndices", KIndices); ("clientNonce", KBytes 32)];
  request coreOpenReplicationPreimage REQUEST_COMMITMENT_DOMAIN_ID_CORE_OPEN_REPLICATION
    [("relayPublicKey", KBytes 32); ("wireProfileHash", KBytes 32); ("sessionClass", KU8);
     ("controlChannelId", KU64); ("parentChannelBinding", KBytes 32); ("clientNonce", KBytes 32)];
  request forwardOpenPreimage REQUEST_COMMITMENT_DOMAIN_ID_FORWARD_OPEN
    [("previousRelayKey", KBytes 32); ("routeId", KBytes 16); ("nextDescriptorSequence", KU64);
     ("nextDescriptorHash", KBytes 32); ("requestedWireClass", KU8); ("circuitClass", KU8);
     ("circuitNonce", KBytes 32); ("parentRouteScopeHash", KBytes 32); ("innerHandshake", KHash)];
  tagged cellStorageSlotPreimage "hiverelay.blind.slot.v1"
    [("allocationEpoch", KU32); ("createPublicKey", KBytes 32)];
  tagged allocationCommitmentPreimage "hiverelay.blind.allocate.v1"
    [("relayPublicKey", KBytes 32); ("storageSlot", KBytes 32); ("allocationEpoch", KU32);
     ("sizeClass", KU8); ("leaseClass", KU8); ("declaredCellBlobHash", KBytes 32);
     ("createPublicKey", KBytes 32); ("renewPublicKey", KBytes 32); ("dropPublicKey", KBytes 32)];
  tagged inboxPhysicalTopicPreimage "hiverelay.blind.inbox-topic.v1"
    [("allocationEpoch", KU32); ("createPublicKey", KBytes 32)];
  tagged inboxCreateCommitmentPreimage "hiverelay.blind.inbox-create.v1"
    [("relayPublicKey", KBytes 32); ("physicalTopic", KBytes 32); ("allocationEpoch", KU32);
     ("frameClassBits", KU8); ("appendAuthMode", KU8); ("appendPublicKey", KOptKey);
     ("createPublicKey", KBytes 32); ("renewPublicKey", KBytes 32); ("closePublicKey", KBytes 32);
     ("retentionClass", KU8); ("leaseClass", KU8)]].

(** The preimage of a row is its prefix and the encodings of its fields. *)
Definition lays_out (r : row) : Prop := forall v p, r_preimage r v = Ok p ->
  In (r_prefix r v) (r_prefixes r) /\
  exists b, p = r_prefix r v ++ b /\
    Hash.concat (map (fun f => enc_kind (snd f) (get v (fst f))) (r_fields r)) = Ok b.

Lemma concat_mono (xs ys : list (result bytes)) b :
  Forall2 (fun x y => forall a, x = Ok a -> y = Ok a) xs ys -> Hash.concat xs = Ok b -> Hash.concat ys = Ok b.
Proof.
  intros Hf. revert b; induction Hf as [|x y xs ys Hxy _ IH]; intros b Hq; cbn [Hash.concat] in *; [done|].
  apply bindR_ok in Hq as (a & Ha & Hq). apply bindR_ok in Hq as (c & Hc & [= <-]).
  by rewrite (Hxy _ Ha), (IH _ Hc).
Qed.

Lemma request_inv d parts p : requestPreimage d parts = Ok p ->
  exists b, Hash.concat parts = Ok b /\ p = domain_bytes d ++ b.
Proof.
  unfold requestPreimage, domain_bytes. intros Hq. apply bindR_ok in Hq as (b & Hb & Hq).
  destruct (domainRegistryEntry _) as [e|]; [|done]. destruct (_ || _); [done|]. injection Hq as <-. eauto.
Qed.

Lemma nonzero_fixed v n a : nonzeroFixedBytesInput v n = Ok a -> fixedBytesInput v n = Ok a.
Proof.
  unfold nonzeroFixedBytesInput. intros Hq. apply bindR_ok in Hq as (b & Hb & Hq). oks. done.
Qed.

Lemma small_byte v lo hi : not_in_range v lo hi = false -> 0 <= lo -> hi <= 255 ->
  encodeU8 v = Ok [z2b (num v)].
Proof.
  intros Hr Hlo Hhi. destruct v as [| |n| | | | | | |]; try discriminate. simpl in Hr. b2p.
  unfold encodeU8, encodeUnsigned. rewrite (proj2 (assertUnsigned_ok (VNum n) 255 n ltac:(done))) by (split; [done|lia]).
  cbn [bindR num]. f_equal. change (Z.to_nat 1) with 1%nat. rewrite write_be_loop_spec by len.
  rewrite splice_all by len. done.
Qed.

(** Each component of a preimage is the encoding of its field. *)
Ltac field_step :=
  let a := fresh "a" in let Ha := fresh "Ha" in intros a Ha; cbn [enc_kind snd fst] in *;
  first [ exact Ha | exact (nonzero_fixed _ _ _ Ha)
        | match goal with Hb : match ?w with VList _ => _ | _ => _ end = Ok _ |- _ =>
            destruct w; try discriminate Hb; injection Hb as <-; exact Ha end
        | injection Ha as <-; first [ assumption | by apply (small_byte _ 1 3)
          | match goal with Hb : Hash.asBuffer _ = Ok _ |- _ => rewrite Hb; reflexivity
            | Hb : fixedBytesInput _ _ = Ok _ |- _ => apply fixedBytesInput_ok in Hb as [Hb _]; rewrite Hb; reflexivity end ] ].

Ltac layout Hb := refine (concat_mono _ _ _ _ Hb); repeat (apply List.Forall2_cons; [field_step|]); apply List.Forall2_nil.

(** Opens the checks a preimage function makes before its concatenation. *)
Ltac open_preimage v p Hq :=
  intros v p Hq; cbn [r_preimage request managed tagged] in Hq;
  first [ match type of Hq with ?f v = Ok p => unfold f in Hq end
        | progress (unfold inboxReadPreimage, forwardOpenPreimage, allocationCommitmentPreimage,
                      inboxCreateCommitmentPreimage in Hq) ];
  try unfold cellReadPreimage in Hq;
  repeat (let x := fresh "x" in let Hx := fresh "Hx" in
          match type of Hq with bindR _ _ = Ok _ => apply bindR_ok in Hq as (x & Hx & Hq) end;
          try (apply fail_if_ok in Hx)); cbv zeta in Hq.

Ltac lay_request :=
  let v := fresh "v" in let p := fresh "p" in let Hq := fresh "Hq" in open_preimage v p Hq;
  let b := fresh "b" in let Hb := fresh "Hb" in apply request_inv in Hq as (b & Hb & ->); split;
  [ cbn [r_prefix r_prefixes request managed]; try case_match; simpl; tauto
  | exists b; split; [reflexivity | layout Hb] ].

Lemma tagged_inv tag parts p : Hash.concat (Ok (ascii_bytes tag) :: parts) = Ok p ->
  exists b, Hash.concat parts = Ok b /\ p = ascii_bytes tag ++ b.
Proof. cbn [Hash.concat bindR]. intros Hq. apply bindR_ok in Hq as (b & Hb & [= <-]). eauto. Qed.

Ltac lay_tagged :=
  let v := fresh "v" in let p := fresh "p" in let Hq := fresh "Hq" in open_preimage v p Hq;
  let b := fresh "b" in let Hb := fresh "Hb" in apply tagged_inv in Hq as (b & Hb & ->); split;
  [ left; reflexivity | exists b; split; [reflexivity | layout Hb] ].

Lemma all_lay_out : Forall lays_out COMMITMENTS.
Proof.
  repeat (apply List.Forall_cons); [..|apply List.Forall_nil].
  all: match goal with |- lays_out (tagged _ _ _) => idtac | |- lays_out ?r => try solve [lay_request] end.
  all: try solve [lay_tagged].
Qed.

(** Every prefix, with the index of its row. *)
Definition row_prefixes : list (nat * bytes) :=
  List.concat (imap (fun i r => map (pair i) (r_prefixes r)) COMMITMENTS).

Lemma row_prefixes_in i r x : COMMITMENTS !! i = Some r -> In x (r_prefixes r) -> In (i, x) row_prefixes.
Proof.
  intros Hi Hx. do 18 (destruct i as [|i]; [injection Hi as <-; unfold row_prefixes; simpl in Hx |- *; intuition (subst; auto 25)|]).
  discriminate.
Qed.

Lemma row_prefixes_free a b : In a row_prefixes -> In b row_prefixes ->
  is_prefix (snd a) (snd b) = true -> a = b.
Proof.
  assert (Hf : forallb (fun a => forallb (fun b =>
      (Nat.eqb (fst a) (fst b) && bytes_eqb (snd a) (snd b)) || negb (is_prefix (snd a) (snd b)))
      row_prefixes) row_prefixes = true) by (vm_compute; reflexivity).
  intros Ha Hb Hp. rewrite forallb_forall in Hf. specialize (Hf a Ha). rewrite forallb_forall in Hf.
  specialize (Hf b Hb). rewrite Hp, orb_false_r in Hf. apply andb_prop in Hf as [H1 H2].
  apply Nat.eqb_eq in H1. apply bytes_eqb_eq in H2. destruct a, b; simpl in *; congruence.
Qed.

(** ** Properties *)

(** C13: Equal commitments commit to equal things. Whatever two inputs the
    commitment functions accept, if their preimages are the same bytes then they
    are the same operation (a put is never a renewal, a cell never an inbox),
    and every committed field has the same content: no two fields can trade
    bytes with each other or with the domain string. *)
Theorem commitments_bind i j r1 r2 v w p :
  COMMITMENTS !! i = Some r1 -> COMMITMENTS !! j = Some r2 ->
  r_preimage r1 v = Ok p -> r_preimage r2 w = Ok p ->
  i = j /\ r_prefix r1 v = r_prefix r2 w /\
  Forall (fun f => same (snd f) (get v (fst f)) (get w (fst f))) (r_fields r1).
Proof.
  intros Hi Hj Hv Hw. pose proof all_lay_out as Hl. rewrite List.Forall_forall in Hl.
  assert (Hin : forall k r, COMMITMENTS !! k = Some r -> In r COMMITMENTS).
  { intros k r Hk. apply list_elem_of_In. by apply list_elem_of_lookup_2 in Hk. }
  destruct (Hl _ (Hin _ _ Hi) _ _ Hv) as (Hp1 & b1 & -> & Hc1).
  destruct (Hl _ (Hin _ _ Hj) _ _ Hw) as (Hp2 & b2 & Heq & Hc2).
  pose proof (row_prefixes_in _ _ _ Hi Hp1) as H1. pose proof (row_prefixes_in _ _ _ Hj Hp2) as H2.
  assert (E : (i, r_prefix r1 v) = (j, r_prefix r2 w)).
  { pose proof (prefix_total _ _ _ _ Heq) as Ht. apply orb_true_iff in Ht as [Ht|Ht];
      [|symmetry]; by apply row_prefixes_free. }
  injection E as -> Hpre. rewrite Hi in Hj. injection Hj as <-. split; [done|]. split; [done|].
  rewrite Hpre in Heq. apply app_inv_head in Heq. subst b2.
  by eapply (kinds_delimit (r_fields r1) v w b1 b1 [] []).
Qed.
End WithPlatform.

Definition demo_put : val := VObj [("allocationCommitment", key Byte.x01); ("clientNonce", key Byte.x02)].

Lemma commitments_bind_witness :
  0%nat = 0%nat /\ domain_bytes 1 = domain_bytes 1 /\
  Forall (fun f => @same demo_platform (snd f) (get demo_put (fst f)) (get demo_put (fst f)))
    [("allocationCommitment", KBytes 32); ("clientNonce", KBytes 32)].
Proof.
  apply (@commitments_bind demo_platform demo_digest_length 0 0 _ _ demo_put demo_put
    (domain_bytes 1 ++ replicate 32 Byte.x01 ++ replicate 32 Byte.x02) eq_refl eq_refl);
    vm_compute; reflexivity.
Defined.
