(* ===== verification/SchemaKit.v ===== *)
(** * Helpers of the wire schemas (packages/blind-protocol/schemas.js, lines 56 to 204)

    The checks the [validate] callbacks share, the capped encoding and the
    field encodings the schemas are built from. Validators run on objects whose
    fields their encodings have already checked, so bytes fields are read with
    [raw] and numeric fields with [num]. *)

From Stdlib Require Import ZArith Lia Bool List String Ascii.
From Stdlib Require Import Strings.Byte.
From stdpp Require Import base tactics list strings.
From S2P Require Import Prelude Codec CodecLaws Authority Hashes.


Definition KiB : Z := 1024.
Definition MiB : Z := 1024 * KiB.

(** [bigint(value, field)]: a number or BigInt as a u64. *)
Definition bigint (value : val) : result Z := asU64 value.

Definition isAllZero (value : bytes) : bool := forallb (fun b => b2z b =? 0) value.

(** [value.issuedEpoch >= value.expiresEpoch || value.expiresEpoch - value.issuedEpoch > 4] *)
Definition validateEpochWindow (value : val) : result unit :=
  fail_if (js_le value.["expiresEpoch"] value.["issuedEpoch"]
           || (4 <? num value.["expiresEpoch"] - num value.["issuedEpoch"])).

Definition validateForwardTuple (value : val) : result unit :=
  match table_get FORWARD_CIRCUIT_CLASS value.["circuitClass"] with
  | None => Err BAD_ENCODING
  | Some tuple =>
      let! maxCircuitBytes := bigint value.["maxCircuitBytes"] in
      fail_if (negb (is_num value.["grantedInitialWindow"] (cc_grantedInitialWindow tuple))
               || negb (maxCircuitBytes =? cc_maxCircuitBytes tuple)
               || negb (is_num value.["idleMillis"] (cc_idleMillis tuple))
               || negb (is_num value.["lifetimeMillis"] (cc_lifetimeMillis tuple))) ;;!
      let wireClass := if nullish value.["grantedWireClass"]
                       then value.["requestedWireClass"] else value.["grantedWireClass"] in
      fail_if (negb (strict_eqb value.["maxDataBytes"]
                       (match table_get STREAM_WIRE_CLASS wireClass with
                        | Some n => VNum n | None => VUndef end)))
  end.

Definition validateCoreTuple (value : val) : result unit :=
  match table_get CORE_SESSION_CLASS value.["sessionClass"] with
  | None => Err BAD_ENCODING
  | Some tuple =>
      let! maxSessionBytes := bigint value.["maxSessionBytes"] in
      fail_if (negb (maxSessionBytes =? cs_maxSessionBytes tuple)
               || negb (is_num value.["idleMillis"] (cs_idleMillis tuple))
               || negb (is_num value.["lifetimeMillis"] (cs_lifetimeMillis tuple)))
  end.

(** [assertDistinctBytes]: the loop with its [seen] set of hexadecimal keys. *)
Fixpoint distinct_loop (seen : list bytes) (values : list bytes) : result unit :=
  match values with
  | [] => Ok tt
  | value :: rest => fail_if (existsb (bytes_eqb value) seen) ;;! distinct_loop (value :: seen) rest
  end.
Definition assertDistinctBytes (values : list bytes) : result unit := distinct_loop [] values.

Fixpoint compareBytes (a b : bytes) : Z :=
  match a, b with
  | x :: a', y :: b' => if Byte.eqb x y then compareBytes a' b' else if b2z x <? b2z y then -1 else 1
  | [], [] => 0
  | [], _ :: _ => -1
  | _ :: _, [] => 1
  end.

Definition compareScalar (a b : val) : Z :=
  if strict_eqb a b then 0 else if js_lt a b then -1 else 1.

(** [for (index = 1; ...) if (compare(values[index - 1], values[index]) >= 0) fail(...)] *)
Fixpoint assertStrictlySorted (values : list val) (compare : val -> val -> result Z) : result unit :=
  match values with
  | a :: ((b :: _) as rest) =>
      let! c := compare a b in
      fail_if (0 <=? c) ;;!
      assertStrictlySorted rest compare
  | _ => Ok tt
  end.

Definition assertNonzeroBytes (value : val) : result unit := fail_if (isAllZero (raw value)).

(** [for (const field of names) assertNonzeroBytes(value[field], field)] *)
Definition assertNonzeroFields (value : val) (names : list string) : result unit :=
  for_each (fun field => assertNonzeroBytes value.[field]) names.

Definition cappedEncoding (encoding : encoding) (maximum : Z) : Codec.encoding := {|
  preencode s value _ :=
    let start := st_end s in
    let! s := preencode encoding s value VUndef in
    fail_if (maximum <? st_end s - start) ;;!
    Ok s;
  encode s value _ := encode encoding s value VUndef;
  decode s _ :=
    let start := st_start s in
    let! (value, s) := decode encoding s VUndef in
    fail_if (maximum <? st_start s - start) ;;!
    Ok (value, s)
|}.

(** *** Field encodings *)

Definition bytes16 : encoding := fixedBytes 16.
Definition bytes32 : encoding := fixedBytes 32.
Definition bytes64 : encoding := fixedBytes 64.
Definition bytes96 : encoding := fixedBytes 96.
Definition version1 : encoding := constant u8 1.
Definition profileId : encoding := ranged u16be 1 0xffff.
Definition schemeId : encoding := ranged u16be 1 0xffff.
Definition endpointId : encoding := ranged u8 1 0xff.
Definition transportSupportBit : encoding := ranged u16be 1 0x3f.
Definition wireClass : encoding := ranged u8 1 3.
Definition circuitClass : encoding := ranged u8 1 3.
Definition sessionClass : encoding := ranged u8 1 3.
Definition protocolId : encoding := ranged u16be 1 5.
Definition transportId : encoding := ranged u8 1 9.
Definition cellSizeClass : encoding := ranged u8 1 5.
Definition inboxFrameClass : encoding := ranged u8 1 3.
Definition leaseClass : encoding := ranged u8 1 4.
Definition optionalLeaseClass : encoding := ranged u8 0 4.
Definition cellBlob : encoding := exactBytesByClass "sizeClass" CELL_SIZE_CLASS.
Definition inboxFrame : encoding := exactBytesByClass "frameClass" INBOX_FRAME_CLASS.
Definition cellProtocol : encoding := constantBytes (ascii_bytes "hiverelay-blind-cell-v1").
Definition conformanceClass : encoding := ranged u8 ADMISSION_CONFORMANCE_CLASS_OPEN ADMISSION_CONFORMANCE_CLASS_PRIVATE.
Definition roleBits : encoding := u16be.
Definition operationBits : encoding := u32be.

Section WithPlatform.
Context `{Platform}.

Definition profileName : encoding := canonicalAsciiBytes 1 64.
Definition endpointUrl : encoding := canonicalUtf8Bytes 1 512.
Definition buildManifestUrl : encoding := canonicalHttpsUrlBytes.
Definition buildArtifactUrl : encoding := canonicalHttpsUrlBytes.
Definition releaseEvidenceBundleUrl : encoding := canonicalHttpsUrlBytes.
Definition runtimeBoundaryEvidenceUrl : encoding := canonicalHttpsUrlBytes.
Definition externalJournalTopologyUrl : encoding := canonicalHttpsUrlBytes.
Definition restoreEvidenceFeedUrl : encoding := canonicalHttpsUrlBytes.
Definition parameterUrl : encoding := canonicalHttpsUrlBytes.
Definition issuanceUrl : encoding := canonicalHttpsUrlBytes.
Definition descriptorUrl : encoding := canonicalHttpsUrlBytes.
End WithPlatform.

(** ** Laws *)

#[export] Instance cappedEncoding_lawful e t n : Lawful e [] t -> Lawful (cappedEncoding e n) [] t.
Proof.
  intros Hl.
  assert (Hem : forall v p bs, emits e v VUndef bs -> blen bs <= n -> emits (cappedEncoding e n) v p bs).
  { intros v p bs [Hs Hw] Hn. split; intros s; cbn [preencode encode cappedEncoding].
    - rewrite (Hs s). simpl. unfold fail_if. rewrite (proj2 (Z.ltb_ge _ _)) by lia. done.
    - apply Hw. }
  assert (Hinv : forall s v p s', preencode (cappedEncoding e n) s v p = Ok s' ->
            exists bs, emits e v VUndef bs /\ blen bs <= n).
  { intros s v p s' Hq. cbn [preencode cappedEncoding] in Hq.
    apply bindR_ok in Hq as (s1 & Hp & Hq). pose proof Hp as Hp'.
    apply sized_emits in Hp as [bs He]. exists bs. split; [done|].
    oks. b2p. destruct He as [Hs _]. specialize (Hs s). cbv beta in Hs. rewrite Hp' in Hs.
    injection Hs as ->. simpl in *. lia. }
  split.
  - intros s v p s' Hq. apply Hinv in Hq as (bs & He & Hn). eauto.
  - intros s p v s' Hwf Hq. cbn [decode cappedEncoding] in Hq.
    apply bindR_ok in Hq as ([x s1] & Hd & Hq). oks. b2p.
    apply decode_sound in Hd as (Ht & bs & Hc & -> & He); auto. simpl in *.
    split; [done|]. exists bs. split; [done|]. split; [done|]. intros p' _.
    apply Hem; auto with hive. lia.
  - intros v p p' bs Ht He _ s Hwf Hc. pose proof (Hinv _ _ _ _ (proj1 He (St 0 0 []))) as (b & Hb & Hn).
    rewrite (emits_fun _ _ _ _ _ He (Hem _ _ _ Hb Hn)) in *. cbn [decode cappedEncoding].
    rewrite (decode_complete v VUndef VUndef b Ht Hb (agree_nil _ _) s Hwf Hc). simpl.
    unfold fail_if. rewrite (proj2 (Z.ltb_ge _ _)) by lia. done.
Qed.

(** Combinators stay folded during instance resolution; the names given to
    field encodings are unfolded. *)
#[global] Typeclasses Opaque fixedUnsigned u8 u16be u32be u64be fixedBytes constantBytes
  exactBytesByClass boundedBytes canonicalTextBytes canonicalUtf8Bytes canonicalAsciiBytes
  canonicalHttpsUrlBytes optional arrayOf struct constant ranged cappedEncoding.

(** Proves the laws of a schema from its field list. *)
Ltac unfold_schema := match goal with |- Lawful ?e _ ?t => unfold e, t end.
Ltac lawful := unfold_schema; apply _.
