(* ===== verification/ResultBinding.v ===== *)
(** * Relay result bindings and external witnesses (packages/blind-protocol/result-binding.js)

    Every signed relay result names the relay, the store, the descriptor and
    the durability profile it was produced under; a result committed through an
    external journal also carries the witness of that commit. The validators
    read numbers that [ranged u8] has checked and u64 fields through [asU64]. *)

From Stdlib Require Import ZArith Lia Bool List String Ascii.
From Stdlib Require Import Strings.Byte.
From stdpp Require Import base tactics list strings.
From S2P Require Import Prelude Codec CodecLaws Authority SchemaKit.

Module Binding.

Definition asBigInt (value : val) : result Z := asU64 value.

Definition nonzero (value : val) : result unit := fail_if (isAllZero (raw value)).

(** [for (const field of [...]) nonzero(value[field], field)] *)
Definition nonzero_fields (value : val) (names : list string) : result unit :=
  for_each (fun field => nonzero value.[field]) names.

(** [(restoreSequence === 0n) !== isAllZero(value.restoreEvidenceHeadHash)] *)
Definition restore_head_mismatch (restoreSequence : Z) (value : val) : bool :=
  xorb (restoreSequence =? 0) (isAllZero (raw value.["restoreEvidenceHeadHash"])).

Definition validate_blindExternalCommitWitnessV1 (value : val) : result unit :=
  nonzero_fields value ["relayPublicKey"; "storeId"; "externalJournalId"; "durabilityContinuityHash";
    "durabilityProfileHash"; "requestCommitment"; "resultCommitment"; "commitWalHash";
    "coveringFloorHash"; "coveringFloorWalHash"; "writerFenceTokenHash"; "witnessPublicKey"] ;;!
  fail_if (negb (isKnownOperation value.["familyId"] value.["operationId"])) ;;!
  let! coveringFloorWalSequence := asBigInt value.["coveringFloorWalSequence"] in
  let! commitWalSequence := asBigInt value.["commitWalSequence"] in
  fail_if (coveringFloorWalSequence <? commitWalSequence) ;;!
  let! coveringFloorRevision := asBigInt value.["coveringFloorRevision"] in
  let! writerEpoch := asBigInt value.["writerEpoch"] in
  let! externalLeaseRevision := asBigInt value.["externalLeaseRevision"] in
  let! witnessedUnixMillis := asBigInt value.["witnessedUnixMillis"] in
  fail_if ((coveringFloorRevision =? 0) || (writerEpoch =? 0)
           || (externalLeaseRevision =? 0) || (witnessedUnixMillis =? 0)) ;;!
  let! restoreSequence := asBigInt value.["restoreEvidenceHeadSequence"] in
  fail_if (restore_head_mismatch restoreSequence value).

Definition blindExternalCommitWitnessV1 : encoding := struct [
  ("version", ranged u8 1 1);
  ("relayPublicKey", bytes32);
  ("storeId", bytes32);
  ("externalJournalId", bytes32);
  ("durabilityContinuityHash", bytes32);
  ("durabilityProfileHash", bytes32);
  ("restoreEvidenceHeadSequence", u64be);
  ("restoreEvidenceHeadHash", bytes32);
  ("familyId", ranged u8 1 5);
  ("operationId", ranged u8 1 255);
  ("requestCommitment", bytes32);
  ("resultCommitment", bytes32);
  ("commitWalSequence", u64be);
  ("commitWalHash", bytes32);
  ("coveringFloorRevision", u64be);
  ("coveringFloorHash", bytes32);
  ("coveringFloorWalSequence", u64be);
  ("coveringFloorWalHash", bytes32);
  ("writerEpoch", u64be);
  ("writerFenceTokenHash", bytes32);
  ("externalLeaseRevision", u64be);
  ("witnessedUnixMillis", u64be);
  ("witnessPublicKey", bytes32);
  ("signature", bytes64)
] (Some validate_blindExternalCommitWitnessV1).

Definition blindExternalCommitWitnessV1_type : jstype := TObj [
  ("version", TNum); ("relayPublicKey", TBytes); ("storeId", TBytes); 
  ("externalJournalId", TBytes); ("durabilityContinuityHash", TBytes); 
  ("durabilityProfileHash", TBytes); ("restoreEvidenceHeadSequence", TBig); 
  ("restoreEvidenceHeadHash", TBytes); ("familyId", TNum); ("operationId", TNum); 
  ("requestCommitment", TBytes); ("resultCommitment", TBytes); ("commitWalSequence", TBig); 
  ("commitWalHash", TBytes); ("coveringFloorRevision", TBig); ("coveringFloorHash", TBytes); 
  ("coveringFloorWalSequence", TBig); ("coveringFloorWalHash", TBytes); ("writerEpoch", TBig); 
  ("writerFenceTokenHash", TBytes); ("externalLeaseRevision", TBig); ("witnessedUnixMillis", TBig); 
  ("witnessPublicKey", TBytes); ("signature", TBytes)].

#[export] Instance blindExternalCommitWitnessV1_lawful : Lawful blindExternalCommitWitnessV1 [] blindExternalCommitWitnessV1_type.
Proof. lawful. Qed.

Definition validate_relayResultBindingV1 (value : val) : result unit :=
  nonzero_fields value ["relayPublicKey"; "storeId"; "descriptorHash"; "durabilityContinuityHash";
    "durabilityProfileHash"] ;;!
  let! restoreSequence := asBigInt value.["restoreEvidenceHeadSequence"] in
  fail_if (restore_head_mismatch restoreSequence value) ;;!
  let witness := value.["externalCommitWitness"] in
  if is_num value.["durabilityProfileId"] 1 then
    fail_if (negb (restoreSequence =? 0) || negb (nullish witness))
  else if nullish witness then Ok tt
  else
    for_each (fun field => fail_if (negb (bytes_eqb (raw value.[field]) (raw witness.[field]))))
      ["relayPublicKey"; "storeId"; "durabilityContinuityHash"; "durabilityProfileHash";
       "restoreEvidenceHeadHash"] ;;!
    let! own := asBigInt value.["restoreEvidenceHeadSequence"] in
    let! witnessed := asBigInt witness.["restoreEvidenceHeadSequence"] in
    fail_if (negb (own =? witnessed)).

Definition relayResultBindingV1 : encoding := struct [
  ("version", ranged u8 1 1);
  ("relayPublicKey", bytes32);
  ("storeId", bytes32);
  ("descriptorSequence", u64be);
  ("descriptorHash", bytes32);
  ("durabilityProfileId", ranged u8 1 2);
  ("durabilityContinuityHash", bytes32);
  ("durabilityProfileHash", bytes32);
  ("restoreEvidenceHeadSequence", u64be);
  ("restoreEvidenceHeadHash", bytes32);
  ("externalCommitWitness", optional blindExternalCommitWitnessV1)
] (Some validate_relayResultBindingV1).

Definition relayResultBindingV1_type : jstype := TObj [
  ("version", TNum); ("relayPublicKey", TBytes); ("storeId", TBytes); ("descriptorSequence", TBig); 
  ("descriptorHash", TBytes); ("durabilityProfileId", TNum); ("durabilityContinuityHash", TBytes); 
  ("durabilityProfileHash", TBytes); ("restoreEvidenceHeadSequence", TBig); 
  ("restoreEvidenceHeadHash", TBytes); 
  ("externalCommitWitness", TOpt blindExternalCommitWitnessV1_type)].

#[export] Instance relayResultBindingV1_lawful : Lawful relayResultBindingV1 [] relayResultBindingV1_type.
Proof. lawful. Qed.

Definition batchGetSignaturePayloadV1 : encoding := struct [
  ("version", ranged u8 1 1);
  ("relayBinding", relayResultBindingV1);
  ("requestNonce", bytes32);
  ("requestCommitment", bytes32);
  ("entriesCommitment", bytes32)
] None.

Definition batchGetSignaturePayloadV1_type : jstype := TObj [
  ("version", TNum); ("relayBinding", relayResultBindingV1_type); ("requestNonce", TBytes); 
  ("requestCommitment", TBytes); ("entriesCommitment", TBytes)].

#[export] Instance batchGetSignaturePayloadV1_lawful : Lawful batchGetSignaturePayloadV1 [] batchGetSignaturePayloadV1_type.
Proof. lawful. Qed.

Definition inboxReadSignaturePayloadV1 : encoding := struct [
  ("version", ranged u8 1 1);
  ("relayBinding", relayResultBindingV1);
  ("requestNonce", bytes32);
  ("requestCommitment", bytes32);
  ("snapshotRevision", u64be);
  ("entriesCommitment", bytes32);
  ("nextCursor", optional (boundedBytes 0 128))
] None.

Definition inboxReadSignaturePayloadV1_type : jstype := TObj [
  ("version", TNum); ("relayBinding", relayResultBindingV1_type); ("requestNonce", TBytes); 
  ("requestCommitment", TBytes); ("snapshotRevision", TBig); ("entriesCommitment", TBytes); 
  ("nextCursor", TOpt TBytes)].

#[export] Instance inboxReadSignaturePayloadV1_lawful : Lawful inboxReadSignaturePayloadV1 [] inboxReadSignaturePayloadV1_type.
Proof. lawful. Qed.

End Binding.
