(* ===== verification/SchemasDescribe.v ===== *)
(** * Describe family schemas (packages/blind-protocol/schemas.js)

    The entries of the frozen registries, the operation, protocol, transport,
    durability, build and admission profiles, the service descriptor that
    contains them, and the describe operations. A registry entry is accepted
    exactly when the table of Authority.v holds it. *)

From Stdlib Require Import ZArith Lia Bool List String Ascii.
From Stdlib Require Import Strings.Byte.
From stdpp Require Import base tactics list strings.
From S2P Require Import Prelude Codec CodecLaws Authority Hashes SchemaKit ResultBinding.
Import Binding.

(** *** Registry entries *)

Definition validate_admissionCostRuleV1 (value : val) : result unit :=
  match admissionCostRule value.["costClassRuleId"] with
  | Some expected => fail_if (negb (is_num value.["ruleKind"] (cr_ruleKind expected)))
  | None => Err BAD_ENCODING
  end.

Definition admissionCostRuleV1 : encoding := struct [
  ("costClassRuleId", ranged u16be 1 11);
  ("ruleKind", ranged u8 1 11)
] (Some validate_admissionCostRuleV1).

Definition admissionCostRuleV1_type : jstype := TObj [
  ("costClassRuleId", TNum); ("ruleKind", TNum)].

#[export] Instance admissionCostRuleV1_lawful : Lawful admissionCostRuleV1 [] admissionCostRuleV1_type.
Proof. lawful. Qed.

Section WithPlatform.
Context `{Platform}.

Definition validate_domainRegistryEntryV1 (value : val) : result unit :=
  match domainRegistryEntry value.["domainId"] with
  | Some expected =>
      fail_if (negb (is_num value.["purpose"] (de_purpose expected))
               || negb (is_num value.["recipeId"] (de_recipeId expected))
               || negb (bytes_eqb (ascii_bytes (de_exactAsciiBytes expected)) (raw value.["exactAsciiBytes"])))
  | None => Err BAD_ENCODING
  end.

Definition domainRegistryEntryV1 : encoding := struct [
  ("domainId", ranged u16be 1 0xffff);
  ("purpose", ranged u8 DOMAIN_PURPOSE_REQUEST_COMMITMENT DOMAIN_PURPOSE_AUXILIARY_SIGNATURE);
  ("recipeId", ranged u8 DOMAIN_RECIPE_OPERATION_DEFINED_COMMITMENT_PREIMAGE DOMAIN_RECIPE_ED25519_DOMAIN_LEN64_PAYLOAD);
  ("exactAsciiBytes", canonicalAsciiBytes 1 96)
] (Some validate_domainRegistryEntryV1).

Definition domainRegistryEntryV1_type : jstype := TObj [
  ("domainId", TNum); ("purpose", TNum); ("recipeId", TNum); ("exactAsciiBytes", TBytes)].

#[export] Instance domainRegistryEntryV1_lawful : Lawful domainRegistryEntryV1 [] domainRegistryEntryV1_type.
Proof. lawful. Qed.

Definition validate_errorProfileEntryV1 (value : val) : result unit :=
  match errorProfileEntry value.["errorProfileId"] value.["code"] with
  | Some expected =>
      fail_if (negb (is_num value.["directCorrelatedStatus"] (ep_directCorrelatedStatus expected))
               || negb (is_num value.["protectedInnerStatus"] (ep_protectedInnerStatus expected))
               || negb (is_num value.["retryable"] (ep_retryable expected))
               || negb (is_num value.["retryAfterMode"] (ep_retryAfterMode expected)))
  | None => Err BAD_ENCODING
  end.

Definition errorProfileEntryV1 : encoding := struct [
  ("errorProfileId", constant u8 ERROR_PROFILE_ID_CANONICAL_V1);
  ("code", ranged u8 1 20);
  ("directCorrelatedStatus", constant u16be 200);
  ("protectedInnerStatus", constant u16be 200);
  ("retryable", ranged u8 0 1);
  ("retryAfterMode", ranged u8 ERROR_RETRY_AFTER_MODE_MUST_BE_ABSENT ERROR_RETRY_AFTER_MODE_MUST_BE_PRESENT)
] (Some validate_errorProfileEntryV1).

Definition errorProfileEntryV1_type : jstype := TObj [
  ("errorProfileId", TConst ERROR_PROFILE_ID_CANONICAL_V1); ("code", TNum); 
  ("directCorrelatedStatus", TConst 200); ("protectedInnerStatus", TConst 200); 
  ("retryable", TNum); ("retryAfterMode", TNum)].

#[export] Instance errorProfileEntryV1_lawful : Lawful errorProfileEntryV1 [] errorProfileEntryV1_type.
Proof. lawful. Qed.

Definition admissionV1 : encoding := struct [
  ("profileId", profileId);
  ("schemeId", schemeId);
  ("parameterHash", bytes32);
  ("token", boundedBytes 1 4096)
] None.

Definition admissionV1_type : jstype := TObj [
  ("profileId", TNum); ("schemeId", TNum); ("parameterHash", TBytes); ("token", TBytes)].

#[export] Instance admissionV1_lawful : Lawful admissionV1 [] admissionV1_type.
Proof. lawful. Qed.

Definition validate_blindErrorV1 (value : val) : result unit :=
  match errorProfileEntry (VNum ERROR_PROFILE_ID_CANONICAL_V1) value.["code"] with
  | Some profile =>
      let retryAfterPresent := negb (nullish value.["retryAfterEpoch"]) in
      fail_if (negb (is_num value.["retryable"] (ep_retryable profile))
               || xorb retryAfterPresent
                    (ep_retryAfterMode profile =? ERROR_RETRY_AFTER_MODE_MUST_BE_PRESENT))
  | None => Err BAD_ENCODING
  end.

Definition blindErrorV1 : encoding := struct [
  ("version", version1);
  ("code", ranged u8 1 20);
  ("retryable", ranged u8 0 1);
  ("retryAfterEpoch", optional u32be)
] (Some validate_blindErrorV1).

Definition blindErrorV1_type : jstype := TObj [
  ("version", TConst 1); ("code", TNum); ("retryable", TNum); ("retryAfterEpoch", TOpt TNum)].

#[export] Instance blindErrorV1_lawful : Lawful blindErrorV1 [] blindErrorV1_type.
Proof. lawful. Qed.

Definition blindOhttpTransportErrorV1 : encoding := struct [
  ("version", version1);
  ("code", ranged u8 1 3)
] None.

Definition blindOhttpTransportErrorV1_type : jstype := TObj [
  ("version", TConst 1); ("code", TNum)].

#[export] Instance blindOhttpTransportErrorV1_lawful : Lawful blindOhttpTransportErrorV1 [] blindOhttpTransportErrorV1_type.
Proof. lawful. Qed.

Definition blindDescribeGetV1 : encoding := struct [
  ("version", version1);
  ("descriptorHash", optional bytes32);
  ("clientNonce", bytes32)
] None.

Definition blindDescribeGetV1_type : jstype := TObj [
  ("version", TConst 1); ("descriptorHash", TOpt TBytes); ("clientNonce", TBytes)].

#[export] Instance blindDescribeGetV1_lawful : Lawful blindDescribeGetV1 [] blindDescribeGetV1_type.
Proof. lawful. Qed.

Definition blindAdmissionParametersRequestV1 : encoding := struct [
  ("version", version1);
  ("profileId", profileId);
  ("schemeId", schemeId);
  ("clientNonce", bytes32)
] None.

Definition blindAdmissionParametersRequestV1_type : jstype := TObj [
  ("version", TConst 1); ("profileId", TNum); ("schemeId", TNum); ("clientNonce", TBytes)].

#[export] Instance blindAdmissionParametersRequestV1_lawful : Lawful blindAdmissionParametersRequestV1 [] blindAdmissionParametersRequestV1_type.
Proof. lawful. Qed.

(** [Object.keys(expected).some(field => value[field] !== expected[field])] is
    false: the value agrees with the row on every column. *)
Definition same_profile (value : val) (expected : operation_profile) : bool :=
  is_num value.["familyId"] (op_familyId expected)
  && is_num value.["operationId"] (op_operationId expected)
  && is_num value.["requestSchemaId"] (op_requestSchemaId expected)
  && is_num value.["resultSchemaId"] (op_resultSchemaId expected)
  && is_num value.["allowedRequestKindBits"] (op_allowedRequestKindBits expected)
  && is_num value.["allowedResultKindBits"] (op_allowedResultKindBits expected)
  && is_num value.["streamTransition"] (op_streamTransition expected)
  && is_num value.["maxRequestBodyBytes"] (op_maxRequestBodyBytes expected)
  && is_num value.["maxResultBodyBytes"] (op_maxResultBodyBytes expected)
  && is_num value.["admissionMode"] (op_admissionMode expected)
  && is_num value.["costClassRuleId"] (op_costClassRuleId expected)
  && is_num value.["requestCommitmentDomainId"] (op_requestCommitmentDomainId expected)
  && is_num value.["resultSignatureDomainId"] (op_resultSignatureDomainId expected)
  && is_num value.["errorProfileId"] (op_errorProfileId expected)
  && is_num value.["transportSupportBits"] (op_transportSupportBits expected).

(** The registered entry of [id] has the given purpose and recipe. *)
Definition is_domain (id : val) (purpose recipe : Z) : bool :=
  match domainRegistryEntry id with
  | Some domain => (de_purpose domain =? purpose) && (de_recipeId domain =? recipe)
  | None => false
  end.

Definition validate_operationProfileV1 (value : val) : result unit :=
  let zero field := is_num value.[field] 0 in
  fail_if (negb (zero "requestCommitmentDomainId") &&
           negb (is_domain value.["requestCommitmentDomainId"] DOMAIN_PURPOSE_REQUEST_COMMITMENT
                   DOMAIN_RECIPE_OPERATION_DEFINED_COMMITMENT_PREIMAGE)) ;;!
  fail_if (negb (zero "resultSignatureDomainId") &&
           negb (is_domain value.["resultSignatureDomainId"] DOMAIN_PURPOSE_RESULT_SIGNATURE
                   DOMAIN_RECIPE_ED25519_DOMAIN_LEN64_PAYLOAD)) ;;!
  fail_if (xorb (zero "admissionMode") (zero "costClassRuleId")) ;;!
  fail_if (negb (zero "costClassRuleId") &&
           match admissionCostRule value.["costClassRuleId"] with None => true | _ => false end) ;;!
  fail_if (is_num value.["admissionMode"] 2 && zero "requestCommitmentDomainId") ;;!
  fail_if (zero "resultSchemaId" && negb (is_num value.["streamTransition"] 3)) ;;!
  let requestKind := js_shl 1 (FRAME_KIND_REQUEST - 1) in
  let unaryResultKinds := js_or (js_shl 1 (FRAME_KIND_RESPONSE - 1)) (js_shl 1 (FRAME_KIND_ERROR - 1)) in
  let streamKind := js_shl 1 (FRAME_KIND_STREAM - 1) in
  let errorKind := js_shl 1 (FRAME_KIND_ERROR - 1) in
  (if is_num value.["streamTransition"] STREAM_TRANSITION_FORWARD_ACTIVE then
    fail_if (negb (is_num value.["familyId"] FAMILY_FORWARD) || negb (zero "resultSchemaId")
             || negb (is_num value.["allowedRequestKindBits"] streamKind)
             || (negb (is_num value.["allowedResultKindBits"] streamKind)
                 && negb (is_num value.["allowedResultKindBits"] (js_or streamKind errorKind)))
             || negb (zero "admissionMode") || negb (zero "costClassRuleId")
             || negb (zero "requestCommitmentDomainId") || negb (zero "resultSignatureDomainId"))
  else
    fail_if (negb (is_num value.["allowedRequestKindBits"] requestKind)
             || negb (is_num value.["allowedResultKindBits"] unaryResultKinds)
             || zero "resultSchemaId")) ;;!
  let nativeOnly := js_or TRANSPORT_SUPPORT_DIRECT_NATIVE TRANSPORT_SUPPORT_TOR_NATIVE in
  let forwardNative := js_or nativeOnly TRANSPORT_SUPPORT_MASQUE_NATIVE in
  fail_if ((is_num value.["streamTransition"] STREAM_TRANSITION_CORE_CHILD
            && (negb (is_num value.["familyId"] FAMILY_CORE)
                || negb (is_num value.["transportSupportBits"] nativeOnly)))
           || ((is_num value.["streamTransition"] STREAM_TRANSITION_FORWARD_OPEN
                || is_num value.["streamTransition"] STREAM_TRANSITION_FORWARD_ACTIVE)
               && (negb (is_num value.["familyId"] FAMILY_FORWARD)
                   || negb (is_num value.["transportSupportBits"] forwardNative)))) ;;!
  match operationProfile value.["familyId"] value.["operationId"] with
  | Some expected => fail_if (negb (same_profile value expected))
  | None => Err BAD_ENCODING
  end.

Definition operationProfileV1 : encoding := struct [
  ("familyId", ranged u8 1 5);
  ("operationId", ranged u8 1 255);
  ("requestSchemaId", ranged u16be 1 0xffff);
  ("resultSchemaId", u16be);
  ("allowedRequestKindBits", ranged u8 1 0x0f);
  ("allowedResultKindBits", ranged u8 0 0x0f);
  ("streamTransition", ranged u8 0 3);
  ("maxRequestBodyBytes", ranged u32be 1 (4 * MiB));
  ("maxResultBodyBytes", ranged u32be 1 (4 * MiB));
  ("admissionMode", ranged u8 0 2);
  ("costClassRuleId", u16be);
  ("requestCommitmentDomainId", u16be);
  ("resultSignatureDomainId", u16be);
  ("errorProfileId", constant u8 1);
  ("transportSupportBits", ranged u16be 1 0x3f)
] (Some validate_operationProfileV1).

Definition operationProfileV1_type : jstype := TObj [
  ("familyId", TNum); ("operationId", TNum); ("requestSchemaId", TNum); ("resultSchemaId", TNum); 
  ("allowedRequestKindBits", TNum); ("allowedResultKindBits", TNum); ("streamTransition", TNum); 
  ("maxRequestBodyBytes", TNum); ("maxResultBodyBytes", TNum); ("admissionMode", TNum); 
  ("costClassRuleId", TNum); ("requestCommitmentDomainId", TNum); 
  ("resultSignatureDomainId", TNum); ("errorProfileId", TConst 1); ("transportSupportBits", TNum)].

#[export] Instance operationProfileV1_lawful : Lawful operationProfileV1 [] operationProfileV1_type.
Proof. lawful. Qed.

(** *** Protocol, transport, durability and build profiles *)

Definition protocolProfileArtifactV1 : encoding := struct [
  ("version", version1);
  ("protocolId", protocolId);
  ("major", u16be);
  ("minor", u16be);
  ("featureBits", u64be);
  ("wireSchemaSetHash", bytes32);
  ("dependencyManifestHash", bytes32);
  ("interoperabilityVectorSetHash", bytes32)
] None.

Definition protocolProfileArtifactV1_type : jstype := TObj [
  ("version", TConst 1); ("protocolId", TNum); ("major", TNum); ("minor", TNum); 
  ("featureBits", TBig); ("wireSchemaSetHash", TBytes); ("dependencyManifestHash", TBytes); 
  ("interoperabilityVectorSetHash", TBytes)].

#[export] Instance protocolProfileArtifactV1_lawful : Lawful protocolProfileArtifactV1 [] protocolProfileArtifactV1_type.
Proof. lawful. Qed.

Definition transportProfileArtifactV1 : encoding := struct [
  ("version", version1);
  ("transportId", transportId);
  ("profileName", profileName);
  ("major", u16be);
  ("minor", u16be);
  ("exporterId", ranged u8 0 1);
  ("controlChannelIdType", ranged u8 0 1);
  ("handshakeProfileHash", bytes32);
  ("dependencyManifestHash", bytes32);
  ("interoperabilityVectorSetHash", bytes32)
] None.

Definition transportProfileArtifactV1_type : jstype := TObj [
  ("version", TConst 1); ("transportId", TNum); ("profileName", TBytes); ("major", TNum); 
  ("minor", TNum); ("exporterId", TNum); ("controlChannelIdType", TNum); 
  ("handshakeProfileHash", TBytes); ("dependencyManifestHash", TBytes); 
  ("interoperabilityVectorSetHash", TBytes)].

#[export] Instance transportProfileArtifactV1_lawful : Lawful transportProfileArtifactV1 [] transportProfileArtifactV1_type.
Proof. lawful. Qed.

Definition protocolProfileV1 : encoding := struct [
  ("protocolId", protocolId);
  ("major", u16be);
  ("minor", u16be);
  ("featureBits", u64be);
  ("profileHash", bytes32)
] None.

Definition protocolProfileV1_type : jstype := TObj [
  ("protocolId", TNum); ("major", TNum); ("minor", TNum); ("featureBits", TBig); 
  ("profileHash", TBytes)].

#[export] Instance protocolProfileV1_lawful : Lawful protocolProfileV1 [] protocolProfileV1_type.
Proof. lawful. Qed.

(** [(value & ~mask) !== 0] *)
Definition reserved_bits (value : val) (mask : Z) : bool := negb (js_and (num value) (js_not mask) =? 0).

Definition validate_transportEndpointV1 (value : val) : result unit :=
  fail_if (reserved_bits value.["roleBits"] ENDPOINT_LIMITS_ROLE_BITS_MASK) ;;!
  fail_if (reserved_bits value.["privacyProfileBits"] ENDPOINT_LIMITS_PRIVACY_PROFILE_BITS_MASK) ;;!
  fail_if (reserved_bits value.["envelopeClassBits"] ENDPOINT_LIMITS_ENVELOPE_CLASS_BITS_MASK) ;;!
  fail_if (reserved_bits value.["wireClassBits"] ENDPOINT_LIMITS_WIRE_CLASS_BITS_MASK) ;;!
  fail_if (xorb (is_num value.["wireClassBits"] 0) (is_num value.["maxStreams"] 0)) ;;!
  let onion := is_num value.["transportId"] TRANSPORT_ID_TOR_V3_ONION in
  validateCanonicalUrl value.["canonicalUrl"] onion ;;!
  let! listenerUrl := match parse_url (raw value.["canonicalUrl"]) with
                      | Some url => Ok url | None => Err TypeError end in
  fail_if (negb (match routeForFamily (VNum FAMILY_DESCRIBE) with
                 | Some route => bytes_eqb (url_pathname listenerUrl) (ascii_bytes route)
                 | None => false end)) ;;!
  fail_if (xorb (nullish value.["auxiliaryUrl"]) (nullish value.["auxiliaryHash"])) ;;!
  fail_if (onion && negb (nullish value.["auxiliaryUrl"])) ;;!
  if negb (nullish value.["auxiliaryUrl"]) then validateCanonicalUrl value.["auxiliaryUrl"] false
  else Ok tt.

Definition transportEndpointV1 : encoding := struct [
  ("endpointId", endpointId);
  ("transportId", transportId);
  ("transportProfileHash", bytes32);
  ("roleBits", u16be);
  ("privacyProfileBits", u16be);
  ("canonicalUrl", endpointUrl);
  ("endpointKey", optional bytes32);
  ("envelopeClassBits", u16be);
  ("wireClassBits", u8);
  ("maxStreams", u16be);
  ("auxiliaryUrl", optional endpointUrl);
  ("auxiliaryHash", optional bytes32)
] (Some validate_transportEndpointV1).

Definition transportEndpointV1_type : jstype := TObj [
  ("endpointId", TNum); ("transportId", TNum); ("transportProfileHash", TBytes); 
  ("roleBits", TNum); ("privacyProfileBits", TNum); ("canonicalUrl", TBytes); 
  ("endpointKey", TOpt TBytes); ("envelopeClassBits", TNum); ("wireClassBits", TNum); 
  ("maxStreams", TNum); ("auxiliaryUrl", TOpt TBytes); ("auxiliaryHash", TOpt TBytes)].

#[export] Instance transportEndpointV1_lawful : Lawful transportEndpointV1 [] transportEndpointV1_type.
Proof. lawful. Qed.

Definition validate_durabilityProfileV1 (value : val) : result unit :=
  let zero field := is_num value.[field] 0 in
  let externalFields := [value.["externalJournalId"]; value.["externalWitnessPublicKey"];
                         value.["externalJournalFailureGroupId"]; value.["externalJournalTopologyHash"]] in
  let! restoreSequence := bigint value.["restoreEvidenceCheckpointSequence"] in
  let restoreFeedZero := isAllZero (raw value.["restoreEvidenceFeedId"]) in
  let restoreHashZero := isAllZero (raw value.["restoreEvidenceCheckpointHash"]) in
  if is_num value.["profileId"] 1 then
    fail_if (existsb (fun value => negb (isAllZero (raw value))) externalFields
             || negb (zero "externalJournalReplicationClass") || negb (zero "externalCheckpointAgeBand")
             || negb (nullish value.["externalJournalTopologyUrl"])
             || negb (nullish value.["restoreEvidenceFeedUrl"])
             || negb restoreFeedZero || negb (restoreSequence =? 0) || negb restoreHashZero
             || negb (zero "acknowledgedRpoBand") || negb (zero "targetRtoBand")
             || negb (zero "redundancyClass") || negb (zero "restoreDrillAgeBand"))
  else
    fail_if (existsb (fun value => isAllZero (raw value)) externalFields
             || negb (is_num value.["externalJournalReplicationClass"] 1)
             || nullish value.["externalJournalTopologyUrl"]) ;;!
    fail_if (xorb (nullish value.["restoreEvidenceFeedUrl"]) restoreFeedZero
             || xorb (restoreSequence =? 0) restoreHashZero
             || (restoreFeedZero && (negb (restoreSequence =? 0) || negb restoreHashZero))) ;;!
    let bodyRecoveryClaim := negb (zero "acknowledgedRpoBand") || negb (zero "targetRtoBand")
                             || negb (zero "redundancyClass") || negb (zero "restoreDrillAgeBand") in
    fail_if (bodyRecoveryClaim && restoreFeedZero).

Definition durabilityProfileV1 : encoding := struct [
  ("profileId", ranged u8 1 2);
  ("storeFormatMajor", u16be);
  ("storeFormatMinor", u16be);
  ("storeFormatHash", bytes32);
  ("externalJournalId", bytes32);
  ("externalWitnessPublicKey", bytes32);
  ("externalJournalReplicationClass", ranged u8 0 1);
  ("externalJournalFailureGroupId", bytes32);
  ("externalCheckpointAgeBand", ranged u8 0 7);
  ("externalJournalTopologyUrl", optional externalJournalTopologyUrl);
  ("externalJournalTopologyHash", bytes32);
  ("restoreEvidenceFeedUrl", optional restoreEvidenceFeedUrl);
  ("restoreEvidenceFeedId", bytes32);
  ("restoreEvidenceCheckpointSequence", u64be);
  ("restoreEvidenceCheckpointHash", bytes32);
  ("acknowledgedRpoBand", ranged u8 0 3);
  ("targetRtoBand", ranged u8 0 3);
  ("redundancyClass", ranged u8 0 2);
  ("restoreDrillAgeBand", ranged u8 0 7)
] (Some validate_durabilityProfileV1).

Definition durabilityProfileV1_type : jstype := TObj [
  ("profileId", TNum); ("storeFormatMajor", TNum); ("storeFormatMinor", TNum); 
  ("storeFormatHash", TBytes); ("externalJournalId", TBytes); ("externalWitnessPublicKey", TBytes); 
  ("externalJournalReplicationClass", TNum); ("externalJournalFailureGroupId", TBytes); 
  ("externalCheckpointAgeBand", TNum); ("externalJournalTopologyUrl", TOpt TBytes); 
  ("externalJournalTopologyHash", TBytes); ("restoreEvidenceFeedUrl", TOpt TBytes); 
  ("restoreEvidenceFeedId", TBytes); ("restoreEvidenceCheckpointSequence", TBig); 
  ("restoreEvidenceCheckpointHash", TBytes); ("acknowledgedRpoBand", TNum); 
  ("targetRtoBand", TNum); ("redundancyClass", TNum); ("restoreDrillAgeBand", TNum)].

#[export] Instance durabilityProfileV1_lawful : Lawful durabilityProfileV1 [] durabilityProfileV1_type.
Proof. lawful. Qed.

Definition buildProfileV1 : encoding := struct [
  ("specHash", bytes32);
  ("abiHash", bytes32);
  ("vectorSetHash", bytes32);
  ("evidenceFormatHash", bytes32);
  ("evidenceVectorSetHash", bytes32);
  ("storeFormatHash", bytes32);
  ("storeVectorSetHash", bytes32);
  ("privateIpcFormatHash", bytes32);
  ("privateIpcVectorSetHash", bytes32);
  ("buildArtifactHash", bytes32);
  ("buildArtifactUrl", buildArtifactUrl);
  ("buildManifestUrl", buildManifestUrl);
  ("buildManifestHash", bytes32);
  ("releaseEvidenceBundleUrl", releaseEvidenceBundleUrl);
  ("releaseEvidenceBundleHash", bytes32);
  ("releaseSupportHorizonHash", bytes32);
  ("runtimeBoundaryEvidenceUrl", runtimeBoundaryEvidenceUrl);
  ("runtimeBoundaryEvidenceHash", bytes32)
] None.

Definition buildProfileV1_type : jstype := TObj [
  ("specHash", TBytes); ("abiHash", TBytes); ("vectorSetHash", TBytes); 
  ("evidenceFormatHash", TBytes); ("evidenceVectorSetHash", TBytes); ("storeFormatHash", TBytes); 
  ("storeVectorSetHash", TBytes); ("privateIpcFormatHash", TBytes); 
  ("privateIpcVectorSetHash", TBytes); ("buildArtifactHash", TBytes); ("buildArtifactUrl", TBytes); 
  ("buildManifestUrl", TBytes); ("buildManifestHash", TBytes); 
  ("releaseEvidenceBundleUrl", TBytes); ("releaseEvidenceBundleHash", TBytes); 
  ("releaseSupportHorizonHash", TBytes); ("runtimeBoundaryEvidenceUrl", TBytes); 
  ("runtimeBoundaryEvidenceHash", TBytes)].

#[export] Instance buildProfileV1_lawful : Lawful buildProfileV1 [] buildProfileV1_type.
Proof. lawful. Qed.

(** *** Admission profiles and parameters *)

Definition validate_admissionProfileV1 (value : val) : result unit :=
  fail_if (is_num value.["roleBits"] 0 || reserved_bits value.["roleBits"] ENDPOINT_LIMITS_ROLE_BITS_MASK).

Definition admissionProfileV1 : encoding := struct [
  ("profileId", profileId);
  ("schemeId", schemeId);
  ("conformanceClass", conformanceClass);
  ("roleBits", roleBits);
  ("parameterUrl", optional parameterUrl);
  ("parameterHash", bytes32)
] (Some validate_admissionProfileV1).

Definition admissionProfileV1_type : jstype := TObj [
  ("profileId", TNum); ("schemeId", TNum); ("conformanceClass", TNum); ("roleBits", TNum); 
  ("parameterUrl", TOpt TBytes); ("parameterHash", TBytes)].

#[export] Instance admissionProfileV1_lawful : Lawful admissionProfileV1 [] admissionProfileV1_type.
Proof. lawful. Qed.

Definition validate_admissionResourceCostV1 (value : val) : result unit :=
  let! costUnits := bigint value.["costUnits"] in
  fail_if (costUnits =? 0).

Definition admissionResourceCostV1 : encoding := struct [
  ("familyId", ranged u8 1 5);
  ("operationId", ranged u8 1 255);
  ("resourceClass", u8);
  ("leaseClass", optionalLeaseClass);
  ("costUnits", u64be)
] (Some validate_admissionResourceCostV1).

Definition admissionResourceCostV1_type : jstype := TObj [
  ("familyId", TNum); ("operationId", TNum); ("resourceClass", TNum); ("leaseClass", TNum); 
  ("costUnits", TBig)].

#[export] Instance admissionResourceCostV1_lawful : Lawful admissionResourceCostV1 [] admissionResourceCostV1_type.
Proof. lawful. Qed.

Definition admissionResourceCostsV1 : encoding := arrayOf admissionResourceCostV1 1 PUBLIC_PROFILE_LIMITS_MAX_ADMISSION_RESOURCE_COST_ROWS.

(** The loop over the four compared fields. *)
Fixpoint compare_fields (names : list string) (a b : val) : Z :=
  match names with
  | [] => 0
  | field :: rest =>
      let compared := compareScalar a.[field] b.[field] in
      if negb (compared =? 0) then compared else compare_fields rest a b
  end.

Definition compareResourceCost (a b : val) : result Z :=
  Ok (compare_fields ["familyId"; "operationId"; "resourceClass"; "leaseClass"] a b).

Definition validate_admissionParametersBaseV1 (value : val) : result unit :=
  assertNonzeroBytes value.["relayPublicKey"] ;;!
  fail_if (is_num value.["roleBits"] 0 || reserved_bits value.["roleBits"] ENDPOINT_LIMITS_ROLE_BITS_MASK) ;;!
  assertStrictlySorted (elems value.["resourceCosts"]) compareResourceCost ;;!
  fail_if (xorb (nullish value.["issuanceUrl"]) (nullish value.["issuerRelayKey"])) ;;!
  (if negb (nullish value.["issuerRelayKey"]) then assertNonzeroBytes value.["issuerRelayKey"] else Ok tt) ;;!
  fail_if (js_le value.["expiresEpoch"] value.["validFromEpoch"]).

Definition admissionParametersBaseV1 : encoding := struct [
  ("version", version1);
  ("relayPublicKey", bytes32);
  ("profileId", profileId);
  ("schemeId", schemeId);
  ("conformanceClass", conformanceClass);
  ("roleBits", roleBits);
  ("verifierKey", boundedBytes 0 4096);
  ("resourceCosts", admissionResourceCostsV1);
  ("tokenMaxBytes", ranged u16be 1 PUBLIC_PROFILE_LIMITS_MAX_ADMISSION_TOKEN_BYTES);
  ("issuanceUrl", optional issuanceUrl);
  ("issuerRelayKey", optional bytes32);
  ("validFromEpoch", u32be);
  ("expiresEpoch", u32be);
  ("nonce", bytes32);
  ("signature", bytes64)
] (Some validate_admissionParametersBaseV1).

Definition admissionParametersBaseV1_type : jstype := TObj [
  ("version", TConst 1); ("relayPublicKey", TBytes); ("profileId", TNum); ("schemeId", TNum); 
  ("conformanceClass", TNum); ("roleBits", TNum); ("verifierKey", TBytes); 
  ("resourceCosts", TArr admissionResourceCostV1_type); ("tokenMaxBytes", TNum); 
  ("issuanceUrl", TOpt TBytes); ("issuerRelayKey", TOpt TBytes); ("validFromEpoch", TNum); 
  ("expiresEpoch", TNum); ("nonce", TBytes); ("signature", TBytes)].

#[export] Instance admissionParametersBaseV1_lawful : Lawful admissionParametersBaseV1 [] admissionParametersBaseV1_type.
Proof. lawful. Qed.

Definition admissionParametersV1 : encoding := cappedEncoding admissionParametersBaseV1 (16 * KiB).
#[export] Instance admissionParametersV1_lawful : Lawful admissionParametersV1 [] admissionParametersBaseV1_type.
Proof. unfold admissionParametersV1. apply _. Qed.

Definition validate_relayIdentityTransitionV1 (value : val) : result unit :=
  assertNonzeroBytes value.["oldRelayKey"] ;;!
  assertNonzeroBytes value.["newRelayKey"] ;;!
  fail_if (bytes_eqb (raw value.["oldRelayKey"]) (raw value.["newRelayKey"])) ;;!
  let! oldIdentitySequence := bigint value.["oldIdentitySequence"] in
  let! newIdentitySequence := bigint value.["newIdentitySequence"] in
  fail_if ((oldIdentitySequence =? MAX_U64) || negb (newIdentitySequence =? oldIdentitySequence + 1)).

Definition relayIdentityTransitionV1 : encoding := struct [
  ("version", version1);
  ("oldRelayKey", bytes32);
  ("newRelayKey", bytes32);
  ("oldIdentitySequence", u64be);
  ("newIdentitySequence", u64be);
  ("validFromEpoch", u32be);
  ("reasonCode", ranged u8 1 3);
  ("transitionNonce", bytes32);
  ("oldSignature", bytes64);
  ("newSignature", bytes64)
] (Some validate_relayIdentityTransitionV1).

Definition relayIdentityTransitionV1_type : jstype := TObj [
  ("version", TConst 1); ("oldRelayKey", TBytes); ("newRelayKey", TBytes); 
  ("oldIdentitySequence", TBig); ("newIdentitySequence", TBig); ("validFromEpoch", TNum); 
  ("reasonCode", TNum); ("transitionNonce", TBytes); ("oldSignature", TBytes); 
  ("newSignature", TBytes)].

#[export] Instance relayIdentityTransitionV1_lawful : Lawful relayIdentityTransitionV1 [] relayIdentityTransitionV1_type.
Proof. lawful. Qed.

Definition validate_blindDhtPointerBaseV1 (value : val) : result unit :=
  assertNonzeroBytes value.["relayPublicKey"] ;;!
  fail_if (is_num value.["transportBits"] 0
           || reserved_bits value.["transportBits"] PUBLIC_PROFILE_LIMITS_TRANSPORT_BITS_MASK) ;;!
  validateEpochWindow value.

Definition blindDhtPointerBaseV1 : encoding := struct [
  ("version", version1);
  ("relayPublicKey", bytes32);
  ("descriptorSequence", u64be);
  ("descriptorHash", bytes32);
  ("descriptorUrl", descriptorUrl);
  ("transportBits", u16be);
  ("issuedEpoch", u32be);
  ("expiresEpoch", u32be);
  ("nonce", bytes32);
  ("signature", bytes64)
] (Some validate_blindDhtPointerBaseV1).

Definition blindDhtPointerBaseV1_type : jstype := TObj [
  ("version", TConst 1); ("relayPublicKey", TBytes); ("descriptorSequence", TBig); 
  ("descriptorHash", TBytes); ("descriptorUrl", TBytes); ("transportBits", TNum); 
  ("issuedEpoch", TNum); ("expiresEpoch", TNum); ("nonce", TBytes); ("signature", TBytes)].

#[export] Instance blindDhtPointerBaseV1_lawful : Lawful blindDhtPointerBaseV1 [] blindDhtPointerBaseV1_type.
Proof. lawful. Qed.

Definition blindDhtPointerV1 : encoding := cappedEncoding blindDhtPointerBaseV1 PUBLIC_PROFILE_LIMITS_MAX_DHT_POINTER_BYTES.
#[export] Instance blindDhtPointerV1_lawful : Lawful blindDhtPointerV1 [] blindDhtPointerBaseV1_type.
Proof. unfold blindDhtPointerV1. apply _. Qed.

Definition validate_blindOhttpKeyConfigV1 (value : val) : result unit :=
  assertNonzeroBytes value.["gatewayRelayKey"] ;;!
  fail_if (js_le value.["notAfterEpoch"] value.["notBeforeEpoch"]
           || (PUBLIC_PROFILE_LIMITS_MAX_OHTTP_CONFIG_EPOCHS
               <? num value.["notAfterEpoch"] - num value.["notBeforeEpoch"])).

Definition blindOhttpKeyConfigV1 : encoding := struct [
  ("version", version1);
  ("gatewayRelayKey", bytes32);
  ("gatewayDescriptorSequence", u64be);
  ("configId", u8);
  ("kemId", ranged u16be 1 0xffff);
  ("kdfId", ranged u16be 1 0xffff);
  ("aeadId", ranged u16be 1 0xffff);
  ("encodedPublicKey", boundedBytes 1 256);
  ("notBeforeEpoch", u32be);
  ("notAfterEpoch", u32be);
  ("previousConfigHash", optional bytes32);
  ("signature", bytes64)
] (Some validate_blindOhttpKeyConfigV1).

Definition blindOhttpKeyConfigV1_type : jstype := TObj [
  ("version", TConst 1); ("gatewayRelayKey", TBytes); ("gatewayDescriptorSequence", TBig); 
  ("configId", TNum); ("kemId", TNum); ("kdfId", TNum); ("aeadId", TNum); 
  ("encodedPublicKey", TBytes); ("notBeforeEpoch", TNum); ("notAfterEpoch", TNum); 
  ("previousConfigHash", TOpt TBytes); ("signature", TBytes)].

#[export] Instance blindOhttpKeyConfigV1_lawful : Lawful blindOhttpKeyConfigV1 [] blindOhttpKeyConfigV1_type.
Proof. lawful. Qed.

(** *** Health *)

(** [(bits & (bits - 1)) !== 0] *)
Definition not_one_hot (bits : val) : bool := negb (js_and (num bits) (num bits - 1) =? 0).

Definition validate_blindHealthChallengeV1 (value : val) : result unit :=
  fail_if (not_one_hot value.["transportSupportBit"]) ;;!
  fail_if (reserved_bits value.["requestedRoleBits"] ENDPOINT_LIMITS_ROLE_BITS_MASK) ;;!
  fail_if (reserved_bits value.["requestedOperationBits"] PUBLIC_PROFILE_LIMITS_ENABLED_OPERATION_BITS_MASK) ;;!
  fail_if (is_num value.["requestedRoleBits"] 0 || is_num value.["requestedOperationBits"] 0).

Definition blindHealthChallengeV1 : encoding := struct [
  ("version", version1);
  ("descriptorSequence", u64be);
  ("descriptorHash", bytes32);
  ("endpointId", endpointId);
  ("transportSupportBit", transportSupportBit);
  ("requestedRoleBits", roleBits);
  ("requestedOperationBits", operationBits);
  ("clientNonce", bytes32)
] (Some validate_blindHealthChallengeV1).

Definition blindHealthChallengeV1_type : jstype := TObj [
  ("version", TConst 1); ("descriptorSequence", TBig); ("descriptorHash", TBytes); 
  ("endpointId", TNum); ("transportSupportBit", TNum); ("requestedRoleBits", TNum); 
  ("requestedOperationBits", TNum); ("clientNonce", TBytes)].

#[export] Instance blindHealthChallengeV1_lawful : Lawful blindHealthChallengeV1 [] blindHealthChallengeV1_type.
Proof. lawful. Qed.

Definition validate_blindHealthResultV1 (value : val) : result unit :=
  assertNonzeroBytes value.["relayPublicKey"] ;;!
  assertNonzeroBytes value.["storeId"] ;;!
  fail_if (not_one_hot value.["transportSupportBit"]) ;;!
  fail_if (reserved_bits value.["readyRoleBits"] ENDPOINT_LIMITS_ROLE_BITS_MASK) ;;!
  fail_if (reserved_bits value.["readyOperationBits"] PUBLIC_PROFILE_LIMITS_ENABLED_OPERATION_BITS_MASK).

Definition blindHealthResultV1 : encoding := struct [
  ("version", version1);
  ("relayPublicKey", bytes32);
  ("storeId", bytes32);
  ("descriptorSequence", u64be);
  ("descriptorHash", bytes32);
  ("endpointId", endpointId);
  ("transportSupportBit", transportSupportBit);
  ("durabilityContinuityHash", bytes32);
  ("durabilityProfileHash", bytes32);
  ("clientNonce", bytes32);
  ("readyRoleBits", roleBits);
  ("readyOperationBits", operationBits);
  ("clockState", ranged u8 HEALTH_CLOCK_STATE_READY HEALTH_CLOCK_STATE_VERIFYING);
  ("effectiveEpochFloor", u32be);
  ("integrityState", ranged u8 HEALTH_INTEGRITY_STATE_VERIFIED HEALTH_INTEGRITY_STATE_FAILED);
  ("checkpointAgeBand", ranged u8 0 7);
  ("scrubAgeBand", ranged u8 0 7);
  ("rebalanceState", ranged u8 HEALTH_REBALANCE_STATE_STABLE HEALTH_REBALANCE_STATE_FENCED);
  ("capacityBand", ranged u8 0 7);
  ("challengeEpoch", u32be);
  ("signature", bytes64)
] (Some validate_blindHealthResultV1).

Definition blindHealthResultV1_type : jstype := TObj [
  ("version", TConst 1); ("relayPublicKey", TBytes); ("storeId", TBytes); 
  ("descriptorSequence", TBig); ("descriptorHash", TBytes); ("endpointId", TNum); 
  ("transportSupportBit", TNum); ("durabilityContinuityHash", TBytes); 
  ("durabilityProfileHash", TBytes); ("clientNonce", TBytes); ("readyRoleBits", TNum); 
  ("readyOperationBits", TNum); ("clockState", TNum); ("effectiveEpochFloor", TNum); 
  ("integrityState", TNum); ("checkpointAgeBand", TNum); ("scrubAgeBand", TNum); 
  ("rebalanceState", TNum); ("capacityBand", TNum); ("challengeEpoch", TNum); ("signature", TBytes)].

#[export] Instance blindHealthResultV1_lawful : Lawful blindHealthResultV1 [] blindHealthResultV1_type.
Proof. lawful. Qed.

(** *** The external journal topology *)

Definition validate_blindExternalBackupFailureGroupV1 (value : val) : result unit :=
  assertNonzeroBytes value.["backupFailureGroupId"] ;;!
  assertNonzeroBytes value.["operatorGroupId"].

Definition blindExternalBackupFailureGroupV1 : encoding := struct [
  ("backupFailureGroupId", bytes32);
  ("operatorGroupId", bytes32)
] (Some validate_blindExternalBackupFailureGroupV1).

Definition blindExternalBackupFailureGroupV1_type : jstype := TObj [
  ("backupFailureGroupId", TBytes); ("operatorGroupId", TBytes)].

#[export] Instance blindExternalBackupFailureGroupV1_lawful : Lawful blindExternalBackupFailureGroupV1 [] blindExternalBackupFailureGroupV1_type.
Proof. lawful. Qed.

Definition validate_blindExternalJournalNodeV1 (value : val) : result unit :=
  assertNonzeroBytes value.["nodePublicKey"] ;;!
  assertNonzeroBytes value.["operatorGroupId"] ;;!
  assertNonzeroBytes value.["failureDomainId"].

Definition blindExternalJournalNodeV1 : encoding := struct [
  ("nodePublicKey", bytes32);
  ("operatorGroupId", bytes32);
  ("failureDomainId", bytes32);
  ("roleConflictBits", u16be)
] (Some validate_blindExternalJournalNodeV1).

Definition blindExternalJournalNodeV1_type : jstype := TObj [
  ("nodePublicKey", TBytes); ("operatorGroupId", TBytes); ("failureDomainId", TBytes); 
  ("roleConflictBits", TNum)].

#[export] Instance blindExternalJournalNodeV1_lawful : Lawful blindExternalJournalNodeV1 [] blindExternalJournalNodeV1_type.
Proof. lawful. Qed.

Definition externalBackupFailureGroupsV1 : encoding := arrayOf blindExternalBackupFailureGroupV1 0 16.

Definition externalJournalNodesV1 : encoding := arrayOf blindExternalJournalNodeV1 3 3.

(** [x || y] on comparison results. *)
Definition or_compare (x y : Z) : Z := if x =? 0 then y else x.

Definition compareBackupFailureGroup (a b : val) : result Z :=
  Ok (or_compare (compareBytes (raw a.["backupFailureGroupId"]) (raw b.["backupFailureGroupId"]))
                 (compareBytes (raw a.["operatorGroupId"]) (raw b.["operatorGroupId"]))).

Definition compareJournalNode (a b : val) : result Z :=
  Ok (or_compare (compareBytes (raw a.["nodePublicKey"]) (raw b.["nodePublicKey"]))
     (or_compare (compareBytes (raw a.["operatorGroupId"]) (raw b.["operatorGroupId"]))
     (or_compare (compareBytes (raw a.["failureDomainId"]) (raw b.["failureDomainId"]))
                 (compareScalar a.["roleConflictBits"] b.["roleConflictBits"])))).

Definition validate_blindExternalJournalTopologyV1 (value : val) : result unit :=
  assertNonzeroFields value ["relayPublicKey"; "storeId"; "externalJournalId"; "durabilityContinuityHash";
    "sharedFailureGroupId"; "liveStoreFailureGroupId"; "witnessPublicKey"] ;;!
  let! sequence := bigint value.["topologySequence"] in
  fail_if (xorb (sequence =? 0) (nullish value.["previousTopologyHash"])) ;;!
  assertStrictlySorted (elems value.["backupFailureGroups"]) compareBackupFailureGroup ;;!
  assertStrictlySorted (elems value.["nodes"]) compareJournalNode ;;!
  assertDistinctBytes (map (fun node => raw node.["operatorGroupId"]) (elems value.["nodes"])) ;;!
  assertDistinctBytes (map (fun node => raw node.["failureDomainId"]) (elems value.["nodes"])) ;;!
  validateEpochWindow value.

Definition blindExternalJournalTopologyV1 : encoding := struct [
  ("version", version1);
  ("relayPublicKey", bytes32);
  ("storeId", bytes32);
  ("externalJournalId", bytes32);
  ("durabilityContinuityHash", bytes32);
  ("topologySequence", u64be);
  ("previousTopologyHash", optional bytes32);
  ("replicationClass", constant u8 1);
  ("commitQuorum", constant u8 2);
  ("sharedFailureGroupId", bytes32);
  ("liveStoreFailureGroupId", bytes32);
  ("backupFailureGroups", externalBackupFailureGroupsV1);
  ("nodes", externalJournalNodesV1);
  ("issuedEpoch", u32be);
  ("expiresEpoch", u32be);
  ("witnessPublicKey", bytes32);
  ("signature", bytes64)
] (Some validate_blindExternalJournalTopologyV1).

Definition blindExternalJournalTopologyV1_type : jstype := TObj [
  ("version", TConst 1); ("relayPublicKey", TBytes); ("storeId", TBytes); 
  ("externalJournalId", TBytes); ("durabilityContinuityHash", TBytes); ("topologySequence", TBig); 
  ("previousTopologyHash", TOpt TBytes); ("replicationClass", TConst 1); 
  ("commitQuorum", TConst 2); ("sharedFailureGroupId", TBytes); 
  ("liveStoreFailureGroupId", TBytes); 
  ("backupFailureGroups", TArr blindExternalBackupFailureGroupV1_type); 
  ("nodes", TArr blindExternalJournalNodeV1_type); ("issuedEpoch", TNum); ("expiresEpoch", TNum); 
  ("witnessPublicKey", TBytes); ("signature", TBytes)].

#[export] Instance blindExternalJournalTopologyV1_lawful : Lawful blindExternalJournalTopologyV1 [] blindExternalJournalTopologyV1_type.
Proof. lawful. Qed.

(** *** The service descriptor *)

Definition descriptorProtocolsV1 : encoding := arrayOf protocolProfileV1 1 16.

Definition descriptorEndpointsV1 : encoding := arrayOf transportEndpointV1 1 16.

Definition descriptorAdmissionProfilesV1 : encoding := arrayOf admissionProfileV1 1 8.

(** [(a, b) => compareScalar(a[field], b[field])] *)
Definition compare_by (field : string) (a b : val) : result Z := Ok (compareScalar a.[field] b.[field]).

Definition validate_blindServiceDescriptorBaseV1 (value : val) : result unit :=
  assertNonzeroFields value ["relayPublicKey"; "storeId"; "durabilityContinuityHash";
    "durabilityProfileHash"; "descriptorNonce"] ;;!
  let! descriptorSequence := bigint value.["descriptorSequence"] in
  fail_if (xorb (descriptorSequence =? 0) (nullish value.["previousDescriptorHash"])) ;;!
  let rotating := negb (nullish value.["identityTransition"]) in
  fail_if (xorb rotating (negb (nullish value.["previousRelayKey"]))) ;;!
  (if rotating then
    let transition := value.["identityTransition"] in
    let! identitySequence := bigint value.["identitySequence"] in
    let! newIdentitySequence := bigint transition.["newIdentitySequence"] in
    fail_if (negb (bytes_eqb (raw value.["previousRelayKey"]) (raw transition.["oldRelayKey"]))
             || negb (bytes_eqb (raw value.["relayPublicKey"]) (raw transition.["newRelayKey"]))
             || negb (identitySequence =? newIdentitySequence))
  else Ok tt) ;;!
  assertStrictlySorted (elems value.["protocols"]) (compare_by "protocolId") ;;!
  assertStrictlySorted (elems value.["endpoints"]) (compare_by "endpointId") ;;!
  assertStrictlySorted (elems value.["admissionProfiles"]) (compare_by "profileId") ;;!
  fail_if (is_num value.["cellSizeClassBits"] 0
           || reserved_bits value.["cellSizeClassBits"] PUBLIC_PROFILE_LIMITS_CELL_SIZE_CLASS_BITS_MASK) ;;!
  fail_if (is_num value.["leaseClassBits"] 0
           || reserved_bits value.["leaseClassBits"] PUBLIC_PROFILE_LIMITS_LEASE_CLASS_BITS_MASK) ;;!
  fail_if (reserved_bits value.["enabledOperationBits"] PUBLIC_PROFILE_LIMITS_ENABLED_OPERATION_BITS_MASK) ;;!
  let draining := is_num value.["storeLifecycleState"] STORE_LIFECYCLE_STATE_DRAINING in
  let retired := is_num value.["storeLifecycleState"] STORE_LIFECYCLE_STATE_RETIRED in
  fail_if (xorb (is_num value.["storeLifecycleState"] STORE_LIFECYCLE_STATE_ACTIVE)
                (nullish value.["drainStartedEpoch"])) ;;!
  fail_if (negb (nullish value.["drainStartedEpoch"])
           && js_lt value.["issuedEpoch"] value.["drainStartedEpoch"]) ;;!
  fail_if (draining && negb (is_num value.["enabledOperationBits"] 0x000129d7)) ;;!
  fail_if (retired && negb (is_num value.["enabledOperationBits"] 0)) ;;!
  validateEpochWindow value.

Definition blindServiceDescriptorBaseV1 : encoding := struct [
  ("version", version1);
  ("relayPublicKey", bytes32);
  ("storeId", bytes32);
  ("descriptorSequence", u64be);
  ("previousDescriptorHash", optional bytes32);
  ("identitySequence", u64be);
  ("previousRelayKey", optional bytes32);
  ("identityTransition", optional relayIdentityTransitionV1);
  ("build", buildProfileV1);
  ("protocols", descriptorProtocolsV1);
  ("endpoints", descriptorEndpointsV1);
  ("cellSizeClassBits", u8);
  ("leaseClassBits", u8);
  ("maxBatchCount", ranged u16be 1 PUBLIC_PROFILE_LIMITS_MAX_BATCH_COUNT);
  ("maxResponseBytes", ranged u32be 1 PUBLIC_PROFILE_LIMITS_MAX_RESPONSE_BYTES);
  ("maxSponsoredCoreLength", u64be);
  ("enabledOperationBits", operationBits);
  ("admissionProfiles", descriptorAdmissionProfilesV1);
  ("durability", durabilityProfileV1);
  ("durabilityContinuityHash", bytes32);
  ("durabilityProfileHash", bytes32);
  ("storeLifecycleState", ranged u8 STORE_LIFECYCLE_STATE_ACTIVE STORE_LIFECYCLE_STATE_RETIRED);
  ("drainStartedEpoch", optional u32be);
  ("capacityBand", ranged u8 0 7);
  ("issuedEpoch", u32be);
  ("expiresEpoch", u32be);
  ("descriptorNonce", bytes32);
  ("signature", bytes64)
] (Some validate_blindServiceDescriptorBaseV1).

Definition blindServiceDescriptorBaseV1_type : jstype := TObj [
  ("version", TConst 1); ("relayPublicKey", TBytes); ("storeId", TBytes); 
  ("descriptorSequence", TBig); ("previousDescriptorHash", TOpt TBytes); 
  ("identitySequence", TBig); ("previousRelayKey", TOpt TBytes); 
  ("identityTransition", TOpt relayIdentityTransitionV1_type); ("build", buildProfileV1_type); 
  ("protocols", TArr protocolProfileV1_type); ("endpoints", TArr transportEndpointV1_type); 
  ("cellSizeClassBits", TNum); ("leaseClassBits", TNum); ("maxBatchCount", TNum); 
  ("maxResponseBytes", TNum); ("maxSponsoredCoreLength", TBig); ("enabledOperationBits", TNum); 
  ("admissionProfiles", TArr admissionProfileV1_type); ("durability", durabilityProfileV1_type); 
  ("durabilityContinuityHash", TBytes); ("durabilityProfileHash", TBytes); 
  ("storeLifecycleState", TNum); ("drainStartedEpoch", TOpt TNum); ("capacityBand", TNum); 
  ("issuedEpoch", TNum); ("expiresEpoch", TNum); ("descriptorNonce", TBytes); ("signature", TBytes)].

#[export] Instance blindServiceDescriptorBaseV1_lawful : Lawful blindServiceDescriptorBaseV1 [] blindServiceDescriptorBaseV1_type.
Proof. lawful. Qed.

Definition blindServiceDescriptorV1 : encoding := cappedEncoding blindServiceDescriptorBaseV1 PUBLIC_PROFILE_LIMITS_MAX_DESCRIPTOR_BYTES.
#[export] Instance blindServiceDescriptorV1_lawful : Lawful blindServiceDescriptorV1 [] blindServiceDescriptorBaseV1_type.
Proof. unfold blindServiceDescriptorV1. apply _. Qed.

End WithPlatform.
