(* ===== verification/SchemasCell.v ===== *)
(** * Cell family schemas (packages/blind-protocol/schemas.js)

    Cells are content blobs of five frozen size classes, stored under a slot
    that is the hash of their creation key. The batch result is a list of
    entries, each found or not, under one commitment. *)

From Stdlib Require Import ZArith Lia Bool List String Ascii.
From Stdlib Require Import Strings.Byte.
From stdpp Require Import base tactics list strings.
From S2P Require Import Prelude Codec CodecLaws Authority Hashes SchemaKit ResultBinding SchemasDescribe.
Import Binding.

Section WithPlatform.
Context `{Platform}.

(** [b4a.equals(hash(...), value.field)] when computing the hash may throw. *)
Definition equals_result (computed : result bytes) (field : val) : result bool :=
  let! computed := computed in Ok (bytes_eqb computed (raw field)).

Definition validate_blindReceiptV1 (value : val) : result unit :=
  if is_num value.["result"] CELL_RECEIPT_RESULT_DROPPED
  then fail_if (negb (is_num value.["leaseClass"] 0))
  else fail_if (is_num value.["leaseClass"] 0).

Definition blindReceiptV1 : encoding := struct [
  ("version", version1);
  ("protocol", cellProtocol);
  ("relayBinding", relayResultBindingV1);
  ("slotCommitment", bytes32);
  ("cellBlobHash", bytes32);
  ("allocationCommitment", bytes32);
  ("requestCommitment", bytes32);
  ("sizeClass", cellSizeClass);
  ("allocationEpoch", u32be);
  ("leaseClass", optionalLeaseClass);
  ("leaseEpoch", u32be);
  ("stateRevision", u64be);
  ("receiptEpoch", u32be);
  ("requestNonce", bytes32);
  ("result", ranged u8 CELL_RECEIPT_RESULT_STORED CELL_RECEIPT_RESULT_DROPPED);
  ("signature", bytes64)
] (Some validate_blindReceiptV1).

Definition blindReceiptV1_type : jstype := TObj [
  ("version", TConst 1); ("protocol", TBytes); ("relayBinding", relayResultBindingV1_type); 
  ("slotCommitment", TBytes); ("cellBlobHash", TBytes); ("allocationCommitment", TBytes); 
  ("requestCommitment", TBytes); ("sizeClass", TNum); ("allocationEpoch", TNum); 
  ("leaseClass", TNum); ("leaseEpoch", TNum); ("stateRevision", TBig); ("receiptEpoch", TNum); 
  ("requestNonce", TBytes); ("result", TNum); ("signature", TBytes)].

#[export] Instance blindReceiptV1_lawful : Lawful blindReceiptV1 [] blindReceiptV1_type.
Proof. lawful. Qed.

Definition validate_putCellV1 (value : val) : result unit :=
  let! certified := equals_result (Hash.cellStorageSlot value) value.["storageSlot"] in
  fail_if (negb certified) ;;!
  fail_if (negb (bytes_eqb (Hash.blake2b256 (raw value.["cellBlob"])) (raw value.["declaredBlobHash"]))).

Definition putCellV1 : encoding := struct [
  ("version", version1);
  ("storageSlot", bytes32);
  ("allocationEpoch", u32be);
  ("sizeClass", cellSizeClass);
  ("leaseClass", leaseClass);
  ("clientNonce", bytes32);
  ("createPublicKey", bytes32);
  ("renewPublicKey", bytes32);
  ("dropPublicKey", bytes32);
  ("declaredBlobHash", bytes32);
  ("createSignature", bytes64);
  ("admission", admissionV1);
  ("cellBlob", cellBlob)
] (Some validate_putCellV1).

Definition putCellV1_type : jstype := TObj [
  ("version", TConst 1); ("storageSlot", TBytes); ("allocationEpoch", TNum); ("sizeClass", TNum); 
  ("leaseClass", TNum); ("clientNonce", TBytes); ("createPublicKey", TBytes); 
  ("renewPublicKey", TBytes); ("dropPublicKey", TBytes); ("declaredBlobHash", TBytes); 
  ("createSignature", TBytes); ("admission", admissionV1_type); ("cellBlob", TBytes)].

#[export] Instance putCellV1_lawful : Lawful putCellV1 [] putCellV1_type.
Proof. lawful. Qed.

Definition renewCellV1 : encoding := struct [
  ("version", version1);
  ("storageSlot", bytes32);
  ("expectedRevision", u64be);
  ("expectedLeaseEpoch", u32be);
  ("leaseClass", leaseClass);
  ("clientNonce", bytes32);
  ("admission", admissionV1);
  ("signature", bytes64)
] None.

Definition renewCellV1_type : jstype := TObj [
  ("version", TConst 1); ("storageSlot", TBytes); ("expectedRevision", TBig); 
  ("expectedLeaseEpoch", TNum); ("leaseClass", TNum); ("clientNonce", TBytes); 
  ("admission", admissionV1_type); ("signature", TBytes)].

#[export] Instance renewCellV1_lawful : Lawful renewCellV1 [] renewCellV1_type.
Proof. lawful. Qed.

Definition dropCellV1 : encoding := struct [
  ("version", version1);
  ("storageSlot", bytes32);
  ("expectedRevision", u64be);
  ("expectedLeaseEpoch", u32be);
  ("clientNonce", bytes32);
  ("signature", bytes64)
] None.

Definition dropCellV1_type : jstype := TObj [
  ("version", TConst 1); ("storageSlot", TBytes); ("expectedRevision", TBig); 
  ("expectedLeaseEpoch", TNum); ("clientNonce", TBytes); ("signature", TBytes)].

#[export] Instance dropCellV1_lawful : Lawful dropCellV1 [] dropCellV1_type.
Proof. lawful. Qed.

Definition proveCellV1 : encoding := struct [
  ("version", version1);
  ("storageSlot", bytes32);
  ("clientNonce", bytes32);
  ("admission", optional admissionV1)
] None.

Definition proveCellV1_type : jstype := TObj [
  ("version", TConst 1); ("storageSlot", TBytes); ("clientNonce", TBytes); 
  ("admission", TOpt admissionV1_type)].

#[export] Instance proveCellV1_lawful : Lawful proveCellV1 [] proveCellV1_type.
Proof. lawful. Qed.

Definition getCellV1 : encoding := struct [
  ("version", version1);
  ("storageSlot", bytes32);
  ("clientNonce", bytes32);
  ("admission", optional admissionV1)
] None.

Definition getCellV1_type : jstype := TObj [
  ("version", TConst 1); ("storageSlot", TBytes); ("clientNonce", TBytes); 
  ("admission", TOpt admissionV1_type)].

#[export] Instance getCellV1_lawful : Lawful getCellV1 [] getCellV1_type.
Proof. lawful. Qed.

Definition getCellResultV1 : encoding := struct [
  ("version", version1);
  ("sizeClass", cellSizeClass);
  ("cellBlob", cellBlob)
] None.

Definition getCellResultV1_type : jstype := TObj [
  ("version", TConst 1); ("sizeClass", TNum); ("cellBlob", TBytes)].

#[export] Instance getCellResultV1_lawful : Lawful getCellResultV1 [] getCellResultV1_type.
Proof. lawful. Qed.

Definition validate_proveCellResultV1 (value : val) : result unit :=
  let receipt := value.["receipt"] in
  fail_if (negb (is_num receipt.["result"] CELL_RECEIPT_RESULT_SERVED)) ;;!
  fail_if (negb (strict_eqb receipt.["sizeClass"] value.["sizeClass"])) ;;!
  fail_if (negb (bytes_eqb (Hash.blake2b256 (raw value.["cellBlob"])) (raw receipt.["cellBlobHash"]))).

Definition proveCellResultV1 : encoding := struct [
  ("version", version1);
  ("receipt", blindReceiptV1);
  ("sizeClass", cellSizeClass);
  ("cellBlob", cellBlob)
] (Some validate_proveCellResultV1).

Definition proveCellResultV1_type : jstype := TObj [
  ("version", TConst 1); ("receipt", blindReceiptV1_type); ("sizeClass", TNum); ("cellBlob", TBytes)].

#[export] Instance proveCellResultV1_lawful : Lawful proveCellResultV1 [] proveCellResultV1_type.
Proof. lawful. Qed.

Definition batchGetFoundV1 : encoding := struct [
  ("sizeClass", cellSizeClass);
  ("cellBlob", cellBlob)
] None.

Definition batchGetFoundV1_type : jstype := TObj [
  ("sizeClass", TNum); ("cellBlob", TBytes)].

#[export] Instance batchGetFoundV1_lawful : Lawful batchGetFoundV1 [] batchGetFoundV1_type.
Proof. lawful. Qed.

(** [{ status, ...found }] *)
Definition with_status (status found : val) : val :=
  match found with VObj fs => VObj (("status", status) :: fs) | _ => found end.

Definition batchGetEntryV1 : encoding := {|
  preencode s value _ :=
    fail_if (negb (is_object value)) ;;!
    let! s := preencode u8 s value.["status"] VUndef in
    if is_num value.["status"] 0 then Ok s
    else
      fail_if (negb (is_num value.["status"] 1)) ;;!
      preencode batchGetFoundV1 s value VUndef;
  encode s value _ :=
    fail_if (negb (is_object value)) ;;!
    let! s := encode u8 s value.["status"] VUndef in
    if is_num value.["status"] 0 then Ok s
    else
      fail_if (negb (is_num value.["status"] 1)) ;;!
      encode batchGetFoundV1 s value VUndef;
  decode s _ :=
    let! (status, s) := decode u8 s VUndef in
    if is_num status 0 then Ok (VObj [("status", status)], s)
    else
      fail_if (negb (is_num status 1)) ;;!
      let! (found, s) := decode batchGetFoundV1 s VUndef in
      Ok (with_status status found, s)
|}.

Definition batchGetEntryV1_type : jstype := TOr (TObj [("status", TConst 0)])
  (TObj [("status", TConst 1); ("sizeClass", TNum); ("cellBlob", TBytes)]).

(** A found entry is encoded from its two fields alone. *)
Lemma found_ext v v' bs :
  is_object v = is_object v' -> get v "sizeClass" = get v' "sizeClass" ->
  get v "cellBlob" = get v' "cellBlob" ->
  emits batchGetFoundV1 v VUndef bs -> emits batchGetFoundV1 v' VUndef bs.
Proof.
  intros Ho Hc Hb [Hs Hw].
  assert (Hp : forall s, preencode batchGetFoundV1 s v VUndef = preencode batchGetFoundV1 s v' VUndef).
  { intros s. unfold batchGetFoundV1. cbn -[cellSizeClass]. unfold selectedLength. by rewrite Ho, Hc, Hb. }
  assert (He : forall s, encode batchGetFoundV1 s v VUndef = encode batchGetFoundV1 s v' VUndef).
  { intros s. unfold batchGetFoundV1. cbn -[cellSizeClass]. unfold selectedLength. by rewrite Ho, Hc, Hb. }
  split; intros s; [rewrite <- Hp; apply Hs | rewrite <- He; apply Hw].
Qed.

Lemma entry_absent_emits v p : is_object v = true -> get v "status" = VNum 0 ->
  emits batchGetEntryV1 v p [z2b 0].
Proof.
  intros Ho Hg. destruct (u8_emits 0 VUndef ltac:(lia)) as [Hs Hw].
  split; intros s; cbn [preencode encode batchGetEntryV1]; rewrite Ho, Hg; cbn [negb fail_if throw_if bindR].
  - by rewrite (Hs s).
  - intros Hwf Hl. by rewrite (Hw s Hwf Hl).
Qed.

Lemma entry_found_emits v p bs : is_object v = true -> get v "status" = VNum 1 ->
  emits batchGetFoundV1 v VUndef bs -> emits batchGetEntryV1 v p ([z2b 1] ++ bs).
Proof.
  intros Ho Hg [Hs Hw]. destruct (u8_emits 1 VUndef ltac:(lia)) as [Hs1 Hw1].
  split; cbn [preencode encode batchGetEntryV1]; rewrite Ho, Hg; cbn [negb fail_if throw_if bindR].
  - rewrite blen_app. by apply (sizes_bind _ (fun s => preencode batchGetFoundV1 s v VUndef)).
  - by apply (writes_bind _ (fun s => encode batchGetFoundV1 s v VUndef)).
Qed.

Lemma entry_inv s v p s' : preencode batchGetEntryV1 s v p = Ok s' ->
  is_object v = true /\
  (get v "status" = VNum 0 \/
   get v "status" = VNum 1 /\ exists bs, emits batchGetFoundV1 v VUndef bs).
Proof.
  cbn [preencode batchGetEntryV1]. intros Hq. apply bindR_ok in Hq as (? & Ho & Hq).
  apply bindR_ok in Hq as (? & _ & Hq). oks. apply negb_false_iff in Ho. split; [done|].
  destruct (is_num _ 0) eqn:E0; [left; by apply is_num_iff in E0|]. right.
  apply bindR_ok in Hq as (? & Hn & Hq). apply fail_if_ok, negb_false_iff, is_num_iff in Hn.
  split; [done|]. by apply sized_emits in Hq.
Qed.

#[export] Instance batchGetEntryV1_lawful : Lawful batchGetEntryV1 [] batchGetEntryV1_type.
Proof.
  split.
  - intros s v p s' Hq. apply entry_inv in Hq as (Ho & [Hg | (Hg & bs & Hb)]);
      eauto using entry_absent_emits, entry_found_emits.
  - intros s p v s' Hwf Hq. cbn [decode batchGetEntryV1] in Hq.
    apply bindR_ok in Hq as ([status s1] & Hd & Hq).
    apply decode_sound in Hd as (_ & b0 & Hc0 & -> & He0); auto.
    specialize (He0 VUndef (agree_nil _ _)).
    destruct (is_num status 0) eqn:E0.
    + apply is_num_iff in E0 as ->. oks. split; [done|]. exists b0. split; [done|]. split; [done|].
      intros p' _. rewrite (emits_fun _ _ _ _ _ He0 (u8_emits 0 VUndef ltac:(lia))).
      by apply entry_absent_emits.
    + apply bindR_ok in Hq as (? & Hn & Hq). apply fail_if_ok, negb_false_iff, is_num_iff in Hn as ->.
      apply bindR_ok in Hq as ([found s2] & Hd & Hq). oks.
      apply decode_sound in Hd as (Ht & b1 & Hc1 & -> & He1); [|by apply at_cursor_wf].
      specialize (He1 VUndef (agree_nil _ _)).
      destruct found as [| | | | | |fs| | |]; try discriminate. cbn [with_status].
      split; [apply orb_true_iff; right; exact Ht|].
      exists (b0 ++ b1). split; [by apply at_cursor_app|].
      rewrite blen_app, adv_adv. split; [done|]. intros p' _.
      rewrite (emits_fun _ _ _ _ _ He0 (u8_emits 1 VUndef ltac:(lia))).
      apply entry_found_emits; [done | done |]. by apply (found_ext (VObj fs)).
  - intros v p p' bs Ht He _ s Hwf Hc. pose proof (proj1 He (St 0 0 [])) as Hp.
    apply entry_inv in Hp as (Ho & [Hg | (Hg & b & Hb)]); cbn [decode batchGetEntryV1].
    + rewrite (emits_fun _ _ _ _ _ He (entry_absent_emits v p Ho Hg)) in *.
      rewrite (u8_reads 0 VUndef ltac:(lia) s Hwf Hc). cbn.
      destruct v as [| | | | | |fs| | |]; try discriminate.
      apply orb_true_iff in Ht as [Ht|Ht]; apply has_type_cons in Ht as (x & l & -> & Hx & Ht);
        cbn in Hg; subst x; [by apply has_type_nil in Ht as -> | discriminate].
    + rewrite (emits_fun _ _ _ _ _ He (entry_found_emits v p b Ho Hg Hb)) in *.
      apply at_cursor_app in Hc as [Hc1 Hc2]; [|done].
      rewrite (u8_reads 1 VUndef ltac:(lia) s Hwf Hc1). cbn [bindR is_num strict_eqb Z.eqb Pos.eqb negb fail_if throw_if].
      destruct v as [| | | | | |fs| | |]; try discriminate.
      apply orb_true_iff in Ht as [Ht|Ht]; apply has_type_cons in Ht as (x & l & -> & Hx & Ht);
        cbn in Hg; subst x; [discriminate|].
      rewrite (decode_complete (VObj l) VUndef VUndef b); [|done| |apply agree_nil|by apply at_cursor_wf|done].
      * rewrite adv_adv, <- blen_app. done.
      * refine (found_ext _ _ _ _ _ _ Hb); done.
Qed.

Definition batchGetSlotsV1 : encoding := arrayOf bytes32 1 64.

Definition batchGetEntriesV1 : encoding := arrayOf batchGetEntryV1 1 64.

Definition batchGetEntriesCommitment (entries : val) : result bytes :=
  let! bs := encodeCanonical batchGetEntriesV1 entries in
  Ok (Hash.blake2b256 bs).

Definition validate_batchGetV1 (value : val) : result unit :=
  assertDistinctBytes (map raw (elems value.["slots"])).

Definition batchGetV1 : encoding := struct [
  ("version", version1);
  ("clientNonce", bytes32);
  ("slots", batchGetSlotsV1);
  ("admission", optional admissionV1)
] (Some validate_batchGetV1).

Definition batchGetV1_type : jstype := TObj [
  ("version", TConst 1); ("clientNonce", TBytes); ("slots", TArr TBytes); 
  ("admission", TOpt admissionV1_type)].

#[export] Instance batchGetV1_lawful : Lawful batchGetV1 [] batchGetV1_type.
Proof. lawful. Qed.

Definition validate_batchGetResultV1 (value : val) : result unit :=
  let! entriesBytes := encodeCanonical batchGetEntriesV1 value.["entries"] in
  let expected := Hash.blake2b256 entriesBytes in
  fail_if (negb (bytes_eqb expected (raw value.["entriesCommitment"]))) ;;!
  fail_if (4 * MiB <? 193 + blen entriesBytes).

Definition batchGetResultV1 : encoding := struct [
  ("version", version1);
  ("relayBinding", relayResultBindingV1);
  ("requestNonce", bytes32);
  ("requestCommitment", bytes32);
  ("entries", batchGetEntriesV1);
  ("entriesCommitment", bytes32);
  ("signature", bytes64)
] (Some validate_batchGetResultV1).

Definition batchGetResultV1_type : jstype := TObj [
  ("version", TConst 1); ("relayBinding", relayResultBindingV1_type); ("requestNonce", TBytes); 
  ("requestCommitment", TBytes); ("entries", TArr batchGetEntryV1_type); 
  ("entriesCommitment", TBytes); ("signature", TBytes)].

#[export] Instance batchGetResultV1_lawful : Lawful batchGetResultV1 [] batchGetResultV1_type.
Proof. lawful. Qed.

End WithPlatform.
