(* ===== verification/SchemasInbox.v ===== *)
(** * Inbox family schemas (packages/blind-protocol/schemas.js)

    An inbox is a log of frames under a self-certifying topic. A read result is
    a window of that log: strictly increasing revisions, none past the snapshot,
    under one commitment. *)

From Stdlib Require Import ZArith Lia Bool List String Ascii.
From Stdlib Require Import Strings.Byte.
From stdpp Require Import base tactics list strings.
From S2P Require Import Prelude Codec CodecLaws Authority Hashes SchemaKit ResultBinding SchemasDescribe SchemasCell.
Import Binding.

Section WithPlatform.
Context `{Platform}.

Definition validate_inboxCreateV1 (value : val) : result unit :=
  let! certified := equals_result (Hash.inboxPhysicalTopic value) value.["physicalTopic"] in
  fail_if (negb certified) ;;!
  fail_if (is_num value.["frameClassBits"] 0 || reserved_bits value.["frameClassBits"] 0x07) ;;!
  let signatureRequired := is_num value.["appendAuthMode"] INBOX_APPEND_AUTH_MODE_SIGNATURE_REQUIRED in
  fail_if (xorb signatureRequired (negb (nullish value.["appendPublicKey"]))).

Definition inboxCreateV1 : encoding := struct [
  ("version", version1);
  ("allocationEpoch", u32be);
  ("physicalTopic", bytes32);
  ("frameClassBits", u8);
  ("appendAuthMode", ranged u8 0 1);
  ("createPublicKey", bytes32);
  ("appendPublicKey", optional bytes32);
  ("renewPublicKey", bytes32);
  ("closePublicKey", bytes32);
  ("retentionClass", leaseClass);
  ("leaseClass", leaseClass);
  ("clientNonce", bytes32);
  ("createSignature", bytes64);
  ("admission", admissionV1)
] (Some validate_inboxCreateV1).

Definition inboxCreateV1_type : jstype := TObj [
  ("version", TConst 1); ("allocationEpoch", TNum); ("physicalTopic", TBytes); 
  ("frameClassBits", TNum); ("appendAuthMode", TNum); ("createPublicKey", TBytes); 
  ("appendPublicKey", TOpt TBytes); ("renewPublicKey", TBytes); ("closePublicKey", TBytes); 
  ("retentionClass", TNum); ("leaseClass", TNum); ("clientNonce", TBytes); 
  ("createSignature", TBytes); ("admission", admissionV1_type)].

#[export] Instance inboxCreateV1_lawful : Lawful inboxCreateV1 [] inboxCreateV1_type.
Proof. lawful. Qed.

Definition validate_inboxManageV1 (value : val) : result unit :=
  if is_num value.["operation"] INBOX_MANAGE_OPERATION_RENEW
  then fail_if (is_num value.["leaseClass"] 0 || nullish value.["admission"])
  else fail_if (negb (is_num value.["leaseClass"] 0) || negb (nullish value.["admission"])).

Definition inboxManageV1 : encoding := struct [
  ("version", version1);
  ("operation", ranged u8 1 2);
  ("physicalTopic", bytes32);
  ("expectedRevision", u64be);
  ("expectedLeaseEpoch", u32be);
  ("leaseClass", optionalLeaseClass);
  ("clientNonce", bytes32);
  ("signature", bytes64);
  ("admission", optional admissionV1)
] (Some validate_inboxManageV1).

Definition inboxManageV1_type : jstype := TObj [
  ("version", TConst 1); ("operation", TNum); ("physicalTopic", TBytes); 
  ("expectedRevision", TBig); ("expectedLeaseEpoch", TNum); ("leaseClass", TNum); 
  ("clientNonce", TBytes); ("signature", TBytes); ("admission", TOpt admissionV1_type)].

#[export] Instance inboxManageV1_lawful : Lawful inboxManageV1 [] inboxManageV1_type.
Proof. lawful. Qed.

Definition validate_inboxAppendV1 (value : val) : result unit :=
  fail_if (negb (bytes_eqb (Hash.blake2b256 (raw value.["frame"])) (raw value.["frameHash"]))).

Definition inboxAppendV1 : encoding := struct [
  ("version", version1);
  ("physicalTopic", bytes32);
  ("frameClass", inboxFrameClass);
  ("frameHash", bytes32);
  ("clientNonce", bytes32);
  ("appendSignature", optional bytes64);
  ("admission", admissionV1);
  ("frame", inboxFrame)
] (Some validate_inboxAppendV1).

Definition inboxAppendV1_type : jstype := TObj [
  ("version", TConst 1); ("physicalTopic", TBytes); ("frameClass", TNum); ("frameHash", TBytes); 
  ("clientNonce", TBytes); ("appendSignature", TOpt TBytes); ("admission", admissionV1_type); 
  ("frame", TBytes)].

#[export] Instance inboxAppendV1_lawful : Lawful inboxAppendV1 [] inboxAppendV1_type.
Proof. lawful. Qed.

Definition inboxReadV1 : encoding := struct [
  ("version", version1);
  ("physicalTopic", bytes32);
  ("cursor", boundedBytes 0 128);
  ("limit", ranged u16be 1 64);
  ("clientNonce", bytes32);
  ("admission", optional admissionV1)
] None.

Definition inboxReadV1_type : jstype := TObj [
  ("version", TConst 1); ("physicalTopic", TBytes); ("cursor", TBytes); ("limit", TNum); 
  ("clientNonce", TBytes); ("admission", TOpt admissionV1_type)].

#[export] Instance inboxReadV1_lawful : Lawful inboxReadV1 [] inboxReadV1_type.
Proof. lawful. Qed.

Definition inboxWatchV1 : encoding := struct [
  ("version", version1);
  ("physicalTopic", bytes32);
  ("afterRevision", u64be);
  ("limit", ranged u16be 1 64);
  ("maxWaitMillis", ranged u16be 1 30000);
  ("clientNonce", bytes32);
  ("admission", admissionV1)
] None.

Definition inboxWatchV1_type : jstype := TObj [
  ("version", TConst 1); ("physicalTopic", TBytes); ("afterRevision", TBig); ("limit", TNum); 
  ("maxWaitMillis", TNum); ("clientNonce", TBytes); ("admission", admissionV1_type)].

#[export] Instance inboxWatchV1_lawful : Lawful inboxWatchV1 [] inboxWatchV1_type.
Proof. lawful. Qed.

Definition validate_inboxReceiptV1 (value : val) : result unit :=
  if is_num value.["result"] INBOX_RECEIPT_RESULT_CLOSED
  then fail_if (negb (is_num value.["leaseClass"] 0))
  else fail_if (is_num value.["leaseClass"] 0).

Definition inboxReceiptV1 : encoding := struct [
  ("version", version1);
  ("relayBinding", relayResultBindingV1);
  ("topicCommitment", bytes32);
  ("stateRevision", u64be);
  ("leaseClass", optionalLeaseClass);
  ("leaseEpoch", u32be);
  ("requestNonce", bytes32);
  ("requestCommitment", bytes32);
  ("result", ranged u8 1 3);
  ("signature", bytes64)
] (Some validate_inboxReceiptV1).

Definition inboxReceiptV1_type : jstype := TObj [
  ("version", TConst 1); ("relayBinding", relayResultBindingV1_type); ("topicCommitment", TBytes); 
  ("stateRevision", TBig); ("leaseClass", TNum); ("leaseEpoch", TNum); ("requestNonce", TBytes); 
  ("requestCommitment", TBytes); ("result", TNum); ("signature", TBytes)].

#[export] Instance inboxReceiptV1_lawful : Lawful inboxReceiptV1 [] inboxReceiptV1_type.
Proof. lawful. Qed.

Definition validate_inboxAppendAckV1 (value : val) : result unit :=
  fail_if (js_le value.["expiresAtEpoch"] value.["storedAtEpoch"]).

Definition inboxAppendAckV1 : encoding := struct [
  ("version", version1);
  ("relayBinding", relayResultBindingV1);
  ("topicCommitment", bytes32);
  ("frameHash", bytes32);
  ("appendRevision", u64be);
  ("storedAtEpoch", u32be);
  ("expiresAtEpoch", u32be);
  ("requestNonce", bytes32);
  ("requestCommitment", bytes32);
  ("result", constant u8 INBOX_APPEND_RESULT_STORED);
  ("signature", bytes64)
] (Some validate_inboxAppendAckV1).

Definition inboxAppendAckV1_type : jstype := TObj [
  ("version", TConst 1); ("relayBinding", relayResultBindingV1_type); ("topicCommitment", TBytes); 
  ("frameHash", TBytes); ("appendRevision", TBig); ("storedAtEpoch", TNum); 
  ("expiresAtEpoch", TNum); ("requestNonce", TBytes); ("requestCommitment", TBytes); 
  ("result", TConst INBOX_APPEND_RESULT_STORED); ("signature", TBytes)].

#[export] Instance inboxAppendAckV1_lawful : Lawful inboxAppendAckV1 [] inboxAppendAckV1_type.
Proof. lawful. Qed.

Definition validate_inboxReadEntryV1 (value : val) : result unit :=
  fail_if (negb (bytes_eqb (Hash.blake2b256 (raw value.["frame"])) (raw value.["frameHash"]))).

Definition inboxReadEntryV1 : encoding := struct [
  ("appendRevision", u64be);
  ("frameHash", bytes32);
  ("frameClass", inboxFrameClass);
  ("frame", inboxFrame)
] (Some validate_inboxReadEntryV1).

Definition inboxReadEntryV1_type : jstype := TObj [
  ("appendRevision", TBig); ("frameHash", TBytes); ("frameClass", TNum); ("frame", TBytes)].

#[export] Instance inboxReadEntryV1_lawful : Lawful inboxReadEntryV1 [] inboxReadEntryV1_type.
Proof. lawful. Qed.

Definition inboxReadEntriesV1 : encoding := arrayOf inboxReadEntryV1 0 64.

Definition inboxNextCursorV1 : encoding := optional (boundedBytes 0 128).

Definition inboxReadEntriesCommitment (entries : val) : result bytes :=
  let! bs := encodeCanonical inboxReadEntriesV1 entries in
  Ok (Hash.blake2b256 bs).

(** The loop over [value.entries], from [previous]. *)
Fixpoint check_revisions (snapshotRevision : val) (previous : Z) (entries : list val) : result unit :=
  match entries with
  | [] => Ok tt
  | entry :: rest =>
      let! revision := bigint entry.["appendRevision"] in
      fail_if (revision <=? previous) ;;!
      let! snapshot := bigint snapshotRevision in
      fail_if (snapshot <? revision) ;;!
      check_revisions snapshotRevision revision rest
  end.

Definition validate_inboxReadResultV1 (value : val) : result unit :=
  check_revisions value.["snapshotRevision"] (-1) (elems value.["entries"]) ;;!
  let! entriesBytes := encodeCanonical inboxReadEntriesV1 value.["entries"] in
  let expected := Hash.blake2b256 entriesBytes in
  fail_if (negb (bytes_eqb expected (raw value.["entriesCommitment"]))) ;;!
  let! cursorBytes := encodeCanonical inboxNextCursorV1 value.["nextCursor"] in
  let resultBytes := 105 + blen entriesBytes + 32 + blen cursorBytes + 64 in
  fail_if (4 * MiB <? resultBytes).

Definition inboxReadResultV1 : encoding := struct [
  ("version", version1);
  ("relayBinding", relayResultBindingV1);
  ("requestNonce", bytes32);
  ("requestCommitment", bytes32);
  ("snapshotRevision", u64be);
  ("entries", inboxReadEntriesV1);
  ("entriesCommitment", bytes32);
  ("nextCursor", inboxNextCursorV1);
  ("signature", bytes64)
] (Some validate_inboxReadResultV1).

Definition inboxReadResultV1_type : jstype := TObj [
  ("version", TConst 1); ("relayBinding", relayResultBindingV1_type); ("requestNonce", TBytes); 
  ("requestCommitment", TBytes); ("snapshotRevision", TBig); 
  ("entries", TArr inboxReadEntryV1_type); ("entriesCommitment", TBytes); 
  ("nextCursor", TOpt TBytes); ("signature", TBytes)].

#[export] Instance inboxReadResultV1_lawful : Lawful inboxReadResultV1 [] inboxReadResultV1_type.
Proof. lawful. Qed.

End WithPlatform.
