(* ===== verification/SchemasForward.v ===== *)
(** * Core and forward family schemas (packages/blind-protocol/schemas.js)

    Core mirroring and serving; forwarding circuits: the signed transport
    routes, the route scope (the chain of relays a circuit has passed), the two
    hop messages, the data plane and the padded stream chunk. *)

From Stdlib Require Import ZArith Lia Bool List String Ascii.
From Stdlib Require Import Strings.Byte.
From stdpp Require Import base tactics list strings.
From S2P Require Import Prelude Codec CodecLaws Authority Hashes SchemaKit ResultBinding SchemasDescribe.
Import Binding.

(** *** Routes and route scopes *)

Definition validate_blindTransportRouteV1 (value : val) : result unit :=
  let zero field := is_num value.[field] 0 in
  validateEpochWindow value ;;!
  fail_if (reserved_bits value.["envelopeClassBits"] 0x7e) ;;!
  fail_if (reserved_bits value.["wireClassBits"] 0x0e) ;;!
  fail_if (js_lt (VNum DISPATCH_LIMITS_MAX_WIRE_BYTES) value.["maxCanonicalDispatchBytes"]) ;;!
  fail_if (js_lt (VNum (128 * KiB)) value.["maxOpenBytes"]) ;;!
  fail_if (js_lt (VNum 1024) value.["maxConcurrentStreams"]) ;;!
  if is_num value.["routeKind"] 1 then
    fail_if (zero "envelopeClassBits" || zero "maxEncapsulatedRequestBytes") ;;!
    let! maxCircuitBytes := bigint value.["maxCircuitBytes"] in
    fail_if (negb (zero "wireClassBits") || negb (zero "maxOpenBytes")
             || negb (maxCircuitBytes =? 0) || negb (zero "maxConcurrentStreams"))
  else
    fail_if (negb (zero "maxEncapsulatedRequestBytes")) ;;!
    if js_le (VNum 2) value.["routeKind"] && js_le value.["routeKind"] (VNum 5) then
      let! maxCircuitBytes := bigint value.["maxCircuitBytes"] in
      fail_if (zero "wireClassBits" || zero "maxOpenBytes" || (maxCircuitBytes =? 0)
               || zero "maxConcurrentStreams")
    else Ok tt.

Definition blindTransportRouteV1 : encoding := struct [
  ("version", version1);
  ("routeKind", ranged u8 1 6);
  ("routeId", bytes16);
  ("previousRelayKey", bytes32);
  ("previousEndpointId", endpointId);
  ("nextRelayKey", bytes32);
  ("nextDescriptorSequence", u64be);
  ("nextDescriptorHash", bytes32);
  ("nextEndpointId", endpointId);
  ("envelopeClassBits", u16be);
  ("wireClassBits", u8);
  ("maxCanonicalDispatchBytes", u32be);
  ("maxEncapsulatedRequestBytes", u32be);
  ("maxOpenBytes", u32be);
  ("maxCircuitBytes", u64be);
  ("maxConcurrentStreams", u16be);
  ("maxRelayCount", ranged u8 2 4);
  ("hopAdmissionProfileId", profileId);
  ("issuedEpoch", u32be);
  ("expiresEpoch", u32be);
  ("routeNonce", bytes32);
  ("previousSignature", bytes64)
] (Some validate_blindTransportRouteV1).

Definition blindTransportRouteV1_type : jstype := TObj [
  ("version", TConst 1); ("routeKind", TNum); ("routeId", TBytes); ("previousRelayKey", TBytes); 
  ("previousEndpointId", TNum); ("nextRelayKey", TBytes); ("nextDescriptorSequence", TBig); 
  ("nextDescriptorHash", TBytes); ("nextEndpointId", TNum); ("envelopeClassBits", TNum); 
  ("wireClassBits", TNum); ("maxCanonicalDispatchBytes", TNum); 
  ("maxEncapsulatedRequestBytes", TNum); ("maxOpenBytes", TNum); ("maxCircuitBytes", TBig); 
  ("maxConcurrentStreams", TNum); ("maxRelayCount", TNum); ("hopAdmissionProfileId", TNum); 
  ("issuedEpoch", TNum); ("expiresEpoch", TNum); ("routeNonce", TBytes); 
  ("previousSignature", TBytes)].

#[export] Instance blindTransportRouteV1_lawful : Lawful blindTransportRouteV1 [] blindTransportRouteV1_type.
Proof. lawful. Qed.

Definition validate_blindForwardRouteHopV1 (value : val) : result unit :=
  assertNonzeroBytes value.["relayPublicKey"] ;;!
  assertNonzeroBytes value.["descriptorHash"] ;;!
  assertNonzeroBytes value.["scopeHash"] ;;!
  fail_if (is_num value.["hopIndex"] 0 && negb (isAllZero (raw value.["previousScopeHash"]))) ;;!
  fail_if (negb (is_num value.["hopIndex"] 0) && isAllZero (raw value.["previousScopeHash"])).

Definition blindForwardRouteHopV1 : encoding := struct [
  ("hopIndex", ranged u8 0 3);
  ("relayPublicKey", bytes32);
  ("descriptorSequence", u64be);
  ("descriptorHash", bytes32);
  ("previousScopeHash", bytes32);
  ("scopeHash", bytes32);
  ("relaySignature", bytes64)
] (Some validate_blindForwardRouteHopV1).

Definition blindForwardRouteHopV1_type : jstype := TObj [
  ("hopIndex", TNum); ("relayPublicKey", TBytes); ("descriptorSequence", TBig); 
  ("descriptorHash", TBytes); ("previousScopeHash", TBytes); ("scopeHash", TBytes); 
  ("relaySignature", TBytes)].

#[export] Instance blindForwardRouteHopV1_lawful : Lawful blindForwardRouteHopV1 [] blindForwardRouteHopV1_type.
Proof. lawful. Qed.

Definition blindForwardRouteHopsV1 : encoding := arrayOf blindForwardRouteHopV1 1 4.

(** The loop over [value.hops]: [previous] is [value.hops[index - 1]] (VUndef
    at index 0), [relayKeys] the set of keys seen. *)
Fixpoint check_hops (index : Z) (previous : val) (relayKeys : list bytes) (hops : list val) : result unit :=
  match hops with
  | [] => Ok tt
  | hop :: rest =>
      fail_if (negb (is_num hop.["hopIndex"] index)) ;;!
      fail_if ((0 <? index) &&
               negb (bytes_eqb (raw hop.["previousScopeHash"]) (raw previous.["scopeHash"]))) ;;!
      let relayKey := raw hop.["relayPublicKey"] in
      fail_if (existsb (bytes_eqb relayKey) relayKeys) ;;!
      check_hops (index + 1) hop (relayKey :: relayKeys) rest
  end.

Definition validate_blindForwardRouteScopeV1 (value : val) : result unit :=
  assertNonzeroBytes value.["rootRouteId"] ;;!
  assertNonzeroBytes value.["rootCircuitNonce"] ;;!
  assertNonzeroBytes value.["rootRequestCommitment"] ;;!
  fail_if (is_num value.["expiresEpoch"] 0) ;;!
  fail_if (js_lt value.["maxRelayCount"] (VNum (Z.of_nat (List.length (elems value.["hops"]))))) ;;!
  check_hops 0 VUndef [] (elems value.["hops"]).

Definition blindForwardRouteScopeV1 : encoding := struct [
  ("version", version1);
  ("rootRouteId", bytes16);
  ("rootCircuitNonce", bytes32);
  ("rootRequestCommitment", bytes32);
  ("maxRelayCount", ranged u8 2 4);
  ("expiresEpoch", u32be);
  ("hops", blindForwardRouteHopsV1)
] (Some validate_blindForwardRouteScopeV1).

Definition blindForwardRouteScopeV1_type : jstype := TObj [
  ("version", TConst 1); ("rootRouteId", TBytes); ("rootCircuitNonce", TBytes); 
  ("rootRequestCommitment", TBytes); ("maxRelayCount", TNum); ("expiresEpoch", TNum); 
  ("hops", TArr blindForwardRouteHopV1_type)].

#[export] Instance blindForwardRouteScopeV1_lawful : Lawful blindForwardRouteScopeV1 [] blindForwardRouteScopeV1_type.
Proof. lawful. Qed.

(** *** Hops *)

(** [value.routeScope.hops[value.routeScope.hops.length - 1]] *)
Definition lastHop (value : val) : val :=
  List.last (elems value.["routeScope"].["hops"]) VUndef.

Definition validate_blindForwardHopOpenV1 (value : val) : result unit :=
  let route := value.["route"] in
  validateForwardTuple value ;;!
  fail_if (js_lt route.["routeKind"] (VNum 2) || js_lt (VNum 5) route.["routeKind"]) ;;!
  fail_if (js_and (num route.["wireClassBits"]) (js_shl 1 (num value.["requestedWireClass"])) =? 0) ;;!
  let! maxCircuitBytes := bigint value.["maxCircuitBytes"] in
  let! routeMaxCircuitBytes := bigint route.["maxCircuitBytes"] in
  fail_if (routeMaxCircuitBytes <? maxCircuitBytes) ;;!
  let! scopeSequence := bigint (lastHop value).["descriptorSequence"] in
  let! previousSequence := bigint value.["previousDescriptorSequence"] in
  fail_if (negb (bytes_eqb (raw (lastHop value).["relayPublicKey"]) (raw route.["previousRelayKey"]))
           || negb (scopeSequence =? previousSequence)
           || negb (bytes_eqb (raw (lastHop value).["descriptorHash"]) (raw value.["previousDescriptorHash"]))) ;;!
  fail_if (js_lt route.["maxRelayCount"] (VNum (Z.of_nat (List.length (elems value.["routeScope"].["hops"]))))).

Definition blindForwardHopOpenV1 : encoding := struct [
  ("version", version1);
  ("route", blindTransportRouteV1);
  ("routeScope", blindForwardRouteScopeV1);
  ("previousDescriptorSequence", u64be);
  ("previousDescriptorHash", bytes32);
  ("circuitNonce", bytes32);
  ("requestedWireClass", wireClass);
  ("circuitClass", circuitClass);
  ("grantedInitialWindow", u32be);
  ("maxDataBytes", u32be);
  ("maxCircuitBytes", u64be);
  ("idleMillis", u32be);
  ("lifetimeMillis", u32be);
  ("clientRequestCommitment", bytes32);
  ("handshakeFlight1", bytes32);
  ("forwarderSignature", bytes64)
] (Some validate_blindForwardHopOpenV1).

Definition blindForwardHopOpenV1_type : jstype := TObj [
  ("version", TConst 1); ("route", blindTransportRouteV1_type); 
  ("routeScope", blindForwardRouteScopeV1_type); ("previousDescriptorSequence", TBig); 
  ("previousDescriptorHash", TBytes); ("circuitNonce", TBytes); ("requestedWireClass", TNum); 
  ("circuitClass", TNum); ("grantedInitialWindow", TNum); ("maxDataBytes", TNum); 
  ("maxCircuitBytes", TBig); ("idleMillis", TNum); ("lifetimeMillis", TNum); 
  ("clientRequestCommitment", TBytes); ("handshakeFlight1", TBytes); ("forwarderSignature", TBytes)].

#[export] Instance blindForwardHopOpenV1_lawful : Lawful blindForwardHopOpenV1 [] blindForwardHopOpenV1_type.
Proof. lawful. Qed.

Definition validate_blindForwardHopAcceptV1 (value : val) : result unit :=
  let binding := value.["nextRelayBinding"] in
  validateForwardTuple value ;;!
  let! nextStreamId := bigint value.["nextStreamId"] in
  fail_if (nextStreamId =? 0) ;;!
  let! nextDescriptorSequence := bigint value.["nextDescriptorSequence"] in
  let! boundSequence := bigint binding.["descriptorSequence"] in
  fail_if (negb (bytes_eqb (raw value.["nextRelayKey"]) (raw binding.["relayPublicKey"]))
           || negb (nextDescriptorSequence =? boundSequence)
           || negb (bytes_eqb (raw value.["nextDescriptorHash"]) (raw binding.["descriptorHash"]))).

Definition blindForwardHopAcceptV1 : encoding := struct [
  ("version", version1);
  ("previousRelayKey", bytes32);
  ("previousDescriptorSequence", u64be);
  ("previousDescriptorHash", bytes32);
  ("nextRelayKey", bytes32);
  ("nextDescriptorSequence", u64be);
  ("nextDescriptorHash", bytes32);
  ("nextRelayBinding", relayResultBindingV1);
  ("routeId", bytes16);
  ("circuitNonce", bytes32);
  ("nextStreamId", u64be);
  ("grantedWireClass", wireClass);
  ("circuitClass", circuitClass);
  ("grantedInitialWindow", u32be);
  ("maxDataBytes", u32be);
  ("maxCircuitBytes", u64be);
  ("idleMillis", u32be);
  ("lifetimeMillis", u32be);
  ("openedAtEpoch", u32be);
  ("hopOpenCommitment", bytes32);
  ("acceptedRouteScopeHash", bytes32);
  ("acceptedRelayCount", ranged u8 1 4);
  ("handshakeFlight2", bytes96);
  ("nextSignature", bytes64)
] (Some validate_blindForwardHopAcceptV1).

Definition blindForwardHopAcceptV1_type : jstype := TObj [
  ("version", TConst 1); ("previousRelayKey", TBytes); ("previousDescriptorSequence", TBig); 
  ("previousDescriptorHash", TBytes); ("nextRelayKey", TBytes); ("nextDescriptorSequence", TBig); 
  ("nextDescriptorHash", TBytes); ("nextRelayBinding", relayResultBindingV1_type); 
  ("routeId", TBytes); ("circuitNonce", TBytes); ("nextStreamId", TBig); 
  ("grantedWireClass", TNum); ("circuitClass", TNum); ("grantedInitialWindow", TNum); 
  ("maxDataBytes", TNum); ("maxCircuitBytes", TBig); ("idleMillis", TNum); 
  ("lifetimeMillis", TNum); ("openedAtEpoch", TNum); ("hopOpenCommitment", TBytes); 
  ("acceptedRouteScopeHash", TBytes); ("acceptedRelayCount", TNum); ("handshakeFlight2", TBytes); 
  ("nextSignature", TBytes)].

#[export] Instance blindForwardHopAcceptV1_lawful : Lawful blindForwardHopAcceptV1 [] blindForwardHopAcceptV1_type.
Proof. lawful. Qed.

(** *** Core operations *)

Definition validate_coreOpenReplicationV1 (value : val) : result unit :=
  let! controlChannelId := bigint value.["controlChannelId"] in
  fail_if (controlChannelId =? 0) ;;!
  fail_if (isAllZero (raw value.["parentChannelBinding"])).

Definition coreOpenReplicationV1 : encoding := struct [
  ("version", version1);
  ("wireProfileHash", bytes32);
  ("sessionClass", sessionClass);
  ("controlChannelId", u64be);
  ("parentChannelBinding", bytes32);
  ("clientNonce", bytes32);
  ("admission", admissionV1)
] (Some validate_coreOpenReplicationV1).

Definition coreOpenReplicationV1_type : jstype := TObj [
  ("version", TConst 1); ("wireProfileHash", TBytes); ("sessionClass", TNum); 
  ("controlChannelId", TBig); ("parentChannelBinding", TBytes); ("clientNonce", TBytes); 
  ("admission", admissionV1_type)].

#[export] Instance coreOpenReplicationV1_lawful : Lawful coreOpenReplicationV1 [] coreOpenReplicationV1_type.
Proof. lawful. Qed.

Definition validate_coreOpenReplicationResultV1 (value : val) : result unit :=
  validateCoreTuple value ;;!
  let! controlChannelId := bigint value.["controlChannelId"] in
  fail_if (controlChannelId =? 0) ;;!
  let! streamId := bigint value.["streamId"] in
  fail_if (streamId =? 0) ;;!
  fail_if (isAllZero (raw value.["parentChannelBinding"])).

Definition coreOpenReplicationResultV1 : encoding := struct [
  ("version", version1);
  ("relayBinding", relayResultBindingV1);
  ("wireProfileHash", bytes32);
  ("sessionClass", sessionClass);
  ("controlChannelId", u64be);
  ("parentChannelBinding", bytes32);
  ("streamId", u64be);
  ("maxSessionBytes", u64be);
  ("idleMillis", u32be);
  ("lifetimeMillis", u32be);
  ("openedAtEpoch", u32be);
  ("requestNonce", bytes32);
  ("requestCommitment", bytes32);
  ("signature", bytes64)
] (Some validate_coreOpenReplicationResultV1).

Definition coreOpenReplicationResultV1_type : jstype := TObj [
  ("version", TConst 1); ("relayBinding", relayResultBindingV1_type); ("wireProfileHash", TBytes); 
  ("sessionClass", TNum); ("controlChannelId", TBig); ("parentChannelBinding", TBytes); 
  ("streamId", TBig); ("maxSessionBytes", TBig); ("idleMillis", TNum); ("lifetimeMillis", TNum); 
  ("openedAtEpoch", TNum); ("requestNonce", TBytes); ("requestCommitment", TBytes); 
  ("signature", TBytes)].

#[export] Instance coreOpenReplicationResultV1_lawful : Lawful coreOpenReplicationResultV1 [] coreOpenReplicationResultV1_type.
Proof. lawful. Qed.

Definition validate_blindCoreAckV1 (value : val) : result unit :=
  assertNonzeroBytes value.["corePublicKey"] ;;!
  assertNonzeroBytes value.["signedHeadHash"].

Definition blindCoreAckV1 : encoding := struct [
  ("version", version1);
  ("relayBinding", relayResultBindingV1);
  ("corePublicKey", bytes32);
  ("fork", u64be);
  ("length", u64be);
  ("signedHeadHash", bytes32);
  ("observedAtEpoch", u32be);
  ("leaseEpoch", u32be);
  ("result", ranged u8 CORE_ACK_RESULT_MIRROR_ACCEPTED CORE_ACK_RESULT_RECENTLY_SERVED);
  ("requestNonce", bytes32);
  ("requestCommitment", bytes32);
  ("signature", bytes64)
] (Some validate_blindCoreAckV1).

Definition blindCoreAckV1_type : jstype := TObj [
  ("version", TConst 1); ("relayBinding", relayResultBindingV1_type); ("corePublicKey", TBytes); 
  ("fork", TBig); ("length", TBig); ("signedHeadHash", TBytes); ("observedAtEpoch", TNum); 
  ("leaseEpoch", TNum); ("result", TNum); ("requestNonce", TBytes); ("requestCommitment", TBytes); 
  ("signature", TBytes)].

#[export] Instance blindCoreAckV1_lawful : Lawful blindCoreAckV1 [] blindCoreAckV1_type.
Proof. lawful. Qed.

Definition validate_coreMirrorRequestV1 (value : val) : result unit :=
  assertNonzeroBytes value.["corePublicKey"] ;;!
  assertNonzeroBytes value.["signedHeadHash"] ;;!
  let! length := bigint value.["length"] in
  fail_if (length =? 0).

Definition coreMirrorRequestV1 : encoding := struct [
  ("version", version1);
  ("corePublicKey", bytes32);
  ("fork", u64be);
  ("length", u64be);
  ("signedHeadHash", bytes32);
  ("leaseClass", leaseClass);
  ("clientNonce", bytes32);
  ("admission", admissionV1)
] (Some validate_coreMirrorRequestV1).

Definition coreMirrorRequestV1_type : jstype := TObj [
  ("version", TConst 1); ("corePublicKey", TBytes); ("fork", TBig); ("length", TBig); 
  ("signedHeadHash", TBytes); ("leaseClass", TNum); ("clientNonce", TBytes); 
  ("admission", admissionV1_type)].

#[export] Instance coreMirrorRequestV1_lawful : Lawful coreMirrorRequestV1 [] coreMirrorRequestV1_type.
Proof. lawful. Qed.

Definition coreBlockIndicesV1 : encoding := arrayOf u64be 1 16.

(** [(a, b) => compareScalar(bigint(a), bigint(b))] *)
Definition compare_indices (a b : val) : result Z :=
  let! a := bigint a in
  let! b := bigint b in
  Ok (compareScalar (VBig a) (VBig b)).

Definition validate_coreServeChallengeV1 (value : val) : result unit :=
  assertNonzeroBytes value.["corePublicKey"] ;;!
  assertNonzeroBytes value.["signedHeadHash"] ;;!
  let! length := bigint value.["length"] in
  fail_if (length =? 0) ;;!
  assertStrictlySorted (elems value.["blockIndices"]) compare_indices ;;!
  for_each (fun index => let! index := bigint index in fail_if (length <=? index))
    (elems value.["blockIndices"]).

Definition coreServeChallengeV1 : encoding := struct [
  ("version", version1);
  ("corePublicKey", bytes32);
  ("fork", u64be);
  ("length", u64be);
  ("signedHeadHash", bytes32);
  ("blockIndices", coreBlockIndicesV1);
  ("clientNonce", bytes32);
  ("admission", optional admissionV1)
] (Some validate_coreServeChallengeV1).

Definition coreServeChallengeV1_type : jstype := TObj [
  ("version", TConst 1); ("corePublicKey", TBytes); ("fork", TBig); ("length", TBig); 
  ("signedHeadHash", TBytes); ("blockIndices", TArr TBig); ("clientNonce", TBytes); 
  ("admission", TOpt admissionV1_type)].

#[export] Instance coreServeChallengeV1_lawful : Lawful coreServeChallengeV1 [] coreServeChallengeV1_type.
Proof. lawful. Qed.

Definition validate_coreServeResultBaseV1 (value : val) : result unit :=
  fail_if (negb (is_num value.["acknowledgement"].["result"] CORE_ACK_RESULT_RECENTLY_SERVED)).

Definition coreServeResultBaseV1 : encoding := struct [
  ("version", version1);
  ("acknowledgement", blindCoreAckV1);
  ("proofsAndBlocks", boundedBytes 1 (4 * MiB - 256))
] (Some validate_coreServeResultBaseV1).

Definition coreServeResultBaseV1_type : jstype := TObj [
  ("version", TConst 1); ("acknowledgement", blindCoreAckV1_type); ("proofsAndBlocks", TBytes)].

#[export] Instance coreServeResultBaseV1_lawful : Lawful coreServeResultBaseV1 [] coreServeResultBaseV1_type.
Proof. lawful. Qed.

Definition coreServeResultV1 : encoding := cappedEncoding coreServeResultBaseV1 (4 * MiB).
#[export] Instance coreServeResultV1_lawful : Lawful coreServeResultV1 [] coreServeResultBaseV1_type.
Proof. unfold coreServeResultV1. apply _. Qed.

(** *** Forward operations *)

Definition validate_blindForwardOpenV1 (value : val) : result unit :=
  assertNonzeroBytes value.["routeId"] ;;!
  assertNonzeroBytes value.["nextDescriptorHash"] ;;!
  assertNonzeroBytes value.["circuitNonce"].

Definition blindForwardOpenV1 : encoding := struct [
  ("version", version1);
  ("routeId", bytes16);
  ("nextDescriptorSequence", u64be);
  ("nextDescriptorHash", bytes32);
  ("requestedWireClass", wireClass);
  ("circuitClass", circuitClass);
  ("circuitNonce", bytes32);
  ("parentRouteScopeHash", bytes32);
  ("hopAdmission", admissionV1);
  ("innerHandshake", boundedBytes 32 32)
] (Some validate_blindForwardOpenV1).

Definition blindForwardOpenV1_type : jstype := TObj [
  ("version", TConst 1); ("routeId", TBytes); ("nextDescriptorSequence", TBig); 
  ("nextDescriptorHash", TBytes); ("requestedWireClass", TNum); ("circuitClass", TNum); 
  ("circuitNonce", TBytes); ("parentRouteScopeHash", TBytes); ("hopAdmission", admissionV1_type); 
  ("innerHandshake", TBytes)].

#[export] Instance blindForwardOpenV1_lawful : Lawful blindForwardOpenV1 [] blindForwardOpenV1_type.
Proof. lawful. Qed.

(** [!b4a.equals(value[f], next[g])], [value[f] !== next[f]], and the
    comparison of two u64 fields. *)
Definition differs (value next : val) (f g : string) : bool :=
  negb (bytes_eqb (raw value.[f]) (raw next.[g])).
Definition differs_scalar (value next : val) (f : string) : bool :=
  negb (strict_eqb value.[f] next.[f]).
Definition differs_u64 (value next : val) (f : string) : result bool :=
  let! a := bigint value.[f] in
  let! b := bigint next.[f] in
  Ok (negb (a =? b)).

Definition validate_blindForwardOpenResultV1 (value : val) : result unit :=
  validateForwardTuple value ;;!
  let! streamId := bigint value.["streamId"] in
  fail_if (streamId =? 0) ;;!
  assertNonzeroFields value ["routeId"; "nextDescriptorHash"; "circuitNonce"; "requestCommitment"] ;;!
  let next := value.["nextHopAccept"] in
  let! otherSequence := differs_u64 value next "nextDescriptorSequence" in
  let! otherCircuitBytes := differs_u64 value next "maxCircuitBytes" in
  fail_if (differs value.["relayBinding"] next "relayPublicKey" "previousRelayKey"
           || differs value next "routeId" "routeId"
           || differs value next "nextDescriptorHash" "nextDescriptorHash"
           || differs value next "circuitNonce" "circuitNonce"
           || otherSequence
           || differs_scalar value next "grantedWireClass" || differs_scalar value next "circuitClass"
           || differs_scalar value next "grantedInitialWindow" || differs_scalar value next "maxDataBytes"
           || otherCircuitBytes
           || differs_scalar value next "idleMillis" || differs_scalar value next "lifetimeMillis"
           || differs_scalar value next "openedAtEpoch"
           || differs value next "acceptedRouteScopeHash" "acceptedRouteScopeHash"
           || differs_scalar value next "acceptedRelayCount").

Definition blindForwardOpenResultV1 : encoding := struct [
  ("version", version1);
  ("relayBinding", relayResultBindingV1);
  ("routeId", bytes16);
  ("nextDescriptorSequence", u64be);
  ("nextDescriptorHash", bytes32);
  ("circuitNonce", bytes32);
  ("grantedWireClass", wireClass);
  ("circuitClass", circuitClass);
  ("streamId", u64be);
  ("grantedInitialWindow", u32be);
  ("maxDataBytes", u32be);
  ("maxCircuitBytes", u64be);
  ("idleMillis", u32be);
  ("lifetimeMillis", u32be);
  ("openedAtEpoch", u32be);
  ("requestCommitment", bytes32);
  ("acceptedRouteScopeHash", bytes32);
  ("acceptedRelayCount", ranged u8 1 4);
  ("nextHopAccept", blindForwardHopAcceptV1);
  ("signature", bytes64)
] (Some validate_blindForwardOpenResultV1).

Definition blindForwardOpenResultV1_type : jstype := TObj [
  ("version", TConst 1); ("relayBinding", relayResultBindingV1_type); ("routeId", TBytes); 
  ("nextDescriptorSequence", TBig); ("nextDescriptorHash", TBytes); ("circuitNonce", TBytes); 
  ("grantedWireClass", TNum); ("circuitClass", TNum); ("streamId", TBig); 
  ("grantedInitialWindow", TNum); ("maxDataBytes", TNum); ("maxCircuitBytes", TBig); 
  ("idleMillis", TNum); ("lifetimeMillis", TNum); ("openedAtEpoch", TNum); 
  ("requestCommitment", TBytes); ("acceptedRouteScopeHash", TBytes); ("acceptedRelayCount", TNum); 
  ("nextHopAccept", blindForwardHopAcceptV1_type); ("signature", TBytes)].

#[export] Instance blindForwardOpenResultV1_lawful : Lawful blindForwardOpenResultV1 [] blindForwardOpenResultV1_type.
Proof. lawful. Qed.

Definition validate_blindForwardDataV1 (value : val) : result unit :=
  assertNonzeroBytes value.["circuitNonce"].

Definition blindForwardDataV1 : encoding := struct [
  ("version", version1);
  ("circuitNonce", bytes32);
  ("offset", u64be);
  ("bytes", boundedBytes 1 DISPATCH_LIMITS_MAX_FORWARD_DATA_BYTES)
] (Some validate_blindForwardDataV1).

Definition blindForwardDataV1_type : jstype := TObj [
  ("version", TConst 1); ("circuitNonce", TBytes); ("offset", TBig); ("bytes", TBytes)].

#[export] Instance blindForwardDataV1_lawful : Lawful blindForwardDataV1 [] blindForwardDataV1_type.
Proof. lawful. Qed.

Definition validate_blindForwardWindowV1 (value : val) : result unit :=
  assertNonzeroBytes value.["circuitNonce"].

Definition blindForwardWindowV1 : encoding := struct [
  ("version", version1);
  ("circuitNonce", bytes32);
  ("consumedThrough", u64be);
  ("creditIncrement", ranged u32be 1 DISPATCH_LIMITS_MAX_FORWARD_WINDOW_BYTES)
] (Some validate_blindForwardWindowV1).

Definition blindForwardWindowV1_type : jstype := TObj [
  ("version", TConst 1); ("circuitNonce", TBytes); ("consumedThrough", TBig); 
  ("creditIncrement", TNum)].

#[export] Instance blindForwardWindowV1_lawful : Lawful blindForwardWindowV1 [] blindForwardWindowV1_type.
Proof. lawful. Qed.

Definition validate_blindForwardCloseV1 (value : val) : result unit :=
  assertNonzeroBytes value.["circuitNonce"].

Definition blindForwardCloseV1 : encoding := struct [
  ("version", version1);
  ("circuitNonce", bytes32);
  ("closeKind", ranged u8 FORWARD_CLOSE_KIND_FIN FORWARD_CLOSE_KIND_ABORT);
  ("finalSendOffset", u64be);
  ("reasonCode", u8)
] (Some validate_blindForwardCloseV1).

Definition blindForwardCloseV1_type : jstype := TObj [
  ("version", TConst 1); ("circuitNonce", TBytes); ("closeKind", TNum); ("finalSendOffset", TBig); 
  ("reasonCode", TNum)].

#[export] Instance blindForwardCloseV1_lawful : Lawful blindForwardCloseV1 [] blindForwardCloseV1_type.
Proof. lawful. Qed.

(** *** Stream chunks

    The plaintext of a chunk has the length of its wire class: the content is
    followed by padding. *)

Record chunk_lengths := ChunkLengths { plaintextLength : Z; paddingLength : Z }.

Definition streamChunkLengths (wireClassValue contentLength : val) : result chunk_lengths :=
  match table_get STREAM_WIRE_CLASS wireClassValue with
  | Some ciphertextLength =>
      match contentLength with
      | VNum n =>
          fail_if (negb (isSafeInteger n) || (n <? 0)) ;;!
          let plaintextLength := ciphertextLength - 16 in
          let paddingLength := plaintextLength - 7 - n in
          fail_if (paddingLength <? 0) ;;!
          Ok (ChunkLengths plaintextLength paddingLength)
      | _ => Err BAD_ENCODING
      end
  | None => Err BAD_ENCODING
  end.

Definition validateStreamChunkPlain (value : val) : result chunk_lengths :=
  fail_if (negb (is_object value)) ;;!
  fail_if (negb (is_num value.["flags"] 0) && negb (is_num value.["flags"] 1)) ;;!
  let! lengths := streamChunkLengths value.["wireClass"] value.["contentLength"] in
  let! _ := preencode (fixedBytes (num value.["contentLength"])) (St 0 0 []) value.["content"] VUndef in
  let! _ := preencode (fixedBytes (paddingLength lengths)) (St 0 0 []) value.["randomPadding"] VUndef in
  Ok lengths.

Definition blindStreamChunkPlainV1 : encoding := {|
  preencode s value _ :=
    let! lengths := validateStreamChunkPlain value in
    let! s := preencode version1 s value.["version"] VUndef in
    let! s := preencode wireClass s value.["wireClass"] VUndef in
    let! s := preencode u8 s value.["flags"] VUndef in
    let! s := preencode u32be s value.["contentLength"] VUndef in
    let! s := preencode (fixedBytes (num value.["contentLength"])) s value.["content"] VUndef in
    preencode (fixedBytes (plaintextLength lengths - 7 - num value.["contentLength"])) s
      value.["randomPadding"] VUndef;
  encode s value _ :=
    let! lengths := validateStreamChunkPlain value in
    let! s := encode version1 s value.["version"] VUndef in
    let! s := encode wireClass s value.["wireClass"] VUndef in
    let! s := encode u8 s value.["flags"] VUndef in
    let! s := encode u32be s value.["contentLength"] VUndef in
    let! s := encode (fixedBytes (num value.["contentLength"])) s value.["content"] VUndef in
    encode (fixedBytes (paddingLength lengths)) s value.["randomPadding"] VUndef;
  decode s _ :=
    let! (version, s) := decode version1 s VUndef in
    let! (wireClass, s) := decode wireClass s VUndef in
    let! (flags, s) := decode u8 s VUndef in
    let! (contentLength, s) := decode u32be s VUndef in
    let! lengths := streamChunkLengths wireClass contentLength in
    let! (content, s) := decode (fixedBytes (num contentLength)) s VUndef in
    let! (randomPadding, s) := decode (fixedBytes (paddingLength lengths)) s VUndef in
    let value := VObj [("version", version); ("wireClass", wireClass); ("flags", flags);
                       ("contentLength", contentLength); ("content", content);
                       ("randomPadding", randomPadding)] in
    let! _ := validateStreamChunkPlain value in
    Ok (value, s)
|}.

Definition blindStreamChunkPlainV1_type : jstype := TObj [
  ("version", TConst 1); ("wireClass", TNum); ("flags", TNum); ("contentLength", TNum);
  ("content", TBytes); ("randomPadding", TBytes)].

(** The chunk is a struct whose last two lengths depend on its header. *)
Definition chunk_fields (n pad : Z) : fields := [
  ("version", version1); ("wireClass", wireClass); ("flags", u8); ("contentLength", u32be);
  ("content", fixedBytes n); ("randomPadding", fixedBytes pad)].

Lemma chunk_fields_lawful n pad : n <= MAX_SAFE_INTEGER -> pad <= MAX_SAFE_INTEGER ->
  FieldsLawful [] (chunk_fields n pad) [("version", TConst 1); ("wireClass", TNum); ("flags", TNum);
    ("contentLength", TNum); ("content", TBytes); ("randomPadding", TBytes)].
Proof.
  intros Hn Hp. pose proof (fixedBytes_lawful n Hn). pose proof (fixedBytes_lawful pad Hp).
  unfold chunk_fields, version1, wireClass. apply _.
Qed.

Lemma bindR_ret {A} (m : result A) : bindR m (fun x => Ok x) = m.
Proof. by destruct m. Qed.

(** Both sides run the same steps; the right one ends with a final [Ok]. *)
Ltac same_steps :=
  unfold chunk_fields; cbn [struct_fields];
  repeat match goal with
  | |- bindR ?m _ = bindR ?m' _ => change m' with m; destruct m; cbn [bindR]; [|done]
  end; try (symmetry; apply bindR_ret).

Lemma streamChunkLengths_ok w c L : streamChunkLengths w c = Ok L ->
  exists size n, table_get STREAM_WIRE_CLASS w = Some size /\ c = VNum n /\
    0 <= n <= MAX_SAFE_INTEGER /\ plaintextLength L = size - 16 /\
    paddingLength L = size - 23 - n /\ 0 <= paddingLength L.
Proof.
  unfold streamChunkLengths. destruct (table_get _ _) as [size|]; [|done].
  destruct c as [| |n| | | | | | |]; try discriminate. unfold isSafeInteger, fail_if. intros Hq.
  oks. b2p. exists size, n. simpl. split_and!; try done; lia.
Qed.

Lemma wire_class_size w size : table_get STREAM_WIRE_CLASS w = Some size -> 0 <= size <= 262144.
Proof.
  unfold table_get. assert (H : forall p, snd <$> find p STREAM_WIRE_CLASS = Some size -> 0 <= size <= 262144).
  { intros p Hf. destruct (find p STREAM_WIRE_CLASS) as [e|] eqn:E; [|done]. apply find_some in E as [E _].
    injection Hf as <-. repeat (destruct E as [<-|E]; [simpl; lia|]). done. }
  destruct w; try discriminate; apply H.
Qed.

Lemma validate_chunk_ok v L : validateStreamChunkPlain v = Ok L ->
  is_object v = true /\ streamChunkLengths v.["wireClass"] v.["contentLength"] = Ok L /\
  paddingLength L = plaintextLength L - 7 - num v.["contentLength"] /\
  num v.["contentLength"] <= MAX_SAFE_INTEGER /\ paddingLength L <= MAX_SAFE_INTEGER.
Proof.
  unfold validateStreamChunkPlain. intros Hq. apply bindR_ok in Hq as (? & Ho & Hq).
  apply fail_if_ok, negb_false_iff in Ho. apply bindR_ok in Hq as (? & _ & Hq).
  apply bindR_ok in Hq as (L' & HL & Hq). apply bindR_ok in Hq as (? & _ & Hq).
  apply bindR_ok in Hq as (? & _ & Hq). injection Hq as ->.
  destruct (streamChunkLengths_ok _ _ _ HL) as (size & n & Hs & Hc & Hn & Hp & Hd & H0).
  apply wire_class_size in Hs. rewrite Hc in *. simpl.
  split_and!; try done; try lia. unfold MAX_SAFE_INTEGER in *. lia.
Qed.

Lemma chunk_emits v L p bs : validateStreamChunkPlain v = Ok L ->
  emits_fields v (chunk_fields (num v.["contentLength"]) (paddingLength L)) bs ->
  emits blindStreamChunkPlainV1 v p bs.
Proof.
  intros Hv He. pose proof (emits_fields_sizes _ _ _ He) as Hs. pose proof (emits_fields_writes _ _ _ He) as Hw.
  destruct (validate_chunk_ok _ _ Hv) as (_ & _ & Hp & _).
  split; intros s; cbn [preencode encode blindStreamChunkPlainV1]; rewrite Hv; cbn [bindR].
  - rewrite <- Hp, <- Hs. same_steps.
  - intros Hwf Hl. rewrite <- (Hw s Hwf Hl). same_steps.
Qed.

Lemma chunk_inv s v p s' : preencode blindStreamChunkPlainV1 s v p = Ok s' ->
  exists L bs, validateStreamChunkPlain v = Ok L /\
    emits_fields v (chunk_fields (num v.["contentLength"]) (paddingLength L)) bs.
Proof.
  cbn [preencode blindStreamChunkPlainV1]. intros Hq. apply bindR_ok in Hq as (L & Hv & Hq).
  destruct (validate_chunk_ok _ _ Hv) as (_ & _ & Hp & Hn & Hm).
  exists L. rewrite <- Hp in Hq.
  assert (Hf : struct_fields preencode (chunk_fields (num v.["contentLength"]) (paddingLength L)) s v = Ok s').
  { rewrite <- Hq. symmetry. same_steps. }
  apply (struct_fields_emits _ _ _ _ _ _ (chunk_fields_lawful _ _ Hn Hm)) in Hf as [bs He]. eauto.
Qed.

Lemma chunk_decode_inv s p v s' : decode blindStreamChunkPlainV1 s p = Ok (v, s') ->
  exists vs L, v = VObj vs /\ validateStreamChunkPlain v = Ok L /\
    struct_decode (chunk_fields (num v.["contentLength"]) (paddingLength L)) s [] = Ok (vs, s').
Proof.
  cbn [decode blindStreamChunkPlainV1]. intros Hq.
  apply bindR_ok in Hq as ([v1 s1] & H1 & Hq). apply bindR_ok in Hq as ([v2 s2] & H2 & Hq).
  apply bindR_ok in Hq as ([v3 s3] & H3 & Hq). apply bindR_ok in Hq as ([v4 s4] & H4 & Hq).
  apply bindR_ok in Hq as (L & HL & Hq).
  apply bindR_ok in Hq as ([v5 s5] & H5 & Hq). apply bindR_ok in Hq as ([v6 s6] & H6 & Hq).
  apply bindR_ok in Hq as (L' & HL' & Hq). injection Hq as <- <-. eexists _, L'. split; [done|].
  split; [done|]. destruct (validate_chunk_ok _ _ HL') as (_ & HL'' & _). cbn in HL''.
  rewrite HL in HL''. injection HL'' as <-.
  unfold chunk_fields. cbn [struct_decode].
  change (decode version1 s (VObj [])) with (decode version1 s VUndef). rewrite H1. cbn [bindR].
  change (decode wireClass s1 ?p) with (decode wireClass s1 VUndef). rewrite H2. cbn [bindR].
  change (decode u8 s2 ?p) with (decode u8 s2 VUndef). rewrite H3. cbn [bindR].
  change (decode u32be s3 ?p) with (decode u32be s3 VUndef). rewrite H4. cbn [bindR].
  change (decode (fixedBytes ?n) s4 ?p) with (decode (fixedBytes n) s4 VUndef). cbn [get assoc String.eqb Ascii.eqb Bool.eqb].
  rewrite H5. cbn [bindR].
  change (decode (fixedBytes ?n) s5 ?p) with (decode (fixedBytes n) s5 VUndef). by rewrite H6.
Qed.

Lemma chunk_decode s p v vs L s' : v = VObj vs -> validateStreamChunkPlain v = Ok L ->
  struct_decode (chunk_fields (num v.["contentLength"]) (paddingLength L)) s [] = Ok (vs, s') ->
  decode blindStreamChunkPlainV1 s p = Ok (v, s').
Proof.
  intros -> HL. cbn [decode blindStreamChunkPlainV1]. unfold chunk_fields at 1. cbn [struct_decode]. intros Hq.
  apply bindR_ok in Hq as ([v1 s1] & H1 & Hq). apply bindR_ok in Hq as ([v2 s2] & H2 & Hq).
  apply bindR_ok in Hq as ([v3 s3] & H3 & Hq). apply bindR_ok in Hq as ([v4 s4] & H4 & Hq).
  apply bindR_ok in Hq as ([v5 s5] & H5 & Hq). apply bindR_ok in Hq as ([v6 s6] & H6 & Hq).
  injection Hq as <- <-.
  change (decode version1 s VUndef) with (decode version1 s (VObj [])). rewrite H1. cbn [bindR].
  match type of H2 with decode _ _ ?q = _ => change (decode wireClass s1 VUndef) with (decode wireClass s1 q) end.
  rewrite H2. cbn [bindR].
  match type of H3 with decode _ _ ?q = _ => change (decode u8 s2 VUndef) with (decode u8 s2 q) end.
  rewrite H3. cbn [bindR].
  match type of H4 with decode _ _ ?q = _ => change (decode u32be s3 VUndef) with (decode u32be s3 q) end.
  rewrite H4. cbn [bindR].
  destruct (validate_chunk_ok _ _ HL) as (_ & HL' & _). cbn in HL'. rewrite HL'. cbn [bindR].
  match type of H5 with decode ?e _ ?q = _ => change (decode (fixedBytes (num v4)) s4 VUndef) with (decode e s4 q) end.
  rewrite H5. cbn [bindR].
  match type of H6 with decode ?e _ ?q = _ => change (decode (fixedBytes (paddingLength L)) s5 VUndef) with (decode e s5 q) end.
  rewrite H6. cbn [bindR].
  change (obj_set _ _ _) with [("version", v1); ("wireClass", v2); ("flags", v3); ("contentLength", v4);
    ("content", v5); ("randomPadding", v6)] in HL. by rewrite HL.
Qed.

#[export] Instance blindStreamChunkPlainV1_lawful :
  Lawful blindStreamChunkPlainV1 [] blindStreamChunkPlainV1_type.
Proof.
  assert (Hnil : defines [] []) by (intros n; simpl; naive_solver). split.
  - intros s v p s' Hq. apply chunk_inv in Hq as (L & bs & Hv & He). eauto using chunk_emits.
  - intros s p v s' Hwf Hq. apply chunk_decode_inv in Hq as (vs & L & -> & Hv & Hd).
    destruct (validate_chunk_ok _ _ Hv) as (_ & _ & _ & Hn & Hm).
    apply (struct_decode_sound _ _ _ (chunk_fields_lawful _ _ Hn Hm)) in Hd
      as (new & bs & -> & Ht & Hc & -> & He); auto.
    split; [done|]. exists bs. split; [done|]. split; [done|]. intros p' _. eauto using chunk_emits.
  - intros v p p' bs Ht He _ s Hwf Hcur. pose proof (proj1 He (St 0 0 [])) as Hp.
    apply chunk_inv in Hp as (L & b & Hv & Hb).
    rewrite (emits_fun _ _ _ _ _ He (chunk_emits _ _ p _ Hv Hb)) in *.
    destruct v as [| | | | | |vs| | |]; try discriminate.
    destruct (validate_chunk_ok _ _ Hv) as (_ & _ & _ & Hn & Hm).
    apply (chunk_decode _ _ _ vs L); [done..|].
    apply (struct_decode_complete _ _ _ (chunk_fields_lawful _ _ Hn Hm) [] vs b Hnil Ht Hb s Hwf Hcur).
Qed.
