(* ===== verification/SchemasDurability.v ===== *)
(** * Durability and backup schemas (packages/blind-protocol/durability-schemas.js)

    The records behind a relay's durability claims: the continuity binding,
    encrypted backups (manifest and chunk manifest), clean-restore evidence,
    retention transitions and the chain of restore-evidence heads. *)

From Stdlib Require Import ZArith Lia Bool List String Ascii.
From Stdlib Require Import Strings.Byte.
From stdpp Require Import base tactics list strings.
From S2P Require Import Prelude Codec CodecLaws Authority SchemaKit.

Module Durability.

(** [typeof value === 'number' ? BigInt(value) : value], within u64. *)
Definition asU64 (value : val) : result Z :=
  match value with
  | VNum n | VBig n => if (n <? 0) || (MAX_U64 <? n) then Err BAD_ENCODING else Ok n
  | _ => Err BAD_ENCODING
  end.

Definition isZero (value : bytes) : bool := forallb (fun b => b2z b =? 0) value.

Definition nonzero (value : val) : result unit := fail_if (isZero (raw value)).

(** [for (const field of [...]) nonzero(value[field], field)] *)
Definition nonzero_fields (value : val) (names : list string) : result unit :=
  for_each (fun field => nonzero value.[field]) names.

(** [capped] has the body of [cappedEncoding] in schemas.js. *)
Definition capped (encoding : encoding) (maximum : Z) : Codec.encoding := cappedEncoding encoding maximum.

Definition bytes24 : encoding := fixedBytes 24.

Definition validate_durabilityContinuityBindingV1 (value : val) : result unit :=
  let external := [value.["externalJournalId"]; value.["externalWitnessPublicKey"];
                   value.["externalJournalFailureGroupId"]] in
  if is_num value.["profileId"] 1 then
    fail_if (negb (is_num value.["externalJournalReplicationClass"] 0)
             || existsb (fun value => negb (isZero (raw value))) external
             || negb (isZero (raw value.["restoreEvidenceFeedId"])))
  else
    fail_if (negb (is_num value.["externalJournalReplicationClass"] 1)
             || existsb (fun value => isZero (raw value)) external).

Definition durabilityContinuityBindingV1 : encoding := struct [
  ("version", version1);
  ("profileId", ranged u8 1 2);
  ("externalJournalId", bytes32);
  ("externalWitnessPublicKey", bytes32);
  ("externalJournalReplicationClass", ranged u8 0 1);
  ("externalJournalFailureGroupId", bytes32);
  ("restoreEvidenceFeedId", bytes32)
] (Some validate_durabilityContinuityBindingV1).

Definition durabilityContinuityBindingV1_type : jstype := TObj [
  ("version", TConst 1); ("profileId", TNum); ("externalJournalId", TBytes); 
  ("externalWitnessPublicKey", TBytes); ("externalJournalReplicationClass", TNum); 
  ("externalJournalFailureGroupId", TBytes); ("restoreEvidenceFeedId", TBytes)].

#[export] Instance durabilityContinuityBindingV1_lawful : Lawful durabilityContinuityBindingV1 [] durabilityContinuityBindingV1_type.
Proof. lawful. Qed.

Definition validate_blindBackupEncryptionProfileV1 (value : val) : result unit :=
  nonzero value.["recoveryKeyId"].

Definition blindBackupEncryptionProfileV1 : encoding := struct [
  ("version", version1);
  ("algorithmId", constant u16be 1);
  ("keyDerivationId", constant u16be 1);
  ("recoveryKeyId", bytes32);
  ("keyEpoch", ranged u32be 1 0xffffffff)
] (Some validate_blindBackupEncryptionProfileV1).

Definition blindBackupEncryptionProfileV1_type : jstype := TObj [
  ("version", TConst 1); ("algorithmId", TConst 1); ("keyDerivationId", TConst 1); 
  ("recoveryKeyId", TBytes); ("keyEpoch", TNum)].

#[export] Instance blindBackupEncryptionProfileV1_lawful : Lawful blindBackupEncryptionProfileV1 [] blindBackupEncryptionProfileV1_type.
Proof. lawful. Qed.

(** [text.split('/')] *)
Fixpoint split_slash (current text : bytes) : list bytes :=
  match text with
  | [] => [rev current]
  | b :: rest =>
      if Byte.eqb b (ch "/") then rev current :: split_slash [] rest else split_slash (b :: current) rest
  end.

Definition forbidden_part (part : bytes) : bool :=
  bytes_eqb part [] || bytes_eqb part (ascii_bytes ".") || bytes_eqb part (ascii_bytes "..").

(** The test that a backup path is not portable. *)
Definition bad_path (path : bytes) : bool :=
  match path with b :: _ => Byte.eqb b (ch "/") | [] => false end
  || ends_with path (ascii_bytes "/") || includes path (ch "\")
  || existsb forbidden_part (split_slash [] path).

Section WithPlatform.
Context `{Platform}.

Definition validate_backupChunkEntryV1 (value : val) : result unit :=
  nonzero value.["chunkObjectId"] ;;!
  nonzero value.["chunkSalt"] ;;!
  nonzero value.["ciphertextHash"] ;;!
  fail_if (bad_path (raw value.["path"])).

Definition backupChunkEntryV1 : encoding := struct [
  ("path", canonicalAsciiBytes 1 512);
  ("fileOffset", u64be);
  ("plaintextByteLength", ranged u32be 1 (4 * MiB));
  ("ciphertextByteLength", ranged u32be 17 (4 * MiB + 16));
  ("chunkObjectId", bytes32);
  ("chunkSalt", bytes32);
  ("nonce", bytes24);
  ("ciphertextHash", bytes32)
] (Some validate_backupChunkEntryV1).

Definition backupChunkEntryV1_type : jstype := TObj [
  ("path", TBytes); ("fileOffset", TBig); ("plaintextByteLength", TNum); 
  ("ciphertextByteLength", TNum); ("chunkObjectId", TBytes); ("chunkSalt", TBytes); 
  ("nonce", TBytes); ("ciphertextHash", TBytes)].

#[export] Instance backupChunkEntryV1_lawful : Lawful backupChunkEntryV1 [] backupChunkEntryV1_type.
Proof. lawful. Qed.

(** The loop over [value.entries]: running totals and the order of neighbours
    ([previous] is [value.entries[index - 1]], None at index 0). *)
Fixpoint chunk_totals (previous : option val) (plaintext ciphertext : Z) (entries : list val)
    : result (Z * Z) :=
  match entries with
  | [] => Ok (plaintext, ciphertext)
  | entry :: rest =>
      let plaintext := plaintext + num entry.["plaintextByteLength"] in
      let ciphertext := ciphertext + num entry.["ciphertextByteLength"] in
      match previous with
      | None => Ok tt
      | Some previous =>
          let order := compareBytes (raw previous.["path"]) (raw entry.["path"]) in
          let! a := asU64 previous.["fileOffset"] in
          let! b := asU64 entry.["fileOffset"] in
          fail_if ((0 <? order) || ((order =? 0) && (b <=? a)))
      end ;;!
      chunk_totals (Some entry) plaintext ciphertext rest
  end.

Definition validate_blindBackupChunkManifestV1 (value : val) : result unit :=
  nonzero value.["backupId"] ;;!
  nonzero value.["encryptionManifestHash"] ;;!
  let! (plaintext, ciphertext) := chunk_totals None 0 0 (elems value.["entries"]) in
  let! totalPlaintext := asU64 value.["totalPlaintextByteLength"] in
  let! totalCiphertext := asU64 value.["totalCiphertextByteLength"] in
  fail_if (negb (plaintext =? totalPlaintext) || negb (ciphertext =? totalCiphertext)).

Definition blindBackupChunkManifestV1 : encoding := struct [
  ("version", version1);
  ("backupId", bytes32);
  ("encryptionProfile", blindBackupEncryptionProfileV1);
  ("encryptionManifestHash", bytes32);
  ("entries", arrayOf backupChunkEntryV1 1 0x1000000);
  ("totalPlaintextByteLength", u64be);
  ("totalCiphertextByteLength", u64be)
] (Some validate_blindBackupChunkManifestV1).

Definition blindBackupChunkManifestV1_type : jstype := TObj [
  ("version", TConst 1); ("backupId", TBytes); 
  ("encryptionProfile", blindBackupEncryptionProfileV1_type); ("encryptionManifestHash", TBytes); 
  ("entries", TArr backupChunkEntryV1_type); ("totalPlaintextByteLength", TBig); 
  ("totalCiphertextByteLength", TBig)].

#[export] Instance blindBackupChunkManifestV1_lawful : Lawful blindBackupChunkManifestV1 [] blindBackupChunkManifestV1_type.
Proof. lawful. Qed.

End WithPlatform.

Definition validate_blindBackupManifestV1 (value : val) : result unit :=
  nonzero_fields value ["relayPublicKey"; "storeId"; "externalJournalId"; "durabilityContinuityHash";
    "backupId"; "backupFailureGroupId"; "storeManifestHash"; "storeFormatHash"; "coveredWalHash";
    "externalFloorHash"; "externalCheckpointHash"; "baseFloorHash"; "controlSnapshotHash";
    "backupEncryptionProfileHash"; "encryptionManifestHash"; "chunkManifestHash"; "witnessPublicKey"] ;;!
  fail_if (xorb (nullish value.["restoreVerifierPublicKey"]) (nullish value.["cleanRestoreEvidenceHash"])) ;;!
  (if negb (nullish value.["restoreVerifierPublicKey"]) then
    nonzero value.["restoreVerifierPublicKey"] ;;! nonzero value.["cleanRestoreEvidenceHash"]
  else Ok tt) ;;!
  let! created := asU64 value.["createdExternalUnixMillis"] in
  let! supportExpires := asU64 value.["restoreSupportExpiresUnixMillis"] in
  fail_if (supportExpires <=? created).

Definition blindBackupManifestV1 : encoding := struct [
  ("version", version1);
  ("relayPublicKey", bytes32);
  ("storeId", bytes32);
  ("externalJournalId", bytes32);
  ("durabilityContinuityHash", bytes32);
  ("backupId", bytes32);
  ("backupFailureGroupId", bytes32);
  ("storeManifestRevision", u64be);
  ("storeManifestHash", bytes32);
  ("storeFormatHash", bytes32);
  ("coverageCutoffExternalUnixMillis", u64be);
  ("coveredWalSequence", u64be);
  ("coveredWalHash", bytes32);
  ("externalFloorRevision", u64be);
  ("externalFloorHash", bytes32);
  ("externalCheckpointRevision", u64be);
  ("externalCheckpointHash", bytes32);
  ("baseFloorRevision", u64be);
  ("baseFloorHash", bytes32);
  ("controlSnapshotHash", bytes32);
  ("backupEncryptionProfileHash", bytes32);
  ("encryptionManifestHash", bytes32);
  ("chunkManifestByteLength", u64be);
  ("chunkManifestHash", bytes32);
  ("totalPlaintextByteLength", u64be);
  ("totalCiphertextByteLength", u64be);
  ("restoreVerifierPublicKey", optional bytes32);
  ("cleanRestoreEvidenceHash", optional bytes32);
  ("createdExternalUnixMillis", u64be);
  ("restoreSupportExpiresUnixMillis", u64be);
  ("witnessPublicKey", bytes32);
  ("signature", bytes64)
] (Some validate_blindBackupManifestV1).

Definition blindBackupManifestV1_type : jstype := TObj [
  ("version", TConst 1); ("relayPublicKey", TBytes); ("storeId", TBytes); 
  ("externalJournalId", TBytes); ("durabilityContinuityHash", TBytes); ("backupId", TBytes); 
  ("backupFailureGroupId", TBytes); ("storeManifestRevision", TBig); ("storeManifestHash", TBytes); 
  ("storeFormatHash", TBytes); ("coverageCutoffExternalUnixMillis", TBig); 
  ("coveredWalSequence", TBig); ("coveredWalHash", TBytes); ("externalFloorRevision", TBig); 
  ("externalFloorHash", TBytes); ("externalCheckpointRevision", TBig); 
  ("externalCheckpointHash", TBytes); ("baseFloorRevision", TBig); ("baseFloorHash", TBytes); 
  ("controlSnapshotHash", TBytes); ("backupEncryptionProfileHash", TBytes); 
  ("encryptionManifestHash", TBytes); ("chunkManifestByteLength", TBig); 
  ("chunkManifestHash", TBytes); ("totalPlaintextByteLength", TBig); 
  ("totalCiphertextByteLength", TBig); ("restoreVerifierPublicKey", TOpt TBytes); 
  ("cleanRestoreEvidenceHash", TOpt TBytes); ("createdExternalUnixMillis", TBig); 
  ("restoreSupportExpiresUnixMillis", TBig); ("witnessPublicKey", TBytes); ("signature", TBytes)].

#[export] Instance blindBackupManifestV1_lawful : Lawful blindBackupManifestV1 [] blindBackupManifestV1_type.
Proof. lawful. Qed.

Definition validate_blindCleanRestoreEvidenceV1 (value : val) : result unit :=
  nonzero_fields value ["backupId"; "backupCandidateCommitment"; "restoredStoreManifestHash";
    "verifiedWalHash"; "verifiedExternalFloorHash"; "verifiedCheckpointHash"; "verifierPublicKey"] ;;!
  let! started := asU64 value.["startedExternalUnixMillis"] in
  let! completed := asU64 value.["completedExternalUnixMillis"] in
  fail_if (completed <=? started).

Definition blindCleanRestoreEvidenceV1 : encoding := struct [
  ("version", version1);
  ("backupId", bytes32);
  ("backupCandidateCommitment", bytes32);
  ("restoredStoreManifestHash", bytes32);
  ("verifiedWalSequence", u64be);
  ("verifiedWalHash", bytes32);
  ("verifiedExternalFloorRevision", u64be);
  ("verifiedExternalFloorHash", bytes32);
  ("verifiedCheckpointRevision", u64be);
  ("verifiedCheckpointHash", bytes32);
  ("scrubbedObjectCount", u64be);
  ("scrubFailureCount", constant u32be 0);
  ("startedExternalUnixMillis", u64be);
  ("completedExternalUnixMillis", u64be);
  ("verifierPublicKey", bytes32);
  ("signature", bytes64)
] (Some validate_blindCleanRestoreEvidenceV1).

Definition blindCleanRestoreEvidenceV1_type : jstype := TObj [
  ("version", TConst 1); ("backupId", TBytes); ("backupCandidateCommitment", TBytes); 
  ("restoredStoreManifestHash", TBytes); ("verifiedWalSequence", TBig); 
  ("verifiedWalHash", TBytes); ("verifiedExternalFloorRevision", TBig); 
  ("verifiedExternalFloorHash", TBytes); ("verifiedCheckpointRevision", TBig); 
  ("verifiedCheckpointHash", TBytes); ("scrubbedObjectCount", TBig); 
  ("scrubFailureCount", TConst 0); ("startedExternalUnixMillis", TBig); 
  ("completedExternalUnixMillis", TBig); ("verifierPublicKey", TBytes); ("signature", TBytes)].

#[export] Instance blindCleanRestoreEvidenceV1_lawful : Lawful blindCleanRestoreEvidenceV1 [] blindCleanRestoreEvidenceV1_type.
Proof. lawful. Qed.

Definition validate_blindBackupRetentionTransitionV1 (value : val) : result unit :=
  nonzero_fields value ["relayPublicKey"; "storeId"; "externalJournalId"; "durabilityContinuityHash";
    "backupId"; "backupManifestHash"; "witnessPublicKey"] ;;!
  let! revision := asU64 value.["transitionRevision"] in
  fail_if ((revision =? 0) || xorb (revision =? 1) (nullish value.["previousTransitionHash"])) ;;!
  (if negb (nullish value.["previousTransitionHash"]) then nonzero value.["previousTransitionHash"] else Ok tt) ;;!
  (if negb (nullish value.["replacementBackupId"]) then nonzero value.["replacementBackupId"] else Ok tt) ;;!
  fail_if (xorb (is_num value.["operation"] 3) (negb (nullish value.["replacementBackupId"]))).

Definition blindBackupRetentionTransitionV1 : encoding := struct [
  ("version", version1);
  ("relayPublicKey", bytes32);
  ("storeId", bytes32);
  ("externalJournalId", bytes32);
  ("durabilityContinuityHash", bytes32);
  ("backupId", bytes32);
  ("backupManifestHash", bytes32);
  ("transitionRevision", u64be);
  ("previousTransitionHash", optional bytes32);
  ("operation", ranged u8 1 3);
  ("supportExpiresUnixMillis", u64be);
  ("replacementBackupId", optional bytes32);
  ("effectiveExternalTimeFloorMillis", u64be);
  ("witnessPublicKey", bytes32);
  ("signature", bytes64)
] (Some validate_blindBackupRetentionTransitionV1).

Definition blindBackupRetentionTransitionV1_type : jstype := TObj [
  ("version", TConst 1); ("relayPublicKey", TBytes); ("storeId", TBytes); 
  ("externalJournalId", TBytes); ("durabilityContinuityHash", TBytes); ("backupId", TBytes); 
  ("backupManifestHash", TBytes); ("transitionRevision", TBig); 
  ("previousTransitionHash", TOpt TBytes); ("operation", TNum); ("supportExpiresUnixMillis", TBig); 
  ("replacementBackupId", TOpt TBytes); ("effectiveExternalTimeFloorMillis", TBig); 
  ("witnessPublicKey", TBytes); ("signature", TBytes)].

#[export] Instance blindBackupRetentionTransitionV1_lawful : Lawful blindBackupRetentionTransitionV1 [] blindBackupRetentionTransitionV1_type.
Proof. lawful. Qed.

Definition validate_blindRestoreEvidenceHeadV1 (value : val) : result unit :=
  nonzero_fields value ["relayPublicKey"; "storeId"; "externalJournalId"; "durabilityContinuityHash";
    "restoreEvidenceFeedId"; "currentBackupManifestHash"; "currentRetentionTransitionHash";
    "currentAvailabilityAuditHash"; "drillBackupManifestHash"; "drillCleanRestoreEvidenceHash";
    "drillRetentionTransitionHash"; "witnessPublicKey"] ;;!
  let! sequence := asU64 value.["evidenceSequence"] in
  fail_if ((sequence =? 0) || xorb (sequence =? 1) (nullish value.["previousEvidenceHeadHash"])) ;;!
  let! issued := asU64 value.["issuedExternalUnixMillis"] in
  let! expires := asU64 value.["expiresExternalUnixMillis"] in
  fail_if (expires <=? issued) ;;!
  fail_if (negb (num value.["issuedEpoch"] =? issued / 21600000)).

Definition blindRestoreEvidenceHeadV1 : encoding := struct [
  ("version", version1);
  ("relayPublicKey", bytes32);
  ("storeId", bytes32);
  ("externalJournalId", bytes32);
  ("durabilityContinuityHash", bytes32);
  ("restoreEvidenceFeedId", bytes32);
  ("evidenceSequence", u64be);
  ("previousEvidenceHeadHash", optional bytes32);
  ("currentBackupManifestHash", bytes32);
  ("currentRetentionTransitionHash", bytes32);
  ("currentCoveredWalSequence", u64be);
  ("currentExternalFloorRevision", u64be);
  ("currentChunkObjectCount", u64be);
  ("currentAvailabilityAuditHash", bytes32);
  ("currentSupportExpiresUnixMillis", u64be);
  ("drillBackupManifestHash", bytes32);
  ("drillCleanRestoreEvidenceHash", bytes32);
  ("drillRetentionTransitionHash", bytes32);
  ("restoreDrillCompletedUnixMillis", u64be);
  ("drillSupportExpiresUnixMillis", u64be);
  ("issuedExternalUnixMillis", u64be);
  ("expiresExternalUnixMillis", u64be);
  ("issuedEpoch", u32be);
  ("witnessPublicKey", bytes32);
  ("signature", bytes64)
] (Some validate_blindRestoreEvidenceHeadV1).

Definition blindRestoreEvidenceHeadV1_type : jstype := TObj [
  ("version", TConst 1); ("relayPublicKey", TBytes); ("storeId", TBytes); 
  ("externalJournalId", TBytes); ("durabilityContinuityHash", TBytes); 
  ("restoreEvidenceFeedId", TBytes); ("evidenceSequence", TBig); 
  ("previousEvidenceHeadHash", TOpt TBytes); ("currentBackupManifestHash", TBytes); 
  ("currentRetentionTransitionHash", TBytes); ("currentCoveredWalSequence", TBig); 
  ("currentExternalFloorRevision", TBig); ("currentChunkObjectCount", TBig); 
  ("currentAvailabilityAuditHash", TBytes); ("currentSupportExpiresUnixMillis", TBig); 
  ("drillBackupManifestHash", TBytes); ("drillCleanRestoreEvidenceHash", TBytes); 
  ("drillRetentionTransitionHash", TBytes); ("restoreDrillCompletedUnixMillis", TBig); 
  ("drillSupportExpiresUnixMillis", TBig); ("issuedExternalUnixMillis", TBig); 
  ("expiresExternalUnixMillis", TBig); ("issuedEpoch", TNum); ("witnessPublicKey", TBytes); 
  ("signature", TBytes)].

#[export] Instance blindRestoreEvidenceHeadV1_lawful : Lawful blindRestoreEvidenceHeadV1 [] blindRestoreEvidenceHeadV1_type.
Proof. lawful. Qed.

(** The loop over [value.heads] from index 1. *)
Fixpoint check_heads (heads : list val) : result unit :=
  match heads with
  | previous :: ((current :: _) as rest) =>
      let! currentSequence := asU64 current.["evidenceSequence"] in
      let! previousSequence := asU64 previous.["evidenceSequence"] in
      fail_if (negb (currentSequence =? previousSequence + 1)) ;;!
      for_each (fun field => fail_if (negb (bytes_eqb (raw previous.[field]) (raw current.[field]))))
        ["relayPublicKey"; "storeId"; "externalJournalId"; "durabilityContinuityHash";
         "restoreEvidenceFeedId"] ;;!
      check_heads rest
  | _ => Ok tt
  end.

Definition validate_blindRestoreEvidenceBundleBaseV1 (value : val) : result unit :=
  check_heads (elems value.["heads"]).

Definition blindRestoreEvidenceBundleBaseV1 : encoding := struct [
  ("version", version1);
  ("heads", arrayOf blindRestoreEvidenceHeadV1 1 385);
  ("currentBackupManifestBytes", boundedBytes 1 0xffff);
  ("currentRetentionTransitionBytes", boundedBytes 1 (8 * KiB));
  ("drillBackupManifestBytes", boundedBytes 1 0xffff);
  ("drillCleanRestoreEvidenceBytes", boundedBytes 1 (8 * KiB));
  ("drillRetentionTransitionBytes", boundedBytes 1 (8 * KiB))
] (Some validate_blindRestoreEvidenceBundleBaseV1).

Definition blindRestoreEvidenceBundleBaseV1_type : jstype := TObj [
  ("version", TConst 1); ("heads", TArr blindRestoreEvidenceHeadV1_type); 
  ("currentBackupManifestBytes", TBytes); ("currentRetentionTransitionBytes", TBytes); 
  ("drillBackupManifestBytes", TBytes); ("drillCleanRestoreEvidenceBytes", TBytes); 
  ("drillRetentionTransitionBytes", TBytes)].

#[export] Instance blindRestoreEvidenceBundleBaseV1_lawful : Lawful blindRestoreEvidenceBundleBaseV1 [] blindRestoreEvidenceBundleBaseV1_type.
Proof. lawful. Qed.

Definition blindRestoreEvidenceBundleV1 : encoding := capped blindRestoreEvidenceBundleBaseV1 (512 * KiB).

#[export] Instance blindRestoreEvidenceBundleV1_lawful : Lawful blindRestoreEvidenceBundleV1 [] blindRestoreEvidenceBundleBaseV1_type.
Proof. unfold blindRestoreEvidenceBundleV1, capped. apply _. Qed.

End Durability.
