(* ===== verification/SchemasInternal.v ===== *)
(** * Store manifests and checkpoints (packages/blind-protocol/client-internal-schemas.js)

    The two records a store is recovered from: the manifest, with its message
    authentication code, and the checkpoint of the log. *)

From Stdlib Require Import ZArith Lia Bool List String Ascii.
From Stdlib Require Import Strings.Byte.
From stdpp Require Import base tactics list strings.
From S2P Require Import Prelude Codec CodecLaws Authority SchemaKit SchemasDurability.

(** The helpers of durability-schemas.js have the same bodies here. *)
Module Internal.
Import Durability.

Definition validate_blindLocalCheckpointV1 (value : val) : result unit :=
  nonzero_fields value ["relayPublicKey"; "storeId"; "durabilityContinuityHash"; "durabilityProfileHash";
    "storeFormatHash"; "specHash"; "abiHash"; "bucketMapHash"; "writerFenceTokenHash";
    "coveredWalHash"; "descriptorHashFloor"; "snapshotHash"] ;;!
  let! revision := asU64 value.["checkpointRevision"] in
  fail_if ((revision =? 0) || xorb (revision =? 1) (nullish value.["previousCheckpointHash"])) ;;!
  let! mapGeneration := asU64 value.["mapGeneration"] in
  let! writerEpoch := asU64 value.["writerEpoch"] in
  let! coveredWalSequence := asU64 value.["coveredWalSequence"] in
  let! snapshotByteLength := asU64 value.["snapshotByteLength"] in
  fail_if ((mapGeneration =? 0) || (writerEpoch =? 0) || (coveredWalSequence =? 0) || (snapshotByteLength =? 0)).

Definition blindLocalCheckpointV1 : encoding := struct [
  ("magic", constantBytes (ascii_bytes "HRBCKP01"));
  ("checkpointVersion", constant u16be 1);
  ("relayPublicKey", bytes32);
  ("storeId", bytes32);
  ("durabilityProfileId", ranged u8 1 2);
  ("durabilityContinuityHash", bytes32);
  ("durabilityProfileHash", bytes32);
  ("formatMajor", u16be);
  ("formatMinor", u16be);
  ("storeFormatHash", bytes32);
  ("specHash", bytes32);
  ("abiHash", bytes32);
  ("mapGeneration", u64be);
  ("bucketMapHash", bytes32);
  ("writerEpoch", u64be);
  ("writerFenceTokenHash", bytes32);
  ("checkpointRevision", u64be);
  ("previousCheckpointHash", optional bytes32);
  ("coveredWalSequence", u64be);
  ("coveredWalHash", bytes32);
  ("epochFloor", u32be);
  ("descriptorSequenceFloor", u64be);
  ("descriptorHashFloor", bytes32);
  ("snapshotByteLength", u64be);
  ("snapshotHash", bytes32)
] (Some validate_blindLocalCheckpointV1).

Definition blindLocalCheckpointV1_type : jstype := TObj [
  ("magic", TBytes); ("checkpointVersion", TConst 1); ("relayPublicKey", TBytes); ("storeId", TBytes);
  ("durabilityProfileId", TNum); ("durabilityContinuityHash", TBytes); ("durabilityProfileHash", TBytes);
  ("formatMajor", TNum); ("formatMinor", TNum); ("storeFormatHash", TBytes); ("specHash", TBytes); ("abiHash", TBytes);
  ("mapGeneration", TBig); ("bucketMapHash", TBytes); ("writerEpoch", TBig); ("writerFenceTokenHash", TBytes);
  ("checkpointRevision", TBig); ("previousCheckpointHash", TOpt TBytes); ("coveredWalSequence", TBig);
  ("coveredWalHash", TBytes); ("epochFloor", TNum); ("descriptorSequenceFloor", TBig); ("descriptorHashFloor", TBytes);
  ("snapshotByteLength", TBig); ("snapshotHash", TBytes)].

#[export] Instance blindLocalCheckpointV1_lawful : Lawful blindLocalCheckpointV1 [] blindLocalCheckpointV1_type.
Proof. lawful. Qed.

Definition validate_blindStoreManifestV1 (value : val) : result unit :=
  nonzero_fields value ["storeId"; "relayPublicKey"; "durabilityContinuityHash"; "durabilityProfileHash"; "storeFormatHash";
    "specHash"; "abiHash"; "bucketMapHash"; "checkpointHash"; "writerFenceTokenHash"; "descriptorHashFloor"; "mac"] ;;!
  let! revision := asU64 value.["manifestRevision"] in
  fail_if (xorb (revision =? 0) (nullish value.["previousManifestHash"])) ;;!
  let profile1 := is_num value.["durabilityProfileId"] 1 in
  let profileExternal := [value.["externalJournalId"]; value.["externalWitnessPublicKey"]; value.["restoreEvidenceFeedId"];
    value.["lastAckWalHash"]; value.["externalCheckpointHash"]] in
  (if profile1 then
     fail_if (existsb (fun value => negb (isZero (raw value))) profileExternal) ;;!
     let! externalLeaseRevision := asU64 value.["externalLeaseRevision"] in
     let! lastAckWalSequence := asU64 value.["lastAckWalSequence"] in
     let! externalCheckpointRevision := asU64 value.["externalCheckpointRevision"] in
     fail_if (negb (externalLeaseRevision =? 0) || negb (lastAckWalSequence =? 0) || negb (externalCheckpointRevision =? 0))
   else fail_if (isZero (raw value.["externalJournalId"]) || isZero (raw value.["externalWitnessPublicKey"]))) ;;!
  if is_num value.["migrationState"] 0 then
    fail_if (negb (is_num value.["sourceFormatMajor"] 0) || negb (is_num value.["targetFormatMajor"] 0) || negb (isZero (raw value.["migrationCursorHash"])))
  else
    fail_if (is_num value.["sourceFormatMajor"] 0 || js_le value.["targetFormatMajor"] value.["sourceFormatMajor"]) ;;!
    fail_if (if is_num value.["migrationState"] 1 then negb (isZero (raw value.["migrationCursorHash"])) else isZero (raw value.["migrationCursorHash"])).

Definition blindStoreManifestV1 : encoding := struct [
  ("magic", constantBytes (ascii_bytes "HRBLIND1"));
  ("manifestVersion", constant u16be 1);
  ("storeId", bytes32);
  ("relayPublicKey", bytes32);
  ("durabilityProfileId", ranged u8 1 2);
  ("durabilityContinuityHash", bytes32);
  ("durabilityProfileHash", bytes32);
  ("formatMajor", u16be);
  ("formatMinor", u16be);
  ("storeFormatHash", bytes32);
  ("specHash", bytes32);
  ("abiHash", bytes32);
  ("mapGeneration", u64be);
  ("bucketMapHash", bytes32);
  ("checkpointWalSequence", u64be);
  ("checkpointHash", bytes32);
  ("epochFloor", u32be);
  ("writerEpoch", u64be);
  ("writerFenceTokenHash", bytes32);
  ("externalLeaseRevision", u64be);
  ("externalJournalId", bytes32);
  ("externalWitnessPublicKey", bytes32);
  ("restoreEvidenceFeedId", bytes32);
  ("lastAckWalSequence", u64be);
  ("lastAckWalHash", bytes32);
  ("externalCheckpointRevision", u64be);
  ("externalCheckpointHash", bytes32);
  ("descriptorSequenceFloor", u64be);
  ("descriptorHashFloor", bytes32);
  ("migrationState", ranged u8 0 4);
  ("sourceFormatMajor", u16be);
  ("targetFormatMajor", u16be);
  ("migrationCursorHash", bytes32);
  ("previousManifestHash", optional bytes32);
  ("manifestRevision", u64be);
  ("mac", bytes32)
] (Some validate_blindStoreManifestV1).

Definition blindStoreManifestV1_type : jstype := TObj [
  ("magic", TBytes); ("manifestVersion", TConst 1); ("storeId", TBytes); ("relayPublicKey", TBytes);
  ("durabilityProfileId", TNum); ("durabilityContinuityHash", TBytes); ("durabilityProfileHash", TBytes);
  ("formatMajor", TNum); ("formatMinor", TNum); ("storeFormatHash", TBytes); ("specHash", TBytes); ("abiHash", TBytes);
  ("mapGeneration", TBig); ("bucketMapHash", TBytes); ("checkpointWalSequence", TBig); ("checkpointHash", TBytes);
  ("epochFloor", TNum); ("writerEpoch", TBig); ("writerFenceTokenHash", TBytes); ("externalLeaseRevision", TBig);
  ("externalJournalId", TBytes); ("externalWitnessPublicKey", TBytes); ("restoreEvidenceFeedId", TBytes);
  ("lastAckWalSequence", TBig); ("lastAckWalHash", TBytes); ("externalCheckpointRevision", TBig);
  ("externalCheckpointHash", TBytes); ("descriptorSequenceFloor", TBig); ("descriptorHashFloor", TBytes);
  ("migrationState", TNum); ("sourceFormatMajor", TNum); ("targetFormatMajor", TNum); ("migrationCursorHash", TBytes);
  ("previousManifestHash", TOpt TBytes); ("manifestRevision", TBig); ("mac", TBytes)].

#[export] Instance blindStoreManifestV1_lawful : Lawful blindStoreManifestV1 [] blindStoreManifestV1_type.
Proof. lawful. Qed.

End Internal.
