(* ===== verification/Catalog.v ===== *)
(** * The schema catalog (packages/blind-protocol/schemas.js, schema-codecs.js)

    The catalog entry schema, checked against the frozen table of schema-name
    hashes, and the list of the schemas of schemas.js, result-binding.js and
    durability-schemas.js with their types and laws; what is proved of the list
    holds of each of them. *)

From Stdlib Require Import ZArith Lia Bool List String Ascii.
From Stdlib Require Import Strings.Byte.
From stdpp Require Import base tactics list strings.
From S2P Require Import Prelude Codec CodecLaws Authority Hashes SchemaKit ResultBinding.
From S2P Require Import SchemasDescribe SchemasCell SchemasInbox SchemasForward SchemasDurability.
Import Binding Durability.

(** The value of one hexadecimal digit. *)
Definition hex_digit (a : ascii) : Z :=
  let n := b2z (byte_of_ascii a) in if n <? 0x3a then n - 0x30 else n - 0x57.

(** [b4a.from(text, 'hex')] on an even number of lower-case digits. *)
Fixpoint from_hex (text : string) : bytes :=
  match text with
  | String a (String b rest) => z2b (16 * hex_digit a + hex_digit b) :: from_hex rest
  | _ => []
  end.

Definition SCHEMA_CATALOG_NAME_HASHES_BY_CATEGORY : list (Z * list string) := [
  (1, ["e6be8df975178fb7371c5d35b86f5419b127ede9b7975dae593c3b1c6c4ad76e";
    "81d2ff674bf0d3c08ab5d631f454548f339203edae38a95348e8a089aea2961c";
    "f0f89649d8ef417be5cc7b44a3950fef68cc605dfc23bdc8fff9b266ced45be1";
    "6b6e2d9cb960890b97dbc10fce30ce6b0c462dc7cd8a7f1282a15dfef47d2a21";
    "0825170b5213ce37aed2bcf4d7c11288151150d4b6047dc3fed556879aa6cda1";
    "635cc44d0549778ddc14391b2ddb758b64a2c0b1d5e865eb8e72f1843fdea5b8";
    "b33eec9f0f15db391e0b1c3940ba793fa018c51a005ec8ea9b1360b7b29fa236";
    "6ff0cd22571bdf3b9fed2c9affc08bd24166255ee139f4254f4f1610d35ae535";
    "56fc2cd57e00724180b8a3deda0f5d3610a179cad9c359873fd3fc0001e97732";
    "7f2fa51fe068d14adf1bd0144012f05c9123897faa8c0115bdad8c4e0c3f1066";
    "390602d14fd8105b1538a283b2dee3db5f4a43691fed70b0041e0a3c8c8c8ae9";
    "89b404497d63603af8be9fc3b7a374dc1c7e7ce58a7577220842e95e1e7de76d";
    "3b060f9e47a1047a806893cd94285933b143882105e50d83deac701f60beb10f";
    "654a06af400247f78246969ec40a29e3c4c3f53478583d667d651c92d55d5e23";
    "02d799921c66b4a1f3ae4b60de9d3ba0d1885aaf94b9e58690920591c732bb72";
    "99b0ff2e1bd3f58c9def8064c110463f1dc536a760f16b87f65037ea4c3c7e34";
    "fbad17adcbcb22563aaa8819f31ec0853ebf8ce1f712d9ab1e920350a4d9b82f";
    "902436eba0557887bfc0c652fba3bcb24db5a73d4caae1f586de970ecd222872";
    "4523de2fc2f08d935533116972fd9b23ae5451a7971ac35397516bbf1424aaab";
    "c7ffbaebdd9d917bb238c959266951d120544d8db28c758c9535c7f24dbe0572";
    "7f31640f28180175aa2d2a604298226f0837e725af89b678d8962328bfe9b3d3";
    "c48a1e6bd54aacdad5a803dcdaab215a835a335f27493e4b09223cdd54f2fe24";
    "a6d51b1f18c8456ae4175cffe8f4004a9c8c5a64e08bb546e3b5cff0ef1ef3e6";
    "034704d596bbb182ae072167e98f8a49257ab544268d83f4de050a5cff0919be";
    "f9a932c2017cd69387be7f1fdcde8e31a44473ec29762dbd442247267c7fdf45";
    "0ec396609d37e22e91c15d34a89e21cb9f196ec8f4d4a0a211958bfef3d872ee";
    "eda1ae1cf3fd63d80c69649d0c3ad9a022ec366919fee2e163a759ed8169d505";
    "2d1a5ef1d2c764adfa03583027635864a2661a9ab92b86c7d6581040f123e5c2";
    "6dbc1bd2e78a26198524c36ed4e16c197668359ea9882b7c8caf85100ff17f77";
    "a9f5a17efc580e281ca92234f1e6b5713b7daedcb1548bad6d4917e702894731";
    "05eee93faf2b7cb09fff3a4a8297cc333aa56ff53f9392108bdb40eb80329058";
    "50c6bbe834627c1125773a3e9b988d0ece94952c297c98f33b37e00a31be8f68";
    "2aca518d4952fa2306053210d0187171a88675680912beaee11c2b22b8aff6d4";
    "8d3a5f93320236407062fec7f1976c5891d8dbe22b43d560f62fc38ea427b619";
    "6e50fa5dc6f33ad86ced6d36b3fe9f239a7770c2da0f324e6ff72f16190eacd8";
    "83c9224ba53f0cc6bce2af03cd749efde827ef3ee68384c6fc57d2148aff14cc";
    "203ff33bac4c3b494b4452a919921bee00d7dbc7b36ce9e04df641020acfda1a";
    "7111647f042ade5fd938070a83f31b933495e3d14cd0fa069e79d38a9ea84f09";
    "a54594725fbb532cf7d49a75144da47179b9f9a8e49221a19a8ccd551203e114";
    "61806e776baf19ee9fbd05da346c7def94645c6b8d3580fcda44419c2744fe04";
    "9a65f79bfd3f959e9ad658074b4a252e4d795cf5db60b9a64c58dcb0c384948e";
    "184d18b8b831098a24889714295ecfcca94202e0d547b0f34ff92a9732e60da5";
    "40f7e370d90cb385053f48d2b89d57a8f181df5d2f0ba3709e17f817e05a0012";
    "ea03db798b39eb9528fb9b439c3242fca3257f1864906a3f54cd9c456cbcd80d";
    "e6e14d672094188920b32c42dd476e1607517fb2578cbbf025992c549239230a";
    "a888656009db25ed24e4a65ec85697cbcd42b2dab808b17e65f5d2788ef34551";
    "427462bc6fc06308ea53944c1874adc40916f939c303b873d56e41748f0d46ec";
    "7f66d2c520bf1b7230cd2320ae0fb8e00e8ff1c27616720cc1549bc6898d6ea7";
    "5fd74d0aae952cb396a911f0803f8972f8cf6ad786952887e224c9851911b087";
    "75447368cb37ac7678eb9b5ef7b3be37391b5186f842eb2ad792df92af214f31";
    "c269af17a3649c1fe6b2625785004660d83e4d7ab7a3b4f160641cb34f62f9c1";
    "37e735473a073ecba72eed0d6c81b32d2c43ee9a60c7eeda5c500960c6c7e35e";
    "55afcb72393aa11effb5332d437f73c6ca2b7eb3620070272f63fd27c2bbab86";
    "4ceb3275a246c43e8bbecf58484502b3b636e62976fd64bb33dc563d30a65fb5";
    "e15aef460924e1b47c41b2f71b1676dfecea9252e05a4797142a6659d7455f20";
    "29f2df4d4feb367629cd543dc07ec007b5bf41728f4155a94283ac81909a8f06";
    "59559046657b1ba8c31affff9bfd1dbba897746a5bef0d61ad18c5fcb387aaa9";
    "3dd405218b1e1ffcac63a3c69b00f9239eaf0733715c4fd7ac4d16b13007e430";
    "6bad548d978849e94d8f790d512abc3869cfa3afedca501c3c4fbbe952752106";
    "a93e1d13eddccf526291f681d3ff6e28feee0108dd45500455944ad8bd97a67c";
    "97a6de4eee5dfc0402bfc722346858852ef9cd202395dbebc1768bafe882fd02";
    "0d97fc1ce79ed433cf745c285a0b311816d16bc0a17f541209a6042454eea4b9";
    "1a00538a09d7ecdc29a5254f21ace1eb74872528dfaa7699d0f4179212e38ec7";
    "add211de86434db239e869c2df5552356a5010f787b760a1c2e4da35e840d0cf";
    "64c4fedabdb7ac653e3122fe4f5f0bffa01cbc6d25368c77221e5d81955d07b5";
    "d9da185a15564ed6c0b1eca4cadeb1a39d4958fd7a11935b6021d6bb37c920d3";
    "886b4c21061739ae9f95bacf82544b03127db37c757bb1782c77fee944b5ee32";
    "c304489cbd22e4317bbc0d21338be0708081332c2da58353b858be0fdc8c741e";
    "9cb8bdb6c4c46fea1bd73aa74128a2d8b12ffa7cfcff5ca029c02a74494933c6";
    "99fad2405b268bcb1fde0843685717a69fd673212a53facc707b5e0206c0bade";
    "5b46817cbdbd7b8e495f968330ab86ab14110e5b7da95d963b0522e2d11530c3";
    "6f8eb6588419fca32da937ffb6e495a105aa988c0ef352e8bbb387ef4e8f0f5d";
    "28cfdfa3bbc7f0e6dfc2aba3e502697319161665cd5bae3f18b9f51be44b53dc"]);
  (2, ["9da12bbb637c0e030fec4f83de571ced1e6560d0b5759022cf5a456deb4ddae4";
    "918dd1079c73c390d70d2b34d17f04e8802b7dc0bf1f82eda030e3a4c29cbc88";
    "4a698bd134d9d428c0d4803205736f18cfdb86e2db9e69c0df991471b673c281";
    "233421fc30b5ddc8de556233892364a8be553ca27196947ca6279e2d140582ce";
    "0156e0a27c7e565da2db66f2d884b8f95b25e243375277651f96d434681d4caf";
    "69055c5db70d6bb40cf962b34841a4a7ef4095edd4de5f97496aad6e2dd7fc7b";
    "45f6bdd13522bc1667ad474e1a187a174e9956f18dcca6897c3e846531bbbe69";
    "db6ac2f22375232acc3f2f831fd0438a1c78cd20a4bd750664a38b5d05f4b810";
    "b887d63c6888467b9f6c6e6a7e4efbd33952e7f0fb09a17e0a22c3303f5e066b";
    "fa832bf50a97260322d389c425e516d20e72ce50471bd8b5b380ff9f7e594fdb";
    "824d570b120de9ee27756e31b5d740b5d305b6395ac675f94c5839ad7596c8ca";
    "d06428c810673da5d6ab8706b8ad666759f3b9cf472c4bc3bb0efef0cb536520";
    "672423d4175410c52f3d6df9fa890591da2c7b5497981ea23edbc6b7ddc5c16a";
    "e2fa3fbf61dda4a1ed55914d2750b2f418e8fd49b6100784923d0d00666a0621";
    "afa5ec7a42a9850a34d5f8a0be1483274ee5bc581fefdd7c84e5815de0f86e7d";
    "c9d7348fd3a2d969ba9f0e56e1a33bb8983293a71bd01b48a62f2fd6708602eb";
    "35b78f0da7fced5f818d2620969302c19c9eabcb1193a4071711135bff756e23";
    "b8a6ffed594d4738173f342a6b265b09c94f6aa6025f142418142e49aaed3165";
    "ee6394496f2a0bd5f82e940f8fb4dbb58b7edb79596135a71e1ba2424fded8b0";
    "4cfa26cd59ed1af1b938b426bcd0e08b20cca30157c516572638caa09b30c314";
    "ef49b9903d94aecd3409543a3356cd967607f398b6e45de6eb60d16eafc42bdf";
    "5db20bf78bba0756995be87d4630bda68dea115f4b5eaf402019891949057fa3";
    "eb7df41733428dff2f41f80b5ecbbd39a8485a600599a386457d5766cc13dad0";
    "f84b5f8b70eaa029923b5cb4ef3b1780eafab2f1ca050a741c9e07046776cb27";
    "2e0b1d99a91c2f3bb53acce0d09aeae0ff913cabaf2cac396ab059016d881c0c";
    "401cb0f37dec794d93a7b5981ec99886ecffc30bfd99a130eb1b6d7bf1b6ef1b";
    "357cc40d70ff632a14f134ff1148097aa49f4439f34ec72c499e0d3d0faba1f0";
    "58d9ce5c9960befcfba28c39bdbfa91f855ffe3c2c41d5f3a9da638a777a8bba"]);
  (3, ["6ebfffe50c4e86b7fd7111dd8b627b7846ae288a3884d074dd17394af163117b";
    "5969aa2feaac7383e9a7bb35060984624690a815a7b8dd97b4fcd026949ee605";
    "c4ccfca4de0939bad215b5148d8addbba5fa0128c292df047710512ffe71d55e";
    "f0b1a8b21efe8b9059d2e850e7d64dd3b2c11e6bf610b81ad210d39bad246a15";
    "c48184e1331c606f839e9f2928fe601ac363cd4a90c4f314267ae512270aa13a";
    "5e874d86c074916d656443f003973d50385a9f6532276b80413c4b56c7e08a6f"]);
  (4, ["3b72c6f0847c3035794c685d9ff87810e3a54e625690d164ef939c8971b9cb05";
    "e185b4f1672a6519e8512898c2d1ee2a56d114f755a0e139485db5b09c974378";
    "867291450e6b407f31fcd4b4bdcb982f6fd8921fa4444536f5afbaabd1a95d17";
    "47a3e2eb62ca564c57720f719d4549e40d40ef7d0724cec9391bd57c6eb2fba2";
    "1fda3b4580332bd9699f632f8ffe3179127dc9be40846a8b7c4bf7543f07af17";
    "5a906253059aeb97d0df7541a911fcb16f2a522b31848951f4dbca4bce09ffa8";
    "8968b25d1bac295ccbbd42fb5beb6729f268ed5e515f1829178b29b7cfd5b587";
    "438824f529a8cf166ea71fbe82e33ed3c7788074d384d01bb5e636d0eaa1e298";
    "4f85c468148e49c2fd914c970da1e3bc59ca306d6e144ac883aca4574b281cbf";
    "679c5165e95470189ea1310ec538176082c86d6e78a878c5fb1aef1d0bfbf08e";
    "c23bcff65f4116492215be87e5e0d59793bfd42dc191fd9fbfd542747c07239d";
    "ba90d48c9325b0453ab2a9a71955c5b9b3d42f8f2df083eb14f119dc6941a4ea";
    "44cf9c9c2f35234efb655e78cf6eba49e5d3b367098b1fae3c9a2259d520e0c4";
    "1ce8315654c5c6b50c91c38b7995cd29b4d4d788ced25290d9479d5eca8fe152";
    "2118a3b324d21eb14d6aa8f7e4970406cf56309367fabb761403f0c656162a6b";
    "4d1ab1c6a98515945e5ccf9db21fde850c15d0f9fe1b8036d51478d36f58e692";
    "5ec93277c174083dd25cc73e11cd4ffee15152a1bfda601d76f512980426b6a8";
    "238ec0bb34d9b2f9d759eecf84a5562f921a2ef13c549de9e88f3455a2eaf705";
    "b9455727477e7dc7cf0a96435c398fcbe7d08547f36abd2c5688c650c290a141";
    "49ed02a1e69c488cad47c08d8a2405e6202409272cf3d2d7200082b60ed6ed7d";
    "4b38d632b2fa532a2d25ffe5b9793b503aecf4ea8a89e760d8ddf57e0c498b66";
    "17ccdf6a718b65dba39b13f80e9d27aecca9540757f100ba18fec47288e6088e";
    "ea4169fe9fd93be72c69fbd443f94295fb18c3574115589ee82a8cd95be090a6";
    "bfa15a1fe55427297fc217727fd0c92653e8ef0dd334c5b48868bbf8c6e45e61";
    "30f006e67ffe1d30e926cca3250fd30f5a6b38fe90dbea92721db3bafc1abf18";
    "051260e8fa2ad526d490b7a724e629add413fd6f542524b7f2e8369ce22d1f92";
    "2590254cfc5459f9891f9d559093fc1fbbf5273a2c7af38f0cb53052a7cae285";
    "e49837b647acacbd509554f8885f3b1ebe63daf1dc65424cce68c67299e849d0";
    "0dd5ec87d00fe29d16fb36376855661eea8b6c9d22ca909efb1c8bca9ad0be20";
    "119992d8a241968fd88851019230ed8ed9801c31c9834c8aaa02a7a689fca618";
    "50bf7ee8510abba6e3519daf1f359e12c1b1c3de894bd7c0b1ac3cee804176a6";
    "d0f85927b82c28c8a598f97a446a1c7a4e2250faff113d80d3c82058be4fa502";
    "cf3e9db3739533accd90bc5c3149134c411f74975ffab7174b2707e31cf1bde9";
    "76f742eea8e81578909f34f746cce19520a3a0a369464728bd87dabb85cc7c05";
    "ffba11c56058daf2d46f9c91bcfeda991ce24639d753896c01a71463fd7ef926";
    "4a18579de10d1cc5a4e21c291bc0777df73363de8164a28d76728bd9317d4c42";
    "818e8f417f06559d6dfe1276c162ca4127f14eef5e80fc6bc4f141f230bb91a2";
    "925ca5db403415f83e7df518a6cea09ee03ba4c7fe7e7d5cea5efafe32378559"]);
  (5, ["97cceb00a35a91c091061cc00355be81aa7751e483a41ba31fc30e9b3ae68a37";
    "14395517ef9f294c2c8cae3c75de191372c83dcdd61f03beb28641b1efcf4e72";
    "82d36379e7d8df30b2934aba38989cdb377eae1ca75af3d5e5b24d41e47466d9";
    "719c8c141831525893f054575f59a6ea0acffac376c61d4dc7bb38af8b14dcd3";
    "27ed78552ba4d82cc9eaa2edc44a8d516d97a848e492c886a1f76fba6bd3038f";
    "a8578e15e7a9478dd3e102983db66e86e9266259019d3ddbb1b53c65386cd205";
    "4d502ad1a3f8b8ec2e10d105cea572b73007124a455d3ffd9613311e37aa4e48"])].

(** A schema of the library: its codec, the type of the objects it decodes to,
    and its laws. *)
Record schema := Schema {
  schema_name : string;
  codec : encoding;
  schema_type : jstype;
  codec_lawful : Lawful codec [] schema_type
}.
Arguments Schema _ _ {_ _}.

Section WithPlatform.
Context `{Platform}.

Definition validate_schemaCatalogEntryV1 (value : val) : result unit :=
  let hashes := table_get SCHEMA_CATALOG_NAME_HASHES_BY_CATEGORY value.["category"] in
  let id := num value.["categoryLocalSchemaId"] in
  match hashes ≫= (fun hashes => hashes !! Z.to_nat (id - 1)) with
  | Some expectedHash =>
      fail_if (negb (bytes_eqb (Hash.blake2b256 (raw value.["schemaName"])) (from_hex expectedHash)))
  | None => Err BAD_ENCODING
  end.

Definition schemaCatalogEntryV1 : encoding := struct [
  ("category", ranged u8 1 5);
  ("categoryLocalSchemaId", ranged u16be 1 0xffff);
  ("schemaName", canonicalAsciiBytes 1 96);
  ("canonicalSchemaBytes", boundedBytes 1 0xffff)
] (Some validate_schemaCatalogEntryV1).

Definition schemaCatalogEntryV1_type : jstype := TObj [
  ("category", TNum); ("categoryLocalSchemaId", TNum); ("schemaName", TBytes); 
  ("canonicalSchemaBytes", TBytes)].

#[export] Instance schemaCatalogEntryV1_lawful : Lawful schemaCatalogEntryV1 [] schemaCatalogEntryV1_type.
Proof. lawful. Qed.

Definition PUBLIC_FAMILY_SCHEMA_CODECS : list schema := [
  Schema "AdmissionParametersV1" admissionParametersV1;
  Schema "AdmissionProfileV1" admissionProfileV1;
  Schema "BlindCoreAckV1" blindCoreAckV1;
  Schema "BlindDhtPointerV1" blindDhtPointerV1;
  Schema "BlindExternalJournalTopologyV1" blindExternalJournalTopologyV1;
  Schema "BlindForwardCloseV1" blindForwardCloseV1;
  Schema "BlindForwardDataV1" blindForwardDataV1;
  Schema "BlindForwardOpenResultV1" blindForwardOpenResultV1;
  Schema "BlindForwardOpenV1" blindForwardOpenV1;
  Schema "BlindForwardWindowV1" blindForwardWindowV1;
  Schema "BlindHealthChallengeV1" blindHealthChallengeV1;
  Schema "BlindHealthResultV1" blindHealthResultV1;
  Schema "BlindOhttpKeyConfigV1" blindOhttpKeyConfigV1;
  Schema "BlindServiceDescriptorV1" blindServiceDescriptorV1;
  Schema "BlindStreamChunkPlainV1" blindStreamChunkPlainV1;
  Schema "CoreMirrorRequestV1" coreMirrorRequestV1;
  Schema "CoreServeChallengeV1" coreServeChallengeV1;
  Schema "CoreServeResultV1" coreServeResultV1;
  Schema "RelayIdentityTransitionV1" relayIdentityTransitionV1;
  Schema "SchemaCatalogEntryV1" schemaCatalogEntryV1].

(** The exported codecs of schemas.js, result-binding.js and
    durability-schemas.js, 77 of them, under their catalog names. The table of
    schema-codecs.js also takes the codecs of evidence-schemas.js and
    client-internal-schemas.js and the two framings of Dispatch.v and
    OuterEnvelope.v, which are not in this list. *)
Definition EXECUTABLE_SCHEMA_CODECS : list schema := [
  Schema "AdmissionCostRuleV1" admissionCostRuleV1;
  Schema "DomainRegistryEntryV1" domainRegistryEntryV1;
  Schema "ErrorProfileEntryV1" errorProfileEntryV1;
  Schema "AdmissionV1" admissionV1;
  Schema "BlindReceiptV1" blindReceiptV1;
  Schema "PutCellV1" putCellV1;
  Schema "RenewCellV1" renewCellV1;
  Schema "DropCellV1" dropCellV1;
  Schema "ProveCellV1" proveCellV1;
  Schema "GetCellV1" getCellV1;
  Schema "GetCellResultV1" getCellResultV1;
  Schema "ProveCellResultV1" proveCellResultV1;
  Schema "BatchGetEntryV1" batchGetEntryV1;
  Schema "BatchGetV1" batchGetV1;
  Schema "BatchGetResultV1" batchGetResultV1;
  Schema "InboxCreateV1" inboxCreateV1;
  Schema "InboxManageV1" inboxManageV1;
  Schema "InboxAppendV1" inboxAppendV1;
  Schema "InboxReadV1" inboxReadV1;
  Schema "InboxWatchV1" inboxWatchV1;
  Schema "InboxReceiptV1" inboxReceiptV1;
  Schema "InboxAppendAckV1" inboxAppendAckV1;
  Schema "InboxReadEntryV1" inboxReadEntryV1;
  Schema "InboxReadResultV1" inboxReadResultV1;
  Schema "BlindErrorV1" blindErrorV1;
  Schema "BlindOhttpTransportErrorV1" blindOhttpTransportErrorV1;
  Schema "BlindDescribeGetV1" blindDescribeGetV1;
  Schema "BlindAdmissionParametersRequestV1" blindAdmissionParametersRequestV1;
  Schema "OperationProfileV1" operationProfileV1;
  Schema "ProtocolProfileArtifactV1" protocolProfileArtifactV1;
  Schema "TransportProfileArtifactV1" transportProfileArtifactV1;
  Schema "ProtocolProfileV1" protocolProfileV1;
  Schema "TransportEndpointV1" transportEndpointV1;
  Schema "DurabilityProfileV1" durabilityProfileV1;
  Schema "BuildProfileV1" buildProfileV1;
  Schema "BlindTransportRouteV1" blindTransportRouteV1;
  Schema "BlindForwardRouteHopV1" blindForwardRouteHopV1;
  Schema "BlindForwardRouteScopeV1" blindForwardRouteScopeV1;
  Schema "BlindForwardHopOpenV1" blindForwardHopOpenV1;
  Schema "BlindForwardHopAcceptV1" blindForwardHopAcceptV1;
  Schema "CoreOpenReplicationV1" coreOpenReplicationV1;
  Schema "CoreOpenReplicationResultV1" coreOpenReplicationResultV1;
  Schema "AdmissionProfileV1" admissionProfileV1;
  Schema "AdmissionResourceCostV1" admissionResourceCostV1;
  Schema "AdmissionParametersV1" admissionParametersV1;
  Schema "RelayIdentityTransitionV1" relayIdentityTransitionV1;
  Schema "BlindDhtPointerV1" blindDhtPointerV1;
  Schema "BlindOhttpKeyConfigV1" blindOhttpKeyConfigV1;
  Schema "BlindHealthChallengeV1" blindHealthChallengeV1;
  Schema "BlindHealthResultV1" blindHealthResultV1;
  Schema "BlindExternalBackupFailureGroupV1" blindExternalBackupFailureGroupV1;
  Schema "BlindExternalJournalNodeV1" blindExternalJournalNodeV1;
  Schema "BlindExternalJournalTopologyV1" blindExternalJournalTopologyV1;
  Schema "BlindCoreAckV1" blindCoreAckV1;
  Schema "CoreMirrorRequestV1" coreMirrorRequestV1;
  Schema "CoreServeChallengeV1" coreServeChallengeV1;
  Schema "CoreServeResultV1" coreServeResultV1;
  Schema "BlindForwardOpenV1" blindForwardOpenV1;
  Schema "BlindForwardOpenResultV1" blindForwardOpenResultV1;
  Schema "BlindForwardDataV1" blindForwardDataV1;
  Schema "BlindForwardWindowV1" blindForwardWindowV1;
  Schema "BlindForwardCloseV1" blindForwardCloseV1;
  Schema "BlindStreamChunkPlainV1" blindStreamChunkPlainV1;
  Schema "BlindServiceDescriptorV1" blindServiceDescriptorV1;
  Schema "SchemaCatalogEntryV1" schemaCatalogEntryV1;
  Schema "BlindExternalCommitWitnessV1" blindExternalCommitWitnessV1;
  Schema "RelayResultBindingV1" relayResultBindingV1;
  Schema "BatchGetSignaturePayloadV1" batchGetSignaturePayloadV1;
  Schema "InboxReadSignaturePayloadV1" inboxReadSignaturePayloadV1;
  Schema "DurabilityContinuityBindingV1" durabilityContinuityBindingV1;
  Schema "BlindBackupEncryptionProfileV1" blindBackupEncryptionProfileV1;
  Schema "BlindBackupChunkManifestV1" blindBackupChunkManifestV1;
  Schema "BlindBackupManifestV1" blindBackupManifestV1;
  Schema "BlindCleanRestoreEvidenceV1" blindCleanRestoreEvidenceV1;
  Schema "BlindBackupRetentionTransitionV1" blindBackupRetentionTransitionV1;
  Schema "BlindRestoreEvidenceHeadV1" blindRestoreEvidenceHeadV1;
  Schema "BlindRestoreEvidenceBundleV1" blindRestoreEvidenceBundleV1].

End WithPlatform.
