(* ===== verification/Dispatch.v ===== *)
(** * The dispatch frame (packages/blind-protocol/dispatch.js)

    Every request, response, error and stream message travels in one frame: a
    four-byte length, a 41-byte header and the body. The file models the two
    codec functions, the checks they share and the per-connection
    [DispatchSequenceGuard]. DispatchLaws.v proves their properties. *)

From Stdlib Require Import ZArith Lia Bool List String Ascii.
From Stdlib Require Import Strings.Byte.
From stdpp Require Import base tactics list strings gmap.
From S2P Require Import Prelude Codec CodecLaws Authority SchemaKit.

Module Dispatch.

(** ** The code *)

Definition WIRE_HEADER_BYTES : Z := DISPATCH_LIMITS_PREFIX_BYTES + DISPATCH_LIMITS_HEADER_BYTES.

Definition asBuffer (value : val) : result bytes :=
  match value with VBytes bs => Ok bs | _ => Err BAD_ENCODING end.

Definition asU64 (value : val) : result Z := Codec.asU64 value.

(** [for (let i = 0; i < 8; i++) value = (value << 8n) | BigInt(buffer[offset + i])] *)
Definition readU64BE (buffer : bytes) (offset : Z) : Z :=
  readU64_loop buffer offset [0; 1; 2; 3; 4; 5; 6; 7] 0.

(** [for (let i = 7; i >= 0; i--) { buffer[offset + i] = value & 0xff; value >>= 8n }] *)
Definition writeU64BE (buffer : bytes) (value offset : Z) : bytes :=
  writeU64_loop buffer value offset [7; 6; 5; 4; 3; 2; 1; 0].

(** [b4a.readUInt32BE] and [b4a.writeUInt32BE], inside the buffer. *)
Definition readUInt32BE (buffer : bytes) (offset : Z) : Z := be_val (slice buffer offset 4).
Definition writeUInt32BE (buffer : bytes) (value offset : Z) : bytes :=
  splice buffer offset (be_bytes 4 value).

Definition isAllZero (buffer : bytes) : bool := forallb (fun b => b2z b =? 0) buffer.

(** [!Number.isInteger(id) || id < 1 || id > 255] *)
Definition bad_id (id : val) : bool :=
  match id with VNum n => (n <? 1) || (255 <? n) | _ => true end.

Definition validateIds (familyId operationId : val) : result unit :=
  fail_if (bad_id familyId) ;;!
  fail_if (bad_id operationId) ;;!
  fail_if (negb (isKnownOperation familyId operationId)).

Definition isStreamingOpen (familyId operationId : val) : bool :=
  (is_num familyId FAMILY_FORWARD && is_num operationId OPERATION_FORWARD_OPEN)
  || (is_num familyId FAMILY_CORE && is_num operationId OPERATION_CORE_OPEN_REPLICATION).

Definition isStreamOperation (familyId operationId : val) : bool :=
  if negb (is_num familyId FAMILY_FORWARD) then false
  else is_num operationId OPERATION_FORWARD_DATA || is_num operationId OPERATION_FORWARD_WINDOW
       || is_num operationId OPERATION_FORWARD_CLOSE.

(** [Object.values(FRAME_KIND)] *)
Definition FRAME_KINDS : list Z :=
  [FRAME_KIND_REQUEST; FRAME_KIND_RESPONSE; FRAME_KIND_ERROR; FRAME_KIND_STREAM].

Record normalized := Normalized { n_requestId : bytes; n_streamId : Z; n_sequence : Z }.

Definition validateFrameShape (frame : val) : result normalized :=
  let kind n := is_num frame.["frameKind"] n in
  throw_if (negb (is_num frame.["version"] 1)) BAD_VERSION ;;!
  fail_if (negb (existsb (is_num frame.["frameKind"]) FRAME_KINDS)) ;;!
  validateIds frame.["familyId"] frame.["operationId"] ;;!
  (match operationProfile frame.["familyId"] frame.["operationId"] with
   | Some profile =>
       let bit := js_shl 1 (num frame.["frameKind"] - 1) in
       let allowedBits :=
         if kind FRAME_KIND_REQUEST then op_allowedRequestKindBits profile
         else if kind FRAME_KIND_STREAM
              then js_or (op_allowedRequestKindBits profile) (op_allowedResultKindBits profile)
              else op_allowedResultKindBits profile in
       fail_if (js_and allowedBits bit =? 0)
   | None => Ok tt
   end) ;;!
  fail_if (negb (is_num frame.["flags"] 0)) ;;!
  let! requestId := asBuffer frame.["requestId"] in
  fail_if (negb (blen requestId =? DISPATCH_LIMITS_REQUEST_ID_BYTES)) ;;!
  let requestIdIsZero := isAllZero requestId in
  let! streamId := asU64 frame.["streamId"] in
  let! sequence := asU64 frame.["sequence"] in
  (if kind FRAME_KIND_REQUEST then
    fail_if (requestIdIsZero || negb (streamId =? 0) || negb (sequence =? 0))
  else if kind FRAME_KIND_RESPONSE then
    fail_if (requestIdIsZero || negb (sequence =? 0)) ;;!
    let opensStream := isStreamingOpen frame.["familyId"] frame.["operationId"] in
    fail_if ((opensStream && (streamId =? 0)) || (negb opensStream && negb (streamId =? 0)))
  else if kind FRAME_KIND_ERROR then
    let unary := negb requestIdIsZero && (streamId =? 0) && (sequence =? 0) in
    let stream := requestIdIsZero && negb (streamId =? 0)
                  && isStreamOperation frame.["familyId"] frame.["operationId"] in
    fail_if (negb unary && negb stream)
  else
    fail_if (negb requestIdIsZero || (streamId =? 0)
             || negb (isStreamOperation frame.["familyId"] frame.["operationId"]))) ;;!
  Ok (Normalized requestId streamId sequence).

Definition validateOperationBodyCap (frameKind familyId operationId : val) (bodyLength : Z) : result unit :=
  match operationProfile familyId operationId with
  | None => Ok tt
  | Some profile =>
      let cap :=
        if is_num frameKind FRAME_KIND_REQUEST then op_maxRequestBodyBytes profile
        else if is_num frameKind FRAME_KIND_STREAM
             then Z.max (op_maxRequestBodyBytes profile) (op_maxResultBodyBytes profile)
             else op_maxResultBodyBytes profile in
      throw_if (cap <? bodyLength) TOO_LARGE
  end.

Definition readDispatchLengthPrefix (prefix : val) : result Z :=
  let! prefix := asBuffer prefix in
  fail_if (blen prefix <? DISPATCH_LIMITS_PREFIX_BYTES) ;;!
  let frameLength := readUInt32BE prefix 0 in
  fail_if (frameLength <? DISPATCH_LIMITS_HEADER_BYTES) ;;!
  throw_if (DISPATCH_LIMITS_MAX_FRAME_AFTER_PREFIX_BYTES <? frameLength) TOO_LARGE ;;!
  Ok frameLength.

(** [value == null ? otherwise : value] *)
Definition default (value otherwise : val) : val := if nullish value then otherwise else value.

Definition encodeDispatchFrame (input : val) : result bytes :=
  fail_if (negb (is_object input)) ;;!
  let! body := if nullish input.["body"] then Ok [] else asBuffer input.["body"] in
  throw_if (DISPATCH_LIMITS_MAX_BODY_BYTES <? blen body) TOO_LARGE ;;!
  let frame := VObj [
    ("version", default input.["version"] (VNum 1));
    ("frameKind", input.["frameKind"]);
    ("familyId", input.["familyId"]);
    ("operationId", input.["operationId"]);
    ("flags", default input.["flags"] (VNum 0));
    ("requestId", input.["requestId"]);
    ("streamId", default input.["streamId"] (VBig 0));
    ("sequence", default input.["sequence"] (VBig 0))] in
  let! normalized := validateFrameShape frame in
  validateOperationBodyCap frame.["frameKind"] frame.["familyId"] frame.["operationId"] (blen body) ;;!
  let frameLength := DISPATCH_LIMITS_HEADER_BYTES + blen body in
  throw_if (DISPATCH_LIMITS_MAX_FRAME_AFTER_PREFIX_BYTES <? frameLength) TOO_LARGE ;;!
  let output := replicate (Z.to_nat (DISPATCH_LIMITS_PREFIX_BYTES + frameLength)) Byte.x00 in
  let output := writeUInt32BE output frameLength 0 in
  let output := set_byte output 4 (num frame.["version"]) in
  let output := set_byte output 5 (num frame.["frameKind"]) in
  let output := set_byte output 6 (num frame.["familyId"]) in
  let output := set_byte output 7 (num frame.["operationId"]) in
  let output := set_byte output 8 (num frame.["flags"]) in
  let output := splice output 9 (n_requestId normalized) in
  let output := writeU64BE output (n_streamId normalized) 25 in
  let output := writeU64BE output (n_sequence normalized) 33 in
  let output := writeUInt32BE output (blen body) 41 in
  Ok (if 0 <? blen body then splice output WIRE_HEADER_BYTES body else output).

(** [options.copyBody] only chooses between a copy and a view of the body. *)
Definition decodeDispatchFrame (input : val) : result val :=
  let! input := asBuffer input in
  fail_if (blen input <? DISPATCH_LIMITS_PREFIX_BYTES) ;;!
  let! frameLength := readDispatchLengthPrefix (VBytes input) in
  fail_if (negb (blen input =? DISPATCH_LIMITS_PREFIX_BYTES + frameLength)) ;;!
  let bodyLength := readUInt32BE input 41 in
  throw_if (DISPATCH_LIMITS_MAX_BODY_BYTES <? bodyLength) TOO_LARGE ;;!
  fail_if (negb (frameLength =? DISPATCH_LIMITS_HEADER_BYTES + bodyLength)) ;;!
  let frame := [
    ("version", VNum (get_byte input 4));
    ("frameKind", VNum (get_byte input 5));
    ("familyId", VNum (get_byte input 6));
    ("operationId", VNum (get_byte input 7));
    ("flags", VNum (get_byte input 8));
    ("requestId", VBytes (slice input 9 16));
    ("streamId", VBig (readU64BE input 25));
    ("sequence", VBig (readU64BE input 33))] in
  let! _ := validateFrameShape (VObj frame) in
  validateOperationBodyCap (VObj frame).["frameKind"] (VObj frame).["familyId"] (VObj frame).["operationId"]
    bodyLength ;;!
  Ok (VObj (obj_set frame "body" (VBytes (drop (Z.to_nat WIRE_HEADER_BYTES) input)))).

(** *** The sequence guard

    [lastByStream] maps [streamId.toString(16)], one name per u64, to the last
    sequence number. *)
Record DispatchSequenceGuard := Guard {
  maxStreams : Z;
  lastByStream : gmap Z Z;
}.

(** [constructor (options)]: [options.maxStreams] when it is a positive safe
    integer, else 1024. *)
Definition newGuard (options : val) : DispatchSequenceGuard :=
  Guard (match options.["maxStreams"] with
         | VNum n => if isSafeInteger n && (0 <? n) then n else 1024
         | _ => 1024 end) ∅.

Definition accept (this : DispatchSequenceGuard) (frame : val) : result DispatchSequenceGuard :=
  if nullish frame
     || (negb (is_num frame.["frameKind"] FRAME_KIND_STREAM)
         && negb (is_num frame.["frameKind"] FRAME_KIND_ERROR
                  && negb (strict_eqb frame.["streamId"] (VBig 0))))
  then Ok this
  else
    let! streamId := asU64 frame.["streamId"] in
    let! sequence := asU64 frame.["sequence"] in
    let previous := lastByStream this !! streamId in
    fail_if (match previous with Some previous => sequence <=? previous | None => false end) ;;!
    throw_if (match previous with
              | Some _ => false
              | None => maxStreams this <=? Z.of_nat (size (lastByStream this)) end) BUSY ;;!
    Ok (Guard (maxStreams this) (<[streamId := sequence]> (lastByStream this))).

Definition close (this : DispatchSequenceGuard) (streamId : val) : result DispatchSequenceGuard :=
  let! streamId := asU64 streamId in
  Ok (Guard (maxStreams this) (delete streamId (lastByStream this))).

Definition clear (this : DispatchSequenceGuard) : DispatchSequenceGuard := Guard (maxStreams this) ∅.

End Dispatch.
