(* ===== verification/DispatchLaws.v ===== *)
(** * Laws of the dispatch frame and of the sequence guard

    [wire] is the layout of a frame as a concatenation and [frame_ok] says that
    its header passes the checks of the code. The encoder produces exactly the
    [wire] of the frames that are [frame_ok], and the decoder accepts exactly
    those. *)

From Stdlib Require Import ZArith Lia Bool List String Ascii Sorted.
From Stdlib Require Import Strings.Byte.
From stdpp Require Import base tactics list strings gmap.
From S2P Require Import Prelude Codec CodecLaws Authority SchemaKit Dispatch.
Import Dispatch.

Record header := Header {
  h_kind : Z; h_family : Z; h_operation : Z; h_requestId : bytes; h_streamId : Z; h_sequence : Z }.

(** The object [decodeDispatchFrame] builds from a header. *)
Definition header_fields (h : header) : list (string * val) := [
  ("version", VNum 1); ("frameKind", VNum (h_kind h)); ("familyId", VNum (h_family h));
  ("operationId", VNum (h_operation h)); ("flags", VNum 0); ("requestId", VBytes (h_requestId h));
  ("streamId", VBig (h_streamId h)); ("sequence", VBig (h_sequence h))].

Definition frame_obj (h : header) (body : bytes) : val :=
  VObj (header_fields h ++ [("body", VBytes body)]).

Definition wire (h : header) (body : bytes) : bytes :=
  be_bytes 4 (41 + blen body)
  ++ [z2b 1; z2b (h_kind h); z2b (h_family h); z2b (h_operation h); z2b 0]
  ++ h_requestId h ++ be_bytes 8 (h_streamId h) ++ be_bytes 8 (h_sequence h)
  ++ be_bytes 4 (blen body) ++ body.

Definition frame_ok (h : header) (body : bytes) : Prop :=
  validateFrameShape (VObj (header_fields h))
    = Ok (Normalized (h_requestId h) (h_streamId h) (h_sequence h)) /\
  validateOperationBodyCap (VNum (h_kind h)) (VNum (h_family h)) (VNum (h_operation h)) (blen body) = Ok tt /\
  blen body <= DISPATCH_LIMITS_MAX_BODY_BYTES.

(** ** Inversion of the checks *)

Lemma bad_id_ok id : bad_id id = false -> exists n, id = VNum n /\ 1 <= n <= 255.
Proof. destruct id; try discriminate. simpl. intros H. b2p. eauto. Qed.

Lemma frame_kind_ok k : existsb (is_num k) FRAME_KINDS = true -> exists n, k = VNum n /\ 1 <= n <= 4.
Proof.
  intros H. apply existsb_exists in H as (n & Hin & Hn). apply is_num_iff in Hn as ->.
  exists n. split; [done|]. repeat (destruct Hin as [<-|Hin]; [unfold FRAME_KIND_REQUEST,
    FRAME_KIND_RESPONSE, FRAME_KIND_ERROR, FRAME_KIND_STREAM; lia|]). done.
Qed.

Ltac next H := let H' := fresh H in apply bindR_ok in H as (? & H' & H);
  try (first [apply fail_if_ok in H' | apply throw_if_ok in H']); try apply negb_false_iff in H'.

(** The shape check reads the eight header fields, and the two u64 fields only
    through [asU64]. *)
Lemma validateFrameShape_inv frame n : validateFrameShape frame = Ok n ->
  exists kind family operation,
    let h := Header kind family operation (n_requestId n) (n_streamId n) (n_sequence n) in
    frame.["version"] = VNum 1 /\ frame.["frameKind"] = VNum kind /\
    frame.["familyId"] = VNum family /\ frame.["operationId"] = VNum operation /\
    frame.["flags"] = VNum 0 /\ frame.["requestId"] = VBytes (n_requestId n) /\
    1 <= kind <= 4 /\ 1 <= family <= 255 /\ 1 <= operation <= 255 /\
    blen (n_requestId n) = 16 /\ 0 <= n_streamId n <= MAX_U64 /\ 0 <= n_sequence n <= MAX_U64 /\
    isKnownOperation (VNum family) (VNum operation) = true /\
    asU64 frame.["streamId"] = Ok (n_streamId n) /\ asU64 frame.["sequence"] = Ok (n_sequence n) /\
    validateFrameShape (VObj (header_fields h)) = Ok n.
Proof.
  intros Hq. pose proof Hq as Hq'. unfold validateFrameShape in Hq.
  next Hq. apply is_num_iff in Hq0. next Hq. apply frame_kind_ok in Hq1 as (kind & Hk & Hkr).
  next Hq. unfold validateIds in Hq1. next Hq1. next Hq1.
  apply bad_id_ok in Hq2 as (fam & Hf & Hfr). apply bad_id_ok in Hq3 as (op & Ho & Hor).
  apply fail_if_ok, negb_false_iff in Hq1.
  next Hq. next Hq. apply is_num_iff in Hq3. next Hq. next Hq. apply Z.eqb_eq in Hq5.
  next Hq. next Hq. next Hq. injection Hq as <-. simpl.
  exists kind, fam, op.
  destruct (frame.["requestId"]) as [| | | |rid| | | | |] eqn:Hr; try discriminate. injection Hq4 as <-.
  pose proof (proj1 (asU64_ok _ _ Hq6)) as Hs. pose proof (proj1 (asU64_ok _ _ Hq7)) as Hsq.
  rewrite Hf, Ho in Hq1.
  split_and!; try done; try lia.
  rewrite <- Hq'. unfold validateFrameShape.
  cbn [get header_fields assoc String.eqb Ascii.eqb Bool.eqb h_kind h_family h_operation h_requestId h_streamId h_sequence].
  rewrite Hq0, Hk, Hf, Ho, Hq3, Hr, Hq6, Hq7. unfold asU64. by rewrite !asU64_big.
Qed.

(** ** The encoder *)

Lemma encode_writes h body output :
  blen (h_requestId h) = 16 -> blen output = 45 + blen body ->
  (let output := writeUInt32BE output (41 + blen body) 0 in
   let output := set_byte output 4 1 in
   let output := set_byte output 5 (h_kind h) in
   let output := set_byte output 6 (h_family h) in
   let output := set_byte output 7 (h_operation h) in
   let output := set_byte output 8 0 in
   let output := splice output 9 (h_requestId h) in
   let output := writeU64BE output (h_streamId h) 25 in
   let output := writeU64BE output (h_sequence h) 33 in
   let output := writeUInt32BE output (blen body) 41 in
   if 0 <? blen body then splice output WIRE_HEADER_BYTES body else output) = wire h body.
Proof.
  intros Hr Hl. pose proof (blen_nonneg body). cbv zeta. unfold writeUInt32BE.
  repeat (rewrite set_byte_next by len).
  rewrite splice_next by len.
  change writeU64BE with (fun b v o => writeU64 b v o false). cbv beta.
  rewrite (writeU64_be_spec _ (h_streamId h)) by (rewrite ?blen_splice by len; len).
  rewrite splice_next by len.
  rewrite (writeU64_be_spec _ (h_sequence h)) by (rewrite ?blen_splice by len; len).
  rewrite splice_next by len.
  rewrite splice_next by len.
  assert (Hw : splice (splice output 0 (((((((((be_bytes 4 (41 + blen body) ++ [z2b 1]) ++ [z2b (h_kind h)])
      ++ [z2b (h_family h)]) ++ [z2b (h_operation h)]) ++ [z2b 0]) ++ h_requestId h)
      ++ be_bytes 8 (h_streamId h)) ++ be_bytes 8 (h_sequence h)) ++ be_bytes 4 (blen body)))
      WIRE_HEADER_BYTES body = wire h body).
  { unfold WIRE_HEADER_BYTES, DISPATCH_LIMITS_PREFIX_BYTES, DISPATCH_LIMITS_HEADER_BYTES.
    rewrite splice_next by len.
    rewrite splice_all by len. unfold wire. by rewrite <- !app_assoc. }
  destruct (0 <? blen body) eqn:E; [done|].
  assert (body = []) as -> by (destruct body; [done|rewrite blen_cons in E; b2p; pose proof (blen_nonneg body); lia]).
  rewrite splice_nil in Hw. done.
Qed.

Lemma wire_length h body : blen (h_requestId h) = 16 -> blen (wire h body) = 45 + blen body.
Proof. intros Hr. unfold wire. len. Qed.

(** The bounds every accepted header satisfies. *)
Lemma frame_ok_bounds h body : frame_ok h body ->
  1 <= h_kind h <= 4 /\ 1 <= h_family h <= 255 /\ 1 <= h_operation h <= 255 /\
  blen (h_requestId h) = 16 /\ 0 <= h_streamId h <= MAX_U64 /\ 0 <= h_sequence h <= MAX_U64 /\
  0 <= blen body <= DISPATCH_LIMITS_MAX_BODY_BYTES.
Proof.
  intros (Hs & _ & Hb). pose proof (blen_nonneg body).
  apply validateFrameShape_inv in Hs as (k & f & o & _ & Hk & Hf & Ho & _ & _ & Hkr & Hfr & Hor & Hr & Hsr & Hqr & _).
  simpl in *. injection Hk as <-. injection Hf as <-. injection Ho as <-. auto 10.
Qed.

Lemma encode_accepted h body : frame_ok h body ->
  encodeDispatchFrame (frame_obj h body) = Ok (wire h body).
Proof.
  intros Hok. pose proof (frame_ok_bounds _ _ Hok) as (_ & _ & _ & Hr & _ & _ & Hb).
  destruct Hok as (Hs & Hc & _). unfold encodeDispatchFrame.
  cbn [is_object negb fail_if throw_if bindR frame_obj header_fields get assoc app String.eqb Ascii.eqb Bool.eqb
       nullish asBuffer default].
  rewrite (proj2 (Z.ltb_ge _ _)) by lia. cbn [bindR].
  unfold header_fields in Hs. rewrite Hs. cbn [bindR]. rewrite Hc. cbn [bindR].
  unfold DISPATCH_LIMITS_MAX_BODY_BYTES in Hb.
  rewrite (proj2 (Z.ltb_ge _ _))
    by (unfold DISPATCH_LIMITS_MAX_FRAME_AFTER_PREFIX_BYTES, DISPATCH_LIMITS_HEADER_BYTES; lia).
  cbn [throw_if bindR num n_requestId n_streamId n_sequence]. f_equal.
  apply (encode_writes h body); [done|].
  unfold blen at 1. rewrite length_replicate. unfold DISPATCH_LIMITS_PREFIX_BYTES, DISPATCH_LIMITS_HEADER_BYTES. lia.
Qed.

Lemma encode_inv input bs : encodeDispatchFrame input = Ok bs ->
  exists h body, frame_ok h body /\ bs = wire h body /\
    input.["frameKind"] = VNum (h_kind h) /\ input.["familyId"] = VNum (h_family h) /\
    input.["operationId"] = VNum (h_operation h) /\ input.["requestId"] = VBytes (h_requestId h) /\
    asU64 (default input.["streamId"] (VBig 0)) = Ok (h_streamId h) /\
    asU64 (default input.["sequence"] (VBig 0)) = Ok (h_sequence h) /\
    default input.["body"] (VBytes []) = VBytes body.
Proof.
  unfold encodeDispatchFrame. intros Hq. next Hq. apply bindR_ok in Hq as (body & Hbody & Hq). next Hq. b2p.
  cbv zeta in Hq. set (frame := VObj _) in Hq. apply bindR_ok in Hq as (n & Hn & Hq).
  apply validateFrameShape_inv in Hn as (k & f & o & Hv & Hk & Hf & Ho & Hfl & Hrid & Hkr & Hfr & Hor & Hr & Hsr & Hqr & _ & Hsid & Hseq & Hs).
  rewrite Hv, Hk, Hf, Ho, Hfl in Hq. change (input.["frameKind"] = VNum k) in Hk.
  change (input.["familyId"] = VNum f) in Hf. change (input.["operationId"] = VNum o) in Ho.
  change (input.["requestId"] = VBytes (n_requestId n)) in Hrid.
  set (h := Header _ _ _ _ _ _) in Hs. apply bindR_ok in Hq as ([] & Hc & Hq).
  exists h, body.
  assert (Hok : frame_ok h body) by (split; [by destruct n | split; [done | lia]]).
  split; [done|]. split.
  - pose proof (encode_accepted _ _ Hok) as He. 
    next Hq. injection Hq as <-. apply (encode_writes h body); [done|].
    unfold blen at 1. rewrite length_replicate. pose proof (blen_nonneg body).
    unfold DISPATCH_LIMITS_PREFIX_BYTES, DISPATCH_LIMITS_HEADER_BYTES. lia.
  - split_and!; try done. unfold default. destruct (nullish _); [by injection Hbody as <-|].
    destruct (input.["body"]); try discriminate. by injection Hbody as <-.
Qed.

(** ** The decoder *)

(** What the decoder reads from a frame of the right length. *)
Record fields_of (bs : bytes) (h : header) (body : bytes) : Prop := FieldsOf {
  f_version : get_byte bs 4 = 1;
  f_kind : get_byte bs 5 = h_kind h;
  f_family : get_byte bs 6 = h_family h;
  f_operation : get_byte bs 7 = h_operation h;
  f_flags : get_byte bs 8 = 0;
  f_requestId : slice bs 9 16 = h_requestId h;
  f_streamId : be_val (slice bs 25 8) = h_streamId h;
  f_sequence : be_val (slice bs 33 8) = h_sequence h;
  f_length : readUInt32BE bs 0 = 41 + blen body;
  f_bodyLength : readUInt32BE bs 41 = blen body;
  f_body : drop 45 bs = body
}.

Lemma byte_small n : 0 <= n <= 255 -> b2z (z2b n) = n.
Proof. intros. rewrite b2z_z2b. apply Z.mod_small. lia. Qed.

Lemma wire_fields h body : frame_ok h body -> fields_of (wire h body) h body.
Proof.
  intros Hok. apply frame_ok_bounds in Hok as (Hk & Hf & Ho & Hr & Hs & Hq & Hb).
  unfold MAX_U64, DISPATCH_LIMITS_MAX_BODY_BYTES in *.
  assert (H32 : forall n, 0 <= n < 4294967296 -> be_val (be_bytes 4 n) = n) by (intros; by apply be_val_be_bytes).
  assert (H64 : forall n, 0 <= n <= 18446744073709551615 -> be_val (be_bytes 8 n) = n)
    by (intros; apply be_val_be_bytes; simpl; lia).
  unfold wire, readUInt32BE. set (L := be_bytes 4 (41 + blen body)).
  assert (HL : blen L = 4) by (unfold L; len).
  set (S := be_bytes 8 (h_streamId h)). assert (HS : blen S = 8) by (unfold S; len).
  set (Q := be_bytes 8 (h_sequence h)). assert (HQ : blen Q = 8) by (unfold Q; len).
  set (B := be_bytes 4 (blen body)). assert (HB : blen B = 4) by (unfold B; len).
  set (M := [_; _; _; _; _]). assert (HM : blen M = 5) by done.
  assert (HMb : forall pre x post R, M = pre ++ x :: post -> get_byte (L ++ M ++ R) (4 + blen pre) = b2z x).
  { intros pre x post R ->. apply (get_byte_part _ (L ++ pre) x (post ++ R)); [|len].
    by rewrite <- !app_assoc. }
  split.
  - etransitivity; [apply (HMb [] (z2b 1) [z2b (h_kind h); z2b (h_family h); z2b (h_operation h); z2b 0] _ eq_refl)|]. apply byte_small; lia.
  - etransitivity; [apply (HMb [z2b 1] (z2b (h_kind h)) [z2b (h_family h); z2b (h_operation h); z2b 0] _ eq_refl)|]. apply byte_small; lia.
  - etransitivity; [apply (HMb [z2b 1; z2b (h_kind h)] (z2b (h_family h)) [z2b (h_operation h); z2b 0] _ eq_refl)|]. apply byte_small; lia.
  - etransitivity; [apply (HMb [z2b 1; z2b (h_kind h); z2b (h_family h)] (z2b (h_operation h)) [z2b 0] _ eq_refl)|]. apply byte_small; lia.
  - etransitivity; [apply (HMb [z2b 1; z2b (h_kind h); z2b (h_family h); z2b (h_operation h)] (z2b 0) [] _ eq_refl)|]. apply byte_small; lia.
  - apply (slice_part _ (L ++ M) _ (S ++ Q ++ B ++ body)); [by rewrite <- app_assoc | len | lia].
  - rewrite (slice_part _ (L ++ M ++ h_requestId h) S (Q ++ B ++ body)) by (rewrite <- ?app_assoc; len; done).
    apply H64; lia.
  - rewrite (slice_part _ (L ++ M ++ h_requestId h ++ S) Q (B ++ body)) by (rewrite <- ?app_assoc; len; done).
    apply H64; lia.
  - unfold readUInt32BE. rewrite (slice_part _ [] L (M ++ h_requestId h ++ S ++ Q ++ B ++ body)) by (done || lia). apply H32. lia.
  - unfold readUInt32BE. rewrite (slice_part _ (L ++ M ++ h_requestId h ++ S ++ Q) B body) by (rewrite <- ?app_assoc; len; done).
    apply H32. lia.
  - apply (drop_part _ (L ++ M ++ h_requestId h ++ S ++ Q ++ B) body 45); [by rewrite <- !app_assoc | len].
Qed.

Lemma decode_accepted h body : frame_ok h body ->
  decodeDispatchFrame (VBytes (wire h body)) = Ok (frame_obj h body).
Proof.
  intros Hok. destruct (wire_fields _ _ Hok) as [Fv Fk Ff Fo Fg Fr Fs Fq Fl Fb Fd].
  pose proof (frame_ok_bounds _ _ Hok) as (_ & _ & _ & Hr & _ & _ & Hb). pose proof (wire_length h body Hr) as Hw.
  destruct Hok as (Hs & Hc & _). unfold DISPATCH_LIMITS_MAX_BODY_BYTES in Hb.
  unfold decodeDispatchFrame, readDispatchLengthPrefix. cbn [asBuffer bindR].
  rewrite Fl, Fb, Hw, Fv, Fk, Ff, Fo, Fg, Fr.
  change (readU64BE ?b ?o) with (readU64 b o false). rewrite !readU64_be_spec by lia. rewrite Fs, Fq.
  unfold DISPATCH_LIMITS_PREFIX_BYTES, DISPATCH_LIMITS_HEADER_BYTES,
    DISPATCH_LIMITS_MAX_FRAME_AFTER_PREFIX_BYTES, DISPATCH_LIMITS_MAX_BODY_BYTES.
  repeat rewrite (proj2 (Z.ltb_ge _ _)) by lia. cbn [fail_if throw_if bindR].
  rewrite (proj2 (Z.eqb_eq (45 + _) _)) by lia. cbn [negb fail_if throw_if bindR].
  rewrite Z.eqb_refl. cbn [negb fail_if throw_if bindR].
  unfold header_fields in Hs. rewrite Hs. cbn [bindR get assoc String.eqb Ascii.eqb Bool.eqb]. rewrite Hc. cbn [bindR].
  change (Z.to_nat WIRE_HEADER_BYTES) with 45%nat. rewrite Fd. done.
Qed.

(** A buffer is determined by what the decoder reads from it. *)
Lemma wire_of_fields bs h body : blen bs = 45 + blen body -> fields_of bs h body -> bs = wire h body.
Proof.
  intros Hl [Fv Fk Ff Fo Fg Fr Fs Fq FL Fb Fd]. pose proof (blen_nonneg body).
  rewrite <- (slice_all bs), Hl.
  replace (45 + blen body) with (4 + (5 + (16 + (8 + (8 + (4 + blen body)))))) by lia.
  do 6 (rewrite slice_app by lia). cbn [Z.add Pos.add Pos.succ Pos.add_carry].
  unfold wire. f_equal; [|f_equal; [|f_equal; [done|f_equal; [|f_equal; [|f_equal]]]]].
  - rewrite <- FL. unfold readUInt32BE. rewrite be_bytes_of; [done|]. pose proof (blen_slice bs 0 4). unfold blen in *. lia.
  - assert (slice bs 4 5 = z2b (get_byte bs 4) :: slice bs 5 4) as E4 by (apply (slice_cons bs 4 4); lia).
    assert (slice bs 5 4 = z2b (get_byte bs 5) :: slice bs 6 3) as E5 by (apply (slice_cons bs 5 3); lia).
    assert (slice bs 6 3 = z2b (get_byte bs 6) :: slice bs 7 2) as E6 by (apply (slice_cons bs 6 2); lia).
    assert (slice bs 7 2 = z2b (get_byte bs 7) :: slice bs 8 1) as E7 by (apply (slice_cons bs 7 1); lia).
    assert (slice bs 8 1 = z2b (get_byte bs 8) :: slice bs 9 0) as E8 by (apply (slice_cons bs 8 0); lia).
    assert (slice bs 9 0 = []) as E9 by done.
    etransitivity; [exact E4|]. by rewrite E5, E6, E7, E8, E9, Fv, Fk, Ff, Fo, Fg.
  - rewrite <- Fs, be_bytes_of; [done|]. pose proof (blen_slice bs 25 8). unfold blen in *. lia.
  - rewrite <- Fq, be_bytes_of; [done|]. pose proof (blen_slice bs 33 8). unfold blen in *. lia.
  - rewrite <- Fb. unfold readUInt32BE. rewrite be_bytes_of; [done|]. pose proof (blen_slice bs 41 4). unfold blen in *. lia.
  - change (slice bs 45 (blen body) = body). unfold slice. change (Z.to_nat 45) with 45%nat.
    rewrite Fd. apply take_ge. unfold blen. lia.
Qed.

Lemma decode_inv input frame : decodeDispatchFrame input = Ok frame ->
  exists h body, frame_ok h body /\ frame = frame_obj h body /\ input = VBytes (wire h body).
Proof.
  unfold decodeDispatchFrame. intros Hq. apply bindR_ok in Hq as (bs & Hbs & Hq).
  assert (input = VBytes bs) as -> by (destruct input; try discriminate; by injection Hbs as ->).
  next Hq. apply bindR_ok in Hq as (L & HL & Hq). next Hq. next Hq. next Hq. cbv zeta in Hq.
  apply bindR_ok in Hq as (n & Hn & Hq). apply bindR_ok in Hq as ([] & Hc & Hq). injection Hq as <-.
  unfold readDispatchLengthPrefix in HL. cbn [asBuffer bindR] in HL. next HL. next HL. next HL. injection HL as <-.
  b2p. unfold DISPATCH_LIMITS_PREFIX_BYTES, DISPATCH_LIMITS_HEADER_BYTES, DISPATCH_LIMITS_MAX_BODY_BYTES in *.
  change (readU64BE ?b ?o) with (readU64 b o false) in *.
  assert (H0 : 0 <= readUInt32BE bs 41) by apply be_val_bound.
  rewrite !readU64_be_spec in * by lia.
  pose proof (validateFrameShape_inv _ _ Hn) as (k & f & o & Hv & Hk & Hf & Ho & Hg & Hr & _ & _ & _ & _ & _ & _ & _ & Hs & Hq & _).
  injection Hv as Hv. injection Hg as Hg. injection Hr as Hr.
  cbn [get assoc String.eqb Ascii.eqb Bool.eqb] in Hs, Hq, Hc.
  set (sid := be_val (slice bs 25 8)) in *. set (seq := be_val (slice bs 33 8)) in *.
  assert (n_streamId n = sid) as Hsid by (apply asU64_ok in Hs as (_ & [Hs|Hs]); congruence).
  assert (n_sequence n = seq) as Hseq by (apply asU64_ok in Hq as (_ & [Hq|Hq]); congruence).
  set (h := Header (get_byte bs 5) (get_byte bs 6) (get_byte bs 7) (slice bs 9 16) sid seq).
  set (body := drop 45 bs).
  assert (Hbl : blen body = readUInt32BE bs 41) by (unfold body, blen in *; rewrite length_drop; lia).
  exists h, body. split_and!.
  - split; [|split].
    + rewrite Hv, Hg in Hn. unfold header_fields. simpl. rewrite Hn. destruct n; simpl in *. by subst.
    + by rewrite Hbl.
    + unfold DISPATCH_LIMITS_MAX_BODY_BYTES. lia.
  - unfold frame_obj, header_fields. simpl. by rewrite Hv, Hg.
  - f_equal. apply wire_of_fields; [lia|]. split; try done. lia.
Qed.

(** ** The rules a frame obeys

    The calls are the operations answered by one response; two of them open a
    stream; the three data-plane operations travel inside one. *)

Definition DATA_PLANE : list (Z * Z) := [(5, 2); (5, 3); (5, 4)].
Definition STREAM_OPENS : list (Z * Z) := [(4, 3); (5, 1)].
Definition CALLS : list (Z * Z) := [
  (1, 1); (1, 2); (1, 3); (2, 1); (2, 2); (2, 3); (2, 4); (2, 5); (2, 6);
  (3, 1); (3, 2); (3, 3); (3, 4); (3, 5); (3, 6); (4, 1); (4, 2); (4, 3); (5, 1)].

Definition request_id (zero : bool) (rid : bytes) : Prop := blen rid = 16 /\ isAllZero rid = zero.

Inductive admissible : header -> Prop :=
| admit_request f o rid : In (f, o) CALLS -> request_id false rid ->
    admissible (Header 1 f o rid 0 0)
| admit_response f o rid : In (f, o) CALLS -> ~ In (f, o) STREAM_OPENS -> request_id false rid ->
    admissible (Header 2 f o rid 0 0)
| admit_opened f o rid sid : In (f, o) STREAM_OPENS -> request_id false rid -> 0 < sid <= MAX_U64 ->
    admissible (Header 2 f o rid sid 0)
| admit_error f o rid : In (f, o) ((5, 4) :: CALLS) -> request_id false rid ->
    admissible (Header 3 f o rid 0 0)
| admit_stream_error rid sid seq : request_id true rid -> 0 < sid <= MAX_U64 -> 0 <= seq <= MAX_U64 ->
    admissible (Header 3 5 4 rid sid seq)
| admit_stream f o rid sid seq : In (f, o) DATA_PLANE -> request_id true rid ->
    0 < sid <= MAX_U64 -> 0 <= seq <= MAX_U64 -> admissible (Header 4 f o rid sid seq).

Definition u64_b (n : Z) : bool := (0 <=? n) && (n <=? MAX_U64).

Definition correlated_b (h : header) : bool :=
  let zero := isAllZero (h_requestId h) in
  let opens := isStreamingOpen (VNum (h_family h)) (VNum (h_operation h)) in
  let data := isStreamOperation (VNum (h_family h)) (VNum (h_operation h)) in
  let sid := h_streamId h =? 0 in
  let seq := h_sequence h =? 0 in
  if h_kind h =? 1 then negb zero && sid && seq
  else if h_kind h =? 2 then negb zero && seq && eqb opens (negb sid)
  else if h_kind h =? 3 then (negb zero && sid && seq) || (zero && negb sid && data)
  else zero && negb sid && data.

Definition kind_bits_b (h : header) : bool :=
  match operationProfile (VNum (h_family h)) (VNum (h_operation h)) with
  | Some profile =>
      let allowed := if h_kind h =? 1 then op_allowedRequestKindBits profile
                     else if h_kind h =? 4
                     then js_or (op_allowedRequestKindBits profile) (op_allowedResultKindBits profile)
                     else op_allowedResultKindBits profile in
      negb (js_and allowed (js_shl 1 (h_kind h - 1)) =? 0)
  | None => true
  end.

Definition shape_b (h : header) : bool :=
  existsb (Z.eqb (h_kind h)) FRAME_KINDS
  && ((negb (bad_id (VNum (h_family h)))
       && (negb (bad_id (VNum (h_operation h)))
           && isKnownOperation (VNum (h_family h)) (VNum (h_operation h))))
  && (kind_bits_b h && ((blen (h_requestId h) =? 16)
  && (u64_b (h_streamId h) && (u64_b (h_sequence h) && correlated_b h))))).

Lemma is_ok_fail c : is_ok (fail_if c) = negb c.
Proof. by destruct c. Qed.

(** A sequence of checks succeeds when each does. *)
Lemma is_ok_and {A B} (m : result A) (k : A -> result B) b rest :
  is_ok m = b -> (forall x, m = Ok x -> is_ok (k x) = rest) -> is_ok (bindR m k) = b && rest.
Proof. intros <- Hk. destruct m; simpl; auto. Qed.

Lemma is_ok_u64 n : is_ok (asU64 (VBig n)) = u64_b n.
Proof.
  unfold asU64, Codec.asU64, u64_b. simpl. rewrite !Z.ltb_antisym. by destruct (0 <=? n), (n <=? MAX_U64).
Qed.

Lemma shape_bool h : is_ok (validateFrameShape (VObj (header_fields h))) = shape_b h.
Proof.
  unfold validateFrameShape, validateIds, header_fields, shape_b.
  cbn [get assoc String.eqb Ascii.eqb Bool.eqb num asBuffer]. simpl (is_num (VNum 1) 1). cbn [negb throw_if bindR].
  apply is_ok_and; [by rewrite is_ok_fail, negb_involutive|]. intros _ _.
  apply is_ok_and.
  { apply is_ok_and; [apply is_ok_fail|]. intros _ _.
    apply is_ok_and; [apply is_ok_fail|]. intros _ _. by rewrite is_ok_fail, negb_involutive. }
  intros _ _. apply is_ok_and.
  { unfold kind_bits_b. destruct (operationProfile _ _); [apply is_ok_fail|done]. }
  intros _ _. simpl (is_num (VNum 0) 0). cbn [negb fail_if throw_if bindR].
  apply is_ok_and; [by rewrite is_ok_fail, negb_involutive|]. intros _ _.
  apply is_ok_and; [apply is_ok_u64|]. intros sid Hsid.
  apply is_ok_and; [apply is_ok_u64|]. intros seq Hseq.
  apply asU64_ok in Hsid as (_ & [[= <-]|]); [|done]. apply asU64_ok in Hseq as (_ & [[= <-]|]); [|done].
  rewrite <- (andb_true_r (correlated_b h)). apply is_ok_and; [|done].
  unfold correlated_b.
  change (is_num (VNum (h_kind h)) FRAME_KIND_REQUEST) with (h_kind h =? 1).
  change (is_num (VNum (h_kind h)) FRAME_KIND_RESPONSE) with (h_kind h =? 2).
  change (is_num (VNum (h_kind h)) FRAME_KIND_ERROR) with (h_kind h =? 3). cbv zeta.
  destruct (h_kind h =? 1); [rewrite is_ok_fail; by destruct (isAllZero _), (_ =? 0), (_ =? 0)|].
  destruct (h_kind h =? 2).
  { rewrite <- (andb_true_r (_ && _ && _)).
    destruct (isAllZero _), (h_sequence h =? 0), (isStreamingOpen _ _), (h_streamId h =? 0); done. }
  destruct (h_kind h =? 3); rewrite is_ok_fail;
    by destruct (isAllZero _), (h_sequence h =? 0), (h_streamId h =? 0), (isStreamOperation _ _).
Qed.

(** The rows of the operation table, as pairs. *)
Lemma known_pairs f o : isKnownOperation (VNum f) (VNum o) = true ->
  In (f, o) (CALLS ++ DATA_PLANE).
Proof.
  unfold isKnownOperation, operationProfile. destruct (find _ _) as [row|] eqn:E; [|done]. intros _.
  apply find_some in E as [Hin Hr]. unfold row_is in Hr. apply andb_prop in Hr as [Hf Ho].
  apply is_num_iff in Hf as [= ->]. apply is_num_iff in Ho as [= ->].
  repeat (destruct Hin as [<-|Hin]; [cbn; tauto|]). done.
Qed.

Ltac in_cases H := repeat (destruct H as [[= <- <-]|H]); [..|destruct H].

Lemma in_u64 n : 0 <= n <= MAX_U64 -> (0 <=? n) && (n <=? MAX_U64) = true.
Proof. intros. apply andb_true_intro. split; apply Z.leb_le; lia. Qed.

(** Picks the rule of a concrete kind and pair. *)
Ltac pair_rule :=
  first [ apply admit_request | apply admit_response | apply admit_opened
        | apply admit_error | apply admit_stream_error | apply admit_stream ];
  solve [ split; done | lia | simpl; tauto | intros HF; simpl in HF; in_cases HF; discriminate
        | simpl; intuition congruence ].

Lemma admissible_iff h : shape_b h = true <-> admissible h.
Proof.
  split.
  - destruct h as [k f o rid sid seq]. unfold shape_b. cbn [h_kind h_family h_operation h_requestId h_streamId h_sequence].
    rewrite !andb_true_iff. intros (Hk & (_ & _ & Hkn) & Hb & Hl & Hs & Hq & Hc).
    apply known_pairs in Hkn. apply existsb_exists in Hk as (k' & Hk & E). apply Z.eqb_eq in E as <-.
    unfold u64_b in *. apply Z.eqb_eq in Hl. apply andb_prop in Hs as [? ?], Hq as [? ?]. b2p.
    unfold correlated_b in Hc. cbn [h_kind h_family h_operation h_requestId h_streamId h_sequence] in Hc.
    destruct (isAllZero rid) eqn:Hz, (sid =? 0) eqn:Es, (seq =? 0) eqn:Eq;
      apply in_app_iff in Hkn as [Hkn|Hkn]; repeat (destruct Hk as [<-|Hk]; [|]); try done;
      in_cases Hkn; vm_compute in Hc, Hb; try discriminate; clear Hb Hc; b2p; subst; pair_rule.
  - intros Ha. destruct Ha as [f o rid Hin [Hl Hz]|f o rid Hin Hn [Hl Hz]|f o rid sid Hin [Hl Hz] Hs
      |f o rid Hin [Hl Hz]|rid sid seq [Hl Hz] Hs Hq|f o rid sid seq Hin [Hl Hz] Hs Hq];
      unfold shape_b, correlated_b, u64_b; cbn [h_kind h_family h_operation h_requestId h_streamId h_sequence];
      rewrite Hl, Hz, ?in_u64 by lia; try (rewrite (proj2 (Z.eqb_neq sid 0)) by lia).
    + in_cases Hin; vm_compute; done.
    + in_cases Hin; try (exfalso; apply Hn; simpl; tauto); vm_compute; done.
    + in_cases Hin; vm_compute; done.
    + in_cases Hin; vm_compute; done.
    + vm_compute; done.
    + in_cases Hin; vm_compute; done.
Qed.

(** The largest body of a frame. *)
Definition body_cap (h : header) : Z :=
  match operationProfile (VNum (h_family h)) (VNum (h_operation h)) with
  | Some profile =>
      if h_kind h =? 1 then op_maxRequestBodyBytes profile
      else if h_kind h =? 4 then Z.max (op_maxRequestBodyBytes profile) (op_maxResultBodyBytes profile)
      else op_maxResultBodyBytes profile
  | None => 0
  end.

Lemma profile_caps f o profile : operationProfile f o = Some profile ->
  op_maxRequestBodyBytes profile <= 4194304 /\ op_maxResultBodyBytes profile <= 4194304.
Proof.
  intros Hf. apply find_some in Hf as [Hin _].
  repeat (destruct Hin as [<-|Hin]; [cbn; lia|]). done.
Qed.

Lemma frame_ok_iff h body : frame_ok h body <-> admissible h /\ blen body <= body_cap h.
Proof.
  rewrite <- admissible_iff, <- shape_bool. unfold frame_ok, validateOperationBodyCap, body_cap.
  change (is_num (VNum (h_kind h)) FRAME_KIND_REQUEST) with (h_kind h =? 1).
  change (is_num (VNum (h_kind h)) FRAME_KIND_STREAM) with (h_kind h =? 4). split.
  - intros (Hs & Hc & _). rewrite Hs. split; [done|].
    apply validateFrameShape_inv in Hs as (k & f & o & _ & _ & Hf & Ho & _ & _ & _ & _ & _ & _ & _ & _ & Hkn & _).
    injection Hf as <-. injection Ho as <-. unfold isKnownOperation in Hkn.
    destruct (operationProfile _ _); [|done]. apply throw_if_ok in Hc. b2p. lia.
  - intros [Hs Hc]. destruct (validateFrameShape _) as [n|] eqn:Hn; [|done]. pose proof Hn as Hn'.
    apply validateFrameShape_inv in Hn' as (k & f & o & _ & _ & Hf & Ho & _ & Hr & _ & _ & _ & _ & _ & _ & Hkn & Hss & Hqq & _).
    injection Hf as <-. injection Ho as <-. injection Hr as Hr. unfold isKnownOperation in Hkn.
    apply asU64_ok in Hss as (_ & [[= Hss]|]); [|done]. apply asU64_ok in Hqq as (_ & [[= Hqq]|]); [|done].
    split; [destruct n; simpl in *; congruence|].
    destruct (operationProfile _ _) as [p|] eqn:Hp; [|done]. apply profile_caps in Hp as [? ?].
    unfold DISPATCH_LIMITS_MAX_BODY_BYTES. split.
    + apply throw_if_ok. apply Z.ltb_ge. done.
    + destruct (h_kind h =? 1), (h_kind h =? 4); lia.
Qed.

(** ** The sequence guard *)

(** The stream and sequence number the guard takes from a frame; None for the
    frames it does not look at. *)
Definition guarded (frame : val) : option (val * val) :=
  if nullish frame
     || (negb (is_num frame.["frameKind"] FRAME_KIND_STREAM)
         && negb (is_num frame.["frameKind"] FRAME_KIND_ERROR
                  && negb (strict_eqb frame.["streamId"] (VBig 0))))
  then None else Some (frame.["streamId"], frame.["sequence"]).

(** The sequence numbers [frames] carry on stream [sid]. *)
Fixpoint sequences (sid : Z) (frames : list val) : list Z :=
  match frames with
  | [] => []
  | frame :: rest =>
      match guarded frame with
      | Some (s, q) =>
          match asU64 s, asU64 q with
          | Ok s, Ok q => if s =? sid then q :: sequences sid rest else sequences sid rest
          | _, _ => sequences sid rest
          end
      | None => sequences sid rest
      end
  end.

(** Every frame of a connection, in order, until the guard throws. *)
Fixpoint accept_all (guard : DispatchSequenceGuard) (frames : list val) : result DispatchSequenceGuard :=
  match frames with
  | [] => Ok guard
  | frame :: rest => let! guard := accept guard frame in accept_all guard rest
  end.

Definition bounded (guard : DispatchSequenceGuard) : Prop :=
  Z.of_nat (size (lastByStream guard)) <= maxStreams guard.

Lemma accept_inv guard frame guard' : accept guard frame = Ok guard' ->
  match guarded frame with
  | None => guard' = guard
  | Some (s, q) => exists sid seq, asU64 s = Ok sid /\ asU64 q = Ok seq /\
      (forall last, lastByStream guard !! sid = Some last -> last < seq) /\
      (lastByStream guard !! sid = None -> Z.of_nat (size (lastByStream guard)) < maxStreams guard) /\
      guard' = Guard (maxStreams guard) (<[sid := seq]> (lastByStream guard))
  end.
Proof.
  unfold accept, guarded. destruct (nullish frame || _); [by intros [= <-]|].
  intros Hq. apply bindR_ok in Hq as (sid & Hs & Hq). apply bindR_ok in Hq as (seq & Hq' & Hq).
  apply bindR_ok in Hq as (? & Hl & Hq). apply bindR_ok in Hq as (? & Hf & Hq). injection Hq as <-.
  apply fail_if_ok in Hl. apply throw_if_ok in Hf. exists sid, seq.
  split_and!; try done.
  - intros last Hlast. rewrite Hlast in Hl. by apply Z.leb_gt in Hl.
  - intros Hn. rewrite Hn in Hf. by apply Z.leb_gt in Hf.
Qed.

Lemma accept_bounded guard frame guard' :
  accept guard frame = Ok guard' -> bounded guard -> bounded guard'.
Proof.
  intros Hq Hb. apply accept_inv in Hq. destruct (guarded frame) as [[s q]|]; [|by subst].
  destruct Hq as (sid & seq & _ & _ & _ & Hfree & ->). unfold bounded in *. simpl.
  destruct (lastByStream guard !! sid) eqn:E.
  - rewrite map_size_insert_Some; [done | by eexists].
  - rewrite map_size_insert_None by done. specialize (Hfree eq_refl). lia.
Qed.

Lemma accept_all_sequences sid frames : forall guard guard',
  accept_all guard frames = Ok guard' ->
  StronglySorted Z.lt (sequences sid frames) /\
  forall last, lastByStream guard !! sid = Some last -> Forall (Z.lt last) (sequences sid frames).
Proof.
  induction frames as [|frame rest IH]; intros guard guard' Hq; simpl in *.
  { split; [constructor | intros; constructor]. }
  apply bindR_ok in Hq as (g1 & Ha & Hq). apply IH in Hq as [Hsort Hlast]. apply accept_inv in Ha.
  destruct (guarded frame) as [[s q]|]; [|by subst].
  destruct Ha as (s' & q' & -> & -> & Hmono & _ & ->). simpl in Hlast.
  destruct (s' =? sid) eqn:E; b2p.
  - subst s'. rewrite lookup_insert_eq in Hlast. specialize (Hlast q' eq_refl). split; [by constructor|].
    intros last Hl. apply Hmono in Hl. constructor; [done|].
    eapply Forall_impl; [exact Hlast|]. simpl. lia.
  - rewrite lookup_insert_ne in Hlast by done. auto.
Qed.

(** ** Properties *)

(** Whatever the dispatch encoder accepts, the decoder gives back: the frame
    has the kind, operation, request id, stream, sequence and body of the input
    object (defaults filled in), and it takes 45 bytes plus the body, within the
    wire limit. *)
Theorem dispatch_roundtrip input bs : encodeDispatchFrame input = Ok bs ->
  exists frame body streamId sequence,
    decodeDispatchFrame (VBytes bs) = Ok frame /\
    frame.["frameKind"] = input.["frameKind"] /\ frame.["familyId"] = input.["familyId"] /\
    frame.["operationId"] = input.["operationId"] /\ frame.["requestId"] = input.["requestId"] /\
    asU64 (default input.["streamId"] (VBig 0)) = Ok streamId /\ frame.["streamId"] = VBig streamId /\
    asU64 (default input.["sequence"] (VBig 0)) = Ok sequence /\ frame.["sequence"] = VBig sequence /\
    default input.["body"] (VBytes []) = VBytes body /\ frame.["body"] = VBytes body /\
    blen bs = WIRE_HEADER_BYTES + blen body /\ blen bs <= DISPATCH_LIMITS_MAX_WIRE_BYTES.
Proof.
  intros Hq. apply encode_inv in Hq as (h & body & Hok & -> & Hk & Hf & Ho & Hr & Hs & Hn & Hb).
  exists (frame_obj h body), body, (h_streamId h), (h_sequence h).
  pose proof (frame_ok_bounds _ _ Hok) as (_ & _ & _ & Hl & _ & _ & Hc).
  rewrite (wire_length _ _ Hl), Hk, Hf, Ho, Hr. split_and!; try done; [by apply decode_accepted|].
  unfold DISPATCH_LIMITS_MAX_WIRE_BYTES, DISPATCH_LIMITS_MAX_BODY_BYTES in *. lia.
Qed.

Definition demo_request : val := VObj [
  ("frameKind", VNum 1); ("familyId", VNum 2); ("operationId", VNum 2);
  ("requestId", VBytes (replicate 16 Byte.x07)); ("body", VBytes (ascii_bytes "body"))].

Definition demo_wire : bytes := Eval vm_compute in
  match encodeDispatchFrame demo_request with Ok bs => bs | Err _ => [] end.

Lemma dispatch_roundtrip_witness :
  exists frame body streamId sequence,
    decodeDispatchFrame (VBytes demo_wire) = Ok frame /\
    frame.["frameKind"] = VNum 1 /\ frame.["familyId"] = VNum 2 /\
    frame.["operationId"] = VNum 2 /\ frame.["requestId"] = VBytes (replicate 16 Byte.x07) /\
    asU64 (VBig 0) = Ok streamId /\ frame.["streamId"] = VBig streamId /\
    asU64 (VBig 0) = Ok sequence /\ frame.["sequence"] = VBig sequence /\
    VBytes (ascii_bytes "body") = VBytes body /\ frame.["body"] = VBytes body /\
    blen demo_wire = WIRE_HEADER_BYTES + blen body /\ blen demo_wire <= DISPATCH_LIMITS_MAX_WIRE_BYTES.
Proof. apply (dispatch_roundtrip demo_request demo_wire). vm_compute. reflexivity. Defined.

(** The dispatch decoder is canonical: a buffer it accepts is exactly what
    the encoder produces for the frame it returns, so no frame has two
    encodings. *)
Theorem dispatch_canonical input frame : decodeDispatchFrame input = Ok frame ->
  exists bs, input = VBytes bs /\ encodeDispatchFrame frame = Ok bs.
Proof.
  intros Hq. apply decode_inv in Hq as (h & body & Hok & -> & ->). eauto using encode_accepted.
Qed.

Lemma dispatch_canonical_witness :
  exists bs, VBytes demo_wire = VBytes bs /\
    encodeDispatchFrame (VObj [("version", VNum 1); ("frameKind", VNum 1); ("familyId", VNum 2);
      ("operationId", VNum 2); ("flags", VNum 0); ("requestId", VBytes (replicate 16 Byte.x07));
      ("streamId", VBig 0); ("sequence", VBig 0); ("body", VBytes (ascii_bytes "body"))]) = Ok bs.
Proof. apply dispatch_canonical. vm_compute. reflexivity. Defined.

(** C11: The decoder accepts a buffer exactly when it is the 45-byte header and
    the body of an admissible frame within its operation's body cap: requests
    and responses carry a request id and no sequence, only the two opening
    operations answer with a stream id, data-plane frames name a stream and no
    request, and errors are one of the two. *)
Theorem dispatch_accepts bs frame :
  decodeDispatchFrame (VBytes bs) = Ok frame <->
  exists h body, bs = wire h body /\ frame = frame_obj h body /\
    admissible h /\ blen body <= body_cap h.
Proof.
  split.
  - intros Hq. apply decode_inv in Hq as (h & body & Hok & -> & [= ->]).
    apply frame_ok_iff in Hok as [? ?]. eauto 6.
  - intros (h & body & -> & -> & Ha & Hb). apply decode_accepted, frame_ok_iff. done.
Qed.

(** C16: On a connection guarded from its start, the sequence numbers accepted
    on each stream are strictly increasing, whatever the interleaving of
    streams, and the guard never tracks more streams than its limit. *)
Theorem guard_sequences_increase options frames guard :
  accept_all (newGuard options) frames = Ok guard ->
  Z.of_nat (size (lastByStream guard)) <= maxStreams guard /\
  forall sid, StronglySorted Z.lt (sequences sid frames).
Proof.
  intros Hq. split; [|intros sid; by eapply accept_all_sequences].
  assert (Hb : bounded (newGuard options)).
  { unfold bounded, newGuard. simpl. rewrite map_size_empty. destruct (options.["maxStreams"]); try (simpl; lia).
    destruct (isSafeInteger n && (0 <? n)) eqn:E; b2p; lia. }
  revert Hq Hb. generalize (newGuard options). induction frames as [|f rest IH]; intros g Hq Hb; simpl in Hq.
  - by injection Hq as <-.
  - apply bindR_ok in Hq as (g1 & Ha & Hq). eauto using accept_bounded.
Qed.

Definition demo_stream (sid seq : Z) : val :=
  VObj [("frameKind", VNum 4); ("streamId", VBig sid); ("sequence", VBig seq)].

Lemma guard_sequences_increase_witness : exists guard,
  Z.of_nat (size (lastByStream guard)) <= maxStreams guard /\
  forall sid, StronglySorted Z.lt (sequences sid [demo_stream 7 1; demo_stream 9 1; demo_stream 7 4]).
Proof.
  eexists. apply (guard_sequences_increase VUndef). vm_compute. reflexivity.
Defined.
