(* ===== verification/OuterEnvelope.v ===== *)
(** * The outer envelope (packages/blind-protocol/outer-envelope.js)

    A dispatch frame travels padded to one of six frozen sizes, so that an
    observer of the transport learns the size class only. The padding comes from
    a random source, a parameter here: [randomFill i] is the byte it writes at
    index [i] of the padding. *)

From Stdlib Require Import ZArith Lia Bool List String Ascii.
From Stdlib Require Import Strings.Byte DecimalString.
From stdpp Require Import base tactics list strings.
From S2P Require Import Prelude Codec CodecLaws Authority SchemaKit Dispatch DispatchLaws.

Module Outer.

(** ** The code *)

Definition OUTER_ENVELOPE_HEADER_BYTES : Z := 6.

Definition asBuffer (value : val) : result bytes :=
  match value with VBytes bs => Ok bs | _ => Err BAD_ENCODING end.

Definition smallestOuterClass (innerLength : val) : result Z :=
  match innerLength with
  | VNum n =>
      fail_if (negb (isSafeInteger n) || (n <? 0)) ;;!
      let required := OUTER_ENVELOPE_HEADER_BYTES + n in
      match find (fun entry => required <=? snd entry) OUTER_CLASS with
      | Some entry => Ok (fst entry)
      | None => Err TOO_LARGE
      end
  | _ => Err BAD_ENCODING
  end.

(** [output[i] = value] on a Uint8Array: a string is converted to a number, a
    BigInt throws. *)
Definition store (output : bytes) (i : Z) (value : val) : result bytes :=
  match value with
  | VNum n => Ok (set_byte output i n)
  | VStr s => Ok (set_byte output i
                    match NilZero.int_of_string s with Some d => Z.of_int d | None => 0 end)
  | VBig _ => Err TypeError
  | _ => Ok (set_byte output i 0)
  end.

Definition encodeOuterEnvelope (randomFill : Z -> byte) (input : val) : result bytes :=
  fail_if (negb (is_object input)) ;;!
  let! innerDispatch := asBuffer input.["innerDispatch"] in
  fail_if (blen innerDispatch <? DISPATCH_LIMITS_PREFIX_BYTES + DISPATCH_LIMITS_HEADER_BYTES) ;;!
  let! _ := Dispatch.decodeDispatchFrame (VBytes innerDispatch) in
  let! outerClass := if nullish input.["outerClass"]
                     then let! id := smallestOuterClass (VNum (blen innerDispatch)) in Ok (VNum id)
                     else Ok input.["outerClass"] in
  match table_get OUTER_CLASS outerClass with
  | None => Err BAD_ENCODING
  | Some classBytes =>
      throw_if (classBytes <? OUTER_ENVELOPE_HEADER_BYTES + blen innerDispatch) TOO_LARGE ;;!
      let output := replicate (Z.to_nat classBytes) Byte.x00 in
      let output := set_byte output 0 1 in
      let! output := store output 1 outerClass in
      let output := Dispatch.writeUInt32BE output (blen innerDispatch) 2 in
      let output := splice output OUTER_ENVELOPE_HEADER_BYTES innerDispatch in
      let start := OUTER_ENVELOPE_HEADER_BYTES + blen innerDispatch in
      Ok (splice output start
            (map (fun i => randomFill (Z.of_nat i)) (seq 0 (Z.to_nat (classBytes - start)))))
  end.

Definition decodeOuterEnvelope (input : val) : result val :=
  let! input := asBuffer input in
  fail_if (blen input <? OUTER_ENVELOPE_HEADER_BYTES) ;;!
  throw_if (negb (get_byte input 0 =? 1)) BAD_VERSION ;;!
  let outerClass := get_byte input 1 in
  match table_get OUTER_CLASS (VNum outerClass) with
  | None => Err BAD_ENCODING
  | Some classBytes =>
      fail_if (negb (blen input =? classBytes)) ;;!
      let innerLength := Dispatch.readUInt32BE input 2 in
      fail_if (innerLength <? DISPATCH_LIMITS_PREFIX_BYTES + DISPATCH_LIMITS_HEADER_BYTES) ;;!
      fail_if (classBytes <? OUTER_ENVELOPE_HEADER_BYTES + innerLength) ;;!
      let innerDispatch := slice input OUTER_ENVELOPE_HEADER_BYTES innerLength in
      let! frame := Dispatch.decodeDispatchFrame (VBytes innerDispatch) in
      Ok (VObj [("version", VNum 1); ("outerClass", VNum outerClass);
                ("innerDispatch", VBytes innerDispatch); ("frame", frame)])
  end.

(** ** Laws *)

(** The layout of an envelope. *)
Definition envelope (class : Z) (inner padding : bytes) : bytes :=
  [z2b 1; z2b class] ++ be_bytes 4 (blen inner) ++ inner ++ padding.

Lemma table_get_inv {A} (table : list (Z * A)) key v : table_get table key = Some v ->
  exists k, In (k, v) table /\ (key = VNum k \/ key = VBig k \/ key = VStr (decimal_name k)).
Proof.
  unfold table_get. intros Hq.
  destruct key; try discriminate; (destruct (find _ _) as [[k x]|] eqn:E; [|done]); injection Hq as <-;
    apply find_some in E as [Hin Hk]; exists k; (split; [done|]); simpl in Hk;
    first [apply Z.eqb_eq in Hk as <- | apply String.eqb_eq in Hk as <-]; auto.
Qed.

Lemma outer_class_get k size : In (k, size) OUTER_CLASS ->
  table_get OUTER_CLASS (VNum k) = Some size /\ 1 <= k <= 6 /\ 4096 <= size <= 8388608.
Proof. intros Hin. repeat (destruct Hin as [[= <- <-]|Hin]; [cbn; split; [done|lia]|]). done. Qed.

(** A number key and its decimal name select the same entry and store the same
    byte. *)
Lemma store_class output outerClass size : blen output = size ->
  table_get OUTER_CLASS outerClass = Some size ->
  exists class, table_get OUTER_CLASS (VNum class) = Some size /\ 1 <= class <= 6 /\ 4096 <= size <= 8388608 /\
    (forall id, outerClass = VNum id -> id = class) /\
    (store (splice output 0 [z2b 1]) 1 outerClass = Err TypeError \/
     store (splice output 0 [z2b 1]) 1 outerClass = Ok (splice output 0 [z2b 1; z2b class])).
Proof.
  intros Hl Hget. apply table_get_inv in Hget as (k & Hin & Hk). exists k.
  pose proof (outer_class_get _ _ Hin) as (Hg & Hk6 & Hs). split_and!; try done; try lia.
  - intros id ->. destruct Hk as [[= <-]|[H1|H1]]; done.
  - destruct Hk as [Hk|[Hk|Hk]]; subst outerClass; [right|by left|right]; simpl; rewrite ?set_byte_next by len; [done|].
    repeat (destruct Hin as [[= <- <-]|Hin]; [done|]). done.
Qed.

Lemma encode_envelope fill input bs : encodeOuterEnvelope fill input = Ok bs ->
  exists class size inner padding frame,
    input.["innerDispatch"] = VBytes inner /\ Dispatch.decodeDispatchFrame (VBytes inner) = Ok frame /\
    table_get OUTER_CLASS (VNum class) = Some size /\ 1 <= class <= 6 /\ 45 <= blen inner /\ 6 + blen inner <= size /\
    size <= 8388608 /\ bs = envelope class inner padding /\ blen bs = size /\
    (nullish input.["outerClass"] = true -> smallestOuterClass (VNum (blen inner)) = Ok class) /\
    (forall id, input.["outerClass"] = VNum id -> id = class).
Proof.
  unfold encodeOuterEnvelope. intros Hq. next Hq. apply bindR_ok in Hq as (inner & Hi & Hq). next Hq.
  apply bindR_ok in Hq as (frame & Hf & Hq). apply bindR_ok in Hq as (outerClass & Hc & Hq).
  destruct (table_get OUTER_CLASS outerClass) as [size|] eqn:Hget; [|done]. next Hq. cbv zeta in Hq.
  b2p. unfold OUTER_ENVELOPE_HEADER_BYTES, DISPATCH_LIMITS_PREFIX_BYTES, DISPATCH_LIMITS_HEADER_BYTES in *.
  set (zeros := replicate _ _) in Hq.
  assert (Hz : blen zeros = size) by (unfold zeros, blen in *; rewrite length_replicate; lia).
  destruct (store_class zeros outerClass size Hz Hget) as (class & Hclass & Hc6 & Hsz & Hid & Hst).
  rewrite set_byte_splice in Hq by lia.
  destruct Hst as [Hst|Hst]; rewrite Hst in Hq; [done|]. cbn [bindR] in Hq. injection Hq as <-.
  unfold Dispatch.writeUInt32BE. set (padding := map _ _).
  assert (Hp : blen padding = size - (6 + blen inner)).
  { unfold padding, blen in *. rewrite length_map, length_seq. lia. }
  rewrite !splice_next by len. rewrite splice_all by (rewrite Hz; len).
  exists class, size, inner, padding, frame. split_and!; try done; try lia.
  - destruct (input.["innerDispatch"]); try discriminate. by injection Hi as ->.
  - len.
  - intros Hn. rewrite Hn in Hc. apply bindR_ok in Hc as (id & Hid' & [= <-]). by rewrite <- (Hid id).
  - intros id He. rewrite He in Hc. injection Hc as <-. by apply Hid.
Qed.

(** What the decoder reads from an envelope. *)
Lemma decode_envelope class size inner padding frame :
  table_get OUTER_CLASS (VNum class) = Some size -> 1 <= class <= 6 -> size <= 8388608 ->
  Dispatch.decodeDispatchFrame (VBytes inner) = Ok frame ->
  45 <= blen inner -> 6 + blen inner + blen padding = size ->
  decodeOuterEnvelope (VBytes (envelope class inner padding)) =
    Ok (VObj [("version", VNum 1); ("outerClass", VNum class);
              ("innerDispatch", VBytes inner); ("frame", frame)]).
Proof.
  intros Hget Hc Hs Hf Hi Hl. pose proof (blen_nonneg padding).
  assert (Hlen : blen (envelope class inner padding) = size) by (unfold envelope; len).
  assert (H0 : get_byte (envelope class inner padding) 0 = 1) by done.
  assert (H1 : get_byte (envelope class inner padding) 1 = class).
  { change (b2z (z2b class) = class). apply byte_small. lia. }
  assert (H2 : Dispatch.readUInt32BE (envelope class inner padding) 2 = blen inner).
  { unfold Dispatch.readUInt32BE.
    rewrite (slice_part _ [z2b 1; z2b class] (be_bytes 4 (blen inner)) (inner ++ padding)) by (done || len).
    apply be_val_be_bytes. lia. }
  assert (H6 : slice (envelope class inner padding) 6 (blen inner) = inner).
  { apply (slice_part _ ([z2b 1; z2b class] ++ be_bytes 4 (blen inner)) inner padding); [done|len|done]. }
  unfold decodeOuterEnvelope. cbn [asBuffer bindR]. rewrite Hlen, H0, H1, H2, Hget.
  unfold OUTER_ENVELOPE_HEADER_BYTES, DISPATCH_LIMITS_PREFIX_BYTES, DISPATCH_LIMITS_HEADER_BYTES.
  rewrite !Z.eqb_refl, H6, Hf. repeat rewrite (proj2 (Z.ltb_ge _ _)) by lia. done.
Qed.

Lemma decode_inv_envelope bs v : decodeOuterEnvelope (VBytes bs) = Ok v ->
  exists class size inner padding frame, table_get OUTER_CLASS (VNum class) = Some size /\
    blen bs = size /\ Dispatch.decodeDispatchFrame (VBytes inner) = Ok frame /\
    bs = envelope class inner padding /\ 6 + blen inner <= size /\
    v = VObj [("version", VNum 1); ("outerClass", VNum class); ("innerDispatch", VBytes inner); ("frame", frame)].
Proof.
  unfold decodeOuterEnvelope. cbn [asBuffer bindR]. intros Hq. next Hq. next Hq.
  destruct (table_get _ _) as [size|] eqn:Hget; [|done]. next Hq. cbv zeta in Hq. next Hq. next Hq.
  apply bindR_ok in Hq as (frame & Hf & Hq). injection Hq as <-. b2p.
  unfold OUTER_ENVELOPE_HEADER_BYTES, DISPATCH_LIMITS_PREFIX_BYTES, DISPATCH_LIMITS_HEADER_BYTES in *.
  set (n := Dispatch.readUInt32BE bs 2) in *.
  assert (Hn : blen (slice bs 6 n) = n) by (apply blen_slice; lia).
  exists (get_byte bs 1), size, (slice bs 6 n), (slice bs (6 + n) (blen bs - (6 + n))), frame.
  split_and!; try done; [|lia]. unfold envelope. rewrite Hn.
  rewrite <- (slice_all bs) at 1. replace (blen bs) with (2 + (4 + (n + (blen bs - (6 + n))))) at 1 by lia.
  rewrite !slice_app by lia. f_equal.
  - change (slice bs 0 (1 + (1 + 0)) = [z2b 1; z2b (get_byte bs 1)]). rewrite !slice_cons by lia.
    change (z2b (get_byte bs 0) :: z2b (get_byte bs 1) :: [] = [z2b 1; z2b (get_byte bs 1)]). congruence.
  - f_equal. unfold n, Dispatch.readUInt32BE. change (0 + 2) with 2. rewrite be_bytes_of; [done|].
    pose proof (blen_slice bs 2 4). unfold blen in *. lia.
Qed.

Lemma encode_named fill v class size inner frame :
  is_object v = true -> v.["innerDispatch"] = VBytes inner -> v.["outerClass"] = VNum class ->
  In (class, size) OUTER_CLASS -> Dispatch.decodeDispatchFrame (VBytes inner) = Ok frame ->
  45 <= blen inner -> 6 + blen inner <= size ->
  exists padding, encodeOuterEnvelope fill v = Ok (envelope class inner padding) /\
    6 + blen inner + blen padding = size.
Proof.
  intros Ho Hi Hc Hin Hf Hl Hs. pose proof (outer_class_get _ _ Hin) as (Hg & _ & Hsz).
  unfold encodeOuterEnvelope. rewrite Ho, Hi, Hc. cbn [negb fail_if throw_if bindR asBuffer nullish].
  unfold OUTER_ENVELOPE_HEADER_BYTES, DISPATCH_LIMITS_PREFIX_BYTES, DISPATCH_LIMITS_HEADER_BYTES.
  rewrite (proj2 (Z.ltb_ge _ _)) by lia. cbn [bindR]. rewrite Hf. cbn [bindR]. rewrite Hg.
  rewrite (proj2 (Z.ltb_ge _ _)) by lia. cbn [bindR store]. set (zeros := replicate _ _).
  assert (Hz : blen zeros = size) by (unfold zeros, blen in *; rewrite length_replicate; lia).
  rewrite (set_byte_splice zeros) by lia. rewrite set_byte_next by len. cbn [bindR].
  set (padding := map _ _).
  assert (Hp : blen padding = size - (6 + blen inner)).
  { unfold padding, blen in *. rewrite length_map, length_seq. lia. }
  unfold Dispatch.writeUInt32BE. rewrite !splice_next by len. rewrite splice_all by (rewrite Hz; len).
  exists padding. split; [|lia]. unfold envelope. by rewrite <- !app_assoc.
Qed.

(** ** Properties *)

(** C40: An envelope hides the length of its frame: whatever the random source,
    the encoder's output has exactly the size of one frozen class, the decoder
    gives back the frame and the class, and when the caller names no class the
    smallest one that fits is chosen. *)
Theorem outer_roundtrip fill input bs : encodeOuterEnvelope fill input = Ok bs ->
  exists class size inner frame,
    input.["innerDispatch"] = VBytes inner /\
    decodeOuterEnvelope (VBytes bs) = Ok (VObj [("version", VNum 1); ("outerClass", VNum class);
      ("innerDispatch", VBytes inner); ("frame", frame)]) /\
    Dispatch.decodeDispatchFrame (VBytes inner) = Ok frame /\
    In (class, size) OUTER_CLASS /\ blen bs = size /\
    (nullish input.["outerClass"] = true -> forall c n, In (c, n) OUTER_CLASS -> 6 + blen inner <= n -> size <= n).
Proof.
  intros Hq. apply encode_envelope in Hq
    as (class & size & inner & padding & frame & Hi & Hf & Hget & Hc & Hl & Hfit & Hs & -> & Hb & Hsm & _).
  exists class, size, inner, frame.
  pose proof (table_get_inv _ _ _ Hget) as (k & Hin & Hk).
  assert (k = class) as -> by (destruct Hk as [[=]|[H1|H1]]; done).
  split_and!; try done.
  - eapply decode_envelope; try done. unfold envelope in Hb. autorewrite with hive_len in Hb. lia.
  - intros Hn c n Hcn Hle. specialize (Hsm Hn). unfold smallestOuterClass in Hsm. next Hsm.
    unfold OUTER_ENVELOPE_HEADER_BYTES in Hsm. cbn [find OUTER_CLASS fst snd] in Hsm.
    repeat (destruct Hcn as [[= <- <-]|Hcn]; [|]); [..|done];
      repeat (destruct Hin as [[= <- <-]|Hin]; [|]); try done;
      repeat (match type of Hsm with context [if ?b then _ else _] => destruct b eqn:? end; try discriminate); b2p; lia.
Qed.

(** The decoder of envelopes accepts only envelopes of its frame: a buffer
    it accepts is the header, the frame and padding, of exactly the size of the
    class it names, and the inner bytes are a canonical dispatch frame. *)
Theorem outer_canonical bs v : decodeOuterEnvelope (VBytes bs) = Ok v ->
  exists class inner padding frame, In (class, blen bs) OUTER_CLASS /\
    bs = envelope class inner padding /\
    v = VObj [("version", VNum 1); ("outerClass", VNum class); ("innerDispatch", VBytes inner); ("frame", frame)] /\
    Dispatch.encodeDispatchFrame frame = Ok inner /\
    forall fill, exists bs', encodeOuterEnvelope fill v = Ok bs' /\ decodeOuterEnvelope (VBytes bs') = Ok v.
Proof.
  intros Hq. apply decode_inv_envelope in Hq as (class & size & inner & padding & frame & Hget & Hb & Hf & Hbs & Hfit & ->).
  pose proof (table_get_inv _ _ _ Hget) as (k & Hin & Hk).
  assert (k = class) as -> by (destruct Hk as [[=]|[H1|H1]]; done).
  pose proof (outer_class_get _ _ Hin) as (_ & Hc6 & Hsz).
  pose proof (decode_inv _ _ Hf) as (h & body & Hok & Hfr & [= Hin']).
  exists class, inner, padding, frame. rewrite Hb. split_and!; try done.
  { rewrite Hfr, Hin'. by apply encode_accepted. }
  pose proof (frame_ok_bounds _ _ Hok) as (_ & _ & _ & Hr & _ & _ & Hbody). pose proof (wire_length h body Hr) as Hw.
  rewrite <- Hin' in Hw.
  intros fill. pose proof (blen_nonneg body).
  destruct (encode_named fill (VObj [("version", VNum 1); ("outerClass", VNum class);
    ("innerDispatch", VBytes inner); ("frame", frame)]) class size inner frame) as (pad & He & Hp); try done; [lia|].
  eexists. split; [exact He|]. apply (decode_envelope class size); try done; lia.
Qed.

Definition demo_input : val := VObj [("innerDispatch", VBytes demo_wire); ("outerClass", VNum 1)].
Definition demo_envelope : bytes := envelope 1 demo_wire (replicate (Z.to_nat 4041) Byte.x2a).

Lemma outer_roundtrip_witness : exists class size inner frame,
    demo_input.["innerDispatch"] = VBytes inner /\
    decodeOuterEnvelope (VBytes demo_envelope) = Ok (VObj [("version", VNum 1); ("outerClass", VNum class);
      ("innerDispatch", VBytes inner); ("frame", frame)]) /\
    Dispatch.decodeDispatchFrame (VBytes inner) = Ok frame /\
    In (class, size) OUTER_CLASS /\ blen demo_envelope = size /\
    (nullish demo_input.["outerClass"] = true ->
      forall c n, In (c, n) OUTER_CLASS -> 6 + blen inner <= n -> size <= n).
Proof. apply (outer_roundtrip (fun _ => Byte.x2a)). vm_compute. reflexivity. Defined.

Definition demo_frame : val := Eval vm_compute in
  match Dispatch.decodeDispatchFrame (VBytes demo_wire) with Ok v => v | Err _ => VUndef end.

Lemma outer_canonical_witness :
  let v := VObj [("version", VNum 1); ("outerClass", VNum 1); ("innerDispatch", VBytes demo_wire);
                 ("frame", demo_frame)] in
  exists class inner padding frame, In (class, blen demo_envelope) OUTER_CLASS /\
    demo_envelope = envelope class inner padding /\
    v = VObj [("version", VNum 1); ("outerClass", VNum class); ("innerDispatch", VBytes inner); ("frame", frame)] /\
    Dispatch.encodeDispatchFrame frame = Ok inner /\
    forall fill, exists bs', encodeOuterEnvelope fill v = Ok bs' /\ decodeOuterEnvelope (VBytes bs') = Ok v.
Proof. apply outer_canonical. vm_compute. reflexivity. Defined.

End Outer.
