(* ===== verification/Orders.v ===== *)
(** * Sorted and duplicate-free lists

    The validators compare neighbours and keep a set of the keys they have seen;
    this file relates both loops to [StronglySorted] and [NoDup], with one
    lexicographic order for byte strings and for tuples of fields. *)

From Stdlib Require Import ZArith Lia Bool List String Ascii Sorted.
From Stdlib Require Import Strings.Byte.
From stdpp Require Import base tactics list strings.
From S2P Require Import Prelude Codec Authority SchemaKit SchemasDescribe.

(** ** Distinct keys *)

Lemma existsb_bytes_eqb x l : existsb (bytes_eqb x) l = true <-> In x l.
Proof.
  rewrite existsb_exists. split; [intros (y & Hy & E); apply bytes_eqb_eq in E as ->; done|].
  intros Hx. exists x. split; [done|apply bytes_eqb_refl].
Qed.

Lemma distinct_loop_ok seen values : distinct_loop seen values = Ok tt <->
  NoDup values /\ forall x, In x values -> ~ In x seen.
Proof.
  revert seen; induction values as [|v values IH]; intros seen; simpl.
  - split; [intros _; split; [constructor|done]|done].
  - rewrite bindR_ok. split.
    + intros ([] & Hf & Hl). apply fail_if_ok in Hf. apply IH in Hl as [Hn Hs]. split.
      * constructor; [|done]. intros Hv. apply list_elem_of_In in Hv. apply (Hs v Hv). simpl; auto.
      * intros x [<-|Hx] Hin; [|apply (Hs x Hx); simpl; auto].
        apply (proj2 (existsb_bytes_eqb _ _)) in Hin. congruence.
    + intros [Hn Hs]. apply NoDup_cons in Hn as [Hv Hn]. exists tt. split.
      * apply fail_if_ok. destruct (existsb _ _) eqn:E; [|done]. apply existsb_bytes_eqb in E.
        exfalso. apply (Hs v); [by left|done].
      * apply IH. split; [done|]. intros x Hx [<-|Hin]; [apply Hv; by apply list_elem_of_In | by apply (Hs x); [right|]].
Qed.

Lemma assertDistinctBytes_ok values : assertDistinctBytes values = Ok tt <-> NoDup values.
Proof. unfold assertDistinctBytes. rewrite distinct_loop_ok. naive_solver. Qed.

(** ** The lexicographic order *)

Inductive lex_lt : list Z -> list Z -> Prop :=
| lex_nil y b : lex_lt [] (y :: b)
| lex_head x y a b : x < y -> lex_lt (x :: a) (y :: b)
| lex_tail x a b : lex_lt a b -> lex_lt (x :: a) (x :: b).

Lemma lex_irrefl a : ~ lex_lt a a.
Proof. induction a; inversion 1; subst; [lia|done]. Qed.

#[export] Instance lex_trans : Transitive lex_lt.
Proof.
  intros a b c Hab. revert c; induction Hab as [y b|x y a b Hlt|x a b Hab IH]; intros c Hbc; inversion Hbc; subst.
  - constructor.
  - constructor.
  - constructor. lia.
  - by constructor.
  - by constructor.
  - apply lex_tail. by apply IH.
Qed.

Lemma lex_app_l p a b : lex_lt a b -> lex_lt (p ++ a) (p ++ b).
Proof. induction p; simpl; [done|]. intros. apply lex_tail. auto. Qed.

Lemma lex_app_r a b c d : List.length a = List.length b -> lex_lt a b -> lex_lt (a ++ c) (b ++ d).
Proof.
  intros Hl Hlt. revert Hl; induction Hlt; simpl; intros Hl; [done|by constructor|].
  apply lex_tail. apply IHHlt. lia.
Qed.

(** Byte strings compare by their bytes. *)
Definition digits (bs : bytes) : list Z := map b2z bs.

Lemma compareBytes_lt a b : compareBytes a b < 0 -> lex_lt (digits a) (digits b).
Proof.
  revert b; induction a as [|x a IH]; intros [|y b]; simpl; try lia; [constructor|].
  destruct (Byte.eqb x y) eqn:E; [apply Byte.byte_dec_bl in E as ->; intros; apply lex_tail; auto|].
  destruct (b2z x <? b2z y) eqn:L; b2p; [by constructor|lia].
Qed.

Lemma compareBytes_zero a b : compareBytes a b = 0 -> a = b.
Proof.
  revert b; induction a as [|x a IH]; intros [|y b]; simpl; try lia; [done|].
  destruct (Byte.eqb x y) eqn:E; [apply Byte.byte_dec_bl in E as ->; intros; f_equal; auto|].
  destruct (b2z x <? b2z y); lia.
Qed.

Lemma compareScalar_lt x y : compareScalar (VNum x) (VNum y) < 0 -> x < y.
Proof. unfold compareScalar. simpl. destruct (x =? y) eqn:E; [lia|]. destruct (x <? y) eqn:L; b2p; lia. Qed.

Lemma compareScalar_zero x y : compareScalar (VNum x) (VNum y) = 0 -> x = y.
Proof. unfold compareScalar. simpl. destruct (x =? y) eqn:E; b2p; [done|]. destruct (x <? y) eqn:L; b2p; lia. Qed.

(** One step of a chain of comparisons [x || y]. *)
Lemma or_compare_lex x y p q a b : (x < 0 -> lex_lt p q) -> (x = 0 -> p = q) -> List.length p = List.length q ->
  (y < 0 -> lex_lt a b) -> or_compare x y < 0 -> lex_lt (p ++ a) (q ++ b).
Proof.
  unfold or_compare. intros Hlt Heq Hl Hy. destruct (x =? 0) eqn:E; b2p; intros Hc.
  - rewrite (Heq E). apply lex_app_l. auto.
  - apply lex_app_r; auto.
Qed.

(** ** Sorted lists *)

Lemma assertStrictlySorted_ok cmp vs : assertStrictlySorted vs cmp = Ok tt ->
  Sorted (fun a b => exists c, cmp a b = Ok c /\ c < 0) vs.
Proof.
  induction vs as [|a [|b vs] IH]; [constructor|repeat constructor|]. intros Hq. cbn [assertStrictlySorted] in Hq.
  apply bindR_ok in Hq as (c & Hc & Hq). apply bindR_ok in Hq as ([] & Hf & Hq). apply fail_if_ok, Z.leb_gt in Hf.
  constructor; [by apply IH|]. constructor. eauto.
Qed.

(** Neighbours in order under a key make the whole list sorted by that key. *)
Lemma sorted_keys {K} (R : relation K) `{!Transitive R} (key : val -> K) (P : val -> Prop) cmp vs :
  assertStrictlySorted vs cmp = Ok tt -> Forall P vs ->
  (forall a b c, P a -> P b -> cmp a b = Ok c -> c < 0 -> R (key a) (key b)) ->
  StronglySorted R (map key vs).
Proof.
  intros Hq Hp Hr. apply assertStrictlySorted_ok in Hq. apply Sorted_StronglySorted; [done|].
  induction Hq as [|a vs Hs IH Hh]; [constructor|]. apply Forall_cons in Hp as [Ha Hp]. simpl.
  constructor; [by apply IH|]. destruct Hh as [|b vs (c & Hc & Hlt)]; simpl; constructor.
  apply Forall_cons in Hp as [Hb _]. eauto.
Qed.

Lemma strongly_sorted_NoDup {K} (R : relation K) (l : list K) :
  (forall x, ~ R x x) -> StronglySorted R l -> NoDup l.
Proof.
  intros Hi. induction 1 as [|x l _ IH Hall]; constructor; [|done].
  intros Hx. rewrite List.Forall_forall in Hall. apply list_elem_of_In in Hx. apply (Hi x). auto.
Qed.

(** A sorted list is determined by its elements: two accepted lists with the
    same entries are the same list. *)
Lemma sorted_unique {K} (R : relation K) (l l' : list K) :
  (forall x, ~ R x x) -> Transitive R -> StronglySorted R l -> StronglySorted R l' -> l ≡ₚ l' -> l = l'.
Proof.
  intros Hi Ht Hl. revert l'; induction Hl as [|x l Hl IH Hx]; intros l' Hl' Hp.
  - by apply Permutation_nil in Hp.
  - destruct Hl' as [|y l' Hl' Hy]; [by apply Permutation_sym, Permutation_nil in Hp|].
    rewrite List.Forall_forall in Hx, Hy.
    assert (x = y) as ->.
    { assert (In x (y :: l')) as [->|Hxl] by (eapply Permutation_in; [exact Hp|by left]); [done|].
      assert (In y (x :: l)) as [->|Hyl] by (eapply Permutation_in; [symmetry; exact Hp|by left]); [done|].
      exfalso. apply (Hi x). transitivity y; auto. }
    f_equal. apply IH; [done|]. by apply Permutation_cons_inv in Hp.
Qed.
