(* ===== verification/Accepted.v ===== *)
(** * What the acceptance of a value says about its parts

    The codecs check a value from its fields up and run the validator last.
    [accepted e v] says that the sizing pass of [e] takes [v]; the lemmas here go
    from an accepted object to its fields, its array elements and its validator,
    and the class [Bounded] computes the largest encoding of a schema. *)

From Stdlib Require Import ZArith Lia Bool List String Ascii.
From Stdlib Require Import Strings.Byte.
From stdpp Require Import base tactics list strings.
From S2P Require Import Prelude Codec CodecLaws Authority SchemaKit.

(** The sizing pass takes [v]. *)
Definition accepted (e : encoding) (v : val) : Prop := exists s p s', preencode e s v p = Ok s'.

Lemma encoded_accepted e v bs : encodeCanonical e v = Ok bs -> accepted e v.
Proof. unfold encodeCanonical. intros Hq. apply bindR_ok in Hq as (s & Hs & _). by exists (St 0 0 []), VUndef, s. Qed.

Lemma decoded_accepted e t `{!Lawful e [] t} bs v : decodeCanonical e (VBytes bs) = Ok v -> accepted e v.
Proof. intros Hq. apply (codec_canonical e t) in Hq as [_ Hq]. by eapply encoded_accepted. Qed.

(** ** Objects *)

Lemma accepted_validate fs chk v : accepted (struct fs (Some chk)) v -> chk v = Ok tt.
Proof.
  intros (s & p & s' & Hq). cbn [preencode struct run_validate] in Hq.
  apply bindR_ok in Hq as (? & _ & Hq). apply bindR_ok in Hq as (? & _ & Hq).
  apply bindR_ok in Hq as ([] & Hc & _). done.
Qed.

Lemma struct_fields_accepted fs s v s' n e :
  struct_fields preencode fs s v = Ok s' -> In (n, e) fs -> accepted e (get v n).
Proof.
  revert s; induction fs as [|[m f] fs IH]; intros s Hq Hin; [done|]. simpl in Hq.
  apply bindR_ok in Hq as (s1 & H1 & Hq). destruct Hin as [[= <- <-]|Hin]; [|by eapply IH].
  by exists s, v, s1.
Qed.

Lemma accepted_field n e fs chk v : accepted (struct fs chk) v -> In (n, e) fs -> accepted e (get v n).
Proof.
  intros (s & p & s' & Hq) Hin. cbn [preencode struct] in Hq.
  apply bindR_ok in Hq as (? & _ & Hq). apply bindR_ok in Hq as (s1 & H1 & _).
  by eapply struct_fields_accepted.
Qed.

Lemma accepted_object fs chk v : accepted (struct fs chk) v -> is_object v = true.
Proof.
  intros (s & p & s' & Hq). cbn [preencode struct] in Hq. apply bindR_ok in Hq as (? & Ho & _).
  by apply fail_if_ok, negb_false_iff in Ho.
Qed.

(** ** Arrays *)

Lemma fold_values_accepted e s vs s' :
  fold_values (fun s v => preencode e s v VUndef) s vs = Ok s' -> Forall (accepted e) vs.
Proof.
  revert s; induction vs as [|v vs IH]; intros s Hq; [constructor|]. simpl in Hq.
  apply bindR_ok in Hq as (s1 & H1 & Hq). constructor; [by exists s, VUndef, s1 | by eapply IH].
Qed.

Lemma accepted_array e lo hi v : accepted (arrayOf e lo hi) v ->
  v = VList (elems v) /\ lo <= Z.of_nat (List.length (elems v)) <= hi /\ Forall (accepted e) (elems v).
Proof.
  intros (s & p & s' & Hq). cbn [preencode arrayOf] in Hq. apply bindR_ok in Hq as (vs & Hv & Hq).
  destruct v; try discriminate. unfold array_of_value in Hv. destruct (_ || _) eqn:E; [done|]. injection Hv as ->. b2p.
  apply bindR_ok in Hq as (s1 & _ & Hq). split; [done|]. split; [simpl; lia|]. by eapply fold_values_accepted.
Qed.

(** ** Scalars and bytes *)

Lemma accepted_fixedBytes n v : accepted (fixedBytes n) v -> v = VBytes (raw v) /\ blen (raw v) = n.
Proof. intros (s & p & s' & Hq). apply fixedBytes_inv in Hq as (bs & -> & Hn). done. Qed.

Lemma accepted_bounded lo hi v : accepted (boundedBytes lo hi) v -> v = VBytes (raw v) /\ lo <= blen (raw v) <= hi.
Proof. intros (s & p & s' & Hq). apply boundedBytes_inv in Hq as (bs & -> & Hn). split; [done|simpl; tauto]. Qed.

Lemma accepted_u64 v : accepted u64be v -> exists n, asU64 v = Ok n /\ 0 <= n <= MAX_U64.
Proof.
  intros (s & p & s' & Hq). cbn [preencode u64be] in Hq. apply bindR_ok in Hq as (n & Hn & _).
  exists n. split; [done|]. by apply asU64_ok in Hn as [? _].
Qed.

Lemma accepted_unsigned k m v : accepted (fixedUnsigned k m) v ->
  m <= MAX_SAFE_INTEGER -> v = VNum (num v) /\ 0 <= num v <= m.
Proof.
  intros (s & p & s' & Hq) Hm. cbn [preencode fixedUnsigned] in Hq. apply bindR_ok in Hq as (n & Hn & _).
  by apply assertUnsigned_ok in Hn as [-> Hn].
Qed.

Lemma accepted_u32 v : accepted u32be v -> v = VNum (num v) /\ 0 <= num v <= 0xffffffff.
Proof. intros Ha. by apply accepted_unsigned in Ha. Qed.

Lemma accepted_u16 v : accepted u16be v -> v = VNum (num v) /\ 0 <= num v <= 0xffff.
Proof. intros Ha. by apply accepted_unsigned in Ha. Qed.

Lemma accepted_ranged e lo hi v : accepted (ranged e lo hi) v -> v = VNum (num v) /\ lo <= num v <= hi.
Proof.
  intros (s & p & s' & Hq). cbn [preencode ranged] in Hq. apply bindR_ok in Hq as (? & Hr & _).
  apply fail_if_ok in Hr. destruct v; try discriminate. simpl in *. b2p. split; [done|lia].
Qed.

Lemma accepted_optional e v : accepted (optional e) v -> nullish v = false -> accepted e v.
Proof.
  intros (s & p & s' & Hq) Hn. cbn [preencode optional] in Hq. rewrite Hn in Hq.
  apply bindR_ok in Hq as (s1 & _ & Hq). by exists s1, VUndef, s'.
Qed.

Lemma accepted_capped e n v : accepted (cappedEncoding e n) v -> accepted e v.
Proof.
  intros (s & p & s' & Hq). cbn [preencode cappedEncoding] in Hq. apply bindR_ok in Hq as (s1 & H1 & _).
  by exists s, VUndef, s1.
Qed.

(** [field H "name" as ...]: the acceptance of a field of the accepted object
    [H]. *)
Ltac in_fields := simpl; repeat (first [left; reflexivity | right]).
Tactic Notation "field" constr(H) constr(n) "as" ident(Hf) :=
  let Hf' := fresh Hf in
  pose proof (accepted_field n _ _ _ _ H ltac:(in_fields)) as Hf.

(** ** Sizes *)

Class Bounded (e : encoding) (m : Z) : Prop :=
  bounded_by : forall s v p s', preencode e s v p = Ok s' -> st_end s' <= st_end s + m.

#[export] Instance fixedUnsigned_bounded n m : Bounded (fixedUnsigned n m) n.
Proof. intros s v p s' Hq. cbn [preencode fixedUnsigned] in Hq. oks. simpl. lia. Qed.
#[export] Instance u8_bounded : Bounded u8 1.
Proof. apply fixedUnsigned_bounded. Qed.
#[export] Instance u16be_bounded : Bounded u16be 2.
Proof. apply fixedUnsigned_bounded. Qed.
#[export] Instance u32be_bounded : Bounded u32be 4.
Proof. apply fixedUnsigned_bounded. Qed.

#[export] Instance u64be_bounded : Bounded u64be 8.
Proof. intros s v p s' Hq. cbn [preencode u64be] in Hq. oks. simpl. lia. Qed.

#[export] Instance fixedBytes_bounded n : Bounded (fixedBytes n) n.
Proof. intros s v p s' Hq. cbn [preencode fixedBytes] in Hq. oks. simpl. lia. Qed.

#[export] Instance constantBytes_bounded bs : Bounded (constantBytes bs) (blen bs).
Proof. intros s v p s' Hq. cbn [preencode constantBytes] in Hq. oks. by apply bounded_by in H1. Qed.

Lemma cuint_preencode_bound s n s' hi : compactUint_preencode s n = Ok s' -> n <= hi ->
  st_end s' <= st_end s + compactUint_size hi.
Proof.
  intros Hq Hn. unfold compactUint_preencode in Hq. oks.
  match goal with H : assertUnsignedNumber _ _ = Ok _ |- _ => apply assertUnsigned_ok in H as [[= ->] _]; [|done] end.
  simpl. unfold compactUint_size. repeat case_match; b2p; lia.
Qed.

#[export] Instance boundedBytes_bounded lo hi : Bounded (boundedBytes lo hi) (compactUint_size hi + hi).
Proof.
  intros s v p s' Hq. cbn [preencode boundedBytes] in Hq. oks. b2p.
  match goal with H : compactUint_preencode _ _ = Ok _ |- _ => apply (cuint_preencode_bound _ _ _ hi) in H; [|lia] end.
  simpl. lia.
Qed.

#[export] Instance ranged_bounded e lo hi m : Bounded e m -> Bounded (ranged e lo hi) m.
Proof. intros Hb s v p s' Hq. cbn [preencode ranged] in Hq. apply bindR_ok in Hq as (? & _ & Hq). by apply Hb in Hq. Qed.

#[export] Instance constant_bounded e n m : Bounded e m -> Bounded (constant e n) m.
Proof. intros Hb s v p s' Hq. cbn [preencode constant] in Hq. apply bindR_ok in Hq as (? & _ & Hq). by apply Hb in Hq. Qed.

#[export] Instance optional_bounded e m : Bounded e m -> TCEq (0 <=? m) true -> Bounded (optional e) (1 + m).
Proof.
  intros Hb Hm s v p s' Hq. cbn [preencode optional] in Hq. apply bindR_ok in Hq as (s1 & H1 & Hq).
  apply TCEq_eq, Z.leb_le in Hm. apply (bounded_by (e := u8)) in H1. destruct (nullish v); [oks; lia|]. apply Hb in Hq. lia.
Qed.

#[export] Instance arrayOf_bounded e lo hi m : Bounded e m -> TCEq ((0 <=? m) && (0 <=? hi)) true ->
  Bounded (arrayOf e lo hi) (compactUint_size hi + hi * m).
Proof.
  intros Hb Hm s v p s' Hq. apply TCEq_eq in Hm. b2p. cbn [preencode arrayOf] in Hq.
  apply bindR_ok in Hq as (vs & Hv & Hq). apply bindR_ok in Hq as (s1 & H1 & Hq).
  destruct v; try discriminate. unfold array_of_value in Hv. destruct (_ || _) eqn:E; [done|]. injection Hv as ->. b2p.
  apply (cuint_preencode_bound _ _ _ hi) in H1; [|lia].
  assert (Hf : forall s s', fold_values (fun s v => preencode e s v VUndef) s vs = Ok s' ->
    st_end s' <= st_end s + Z.of_nat (List.length vs) * m).
  { clear -Hb. induction vs as [|v vs IH]; intros s s' Hq; simpl in Hq; [oks; simpl; lia|].
    apply bindR_ok in Hq as (s1 & H1 & Hq). apply Hb in H1. apply IH in Hq. simpl List.length. lia. }
  apply Hf in Hq. nia.
Qed.

Lemma selectedLength_bound f tbl p n m : forallb (fun e => snd e <=? m) tbl = true ->
  selectedLength f tbl p = Ok n -> n <= m.
Proof.
  intros Hall Hq. unfold selectedLength in Hq. destruct (table_get _ _) as [k|] eqn:E; [|done].
  destruct (_ || _); [done|]. injection Hq as ->. rewrite forallb_forall in Hall.
  unfold table_get in E. destruct (get p f); try discriminate; (destruct (find _ _) as [e|] eqn:F; [|done]);
    injection E as <-; apply find_some in F as [Hin _]; apply Hall in Hin; by apply Z.leb_le.
Qed.

(** The largest class of a table. *)
Definition max_length (tbl : list (Z * Z)) : Z := fold_right (fun e m => Z.max (snd e) m) 0 tbl.

#[export] Instance exactBytes_bounded f tbl : Bounded (exactBytesByClass f tbl) (max_length tbl).
Proof.
  intros s v p s' Hq. cbn [preencode exactBytesByClass] in Hq.
  apply bindR_ok in Hq as (bs & _ & Hq). apply bindR_ok in Hq as (n & Hn & Hq). oks. simpl.
  apply (selectedLength_bound _ _ _ _ (max_length tbl)) in Hn; [lia|].
  clear. induction tbl as [|[k n] tbl IH]; [done|]. simpl. apply andb_true_intro. split; [apply Z.leb_le; lia|].
  rewrite forallb_forall in IH |- *. intros e He. apply IH in He. apply Z.leb_le in He. apply Z.leb_le. lia.
Qed.

#[export] Instance capped_bounded e n : Bounded (cappedEncoding e n) n.
Proof.
  intros s v p s' Hq. cbn [preencode cappedEncoding] in Hq. apply bindR_ok in Hq as (s1 & _ & Hq). oks. b2p. lia.
Qed.

Inductive FieldsBounded : fields -> Z -> Prop :=
| fields_bounded_nil : FieldsBounded [] 0
| fields_bounded_cons name e fs m n : Bounded e m -> FieldsBounded fs n -> FieldsBounded ((name, e) :: fs) (m + n).
Existing Class FieldsBounded.
#[export] Existing Instances fields_bounded_nil fields_bounded_cons.

Lemma struct_fields_bound fs n s v s' : FieldsBounded fs n ->
  struct_fields preencode fs s v = Ok s' -> st_end s' <= st_end s + n.
Proof.
  intros Hf. revert s; induction Hf as [|name e fs m n Hb _ IH]; intros s Hq; simpl in Hq; [oks; lia|].
  apply bindR_ok in Hq as (s1 & H1 & Hq). apply Hb in H1. apply IH in Hq. lia.
Qed.

#[export] Instance struct_bounded fs chk n : FieldsBounded fs n -> Bounded (struct fs chk) n.
Proof.
  intros Hf s v p s' Hq. cbn [preencode struct] in Hq. apply bindR_ok in Hq as (? & _ & Hq).
  apply bindR_ok in Hq as (s1 & H1 & Hq). apply bindR_ok in Hq as (? & _ & Hq). injection Hq as ->.
  by eapply struct_fields_bound.
Qed.

Lemma text_bounded `{Platform} lo hi a : Bounded (canonicalTextBytes lo hi a) (compactUint_size hi + hi).
Proof.
  intros s v p s' Hq. cbn [preencode canonicalTextBytes] in Hq. apply bindR_ok in Hq as (? & _ & Hq).
  by apply boundedBytes_bounded in Hq.
Qed.
#[export] Instance ascii_bounded `{Platform} lo hi : Bounded (canonicalAsciiBytes lo hi) (compactUint_size hi + hi).
Proof. apply text_bounded. Qed.
#[export] Instance utf8_bounded `{Platform} lo hi : Bounded (canonicalUtf8Bytes lo hi) (compactUint_size hi + hi).
Proof. apply text_bounded. Qed.
#[export] Instance url_bounded `{Platform} : Bounded canonicalHttpsUrlBytes (compactUint_size 512 + 512).
Proof.
  intros s v p s' Hq. cbn [preencode canonicalHttpsUrlBytes] in Hq. apply bindR_ok in Hq as (? & _ & Hq).
  by apply utf8_bounded in Hq.
Qed.

Lemma bounded_weaken e m n : Bounded e m -> m <= n -> Bounded e n.
Proof. intros Hb Hl s v p s' Hq. apply Hb in Hq. lia. Qed.

(** The size of a whole encoding. *)
Lemma bounded_encoding e t m `{!Lawful e [] t} v bs : Bounded e m -> encodeCanonical e v = Ok bs -> blen bs <= m.
Proof.
  intros Hb Hq. pose proof Hq as Hq'. unfold encodeCanonical in Hq. apply bindR_ok in Hq as (s & Hs & _).
  destruct (codec_total e t v s Hs) as (b & Hb' & Hl). rewrite Hb' in Hq'. injection Hq' as ->.
  apply Hb in Hs. simpl in Hs. lia.
Qed.

(** ** Values that come from the wire *)

Lemma decoded e t `{!Lawful e [] t} bs v : decodeCanonical e (VBytes bs) = Ok v ->
  has_type t v = true /\ accepted e v /\ encodeCanonical e v = Ok bs.
Proof.
  intros Hq. pose proof (codec_canonical e t _ _ Hq) as [Ht He].
  split; [done|]. split; [by eapply encoded_accepted|done].
Qed.

(** The type of one field. *)
Lemma has_field n t ts v : has_type (TObj ts) v = true -> assoc n ts = Some t -> has_type t (get v n) = true.
Proof.
  destruct v as [| | | | | |fs| | |]; try done. revert fs.
  induction ts as [|[m u] ts IH]; intros fs Hq Hn; [done|].
  apply has_type_cons in Hq as (x & l & -> & Hx & Hq). simpl in *.
  destruct (String.eqb m n); [by injection Hn as <-|by apply (IH l)].
Qed.

(** Turns [has_type (TObj ...) v] into the fields of [v]. *)
Ltac typed H :=
  match type of H with
  | has_type (TObj _) ?v = true =>
      destruct v as [| | | | | |?fs| | |]; try discriminate H;
      repeat (let x := fresh "x" in let l := fresh "l" in let Hx := fresh "Hx" in
              apply has_type_cons in H as (x & l & -> & Hx & H));
      apply has_type_nil in H as ->
  end.

Lemma has_num v : has_type TNum v = true -> v = VNum (num v).
Proof. by destruct v. Qed.
Lemma has_big v : has_type TBig v = true -> exists n, v = VBig n.
Proof. destruct v; try done. eauto. Qed.
Lemma has_bytes v : has_type TBytes v = true -> v = VBytes (raw v).
Proof. by destruct v. Qed.
Lemma has_const n v : has_type (TConst n) v = true -> v = VNum n.
Proof. intros Hq. by apply is_num_iff. Qed.
Lemma has_array t v : has_type (TArr t) v = true -> v = VList (elems v) /\ Forall (fun x => has_type t x = true) (elems v).
Proof.
  destruct v; try done. simpl. intros Hq. split; [done|]. apply List.Forall_forall. by apply forallb_forall.
Qed.

(** ** Zero bytes *)

Lemma isAllZero_iff bs : isAllZero bs = true <-> bs = replicate (List.length bs) (z2b 0).
Proof.
  induction bs as [|b bs IH]; [done|]. unfold isAllZero. cbn [forallb List.length replicate]. fold (isAllZero bs).
  rewrite andb_true_iff, Z.eqb_eq, IH. split.
  - intros [Hb ->]. f_equal; [|by rewrite length_replicate]. apply b2z_inj. by rewrite Hb, b2z_z2b.
  - intros [= -> Hbs]. split; [by rewrite b2z_z2b|done].
Qed.
