(* ===== verification/BodyBounds.v ===== *)
(** * Operation bodies fit their caps

    The registry gives each operation the schema of its request and result
    bodies and a cap on their size (packages/blind-protocol/registry.js); the
    dispatch layer refuses larger bodies. This file computes the largest
    encoding of every body schema and shows that no encodable body is refused. *)

From Stdlib Require Import ZArith Lia Bool List String Ascii.
From Stdlib Require Import Strings.Byte.
From stdpp Require Import base tactics list strings.
From S2P Require Import Prelude Codec CodecLaws DemoPlatform Authority Hashes SchemaKit ResultBinding.
From S2P Require Import SchemasDescribe SchemasCell SchemasInbox SchemasForward SchemasDurability Catalog Accepted.
Import Binding.

(** Computes the bound of a named schema. *)
Ltac bounds := match goal with |- Bounded ?e ?m => let h := eval red in e in change (Bounded h m) end; apply _.
Section WithPlatform.
Context `{Platform}.

(** The rows of [OPERATION_PROFILE_ROWS] in registry.js that name the body
    schemas: family, operation, request and result schema. *)
Definition OPERATION_BODY_SCHEMAS : list (Z * Z * schema * option schema) := [
  (FAMILY_DESCRIBE, OPERATION_DESCRIBE_GET, Schema "BlindDescribeGetV1" blindDescribeGetV1, Some (Schema "BlindServiceDescriptorV1" blindServiceDescriptorV1));
  (FAMILY_DESCRIBE, OPERATION_DESCRIBE_CHALLENGE, Schema "BlindHealthChallengeV1" blindHealthChallengeV1, Some (Schema "BlindHealthResultV1" blindHealthResultV1));
  (FAMILY_DESCRIBE, OPERATION_DESCRIBE_ADMISSION_PARAMETERS, Schema "BlindAdmissionParametersRequestV1" blindAdmissionParametersRequestV1, Some (Schema "AdmissionParametersV1" admissionParametersV1));
  (FAMILY_CELL, OPERATION_CELL_PUT, Schema "PutCellV1" putCellV1, Some (Schema "BlindReceiptV1" blindReceiptV1));
  (FAMILY_CELL, OPERATION_CELL_GET, Schema "GetCellV1" getCellV1, Some (Schema "GetCellResultV1" getCellResultV1));
  (FAMILY_CELL, OPERATION_CELL_RENEW, Schema "RenewCellV1" renewCellV1, Some (Schema "BlindReceiptV1" blindReceiptV1));
  (FAMILY_CELL, OPERATION_CELL_DROP, Schema "DropCellV1" dropCellV1, Some (Schema "BlindReceiptV1" blindReceiptV1));
  (FAMILY_CELL, OPERATION_CELL_PROVE, Schema "ProveCellV1" proveCellV1, Some (Schema "ProveCellResultV1" proveCellResultV1));
  (FAMILY_CELL, OPERATION_CELL_BATCH_GET, Schema "BatchGetV1" batchGetV1, Some (Schema "BatchGetResultV1" batchGetResultV1));
  (FAMILY_INBOX, OPERATION_INBOX_CREATE, Schema "InboxCreateV1" inboxCreateV1, Some (Schema "InboxReceiptV1" inboxReceiptV1));
  (FAMILY_INBOX, OPERATION_INBOX_RENEW, Schema "InboxManageV1" inboxManageV1, Some (Schema "InboxReceiptV1" inboxReceiptV1));
  (FAMILY_INBOX, OPERATION_INBOX_CLOSE, Schema "InboxManageV1" inboxManageV1, Some (Schema "InboxReceiptV1" inboxReceiptV1));
  (FAMILY_INBOX, OPERATION_INBOX_APPEND, Schema "InboxAppendV1" inboxAppendV1, Some (Schema "InboxAppendAckV1" inboxAppendAckV1));
  (FAMILY_INBOX, OPERATION_INBOX_READ, Schema "InboxReadV1" inboxReadV1, Some (Schema "InboxReadResultV1" inboxReadResultV1));
  (FAMILY_INBOX, OPERATION_INBOX_WATCH, Schema "InboxWatchV1" inboxWatchV1, Some (Schema "InboxReadResultV1" inboxReadResultV1));
  (FAMILY_CORE, OPERATION_CORE_MIRROR, Schema "CoreMirrorRequestV1" coreMirrorRequestV1, Some (Schema "BlindCoreAckV1" blindCoreAckV1));
  (FAMILY_CORE, OPERATION_CORE_PROVE, Schema "CoreServeChallengeV1" coreServeChallengeV1, Some (Schema "CoreServeResultV1" coreServeResultV1));
  (FAMILY_CORE, OPERATION_CORE_OPEN_REPLICATION, Schema "CoreOpenReplicationV1" coreOpenReplicationV1, Some (Schema "CoreOpenReplicationResultV1" coreOpenReplicationResultV1));
  (FAMILY_FORWARD, OPERATION_FORWARD_OPEN, Schema "BlindForwardOpenV1" blindForwardOpenV1, Some (Schema "BlindForwardOpenResultV1" blindForwardOpenResultV1));
  (FAMILY_FORWARD, OPERATION_FORWARD_DATA, Schema "BlindForwardDataV1" blindForwardDataV1, None);
  (FAMILY_FORWARD, OPERATION_FORWARD_WINDOW, Schema "BlindForwardWindowV1" blindForwardWindowV1, None);
  (FAMILY_FORWARD, OPERATION_FORWARD_CLOSE, Schema "BlindForwardCloseV1" blindForwardCloseV1, None)].

(** ** Entries whose payload is a whole number of 4 KiB blocks *)

(** Accepted values take a multiple of 4096 bytes plus at most [r]. *)
Definition granular (e : encoding) (r : Z) : Prop :=
  forall s v p s', preencode e s v p = Ok s' ->
  exists k, 0 <= k /\ 4096 * k <= st_end s' - st_end s <= 4096 * k + r.

Lemma bounded_granular e r : Bounded e r -> (forall s v p s', preencode e s v p = Ok s' -> st_end s <= st_end s') ->
  granular e r.
Proof. intros Hb Hm s v p s' Hq. pose proof (Hm _ _ _ _ Hq). apply Hb in Hq. exists 0. lia. Qed.

Lemma class_blocks f tbl n p : (forall e, In e tbl -> exists k, 0 <= k /\ snd e = 4096 * k) ->
  selectedLength f tbl p = Ok n -> exists k, 0 <= k /\ n = 4096 * k.
Proof.
  intros Hall Hq. unfold selectedLength in Hq. destruct (table_get _ _) as [k|] eqn:E; [|done].
  destruct (_ || _); [done|]. injection Hq as ->. unfold table_get in E.
  destruct (get p f); try discriminate; (destruct (find _ _) as [e|] eqn:F; [|done]);
    injection E as <-; apply find_some in F as [Hin _]; by apply Hall.
Qed.

(** Every length of the table is a whole number of blocks. *)
Definition whole_blocks (tbl : list (Z * Z)) : bool :=
  forallb (fun e => (0 <=? snd e / 4096) && (snd e =? 4096 * (snd e / 4096))) tbl.

Lemma whole_blocks_in tbl e : whole_blocks tbl = true -> In e tbl -> exists k, 0 <= k /\ snd e = 4096 * k.
Proof.
  unfold whole_blocks. rewrite forallb_forall. intros Hall Hin. apply Hall in Hin. b2p. by exists (snd e / 4096).
Qed.

(** The payload alone. *)
Lemma payload_granular f tbl : whole_blocks tbl = true -> granular (exactBytesByClass f tbl) 0.
Proof.
  intros Hb s v p s' Hq. cbn [preencode exactBytesByClass] in Hq.
  apply bindR_ok in Hq as (bs & _ & Hq). apply bindR_ok in Hq as (n & Hn & Hq). oks.
  destruct (class_blocks f tbl n p) as (k & Hk & ->); [eauto using whole_blocks_in|done|].
  exists k. simpl. lia.
Qed.

Lemma fixed_granular n m : 0 <= n -> granular (fixedUnsigned n m) n.
Proof.
  intros Hn s v p s' Hq. cbn [preencode fixedUnsigned] in Hq. oks. exists 0. simpl. lia.
Qed.

Lemma u64_granular : granular u64be 8.
Proof. intros s v p s' Hq. cbn [preencode u64be] in Hq. oks. exists 0. simpl. lia. Qed.

Lemma fixedBytes_granular n : 0 <= n -> granular (fixedBytes n) n.
Proof. intros Hn s v p s' Hq. cbn [preencode fixedBytes] in Hq. oks. exists 0. simpl. lia. Qed.

Lemma ranged_granular e lo hi r : granular e r -> granular (ranged e lo hi) r.
Proof. intros He s v p s' Hq. cbn [preencode ranged] in Hq. apply bindR_ok in Hq as (? & _ & Hq). by apply He in Hq. Qed.

Inductive fields_granular : fields -> Z -> Prop :=
| fields_granular_nil : fields_granular [] 0
| fields_granular_cons n e fs r q : granular e r -> fields_granular fs q -> fields_granular ((n, e) :: fs) (r + q).

Lemma struct_fields_granular fs r s v s' : fields_granular fs r -> struct_fields preencode fs s v = Ok s' ->
  exists k, 0 <= k /\ 4096 * k <= st_end s' - st_end s <= 4096 * k + r.
Proof.
  intros Hf. revert s; induction Hf as [|n e fs r q He _ IH]; intros s Hq; simpl in Hq.
  - oks. exists 0. lia.
  - apply bindR_ok in Hq as (s1 & H1 & Hq). apply He in H1 as (k1 & ? & ?). apply IH in Hq as (k2 & ? & ?).
    exists (k1 + k2). lia.
Qed.

Lemma struct_granular fs chk r : fields_granular fs r -> granular (struct fs chk) r.
Proof.
  intros Hf s v p s' Hq. cbn [preencode struct] in Hq. apply bindR_ok in Hq as (? & _ & Hq).
  apply bindR_ok in Hq as (s1 & H1 & Hq). apply bindR_ok in Hq as (? & _ & Hq). injection Hq as ->.
  by eapply struct_fields_granular.
Qed.

Lemma array_granular e lo hi r : granular e r -> 0 <= r -> 0 <= hi ->
  granular (arrayOf e lo hi) (compactUint_size hi + hi * r).
Proof.
  intros He Hr Hh s v p s' Hq. cbn [preencode arrayOf] in Hq.
  apply bindR_ok in Hq as (vs & Hv & Hq). apply bindR_ok in Hq as (s1 & H1 & Hq).
  destruct v; try discriminate. unfold array_of_value in Hv. destruct (_ || _) eqn:E; [done|]. injection Hv as ->. b2p.
  assert (Hs : st_end s <= st_end s1 <= st_end s + compactUint_size hi).
  { split; [|eapply cuint_preencode_bound; [exact H1|lia]]. unfold compactUint_preencode in H1. oks. simpl.
    unfold compactUint_size. repeat case_match; lia. }
  assert (Hf : forall s s', fold_values (fun s v => preencode e s v VUndef) s vs = Ok s' ->
    exists k, 0 <= k /\ 4096 * k <= st_end s' - st_end s <= 4096 * k + Z.of_nat (List.length vs) * r).
  { clear -He Hr. induction vs as [|v vs IH]; intros s s' Hq; simpl in Hq; [oks; exists 0; simpl; lia|].
    apply bindR_ok in Hq as (s1 & H1 & Hq). apply He in H1 as (k1 & ? & ?). apply IH in Hq as (k2 & ? & ?).
    exists (k1 + k2). simpl List.length. lia. }
  apply Hf in Hq as (k & Hk & Hl). exists k. nia.
Qed.

Lemma found_granular : granular batchGetFoundV1 1.
Proof.
  apply struct_granular. change 1 with (1 + (0 + 0)). constructor; [apply ranged_granular, fixed_granular; lia|].
  constructor; [by apply payload_granular|constructor].
Qed.

Lemma batch_entry_granular : granular batchGetEntryV1 2.
Proof.
  intros s v p s' Hq. cbn [preencode batchGetEntryV1] in Hq. apply bindR_ok in Hq as (? & _ & Hq).
  apply bindR_ok in Hq as (s1 & H1 & Hq). apply (fixed_granular 1 0xff ltac:(lia)) in H1 as (k1 & ? & ?).
  destruct (is_num _ 0); [injection Hq as ->; exists k1; lia|]. apply bindR_ok in Hq as (? & _ & Hq).
  apply found_granular in Hq as (k2 & ? & ?). exists (k1 + k2). lia.
Qed.

Lemma read_entry_granular : granular inboxReadEntryV1 41.
Proof.
  apply struct_granular. change 41 with (8 + (32 + (1 + (0 + 0)))).
  repeat constructor; [apply u64_granular | by apply fixedBytes_granular |
    by apply ranged_granular, fixed_granular | by apply payload_granular].
Qed.

(** ** Sizes of the two list results *)

(** A field of a given value takes at most [m] bytes. *)
Definition takes (v : val) (f : string * encoding) (m : Z) : Prop :=
  forall s s', preencode (snd f) s (get v (fst f)) v = Ok s' -> st_end s' <= st_end s + m.

Lemma struct_takes fs chk ms v bs t `{!Lawful (struct fs chk) [] t} :
  encodeCanonical (struct fs chk) v = Ok bs -> Forall2 (takes v) fs ms -> blen bs <= fold_right Z.add 0 ms.
Proof.
  intros Hq Hf. pose proof Hq as Hq'. unfold encodeCanonical in Hq. apply bindR_ok in Hq as (s & Hs & _).
  destruct (codec_total _ t v s Hs) as (b & Hb & Hl). rewrite Hb in Hq'. injection Hq' as ->. rewrite Hl.
  cbn [preencode struct] in Hs. apply bindR_ok in Hs as (? & _ & Hs). apply bindR_ok in Hs as (s1 & H1 & Hs).
  apply bindR_ok in Hs as (? & _ & Hs). injection Hs as ->. change (st_end s <= 0 + fold_right Z.add 0 ms).
  change 0 with (st_end (St 0 0 [])) at 1. revert H1. generalize (St 0 0 []).
  clear -Hf. induction Hf as [|[n e] m fs ms He _ IH]; intros s0 Hq; simpl in Hq; [oks; simpl; lia|].
  apply bindR_ok in Hq as (s1 & H1 & Hq). apply He in H1. apply IH in Hq. simpl. lia.
Qed.

Lemma bounded_takes v n e m : Bounded e m -> takes v (n, e) m.
Proof. intros Hb s s' Hq. by apply Hb in Hq. Qed.

(** The growth of the sizing pass does not depend on where it starts. *)
Lemma size_of_encoding e t `{!Lawful e [] t} v bs s s' :
  encodeCanonical e v = Ok bs -> preencode e s v VUndef = Ok s' -> st_end s' = st_end s + blen bs.
Proof.
  intros He Hq. pose proof Hq as Hq'. apply sized_emits in Hq' as [b Hb].
  rewrite (emits_encodeCanonical _ _ _ Hb) in He. injection He as ->.
  destruct Hb as [Hs _]. specialize (Hs s). cbv beta in Hs. rewrite Hs in Hq. injection Hq as <-. done.
Qed.

(** A list of entries below its cap: the slack the cap leaves is less than a
    block, so the entries also stay below it with the whole of their framing. *)
Lemma entries_take e t lo hi r n v `{!Lawful (arrayOf e lo hi) [] t} bs base :
  granular e r -> 0 <= r -> 0 <= hi -> 0 < base ->
  encodeCanonical (arrayOf e lo hi) (get v n) = Ok bs -> base + blen bs <= 4 * MiB ->
  takes v (n, arrayOf e lo hi) (1023 * 4096 + (compactUint_size hi + hi * r)).
Proof.
  intros Hg Hr Hh Hb He Hc s s' Hq. simpl in Hq.
  change (preencode (arrayOf e lo hi) s (get v n) VUndef = Ok s') in Hq.
  pose proof (size_of_encoding _ _ _ _ _ _ He Hq) as Hsz.
  apply (array_granular _ _ _ r Hg Hr Hh) in Hq as (k & Hk & Hl). unfold MiB, KiB in Hc. lia.
Qed.

Lemma batch_result_fits v bs : encodeCanonical batchGetResultV1 v = Ok bs -> blen bs <= 4 * MiB.
Proof.
  intros Hq. pose proof (accepted_validate _ _ _ (encoded_accepted _ _ _ Hq)) as Hv.
  unfold validate_batchGetResultV1 in Hv. apply bindR_ok in Hv as (eb & He & Hv).
  apply bindR_ok in Hv as (? & _ & Hv). apply fail_if_ok, Z.ltb_ge in Hv.
  assert (Ht : takes v ("entries", batchGetEntriesV1) (1023 * 4096 + (compactUint_size 64 + 64 * 2)))
    by (eapply (entries_take _ _ _ _ 2 "entries" v eb 193); [apply batch_entry_granular|lia..|exact He|exact Hv]).
  eapply Z.le_trans; [eapply struct_takes; [exact batchGetResultV1_lawful|exact Hq|]|].
  - do 4 (constructor; [apply bounded_takes; first [apply _ | bounds] |]). constructor; [exact Ht|]. repeat (constructor; [apply bounded_takes; first [apply _ | bounds] |]); constructor.
  - apply Z.leb_le. vm_compute. reflexivity.
Qed.

Lemma read_result_fits v bs : encodeCanonical inboxReadResultV1 v = Ok bs -> blen bs <= 4 * MiB.
Proof.
  intros Hq. pose proof (accepted_validate _ _ _ (encoded_accepted _ _ _ Hq)) as Hv.
  unfold validate_inboxReadResultV1 in Hv. apply bindR_ok in Hv as (? & _ & Hv). apply bindR_ok in Hv as (eb & He & Hv).
  apply bindR_ok in Hv as (? & _ & Hv). apply bindR_ok in Hv as (cb & _ & Hv). apply fail_if_ok, Z.ltb_ge in Hv.
  pose proof (blen_nonneg cb).
  assert (Ht : takes v ("entries", inboxReadEntriesV1) (1023 * 4096 + (compactUint_size 64 + 64 * 41)))
    by (eapply (entries_take _ _ _ _ 41 "entries" v eb 201); [apply read_entry_granular|lia..|exact He|lia]).
  eapply Z.le_trans; [eapply struct_takes; [exact inboxReadResultV1_lawful|exact Hq|]|].
  - do 5 (constructor; [apply bounded_takes; first [apply _ | bounds] |]). constructor; [exact Ht|]. repeat (constructor; [apply bounded_takes; first [apply _ | bounds] |]); constructor.
  - apply Z.leb_le. vm_compute. reflexivity.
Qed.

(** ** Every body of every operation *)

(** What the encoder makes of a schema fits in [m] bytes. *)
Definition fits (s : schema) (m : Z) : Prop := forall v bs, encodeCanonical (codec s) v = Ok bs -> blen bs <= m.

Lemma bounded_fits s k m : Bounded (codec s) k -> (k <=? m) = true -> fits s m.
Proof.
  intros Hb Hl v bs Hq. apply Z.leb_le in Hl. pose proof (codec_lawful s).
  pose proof (bounded_encoding _ (schema_type s) k v bs Hb Hq). lia.
Qed.

(** The registry row of an operation caps both bodies. *)
Definition body_fits (row : Z * Z * schema * option schema) : Prop :=
  let '(f, o, req, res) := row in
  match operationProfile (VNum f) (VNum o) with
  | Some p => fits req (op_maxRequestBodyBytes p) /\
              match res with Some r => fits r (op_maxResultBodyBytes p) | None => True end
  | None => False
  end.
End WithPlatform.

Ltac fits :=
  match goal with
  | |- fits (@Schema _ batchGetResultV1 _ _) _ => exact batch_result_fits
  | |- fits (@Schema _ inboxReadResultV1 _ _) _ => exact read_result_fits
  | |- fits (@Schema _ ?e _ _) _ =>
      eapply bounded_fits; [match goal with |- Bounded _ ?m => change (Bounded e m) end; bounds | vm_compute; reflexivity]
  end.

(** C15: the registry's caps never refuse a body its schemas can encode: for each
    of the 22 operations, every encoding of the request schema is at most the
    row's maxRequestBodyBytes and every encoding of the result schema at most
    its maxResultBodyBytes. *)
Theorem operation_bodies_fit `{Platform} : Forall body_fits OPERATION_BODY_SCHEMAS.
Proof.
  unfold OPERATION_BODY_SCHEMAS.
  repeat (constructor; [split; [fits | try exact I; fits] |]). constructor.
Qed.
