(* ===== verification/CatalogLaws.v ===== *)
(** * Laws of the schemas of the list

    Each of the 77 schemas of [EXECUTABLE_SCHEMA_CODECS] comes with its laws; the four
    theorems here state what they mean for [encodeCanonical] and
    [decodeCanonical]: nothing is lost, no value has two encodings, the two
    passes of the encoder agree, and encodings can be concatenated. *)

From Stdlib Require Import ZArith Lia Bool List String Ascii.
From Stdlib Require Import Strings.Byte.
From stdpp Require Import base tactics list strings.
From S2P Require Import Prelude Codec CodecLaws DemoPlatform Authority Hashes SchemaKit ResultBinding.
From S2P Require Import SchemasDescribe SchemasCell SchemasInbox SchemasForward SchemasDurability Catalog.
Import Binding.

#[local] Existing Instance codec_lawful.

(** A retryable error: code 18 asks the client to wait for an epoch. *)
Definition demo_error : val := VObj [
  ("version", VNum 1); ("code", VNum 18); ("retryable", VNum 1); ("retryAfterEpoch", VNum 4660)].
Definition demo_error_bytes : bytes :=
  [z2b 1; z2b 18; z2b 1; z2b 1; z2b 0; z2b 0; z2b 0x12; z2b 0x34].

Lemma error_in_catalog `{Platform} : In (Schema "BlindErrorV1" blindErrorV1) EXECUTABLE_SCHEMA_CODECS.
Proof. unfold EXECUTABLE_SCHEMA_CODECS. simpl. repeat (first [left; reflexivity | right]). Qed.

Example catalogued : forall `{Platform}, List.length EXECUTABLE_SCHEMA_CODECS = 77%nat.
Proof. reflexivity. Qed.

Lemma demo_error_encodes : encodeCanonical blindErrorV1 demo_error = Ok demo_error_bytes.
Proof. reflexivity. Qed.

(** C10: nothing is lost: whatever value of its type one of the 77 schemas of the
    list encodes, decoding the bytes gives that value back. *)
Theorem catalog_roundtrip `{Platform} s v bs : In s EXECUTABLE_SCHEMA_CODECS ->
  has_type (schema_type s) v = true -> encodeCanonical (codec s) v = Ok bs ->
  decodeCanonical (codec s) (VBytes bs) = Ok v.
Proof. intros _. apply (codec_roundtrip (codec s) (schema_type s)). Qed.

Lemma catalog_roundtrip_witness : decodeCanonical blindErrorV1 (VBytes demo_error_bytes) = Ok demo_error.
Proof.
  apply (@catalog_roundtrip demo_platform (Schema "BlindErrorV1" blindErrorV1)).
  - apply error_in_catalog.
  - reflexivity.
  - apply demo_error_encodes.
Defined.

(** C9: no value has two encodings and no foreign bytes are accepted: a buffer
    any of the 77 schemas of the list decodes is byte for byte what its encoder
    produces for the decoded value, which has the type of the schema. *)
Theorem catalog_canonical `{Platform} s bs v : In s EXECUTABLE_SCHEMA_CODECS ->
  decodeCanonical (codec s) (VBytes bs) = Ok v ->
  has_type (schema_type s) v = true /\ encodeCanonical (codec s) v = Ok bs.
Proof. intros _. apply (codec_canonical (codec s) (schema_type s)). Qed.

Lemma catalog_canonical_witness :
  has_type blindErrorV1_type demo_error = true /\ encodeCanonical blindErrorV1 demo_error = Ok demo_error_bytes.
Proof.
  apply (@catalog_canonical demo_platform (Schema "BlindErrorV1" blindErrorV1)).
  - apply error_in_catalog.
  - reflexivity.
Defined.

(** the two passes of the encoder agree: once the sizing pass of a schema
    has accepted a value, writing cannot fail, and it fills the buffer that was
    allocated, no byte more and no byte less. *)
Theorem catalog_total `{Platform} s v st : In s EXECUTABLE_SCHEMA_CODECS ->
  preencode (codec s) (St 0 0 []) v VUndef = Ok st ->
  exists bs, encodeCanonical (codec s) v = Ok bs /\ blen bs = st_end st.
Proof. intros _. apply (codec_total (codec s) (schema_type s)). Qed.

Lemma catalog_total_witness : exists bs, encodeCanonical blindErrorV1 demo_error = Ok bs /\ blen bs = 8.
Proof.
  apply (@catalog_total demo_platform (Schema "BlindErrorV1" blindErrorV1) demo_error (St 0 8 [])).
  - apply error_in_catalog.
  - reflexivity.
Defined.

(** encodings delimit themselves: if the encodings of two values of one
    schema start the same buffer, the values are equal and so is what follows,
    so a sequence of encoded values has one reading only. *)
Theorem catalog_delimits `{Platform} s v w a b r t : In s EXECUTABLE_SCHEMA_CODECS ->
  has_type (schema_type s) v = true -> has_type (schema_type s) w = true ->
  encodeCanonical (codec s) v = Ok a -> encodeCanonical (codec s) w = Ok b ->
  a ++ r = b ++ t -> v = w /\ a = b /\ r = t.
Proof.
  intros _ Hv Hw Ha Hb. rewrite (encodeCanonical_emits _ (schema_type s)) in Ha, Hb.
  by apply (emits_delimits (codec s) (schema_type s)).
Qed.

Lemma catalog_delimits_witness :
  demo_error = demo_error /\ demo_error_bytes = demo_error_bytes /\ [z2b 7] = [z2b 7].
Proof.
  apply (@catalog_delimits demo_platform (Schema "BlindErrorV1" blindErrorV1));
    try apply error_in_catalog; reflexivity.
Defined.
