(* ===== verification/DescribeLaws.v ===== *)
(** * What a client learns from the describe family

    The registry artifacts a relay can publish, the errors it can return, the
    topology of its external journal and the life cycle of its descriptor:
    everything [decodeCanonical] lets through satisfies the contract stated
    here. *)

From Stdlib Require Import ZArith Lia Bool List String Ascii Sorted.
From Stdlib Require Import Strings.Byte.
From stdpp Require Import base tactics list strings.
From S2P Require Import Prelude Codec CodecLaws DemoPlatform Authority Hashes SchemaKit ResultBinding.
From S2P Require Import SchemasDescribe Orders Accepted.

(** ** Operation profiles *)

(** A registry row as a decoded object and as bytes. *)
Definition profile_value (p : operation_profile) : val := VObj [
  ("familyId", VNum (op_familyId p)); ("operationId", VNum (op_operationId p));
  ("requestSchemaId", VNum (op_requestSchemaId p)); ("resultSchemaId", VNum (op_resultSchemaId p));
  ("allowedRequestKindBits", VNum (op_allowedRequestKindBits p));
  ("allowedResultKindBits", VNum (op_allowedResultKindBits p));
  ("streamTransition", VNum (op_streamTransition p));
  ("maxRequestBodyBytes", VNum (op_maxRequestBodyBytes p));
  ("maxResultBodyBytes", VNum (op_maxResultBodyBytes p));
  ("admissionMode", VNum (op_admissionMode p)); ("costClassRuleId", VNum (op_costClassRuleId p));
  ("requestCommitmentDomainId", VNum (op_requestCommitmentDomainId p));
  ("resultSignatureDomainId", VNum (op_resultSignatureDomainId p));
  ("errorProfileId", VNum (op_errorProfileId p)); ("transportSupportBits", VNum (op_transportSupportBits p))].

Definition profile_bytes (p : operation_profile) : bytes :=
  be_bytes 1 (op_familyId p) ++ be_bytes 1 (op_operationId p) ++ be_bytes 2 (op_requestSchemaId p) ++
  be_bytes 2 (op_resultSchemaId p) ++ be_bytes 1 (op_allowedRequestKindBits p) ++
  be_bytes 1 (op_allowedResultKindBits p) ++ be_bytes 1 (op_streamTransition p) ++
  be_bytes 4 (op_maxRequestBodyBytes p) ++ be_bytes 4 (op_maxResultBodyBytes p) ++
  be_bytes 1 (op_admissionMode p) ++ be_bytes 2 (op_costClassRuleId p) ++
  be_bytes 2 (op_requestCommitmentDomainId p) ++ be_bytes 2 (op_resultSignatureDomainId p) ++
  be_bytes 1 (op_errorProfileId p) ++ be_bytes 2 (op_transportSupportBits p).

(** Every row of the registry passes its own schema. *)
Lemma profiles_encode : Forall (fun p => encodeCanonical operationProfileV1 (profile_value p) = Ok (profile_bytes p))
  OPERATION_PROFILE_ROWS.
Proof. repeat (constructor; [vm_compute; reflexivity|]). constructor. Qed.

Lemma profile_typed p : has_type operationProfileV1_type (profile_value p) = is_num (VNum (op_errorProfileId p)) 1.
Proof. cbn. by rewrite !andb_true_r. Qed.

Lemma profiles_typed : Forall (fun p => has_type operationProfileV1_type (profile_value p) = true) OPERATION_PROFILE_ROWS.
Proof. repeat (constructor; [reflexivity|]). constructor. Qed.

Lemma same_profile_value v p : has_type operationProfileV1_type v = true -> same_profile v p = true -> v = profile_value p.
Proof.
  intros Ht Hs. unfold operationProfileV1_type in Ht. typed Ht. unfold same_profile in Hs.
  cbn [get assoc String.eqb Ascii.eqb Bool.eqb] in Hs. b2p. repeat match goal with Hq : is_num _ _ = true |- _ => apply is_num_iff in Hq as -> end. done.
Qed.

Lemma accepted_profile v : accepted operationProfileV1 v ->
  exists p, In p OPERATION_PROFILE_ROWS /\ same_profile v p = true.
Proof.
  intros Ha. apply accepted_validate in Ha. unfold validate_operationProfileV1 in Ha.
  repeat (apply bindR_ok in Ha as (? & _ & Ha)). destruct (operationProfile _ _) as [p|] eqn:E; [|done].
  apply fail_if_ok, negb_false_iff in Ha. unfold operationProfile in E. apply find_some in E as [Hin _]. eauto.
Qed.

(** The frozen operation registry is the only one that can be published: a
    buffer decodes as an operation profile exactly when it is the canonical
    encoding of one of the 22 registry rows, and then the decoded object is that
    row in every column. *)
Theorem operation_profiles_exact bs v : decodeCanonical operationProfileV1 (VBytes bs) = Ok v <->
  exists p, In p OPERATION_PROFILE_ROWS /\ v = profile_value p /\ bs = profile_bytes p.
Proof.
  pose proof profiles_encode as He. pose proof profiles_typed as Ht. rewrite List.Forall_forall in He, Ht. split.
  - intros Hq. apply (decoded _ operationProfileV1_type) in Hq as (Hty & Ha & Hb).
    apply accepted_profile in Ha as (p & Hin & Hs). apply same_profile_value in Hs as ->; [|done].
    rewrite (He p Hin) in Hb. injection Hb as <-. eauto.
  - intros (p & Hin & -> & ->). apply (codec_roundtrip _ operationProfileV1_type); auto.
Qed.

(** ** Errors *)

Definition error_value (p : error_profile) (retry_after : val) : val := VObj [
  ("version", VNum 1); ("code", VNum (ep_code p)); ("retryable", VNum (ep_retryable p));
  ("retryAfterEpoch", retry_after)].

(** The retry epoch a row asks for: present exactly in mode 1. *)
Definition retry_shape (p : error_profile) (retry_after : val) : Prop :=
  if ep_retryAfterMode p =? ERROR_RETRY_AFTER_MODE_MUST_BE_PRESENT
  then exists epoch, 0 <= epoch <= 0xffffffff /\ retry_after = VNum epoch
  else retry_after = VNull.

Lemma error_row_typed p r : retry_shape p r -> has_type blindErrorV1_type (error_value p r) = true.
Proof.
  unfold retry_shape. destruct (_ =? _); [intros (epoch & _ & ->)|intros ->]; done.
Qed.

(** A row with the retry epoch it asks for passes the sizing pass. *)
Lemma error_row_sizes p r : In p ERROR_PROFILE_ROWS -> retry_shape p r ->
  exists s, preencode blindErrorV1 (St 0 0 []) (error_value p r) VUndef = Ok s.
Proof.
  intros Hin Hr. unfold retry_shape in Hr.
  assert (Hu : forall epoch, 0 <= epoch <= 0xffffffff -> assertUnsignedNumber (VNum epoch) 0xffffffff = Ok epoch)
    by (intros epoch He; by apply assertUnsigned_ok).
  repeat (destruct Hin as [<-|Hin]; [cbn in Hr; first [destruct Hr as (epoch & He & ->) | subst r];
    unfold blindErrorV1; cbn -[assertUnsignedNumber]; rewrite ?Hu by done; by eexists|]). done.
Qed.

(** Errors say what the error profile says: a buffer decodes as an error
    exactly when its code is one of the 20 registered ones, its retryable bit is
    the registered one, and a retry epoch is present exactly when the profile of
    that code demands one; every such error has an encoding. *)
Theorem error_profiles_exact v : (exists bs, decodeCanonical blindErrorV1 (VBytes bs) = Ok v) <->
  exists p r, In p ERROR_PROFILE_ROWS /\ retry_shape p r /\ v = error_value p r.
Proof.
  split.
  - intros (bs & Hq). apply (decoded _ blindErrorV1_type) in Hq as (Ht & Ha & _).
    field Ha "retryAfterEpoch" as Hr. apply accepted_validate in Ha. unfold validate_blindErrorV1 in Ha.
    unfold blindErrorV1_type in Ht. typed Ht. cbn [get assoc String.eqb Ascii.eqb Bool.eqb] in *.
    destruct (errorProfileEntry _ _) as [p|] eqn:E; [|done]. apply fail_if_ok in Ha. b2p.
    unfold errorProfileEntry in E. apply find_some in E as [Hin E]. b2p.
    repeat match goal with Hq : is_num _ _ = true |- _ => apply is_num_iff in Hq; subst end.
    exists p, x2. split; [done|]. apply has_const in Hx as ->. split; [|done]. unfold retry_shape.
    destruct (_ =? _); [|destruct x2; done].
    assert (nullish x2 = false) as Hn by (by destruct (nullish x2)). apply accepted_optional in Hr; [|done].
    apply accepted_u32 in Hr as [-> ?]. eauto.
  - intros (p & r & Hin & Hr & ->). destruct (error_row_sizes p r Hin Hr) as (s & Hs).
    destruct (codec_total _ blindErrorV1_type _ _ Hs) as (bs & Hb & _). exists bs.
    apply (codec_roundtrip _ blindErrorV1_type); [by apply error_row_typed|done].
Qed.

(** ** The external journal topology *)

(** The key journal nodes are sorted by. *)
Definition node_key (node : val) : list Z :=
  digits (raw node.["nodePublicKey"]) ++ digits (raw node.["operatorGroupId"]) ++
  digits (raw node.["failureDomainId"]) ++ [num node.["roleConflictBits"]].

Definition group_key (group : val) : list Z :=
  digits (raw group.["backupFailureGroupId"]) ++ digits (raw group.["operatorGroupId"]).

(** Two accepted byte fields of one width. *)
Lemma same_width fs chk f n a b : accepted (struct fs chk) a -> accepted (struct fs chk) b -> In (f, fixedBytes n) fs ->
  List.length (digits (raw a.[f])) = List.length (digits (raw b.[f])).
Proof.
  intros Ha Hb Hin.
  destruct (accepted_fixedBytes _ _ (accepted_field _ _ _ _ _ Ha Hin)) as [_ Hfa].
  destruct (accepted_fixedBytes _ _ (accepted_field _ _ _ _ _ Hb Hin)) as [_ Hfb].
  unfold digits, blen in *. rewrite !length_map. lia.
Qed.

Lemma compare_digits a b : (compareBytes a b < 0 -> lex_lt (digits a) (digits b)) /\
  (compareBytes a b = 0 -> digits a = digits b).
Proof. split; [apply compareBytes_lt|]. by intros ->%compareBytes_zero. Qed.

Lemma node_order a b c : accepted blindExternalJournalNodeV1 a -> accepted blindExternalJournalNodeV1 b ->
  compareJournalNode a b = Ok c -> c < 0 -> lex_lt (node_key a) (node_key b).
Proof.
  intros Ha Hb [= <-]. unfold node_key.
  field Ha "roleConflictBits" as Hra. field Hb "roleConflictBits" as Hrb.
  apply accepted_u16 in Hra as [Hra _], Hrb as [Hrb _].
  apply or_compare_lex; [apply compare_digits..|eapply (same_width _ _ _ 32); eauto; in_fields|].
  apply or_compare_lex; [apply compare_digits..|eapply (same_width _ _ _ 32); eauto; in_fields|].
  apply or_compare_lex; [apply compare_digits..|eapply (same_width _ _ _ 32); eauto; in_fields|].
  rewrite Hra, Hrb. intros Hc%compareScalar_lt. by constructor.
Qed.

Lemma group_order a b c : accepted blindExternalBackupFailureGroupV1 a -> accepted blindExternalBackupFailureGroupV1 b ->
  compareBackupFailureGroup a b = Ok c -> c < 0 -> lex_lt (group_key a) (group_key b).
Proof.
  intros Ha Hb [= <-]. unfold group_key.
  apply or_compare_lex; [apply compare_digits..|eapply (same_width _ _ _ 32); eauto; in_fields|apply compare_digits].
Qed.

(** Epoch windows: at least one epoch, at most four. *)
Lemma epoch_window_ok v : accepted u32be v.["issuedEpoch"] -> accepted u32be v.["expiresEpoch"] ->
  validateEpochWindow v = Ok tt -> num v.["issuedEpoch"] < num v.["expiresEpoch"] <= num v.["issuedEpoch"] + 4.
Proof.
  intros [Hi _]%accepted_u32 [He _]%accepted_u32 Hw. unfold validateEpochWindow in Hw. apply fail_if_ok in Hw. b2p.
  rewrite Hi, He in *. simpl in *. b2p. lia.
Qed.

(** What a client may rely on. Every quorum of two spans two operator groups and
    two failure domains; the two lists are sorted, so a set of nodes has one
    encoding only. *)
Record diverse_topology (v : val) : Prop := {
  three_nodes : List.length (elems v.["nodes"]) = 3%nat;
  quorum_of_two : v.["commitQuorum"] = VNum 2;
  operators_differ : NoDup (map (fun node => raw node.["operatorGroupId"]) (elems v.["nodes"]));
  domains_differ : NoDup (map (fun node => raw node.["failureDomainId"]) (elems v.["nodes"]));
  nodes_sorted : StronglySorted lex_lt (map node_key (elems v.["nodes"]));
  groups_sorted : StronglySorted lex_lt (map group_key (elems v.["backupFailureGroups"]));
  topology_window : num v.["issuedEpoch"] < num v.["expiresEpoch"] <= num v.["issuedEpoch"] + 4;
  topology_chain : v.["topologySequence"] = VBig 0 <-> v.["previousTopologyHash"] = VNull
}.

(** A u64 field of a decoded object is a BigInt, and zero exactly when its
    value is. *)
Lemma big_zero v n : has_type TBig v = true -> bigint v = Ok n -> v = VBig n.
Proof. intros (m & ->)%has_big Hq. apply asU64_ok in Hq as [_ [[= ->]|[=]]]. done. Qed.

Lemma chained v w n : has_type TBig v = true -> has_type (TOpt TBytes) w = true -> bigint v = Ok n ->
  xorb (n =? 0) (nullish w) = false -> v = VBig 0 <-> w = VNull.
Proof.
  intros Hv Hw Hn Hx. rewrite (big_zero _ _ Hv Hn). destruct (n =? 0) eqn:E; b2p; [subst n|];
    destruct w; try done; (split; [intros [= ->]; done | done]).
Qed.

(** A journal topology spreads its nodes: whatever topology a client
    decodes has exactly three nodes and a commit quorum of two, no two of the
    three share an operator group or a failure domain, nodes and backup groups
    are in strictly increasing order of their keys, the topology is valid for
    one to four epochs, and only the first of a chain has no predecessor. *)
Theorem topology_diverse bs v : decodeCanonical blindExternalJournalTopologyV1 (VBytes bs) = Ok v -> diverse_topology v.
Proof.
  intros Hq. apply (decoded _ blindExternalJournalTopologyV1_type) in Hq as (Ht & Ha & _).
  field Ha "nodes" as Hn. apply accepted_array in Hn as (_ & Hlen & Hn).
  field Ha "backupFailureGroups" as Hg. apply accepted_array in Hg as (_ & _ & Hg).
  field Ha "issuedEpoch" as Hi. field Ha "expiresEpoch" as He.
  apply accepted_validate in Ha. unfold validate_blindExternalJournalTopologyV1 in Ha. oks.
  repeat match goal with Hd : assertDistinctBytes _ = Ok tt |- _ => apply assertDistinctBytes_ok in Hd end.
  split; [lia| |done|done| | |by apply epoch_window_ok|].
  - by eapply has_const, has_field.
  - by eapply (sorted_keys lex_lt node_key); [| exact Hn | eauto using node_order].
  - by eapply (sorted_keys lex_lt group_key); [| exact Hg | eauto using group_order].
  - match goal with H1 : bigint _ = Ok _, H2 : xorb _ _ = false |- _ => eapply chained; [| |exact H1|exact H2] end;
      by eapply has_field.
Qed.

Definition demo_node (key group domain : byte) (bits : Z) : val := VObj [
  ("nodePublicKey", VBytes (replicate 32 key)); ("operatorGroupId", VBytes (replicate 32 group));
  ("failureDomainId", VBytes (replicate 32 domain)); ("roleConflictBits", VNum bits)].

Definition demo_topology : val := VObj [
  ("version", VNum 1); ("relayPublicKey", key Byte.x01); ("storeId", key Byte.x02);
  ("externalJournalId", key Byte.x03); ("durabilityContinuityHash", key Byte.x04);
  ("topologySequence", VBig 0); ("previousTopologyHash", VNull); ("replicationClass", VNum 1);
  ("commitQuorum", VNum 2); ("sharedFailureGroupId", key Byte.x05); ("liveStoreFailureGroupId", key Byte.x06);
  ("backupFailureGroups", VList []);
  ("nodes", VList [demo_node Byte.x11 Byte.x22 Byte.x31 0; demo_node Byte.x12 Byte.x21 Byte.x33 1;
                   demo_node Byte.x13 Byte.x23 Byte.x32 0]);
  ("issuedEpoch", VNum 100); ("expiresEpoch", VNum 104); ("witnessPublicKey", key Byte.x07);
  ("signature", VBytes (replicate 64 Byte.x08))].

Definition demo_topology_bytes : bytes := Eval vm_compute in
  match encodeCanonical blindExternalJournalTopologyV1 demo_topology with Ok bs => bs | Err _ => [] end.

Lemma topology_diverse_witness : diverse_topology demo_topology.
Proof. apply (topology_diverse demo_topology_bytes). vm_compute. reflexivity. Defined.

(** ** The service descriptor *)

Section Descriptor.
Context `{Platform}.

(** The bit of the [i]th operation is set. *)
Definition enables (v : val) (i : nat) : bool := Z.testbit (num v.["enabledOperationBits"]) (Z.of_nat i).

(** The operation is in the release profile and asks for no paid admission. *)
Definition free_operation (p : operation_profile) : bool :=
  isAdvertisedOperation (VNum (op_familyId p)) (VNum (op_operationId p)) && negb (op_admissionMode p =? 2).

(** The identity of a relay that moved to a new key: the statement of both keys,
    one step of the identity sequence. *)
Definition identity_moved (v : val) : Prop := exists transition n,
  v.["identityTransition"] = transition /\ v.["previousRelayKey"] = VBytes (raw transition.["oldRelayKey"]) /\
  v.["relayPublicKey"] = VBytes (raw transition.["newRelayKey"]) /\
  raw transition.["newRelayKey"] <> raw transition.["oldRelayKey"] /\
  transition.["oldIdentitySequence"] = VBig n /\ transition.["newIdentitySequence"] = VBig (n + 1) /\
  v.["identitySequence"] = VBig (n + 1).

Record descriptor_contract (v : val) : Prop := {
  protocols_sorted : StronglySorted Z.lt (map (fun p => num p.["protocolId"]) (elems v.["protocols"]));
  endpoints_sorted : StronglySorted Z.lt (map (fun p => num p.["endpointId"]) (elems v.["endpoints"]));
  admissions_sorted : StronglySorted Z.lt (map (fun p => num p.["profileId"]) (elems v.["admissionProfiles"]));
  lifecycle_states : In v.["storeLifecycleState"] [VNum 1; VNum 2; VNum 3];
  active_store : v.["storeLifecycleState"] = VNum 1 <-> v.["drainStartedEpoch"] = VNull;
  drain_in_the_past : forall epoch, v.["drainStartedEpoch"] = VNum epoch -> epoch <= num v.["issuedEpoch"];
  draining_store : v.["storeLifecycleState"] = VNum 2 ->
    forall i p, OPERATION_PROFILE_ROWS !! i = Some p -> enables v i = free_operation p;
  retired_store : v.["storeLifecycleState"] = VNum 3 -> forall i, enables v i = false;
  identity_chain : (v.["identityTransition"] = VNull /\ v.["previousRelayKey"] = VNull) \/ identity_moved v;
  descriptor_chain : v.["descriptorSequence"] = VBig 0 <-> v.["previousDescriptorHash"] = VNull;
  descriptor_window : num v.["issuedEpoch"] < num v.["expiresEpoch"] <= num v.["issuedEpoch"] + 4
}.

(** The bits a draining store keeps are the free operations. *)
Lemma draining_bits : forallb (fun '(i, p) => Bool.eqb (Z.testbit 0x000129d7 i) (free_operation p))
  (combine (map Z.of_nat (seq 0 22)) OPERATION_PROFILE_ROWS) = true.
Proof. vm_compute. reflexivity. Qed.

Lemma draining_enables v i p : v.["enabledOperationBits"] = VNum 0x000129d7 -> OPERATION_PROFILE_ROWS !! i = Some p ->
  enables v i = free_operation p.
Proof.
  intros Hv Hp. unfold enables. rewrite Hv. pose proof draining_bits as Hd. rewrite forallb_forall in Hd.
  apply eqb_prop, (Hd (Z.of_nat i, p)). clear Hd.
  do 22 (destruct i as [|i]; [injection Hp as <-; simpl; tauto|]). done.
Qed.

Lemma sorted_by field fs chk lo hi e vs : In (field, ranged e lo hi) fs ->
  assertStrictlySorted vs (compare_by field) = Ok tt -> Forall (accepted (struct fs chk)) vs ->
  StronglySorted Z.lt (map (fun p => num p.[field]) vs).
Proof.
  intros Hin Hs Hv. eapply (sorted_keys Z.lt); [apply Hs|apply Hv|]. intros a b c Ha Hb [= <-] Hc.
  apply (accepted_field _ _ _ _ _ Ha) in Hin as Hfa. apply accepted_ranged in Hfa as [Hfa _].
  apply (accepted_field _ _ _ _ _ Hb) in Hin as Hfb. apply accepted_ranged in Hfb as [Hfb _].
  rewrite Hfa, Hfb in Hc. by apply compareScalar_lt.
Qed.

(** An accepted transition takes one step between two keys. *)
Lemma transition_ok v : has_type relayIdentityTransitionV1_type v = true -> accepted relayIdentityTransitionV1 v ->
  exists n, v.["oldIdentitySequence"] = VBig n /\ v.["newIdentitySequence"] = VBig (n + 1) /\
    raw v.["newRelayKey"] <> raw v.["oldRelayKey"].
Proof.
  intros Ht Ha. apply accepted_validate in Ha. unfold validate_relayIdentityTransitionV1 in Ha. oks. b2p. subst.
  match goal with H1 : bigint v.["oldIdentitySequence"] = Ok ?n |- _ => exists n; apply big_zero in H1 end;
    [|by eapply has_field].
  split; [done|]. split; [|intros Heq; rewrite Heq, bytes_eqb_refl in *; done].
  apply big_zero; [by eapply has_field|done].
Qed.

(** The part of the descriptor's validator that concerns the identity. *)
Lemma identity_ok v : has_type (TOpt relayIdentityTransitionV1_type) v.["identityTransition"] = true ->
  has_type (TOpt TBytes) v.["previousRelayKey"] = true -> has_type TBytes v.["relayPublicKey"] = true ->
  has_type TBig v.["identitySequence"] = true ->
  accepted (optional relayIdentityTransitionV1) v.["identityTransition"] ->
  xorb (negb (nullish v.["identityTransition"])) (negb (nullish v.["previousRelayKey"])) = false ->
  (if negb (nullish v.["identityTransition"]) then
    let! identitySequence := bigint v.["identitySequence"] in
    let! newIdentitySequence := bigint v.["identityTransition"].["newIdentitySequence"] in
    fail_if (negb (bytes_eqb (raw v.["previousRelayKey"]) (raw v.["identityTransition"].["oldRelayKey"]))
             || negb (bytes_eqb (raw v.["relayPublicKey"]) (raw v.["identityTransition"].["newRelayKey"]))
             || negb (identitySequence =? newIdentitySequence))
  else Ok tt) = Ok tt ->
  (v.["identityTransition"] = VNull /\ v.["previousRelayKey"] = VNull) \/ identity_moved v.
Proof.
  intros Htt Hpk Hrk Hsq Ha Hx Hq. destruct (nullish v.["identityTransition"]) eqn:En; simpl in Hx, Hq.
  - left. destruct v.["identityTransition"], v.["previousRelayKey"]; done.
  - right. oks. b2p. apply accepted_optional in Ha; [|done].
    assert (Ht : has_type relayIdentityTransitionV1_type v.["identityTransition"] = true)
      by (destruct v.["identityTransition"]; done).
    destruct (transition_ok _ Ht Ha) as (n & Ho & Hn & Hd). exists v.["identityTransition"], n.
    repeat match goal with Hb : bytes_eqb _ _ = true |- _ => apply bytes_eqb_eq in Hb end.
    rewrite Hn in *. match goal with Hb : bigint (VBig _) = Ok _ |- _ => apply asU64_ok in Hb as [_ [[= <-]|[=]]] end.
    split; [done|]. split; [destruct v.["previousRelayKey"]; simpl in *; congruence || done|].
    split; [rewrite (has_bytes _ Hrk); congruence|]. split; [done|]. split; [done|]. split; [done|].
    subst. by apply big_zero.
Qed.

(** The part that concerns the life cycle: [s] is the state, [d] the drain epoch. *)
Lemma lifecycle_ok s d issued (v : val) : has_type (TOpt TNum) d = true ->
  xorb (is_num (VNum s) STORE_LIFECYCLE_STATE_ACTIVE) (nullish d) = false ->
  negb (nullish d) && js_lt (VNum issued) d = false ->
  (VNum s = VNum 1 <-> d = VNull) /\ (forall epoch, d = VNum epoch -> epoch <= issued).
Proof.
  intros Hd Hx Hl. split.
  - unfold is_num in Hx. simpl in Hx. unfold STORE_LIFECYCLE_STATE_ACTIVE in Hx.
    destruct (s =? 1) eqn:E; b2p; destruct d; try done; [subst; done | split; [intros [= ->]; done|done]].
  - intros epoch ->. simpl in Hl. b2p. done.
Qed.

(** A descriptor keeps its promises through the life of a store: protocols,
    endpoints and admission profiles are listed in strictly increasing order of
    their ids, so none is listed twice; a store is active exactly while no drain
    has started, a draining store enables exactly the advertised operations that
    need no admission, a retired one none; a new relay key comes with a
    transition one step ahead of the old identity and names both keys; only the
    first descriptor has no predecessor, and none is valid for more than four
    epochs. *)
Theorem descriptor_lifecycle bs v : decodeCanonical blindServiceDescriptorV1 (VBytes bs) = Ok v -> descriptor_contract v.
Proof.
  intros Hq. apply (decoded _ blindServiceDescriptorBaseV1_type) in Hq as (Ht & Ha & _). apply accepted_capped in Ha.
  pose proof (fun n t => has_field n t _ v Ht) as Hf. clear Ht.
  field Ha "protocols" as Hp. apply accepted_array in Hp as (_ & _ & Hp).
  field Ha "endpoints" as He. apply accepted_array in He as (_ & _ & He).
  field Ha "admissionProfiles" as Hm. apply accepted_array in Hm as (_ & _ & Hm).
  field Ha "issuedEpoch" as Hi. field Ha "expiresEpoch" as Hx. field Ha "identityTransition" as Htr.
  field Ha "storeLifecycleState" as Hs. apply accepted_ranged in Hs as [Hs Hsr].
  pose proof (accepted_u32 _ Hi) as [Hi' _].
  apply accepted_validate in Ha. unfold validate_blindServiceDescriptorBaseV1 in Ha. cbv zeta in Ha.
  apply bindR_ok in Ha as (? & _ & Ha). apply bindR_ok in Ha as (seq & Hseq & Ha).
  apply bindR_ok in Ha as (? & Hch & Ha). apply bindR_ok in Ha as (? & Hrot & Ha).
  apply bindR_ok in Ha as ([] & Hid & Ha). apply bindR_ok in Ha as ([] & Hps & Ha).
  apply bindR_ok in Ha as ([] & Hes & Ha). apply bindR_ok in Ha as ([] & Has & Ha).
  do 3 (apply bindR_ok in Ha as (? & _ & Ha)). apply bindR_ok in Ha as (? & Hact & Ha).
  apply bindR_ok in Ha as (? & Hpast & Ha). apply bindR_ok in Ha as (? & Hdr & Ha). apply bindR_ok in Ha as (? & Hre & Hw).
  apply fail_if_ok in Hch, Hrot, Hact, Hpast, Hdr, Hre. rewrite Hs in Hact, Hdr, Hre. rewrite Hi' in Hpast.
  destruct (lifecycle_ok _ _ _ v (Hf "drainStartedEpoch" _ eq_refl) Hact Hpast) as [Hlc Hle].
  split.
  - eapply sorted_by; [|exact Hps|exact Hp]; in_fields.
  - eapply sorted_by; [|exact Hes|exact He]; in_fields.
  - eapply sorted_by; [|exact Has|exact Hm]; in_fields.
  - rewrite Hs. unfold STORE_LIFECYCLE_STATE_ACTIVE, STORE_LIFECYCLE_STATE_RETIRED in Hsr. simpl.
    assert (num v.["storeLifecycleState"] = 1 \/ num v.["storeLifecycleState"] = 2 \/ num v.["storeLifecycleState"] = 3)
      as [-> | [-> | ->]] by lia; tauto.
  - by rewrite Hs.
  - done.
  - rewrite Hs. intros [= Hst] i p Hp'. rewrite Hst in Hdr. simpl in Hdr. apply negb_false_iff, is_num_iff in Hdr.
    by apply draining_enables.
  - rewrite Hs. intros [= Hst] i. rewrite Hst in Hre. simpl in Hre. apply negb_false_iff, is_num_iff in Hre.
    unfold enables. rewrite Hre. apply Z.testbit_0_l.
  - eapply identity_ok; [by apply Hf..|done|done|done].
  - eapply chained; [by apply Hf|by apply Hf|exact Hseq|exact Hch].
  - by apply epoch_window_ok.
Qed.
End Descriptor.

(** ** A draining relay *)

Definition url (s : string) : val := VBytes (ascii_bytes s).

Definition demo_build : val := VObj [
  ("specHash", key Byte.x31); ("abiHash", key Byte.x32); ("vectorSetHash", key Byte.x33);
  ("evidenceFormatHash", key Byte.x34); ("evidenceVectorSetHash", key Byte.x35);
  ("storeFormatHash", key Byte.x36); ("storeVectorSetHash", key Byte.x37);
  ("privateIpcFormatHash", key Byte.x38); ("privateIpcVectorSetHash", key Byte.x39);
  ("buildArtifactHash", key Byte.x3a); ("buildArtifactUrl", url "https://r.example:8443/a");
  ("buildManifestUrl", url "https://r.example:8443/m"); ("buildManifestHash", key Byte.x3b);
  ("releaseEvidenceBundleUrl", url "https://r.example:8443/e"); ("releaseEvidenceBundleHash", key Byte.x3c);
  ("releaseSupportHorizonHash", key Byte.x3d); ("runtimeBoundaryEvidenceUrl", url "https://r.example:8443/b");
  ("runtimeBoundaryEvidenceHash", key Byte.x3e)].

Definition demo_durability : val := VObj [
  ("profileId", VNum 1); ("storeFormatMajor", VNum 1); ("storeFormatMinor", VNum 0);
  ("storeFormatHash", key Byte.x41); ("externalJournalId", key Byte.x00);
  ("externalWitnessPublicKey", key Byte.x00); ("externalJournalReplicationClass", VNum 0);
  ("externalJournalFailureGroupId", key Byte.x00); ("externalCheckpointAgeBand", VNum 0);
  ("externalJournalTopologyUrl", VNull); ("externalJournalTopologyHash", key Byte.x00);
  ("restoreEvidenceFeedUrl", VNull); ("restoreEvidenceFeedId", key Byte.x00);
  ("restoreEvidenceCheckpointSequence", VBig 0); ("restoreEvidenceCheckpointHash", key Byte.x00);
  ("acknowledgedRpoBand", VNum 0); ("targetRtoBand", VNum 0); ("redundancyClass", VNum 0);
  ("restoreDrillAgeBand", VNum 0)].

Definition demo_descriptor : val := VObj [
  ("version", VNum 1); ("relayPublicKey", key Byte.x01); ("storeId", key Byte.x02);
  ("descriptorSequence", VBig 3); ("previousDescriptorHash", key Byte.x03); ("identitySequence", VBig 0);
  ("previousRelayKey", VNull); ("identityTransition", VNull); ("build", demo_build);
  ("protocols", VList [VObj [("protocolId", VNum 1); ("major", VNum 1); ("minor", VNum 0);
    ("featureBits", VBig 0); ("profileHash", key Byte.x05)]]);
  ("endpoints", VList [VObj [("endpointId", VNum 1); ("transportId", VNum 1);
    ("transportProfileHash", key Byte.x06); ("roleBits", VNum 1); ("privacyProfileBits", VNum 0);
    ("canonicalUrl", url "https://r.example:8443/api/blind/v1/describe"); ("endpointKey", VNull);
    ("envelopeClassBits", VNum 0); ("wireClassBits", VNum 0); ("maxStreams", VNum 0);
    ("auxiliaryUrl", VNull); ("auxiliaryHash", VNull)]]);
  ("cellSizeClassBits", VNum 2); ("leaseClassBits", VNum 2); ("maxBatchCount", VNum 64);
  ("maxResponseBytes", VNum 4194304); ("maxSponsoredCoreLength", VBig 1000);
  ("enabledOperationBits", VNum 0x000129d7);
  ("admissionProfiles", VList [VObj [("profileId", VNum 1); ("schemeId", VNum 1);
    ("conformanceClass", VNum 1); ("roleBits", VNum 1); ("parameterUrl", VNull);
    ("parameterHash", key Byte.x07)]]);
  ("durability", demo_durability); ("durabilityContinuityHash", key Byte.x08);
  ("durabilityProfileHash", key Byte.x09); ("storeLifecycleState", VNum 2); ("drainStartedEpoch", VNum 99);
  ("capacityBand", VNum 3); ("issuedEpoch", VNum 100); ("expiresEpoch", VNum 103);
  ("descriptorNonce", key Byte.x0a); ("signature", VBytes (replicate 64 Byte.x0b))].

Definition demo_descriptor_bytes : bytes := Eval vm_compute in
  match @encodeCanonical (@blindServiceDescriptorV1 demo_platform) demo_descriptor with Ok bs => bs | Err _ => [] end.

Lemma descriptor_lifecycle_witness : @descriptor_contract demo_descriptor.
Proof. apply (@descriptor_lifecycle demo_platform demo_descriptor_bytes). vm_compute. reflexivity. Defined.
