(* ===== verification/RouteScope.v ===== *)
(** * Forward route scopes (packages/blind-protocol/forward-route-scope.js,
    packages/blind-daemon/forward-route-scope.js)

    A forwarded circuit carries the list of relays it has crossed. Each relay
    appends a hop: the hash of the hop chains to the hash of the previous one,
    and the first to the hash of the root request; the relay signs its hash. The
    hooks for descriptors and signatures are parameters. *)

From Stdlib Require Import ZArith Lia Bool List String Ascii.
From Stdlib Require Import Strings.Byte.
From stdpp Require Import base tactics list strings.
From S2P Require Import Prelude Codec CodecLaws Authority Hashes SchemaKit SchemasForward.

Module RouteScope.

Definition FORWARD_ROUTE_SCOPE_MAX_RELAY_COUNT : Z := 4.
Definition FORWARD_ROUTE_SCOPE_GENESIS_DOMAIN : string := "hiverelay.blind.forward-scope-genesis.v1".
Definition FORWARD_ROUTE_SCOPE_HOP_DOMAIN : string := "hiverelay.blind.forward-scope-hop.v1".

(** [bytes(value, length, field)] *)
Definition bytes_of (value : val) (length : Z) : result bytes :=
  let! output := asBuffer value in
  fail_if (negb (blen output =? length)) ;;!
  Ok output.

(** The loop of [unsigned] writes the last byte first. *)
Definition unsigned (value : val) (length maximum : Z) : result bytes :=
  match value with
  | VNum n =>
      fail_if (negb (isSafeInteger n) || (n <? 0) || (maximum <? n)) ;;!
      Ok (write_be_loop (Z.to_nat length) (replicate (Z.to_nat length) Byte.x00) 0 n)
  | _ => Err BAD_ENCODING
  end.

Definition u64 (value : val) : result bytes :=
  let! value := asU64 value in
  Ok (writeU64_loop (replicate 8 Byte.x00) value 0 [7; 6; 5; 4; 3; 2; 1; 0]).

Section WithPlatform.
Context `{Platform}.

Definition genesisPreimage (value : val) : result bytes :=
  fail_if (negb (is_object value)) ;;!
  Hash.concat [
    Ok (ascii_bytes FORWARD_ROUTE_SCOPE_GENESIS_DOMAIN);
    bytes_of value.["rootRouteId"] 16;
    bytes_of value.["rootCircuitNonce"] 32;
    bytes_of value.["rootRequestCommitment"] 32;
    unsigned value.["maxRelayCount"] 1 FORWARD_ROUTE_SCOPE_MAX_RELAY_COUNT;
    unsigned value.["expiresEpoch"] 4 0xffffffff].

Definition forwardRouteScopeGenesisHash (value : val) : result bytes :=
  let! preimage := genesisPreimage value in Ok (Hash.blake2b256 preimage).

Definition hopPreimage (value : val) : result bytes :=
  fail_if (negb (is_object value)) ;;!
  Hash.concat [
    Ok (ascii_bytes FORWARD_ROUTE_SCOPE_HOP_DOMAIN);
    bytes_of value.["previousScopeHash"] 32;
    unsigned value.["hopIndex"] 1 (FORWARD_ROUTE_SCOPE_MAX_RELAY_COUNT - 1);
    bytes_of value.["relayPublicKey"] 32;
    u64 value.["descriptorSequence"];
    bytes_of value.["descriptorHash"] 32].

Definition forwardRouteScopeHopHash (value : val) : result bytes :=
  let! preimage := hopPreimage value in Ok (Hash.blake2b256 preimage).

Definition forwardRouteScopeSignaturePayload (scopeHash : val) : result bytes :=
  let! scopeHash := bytes_of scopeHash 32 in
  match domainRegistryEntry (VNum AUXILIARY_SIGNATURE_DOMAIN_ID_FORWARD_ROUTE_SCOPE) with
  | Some domain =>
      fail_if (negb (de_purpose domain =? DOMAIN_PURPOSE_AUXILIARY_SIGNATURE)
               || negb (de_recipeId domain =? DOMAIN_RECIPE_ED25519_DOMAIN_LEN64_PAYLOAD)) ;;!
      Hash.concat [Ok (ascii_bytes (de_exactAsciiBytes domain)); u64 (VNum (blen scopeHash)); Ok scopeHash]
  | None => Err BAD_ENCODING
  end.

(** ** The daemon's checks *)

Definition ZERO_SCOPE_HASH : val := VBytes (replicate 32 Byte.x00).
Definition FORWARD_PARENT_ORIGIN_DIRECT : val := VStr "direct".
Definition FORWARD_PARENT_ORIGIN_FORWARDED : val := VStr "forwarded".

Definition fixed (value : val) (length : Z) : result bytes := bytes_of value length.

Definition sameBytes (left right : bytes) : bool := (blen left =? blen right) && bytes_eqb left right.

Definition isZero (value : bytes) : bool := forallb (fun b => b2z b =? 0) value.

Definition epoch (value : val) : result Z :=
  match value with
  | VNum n => if negb (isSafeInteger n) || (n <? 0) || (0xffffffff <? n) then Err BAD_ENCODING else Ok n
  | _ => Err BAD_ENCODING
  end.

(** [decodeCanonical(schema, encodeCanonical(schema, value))] *)
Definition canonicalScope (value : val) : result val :=
  let! bs := encodeCanonical blindForwardRouteScopeV1 value in
  decodeCanonical blindForwardRouteScopeV1 (VBytes bs).

Definition canonicalHopOpen (value : val) : result val :=
  let! bs := encodeCanonical blindForwardHopOpenV1 value in
  decodeCanonical blindForwardHopOpenV1 (VBytes bs).

Definition hops (scope : val) : list val := elems scope.["hops"].

Definition lastScopeHash (scope : val) : val := (List.last (hops scope) VUndef).["scopeHash"].

Record descriptor_tuple := DescriptorTuple { dt_sequence : Z; dt_hash : bytes }.

Definition descriptorTuple (value : val) : result descriptor_tuple :=
  throw_if (negb (is_object value)) TRANSPORT_UNSUPPORTED ;;!
  let! sequence := asU64 value.["descriptorSequence"] in
  let! hash := fixed value.["descriptorHash"] 32 in
  Ok (DescriptorTuple sequence hash).

Definition createDirectForwardParentContext : val := VObj [
  ("origin", FORWARD_PARENT_ORIGIN_DIRECT); ("inheritedScopeHash", VNull);
  ("inheritedRelayCount", VNum 0); ("routeScope", VNull)].

Definition createForwardedForwardParentContext (routeScope : val) : result val :=
  let! scope := canonicalScope routeScope in
  Ok (VObj [
    ("origin", FORWARD_PARENT_ORIGIN_FORWARDED);
    ("inheritedScopeHash", lastScopeHash scope);
    ("inheritedRelayCount", VNum (Z.of_nat (List.length (hops scope))));
    ("routeScope", scope)]).

Definition normalizeForwardParentContext (value : val) : result val :=
  throw_if (negb (is_object value)) TRANSPORT_UNSUPPORTED ;;!
  if strict_eqb value.["origin"] FORWARD_PARENT_ORIGIN_DIRECT then
    throw_if (negb (is_num value.["inheritedRelayCount"] 0)) CONFLICT ;;!
    (if nullish value.["inheritedScopeHash"] then Ok tt
     else let! hash := fixed value.["inheritedScopeHash"] 32 in throw_if (negb (isZero hash)) CONFLICT) ;;!
    throw_if (negb (nullish value.["routeScope"])) CONFLICT ;;!
    Ok createDirectForwardParentContext
  else
    throw_if (negb (strict_eqb value.["origin"] FORWARD_PARENT_ORIGIN_FORWARDED)) TRANSPORT_UNSUPPORTED ;;!
    let! inheritedScopeHash := fixed value.["inheritedScopeHash"] 32 in
    throw_if (isZero inheritedScopeHash) CONFLICT ;;!
    let! scope := canonicalScope value.["routeScope"] in
    throw_if (negb (is_num value.["inheritedRelayCount"] (Z.of_nat (List.length (hops scope))))
              || negb (sameBytes inheritedScopeHash (raw (lastScopeHash scope)))) CONFLICT ;;!
    Ok (VObj [
      ("origin", FORWARD_PARENT_ORIGIN_FORWARDED);
      ("inheritedScopeHash", VBytes inheritedScopeHash);
      ("inheritedRelayCount", value.["inheritedRelayCount"]);
      ("routeScope", scope)]).

(** The hooks a relay verifies and signs with. The code awaits them; whether
    they answer [true] is all it looks at. *)
Record hooks := Hooks {
  (** public key, signature, payload, scope hash, hop index, route scope *)
  verifySignature : bytes -> bytes -> bytes -> bytes -> Z -> val -> result bool;
  (** relay public key, descriptor sequence, descriptor hash, hop index, route scope *)
  verifyDescriptorBinding : bytes -> val -> bytes -> Z -> val -> result bool
}.

(** The object [forwardRouteScopeHopHash] is called with. *)
Definition hop_hash_input (previousScopeHash hopIndex relayPublicKey descriptorSequence descriptorHash : val) : val :=
  VObj [("previousScopeHash", previousScopeHash); ("hopIndex", hopIndex); ("relayPublicKey", relayPublicKey);
        ("descriptorSequence", descriptorSequence); ("descriptorHash", descriptorHash)].

(** The loop over [scope.hops] from [index]: [hashParent] is the hash of the
    previous hop (the genesis hash at first), [relayKeys] the keys seen. *)
Fixpoint verify_hops (h : hooks) (scope : val) (index : Z) (hashParent : val) (relayKeys : list bytes)
    (rest : list val) : result unit :=
  match rest with
  | [] => Ok tt
  | hop :: rest =>
      let relayKey := raw hop.["relayPublicKey"] in
      throw_if (existsb (bytes_eqb relayKey) relayKeys) CONFLICT ;;!
      let! expectedHash := forwardRouteScopeHopHash (hop_hash_input hashParent hop.["hopIndex"]
        hop.["relayPublicKey"] hop.["descriptorSequence"] hop.["descriptorHash"]) in
      throw_if (negb (sameBytes expectedHash (raw hop.["scopeHash"]))) CONFLICT ;;!
      let! copied := canonicalScope scope in
      let! descriptorVerified := verifyDescriptorBinding h relayKey hop.["descriptorSequence"]
        (raw hop.["descriptorHash"]) index copied in
      throw_if (negb descriptorVerified) CONFLICT ;;!
      let! payload := forwardRouteScopeSignaturePayload hop.["scopeHash"] in
      let! copied := canonicalScope scope in
      let! signatureVerified := verifySignature h relayKey (raw hop.["relaySignature"]) payload
        (raw hop.["scopeHash"]) index copied in
      throw_if (negb signatureVerified) CONFLICT ;;!
      verify_hops h scope (index + 1) hop.["scopeHash"] (relayKey :: relayKeys) rest
  end.

Definition verifyForwardRouteScope (h : option hooks) (nowEpoch : val) (routeScope : val) : result val :=
  match h with
  | None => Err TypeError
  | Some h =>
      let! nowEpoch := epoch nowEpoch in
      let! scope := canonicalScope routeScope in
      throw_if (num scope.["expiresEpoch"] <=? nowEpoch) EXPIRED ;;!
      let! genesis := forwardRouteScopeGenesisHash scope in
      verify_hops h scope 0 (VBytes genesis) [] (hops scope) ;;!
      Ok scope
  end.

Record extend_options := ExtendOptions {
  (** public key, payload, scope hash, hop index *)
  sign : option (bytes -> bytes -> bytes -> Z -> result val);
  eo_relayPublicKey : val;
  eo_descriptor : val;
  eo_routeScope : val;
  eo_rootRouteId : val;
  eo_rootCircuitNonce : val;
  eo_rootRequestCommitment : val;
  eo_maxRelayCount : val;
  eo_expiresEpoch : val
}.

(** The scope to extend, the hash its next hop chains to and the previous hash
    the hop records: zero for the first hop of a new scope. *)
Definition scope_to_extend (options : extend_options) : result (val * val * val) :=
  if nullish (eo_routeScope options) then
    let! rootRouteId := fixed (eo_rootRouteId options) 16 in
    let! rootCircuitNonce := fixed (eo_rootCircuitNonce options) 32 in
    let! rootRequestCommitment := fixed (eo_rootRequestCommitment options) 32 in
    let! expiresEpoch := epoch (eo_expiresEpoch options) in
    let scope := VObj [
      ("version", VNum 1);
      ("rootRouteId", VBytes rootRouteId);
      ("rootCircuitNonce", VBytes rootCircuitNonce);
      ("rootRequestCommitment", VBytes rootRequestCommitment);
      ("maxRelayCount", eo_maxRelayCount options);
      ("expiresEpoch", VNum expiresEpoch);
      ("hops", VList [])] in
    fail_if (Hash.not_in_range scope.["maxRelayCount"] 2 4) ;;!
    let! hashParent := forwardRouteScopeGenesisHash scope in
    Ok (scope, VBytes hashParent, ZERO_SCOPE_HASH)
  else
    let! scope := canonicalScope (eo_routeScope options) in
    Ok (scope, lastScopeHash scope, lastScopeHash scope).

(** [scope.hops.push(hop)] *)
Definition push_hop (scope hop : val) : val :=
  match scope with
  | VObj fs => VObj (obj_set fs "hops" (VList (hops scope ++ [hop])))
  | _ => scope
  end.

Definition extendForwardRouteScope (options : extend_options) : result val :=
  match sign options with
  | None => Err TypeError
  | Some sign =>
      let! relayPublicKey := fixed (eo_relayPublicKey options) 32 in
      let! descriptor := descriptorTuple (eo_descriptor options) in
      let! (scope, hashParent, previousScopeHash) := scope_to_extend options in
      let hopIndex := Z.of_nat (List.length (hops scope)) in
      throw_if (js_le scope.["maxRelayCount"] (VNum hopIndex) || (4 <=? hopIndex)) TOO_LARGE ;;!
      throw_if (existsb (fun hop => sameBytes (raw hop.["relayPublicKey"]) relayPublicKey) (hops scope)) CONFLICT ;;!
      let! scopeHash := forwardRouteScopeHopHash (hop_hash_input hashParent (VNum hopIndex) (VBytes relayPublicKey)
        (VBig (dt_sequence descriptor)) (VBytes (dt_hash descriptor))) in
      let! payload := forwardRouteScopeSignaturePayload (VBytes scopeHash) in
      let! signature := sign relayPublicKey payload scopeHash hopIndex in
      let! relaySignature := fixed signature 64 in
      canonicalScope (push_hop scope (VObj [
        ("hopIndex", VNum hopIndex);
        ("relayPublicKey", VBytes relayPublicKey);
        ("descriptorSequence", VBig (dt_sequence descriptor));
        ("descriptorHash", VBytes (dt_hash descriptor));
        ("previousScopeHash", previousScopeHash);
        ("scopeHash", VBytes scopeHash);
        ("relaySignature", VBytes relaySignature)]))
  end.

Definition verifyForwardHopOpenRouteScope (h : option hooks) (nowEpoch receiverRelayPublicKey receiverDescriptor : val)
    (rawHopOpen : val) : result val :=
  let! hopOpen := canonicalHopOpen rawHopOpen in
  let! receiver := fixed receiverRelayPublicKey 32 in
  let! descriptor := descriptorTuple receiverDescriptor in
  let route := hopOpen.["route"] in
  throw_if (negb (sameBytes (raw route.["nextRelayKey"]) receiver)) CONFLICT ;;!
  throw_if (negb (strict_eqb route.["nextDescriptorSequence"] (VBig (dt_sequence descriptor)))
            || negb (sameBytes (raw route.["nextDescriptorHash"]) (dt_hash descriptor))) CONFLICT ;;!
  let! routeScope := verifyForwardRouteScope h nowEpoch hopOpen.["routeScope"] in
  throw_if (negb (strict_eqb routeScope.["maxRelayCount"] route.["maxRelayCount"])) CONFLICT ;;!
  throw_if (negb (strict_eqb route.["expiresEpoch"] routeScope.["expiresEpoch"])) CONFLICT ;;!
  let last := List.last (hops routeScope) VUndef in
  throw_if (negb (sameBytes (raw last.["relayPublicKey"]) (raw route.["previousRelayKey"]))
            || negb (strict_eqb last.["descriptorSequence"] hopOpen.["previousDescriptorSequence"])
            || negb (sameBytes (raw last.["descriptorHash"]) (raw hopOpen.["previousDescriptorHash"]))) CONFLICT ;;!
  throw_if (existsb (fun hop => sameBytes (raw hop.["relayPublicKey"]) receiver) (hops routeScope)) CONFLICT ;;!
  createForwardedForwardParentContext routeScope.

End WithPlatform.
End RouteScope.
