(* ===== verification/RouteScopeLaws.v ===== *)
(** * A route scope authenticates its path

    A scope a relay has verified is a chain of hashes from the root request to
    the last hop. Verification is characterised exactly, extension is shown to
    produce what verification accepts, and two scopes that end in the same hash
    are shown to be the same path, up to an explicit collision of the hash. *)

From Stdlib Require Import ZArith Lia Bool List String Ascii.
From Stdlib Require Import Strings.Byte.
From stdpp Require Import base tactics list strings.
From S2P Require Import Prelude Codec CodecLaws DemoPlatform Authority Hashes HashLaws SchemaKit SchemasDescribe.
From S2P Require Import SchemasForward Orders Accepted RouteScope.
Import RouteScope.

Lemma sameBytes_iff a b : sameBytes a b = true <-> a = b.
Proof.
  unfold sameBytes. rewrite andb_true_iff, Z.eqb_eq, bytes_eqb_eq. naive_solver.
Qed.

Lemma bytes_of_ok v n bs : bytes_of v n = Ok bs <-> v = VBytes bs /\ blen bs = n.
Proof.
  unfold bytes_of. split.
  - intros Hq. apply bindR_ok in Hq as (b & Hb & Hq). apply asBuffer_ok in Hb as ->. oks. b2p. done.
  - intros [-> Hn]. simpl. by rewrite Hn, Z.eqb_refl.
Qed.

Lemma epoch_ok v n : epoch v = Ok n <-> v = VNum n /\ 0 <= n <= 0xffffffff.
Proof.
  unfold epoch. destruct v; try (split; [done|by intros [[=] _]]). split.
  - destruct (_ || _) eqn:E; [done|]. intros [= ->]. b2p. split; [done|lia].
  - intros [[= ->] Hn]. unfold isSafeInteger, MAX_SAFE_INTEGER.
    rewrite (proj2 (Z.leb_le _ _)), (proj2 (Z.leb_le n _)), (proj2 (Z.ltb_ge _ _)), (proj2 (Z.ltb_ge _ n)) by lia. done.
Qed.

Section WithPlatform.
Context `{Platform}.

(** ** Canonical scopes *)

Lemma canonicalScope_ok v s : canonicalScope v = Ok s ->
  has_type blindForwardRouteScopeV1_type s = true /\ accepted blindForwardRouteScopeV1 s /\ canonicalScope s = Ok s.
Proof.
  unfold canonicalScope. intros Hq. apply bindR_ok in Hq as (bs & _ & Hd). pose proof Hd as Hd'.
  apply (decoded _ blindForwardRouteScopeV1_type) in Hd as (Ht & Ha & He). split; [done|]. split; [done|]. by rewrite He.
Qed.

(** A typed value is its own canonical form. *)
Lemma canonicalScope_typed v s : has_type blindForwardRouteScopeV1_type v = true -> canonicalScope v = Ok s -> s = v.
Proof.
  unfold canonicalScope. intros Ht Hq. apply bindR_ok in Hq as (bs & He & Hd).
  rewrite (codec_roundtrip _ blindForwardRouteScopeV1_type v bs Ht He) in Hd. by injection Hd.
Qed.

(** What [check_hops] has checked: consecutive indices from [index], each hop
    linked to the one before, and keys that are new. *)
Lemma check_hops_ok index previous keys hops : 0 <= index -> check_hops index previous keys hops = Ok tt ->
  (forall i hop, hops !! i = Some hop -> hop.["hopIndex"] = VNum (index + Z.of_nat i)) /\
  (forall i hop next, (previous :: hops) !! i = Some hop -> hops !! i = Some next -> 0 < index + Z.of_nat i ->
     raw next.["previousScopeHash"] = raw hop.["scopeHash"]) /\
  NoDup (map (fun hop => raw hop.["relayPublicKey"]) hops) /\
  (forall hop, In hop hops -> ~ In (raw hop.["relayPublicKey"]) keys).
Proof.
  intros H0. revert index previous keys H0; induction hops as [|hop hops IH]; intros index previous keys H0 Hq.
  - split_and!; try done. constructor.
  - cbn [check_hops] in Hq. apply bindR_ok in Hq as (? & Hi & Hq). apply bindR_ok in Hq as (? & Hl & Hq).
    apply bindR_ok in Hq as (? & Hk & Hq). apply fail_if_ok in Hi, Hl, Hk. apply negb_false_iff, is_num_iff in Hi.
    apply IH in Hq as (IHi & IHl & IHn & IHk); [|lia]. split_and!.
    + intros [|i] x' Hx; simpl in Hx; [injection Hx as <-; by rewrite Z.add_0_r|]. rewrite (IHi _ _ Hx). f_equal. lia.
    + intros [|i] x' next Hx Hnext Hp; simpl in Hx, Hnext.
      * injection Hx as <-. injection Hnext as <-. rewrite (proj2 (Z.ltb_lt _ _)) in Hl by lia.
        by apply negb_false_iff, bytes_eqb_eq in Hl.
      * apply (IHl i); [done..|lia].
    + constructor; [|done]. intros (hop' & Heq & Hin)%list_elem_of_In%in_map_iff. apply (IHk _ Hin). left. by rewrite Heq.
    + intros hop' [<-|Hin] Hin'; [|apply (IHk _ Hin); by right].
      apply (proj2 (existsb_bytes_eqb _ _)) in Hin'. congruence.
Qed.

(** What the schema alone says of a scope. *)
Record well_formed (s : val) : Prop := {
  scope_type : has_type blindForwardRouteScopeV1_type s = true;
  hop_types : Forall (fun hop => has_type blindForwardRouteHopV1_type hop = true) (hops s);
  hop_indices : forall i hop, hops s !! i = Some hop -> hop.["hopIndex"] = VNum (Z.of_nat i);
  hop_links : forall i hop next, hops s !! i = Some hop -> hops s !! S i = Some next ->
    next.["previousScopeHash"] = hop.["scopeHash"];
  relays_differ : NoDup (map (fun hop => raw hop.["relayPublicKey"]) (hops s));
  hop_count : 1 <= Z.of_nat (List.length (hops s)) <= num s.["maxRelayCount"];
  relay_limit : s.["maxRelayCount"] = VNum (num s.["maxRelayCount"]) /\ 2 <= num s.["maxRelayCount"] <= 4;
  scope_hashes : Forall (fun hop => isZero (raw hop.["scopeHash"]) = false) (hops s)
}.

Lemma accepted_scope s : has_type blindForwardRouteScopeV1_type s = true -> accepted blindForwardRouteScopeV1 s ->
  well_formed s.
Proof.
  intros Ht Ha. field Ha "hops" as Hh. apply accepted_array in Hh as (_ & Hlen & Hh).
  field Ha "maxRelayCount" as Hm. apply accepted_ranged in Hm as [Hm Hmr].
  pose proof (has_field "hops" _ _ _ Ht eq_refl) as Hth. apply has_array in Hth as [_ Hth].
  apply accepted_validate in Ha. unfold validate_blindForwardRouteScopeV1 in Ha.
  do 4 (apply bindR_ok in Ha as (? & _ & Ha)). apply bindR_ok in Ha as (? & Hc & Ha).
  apply fail_if_ok in Hc. rewrite Hm in Hc. simpl in Hc. b2p.
  apply check_hops_ok in Ha as (Hi & Hl & Hn & _); [|lia]. unfold hops in *. split; try done; try (unfold hops; lia).
  - intros i hop next Hhop Hnext. pose proof (Forall_lookup_1 _ _ _ _ Hth Hhop) as T1.
    pose proof (Forall_lookup_1 _ _ _ _ Hth Hnext) as T2. cbv beta in T1, T2.
    rewrite (has_bytes _ (has_field "previousScopeHash" _ _ _ T2 eq_refl)), (has_bytes _ (has_field "scopeHash" _ _ _ T1 eq_refl)).
    f_equal. apply (Hl (S i)); [done..|lia].
  - eapply Forall_impl; [exact Hh|]. intros hop Hhop. apply accepted_validate in Hhop.
    unfold validate_blindForwardRouteHopV1 in Hhop. do 2 (apply bindR_ok in Hhop as (? & _ & Hhop)).
    apply bindR_ok in Hhop as (? & Hz & _). by apply fail_if_ok in Hz.
Qed.

Lemma canonical_well_formed v s : canonicalScope v = Ok s -> well_formed s /\ canonicalScope s = Ok s.
Proof. intros (Ht & Ha & Hc)%canonicalScope_ok. split; [by apply accepted_scope|done]. Qed.

(** ** Chains *)

(** The hash of [hop] computed under [parent]. *)
Definition computed_hash (parent hop : val) : result bytes :=
  forwardRouteScopeHopHash (hop_hash_input parent hop.["hopIndex"] hop.["relayPublicKey"]
    hop.["descriptorSequence"] hop.["descriptorHash"]).

(** Every hop records the hash computed under the one before it. *)
Inductive chained_from : val -> list val -> Prop :=
| chained_nil parent : chained_from parent []
| chained_cons parent hop rest : computed_hash parent hop = Ok (raw hop.["scopeHash"]) ->
    chained_from hop.["scopeHash"] rest -> chained_from parent (hop :: rest).

(** The hash a chain ends in. *)
Definition end_hash (parent : val) (l : list val) : val :=
  fold_left (fun _ hop => hop.["scopeHash"]) l parent.

Lemma end_hash_snoc parent l x : end_hash parent (l ++ [x]) = x.["scopeHash"].
Proof. unfold end_hash. by rewrite fold_left_app. Qed.

Lemma chained_snoc parent l x : chained_from parent (l ++ [x]) <->
  chained_from parent l /\ computed_hash (end_hash parent l) x = Ok (raw x.["scopeHash"]).
Proof.
  revert parent; induction l as [|y l IH]; intros parent; simpl; split.
  - inversion 1; subst. split; [constructor|done].
  - intros [_ Hx]. by repeat constructor.
  - inversion 1 as [|? ? ? Hy Hl]; subst. apply IH in Hl as [Hl Hx]. split; [by constructor|done].
  - intros [Hl Hx]. inversion Hl; subst. constructor; [done|]. by apply IH.
Qed.

(** The hooks accept the hop at index [i]. *)
Definition vouched (h : hooks) (scope : val) (i : Z) (hop : val) : Prop :=
  verifyDescriptorBinding h (raw hop.["relayPublicKey"]) hop.["descriptorSequence"]
    (raw hop.["descriptorHash"]) i scope = Ok true /\
  exists payload, forwardRouteScopeSignaturePayload hop.["scopeHash"] = Ok payload /\
    verifySignature h (raw hop.["relayPublicKey"]) (raw hop.["relaySignature"]) payload
      (raw hop.["scopeHash"]) i scope = Ok true.

Fixpoint all_vouched (h : hooks) (scope : val) (i : Z) (l : list val) : Prop :=
  match l with
  | [] => True
  | hop :: rest => vouched h scope i hop /\ all_vouched h scope (i + 1) rest
  end.

(** A scope whose hashes chain from its root and whose hops the hooks accept. *)
Definition authentic (h : hooks) (s : val) : Prop := exists genesis,
  forwardRouteScopeGenesisHash s = Ok genesis /\ chained_from (VBytes genesis) (hops s) /\
  all_vouched h s 0 (hops s).

Lemma verify_hops_iff h scope index parent keys rest : canonicalScope scope = Ok scope ->
  verify_hops h scope index parent keys rest = Ok tt <->
  chained_from parent rest /\ all_vouched h scope index rest /\
  NoDup (map (fun hop => raw hop.["relayPublicKey"]) rest) /\
  (forall hop, In hop rest -> ~ In (raw hop.["relayPublicKey"]) keys).
Proof.
  intros Hcan. revert index parent keys; induction rest as [|hop rest IH]; intros index parent keys.
  - simpl. split; [|done]. intros _. split_and!; [constructor|done|constructor|done].
  - cbn [verify_hops]. rewrite Hcan. cbn [bindR]. split.
    + intros Hq. apply bindR_ok in Hq as (? & Hk & Hq). apply bindR_ok in Hq as (e & He & Hq).
      apply bindR_ok in Hq as (? & Hs & Hq). apply bindR_ok in Hq as (d & Hd & Hq).
      apply bindR_ok in Hq as (? & Hd' & Hq). apply bindR_ok in Hq as (pl & Hp & Hq).
      apply bindR_ok in Hq as (sv & Hv & Hq). apply bindR_ok in Hq as (? & Hv' & Hq).
      apply throw_if_ok in Hk, Hs, Hd', Hv'. apply negb_false_iff in Hs, Hd', Hv'. subst d sv.
      apply sameBytes_iff in Hs as ->. apply IH in Hq as (Hc & Ha & Hn & Hnew). split_and!.
      * by constructor.
      * split; [|done]. split; [done|]. eauto.
      * simpl. constructor; [|done]. intros (hop' & Heq & Hin)%list_elem_of_In%in_map_iff.
        apply (Hnew _ Hin). left. by rewrite Heq.
      * intros hop' [<-|Hin] Hin'; [|apply (Hnew _ Hin); by right].
        apply (proj2 (existsb_bytes_eqb _ _)) in Hin'. congruence.
    + intros (Hc & [[Hd (pl & Hp & Hv)] Ha] & Hn & Hnew). inversion Hc as [|? ? ? Hh Hc']; subst.
      simpl in Hn. apply NoDup_cons in Hn as [Hhd Hn]. unfold computed_hash in Hh.
      assert (existsb (bytes_eqb (raw hop.["relayPublicKey"])) keys = false) as ->.
      { destruct (existsb _ _) eqn:E; [|done]. apply existsb_bytes_eqb in E. by destruct (Hnew hop (or_introl eq_refl)). }
      rewrite Hh, Hd, Hp. cbn [bindR throw_if]. rewrite (proj2 (sameBytes_iff _ _) eq_refl), Hv.
      cbn [bindR throw_if negb]. apply IH. split_and!; try done.
      intros hop' Hin [Heq|Hin']; [|apply (Hnew hop'); [by right|done]].
      apply Hhd. rewrite Heq. apply list_elem_of_In. by apply (in_map (fun hop => raw hop.["relayPublicKey"])).
Qed.

(** C12: Verification is exactly authenticity: a relay accepts a route scope when
    and only when it is a canonical scope, it has not expired, the hash of every
    hop is the one computed from the root request and the hops before it, and
    the hooks accept the descriptor and the signature of every hop. (The schema
    has already excluded relay cycles, so the cycle check cannot fire.) *)
Theorem verify_exact h now v s : verifyForwardRouteScope (Some h) now v = Ok s <->
  canonicalScope v = Ok s /\ authentic h s /\
  exists n, now = VNum n /\ 0 <= n <= 0xffffffff /\ n < num s.["expiresEpoch"].
Proof.
  unfold verifyForwardRouteScope. split.
  - intros Hq. apply bindR_ok in Hq as (n & Hn & Hq). apply epoch_ok in Hn as [-> Hn].
    apply bindR_ok in Hq as (s' & Hc & Hq). apply bindR_ok in Hq as (? & He & Hq). apply throw_if_ok, Z.leb_gt in He.
    apply bindR_ok in Hq as (g & Hg & Hq). apply bindR_ok in Hq as ([] & Hv & Hq). injection Hq as ->.
    apply canonical_well_formed in Hc as Hw. destruct Hw as [_ Hcan]. apply verify_hops_iff in Hv as (Hch & Ha & _); [|done].
    split; [done|]. split; [by exists g|]. eauto.
  - intros (Hc & (g & Hg & Hch & Ha) & n & -> & Hn & He). rewrite (proj2 (epoch_ok _ _) (conj eq_refl Hn)). cbn [bindR].
    rewrite Hc. cbn [bindR]. rewrite (proj2 (Z.leb_gt _ _) He), Hg. cbn [bindR throw_if].
    apply canonical_well_formed in Hc as [Hw Hcan].
    rewrite (proj2 (verify_hops_iff h s 0 (VBytes g) [] (hops s) Hcan)); [done|].
    split_and!; [done|done|apply Hw|by intros ? _ []].
Qed.

(** ** What a hash binds *)

(** The inputs verification hashes for the hops after [parent]. *)
Fixpoint chain_preimages (parent : val) (l : list val) : list (result bytes) :=
  match l with
  | [] => []
  | hop :: rest => hopPreimage (hop_hash_input parent hop.["hopIndex"] hop.["relayPublicKey"]
      hop.["descriptorSequence"] hop.["descriptorHash"]) :: chain_preimages hop.["scopeHash"] rest
  end.

(** Every input verification hashes for a scope. *)
Definition preimages (s : val) : list (result bytes) :=
  genesisPreimage s :: match forwardRouteScopeGenesisHash s with
                       | Ok genesis => chain_preimages (VBytes genesis) (hops s)
                       | Err _ => []
                       end.

Lemma chain_preimages_snoc parent l x : chain_preimages parent (l ++ [x]) =
  chain_preimages parent l ++ chain_preimages (end_hash parent l) [x].
Proof. revert parent; induction l as [|y l IH]; intros parent; [done|]. simpl. f_equal. apply IH. Qed.

(** An input of [P] and a different input of [Q] with the same hash. *)
Definition collision (P Q : list (result bytes)) : Prop := exists a b,
  In (Ok a) P /\ In (Ok b) Q /\ a <> b /\ generichash a = generichash b.

Lemma collision_mono P Q P' Q' : incl P P' -> incl Q Q' -> collision P Q -> collision P' Q'.
Proof. intros HP HQ (a & b & Ha & Hb & Hc). exists a, b. auto. Qed.

Lemma hash_binds P Q a b : In (Ok a) P -> In (Ok b) Q -> Hash.blake2b256 a = Hash.blake2b256 b ->
  collision P Q \/ a = b.
Proof.
  intros Ha Hb Hq. destruct (bytes_eqb a b) eqn:E; [right; by apply bytes_eqb_eq|]. left. exists a, b.
  split; [done|]. split; [done|]. split; [|exact Hq]. intros ->. rewrite bytes_eqb_refl in E. done.
Qed.

Definition genesis_fields : list (string * kind) := [
  ("rootRouteId", KBytes 16); ("rootCircuitNonce", KBytes 32); ("rootRequestCommitment", KBytes 32);
  ("maxRelayCount", KU8); ("expiresEpoch", KU32)].

Definition hop_fields : list (string * kind) := [
  ("previousScopeHash", KBytes 32); ("hopIndex", KU8); ("relayPublicKey", KBytes 32);
  ("descriptorSequence", KU64); ("descriptorHash", KBytes 32)].

Definition laid_out (fields : list (string * kind)) (v : val) (b : bytes) : Prop :=
  Hash.concat (map (fun f => enc_kind (snd f) (get v (fst f))) fields) = Ok b.

Lemma fixed_field v n a : bytes_of v n = Ok a -> enc_kind (KBytes n) v = Ok a.
Proof. intros [-> Hn]%bytes_of_ok. simpl. unfold Hash.fixedBytesInput. simpl. by rewrite Hn, Z.eqb_refl. Qed.

Lemma unsigned_field v k m lim a : unsigned v k m = Ok a -> m <= lim -> lim <= MAX_SAFE_INTEGER ->
  Hash.encodeUnsigned v k lim = Ok a.
Proof.
  unfold unsigned, Hash.encodeUnsigned. destruct v; try done. intros Hq Hm Hl. apply bindR_ok in Hq as (? & Hf & Hq).
  apply fail_if_ok in Hf. b2p. rewrite (proj2 (assertUnsigned_ok _ lim n Hl)); [done|]. split; [done|lia].
Qed.

Ltac lay_field := intros a Ha; simpl; first [by apply fixed_field | exact Ha | (eapply unsigned_field; [exact Ha|..]; done)].

Lemma genesis_layout v p : genesisPreimage v = Ok p ->
  exists b, p = ascii_bytes FORWARD_ROUTE_SCOPE_GENESIS_DOMAIN ++ b /\ laid_out genesis_fields v b.
Proof.
  unfold genesisPreimage. intros Hq. apply bindR_ok in Hq as (? & _ & Hq). apply tagged_inv in Hq as (b & Hb & ->).
  exists b. split; [done|]. refine (concat_mono _ _ _ _ Hb).
  repeat (apply List.Forall2_cons; [lay_field|]). apply List.Forall2_nil.
Qed.

Lemma hop_layout v p : hopPreimage v = Ok p ->
  exists b, p = ascii_bytes FORWARD_ROUTE_SCOPE_HOP_DOMAIN ++ b /\ laid_out hop_fields v b.
Proof.
  unfold hopPreimage. intros Hq. apply bindR_ok in Hq as (? & _ & Hq). apply tagged_inv in Hq as (b & Hb & ->).
  exists b. split; [done|]. refine (concat_mono _ _ _ _ Hb).
  repeat (apply List.Forall2_cons; [lay_field|]). apply List.Forall2_nil.
Qed.

Section Binding.
Hypothesis hash_length : forall bs, blen (generichash bs) = 32.

Lemma laid_out_binds fields v w b : laid_out fields v b -> laid_out fields w b ->
  Forall (fun f => same (snd f) (get v (fst f)) (get w (fst f))) fields.
Proof. intros Hv Hw. by destruct (kinds_delimit hash_length fields v w b b [] [] Hv Hw eq_refl). Qed.

(** Equal hop hashes: the same hop under the same parent. *)
Lemma hop_hash_binds v w e : forwardRouteScopeHopHash v = Ok e -> forwardRouteScopeHopHash w = Ok e ->
  collision [hopPreimage v] [hopPreimage w] \/
  Forall (fun f => same (snd f) (get v (fst f)) (get w (fst f))) hop_fields.
Proof.
  unfold forwardRouteScopeHopHash. intros Hv Hw. apply bindR_ok in Hv as (p & Hp & [= <-]).
  apply bindR_ok in Hw as (q & Hq & [= Hh]). symmetry in Hh. rewrite Hp, Hq.
  destruct (hash_binds [Ok p] [Ok q] p q (or_introl eq_refl) (or_introl eq_refl) Hh) as [|Heq]; [by left|right].
  apply hop_layout in Hp as (b & -> & Hb), Hq as (c & -> & Hc). apply app_inv_head in Heq as ->.
  by eapply laid_out_binds.
Qed.

Lemma genesis_hash_binds v w e : forwardRouteScopeGenesisHash v = Ok e -> forwardRouteScopeGenesisHash w = Ok e ->
  collision [genesisPreimage v] [genesisPreimage w] \/
  Forall (fun f => same (snd f) (get v (fst f)) (get w (fst f))) genesis_fields.
Proof.
  unfold forwardRouteScopeGenesisHash. intros Hv Hw. apply bindR_ok in Hv as (p & Hp & [= <-]).
  apply bindR_ok in Hw as (q & Hq & [= Hh]). symmetry in Hh. rewrite Hp, Hq.
  destruct (hash_binds [Ok p] [Ok q] p q (or_introl eq_refl) (or_introl eq_refl) Hh) as [|Heq]; [by left|right].
  apply genesis_layout in Hp as (b & -> & Hb), Hq as (c & -> & Hc). apply app_inv_head in Heq as ->.
  by eapply laid_out_binds.
Qed.

(** Values of one type that commit to the same thing are equal. *)
Lemma same_bytes n v w : has_type TBytes v = true -> has_type TBytes w = true -> same (KBytes n) v w -> v = w.
Proof. intros -> %has_bytes -> %has_bytes (bs & _ & [= <-] & [= <-]). done. Qed.

Lemma same_big v w : has_type TBig v = true -> has_type TBig w = true -> same KU64 v w -> v = w.
Proof.
  intros (m & ->)%has_big (n & ->)%has_big (k & Hm & Hn). apply asU64_ok in Hm as [_ [[= ->]|[=]]].
  by apply asU64_ok in Hn as [_ [[= ->]|[=]]].
Qed.

(** The same hop, up to the signature. *)
Definition same_hop (x y : val) : Prop :=
  x.["hopIndex"] = y.["hopIndex"] /\ x.["relayPublicKey"] = y.["relayPublicKey"] /\
  x.["descriptorSequence"] = y.["descriptorSequence"] /\ x.["descriptorHash"] = y.["descriptorHash"] /\
  x.["scopeHash"] = y.["scopeHash"].

(** The same root request. *)
Definition same_root (s t : val) : Prop := Forall (fun f => get s f = get t f)
  ["rootRouteId"; "rootCircuitNonce"; "rootRequestCommitment"; "maxRelayCount"; "expiresEpoch"].

Lemma computed_binds p q x y : has_type TBytes p = true -> has_type TBytes q = true ->
  has_type blindForwardRouteHopV1_type x = true -> has_type blindForwardRouteHopV1_type y = true ->
  computed_hash p x = Ok (raw x.["scopeHash"]) -> computed_hash q y = Ok (raw y.["scopeHash"]) ->
  x.["scopeHash"] = y.["scopeHash"] -> collision (chain_preimages p [x]) (chain_preimages q [y]) \/ p = q /\ same_hop x y.
Proof.
  intros Hp Hq Hx Hy Cx Cy He. rewrite <- He in Cy. destruct (hop_hash_binds _ _ _ Cx Cy) as [|Hs]; [by left|right].
  unfold hop_fields, genesis_fields in *.
  repeat match goal with Hf : Forall _ (_ :: _) |- _ => apply Forall_cons in Hf as [? Hf] end.
  cbn [fst snd get hop_hash_input assoc String.eqb Ascii.eqb Bool.eqb] in *.
  split; [by apply (same_bytes 32 _ _ Hp Hq)|]. split; [match goal with Hk : same KU8 _ _ |- _ => by destruct Hk as (n & -> & ->) end|].
  split; [eapply same_bytes; [| |done]; by eapply has_field|].
  split; [eapply same_big; [| |done]; by eapply has_field|].
  split; [eapply same_bytes; [| |done]; by eapply has_field|done].
Qed.

Lemma end_hash_type p l : has_type TBytes p = true -> Forall (fun hop => has_type blindForwardRouteHopV1_type hop = true) l ->
  has_type TBytes (end_hash p l) = true.
Proof.
  intros Hp Hl. destruct l as [|x l _] using rev_ind; [done|]. rewrite end_hash_snoc.
  apply Forall_app in Hl as [_ Hx]. apply Forall_cons in Hx as [Hx _]. by eapply has_field.
Qed.

Lemma chains_agree l1 : forall l2 p q, List.length l1 = List.length l2 -> has_type TBytes p = true -> has_type TBytes q = true ->
  Forall (fun hop => has_type blindForwardRouteHopV1_type hop = true) l1 ->
  Forall (fun hop => has_type blindForwardRouteHopV1_type hop = true) l2 ->
  chained_from p l1 -> chained_from q l2 -> end_hash p l1 = end_hash q l2 ->
  collision (chain_preimages p l1) (chain_preimages q l2) \/ p = q /\ Forall2 same_hop l1 l2.
Proof.
  induction l1 as [|x l1 IH] using rev_ind; intros l2 p q Hl Hp Hq T1 T2 C1 C2 He.
  - destruct l2; [|done]. right. by split; [|constructor].
  - destruct l2 as [|y l2 _] using rev_ind; [rewrite length_app in Hl; simpl in Hl; lia|].
    rewrite !length_app in Hl. simpl in Hl. apply chained_snoc in C1 as [C1 Cx], C2 as [C2 Cy].
    rewrite !end_hash_snoc in He. apply Forall_app in T1 as [T1 Tx], T2 as [T2 Ty].
    apply Forall_cons in Tx as [Tx _], Ty as [Ty _].
    destruct (computed_binds _ _ x y (end_hash_type p l1 Hp T1) (end_hash_type q l2 Hq T2) Tx Ty Cx Cy He)
      as [Hc|[Hpq Hxy]];
      rewrite !chain_preimages_snoc; [left; eapply collision_mono; [..|exact Hc]; apply incl_appr, incl_refl|].
    destruct (IH l2 p q ltac:(lia) Hp Hq T1 T2 C1 C2 Hpq) as [Hc|[-> Hall]];
      [left; eapply collision_mono; [..|exact Hc]; apply incl_appl, incl_refl|]. right. split; [done|].
    apply Forall2_app; [done|]. constructor; [done|constructor].
Qed.

Lemma last_is_end p s : hops s <> [] -> lastScopeHash s = end_hash p (hops s).
Proof.
  unfold lastScopeHash. intros Hne. destruct (hops s) as [|x l _] using rev_ind; [done|].
  by rewrite last_last, end_hash_snoc.
Qed.

Lemma roots_agree s t : well_formed s -> well_formed t ->
  Forall (fun f => same (snd f) (get s (fst f)) (get t (fst f))) genesis_fields -> same_root s t.
Proof.
  intros Ws Wt Hg. unfold genesis_fields in Hg.
  repeat match goal with Hf : Forall _ (_ :: _) |- _ => apply Forall_cons in Hf as [? Hf] end.
  pose proof (scope_type s Ws). pose proof (scope_type t Wt). cbn [fst snd] in *. unfold same_root.
  repeat constructor; first [eapply same_bytes; [| |done]; by eapply has_field |
    match goal with Hk : same _ (get s ?f) (get t ?f) |- get s ?f = get t ?f => by destruct Hk as (n & -> & ->) end].
Qed.

(** C14: The last scope hash authenticates the whole path: if two relays verify
    two route scopes that end in the same scope hash, then the scopes have the
    same root request, relay limit and expiry, and the same relays with the same
    descriptors in the same order; otherwise one of the inputs hashed for the
    first and one of those hashed for the second collide under BLAKE2b. *)
Theorem scope_hash_binds_path h1 h2 now1 now2 v w s t :
  verifyForwardRouteScope (Some h1) now1 v = Ok s -> verifyForwardRouteScope (Some h2) now2 w = Ok t ->
  lastScopeHash s = lastScopeHash t ->
  collision (preimages s) (preimages t) \/ same_root s t /\ Forall2 same_hop (hops s) (hops t).
Proof.
  intros (Hcs & (gs & Hgs & Cs & _) & _)%verify_exact (Hct & (gt & Hgt & Ct & _) & _)%verify_exact He.
  apply canonical_well_formed in Hcs as [Ws _], Hct as [Wt _].
  assert (Hne : forall u, well_formed u -> hops u <> []) by (intros u [] Hu; rewrite Hu in *; simpl in *; lia).
  rewrite (last_is_end (VBytes gs) s), (last_is_end (VBytes gt) t) in He by auto.
  destruct (Nat.eq_dec (List.length (hops s)) (List.length (hops t))) as [Hl|Hl].
  - destruct (chains_agree _ _ (VBytes gs) (VBytes gt) Hl eq_refl eq_refl (hop_types s Ws) (hop_types t Wt) Cs Ct He)
      as [Hc|[[= ->] Hall]];
      [left; eapply collision_mono; [..|exact Hc]; unfold preimages; rewrite ?Hgs, ?Hgt; apply incl_tl, incl_refl|].
    destruct (genesis_hash_binds _ _ _ Hgs Hgt) as [Hc|Hg];
      [left; eapply collision_mono; [..|exact Hc]; apply incl_cons; [by left|apply incl_nil_l|by left|apply incl_nil_l]|right]. split; [|done].
    by apply roots_agree.
  - left. destruct (hops s) as [|x l1 _] eqn:E1 using rev_ind; [by destruct (Hne s Ws)|].
    destruct (hops t) as [|y l2 _] eqn:E2 using rev_ind; [by destruct (Hne t Wt)|].
    apply chained_snoc in Cs as [_ Cx], Ct as [_ Cy]. rewrite !end_hash_snoc in He. rewrite <- He in Cy.
    destruct (hop_hash_binds _ _ _ Cx Cy) as [Hc|Hs].
    + eapply collision_mono; [..|exact Hc]; unfold preimages; rewrite ?Hgs, ?Hgt, ?E1, ?E2, chain_preimages_snoc;
        apply incl_tl, incl_appr, incl_refl.
    + exfalso. unfold hop_fields in Hs. apply Forall_cons in Hs as [_ Hs]. apply Forall_cons in Hs as [Hk _].
      cbn [fst snd get hop_hash_input assoc String.eqb Ascii.eqb Bool.eqb] in Hk. destruct Hk as (n & Hx & Hy).
      rewrite (hop_indices s Ws (List.length l1)) in Hx by (rewrite E1; by apply list_lookup_middle).
      rewrite (hop_indices t Wt (List.length l2)) in Hy by (rewrite E2; by apply list_lookup_middle).
      rewrite !length_app in Hl. simpl in Hl. injection Hx as <-. injection Hy as Hy. lia.
Qed.
End Binding.

(** ** Extending a scope *)

Lemma push_hop_spec s hop : has_type blindForwardRouteScopeV1_type s = true ->
  has_type blindForwardRouteHopV1_type hop = true ->
  has_type blindForwardRouteScopeV1_type (push_hop s hop) = true /\ hops (push_hop s hop) = hops s ++ [hop] /\
  genesisPreimage (push_hop s hop) = genesisPreimage s /\ (push_hop s hop).["maxRelayCount"] = s.["maxRelayCount"].
Proof.
  intros Ht Hh. unfold blindForwardRouteScopeV1_type in Ht. typed Ht.
  match goal with Ha : has_type (TArr _) _ = true |- _ => apply has_array in Ha as [-> Ha]; rename Ha into Hall end.
  split_and!; try reflexivity. unfold blindForwardRouteScopeV1_type.
  cbn [push_hop hops elems get assoc obj_set String.eqb Ascii.eqb Bool.eqb has_type has_fields].
  rewrite forallb_app.
  assert (forallb (has_type blindForwardRouteHopV1_type) (elems x5) = true) as ->
    by (apply forallb_forall; by apply List.Forall_forall).
  cbn [forallb]. rewrite Hh. repeat match goal with Hx : has_type _ _ = true |- _ => cbn [has_type] in Hx; rewrite Hx; clear Hx end. done.
Qed.

(** The scope an extension starts from: a new one whose first hop chains to the
    genesis hash, or a verified one. *)
Definition starts_from (options : extend_options) (s : val) (parent previous : val) (genesis : bytes) : Prop :=
  has_type blindForwardRouteScopeV1_type s = true /\ forwardRouteScopeGenesisHash s = Ok genesis /\
  chained_from (VBytes genesis) (hops s) /\ parent = end_hash (VBytes genesis) (hops s) /\
  has_type TBytes previous = true.

Lemma scope_to_extend_ok options s parent previous :
  scope_to_extend options = Ok (s, parent, previous) ->
  (nullish (eo_routeScope options) = false -> exists h now t, verifyForwardRouteScope (Some h) now (eo_routeScope options) = Ok t) ->
  exists genesis, starts_from options s parent previous genesis.
Proof.
  unfold scope_to_extend. destruct (nullish (eo_routeScope options)); intros Hq Hv.
  - apply bindR_ok in Hq as (r & Hr & Hq). apply bindR_ok in Hq as (c & Hc & Hq). apply bindR_ok in Hq as (q & Hq' & Hq).
    apply bindR_ok in Hq as (e & He & Hq). apply bindR_ok in Hq as (? & Hm & Hq). apply bindR_ok in Hq as (g & Hg & [= <- <- <-]).
    exists g. split_and!; [|exact Hg|constructor|done|done].
    apply fail_if_ok in Hm. cbn [get assoc String.eqb Ascii.eqb Bool.eqb] in Hm.
    destruct (eo_maxRelayCount options); try discriminate Hm. done.
  - destruct (Hv eq_refl) as (h & now & t & (Hc & (g & Hg & Hch & _) & _)%verify_exact).
    rewrite Hc in Hq. injection Hq as <- <- <-. apply canonical_well_formed in Hc as [W _].
    assert (Hne : hops t <> []) by (intros Hu; destruct W; rewrite Hu in *; simpl in *; lia).
    exists g. split_and!; [apply W|done|done|by apply last_is_end|].
    rewrite (last_is_end (VBytes g)) by done. apply end_hash_type; [done|apply W].
Qed.

(** The hops the new hop is appended to. *)
Definition extended_hops (options : extend_options) (old : list val) : Prop :=
  if nullish (eo_routeScope options) then old = []
  else exists t, canonicalScope (eo_routeScope options) = Ok t /\ old = hops t.

Lemma scope_to_extend_hops options s parent previous :
  scope_to_extend options = Ok (s, parent, previous) -> extended_hops options (hops s).
Proof.
  unfold scope_to_extend, extended_hops. destruct (nullish _); intros Hq.
  - repeat (let Hx := fresh in apply bindR_ok in Hq as (? & Hx & Hq)). injection Hq as <- <- <-. done.
  - apply bindR_ok in Hq as (t & Ht & [= <- <- <-]). eauto.
Qed.

(** Extending and verifying fit together: when a relay extends a new scope,
    or one that was verified before, the result is the old path with one more
    hop, within the relay limit and without repeating a relay, and every
    verifier accepts it before it expires as soon as its hooks accept the
    descriptor and the signature of each hop. *)
Theorem extend_then_verify options s h now : extendForwardRouteScope options = Ok s ->
  (nullish (eo_routeScope options) = false ->
     exists h' now' t, verifyForwardRouteScope (Some h') now' (eo_routeScope options) = Ok t) ->
  0 <= now < num s.["expiresEpoch"] -> now <= 0xffffffff -> all_vouched h s 0 (hops s) ->
  verifyForwardRouteScope (Some h) (VNum now) s = Ok s /\
  (exists old hop, extended_hops options old /\ hops s = old ++ [hop] /\
     hop.["relayPublicKey"] = eo_relayPublicKey options) /\
  Z.of_nat (List.length (hops s)) <= num s.["maxRelayCount"] /\
  NoDup (map (fun hop => raw hop.["relayPublicKey"]) (hops s)).
Proof.
  unfold extendForwardRouteScope. destruct (sign options) as [sg|]; [|done]. intros Hq Hv Hnow Hmax Hall.
  apply bindR_ok in Hq as (key & Hk & Hq). apply bindR_ok in Hq as (d & Hd & Hq).
  apply bindR_ok in Hq as ([[s0 parent] previous] & Hs & Hq).
  apply bindR_ok in Hq as (? & _ & Hq). apply bindR_ok in Hq as (? & _ & Hq). apply bindR_ok in Hq as (e & He & Hq).
  apply bindR_ok in Hq as (pl & _ & Hq). apply bindR_ok in Hq as (sv & _ & Hq). apply bindR_ok in Hq as (sig & Hsig & Hq).
  destruct (scope_to_extend_ok _ _ _ _ Hs Hv) as (g & Ht & Hg & Hch & -> & Hp).
  match type of Hq with canonicalScope (push_hop _ ?x) = _ => set (hop := x) in * end.
  assert (Hh : has_type blindForwardRouteHopV1_type hop = true).
  { destruct (has_bytes _ Hp). unfold hop, blindForwardRouteHopV1_type. cbn -[has_type]. cbn [has_type has_fields].
    rewrite !String.eqb_refl. destruct previous; done. }
  destruct (push_hop_spec _ _ Ht Hh) as (Ht' & Hhops & Hgen & _).
  pose proof (canonicalScope_typed _ _ Ht' Hq) as ->. apply canonical_well_formed in Hq as [W Hcan].
  split; [|split; [|split; [apply W|apply W]]].
  2:{ exists (hops s0), hop. split; [by eapply scope_to_extend_hops|]. split; [done|].
      apply bytes_of_ok in Hk as [-> _]. reflexivity. }
  apply verify_exact. split; [done|]. split; [|exists now; split; [done|]; lia].
  exists g. split; [unfold forwardRouteScopeGenesisHash in *; by rewrite Hgen|]. split; [|done].
  rewrite Hhops. apply chained_snoc. split; [done|]. exact He.
Qed.

(** ** Parent contexts *)

Lemma forwarded_context_normal s ctx : createForwardedForwardParentContext s = Ok ctx ->
  normalizeForwardParentContext ctx = Ok ctx.
Proof.
  unfold createForwardedForwardParentContext. intros Hq. apply bindR_ok in Hq as (t & Ht & [= <-]).
  apply canonical_well_formed in Ht as [W Hcan].
  assert (Hne : hops t <> []) by (intros Hu; destruct W; rewrite Hu in *; simpl in *; lia).
  assert (Hl : exists hash, lastScopeHash t = VBytes hash /\ blen hash = 32 /\ isZero hash = false).
  { unfold lastScopeHash. pose proof (scope_hashes t W) as Hz. pose proof (hop_types t W) as Htp.
    apply canonicalScope_ok in Hcan as (_ & Ha & _). field Ha "hops" as Hh. apply accepted_array in Hh as (_ & _ & Hh).
    fold (hops t) in Hh. destruct (hops t) as [|x l _] using rev_ind; [done|]. rewrite last_last.
    apply Forall_app in Hz as [_ Hz], Hh as [_ Hh]. apply Forall_cons in Hz as [Hz _], Hh as [Hh _].
    field Hh "scopeHash" as Hs. apply accepted_fixedBytes in Hs as [Hs Hlen]. exists (raw x.["scopeHash"]). done. }
  destruct Hl as (hash & Hl & Hlen & Hz). rewrite Hl.
  unfold normalizeForwardParentContext, fixed. cbn [is_object negb throw_if bindR get assoc String.eqb Ascii.eqb Bool.eqb].
  cbn [strict_eqb FORWARD_PARENT_ORIGIN_FORWARDED FORWARD_PARENT_ORIGIN_DIRECT String.eqb Ascii.eqb Bool.eqb negb throw_if bindR].
  rewrite (proj2 (bytes_of_ok (VBytes hash) 32 hash) (conj eq_refl Hlen)). cbn [bindR]. rewrite Hz, Hcan. cbn [bindR throw_if].
  unfold is_num. cbn [strict_eqb]. rewrite Z.eqb_refl, Hl. cbn [raw negb orb].
  rewrite (proj2 (sameBytes_iff _ _) eq_refl). done.
Qed.

Lemma direct_context_normal : normalizeForwardParentContext createDirectForwardParentContext = Ok createDirectForwardParentContext.
Proof. reflexivity. Qed.

(** What a relay knows of a hop it has let in. *)
Record admitted (receiver hopOpen s : val) : Prop := {
  addressed : raw hopOpen.["route"].["nextRelayKey"] = raw receiver;
  adjacent : exists path hop, hops s = path ++ [hop] /\
    raw hop.["relayPublicKey"] = raw hopOpen.["route"].["previousRelayKey"] /\
    raw hop.["descriptorHash"] = raw hopOpen.["previousDescriptorHash"];
  same_limit : s.["maxRelayCount"] = hopOpen.["route"].["maxRelayCount"];
  same_expiry : s.["expiresEpoch"] = hopOpen.["route"].["expiresEpoch"];
  acyclic : NoDup (raw receiver :: map (fun hop => raw hop.["relayPublicKey"]) (hops s))
}.

Lemma strict_eqb_num v w : v = VNum (num v) -> strict_eqb v w = true -> v = w.
Proof. intros ->. destruct w; try done. intros Hq. simpl in Hq. by apply Z.eqb_eq in Hq as ->. Qed.

(** A forwarded circuit never loops and keeps its root bounds: when a relay
    accepts a hop, the route is addressed to it, the route scope is authentic
    and unexpired, its last hop is the forwarding relay with the descriptor the
    hop names, the relay limit and the expiry are the ones of the root, and the
    receiving relay is not on the path; the parent context it returns is already
    in normal form, so opening the next hop from it starts at this scope. *)
Theorem hop_open_admits h now receiver descriptor rawHopOpen ctx :
  verifyForwardHopOpenRouteScope h now receiver descriptor rawHopOpen = Ok ctx ->
  exists hooks hopOpen s, h = Some hooks /\ canonicalHopOpen rawHopOpen = Ok hopOpen /\ authentic hooks s /\
    (exists n, now = VNum n /\ n < num s.["expiresEpoch"]) /\ admitted receiver hopOpen s /\
    ctx.["inheritedScopeHash"] = lastScopeHash s /\ ctx.["routeScope"] = s /\
    normalizeForwardParentContext ctx = Ok ctx.
Proof.
  unfold verifyForwardHopOpenRouteScope. intros Hq. apply bindR_ok in Hq as (ho & Hho & Hq).
  apply bindR_ok in Hq as (rk & Hrk & Hq). apply bytes_of_ok in Hrk as [-> Hrk].
  apply bindR_ok in Hq as (d & Hd & Hq). apply bindR_ok in Hq as (? & Hnext & Hq). apply bindR_ok in Hq as (? & _ & Hq).
  apply bindR_ok in Hq as (s & Hs & Hq). apply bindR_ok in Hq as (? & Hlim & Hq). apply bindR_ok in Hq as (? & Hexp & Hq).
  apply bindR_ok in Hq as (? & Hadj & Hq). apply bindR_ok in Hq as (? & Hcyc & Hq).
  apply throw_if_ok in Hnext, Hlim, Hexp, Hadj, Hcyc. apply negb_false_iff in Hnext, Hlim, Hexp. b2p.
  destruct h as [hk|]; [|done]. apply verify_exact in Hs as (Hc & Hauth & n & -> & _ & Hn).
  pose proof (forwarded_context_normal _ _ Hq) as Hnorm. apply canonical_well_formed in Hc as [W Hcan].
  unfold createForwardedForwardParentContext in Hq. rewrite Hcan in Hq. injection Hq as <-.
  assert (He : s.["expiresEpoch"] = VNum (num s.["expiresEpoch"])) by (eapply has_num, has_field; [apply W|done]).
  exists hk, ho, s. do 3 (split; [done|]). split; [by exists n|]. split; [|done].
  split.
  - by apply sameBytes_iff.
  - destruct (hops s) as [|x' l _] eqn:E using rev_ind; [destruct W; rewrite E in *; simpl in *; lia|].
    rewrite last_last in *. exists l, x'. split; [done|]. split; by apply sameBytes_iff.
  - destruct (relay_limit s W) as [Hm _]. by apply strict_eqb_num.
  - rewrite He in Hexp |- *. destruct (ho.["route"].["expiresEpoch"]); try discriminate Hexp.
    cbn [strict_eqb] in Hexp. by apply Z.eqb_eq in Hexp as ->.
  - constructor; [|apply W]. intros (hop & Hk & Hin)%list_elem_of_In%in_map_iff.
    assert (existsb (fun hop => sameBytes (raw hop.["relayPublicKey"]) rk) (hops s) = true); [|congruence].
    apply existsb_exists. exists hop. split; [done|]. by apply sameBytes_iff.
Qed.
End WithPlatform.

(** ** A two-hop path *)

Section Demo.
#[local] Existing Instance demo_platform.

(** A signature is the digest of the key and the payload, twice. *)
Definition demo_sign (publicKey payload : bytes) : bytes :=
  demo_digest (publicKey ++ payload) ++ demo_digest (payload ++ publicKey).

Definition demo_hooks : hooks := {|
  verifySignature publicKey signature payload _ _ _ := Ok (bytes_eqb signature (demo_sign publicKey payload));
  verifyDescriptorBinding _ _ descriptorHash _ _ := Ok (negb (isZero descriptorHash))
|}.

(** Hooks that accept everything. *)
Definition lax_hooks : hooks := {|
  verifySignature _ _ _ _ _ _ := Ok true; verifyDescriptorBinding _ _ _ _ _ := Ok true
|}.

Definition demo_extend (relay : byte) (routeScope : val) : extend_options := {|
  sign := Some (fun publicKey payload _ _ => Ok (VBytes (demo_sign publicKey payload)));
  eo_relayPublicKey := key relay;
  eo_descriptor := VObj [("descriptorSequence", VNum 7); ("descriptorHash", key Byte.x44)];
  eo_routeScope := routeScope;
  eo_rootRouteId := VBytes (replicate 16 Byte.x01);
  eo_rootCircuitNonce := key Byte.x02;
  eo_rootRequestCommitment := key Byte.x03;
  eo_maxRelayCount := VNum 3;
  eo_expiresEpoch := VNum 200
|}.

Definition value_of (m : result val) : val := match m with Ok v => v | Err _ => VUndef end.

Definition demo_scope1 : val := Eval vm_compute in value_of (extendForwardRouteScope (demo_extend Byte.x11 VNull)).
Definition demo_scope2 : val := Eval vm_compute in value_of (extendForwardRouteScope (demo_extend Byte.x12 demo_scope1)).

Lemma demo_scope1_verified : verifyForwardRouteScope (Some demo_hooks) (VNum 100) demo_scope1 = Ok demo_scope1.
Proof. vm_compute. reflexivity. Qed.

Lemma demo_scope2_verified : verifyForwardRouteScope (Some lax_hooks) (VNum 150) demo_scope2 = Ok demo_scope2.
Proof. vm_compute. reflexivity. Qed.

Lemma extend_then_verify_witness :
  verifyForwardRouteScope (Some demo_hooks) (VNum 100) demo_scope2 = Ok demo_scope2 /\
  (exists old hop, extended_hops (demo_extend Byte.x12 demo_scope1) old /\ hops demo_scope2 = old ++ [hop] /\
     hop.["relayPublicKey"] = key Byte.x12) /\
  Z.of_nat (List.length (hops demo_scope2)) <= num demo_scope2.["maxRelayCount"] /\
  NoDup (map (fun hop => raw hop.["relayPublicKey"]) (hops demo_scope2)).
Proof.
  apply (extend_then_verify (demo_extend Byte.x12 demo_scope1)).
  - vm_compute. reflexivity.
  - intros _. exists demo_hooks, (VNum 100), demo_scope1. apply demo_scope1_verified.
  - vm_compute. by split.
  - by vm_compute.
  - apply (verify_hops_iff demo_hooks demo_scope2 0
      (VBytes (match forwardRouteScopeGenesisHash demo_scope2 with Ok g => g | Err _ => [] end)) []);
      vm_compute; reflexivity.
Defined.

(** The same path with another signature on its first hop. *)
Definition resigned (scope : val) : val :=
  match scope with
  | VObj fs => VObj (obj_set fs "hops" (VList (map (fun hop => match hop with
      | VObj hs => VObj (obj_set hs "relaySignature" (VBytes (replicate 64 Byte.x55)))
      | _ => hop end) (hops scope))))
  | _ => scope
  end.

Lemma scope_hash_binds_path_witness :
  collision (preimages demo_scope2) (preimages (resigned demo_scope2)) \/
  same_root demo_scope2 (resigned demo_scope2) /\ Forall2 same_hop (hops demo_scope2) (hops (resigned demo_scope2)).
Proof.
  apply (@scope_hash_binds_path demo_platform demo_digest_length lax_hooks lax_hooks (VNum 150) (VNum 150) demo_scope2 (resigned demo_scope2)).
  - apply demo_scope2_verified.
  - vm_compute. reflexivity.
  - reflexivity.
Defined.

(** The hop from the second relay to a third one. *)
Definition demo_route : val := VObj [
  ("version", VNum 1); ("routeKind", VNum 2); ("routeId", VBytes (replicate 16 Byte.x01));
  ("previousRelayKey", key Byte.x12); ("previousEndpointId", VNum 1); ("nextRelayKey", key Byte.x13);
  ("nextDescriptorSequence", VBig 9); ("nextDescriptorHash", key Byte.x49); ("nextEndpointId", VNum 1);
  ("envelopeClassBits", VNum 0); ("wireClassBits", VNum 2); ("maxCanonicalDispatchBytes", VNum 0);
  ("maxEncapsulatedRequestBytes", VNum 0); ("maxOpenBytes", VNum 4096); ("maxCircuitBytes", VBig 16777216);
  ("maxConcurrentStreams", VNum 4); ("maxRelayCount", VNum 3); ("hopAdmissionProfileId", VNum 1);
  ("issuedEpoch", VNum 197); ("expiresEpoch", VNum 200); ("routeNonce", key Byte.x0c);
  ("previousSignature", VBytes (replicate 64 Byte.x0d))].

Definition demo_hop_open : val := VObj [
  ("version", VNum 1); ("route", demo_route); ("routeScope", demo_scope2);
  ("previousDescriptorSequence", VBig 7); ("previousDescriptorHash", key Byte.x44);
  ("circuitNonce", key Byte.x0e); ("requestedWireClass", VNum 1); ("circuitClass", VNum 1);
  ("grantedInitialWindow", VNum 65536); ("maxDataBytes", VNum 4096); ("maxCircuitBytes", VBig 16777216);
  ("idleMillis", VNum 30000); ("lifetimeMillis", VNum 600000); ("clientRequestCommitment", key Byte.x0f);
  ("handshakeFlight1", key Byte.x10); ("forwarderSignature", VBytes (replicate 64 Byte.x21))].

Definition demo_receiver_descriptor : val :=
  VObj [("descriptorSequence", VNum 9); ("descriptorHash", key Byte.x49)].

Definition demo_context : val := Eval vm_compute in
  value_of (verifyForwardHopOpenRouteScope (Some demo_hooks) (VNum 198) (key Byte.x13) demo_receiver_descriptor demo_hop_open).

Lemma hop_open_admits_witness : exists hooks hopOpen s,
  Some demo_hooks = Some hooks /\ canonicalHopOpen demo_hop_open = Ok hopOpen /\ authentic hooks s /\
  (exists n, VNum 198 = VNum n /\ n < num s.["expiresEpoch"]) /\ admitted (key Byte.x13) hopOpen s /\
  demo_context.["inheritedScopeHash"] = lastScopeHash s /\ demo_context.["routeScope"] = s /\
  normalizeForwardParentContext demo_context = Ok demo_context.
Proof.
  apply (hop_open_admits (Some demo_hooks) (VNum 198) (key Byte.x13) demo_receiver_descriptor demo_hop_open).
  vm_compute. reflexivity.
Defined.
End Demo.
