(* ===== verification/StorageLaws.v ===== *)
(** * What the storage families promise

    Cells, inboxes and backups are addressed, sealed or ordered by what they
    contain. The theorems here say what a decoded message guarantees to a client
    that knows nothing of the relay but its signature. *)

From Stdlib Require Import ZArith Lia Bool List String Ascii Sorted.
From Stdlib Require Import Strings.Byte.
From stdpp Require Import base tactics list strings.
From S2P Require Import Prelude Codec CodecLaws DemoPlatform Authority Hashes HashLaws SchemaKit ResultBinding.
From S2P Require Import SchemasDescribe SchemasCell SchemasInbox SchemasDurability Orders Accepted.
Import Binding.

Section WithPlatform.
Context `{Platform}.

(** The hash of two byte strings tells them apart, or they are a collision. *)
Definition collide (a b : bytes) : Prop := a <> b /\ generichash a = generichash b.

Lemma hash_tells a b : Hash.blake2b256 a = Hash.blake2b256 b -> collide a b \/ a = b.
Proof.
  intros Hq. destruct (bytes_eqb a b) eqn:E; [right; by apply bytes_eqb_eq|]. left.
  split; [|exact Hq]. intros ->. rewrite bytes_eqb_refl in E. done.
Qed.

(** A payload field has the length its class selects. *)
Lemma payload_class f tbl fs chk n v : accepted (struct fs chk) v -> In (n, exactBytesByClass f tbl) fs ->
  exists size, table_get tbl v.[f] = Some size /\ v.[n] = VBytes (raw v.[n]) /\ blen (raw v.[n]) = size.
Proof.
  intros (s & p & s' & Hq) Hin. cbn [preencode struct] in Hq. apply bindR_ok in Hq as (? & _ & Hq).
  apply bindR_ok in Hq as (s1 & H1 & _). revert s H1; induction fs as [|[m e] fs IH]; intros s Hq; [done|].
  simpl in Hq. apply bindR_ok in Hq as (s2 & H2 & Hq). destruct Hin as [[= -> ->]|Hin]; [|by eapply IH].
  cbn [preencode exactBytesByClass] in H2. apply bindR_ok in H2 as (bs & Hb & H2). apply bindR_ok in H2 as (size & Hs & H2).
  apply bindR_ok in H2 as (? & Hl & _). apply fail_if_ok, negb_false_iff in Hl. b2p. apply asBuffer_ok in Hb.
  unfold selectedLength in Hs. destruct (table_get _ _) as [k|] eqn:E; [|done]. destruct (_ || _); [done|].
  injection Hs as ->. exists size. rewrite Hb. done.
Qed.

(** ** Cells *)

Record certified_put (v : val) : Prop := {
  slot_of_key : Hash.cellStorageSlot v = Ok (raw v.["storageSlot"]);
  declared_blob : Hash.blake2b256 (raw v.["cellBlob"]) = raw v.["declaredBlobHash"];
  blob_of_class : table_get CELL_SIZE_CLASS v.["sizeClass"] = Some (blen (raw v.["cellBlob"]))
}.

Lemma equals_result_ok m f : equals_result m f = Ok true -> m = Ok (raw f).
Proof. unfold equals_result. intros Hq. apply bindR_ok in Hq as (b & -> & [= Hq]). by apply bytes_eqb_eq in Hq as ->. Qed.

Lemma put_certified v : accepted putCellV1 v -> certified_put v.
Proof.
  intros Ha. destruct (payload_class "sizeClass" CELL_SIZE_CLASS _ _ "cellBlob" v Ha) as (size & Hs & _ & Hl); [in_fields|].
  apply accepted_validate in Ha. unfold validate_putCellV1 in Ha. apply bindR_ok in Ha as (b & Hb & Ha).
  apply bindR_ok in Ha as (? & Hc & Ha). apply fail_if_ok in Hc, Ha. apply negb_false_iff in Hc, Ha. subst b.
  split; [by apply equals_result_ok|by apply bytes_eqb_eq|by rewrite Hs, Hl].
Qed.

(** The inputs the slots of two puts are the hashes of collide. *)
Definition slots_collide (v w : val) : Prop := exists a b,
  Hash.cellStorageSlotPreimage v = Ok a /\ Hash.cellStorageSlotPreimage w = Ok b /\ collide a b.

Section Slots.
Hypothesis hash_length : forall bs, blen (generichash bs) = 32.

(** A cell slot has one owner: every put a relay decodes carries a blob of
    exactly the length of its size class under the declared hash, and a slot
    that is the hash of its creation key and epoch; so two puts into the same
    slot were made under the same key and epoch, or the two inputs hashed into
    their slots collide under BLAKE2b. *)
Theorem slot_has_one_owner bs1 bs2 v w :
  decodeCanonical putCellV1 (VBytes bs1) = Ok v -> decodeCanonical putCellV1 (VBytes bs2) = Ok w ->
  v.["storageSlot"] = w.["storageSlot"] ->
  certified_put v /\ certified_put w /\
  (slots_collide v w \/ v.["createPublicKey"] = w.["createPublicKey"] /\ v.["allocationEpoch"] = w.["allocationEpoch"]).
Proof.
  intros (Tv & Av & _)%(decoded _ putCellV1_type) (Tw & Aw & _)%(decoded _ putCellV1_type) Hs.
  apply put_certified in Av as Cv. apply put_certified in Aw as Cw. split; [done|]. split; [done|].
  destruct Cv as [Sv _ _], Cw as [Sw _ _]. unfold Hash.cellStorageSlot in Sv, Sw.
  apply bindR_ok in Sv as (p & Hp & [= Sv]), Sw as (q & Hq & [= Sw]). rewrite Hs in Sv.
  destruct (hash_tells p q) as [Hc|Heq]; [congruence|left; by exists p, q|subst q; right].
  assert (Hl : forall u r, Hash.cellStorageSlotPreimage u = Ok r -> exists b, r = ascii_bytes "hiverelay.blind.slot.v1" ++ b /\
    Hash.concat (map (fun f => enc_kind (snd f) (get u (fst f))) [("allocationEpoch", KU32); ("createPublicKey", KBytes 32)]) = Ok b).
  { intros u r Hr. unfold Hash.cellStorageSlotPreimage in Hr. apply bindR_ok in Hr as (? & _ & Hr). by apply tagged_inv in Hr as (b & Hb & ->); exists b. }
  destruct (Hl _ _ Hp) as (b & Hb & Bv), (Hl _ _ Hq) as (c & Hc & Bw). rewrite Hb in Hc. apply app_inv_head in Hc as <-.
  destruct (kinds_delimit hash_length _ v w b b [] [] Bv Bw eq_refl) as [_ Hall].
  apply Forall_cons in Hall as [He Hall]. apply Forall_cons in Hall as [Hk _]. cbn [fst snd] in He, Hk.
  destruct He as (n & -> & ->). split; [|done]. destruct Hk as (k & _ & Kv & Kw).
  rewrite (has_bytes _ (has_field "createPublicKey" _ _ _ Tv eq_refl)) in *.
  rewrite (has_bytes _ (has_field "createPublicKey" _ _ _ Tw eq_refl)) in *. simpl in Kv, Kw. congruence.
Qed.
End Slots.

(** ** Signed lists of entries *)

(** Entries whose encodings have one hash are equal, or the encodings collide. *)
Lemma committed_entries e t v w : Lawful e [] t -> has_type t v = true -> has_type t w = true ->
  (exists a, encodeCanonical e v = Ok a /\ encodeCanonical e w = Ok a) -> v = w.
Proof.
  intros Hl Tv Tw (a & Ha & Hb). apply (codec_roundtrip e t) in Ha, Hb; [|done..]. congruence.
Qed.

(** The encodings of two lists of entries collide. *)
Definition entries_collide (e : encoding) (v w : val) : Prop := exists a b,
  encodeCanonical e v.["entries"] = Ok a /\ encodeCanonical e w.["entries"] = Ok b /\ collide a b.

(** A commitment that both validators have recomputed. *)
Lemma same_commitment e t v w a b : Lawful e [] t ->
  has_type t v.["entries"] = true -> has_type t w.["entries"] = true ->
  encodeCanonical e v.["entries"] = Ok a -> encodeCanonical e w.["entries"] = Ok b ->
  bytes_eqb (Hash.blake2b256 a) (raw v.["entriesCommitment"]) = true ->
  bytes_eqb (Hash.blake2b256 b) (raw w.["entriesCommitment"]) = true ->
  v.["entriesCommitment"] = w.["entriesCommitment"] -> entries_collide e v w \/ v.["entries"] = w.["entries"].
Proof.
  intros Hl Tv Tw Ha Hb Cv Cw Hc. apply bytes_eqb_eq in Cv, Cw.
  destruct (hash_tells a b) as [Hx|Heq]; [congruence|left; by exists a, b|right]. subst b.
  eapply committed_entries; eauto.
Qed.

(** The object whose encoding a relay signs for an inbox read. *)
Definition read_payload (v : val) : val := VObj [
  ("version", v.["version"]); ("relayBinding", v.["relayBinding"]); ("requestNonce", v.["requestNonce"]);
  ("requestCommitment", v.["requestCommitment"]); ("snapshotRevision", v.["snapshotRevision"]);
  ("entriesCommitment", v.["entriesCommitment"]); ("nextCursor", v.["nextCursor"])].

Lemma read_payload_typed v : has_type inboxReadResultV1_type v = true ->
  has_type inboxReadSignaturePayloadV1_type (read_payload v) = true.
Proof.
  intros Ht. pose proof (fun n t => has_field n t _ v Ht) as Hf.
  unfold read_payload, inboxReadSignaturePayloadV1_type.
  match goal with |- has_type (TObj ?l) (VObj ?f) = true => change (has_fields has_type l f = true) end. cbn [has_fields].
  rewrite (has_const 1 _ (Hf "version" _ eq_refl)).
  rewrite !String.eqb_refl, (Hf "relayBinding" _ eq_refl), (Hf "requestNonce" _ eq_refl), (Hf "requestCommitment" _ eq_refl),
    (Hf "snapshotRevision" _ eq_refl), (Hf "entriesCommitment" _ eq_refl), (Hf "nextCursor" _ eq_refl). done.
Qed.

(** What a client may rely on in one inbox read. *)
Record read_window (v : val) : Prop := {
  revisions_increase : exists revisions, StronglySorted Z.lt revisions /\
    map (fun entry => entry.["appendRevision"]) (elems v.["entries"]) = map VBig revisions;
  within_snapshot : exists snapshot, v.["snapshotRevision"] = VBig snapshot /\
    Forall (fun entry => exists n, entry.["appendRevision"] = VBig n /\ n <= snapshot) (elems v.["entries"]);
  frames_hashed : Forall (fun entry => Hash.blake2b256 (raw entry.["frame"]) = raw entry.["frameHash"] /\
    table_get INBOX_FRAME_CLASS entry.["frameClass"] = Some (blen (raw entry.["frame"]))) (elems v.["entries"]);
  entry_limit : Z.of_nat (List.length (elems v.["entries"])) <= 64
}.

Lemma check_revisions_ok snapshot previous entries :
  check_revisions (VBig snapshot) previous entries = Ok tt ->
  Forall (fun entry => has_type TBig entry.["appendRevision"] = true) entries ->
  exists revisions, map (fun entry => entry.["appendRevision"]) entries = map VBig revisions /\
    StronglySorted Z.lt revisions /\ Forall (fun n => previous < n <= snapshot) revisions.
Proof.
  revert previous; induction entries as [|entry entries IH]; intros previous Hq Ht.
  - exists []. split_and!; [done|constructor|constructor].
  - apply Forall_cons in Ht as [(n & Hn)%has_big Ht]. cbn [check_revisions] in Hq. rewrite Hn in Hq.
    apply bindR_ok in Hq as (r & Hr & Hq). apply asU64_ok in Hr as [_ [[= ->]|[=]]].
    apply bindR_ok in Hq as (? & Hp & Hq). apply bindR_ok in Hq as (sn & Hsn & Hq).
    apply asU64_ok in Hsn as [_ [[= ->]|[=]]]. apply bindR_ok in Hq as (? & Hs & Hq). apply fail_if_ok in Hp, Hs. b2p.
    destruct (IH _ Hq Ht) as (rs & Hm & Hsort & Hall). exists (r :: rs). simpl. split; [by rewrite Hn, Hm|].
    split; [constructor; [done|]|constructor; [lia|]].
    + eapply List.Forall_impl; [|exact Hall]. simpl. lia.
    + eapply List.Forall_impl; [|exact Hall]. simpl. lia.
Qed.

Lemma read_accepted v : has_type inboxReadResultV1_type v = true -> accepted inboxReadResultV1 v ->
  read_window v /\ exists a, encodeCanonical inboxReadEntriesV1 v.["entries"] = Ok a /\
    bytes_eqb (Hash.blake2b256 a) (raw v.["entriesCommitment"]) = true.
Proof.
  intros Ht Ha. field Ha "entries" as He. apply accepted_array in He as (_ & Hlen & He).
  pose proof (has_field "entries" _ _ _ Ht eq_refl) as Hte. apply has_array in Hte as [_ Hte].
  destruct (has_big _ (has_field "snapshotRevision" _ _ _ Ht eq_refl)) as (sn & Hsn).
  apply accepted_validate in Ha. unfold validate_inboxReadResultV1 in Ha. rewrite Hsn in Ha.
  apply bindR_ok in Ha as ([] & Hr & Ha). apply bindR_ok in Ha as (a & Hea & Ha). apply bindR_ok in Ha as (? & Hc & _).
  apply fail_if_ok, negb_false_iff in Hc. split; [|eauto].
  apply check_revisions_ok in Hr as (rs & Hm & Hs & Hall);
    [|eapply Forall_impl; [exact Hte|]; intros en Hx; exact (has_field "appendRevision" _ _ _ Hx eq_refl)].
  split; [by exists rs| | |lia].
  - exists sn. split; [done|]. revert rs Hm Hall Hs. generalize (elems v.["entries"]).
    induction l as [|en l IH]; intros [|r rs] Hm Hall Hs; try done. injection Hm as Hx Hm.
    apply Forall_cons in Hall as [Hr Hall]. inversion Hs; subst. constructor; [exists r; split; [done|lia]|eauto].
  - eapply Forall_impl; [exact He|]. intros en Hx.
    destruct (payload_class "frameClass" INBOX_FRAME_CLASS _ _ "frame" en Hx) as (size & Hsz & _ & Hl); [in_fields|].
    apply accepted_validate in Hx. unfold validate_inboxReadEntryV1 in Hx. apply fail_if_ok, negb_false_iff, bytes_eqb_eq in Hx.
    split; [done|]. by rewrite Hsz, Hl.
Qed.

(** The signature of an inbox read seals the whole result. Every decoded
    result is a window of the log: at most 64 entries, strictly increasing
    revisions none of which is past the snapshot, every frame of its class's
    length under its hash; and if the payloads a relay signs for two decoded
    results are the same bytes, then the results have the same binding, request,
    snapshot, cursor and entries, or the encodings of their entries collide. *)
Theorem signed_read_seals bs1 bs2 v w p :
  decodeCanonical inboxReadResultV1 (VBytes bs1) = Ok v -> decodeCanonical inboxReadResultV1 (VBytes bs2) = Ok w ->
  encodeCanonical inboxReadSignaturePayloadV1 (read_payload v) = Ok p ->
  encodeCanonical inboxReadSignaturePayloadV1 (read_payload w) = Ok p ->
  read_window v /\ read_window w /\ read_payload v = read_payload w /\
  (entries_collide inboxReadEntriesV1 v w \/ v.["entries"] = w.["entries"]).
Proof.
  intros Hv Hw Pv Pw.
  apply (decoded _ inboxReadResultV1_type) in Hv as (Tv & Av & _). apply (decoded _ inboxReadResultV1_type) in Hw as (Tw & Aw & _).
  destruct (read_accepted v Tv Av) as (Wv & a & Ha & Ca), (read_accepted w Tw Aw) as (Ww & b & Hb & Cb).
  apply (codec_roundtrip _ inboxReadSignaturePayloadV1_type) in Pv, Pw; [|by apply read_payload_typed..].
  assert (Hp : read_payload v = read_payload w) by congruence. do 3 (split; [done|]).
  apply (same_commitment _ (TArr inboxReadEntryV1_type) v w a b); try done;
    [apply arrayOf_lawful_lit; [apply _|by apply TCEq_eq] | by eapply has_field..|].
  exact (f_equal (fun q => q.["entriesCommitment"]) Hp).
Qed.

(** ** Backups *)

(** Chunks are ordered by path, then by offset. *)
Definition chunk_key (entry : val) : list Z * Z :=
  (digits (raw entry.["path"]), match entry.["fileOffset"] with VBig n => n | _ => 0 end).

Definition chunk_lt (a b : list Z * Z) : Prop := lex_lt a.1 b.1 \/ a.1 = b.1 /\ a.2 < b.2.

#[export] Instance chunk_lt_trans : Transitive chunk_lt.
Proof.
  intros [a i] [b j] [c k] [H1|[H1 H2]] [H3|[H3 H4]]; unfold chunk_lt in *; simpl in *; subst; auto; [left; by etransitivity|right; split; [done|lia]].
Qed.

Definition total (f : string) (entries : list val) : Z := fold_right (fun entry sum => num entry.[f] + sum) 0 entries.

(** A relative path that stays below its root on every file system: no empty
    part, no dot parts, no backslash. *)
Definition portable (path : bytes) : Prop :=
  ~ In (ch "\") path /\
  Forall (fun part => part <> [] /\ part <> ascii_bytes "." /\ part <> ascii_bytes "..") (Durability.split_slash [] path).

Record sealed_manifest (v : val) : Prop := {
  chunks_sorted : StronglySorted chunk_lt (map chunk_key (elems v.["entries"]));
  plaintext_total : v.["totalPlaintextByteLength"] = VBig (total "plaintextByteLength" (elems v.["entries"]));
  ciphertext_total : v.["totalCiphertextByteLength"] = VBig (total "ciphertextByteLength" (elems v.["entries"]));
  paths_portable : Forall (fun entry => portable (raw entry.["path"])) (elems v.["entries"])
}.

Lemma compareBytes_cases a b : 0 <? compareBytes a b = false ->
  lex_lt (digits a) (digits b) \/ (compareBytes a b =? 0) = true /\ digits a = digits b.
Proof.
  intros Hc. b2p. destruct (compareBytes a b =? 0) eqn:E; b2p.
  - right. split; [done|]. by apply compareBytes_zero in E as ->.
  - left. apply compareBytes_lt. lia.
Qed.

Lemma durability_u64 n k : Durability.asU64 (VBig n) = Ok k -> k = n.
Proof. unfold Durability.asU64. intros Hq. oks. done. Qed.

Lemma chunk_totals_ok previous p c entries q d : Durability.chunk_totals previous p c entries = Ok (q, d) ->
  Forall (fun entry => has_type TBig entry.["fileOffset"] = true) entries ->
  match previous with Some prev => has_type TBig prev.["fileOffset"] = true | None => True end ->
  q = p + total "plaintextByteLength" entries /\ d = c + total "ciphertextByteLength" entries /\
  Sorted chunk_lt (map chunk_key (match previous with Some prev => prev :: entries | None => entries end)).
Proof.
  revert previous p c; induction entries as [|entry entries IH]; intros previous p c Hq Ht Hp.
  - cbn in Hq. injection Hq as <- <-. split_and!; [simpl; lia..|]. destruct previous; repeat constructor.
  - cbn [Durability.chunk_totals] in Hq. apply bindR_ok in Hq as ([] & Hord & Hq).
    apply Forall_cons in Ht as [He Ht]. apply (IH (Some entry)) in Hq as (-> & -> & Hs); [|done..].
    split; [simpl; lia|]. split; [simpl; lia|]. destruct previous as [prev|]; [|done].
    simpl map in *. constructor; [done|]. constructor.
    apply has_big in He as (n & He), Hp as (m & Hp). rewrite He, Hp in Hord.
    apply bindR_ok in Hord as (x & ->%durability_u64 & Hord).
    apply bindR_ok in Hord as (y & ->%durability_u64 & Hord). apply fail_if_ok in Hord.
    apply orb_false_elim in Hord as [Hc Ho]. unfold chunk_lt, chunk_key. simpl. rewrite He, Hp.
    destruct (compareBytes_cases _ _ Hc) as [Hlt|[Hz Heq]]; [by left|right]. split; [done|]. rewrite Hz in Ho. simpl in Ho. b2p. lia.
Qed.

Lemma good_path path : Durability.bad_path path = false -> portable path.
Proof.
  unfold Durability.bad_path. intros Hb. b2p. split.
  - intros Hin. unfold includes in *.
    match goal with Hx : existsb (Byte.eqb _) _ = false |- _ => rewrite (proj2 (existsb_exists _ _)) in Hx; [done|] end.
    exists (ch "\"). split; [done|]. by apply Byte.byte_dec_lb.
  - apply List.Forall_forall. intros part Hin.
    destruct (Durability.forbidden_part part) eqn:E.
    + match goal with Hx : existsb Durability.forbidden_part _ = false |- _ => rewrite (proj2 (existsb_exists _ _)) in Hx; [done|eauto] end.
    + unfold Durability.forbidden_part in E. b2p.
      split; [intros ->; discriminate|split; intros ->; discriminate].
Qed.

(** A backup chunk manifest seals its backup: the chunks of a decoded
    manifest are in strictly increasing order of path and offset, so no range
    starts twice; the two totals are the exact sums of the chunk lengths, with no
    overflow; and every path is a relative path with no empty, dot or dot-dot
    part and no backslash, so a restore never leaves its directory. *)
Theorem manifest_seals bs v : decodeCanonical Durability.blindBackupChunkManifestV1 (VBytes bs) = Ok v -> sealed_manifest v.
Proof.
  intros Hq. apply (decoded _ Durability.blindBackupChunkManifestV1_type) in Hq as (Ht & Ha & _).
  field Ha "entries" as He. apply accepted_array in He as (_ & _ & He).
  pose proof (has_field "entries" _ _ _ Ht eq_refl) as Hte. apply has_array in Hte as [_ Hte].
  destruct (has_big _ (has_field "totalPlaintextByteLength" _ _ _ Ht eq_refl)) as (tp & Htp).
  destruct (has_big _ (has_field "totalCiphertextByteLength" _ _ _ Ht eq_refl)) as (tc & Htc).
  apply accepted_validate in Ha. unfold Durability.validate_blindBackupChunkManifestV1 in Ha. rewrite Htp, Htc in Ha.
  do 2 (apply bindR_ok in Ha as (? & _ & Ha)). apply bindR_ok in Ha as ([p c] & Hc & Ha).
  apply bindR_ok in Ha as (p' & ->%durability_u64 & Ha).
  apply bindR_ok in Ha as (c' & ->%durability_u64 & Ha). apply fail_if_ok in Ha. b2p. subst.
  apply chunk_totals_ok in Hc as (-> & -> & Hs);
    [|eapply Forall_impl; [exact Hte|]; intros en Hx; exact (has_field "fileOffset" _ _ _ Hx eq_refl)|done].
  split; [by apply Sorted_StronglySorted; [exact chunk_lt_trans|]|done|done|].
  eapply Forall_impl; [exact He|]. intros en Hx. apply accepted_validate in Hx.
  unfold Durability.validate_backupChunkEntryV1 in Hx. do 3 (apply bindR_ok in Hx as (? & _ & Hx)).
  by apply fail_if_ok, good_path in Hx.
Qed.
End WithPlatform.

(** ** Examples *)

Section Demo.
#[local] Existing Instance demo_platform.

Definition bytes_ok (m : result bytes) : bytes := match m with Ok bs => bs | Err _ => [] end.

(** A put of a blob of 4096 equal bytes. *)
Definition demo_cell_put (blob nonce : byte) : val :=
  let value := VObj [("allocationEpoch", VNum 9); ("createPublicKey", key Byte.x01)] in
  VObj [
  ("version", VNum 1); ("storageSlot", VBytes (bytes_ok (Hash.cellStorageSlot value))); ("allocationEpoch", VNum 9);
  ("sizeClass", VNum 1); ("leaseClass", VNum 2); ("clientNonce", key nonce); ("createPublicKey", key Byte.x01);
  ("renewPublicKey", key Byte.x02); ("dropPublicKey", key Byte.x03);
  ("declaredBlobHash", VBytes (Hash.blake2b256 (replicate 4096 blob)));
  ("createSignature", VBytes (replicate 64 Byte.x04));
  ("admission", VObj [("profileId", VNum 1); ("schemeId", VNum 1); ("parameterHash", key Byte.x05);
    ("token", VBytes [Byte.x06])]);
  ("cellBlob", VBytes (replicate 4096 blob))].

Definition demo_put1 : val := Eval vm_compute in demo_cell_put Byte.x61 Byte.x11.
Definition demo_put2 : val := Eval vm_compute in demo_cell_put Byte.x62 Byte.x12.
Definition demo_put1_bytes : bytes := Eval vm_compute in bytes_ok (encodeCanonical putCellV1 demo_put1).
Definition demo_put2_bytes : bytes := Eval vm_compute in bytes_ok (encodeCanonical putCellV1 demo_put2).

Lemma slot_has_one_owner_witness : certified_put demo_put1 /\ certified_put demo_put2 /\
  (slots_collide demo_put1 demo_put2 \/
   demo_put1.["createPublicKey"] = demo_put2.["createPublicKey"] /\
   demo_put1.["allocationEpoch"] = demo_put2.["allocationEpoch"]).
Proof.
  apply (@slot_has_one_owner demo_platform demo_digest_length demo_put1_bytes demo_put2_bytes); vm_compute; reflexivity.
Defined.

Definition demo_binding : val := VObj [
  ("version", VNum 1); ("relayPublicKey", key Byte.x01); ("storeId", key Byte.x02);
  ("descriptorSequence", VBig 3); ("descriptorHash", key Byte.x03); ("durabilityProfileId", VNum 1);
  ("durabilityContinuityHash", key Byte.x04); ("durabilityProfileHash", key Byte.x05);
  ("restoreEvidenceHeadSequence", VBig 0); ("restoreEvidenceHeadHash", key Byte.x00);
  ("externalCommitWitness", VNull)].

Definition demo_entry (revision : Z) (frame : byte) : val := VObj [
  ("appendRevision", VBig revision); ("frameHash", VBytes (Hash.blake2b256 (replicate 4096 frame)));
  ("frameClass", VNum 1); ("frame", VBytes (replicate 4096 frame))].

(** A read of one frame at revision 5, signed with [signature]. *)
Definition demo_read (signature : byte) : val :=
  let entries := VList [demo_entry 5 Byte.x66] in
  VObj [
  ("version", VNum 1); ("relayBinding", demo_binding); ("requestNonce", key Byte.x07);
  ("requestCommitment", key Byte.x08); ("snapshotRevision", VBig 6); ("entries", entries);
  ("entriesCommitment", VBytes (bytes_ok (inboxReadEntriesCommitment entries))); ("nextCursor", VNull);
  ("signature", VBytes (replicate 64 signature))].

Definition demo_read1 : val := Eval vm_compute in demo_read Byte.x21.
Definition demo_read2 : val := Eval vm_compute in demo_read Byte.x22.
Definition demo_read1_bytes : bytes := Eval vm_compute in bytes_ok (encodeCanonical inboxReadResultV1 demo_read1).
Definition demo_read2_bytes : bytes := Eval vm_compute in bytes_ok (encodeCanonical inboxReadResultV1 demo_read2).
Definition demo_read_payload : bytes := Eval vm_compute in
  bytes_ok (encodeCanonical inboxReadSignaturePayloadV1 (read_payload demo_read1)).

Lemma signed_read_seals_witness : read_window demo_read1 /\ read_window demo_read2 /\
  read_payload demo_read1 = read_payload demo_read2 /\
  (entries_collide inboxReadEntriesV1 demo_read1 demo_read2 \/ demo_read1.["entries"] = demo_read2.["entries"]).
Proof.
  apply (@signed_read_seals demo_platform demo_read1_bytes demo_read2_bytes _ _ demo_read_payload); vm_compute; reflexivity.
Defined.

Definition demo_chunk (path : string) (offset : Z) (id : byte) : val := VObj [
  ("path", VBytes (ascii_bytes path)); ("fileOffset", VBig offset); ("plaintextByteLength", VNum 100);
  ("ciphertextByteLength", VNum 116); ("chunkObjectId", key id); ("chunkSalt", key Byte.x02);
  ("nonce", VBytes (replicate 24 Byte.x03)); ("ciphertextHash", key Byte.x04)].

Definition demo_manifest : val := VObj [
  ("version", VNum 1); ("backupId", key Byte.x01);
  ("encryptionProfile", VObj [("version", VNum 1); ("algorithmId", VNum 1); ("keyDerivationId", VNum 1);
    ("recoveryKeyId", key Byte.x05); ("keyEpoch", VNum 1)]);
  ("encryptionManifestHash", key Byte.x06);
  ("entries", VList [demo_chunk "cells/a" 0 Byte.x11; demo_chunk "cells/a" 100 Byte.x12; demo_chunk "wal" 0 Byte.x13]);
  ("totalPlaintextByteLength", VBig 300); ("totalCiphertextByteLength", VBig 348)].

Definition demo_manifest_bytes : bytes := Eval vm_compute in
  bytes_ok (encodeCanonical Durability.blindBackupChunkManifestV1 demo_manifest).

Lemma manifest_seals_witness : sealed_manifest demo_manifest.
Proof. apply (@manifest_seals demo_platform demo_manifest_bytes). vm_compute. reflexivity. Defined.
End Demo.
