(* ===== verification/RelayLaws.v ===== *)
(** * What relay results and circuits promise

    A result names the relay, store and durability profile it was produced
    under; an opened circuit has the limits of its class and the same terms on
    both of its hops; a stream chunk has a length that depends on its class
    alone. *)

From Stdlib Require Import ZArith Lia Bool List String Ascii.
From Stdlib Require Import Strings.Byte.
From stdpp Require Import base tactics list strings.
From S2P Require Import Prelude Codec CodecLaws DemoPlatform Authority Hashes SchemaKit ResultBinding.
From S2P Require Import SchemasDescribe SchemasForward Orders Accepted DescribeLaws.
Import Binding.

(** Decoded fields that an equality of contents makes equal. *)
Lemma equal_bytes v w : has_type TBytes v = true -> has_type TBytes w = true -> bytes_eqb (raw v) (raw w) = true -> v = w.
Proof. intros Hv%has_bytes Hw%has_bytes Hq%bytes_eqb_eq. rewrite Hv, Hw. by f_equal. Qed.

Lemma equal_nums v w : has_type TNum v = true -> has_type TNum w = true -> strict_eqb v w = true -> v = w.
Proof. intros Hv%has_num Hw%has_num. rewrite Hv, Hw. cbn [strict_eqb]. by intros ->%Z.eqb_eq. Qed.

Lemma equal_bigs v w a b : has_type TBig v = true -> has_type TBig w = true -> bigint v = Ok a -> bigint w = Ok b ->
  (a =? b) = true -> v = w.
Proof. intros Hv Hw Ha Hb Hq. b2p. subst. by rewrite (big_zero _ _ Hv Ha), (big_zero _ _ Hw Hb). Qed.

(** ** Result bindings *)

(** A commit witness covers the commit it is attached to. *)
Record covering_witness (w : val) : Prop := {
  known_operation : isKnownOperation w.["familyId"] w.["operationId"] = true;
  floor_covers : exists commit floor, w.["commitWalSequence"] = VBig commit /\
    w.["coveringFloorWalSequence"] = VBig floor /\ commit <= floor
}.

Record bound_result (v : val) : Prop := {
  restore_head : v.["restoreEvidenceHeadSequence"] = VBig 0 <->
    isAllZero (raw v.["restoreEvidenceHeadHash"]) = true;
  single_store : v.["durabilityProfileId"] = VNum 1 ->
    v.["restoreEvidenceHeadSequence"] = VBig 0 /\ v.["externalCommitWitness"] = VNull;
  witnessed : v.["externalCommitWitness"] <> VNull -> v.["durabilityProfileId"] = VNum 2 /\
    covering_witness v.["externalCommitWitness"] /\
    Forall (fun f => v.[f] = v.["externalCommitWitness"].[f])
      ["relayPublicKey"; "storeId"; "durabilityContinuityHash"; "durabilityProfileHash";
       "restoreEvidenceHeadHash"; "restoreEvidenceHeadSequence"]
}.

Lemma witness_covers w : has_type blindExternalCommitWitnessV1_type w = true -> accepted blindExternalCommitWitnessV1 w ->
  covering_witness w.
Proof.
  intros Ht Ha. apply accepted_validate in Ha. unfold validate_blindExternalCommitWitnessV1 in Ha.
  apply bindR_ok in Ha as (? & _ & Ha). apply bindR_ok in Ha as (? & Hk & Ha). apply fail_if_ok, negb_false_iff in Hk.
  apply bindR_ok in Ha as (floor & Hf & Ha). apply bindR_ok in Ha as (commit & Hc & Ha).
  apply bindR_ok in Ha as (? & Hle & _). apply fail_if_ok, Z.ltb_ge in Hle. split; [done|]. exists commit, floor.
  split; [apply big_zero; [by eapply has_field|done]|]. split; [apply big_zero; [by eapply has_field|done]|done].
Qed.

(** A result can be held against the store that produced it: in every
    decoded binding the restore head hash is zero exactly when its sequence is;
    under the single-store profile there is no restore head and no commit
    witness; and a witness comes with the other profile, is about the same
    relay, store, durability and restore head, names a registered operation,
    and its floor covers the commit. *)
Theorem binding_bound bs v : decodeCanonical relayResultBindingV1 (VBytes bs) = Ok v -> bound_result v.
Proof.
  intros (Ht & Ha & _)%(decoded _ relayResultBindingV1_type). pose proof (fun n t => has_field n t _ v Ht) as Hf.
  field Ha "externalCommitWitness" as Hw. field Ha "durabilityProfileId" as Hid. apply accepted_ranged in Hid as [Hid Hidr].
  apply accepted_validate in Ha. unfold validate_relayResultBindingV1 in Ha. cbv zeta in Ha.
  apply bindR_ok in Ha as (? & _ & Ha). apply bindR_ok in Ha as (r & Hr & Ha). apply bindR_ok in Ha as (? & Hz & Ha).
  apply fail_if_ok in Hz. unfold restore_head_mismatch in Hz.
  pose proof (big_zero _ _ (Hf "restoreEvidenceHeadSequence" _ eq_refl) Hr) as Hseq.
  set (w := v.["externalCommitWitness"]) in *.
  assert (Hnull : nullish w = true <-> w = VNull)
    by (pose proof (Hf "externalCommitWitness" _ eq_refl) as Htw; fold w in Htw; destruct w; done).
  split.
  - rewrite Hseq. destruct (r =? 0) eqn:E; b2p; destruct (isAllZero _); try done; [by subst|].
    split; [by intros [= ->]|done].
  - intros Hone. rewrite Hone in Ha. cbn in Ha. apply fail_if_ok in Ha. b2p. subst r.
    split; [done|]. apply Hnull. done.
  - intros Hne. destruct (nullish w) eqn:En; [by destruct (Hne (proj1 Hnull eq_refl))|].
    rewrite Hid in Ha. unfold is_num in Ha. cbn [strict_eqb] in Ha.
    destruct (num v.["durabilityProfileId"] =? 1) eqn:E1.
    { apply fail_if_ok in Ha. b2p. congruence. }
    apply bindR_ok in Ha as ([] & Hs & Ha). apply bindR_ok in Ha as (a & Hva & Ha). apply bindR_ok in Ha as (b & Hwb & Ha).
    apply fail_if_ok, negb_false_iff in Ha. apply accepted_optional in Hw; [|done].
    assert (Htw : has_type blindExternalCommitWitnessV1_type w = true)
      by (pose proof (Hf "externalCommitWitness" _ eq_refl) as Htw; fold w in Htw; destruct w; done).
    split; [rewrite Hid; f_equal; b2p; lia|]. split; [by apply witness_covers|].
    apply for_each_ok in Hs. repeat match goal with Hx : Forall _ (_ :: _) |- _ => apply Forall_cons in Hx as [? Hx] end.
    repeat match goal with Hx : fail_if _ = Ok tt |- _ => apply fail_if_ok, negb_false_iff in Hx end.
    repeat constructor; first [apply equal_bytes; [by apply Hf|by eapply has_field|done] |
      eapply equal_bigs; [by apply Hf|by eapply has_field|exact Hva|exact Hwb|done]].
Qed.

(** ** Circuits *)

(** The limits of a circuit are the ones of its class. *)
Definition class_limits (v : val) : Prop := exists t,
  table_get FORWARD_CIRCUIT_CLASS v.["circuitClass"] = Some t /\
  v.["grantedInitialWindow"] = VNum (cc_grantedInitialWindow t) /\ v.["maxCircuitBytes"] = VBig (cc_maxCircuitBytes t) /\
  v.["idleMillis"] = VNum (cc_idleMillis t) /\ v.["lifetimeMillis"] = VNum (cc_lifetimeMillis t) /\
  exists size, table_get STREAM_WIRE_CLASS v.["grantedWireClass"] = Some size /\ v.["maxDataBytes"] = VNum size.

(** The fields both hops of a circuit state. *)
Definition shared_terms : list string := ["routeId"; "nextDescriptorHash"; "circuitNonce"; "nextDescriptorSequence";
  "grantedWireClass"; "circuitClass"; "grantedInitialWindow"; "maxDataBytes"; "maxCircuitBytes"; "idleMillis";
  "lifetimeMillis"; "openedAtEpoch"; "acceptedRouteScopeHash"; "acceptedRelayCount"].

Record opened_circuit (v : val) : Prop := {
  circuit_limits : class_limits v;
  circuit_stream : v.["streamId"] <> VBig 0;
  same_terms : Forall (fun f => v.[f] = v.["nextHopAccept"].[f]) shared_terms;
  accepted_from : v.["relayBinding"].["relayPublicKey"] = v.["nextHopAccept"].["previousRelayKey"]
}.

Lemma forward_tuple_ok v : has_type TNum v.["grantedWireClass"] = true -> has_type TBig v.["maxCircuitBytes"] = true ->
  has_type TNum v.["maxDataBytes"] = true -> validateForwardTuple v = Ok tt -> class_limits v.
Proof.
  intros Hg Hb Hm Hq. unfold validateForwardTuple in Hq. destruct (table_get FORWARD_CIRCUIT_CLASS _) as [t|] eqn:E; [|done].
  apply bindR_ok in Hq as (b & Hmb & Hq). apply bindR_ok in Hq as (? & Hl & Hq). apply fail_if_ok in Hl, Hq. b2p.
  repeat match goal with Hx : is_num _ _ = true |- _ => apply is_num_iff in Hx end. exists t. subst b.
  split; [done|]. split; [done|]. split; [by apply big_zero|]. split; [done|]. split; [done|].
  rewrite (has_num _ Hg) in *. cbn [nullish] in Hq. destruct (table_get STREAM_WIRE_CLASS _) as [size|] eqn:Es.
  - exists size. split; [done|]. apply equal_nums; done.
  - rewrite (has_num _ Hm) in Hq. done.
Qed.

(** An opened circuit is one circuit: in every decoded open result the
    window, byte budget, chunk size and timeouts are exactly the ones of the
    circuit and wire class it names, the stream has an id, and the acceptance of
    the next hop that is embedded in it states the same terms in all fourteen
    shared fields and was given to the relay that signs the result. *)
Theorem open_result_agrees bs v : decodeCanonical blindForwardOpenResultV1 (VBytes bs) = Ok v -> opened_circuit v.
Proof.
  intros (Ht & Ha & _)%(decoded _ blindForwardOpenResultV1_type). pose proof (fun n t => has_field n t _ v Ht) as Hf.
  pose proof (fun n t => has_field n t _ _ (Hf "nextHopAccept" _ eq_refl)) as Hn.
  pose proof (fun n t => has_field n t _ _ (Hf "relayBinding" _ eq_refl)) as Hr.
  apply accepted_validate in Ha. unfold validate_blindForwardOpenResultV1 in Ha. cbv zeta in Ha.
  apply bindR_ok in Ha as ([] & Htup & Ha). apply bindR_ok in Ha as (sid & Hsid & Ha). apply bindR_ok in Ha as (? & Hz & Ha).
  apply bindR_ok in Ha as (? & _ & Ha). apply bindR_ok in Ha as (os & Hos & Ha). apply bindR_ok in Ha as (ob & Hob & Ha).
  apply fail_if_ok in Ha. unfold differs, differs_scalar, differs_u64 in *. b2p.
  apply bindR_ok in Hos as (a1 & Ha1 & Hos). apply bindR_ok in Hos as (b1 & Hb1 & [= <-]).
  apply bindR_ok in Hob as (a2 & Ha2 & Hob). apply bindR_ok in Hob as (b2 & Hb2 & [= <-]).
  repeat match goal with Hx : negb _ = false |- _ => apply negb_false_iff in Hx end.
  split.
  - apply forward_tuple_ok; [by apply Hf..|done].
  - apply fail_if_ok in Hz. intros Hs. rewrite Hs in Hsid. injection Hsid as <-. done.
  - unfold shared_terms. repeat constructor;
      first [apply equal_bytes; [by apply Hf|by apply Hn|done] | apply equal_nums; [by apply Hf|by apply Hn|done] |
        eapply equal_bigs; [by apply Hf|by apply Hn|eassumption|eassumption|done]].
  - apply equal_bytes; [by apply Hr|by apply Hn|done].
Qed.

(** ** Stream chunks *)

(** What is on the wire before the content. *)
Definition chunk_header (v : val) : bytes :=
  be_bytes 1 1 ++ be_bytes 1 (num v.["wireClass"]) ++ be_bytes 1 (num v.["flags"]) ++ be_bytes 4 (num v.["contentLength"]).

Lemma unsigned_bytes (n : nat) v p bs : (n <= 6)%nat ->
  emits (fixedUnsigned (Z.of_nat n) (256 ^ Z.of_nat n - 1)) v p bs -> bs = be_bytes n (num v).
Proof.
  intros Hn He. pose proof (proj1 He (St 0 0 [])) as Hp.
  assert (Ha : accepted (fixedUnsigned (Z.of_nat n) (256 ^ Z.of_nat n - 1)) v) by (eexists _, _, _; exact Hp).
  apply accepted_unsigned in Ha as [Hv Hr]; [|by apply fixedUnsigned_safe]. rewrite Hv in He.
  by eapply emits_fun, fixedUnsigned_emits.
Qed.

Lemma wire_class_bytes v p bs : emits wireClass v p bs -> bs = be_bytes 1 (num v).
Proof.
  intros He. apply (wrapped_emits_inv u8 wireClass (fun v => v) (fun _ => VUndef) (fun v => fail_if (out_of_range v 1 3))) in He as [_ He];
    [|done..]. by apply (unsigned_bytes 1) in He; [|lia].
Qed.

Lemma version_bytes v p bs : emits version1 v p bs -> bs = be_bytes 1 1.
Proof.
  intros He. apply (wrapped_emits_inv u8 version1 (fun _ => VNum 1) (fun _ => VUndef)
    (fun v => fail_if (negb (strict_eqb (if nullish v then VNum 1 else v) (VNum 1))))) in He as [_ He]; [|done..].
  by apply (unsigned_bytes 1) in He; [|lia].
Qed.

Lemma content_bytes n v p bs : n <= MAX_SAFE_INTEGER -> emits (fixedBytes n) v p bs -> bs = raw v /\ blen bs = n.
Proof.
  intros Hn He. pose proof (proj1 He (St 0 0 [])) as Hp. apply fixedBytes_inv in Hp as (b & -> & Hb).
  rewrite (emits_fun _ _ _ _ _ He (fixedBytes_emits n b p Hn Hb)). done.
Qed.

(** The length of a stream chunk says nothing about its content: whatever
    is encoded, the chunk is the seven header bytes, the content and the
    padding, and its length is the size of its wire class less the sixteen bytes
    of the AEAD tag. *)
Theorem chunk_length_fixed v bs : encodeCanonical blindStreamChunkPlainV1 v = Ok bs -> exists size,
  table_get STREAM_WIRE_CLASS v.["wireClass"] = Some size /\ blen bs = size - 16 /\
  bs = chunk_header v ++ raw v.["content"] ++ raw v.["randomPadding"] /\
  blen (raw v.["content"]) = num v.["contentLength"].
Proof.
  intros He. apply (encodeCanonical_emits _ blindStreamChunkPlainV1_type) in He.
  pose proof (proj1 He (St 0 0 [])) as Hp. apply chunk_inv in Hp as (L & b & Hv & Hb).
  rewrite (emits_fun _ _ _ _ _ He (chunk_emits _ _ VUndef _ Hv Hb)). clear He.
  destruct (validate_chunk_ok _ _ Hv) as (_ & HL & _ & Hn & Hm).
  apply streamChunkLengths_ok in HL as (size & n & Hs & Hc & _ & _ & Hpad & _).
  unfold chunk_fields in Hb.
  repeat match goal with Hx : emits_fields _ (_ :: _) _ |- _ => inversion Hx; clear Hx; subst
    | Hx : emits_fields _ [] _ |- _ => inversion Hx; clear Hx; subst end.
  repeat match goal with
  | Hx : emits version1 _ _ _ |- _ => apply version_bytes in Hx
  | Hx : emits wireClass _ _ _ |- _ => apply wire_class_bytes in Hx
  | Hx : emits u8 _ _ _ |- _ => apply (unsigned_bytes 1) in Hx; [|lia]
  | Hx : emits u32be _ _ _ |- _ => apply (unsigned_bytes 4) in Hx; [|lia]
  | Hx : emits (fixedBytes _) _ _ _ |- _ => apply content_bytes in Hx as [Hx ?]; [|done]
  end. subst. exists size. split; [done|].
  split; [|split; [unfold chunk_header; by rewrite <- !app_assoc, app_nil_r|done]].
  rewrite !blen_app, !blen_be_bytes. rewrite Hc in *. cbn [num] in *. change (blen []) with 0. lia.
Qed.

(** ** Examples *)

Section Demo.
#[local] Existing Instance demo_platform.

Definition wire_of (m : result bytes) : bytes := match m with Ok bs => bs | Err _ => [] end.

(** A commit of relay 1 that an external journal witnessed. *)
Definition demo_witness : val := VObj [
  ("version", VNum 1); ("relayPublicKey", key Byte.x01); ("storeId", key Byte.x02); ("externalJournalId", key Byte.x03);
  ("durabilityContinuityHash", key Byte.x04); ("durabilityProfileHash", key Byte.x05);
  ("restoreEvidenceHeadSequence", VBig 3); ("restoreEvidenceHeadHash", key Byte.x06); ("familyId", VNum 2);
  ("operationId", VNum 1); ("requestCommitment", key Byte.x07); ("resultCommitment", key Byte.x08);
  ("commitWalSequence", VBig 40); ("commitWalHash", key Byte.x09); ("coveringFloorRevision", VBig 2);
  ("coveringFloorHash", key Byte.x0a); ("coveringFloorWalSequence", VBig 41); ("coveringFloorWalHash", key Byte.x0b);
  ("writerEpoch", VBig 1); ("writerFenceTokenHash", key Byte.x0c); ("externalLeaseRevision", VBig 1);
  ("witnessedUnixMillis", VBig 1700000000000); ("witnessPublicKey", key Byte.x0d);
  ("signature", VBytes (replicate 64 Byte.x0e))].

Definition witnessed_binding (relay : byte) (witness : val) : val := VObj [
  ("version", VNum 1); ("relayPublicKey", key relay); ("storeId", key Byte.x02); ("descriptorSequence", VBig 9);
  ("descriptorHash", key Byte.x0f); ("durabilityProfileId", VNum 2); ("durabilityContinuityHash", key Byte.x04);
  ("durabilityProfileHash", key Byte.x05); ("restoreEvidenceHeadSequence", VBig 3);
  ("restoreEvidenceHeadHash", key Byte.x06); ("externalCommitWitness", witness)].

Definition demo_bound : val := witnessed_binding Byte.x01 demo_witness.
Definition demo_bound_bytes : bytes := Eval vm_compute in wire_of (encodeCanonical relayResultBindingV1 demo_bound).

Lemma binding_bound_witness : bound_result demo_bound.
Proof. apply (binding_bound demo_bound_bytes). vm_compute. reflexivity. Defined.

(** The terms of a class 2 circuit with the smallest chunks. *)
Definition demo_terms : list (string * val) := [
  ("grantedInitialWindow", VNum 262144); ("maxDataBytes", VNum 4096); ("maxCircuitBytes", VBig 67108864);
  ("idleMillis", VNum 60000); ("lifetimeMillis", VNum 1800000); ("openedAtEpoch", VNum 100)].

Definition demo_accept : val := VObj ([
  ("version", VNum 1); ("previousRelayKey", key Byte.x01); ("previousDescriptorSequence", VBig 9);
  ("previousDescriptorHash", key Byte.x0f); ("nextRelayKey", key Byte.x21); ("nextDescriptorSequence", VBig 9);
  ("nextDescriptorHash", key Byte.x0f); ("nextRelayBinding", witnessed_binding Byte.x21 VNull);
  ("routeId", VBytes (replicate 16 Byte.x22)); ("circuitNonce", key Byte.x23); ("nextStreamId", VBig 5);
  ("grantedWireClass", VNum 1); ("circuitClass", VNum 2)] ++ demo_terms ++ [
  ("hopOpenCommitment", key Byte.x24); ("acceptedRouteScopeHash", key Byte.x25); ("acceptedRelayCount", VNum 2);
  ("handshakeFlight2", VBytes (replicate 96 Byte.x26)); ("nextSignature", VBytes (replicate 64 Byte.x27))]).

Definition demo_open_result : val := VObj ([
  ("version", VNum 1); ("relayBinding", demo_bound); ("routeId", VBytes (replicate 16 Byte.x22));
  ("nextDescriptorSequence", VBig 9); ("nextDescriptorHash", key Byte.x0f); ("circuitNonce", key Byte.x23);
  ("grantedWireClass", VNum 1); ("circuitClass", VNum 2); ("streamId", VBig 4)] ++ demo_terms ++ [
  ("requestCommitment", key Byte.x28); ("acceptedRouteScopeHash", key Byte.x25); ("acceptedRelayCount", VNum 2);
  ("nextHopAccept", demo_accept); ("signature", VBytes (replicate 64 Byte.x29))]).

Definition demo_open_bytes : bytes := Eval vm_compute in wire_of (encodeCanonical blindForwardOpenResultV1 demo_open_result).

Lemma open_result_agrees_witness : opened_circuit demo_open_result.
Proof. apply (open_result_agrees demo_open_bytes). vm_compute. reflexivity. Defined.

(** A chunk with ten bytes of content. *)
Definition demo_stream_chunk : val := VObj [
  ("version", VNum 1); ("wireClass", VNum 1); ("flags", VNum 1); ("contentLength", VNum 10);
  ("content", VBytes (replicate 10 Byte.x31)); ("randomPadding", VBytes (replicate 4063 Byte.x32))].

Definition demo_chunk_bytes : bytes := Eval vm_compute in wire_of (encodeCanonical blindStreamChunkPlainV1 demo_stream_chunk).

Lemma chunk_length_fixed_witness : exists size,
  table_get STREAM_WIRE_CLASS demo_stream_chunk.["wireClass"] = Some size /\ blen demo_chunk_bytes = size - 16 /\
  demo_chunk_bytes = chunk_header demo_stream_chunk ++ raw demo_stream_chunk.["content"] ++
    raw demo_stream_chunk.["randomPadding"] /\
  blen (raw demo_stream_chunk.["content"]) = num demo_stream_chunk.["contentLength"].
Proof. apply chunk_length_fixed. vm_compute. reflexivity. Defined.
End Demo.
