(* ===== verification/ResourceBudget.v ===== *)
(** * The daemon's resource budget (packages/blind-daemon/resource-budget.js)

    Every operation in flight holds a reservation of one item and some bytes. A
    share of both is kept for critical work, and single operations may have
    quotas of their own.

    The counters of an operation are one object that the map [byOperation] and
    the release closures of all its reservations share, and that the map drops
    when it is empty; so the model has a heap of counter objects, and a
    reservation keeps the location of its counter. *)

From Stdlib Require Import ZArith Lia Bool List String Ascii.
From stdpp Require Import base tactics list strings gmap fin_maps.
From S2P Require Import Prelude Codec Authority.

Module Budget.

Definition boundedInteger (value : val) (maximum : Z) : result Z :=
  match value with
  | VNum n => throw_if (negb (isSafeInteger n) || (n <? 1) || (maximum <? n)) TypeError ;;! Ok n
  | _ => Err TypeError
  end.

Definition nonnegativeInteger (value : val) : result Z :=
  match value with
  | VNum n => throw_if (negb (isSafeInteger n) || (n <? 0)) TypeError ;;! Ok n
  | _ => Err TypeError
  end.

(** The loop of [checkedTotal] from [total]. *)
Fixpoint checked_sum (total : Z) (values : list val) : result Z :=
  match values with
  | [] => Ok total
  | value :: rest =>
      let! checked := nonnegativeInteger value in
      throw_if (MAX_SAFE_INTEGER - checked <? total) TypeError ;;!
      checked_sum (total + checked) rest
  end.

Definition checkedTotal (values : list val) : result Z :=
  let! total := checked_sum 0 values in
  throw_if (total <? 1) TypeError ;;!
  Ok total.

(** [`${familyId}:${operationId}`] *)
Definition keyFor (familyId operationId : val) : string :=
  (decimal_name (num familyId) ++ ":" ++ decimal_name (num operationId))%string.

Record quota := Quota { q_maxItems : Z; q_maxBytes : Z }.

(** The object [{ items, bytes }] of an operation. *)
Record counter := Counter { c_items : Z; c_bytes : Z }.

(** What a release closure has captured. *)
Record reservation := Reservation {
  r_key : string; r_bytes : Z; r_critical : bool; r_current : nat; released : bool }.

Record ResourceBudget := MkBudget {
  maxItems : Z;
  maxBytes : Z;
  reservePercent : Z;
  reservedItems : Z;
  reservedBytes : Z;
  generalItemLimit : Z;
  generalByteLimit : Z;
  items : Z;
  bytes : Z;
  byOperation : gmap string nat;
  quotas : gmap string quota;
  (** the counter objects and the closures made so far *)
  counters : list counter;
  closures : list reservation
}.

(** [value == null ? otherwise : value] *)
Definition or_default (value : val) (otherwise : Z) : val := if nullish value then VNum otherwise else value.

(** [Math.max(1, Math.ceil(whole * percent / 100))]. The product is below 2^37,
    so the quotient of doubles is rounded by far less than its distance from
    the next integer, and [ceil] is exact. *)
Definition reserve_of (whole percent : Z) : Z := Z.max 1 (- (- (whole * percent) / 100)).

(** The loop over [options.operationQuotas]. *)
Fixpoint add_quotas (maxItems maxBytes : Z) (quotas : gmap string quota) (rest : list val) : result (gmap string quota) :=
  match rest with
  | [] => Ok quotas
  | q :: rest =>
      throw_if (falsy q || negb (isAdvertisedOperation q.["familyId"] q.["operationId"])) TypeError ;;!
      let key := keyFor q.["familyId"] q.["operationId"] in
      throw_if (bool_decide (is_Some (quotas !! key))) TypeError ;;!
      let! qi := boundedInteger q.["maxItems"] maxItems in
      let! qb := boundedInteger q.["maxBytes"] maxBytes in
      add_quotas maxItems maxBytes (<[key := Quota qi qb]> quotas) rest
  end.

(** [options.operationQuotas || []], to be iterated over. *)
Definition quota_list (value : val) : result (list val) :=
  match value with
  | VList l => Ok l
  | _ => if falsy value then Ok [] else Err TypeError
  end.

Definition newBudget (options : val) : result ResourceBudget :=
  let! maxItems := boundedInteger (or_default options.["maxItems"] 1024) 1000000 in
  let! maxBytes := boundedInteger (or_default options.["maxBytes"] (64 * 1024 * 1024)) (1024 * 1024 * 1024) in
  let! reservePercent :=
    match or_default options.["reservePercent"] 5 with
    | VNum n => throw_if ((n <? 5) || (50 <? n)) TypeError ;;! Ok n
    | _ => Err TypeError
    end in
  let reservedItems := reserve_of maxItems reservePercent in
  let reservedBytes := reserve_of maxBytes reservePercent in
  let! given := quota_list options.["operationQuotas"] in
  let! quotas := add_quotas maxItems maxBytes ∅ given in
  Ok (MkBudget maxItems maxBytes reservePercent reservedItems reservedBytes
        (Z.max 0 (maxItems - reservedItems)) (Z.max 0 (maxBytes - reservedBytes)) 0 0 ∅ quotas [] []).

(** [value ?? 0] *)
Definition or_zero (value : val) : val := if nullish value then VNum 0 else value.

(** The bytes an [acquire] asks for. *)
Definition requested_bytes (input : val) : result Z :=
  if nullish input.["bytes"] then
    checkedTotal [or_zero input.["requestBytes"]; or_zero input.["responseBytes"]; or_zero input.["stagingBytes"]]
  else boundedInteger input.["bytes"] MAX_SAFE_INTEGER.

(** The counter at a location. *)
Definition counter_at (this : ResourceBudget) (l : nat) : counter := nth l (counters this) (Counter 0 0).

(** [acquire]: the new state and the index of the reservation's closure. A
    throw leaves the budget as it was: every check precedes every update. *)
Definition acquire (this : ResourceBudget) (input : val) : result (ResourceBudget * nat) :=
  throw_if (falsy input || negb (isAdvertisedOperation input.["familyId"] input.["operationId"])) TypeError ;;!
  let! wanted := requested_bytes input in
  throw_if (maxBytes this <? wanted) BUSY ;;!
  let critical := is_true input.["critical"] in
  let itemLimit := if critical then maxItems this else generalItemLimit this in
  let byteLimit := if critical then maxBytes this else generalByteLimit this in
  throw_if ((itemLimit <? items this + 1) || (byteLimit <? bytes this + wanted)) BUSY ;;!
  let key := keyFor input.["familyId"] input.["operationId"] in
  let fresh := List.length (counters this) in
  let location := default fresh (byOperation this !! key) in
  let heap := match byOperation this !! key with Some _ => counters this | None => counters this ++ [Counter 0 0] end in
  let current := nth location heap (Counter 0 0) in
  throw_if (match quotas this !! key with
            | Some quota => (q_maxItems quota <? c_items current + 1) || (q_maxBytes quota <? c_bytes current + wanted)
            | None => false end) BUSY ;;!
  Ok (MkBudget (maxItems this) (maxBytes this) (reservePercent this) (reservedItems this) (reservedBytes this)
        (generalItemLimit this) (generalByteLimit this) (items this + 1) (bytes this + wanted)
        (<[key := location]> (byOperation this)) (quotas this)
        (<[location := Counter (c_items current + 1) (c_bytes current + wanted)]> heap)
        (closures this ++ [Reservation key wanted critical location false]),
      List.length (closures this)).

(** Calling the [release] of the [i]th reservation. *)
Definition release (this : ResourceBudget) (i : nat) : ResourceBudget :=
  match closures this !! i with
  | None => this
  | Some r =>
      if released r then this
      else
        let current := counter_at this (r_current r) in
        let current := Counter (c_items current - 1) (c_bytes current - r_bytes r) in
        MkBudget (maxItems this) (maxBytes this) (reservePercent this) (reservedItems this) (reservedBytes this)
          (generalItemLimit this) (generalByteLimit this) (items this - 1) (bytes this - r_bytes r)
          (if c_items current =? 0 then delete (r_key r) (byOperation this) else byOperation this)
          (quotas this)
          (<[r_current r := current]> (counters this))
          (<[i := Reservation (r_key r) (r_bytes r) (r_critical r) (r_current r) true]> (closures this))
  end.

(** [Math.max(items / maxItems, bytes / maxBytes) <= n / d]. The thresholds are
    at most two digits after the point and the denominators below 2^31, so
    comparing rounded quotients of doubles is comparing fractions. *)
Definition ratio_le (this : ResourceBudget) (n d : Z) : bool :=
  (items this * d <=? n * maxItems this) && (bytes this * d <=? n * maxBytes this).

Definition utilizationBand (this : ResourceBudget) : Z :=
  if ratio_le this 0 1 then 0
  else if ratio_le this 125 1000 then 1
  else if ratio_le this 25 100 then 2
  else if ratio_le this 5 10 then 3
  else if ratio_le this 7 10 then 4
  else if ratio_le this 85 100 then 5
  else if (items this <? maxItems this) && (bytes this <? maxBytes this) then 6
  else 7.

End Budget.
