(* ===== verification/BudgetLaws.v ===== *)
(** * What the resource budget guarantees

    The calls on a budget form a transition system; its states are the ones that
    acquisitions, failed or not, and releases in any order, repeated or not,
    lead to. *)

From Stdlib Require Import ZArith Lia Bool List String Ascii.
From stdpp Require Import base tactics list strings gmap fin_maps.
From S2P Require Import Prelude Codec Authority ResourceBudget.
Import Budget.

(** ** The transition system *)

Inductive call := Acquire (input : val) | Release (i : nat).

Definition step (this : ResourceBudget) (c : call) : ResourceBudget :=
  match c with
  | Acquire input => match acquire this input with Ok (next, _) => next | Err _ => this end
  | Release i => release this i
  end.

Inductive reachable (options : val) : ResourceBudget -> Prop :=
| reach_new b : newBudget options = Ok b -> reachable options b
| reach_step b c : reachable options b -> reachable options (step b c).

(** ** Sums over the reservations *)

Fixpoint total (f : reservation -> Z) (rs : list reservation) : Z :=
  match rs with [] => 0 | r :: rest => f r + total f rest end.

(** A reservation that has not been released, of a kind [p], weighed by [w]. *)
Definition held (p : reservation -> bool) (w : reservation -> Z) (r : reservation) : Z :=
  if negb (released r) && p r then w r else 0.

Definition everything (r : reservation) : bool := true.
Definition of_key (k : string) (r : reservation) : bool := String.eqb (r_key r) k.
Definition ordinary (r : reservation) : bool := negb (r_critical r).
Definition one (r : reservation) : Z := 1.

Definition held_items (this : ResourceBudget) (p : reservation -> bool) : Z := total (held p one) (closures this).
Definition held_bytes (this : ResourceBudget) (p : reservation -> bool) : Z := total (held p r_bytes) (closures this).

Lemma total_app f l l' : total f (l ++ l') = total f l + total f l'.
Proof. induction l as [|r l IH]; simpl; lia. Qed.

Lemma total_insert f l i r r' : l !! i = Some r -> total f (<[i := r']> l) = total f l - f r + f r'.
Proof.
  revert i; induction l as [|x l IH]; intros [|i] Hi; simplify_eq/=; [lia|]. rewrite (IH _ Hi). lia.
Qed.

Lemma total_nonneg f l : Forall (fun r => 0 <= f r) l -> 0 <= total f l.
Proof. induction 1; simpl; lia. Qed.

Lemma held_one_nonneg p l : 0 <= total (held p one) l.
Proof. apply total_nonneg. induction l; constructor; [unfold held, one; case_match; lia|done]. Qed.

Lemma total_le f g l : Forall (fun r => f r <= g r) l -> total f l <= total g l.
Proof. induction 1; simpl; lia. Qed.

Lemma held_none p l : total (held p one) l = 0 -> forall r, In r l -> p r = true -> released r = true.
Proof.
  induction l as [|x l IH]; [done|]. cbn [total]. pose proof (held_one_nonneg p l) as Hl. intros Hz r Hin Hp.
  assert (Hx : 0 <= held p one x) by (unfold held, one; case_match; lia).
  destruct Hin as [<-|Hin]; [|apply IH; [lia|done..]].
  destruct (released x) eqn:E; [done|].
  assert (held p one x = 1) by (unfold held; by rewrite E, Hp). lia.
Qed.

(** ** The invariant *)

(** The limits a constructed budget has. *)
Record sound_limits (b : ResourceBudget) : Prop := {
  item_split : generalItemLimit b + reservedItems b = maxItems b;
  byte_split : generalByteLimit b + reservedBytes b = maxBytes b;
  some_general : 0 <= generalItemLimit b /\ 0 <= generalByteLimit b;
  some_reserve : 1 <= reservedItems b /\ 1 <= reservedBytes b
}.

(** The counters of the operations agree with the reservations that are held. *)
Record accounts (b : ResourceBudget) : Prop := {
  items_exact : items b = held_items b everything;
  bytes_exact : bytes b = held_bytes b everything;
  per_operation k : match byOperation b !! k with
    | Some l => exists c, counters b !! l = Some c /\ c_items c = held_items b (of_key k) /\
        c_bytes c = held_bytes b (of_key k) /\ 1 <= c_items c
    | None => held_items b (of_key k) = 0 end
}.

Record within_limits (b : ResourceBudget) : Prop := {
  items_fit : items b <= maxItems b;
  bytes_fit : bytes b <= maxBytes b;
  ordinary_items_fit : held_items b ordinary <= generalItemLimit b;
  ordinary_bytes_fit : held_bytes b ordinary <= generalByteLimit b;
  quotas_fit k q : quotas b !! k = Some q ->
    held_items b (of_key k) <= q_maxItems q /\ held_bytes b (of_key k) <= q_maxBytes q
}.

Record shared_counters (b : ResourceBudget) : Prop := {
  positive : Forall (fun r => 1 <= r_bytes r) (closures b);
  current_shared r : In r (closures b) -> released r = false -> byOperation b !! r_key r = Some (r_current r);
  one_owner k k' l : byOperation b !! k = Some l -> byOperation b !! k' = Some l -> k = k'
}.

Record invariant (b : ResourceBudget) : Prop := {
  inv_limits : sound_limits b;
  inv_accounts : accounts b;
  inv_within : within_limits b;
  inv_shared : shared_counters b
}.

(** *** Construction *)

Lemma boundedInteger_ok v m n : boundedInteger v m = Ok n -> v = VNum n /\ 1 <= n <= m.
Proof. destruct v; try done. unfold boundedInteger, throw_if. intros Hq. repeat case_match; simplify_eq/=; b2p; split; [done|lia]. Qed.

Lemma reserve_bound whole percent : 1 <= whole -> 5 <= percent <= 50 -> 1 <= reserve_of whole percent <= whole.
Proof.
  intros Hw Hp. unfold reserve_of. set (n := whole * percent). assert (0 <= n <= whole * 50) by (unfold n; nia).
  pose proof (Z.div_mod (- n) 100 ltac:(lia)). pose proof (Z.mod_pos_bound (- n) 100 ltac:(lia)). lia.
Qed.

Lemma add_quotas_ok mi mb qs rest res : add_quotas mi mb qs rest = Ok res ->
  map_Forall (fun _ q => 1 <= q_maxItems q /\ 1 <= q_maxBytes q) qs ->
  map_Forall (fun _ q => 1 <= q_maxItems q /\ 1 <= q_maxBytes q) res.
Proof.
  revert qs; induction rest as [|q rest IH]; intros qs Hq Hall; simpl in Hq; [by simplify_eq|].
  apply bindR_ok in Hq as (? & _ & Hq). apply bindR_ok in Hq as (? & _ & Hq).
  apply bindR_ok in Hq as (qi & [_ Hi]%boundedInteger_ok & Hq). apply bindR_ok in Hq as (qb & [_ Hb]%boundedInteger_ok & Hq).
  apply IH in Hq; [done|]. apply map_Forall_insert_2; [simpl; lia|done].
Qed.

Lemma new_invariant options b : newBudget options = Ok b -> invariant b.
Proof.
  intros Hq. unfold newBudget in Hq. apply bindR_ok in Hq as (mi & [_ Hi]%boundedInteger_ok & Hq).
  apply bindR_ok in Hq as (mb & [_ Hb]%boundedInteger_ok & Hq). apply bindR_ok in Hq as (rp & Hp & Hq).
  assert (5 <= rp <= 50).
  { destruct (or_default _ _); try done. apply bindR_ok in Hp as (? & Hr & Hp). apply throw_if_ok in Hr. simplify_eq/=. b2p. lia. }
  apply bindR_ok in Hq as (given & _ & Hq). apply bindR_ok in Hq as (qs & Hqs & Hq). simplify_eq/=.
  apply add_quotas_ok in Hqs; [|apply map_Forall_empty].
  pose proof (reserve_bound mi rp ltac:(lia) ltac:(lia)). pose proof (reserve_bound mb rp ltac:(lia) ltac:(lia)).
  split; split; unfold held_items, held_bytes; cbn; try lia; try done.
  intros k q Hk. apply Hqs in Hk. lia.
Qed.

(** *** Acquisition *)

Lemma held_zero p w l : total (held p one) l = 0 -> total (held p w) l = 0.
Proof.
  intros Hz. pose proof (held_none p l Hz) as Hr. clear Hz. induction l as [|r l IH]; [done|]. cbn [total].
  rewrite IH by (intros r' Hin; apply Hr; by right). unfold held. destruct (p r) eqn:E; [|by rewrite andb_false_r].
  by rewrite (Hr r (or_introl eq_refl) E).
Qed.

(** Where the counter of [key] is, and the heap with it in. *)
Definition location_of (b : ResourceBudget) (key : string) : nat :=
  default (List.length (counters b)) (byOperation b !! key).
Definition heap_with (b : ResourceBudget) (key : string) : list counter :=
  match byOperation b !! key with Some _ => counters b | None => counters b ++ [Counter 0 0] end.

Lemma current_counter b key : accounts b -> shared_counters b ->
  heap_with b key !! location_of b key =
    Some (Counter (held_items b (of_key key)) (held_bytes b (of_key key))) /\
  forall k l, k <> key -> byOperation b !! k = Some l -> l <> location_of b key /\ heap_with b key !! l = counters b !! l.
Proof.
  intros [_ _ Ha] [_ _ Hone]. pose proof (Ha key) as Hk. unfold heap_with, location_of.
  destruct (byOperation b !! key) as [l|] eqn:E; simpl.
  - destruct Hk as ([ci cb] & Hc & Hi & Hb & _). simpl in *. split; [by subst|]. intros k l' Hne Hl. split; [|done].
    intros ->. by apply Hne, (Hone k key l).
  - split.
    + rewrite lookup_app_r, Nat.sub_diag by lia. unfold held_bytes. rewrite (held_zero _ r_bytes _ Hk).
      unfold held_items in *. by rewrite Hk.
    + intros k l Hne Hl. specialize (Ha k). rewrite Hl in Ha. destruct Ha as (c & Hc & _).
      apply lookup_lt_Some in Hc as Hlt. split; [lia|]. by rewrite lookup_app_l.
Qed.

(** What a successful acquisition has checked and done. *)
Record acquired (b : ResourceBudget) (input : val) (b' : ResourceBudget) (i : nat) (wanted : Z) (key : string) : Prop := {
  acq_advertised : isAdvertisedOperation input.["familyId"] input.["operationId"] = true;
  acq_key : key = keyFor input.["familyId"] input.["operationId"];
  acq_wanted : requested_bytes input = Ok wanted;
  acq_items : items b + 1 <= if is_true input.["critical"] then maxItems b else generalItemLimit b;
  acq_bytes : bytes b + wanted <= if is_true input.["critical"] then maxBytes b else generalByteLimit b;
  acq_quota q : quotas b !! key = Some q ->
    let c := nth (location_of b key) (heap_with b key) (Counter 0 0) in
    c_items c + 1 <= q_maxItems q /\ c_bytes c + wanted <= q_maxBytes q;
  acq_handle : i = List.length (closures b);
  acq_state : let c := nth (location_of b key) (heap_with b key) (Counter 0 0) in
    b' = MkBudget (maxItems b) (maxBytes b) (reservePercent b) (reservedItems b) (reservedBytes b)
        (generalItemLimit b) (generalByteLimit b) (items b + 1) (bytes b + wanted)
        (<[key := location_of b key]> (byOperation b)) (quotas b)
        (<[location_of b key := Counter (c_items c + 1) (c_bytes c + wanted)]> (heap_with b key))
        (closures b ++ [Reservation key wanted (is_true input.["critical"]) (location_of b key) false])
}.

Lemma acquire_ok b input b' i : acquire b input = Ok (b', i) -> exists wanted key, acquired b input b' i wanted key.
Proof.
  unfold acquire. intros Hq. apply bindR_ok in Hq as (? & Ha & Hq). apply throw_if_ok in Ha. b2p.
  apply bindR_ok in Hq as (wanted & Hw & Hq). apply bindR_ok in Hq as (? & Hm & Hq). apply throw_if_ok in Hm.
  apply bindR_ok in Hq as (? & Hl & Hq). apply throw_if_ok in Hl. apply bindR_ok in Hq as (? & Hqt & Hq).
  apply throw_if_ok in Hqt. injection Hq as <- <-. eexists wanted, _. split; try done; b2p; try lia.
  intros q Hk. cbn zeta in *. unfold location_of, heap_with. rewrite Hk in Hqt. b2p. lia.
Qed.

Lemma requested_positive input n : requested_bytes input = Ok n -> 1 <= n.
Proof.
  unfold requested_bytes. destruct (nullish _); [|intros Hq; apply boundedInteger_ok in Hq; lia].
  intros Hq. apply bindR_ok in Hq as (t & _ & Hq). apply bindR_ok in Hq as (? & Ht & Hq). apply throw_if_ok in Ht.
  injection Hq as <-. b2p. lia.
Qed.

(** One more reservation. *)
Lemma held_snoc p w b r : total (held p w) (closures b ++ [r]) = total (held p w) (closures b) + held p w r.
Proof. rewrite total_app. cbn [total]. lia. Qed.

Lemma of_key_held k w r : released r = false -> held (of_key k) w r = if String.eqb (r_key r) k then w r else 0.
Proof. intros Hr. unfold held, of_key. by rewrite Hr. Qed.

Lemma ordinary_le w l : Forall (fun r => 0 <= w r) l -> total (held ordinary w) l <= total (held everything w) l.
Proof.
  intros Hw. apply total_le. eapply Forall_impl; [exact Hw|]. intros r Hr. unfold held, everything, ordinary.
  cbn beta in *. destruct (released r), (r_critical r); cbn; lia.
Qed.

Lemma acquire_invariant b input b' i : invariant b -> acquire b input = Ok (b', i) -> invariant b'.
Proof.
  intros [[Hsi Hsb Hg Hr] Hacc [Wi Wb Woi Wob Wq] Hsh] Hq. apply acquire_ok in Hq as (n & key & [_ _ Hn Hi Hb Hqt -> ->]).
  apply requested_positive in Hn. pose proof (current_counter b key Hacc Hsh) as [Hcur Hoth].
  rewrite (nth_lookup_Some _ _ _ _ Hcur) in *. cbn [c_items c_bytes] in *.
  set (r := Reservation key n _ _ false). set (heap := heap_with b key) in *. set (loc := location_of b key) in *.
  destruct Hacc as [Ai Ab Ak]. destruct Hsh as [Hpos Hcs Hone].
  split; split; unfold held_items, held_bytes in *; cbn -[total held] in *; try done.
  - rewrite held_snoc, Ai. done.
  - rewrite held_snoc, Ab. done.
  - intros k. destruct (decide (k = key)) as [->|Hne].
    + rewrite lookup_insert_eq. eexists. split; [apply list_lookup_insert_eq; by eapply lookup_lt_Some|].
      rewrite !held_snoc, !of_key_held by done. cbn. rewrite String.eqb_refl. change (one r) with 1.
      pose proof (held_one_nonneg (of_key key) (closures b)). lia.
    + rewrite lookup_insert_ne by done. rewrite !held_snoc, !of_key_held by done. cbn.
      rewrite (proj2 (String.eqb_neq key k)), !Z.add_0_r by done. specialize (Ak k).
      destruct (byOperation b !! k) as [l|] eqn:E; [|done]. destruct (Hoth k l Hne E) as [Hl Hh].
      rewrite list_lookup_insert_ne, Hh by done. done.
  - destruct (is_true _); lia.
  - destruct (is_true _); lia.
  - rewrite held_snoc. replace (held ordinary one r) with (if is_true input.["critical"] then 0 else 1) by (unfold held, ordinary, one; cbn; by destruct (is_true _)).
    destruct (is_true _) eqn:Ec; [lia|].
    pose proof (ordinary_le one (closures b)) as Ho. specialize (Ho ltac:(apply Forall_true; unfold one; lia)).
    lia.
  - rewrite held_snoc. replace (held ordinary r_bytes r) with (if is_true input.["critical"] then 0 else n) by (unfold held, ordinary; cbn; by destruct (is_true _)).
    destruct (is_true _); [lia|].
    pose proof (ordinary_le r_bytes (closures b)) as Ho.
    specialize (Ho ltac:(eapply Forall_impl; [exact Hpos|]; intros; cbn beta in *; lia)). lia.
  - intros k q Hk. specialize (Wq k q Hk). rewrite !held_snoc, !of_key_held by done. cbn. change (one r) with 1.
    destruct (String.eqb key k) eqn:E; [|lia]. apply String.eqb_eq in E as <-. specialize (Hqt q Hk). lia.
  - apply Forall_app. split; [done|]. repeat constructor. done.
  - intros r' [Hin|[<-|[]]]%in_app_or Hr'; [|by rewrite lookup_insert_eq].
    destruct (decide (r_key r' = key)) as [<-|Hne]; [|rewrite lookup_insert_ne by done; by apply Hcs].
    rewrite lookup_insert_eq. unfold loc, location_of. by rewrite (Hcs r' Hin Hr').
  - intros k k' l Hk Hk'.
    assert (Hs : forall k'', k'' <> key -> byOperation b !! k'' = Some l -> loc <> l)
      by (intros k'' Hne Hl ->; by destruct (Hoth _ _ Hne Hl)).
    destruct (decide (k = key)) as [->|Hk1], (decide (k' = key)) as [->|Hk2]; [done|..];
      repeat rewrite lookup_insert_eq in *; repeat rewrite lookup_insert_ne in * by done; simplify_eq;
      [by destruct (Hs k')|by destruct (Hs k)|by apply (Hone k k' l)].
Qed.

(** *** Release *)

Definition closed_of (r : reservation) : reservation := Reservation (r_key r) (r_bytes r) (r_critical r) (r_current r) true.

Lemma held_released p w (l : list reservation) i r : l !! i = Some r -> released r = false ->
  total (held p w) (<[i := closed_of r]> l) = total (held p w) l - (if p r then w r else 0).
Proof. intros Hi Hr. rewrite (total_insert _ _ _ _ _ Hi). unfold held. rewrite Hr. cbn. lia. Qed.

Lemma in_insert {A} (l : list A) i x y : In y (<[i := x]> l) -> y = x \/ In y l.
Proof.
  intros [j Hj]%list_elem_of_In%list_elem_of_lookup_1. destruct (decide (i = j)) as [->|Hne].
  - apply list_lookup_insert_Some in Hj as [(_ & -> & _)|[? _]]; [by left|done].
  - rewrite list_lookup_insert_ne in Hj by done. right. by eapply list_elem_of_In, list_elem_of_lookup_2.
Qed.

Lemma release_invariant b i : invariant b -> invariant (release b i).
Proof.
  intros Hinv. unfold release. destruct (closures b !! i) as [r|] eqn:Hi; [|done].
  destruct (released r) eqn:Hr; [done|]. fold (closed_of r).
  destruct Hinv as [[Hsi Hsb Hg Hrs] [Ai Ab Ak] [Wi Wb Woi Wob Wq] [Hpos Hcs Hone]].
  assert (Hin : In r (closures b)) by (by eapply list_elem_of_In, list_elem_of_lookup_2).
  pose proof (Hcs r Hin Hr) as Hloc. pose proof (Ak (r_key r)) as Hk. rewrite Hloc in Hk.
  destruct Hk as (c & Hc & Hci & Hcb & Hc1).
  assert (Hn : 1 <= r_bytes r) by (rewrite List.Forall_forall in Hpos; by apply Hpos).
  unfold counter_at. rewrite (nth_lookup_Some _ _ _ _ Hc). cbn [c_items c_bytes].
  assert (Hself : of_key (r_key r) r = true) by apply String.eqb_refl.
  assert (Hgone : c_items c - 1 = 0 -> forall r', In r' (<[i:=closed_of r]> (closures b)) -> released r' = false ->
    r_key r' <> r_key r).
  { intros Hz r' Hr' Hl Hke. assert (Hx : released r' = true); [|congruence].
    apply (held_none (of_key (r_key r)) (<[i:=closed_of r]> (closures b))); [|done|by apply String.eqb_eq].
    rewrite (held_released _ _ _ _ _ Hi Hr), Hself. unfold held_items, one in *. lia. }
  split; split; unfold held_items, held_bytes in *; cbn -[total held] in *; try done; try lia.
  - rewrite (held_released _ _ _ _ _ Hi Hr). cbn. unfold one at 2. lia.
  - rewrite (held_released _ _ _ _ _ Hi Hr). cbn. lia.
  - intros k. rewrite !(held_released _ _ _ _ _ Hi Hr). destruct (decide (k = r_key r)) as [->|Hne].
    + rewrite Hself. change (one r) with 1. destruct (c_items c - 1 =? 0) eqn:E; b2p.
      * rewrite lookup_delete_eq. lia.
      * rewrite Hloc. eexists. split; [apply list_lookup_insert_eq; by eapply lookup_lt_Some|]. cbn.
        pose proof (held_one_nonneg (of_key (r_key r)) (closures b)). lia.
    + replace (of_key k r) with false by (symmetry; apply String.eqb_neq; congruence). rewrite !Z.sub_0_r.
      replace ((if c_items c - 1 =? 0 then delete (r_key r) (byOperation b) else byOperation b) !! k) with (byOperation b !! k)
        by (destruct (_ =? _); [by rewrite lookup_delete_ne|done]).
      specialize (Ak k). destruct (byOperation b !! k) as [l|] eqn:El; [|done].
      rewrite list_lookup_insert_ne; [done|]. intros <-. by apply Hne, (Hone k (r_key r) (r_current r)).
  - rewrite (held_released _ _ _ _ _ Hi Hr). unfold one at 2. destruct (ordinary r); lia.
  - rewrite (held_released _ _ _ _ _ Hi Hr). destruct (ordinary r); lia.
  - intros k q Hkq. specialize (Wq k q Hkq). rewrite !(held_released _ _ _ _ _ Hi Hr). unfold one at 2. destruct (of_key k r); lia.
  - apply Forall_insert; [done|]. done.
  - intros r' Hr' Hl. pose proof Hr' as [->|Ho]%in_insert; [done|]. pose proof (Hcs r' Ho Hl) as Hs.
    destruct (c_items c - 1 =? 0) eqn:E; [|done]. b2p. rewrite lookup_delete_ne; [done|]. intros Hke. by apply (Hgone E r' Hr' Hl).
  - intros k k' l Hl Hl'. apply (Hone k k' l); destruct (c_items c - 1 =? 0); try done;
      [by apply lookup_delete_Some in Hl as [_ ?]|by apply lookup_delete_Some in Hl' as [_ ?]].
Qed.

Lemma reachable_invariant options b : reachable options b -> invariant b.
Proof.
  induction 1 as [b Hb|b c _ IH]; [by eapply new_invariant|]. destruct c as [input|i]; simpl.
  - destruct (acquire b input) as [[b' i]|] eqn:E; [|done]. by eapply acquire_invariant.
  - by apply release_invariant.
Qed.

(** ** Properties *)

Definition idle (b : ResourceBudget) : Prop := forall r, In r (closures b) -> released r = true.

Lemma idle_held p w b : idle b -> total (held p w) (closures b) = 0.
Proof.
  unfold idle. induction (closures b) as [|r l IH]; intros Hi; [done|]. cbn [total]. rewrite IH by (intros; apply Hi; by right).
  unfold held. by rewrite (Hi r (or_introl eq_refl)).
Qed.

Lemma idle_iff b : invariant b -> idle b <-> items b = 0.
Proof.
  intros Hinv. rewrite (items_exact _ (inv_accounts _ Hinv)). unfold held_items. split; [apply idle_held|].
  intros Hz r Hin. by eapply held_none.
Qed.

Lemma band_idle b : invariant b -> utilizationBand b = 0 <-> idle b.
Proof.
  intros Hinv. rewrite (idle_iff b Hinv). pose proof (inv_accounts _ Hinv) as [Ai Ab _].
  pose proof (held_one_nonneg everything (closures b)) as Hi0. unfold held_items, held_bytes in *.
  assert (Hb0 : items b = 0 -> bytes b = 0) by (intros Hz; rewrite Ab; apply held_zero; lia).
  unfold utilizationBand, ratio_le. rewrite !Z.mul_1_r. split.
  - intros Hq. destruct (_ && _) eqn:E in Hq; [b2p; lia|]. exfalso. repeat (case_match; [done|]). done.
  - intros Hz. rewrite Hz, (Hb0 Hz). done.
Qed.

(** C37: The daemon's books balance. After any sequence of acquisitions, refused
    or granted, and releases, in any order and repeated at will, the totals and
    the counter of every operation are exactly the sums over the reservations
    that are still held; no limit, no quota and no share of ordinary work is
    exceeded; and when everything has been released the budget is empty and
    reports band zero, and only then. *)
Theorem budget_balances options b : reachable options b ->
  accounts b /\ within_limits b /\ (utilizationBand b = 0 <-> idle b) /\
  (idle b -> items b = 0 /\ bytes b = 0 /\ byOperation b = ∅).
Proof.
  intros Hinv%reachable_invariant. pose proof Hinv as [_ Ha Hw Hs]. split; [done|]. split; [done|]. split; [by apply band_idle|].
  intros Hidle. destruct Ha as [Ai Ab Ak]. rewrite Ai, Ab. unfold held_items, held_bytes. rewrite !idle_held by done.
  split; [done|]. split; [done|]. apply map_empty. intros k. specialize (Ak k). destruct (byOperation b !! k); [|done].
  destruct Ak as (c & _ & Hc & _ & Hp). unfold held_items in Hc. rewrite idle_held in Hc by done. lia.
Qed.

Definition critical (r : reservation) : bool := r_critical r.

Lemma held_split w l : total (held everything w) l = total (held ordinary w) l + total (held critical w) l.
Proof.
  induction l as [|r l IH]; [done|]. cbn [total]. rewrite IH. unfold held, everything, ordinary, critical.
  destruct (released r), (r_critical r); cbn; lia.
Qed.

Lemma held_bytes_nonneg p l : Forall (fun r => 1 <= r_bytes r) l -> 0 <= total (held p r_bytes) l.
Proof. intros Hl. apply total_nonneg. eapply Forall_impl; [exact Hl|]. intros r Hr. cbn beta in *. unfold held. case_match; lia. Qed.

(** Ordinary work cannot starve critical work: however the budget has been
    used, a critical acquisition for an advertised operation with no quota of
    its own succeeds as long as critical work, itself included, stays within
    the reserved items and bytes. *)
Theorem critical_reserve options b input n : reachable options b ->
  isAdvertisedOperation input.["familyId"] input.["operationId"] = true ->
  input.["critical"] = VBool true -> requested_bytes input = Ok n ->
  quotas b !! keyFor input.["familyId"] input.["operationId"] = None ->
  held_items b critical + 1 <= reservedItems b -> held_bytes b critical + n <= reservedBytes b ->
  exists b' i, acquire b input = Ok (b', i).
Proof.
  intros [[Hi Hb Hg _] [Ai Ab _] [_ _ Woi Wob _] [Hpos _ _]]%reachable_invariant Hadv Hcrit Hn Hq Hci Hcb.
  assert (Hf : falsy input = false) by (by destruct input).
  unfold held_items, held_bytes in *. rewrite held_split in Ai, Ab.
  pose proof (held_bytes_nonneg critical _ Hpos). assert (Hm : n <= maxBytes b) by lia.
  unfold acquire. rewrite Hf, Hadv, Hn, Hcrit. cbn [is_true orb negb throw_if bindR].
  rewrite (proj2 (Z.ltb_ge _ _) Hm). cbn [throw_if bindR].
  replace (maxItems b <? items b + 1) with false by (symmetry; apply Z.ltb_ge; lia).
  replace (maxBytes b <? bytes b + n) with false by (symmetry; apply Z.ltb_ge; lia).
  cbn [orb throw_if bindR]. rewrite Hq. cbn. eauto.
Qed.

(** ** Examples *)

Definition demo_options : val := VObj [("maxItems", VNum 10); ("maxBytes", VNum 1000); ("reservePercent", VNum 20);
  ("operationQuotas", VList [VObj [("familyId", VNum 2); ("operationId", VNum 2); ("maxItems", VNum 1); ("maxBytes", VNum 500)]])].

Definition demo_ask (operation bytes : Z) (critical : bool) : val := VObj [
  ("familyId", VNum 2); ("operationId", VNum operation); ("requestBytes", VNum bytes); ("responseBytes", VNum 1);
  ("critical", VBool critical)].

(** Two puts fill the ordinary share, a third and a second get are refused, and
    the first put is released twice. *)
Definition demo_calls : list call := [Acquire (demo_ask 1 399 false); Acquire (demo_ask 2 299 false);
  Acquire (demo_ask 1 499 false); Acquire (demo_ask 2 9 false); Release 0; Release 0; Acquire (demo_ask 1 480 false)].

Definition demo_budget : ResourceBudget :=
  match newBudget demo_options with Ok b => fold_left step demo_calls b | Err _ => MkBudget 0 0 0 0 0 0 0 0 0 ∅ ∅ [] [] end.

Lemma demo_budget_reachable : reachable demo_options demo_budget.
Proof.
  unfold demo_budget. destruct (newBudget demo_options) as [b|] eqn:E; [|done].
  apply reach_new in E. revert E. generalize b. induction demo_calls as [|c l IH]; intros b' Hb'; [done|].
  apply IH. by apply reach_step.
Qed.

Lemma budget_balances_witness : items demo_budget = 2 /\ bytes demo_budget = 781 /\
  accounts demo_budget /\ within_limits demo_budget.
Proof.
  split; [reflexivity|]. split; [reflexivity|].
  destruct (budget_balances demo_options demo_budget demo_budget_reachable) as (Ha & Hw & _). exact (conj Ha Hw).
Defined.

Lemma critical_reserve_witness : (exists e, acquire demo_budget (demo_ask 1 100 false) = Err e) /\
  exists b' i, acquire demo_budget (demo_ask 1 100 true) = Ok (b', i).
Proof.
  split; [exists BUSY; vm_compute; reflexivity|].
  apply (critical_reserve demo_options demo_budget (demo_ask 1 100 true) 101 demo_budget_reachable);
    [vm_compute; reflexivity..|vm_compute; discriminate|vm_compute; discriminate].
Defined.
