(* ===== verification/StreamSession.v ===== *)
(** * Stream sessions (packages/blind-daemon/stream-session.js)

    A stream lives in a scope: an object with byte and time limits that the
    plane's map of sessions, the records of its tickets, its timer and the
    closures that release its buffers all refer to. The state of the model is
    therefore a heap of scopes with the plane's own fields; an operation on a
    scope takes its location.

    The clock, the readiness check and the entropy source are hooks of the
    constructor. They may answer anything on any call, so each is a function of
    the number of hook calls made so far ([ticks]), which the state counts. A
    hook that itself calls back into the plane is not modelled, nor are the
    abort listeners and the user's [onClose], which runs after the operation
    that closed the stream; [closings] records that it was called. *)

From Stdlib Require Import ZArith Lia Bool List String Ascii.
From Stdlib Require Import Strings.Byte.
From stdpp Require Import base tactics list strings.
From S2P Require Import Prelude Codec Authority Hashes.

Module Stream.

Definition DEFAULT_MAX_STREAMS : Z := 1024.
Definition DEFAULT_MAX_PENDING_TICKETS : Z := 1024.
Definition DEFAULT_MAX_BUFFERED_BYTES : Z := 64 * 1024 * 1024.
Definition DEFAULT_MAX_STREAM_BUFFERED_BYTES : Z := 1024 * 1024 + 65535.
Definition DEFAULT_TICKET_TTL_MILLIS : Z := 2000.
Definition TICKET_BYTES : Z := 32.
Definition BINDING_DOMAIN : bytes := ascii_bytes "hiverelay.blind.private-stream-ticket-binding.v1".

(** ** Argument checks *)

(** [None] is the fallback [null]. *)
Definition positiveInteger (value : val) (fallback : option Z) : result (option Z) :=
  if nullish value then Ok fallback
  else match value with
       | VNum n => throw_if (negb (isSafeInteger n) || (n <? 1)) TypeError ;;! Ok (Some n)
       | _ => Err TypeError
       end.

Definition positiveOr (value : val) (fallback : Z) : result Z :=
  let! n := positiveInteger value (Some fallback) in Ok (default fallback n).

Definition u64 (value : val) : result Z :=
  let! value :=
    match value with
    | VNum n => fail_if (negb (isSafeInteger n) || (n <? 0)) ;;! Ok (VBig n)
    | _ => Ok value
    end in
  match value with
  | VBig n => fail_if ((n <? 0) || (MAX_U64 <? n)) ;;! Ok n
  | _ => Err BAD_ENCODING
  end.

Definition encodeU64 (value : val) : result bytes :=
  let! value := u64 value in Ok (writeU64 (replicate 8 Byte.x00) value 0 false).

Definition bytes_within (value : val) (minimum maximum : Z) : result bytes :=
  let! output := match value with
                 | VStr s => Ok (ascii_bytes s)
                 | VBytes bs => Ok bs
                 | _ => Err BAD_ENCODING end in
  fail_if ((blen output <? minimum) || (maximum <? blen output)) ;;!
  Ok output.

Definition fixed32 (value : val) : result bytes := bytes_within value 32 32.

Record readiness := Readiness {
  descriptorSequence : Z; descriptorHash : bytes; expiresMonotonicMillis : Z }.

Definition normalizeReadiness (value : val) (now : Z) : result readiness :=
  throw_if (negb (is_object value)) EXPIRED ;;!
  let! descriptorSequence := u64 value.["descriptorSequence"] in
  let! descriptorHash := fixed32 value.["descriptorHash"] in
  let! expires := u64 value.["expiresMonotonicMillis"] in
  throw_if (expires <=? now) EXPIRED ;;!
  Ok (Readiness descriptorSequence descriptorHash expires).

Definition stream_family (family : val) : bool := is_num family FAMILY_CORE || is_num family FAMILY_FORWARD.

(** [`${family}:${streamId}`] *)
Definition key_text (family streamId : Z) : string := (decimal_name family ++ ":" ++ decimal_name streamId)%string.

Definition streamKey (family streamId : val) : result string :=
  fail_if (negb (stream_family family)) ;;!
  let! streamId := u64 streamId in
  fail_if (streamId =? 0) ;;!
  Ok (key_text (num family) streamId).

(** What a ticket is bound to: the preimage of [streamTicketBinding]. *)
Definition bindingPreimage (value : val) : result bytes :=
  fail_if (negb (is_object value)) ;;!
  let family := value.["family"] in
  fail_if (negb (stream_family family)) ;;!
  let! parentSessionId := bytes_within value.["parentSessionId"] 1 256 in
  fail_if (0xffff <? blen parentSessionId) ;;!
  let! streamId := u64 value.["streamId"] in
  fail_if (streamId =? 0) ;;!
  let parentLength := [z2b (js_ushr (blen parentSessionId) 8); z2b (js_and (blen parentSessionId) 0xff)] in
  Hash.concat [
    Ok BINDING_DOMAIN;
    Ok [z2b (num family)];
    encodeU64 (VBig streamId);
    encodeU64 value.["descriptorSequence"];
    fixed32 value.["descriptorHash"];
    Ok parentLength;
    Ok parentSessionId].

(** ** The state *)

Record ticket := Ticket {
  bindingHash : bytes; scopeId : string; payload : nat; ticketExpires : Z }.

(** A buffer reservation; the set [reservations] of a scope holds the active
    ones. *)
Record reservation := Reservation { active : bool; length : Z }.

(** A timer handle: its delay and whether it is still scheduled. *)
Record timer := Timer { delay : Z; scheduled : bool }.

Record StreamScope := MkScope {
  family : Z;
  streamId : Z;
  key : string;
  maxBytes : Z;
  maxBufferedBytes : Z;
  idleMillis : Z;
  lifetimeMillis : Z;
  ready : readiness;
  metadata : val;
  openedMonotonicMillis : Z;
  lastActivityMonotonicMillis : Z;
  totalBytes : Z;
  bufferedBytes : Z;
  reservations : list reservation;
  aborted : bool;
  closed : bool;
  closeReason : option string;
  closePromise : bool;
  timerField : option timer
}.

Record plane := Plane {
  maxStreams : Z;
  planeMaxBufferedBytes : Z;
  maxPerStreamBufferedBytes : Z;
  maxTickets : Z;
  ttlMillis : Z;
  (** [this.sessions], in insertion order *)
  sessions : list (string * nat);
  planeBufferedBytes : Z;
  closing : bool;
  (** [this.tickets.records], keyed by the token (its hex text in the source) *)
  records : list (bytes * ticket);
  (** every scope made so far, the hook calls made so far, the [onClose] calls *)
  scopes : list StreamScope;
  ticks : nat;
  closings : list (nat * string)
}.

(** Updates of single fields. *)
Definition set_sessions (x : list (string * nat)) (p : plane) : plane :=
  Plane (maxStreams p) (planeMaxBufferedBytes p) (maxPerStreamBufferedBytes p) (maxTickets p) (ttlMillis p) x
    (planeBufferedBytes p) (closing p) (records p) (scopes p) (ticks p) (closings p).
Definition set_planeBufferedBytes (x : Z) (p : plane) : plane :=
  Plane (maxStreams p) (planeMaxBufferedBytes p) (maxPerStreamBufferedBytes p) (maxTickets p) (ttlMillis p) (sessions p)
    x (closing p) (records p) (scopes p) (ticks p) (closings p).
Definition set_closing (x : bool) (p : plane) : plane :=
  Plane (maxStreams p) (planeMaxBufferedBytes p) (maxPerStreamBufferedBytes p) (maxTickets p) (ttlMillis p) (sessions p)
    (planeBufferedBytes p) x (records p) (scopes p) (ticks p) (closings p).
Definition set_records (x : list (bytes * ticket)) (p : plane) : plane :=
  Plane (maxStreams p) (planeMaxBufferedBytes p) (maxPerStreamBufferedBytes p) (maxTickets p) (ttlMillis p) (sessions p)
    (planeBufferedBytes p) (closing p) x (scopes p) (ticks p) (closings p).
Definition set_scopes (x : list StreamScope) (p : plane) : plane :=
  Plane (maxStreams p) (planeMaxBufferedBytes p) (maxPerStreamBufferedBytes p) (maxTickets p) (ttlMillis p) (sessions p)
    (planeBufferedBytes p) (closing p) (records p) x (ticks p) (closings p).
Definition set_ticks (x : nat) (p : plane) : plane :=
  Plane (maxStreams p) (planeMaxBufferedBytes p) (maxPerStreamBufferedBytes p) (maxTickets p) (ttlMillis p) (sessions p)
    (planeBufferedBytes p) (closing p) (records p) (scopes p) x (closings p).
Definition set_closings (x : list (nat * string)) (p : plane) : plane :=
  Plane (maxStreams p) (planeMaxBufferedBytes p) (maxPerStreamBufferedBytes p) (maxTickets p) (ttlMillis p) (sessions p)
    (planeBufferedBytes p) (closing p) (records p) (scopes p) (ticks p) x.

Definition with_lastActivity (x : Z) (s : StreamScope) : StreamScope :=
  MkScope (family s) (streamId s) (key s) (maxBytes s) (maxBufferedBytes s) (idleMillis s) (lifetimeMillis s) (ready s)
    (metadata s) (openedMonotonicMillis s) x (totalBytes s) (bufferedBytes s) (reservations s) (aborted s) (closed s)
    (closeReason s) (closePromise s) (timerField s).
Definition with_totalBytes (x : Z) (s : StreamScope) : StreamScope :=
  MkScope (family s) (streamId s) (key s) (maxBytes s) (maxBufferedBytes s) (idleMillis s) (lifetimeMillis s) (ready s)
    (metadata s) (openedMonotonicMillis s) (lastActivityMonotonicMillis s) x (bufferedBytes s) (reservations s) (aborted s)
    (closed s) (closeReason s) (closePromise s) (timerField s).
Definition with_timer (x : option timer) (s : StreamScope) : StreamScope :=
  MkScope (family s) (streamId s) (key s) (maxBytes s) (maxBufferedBytes s) (idleMillis s) (lifetimeMillis s) (ready s)
    (metadata s) (openedMonotonicMillis s) (lastActivityMonotonicMillis s) (totalBytes s) (bufferedBytes s) (reservations s)
    (aborted s) (closed s) (closeReason s) (closePromise s) x.
Definition with_buffer (buffered : Z) (rs : list reservation) (s : StreamScope) : StreamScope :=
  MkScope (family s) (streamId s) (key s) (maxBytes s) (maxBufferedBytes s) (idleMillis s) (lifetimeMillis s) (ready s)
    (metadata s) (openedMonotonicMillis s) (lastActivityMonotonicMillis s) (totalBytes s) buffered rs
    (aborted s) (closed s) (closeReason s) (closePromise s) (timerField s).

Definition no_readiness : readiness := Readiness 0 [] 0.
Definition no_scope : StreamScope :=
  MkScope 0 0 "" 0 0 0 0 no_readiness VUndef 0 0 0 0 [] true true None true None.

(** The scope at a location. *)
Definition scope_at (p : plane) (l : nat) : StreamScope := nth l (scopes p) no_scope.
Definition scope (l : nat) : M plane StreamScope := gets (fun p => scope_at p l).
Definition update (l : nat) (f : StreamScope -> StreamScope) : M plane unit :=
  modify (fun p => set_scopes (<[l := f (scope_at p l)]> (scopes p)) p).

Fixpoint assoc_nat (name : string) (l : list (string * nat)) : option nat :=
  match l with [] => None | (k, x) :: rest => if String.eqb k name then Some x else assoc_nat name rest end.

Fixpoint find_ticket (token : bytes) (l : list (bytes * ticket)) : option ticket :=
  match l with [] => None | (t, r) :: rest => if bytes_eqb t token then Some r else find_ticket token rest end.

(** ** Hooks *)

Record hooks := Hooks {
  monotonicMillis : nat -> val;
  (** family, stream id, readiness, metadata, now; [Err] when it throws *)
  isReady : nat -> Z -> Z -> readiness -> val -> Z -> result val;
  randomBytes : nat -> val
}.

Section WithHooks.
Context `{Platform} (h : hooks).

Definition streamTicketBinding (value : val) : result bytes :=
  let! preimage := bindingPreimage value in Ok (Hash.blake2b256 preimage).

(** Counts a hook call and gives its number. *)
Definition tick : M plane nat := let* n := gets ticks in modify (set_ticks (S n)) ;;* ret n.

Definition currentMonotonic : M plane Z :=
  let* n := tick in
  match monotonicMillis h n with
  | VBig v => throwM_if ((v <? 0) || (MAX_U64 <? v)) TypeError ;;* ret v
  | _ => throw TypeError
  end.

(** ** Tickets *)

Fixpoint nonzeroRandomTicket (attempts : nat) : M plane bytes :=
  match attempts with
  | O => throw GenericError
  | S attempts =>
      let* n := tick in
      let* token := lift (bytes_within (randomBytes h n) TICKET_BYTES TICKET_BYTES) in
      if existsb (fun b => negb (b2z b =? 0)) token then ret token else nonzeroRandomTicket attempts
  end.

(** [do { token = ... } while (this.records.has(key))] *)
Fixpoint drawTicket (fuel : nat) : M plane bytes :=
  match fuel with
  | O => throw OUT_OF_FUEL
  | S fuel =>
      let* token := nonzeroRandomTicket 4 in
      let* taken := gets (fun p => bool_decide (is_Some (find_ticket token (records p)))) in
      if (taken : bool) then drawTicket fuel else ret token
  end.

Definition sweep (now : Z) : M plane unit :=
  modify (fun p => set_records (List.filter (fun e => negb (ticketExpires (snd e) <=? now)) (records p)) p).

Definition issue (fuel : nat) (binding : bytes) (scopeKey : string) (l : nat) (expires : val) : M plane bytes :=
  let* now := currentMonotonic in
  sweep now ;;*
  let* p := gets id in
  throwM_if (maxTickets p <=? Z.of_nat (List.length (records p))) BUSY ;;*
  let* bindingHash := lift (fixed32 (VBytes binding)) in
  throwM_if ((String.length scopeKey <? 1)%nat || (128 <? String.length scopeKey)%nat) BAD_ENCODING ;;*
  let ttlExpiry := now + ttlMillis p in
  let* callerExpiry := lift (u64 expires) in
  let expiry := if callerExpiry <? ttlExpiry then callerExpiry else ttlExpiry in
  throwM_if (expiry <=? now) EXPIRED ;;*
  let* token := drawTicket fuel in
  modify (fun p => set_records (records p ++ [(token, Ticket bindingHash scopeKey l expiry)]) p) ;;*
  ret token.

Definition consume (token : val) (binding : bytes) : M plane nat :=
  let* token := lift (bytes_within token TICKET_BYTES TICKET_BYTES) in
  let* binding := lift (fixed32 (VBytes binding)) in
  let* found := gets (fun p => find_ticket token (records p)) in
  match found with
  | None => throw RETRY_TERMINAL
  | Some record =>
      modify (fun p => set_records (List.filter (fun e => negb (bytes_eqb (fst e) token)) (records p)) p) ;;*
      let* now := currentMonotonic in
      throwM_if (ticketExpires record <=? now) RETRY_TERMINAL ;;*
      throwM_if (negb (bytes_eqb (bindingHash record) binding)) RETRY_TERMINAL ;;*
      ret (payload record)
  end.

Definition revokeScope (k : string) : M plane unit :=
  modify (fun p => set_records (List.filter (fun e => negb (String.eqb (scopeId (snd e)) k)) (records p)) p).

(** The getter [size]. *)
Definition pendingTickets : M plane Z :=
  let* now := currentMonotonic in
  sweep now ;;*
  gets (fun p => Z.of_nat (List.length (records p))).

(** ** Scopes *)

(** [close (reason)] *)
Definition close (l : nat) (reason : string) : M plane unit :=
  let* s := scope l in
  if closePromise s then ret tt
  else
    let reason := String.substring 0 64 reason in
    update l (fun s => MkScope (family s) (streamId s) (key s) (maxBytes s) (maxBufferedBytes s) (idleMillis s)
      (lifetimeMillis s) (ready s) (metadata s) (openedMonotonicMillis s) (lastActivityMonotonicMillis s) (totalBytes s)
      (bufferedBytes s) (map (fun r => Reservation false (length r)) (reservations s)) true true (Some reason)
      (closePromise s) None) ;;*
    modify (fun p => set_planeBufferedBytes (planeBufferedBytes p - bufferedBytes (scope_at p l)) p) ;;*
    update l (fun s => with_buffer 0 (reservations s) s) ;;*
    revokeScope (key s) ;;*
    modify (fun p => set_sessions (List.filter (fun e => negb (String.eqb (fst e) (key s))) (sessions p)) p) ;;*
    update l (fun s => MkScope (family s) (streamId s) (key s) (maxBytes s) (maxBufferedBytes s) (idleMillis s)
      (lifetimeMillis s) (ready s) (metadata s) (openedMonotonicMillis s) (lastActivityMonotonicMillis s) (totalBytes s)
      (bufferedBytes s) (reservations s) (aborted s) (closed s) (closeReason s) true (timerField s)) ;;*
    modify (fun p => set_closings (closings p ++ [(l, reason)]) p).

(** [_isReady]: a hook that throws counts as [false]. *)
Definition readyNow (l : nat) (now : Z) : M plane bool :=
  let* s := scope l in
  let* n := tick in
  ret (match isReady h n (family s) (streamId s) (ready s) (metadata s) now with
       | Ok answer => is_true answer
       | Err _ => false end).

Definition assertActive (l : nat) : M plane Z :=
  let* s := scope l in
  throwM_if (closed s) RETRY_TERMINAL ;;*
  let* now := currentMonotonic in
  let* isNowReady := readyNow l now in
  if negb isNowReady then close l "readiness-expired" ;;* throw EXPIRED
  else if Stream.expiresMonotonicMillis (ready s) <=? now then close l "readiness-expired" ;;* throw EXPIRED
  else if lifetimeMillis s <=? now - openedMonotonicMillis s then close l "lifetime-expired" ;;* throw EXPIRED
  else if idleMillis s <=? now - lastActivityMonotonicMillis s then close l "idle-expired" ;;* throw EXPIRED
  else ret now.

(** The delay [_scheduleExpiry] asks for. *)
Definition expiry_delay (s : StreamScope) (now : Z) : Z :=
  let idleExpiry := lastActivityMonotonicMillis s + idleMillis s in
  let lifetimeExpiry := openedMonotonicMillis s + lifetimeMillis s in
  let expiry := if idleExpiry <? lifetimeExpiry then idleExpiry else lifetimeExpiry in
  let expiry := if Stream.expiresMonotonicMillis (ready s) <? expiry then Stream.expiresMonotonicMillis (ready s) else expiry in
  let remaining := if now <? expiry then expiry - now else 0 in
  Z.max 1 (if 0x7fffffff <? remaining then 0x7fffffff else remaining).

Definition scheduleExpiry (l : nat) : M plane unit :=
  let* s := scope l in
  if closed s then ret tt
  else
    update l (fun s => with_timer (option_map (fun t => Timer (delay t) false) (timerField s)) s) ;;*
    let* now := currentMonotonic in
    update l (fun s => with_timer (Some (Timer (expiry_delay s now) true)) s).

Definition touch (l : nat) : M plane unit :=
  let* now := assertActive l in
  update l (with_lastActivity now) ;;*
  scheduleExpiry l.

(** [!Number.isSafeInteger(length) || length < 1] *)
Definition positive_length (value : val) : result Z :=
  match value with
  | VNum n => fail_if (negb (isSafeInteger n) || (n <? 1)) ;;! Ok n
  | _ => Err BAD_ENCODING
  end.

Definition countBytes (l : nat) (length : val) : M plane unit :=
  let* length := lift (positive_length length) in
  assertActive l ;;*
  let* s := scope l in
  let next := totalBytes s + length in
  if maxBytes s <? next then close l "byte-cap" ;;* throw TOO_LARGE
  else
    update l (with_totalBytes next) ;;*
    touch l.

(** [reserveBuffer]: gives the index of the reservation whose closure releases
    it. *)
Definition reserveBuffer (l : nat) (length : val) : M plane nat :=
  let* length := lift (positive_length length) in
  assertActive l ;;*
  let* s := scope l in
  let* p := gets id in
  if (maxBufferedBytes s <? bufferedBytes s + length)
     || (planeMaxBufferedBytes p <? planeBufferedBytes p + length)
  then close l "buffer-cap" ;;* throw BUSY
  else
    update l (fun s => with_buffer (bufferedBytes s + length) (reservations s ++ [Reservation true length]) s) ;;*
    modify (set_planeBufferedBytes (planeBufferedBytes p + length)) ;;*
    ret (List.length (reservations s)).

(** The closure of the [i]th reservation of a scope. *)
Definition releaseBuffer (l i : nat) : M plane unit :=
  let* s := scope l in
  match reservations s !! i with
  | None => ret tt
  | Some r =>
      if negb (active r) then ret tt
      else
        update l (fun s => with_buffer (bufferedBytes s - length r)
          (<[i := Reservation false (length r)]> (reservations s)) s) ;;*
        modify (fun p => set_planeBufferedBytes (planeBufferedBytes p - length r) p)
  end.

Definition pollScope (l : nat) : M plane bool :=
  let* s := scope l in
  if closed s then ret false
  else catch (assertActive l ;;* ret true) (ret false).

(** The timer of a scope fires. *)
Definition fireTimer (l : nat) : M plane unit :=
  let* s := scope l in
  match timerField s with
  | Some (Timer _ true) =>
      update l (with_timer None) ;;*
      let* live := pollScope l in
      if (live : bool) then scheduleExpiry l else ret tt
  | _ => ret tt
  end.

(** ** The plane *)

Definition newPlane (options : val) : result plane :=
  match monotonicMillis h 0 with
  | VBig v =>
      throw_if ((v <? 0) || (MAX_U64 <? v)) TypeError ;;!
      let! streams := positiveOr options.["maxStreams"] DEFAULT_MAX_STREAMS in
      let! buffered := positiveOr options.["maxBufferedBytes"] DEFAULT_MAX_BUFFERED_BYTES in
      let! perStream := positiveOr options.["maxPerStreamBufferedBytes"] DEFAULT_MAX_STREAM_BUFFERED_BYTES in
      throw_if (buffered <? perStream) TypeError ;;!
      let! tickets := positiveOr options.["maxPendingTickets"] DEFAULT_MAX_PENDING_TICKETS in
      let! ttl := positiveOr options.["ticketTtlMillis"] DEFAULT_TICKET_TTL_MILLIS in
      Ok (Plane streams buffered perStream tickets ttl [] 0 false [] [] 1 [])
  | _ => Err TypeError
  end.

(** [positiveInteger(value, null)], followed by the check for [null]. *)
Definition required (value : option Z) : result Z := match value with Some n => Ok n | None => Err TypeError end.

(** [new StreamScope(this, options)]: gives the location of the new scope. *)
Definition newScope (options : val) : M plane nat :=
  let* p := gets id in
  let* streamId := lift (u64 options.["streamId"]) in
  let* key := lift (streamKey options.["family"] (VBig streamId)) in
  let* maxBytes := lift (u64 options.["maxBytes"]) in
  throwM_if (maxBytes =? 0) BAD_ENCODING ;;*
  let* maxBuffered := lift (positiveOr options.["maxBufferedBytes"] (maxPerStreamBufferedBytes p)) in
  throwM_if (planeMaxBufferedBytes p <? maxBuffered) TypeError ;;*
  let* idle := lift (positiveInteger options.["idleMillis"] None) in
  let* lifetime := lift (positiveInteger options.["lifetimeMillis"] None) in
  let* idle := lift (required idle) in
  let* lifetime := lift (required lifetime) in
  let* now := currentMonotonic in
  let* ready := lift (normalizeReadiness options.["readiness"] now) in
  let metadata := if nullish options.["metadata"] then VNull else options.["metadata"] in
  let s := MkScope (num options.["family"]) streamId key maxBytes maxBuffered idle lifetime ready metadata
             now now 0 0 [] false false None false None in
  let* now := currentMonotonic in
  let* l := gets (fun p => List.length (scopes p)) in
  modify (fun p => set_scopes (scopes p ++ [with_timer (Some (Timer (expiry_delay s now) true)) s]) p) ;;*
  ret l.

Definition createSession (options : val) : M plane nat :=
  let* p := gets id in
  throwM_if (closing p) BUSY ;;*
  throwM_if (negb (is_object options)) TypeError ;;*
  let* key := lift (streamKey options.["family"] options.["streamId"]) in
  throwM_if (bool_decide (is_Some (assoc_nat key (sessions p)))) CONFLICT ;;*
  throwM_if (maxStreams p <=? Z.of_nat (List.length (sessions p))) BUSY ;;*
  let* l := newScope options in
  modify (fun p => set_sessions (sessions p ++ [(key, l)]) p) ;;*
  ret l.

(** The object the binding of a scope's ticket is computed from. *)
Definition ticket_object (s : StreamScope) (parentSessionId : val) : val := VObj [
  ("family", VNum (family s)); ("streamId", VBig (streamId s));
  ("descriptorSequence", VBig (descriptorSequence (ready s))); ("descriptorHash", VBytes (descriptorHash (ready s)));
  ("parentSessionId", parentSessionId)].

Definition issueTicket (fuel l : nat) (parentSessionId : val) : M plane bytes :=
  let* p := gets id in
  throwM_if (List.length (scopes p) <=? l)%nat TypeError ;;*
  assertActive l ;;*
  let* s := scope l in
  let* binding := lift (streamTicketBinding (ticket_object s parentSessionId)) in
  issue fuel binding (key s) l (VBig (Stream.expiresMonotonicMillis (ready s))).

Definition consumeTicket (ticket expected : val) : M plane nat :=
  let* binding := lift (streamTicketBinding expected) in
  let* l := consume ticket binding in
  let* p := gets id in
  throwM_if (List.length (scopes p) <=? l)%nat RETRY_TERMINAL ;;*
  assertActive l ;;*
  ret l.

(** [event && event.reason ? ... : ...] *)
Definition fence_reason (text_of_object : val -> string) (event : val) : string :=
  if falsy event || falsy event.["reason"] then "readiness-fenced"
  else ("readiness-" ++ js_text text_of_object event.["reason"])%string.

Definition fence (text_of_object : val -> string) (event : val) : M plane unit :=
  let event := match event with VUndef => VObj [] | _ => event end in
  let reason := fence_reason text_of_object event in
  let* sequence := if nullish event.["descriptorSequence"] then ret None
                   else let* n := lift (u64 event.["descriptorSequence"]) in ret (Some n) in
  let* hash := if nullish event.["descriptorHash"] then ret None
               else let* bs := lift (fixed32 event.["descriptorHash"]) in ret (Some bs) in
  let* live := gets sessions in
  each (fun e =>
    let* s := scope (snd e) in
    if match sequence with Some n => negb (descriptorSequence (ready s) =? n) | None => false end then ret tt
    else if match hash with Some bs => negb (bytes_eqb (descriptorHash (ready s)) bs) | None => false end then ret tt
    else close (snd e) reason) live.

Definition poll : M plane unit :=
  let* now := currentMonotonic in
  sweep now ;;*
  let* live := gets sessions in
  each (fun e => let* _ := pollScope (snd e) in ret tt) live.

Definition activeStreams (p : plane) : Z := Z.of_nat (List.length (sessions p)).

Definition closePlane (reason : string) : M plane unit :=
  let* p := gets id in
  if closing p then ret tt
  else
    modify (set_closing true) ;;*
    modify (set_records []) ;;*
    let* live := gets sessions in
    each (fun e => close (snd e) reason) live.

End WithHooks.
End Stream.
