(* ===== verification/StreamLaws.v ===== *)
(** * What the stream plane guarantees

    The operations of the plane, its scopes, tickets, timers and buffer closures
    form a transition system in which any of them may come at any time, succeed
    or throw. The invariant [sane] ties the books of the plane to its scopes;
    every operation is first brought to the explicit state it ends in. *)

From Stdlib Require Import ZArith Lia Bool List String Ascii.
From Stdlib Require Import Strings.Byte.
From stdpp Require Import base tactics list strings relations.
From S2P Require Import Prelude Codec CodecLaws DemoPlatform Authority Hashes HashLaws StreamSession.
Import Stream.

(** ** Sums and lists *)

Fixpoint sum {A} (f : A -> Z) (l : list A) : Z := match l with [] => 0 | x :: l => f x + sum f l end.

Lemma sum_app {A} (f : A -> Z) l l' : sum f (l ++ l') = sum f l + sum f l'.
Proof. induction l as [|x l IH]; simpl; lia. Qed.

Lemma sum_insert {A} (f : A -> Z) l i x y : l !! i = Some x -> sum f (<[i := y]> l) = sum f l - f x + f y.
Proof. revert i; induction l as [|z l IH]; intros [|i] Hi; simplify_eq/=; [lia|]. rewrite (IH _ Hi). lia. Qed.

Lemma sum_nonneg {A} (f : A -> Z) l : (forall x, In x l -> 0 <= f x) -> 0 <= sum f l.
Proof. induction l as [|x l IH]; intros Hl; simpl; [lia|]. pose proof (Hl x (or_introl eq_refl)). specialize (IH (fun y Hy => Hl y (or_intror Hy))). lia. Qed.

Lemma sum_zero {A} (f : A -> Z) l : (forall x, In x l -> f x = 0) -> sum f l = 0.
Proof. induction l as [|x l IH]; intros Hl; simpl; [done|]. rewrite (Hl x), IH; [done| |by left]. intros y Hy. apply Hl. by right. Qed.

Lemma filter_in_le {A} (f : A -> bool) l : (List.length (List.filter f l) <= List.length l)%nat.
Proof. induction l as [|x l IH]; simpl; [lia|]. destruct (f x); simpl; lia. Qed.

Lemma NoDup_filter_map {A B} (g : A -> B) f (l : list A) : List.NoDup (map g l) -> List.NoDup (map g (List.filter f l)).
Proof.
  induction l as [|x l IH]; [done|]. simpl. intros Hn. apply List.NoDup_cons_iff in Hn as [Hx Hn].
  destruct (f x); [|by apply IH]. simpl. apply List.NoDup_cons; [|by apply IH].
  intros Hin. apply Hx. apply in_map_iff in Hin as (y & <- & Hy). apply in_map. by apply filter_In in Hy as [? _].
Qed.

Lemma nodup_fst_fun {A B} (l : list (A * B)) k a b : List.NoDup (map fst l) -> In (k, a) l -> In (k, b) l -> a = b.
Proof.
  induction l as [|[k0 c] l IH]; [done|]. simpl. intros Hn Ha Hb. apply List.NoDup_cons_iff in Hn as [Hx Hn].
  destruct Ha as [Ha|Ha], Hb as [Hb|Hb]; simplify_eq; auto;
    [destruct Hx; by apply (in_map fst) in Hb|destruct Hx; by apply (in_map fst) in Ha].
Qed.

(** ** The invariant *)

Definition activeLength (r : reservation) : Z := if active r then length r else 0.

(** The books of one scope. *)
Record good_scope (s : StreamScope) : Prop := {
  closed_fully : closePromise s = closed s;
  buffer_exact : bufferedBytes s = sum activeLength (reservations s);
  lengths_positive : Forall (fun r => 1 <= length r) (reservations s);
  buffer_fits : bufferedBytes s <= maxBufferedBytes s;
  bytes_fit : totalBytes s <= maxBytes s;
  closed_empty : closed s = true -> Forall (fun r => active r = false) (reservations s)
}.

Section Laws.
Context `{Platform} (h : hooks).

(** A ticket admits to a live scope and was issued for it. *)
Definition good_ticket (ss : list StreamScope) (t : ticket) : Prop :=
  exists s, ss !! payload t = Some s /\ closed s = false /\ key s = scopeId t /\
    ticketExpires t <= Stream.expiresMonotonicMillis (ready s) /\
    exists parent, streamTicketBinding (ticket_object s parent) = Ok (bindingHash t).

Record sane (p : plane) : Prop := {
  plane_exact : planeBufferedBytes p = sum bufferedBytes (scopes p);
  plane_fits : planeBufferedBytes p <= planeMaxBufferedBytes p;
  all_good : Forall good_scope (scopes p);
  sessions_live k l : In (k, l) (sessions p) -> exists s, scopes p !! l = Some s /\ key s = k /\ closed s = false;
  live_sessions l s : scopes p !! l = Some s -> closed s = false -> In (key s, l) (sessions p);
  keys_unique : List.NoDup (map fst (sessions p));
  streams_fit : Z.of_nat (List.length (sessions p)) <= maxStreams p;
  tickets_good : Forall (fun e => good_ticket (scopes p) (snd e)) (records p);
  tokens_unique : List.NoDup (map fst (records p));
  tickets_fit : Z.of_nat (List.length (records p)) <= maxTickets p;
  drained : closing p = true -> sessions p = [];
  per_stream : 0 <= maxPerStreamBufferedBytes p
}.

(** ** Ticks and closings are not in the books *)

Lemma sane_ticks n p : sane p -> sane (set_ticks n p).
Proof. intros []. by split. Qed.
Lemma sane_closings n p : sane p -> sane (set_closings n p).
Proof. intros []. by split. Qed.
Lemma scope_at_ticks n p l : scope_at (set_ticks n p) l = scope_at p l.
Proof. done. Qed.

Lemma currentMonotonic_eq p : exists r, currentMonotonic h p = (r, set_ticks (S (ticks p)) p) /\
  (forall now, r = Ok now -> monotonicMillis h (ticks p) = VBig now /\ 0 <= now <= MAX_U64).
Proof.
  unfold currentMonotonic, tick, bindM, gets, modify, ret, throw, throwM_if, lift, throw_if. cbn.
  destruct (monotonicMillis h (ticks p)); try (eexists; split; [reflexivity|done]).
  destruct (_ || _) eqn:E; cbn; eexists; (split; [reflexivity|]); intros now [= <-]. b2p. split; [done|lia].
Qed.

(** ** Closing a scope *)

Definition closed_scope (reason : string) (s : StreamScope) : StreamScope :=
  MkScope (family s) (streamId s) (key s) (maxBytes s) (maxBufferedBytes s) (idleMillis s) (lifetimeMillis s) (ready s)
    (metadata s) (openedMonotonicMillis s) (lastActivityMonotonicMillis s) (totalBytes s) 0
    (map (fun r => Reservation false (length r)) (reservations s)) true true (Some reason) true None.

(** The state after [close l reason] on a scope that was open. *)
Definition after_close (l : nat) (reason : string) (p : plane) : plane :=
  let s := scope_at p l in
  Plane (maxStreams p) (planeMaxBufferedBytes p) (maxPerStreamBufferedBytes p) (maxTickets p) (ttlMillis p)
    (List.filter (fun e => negb (String.eqb (fst e) (key s))) (sessions p))
    (planeBufferedBytes p - bufferedBytes s) (closing p)
    (List.filter (fun e => negb (String.eqb (scopeId (snd e)) (key s))) (records p))
    (<[l := closed_scope (String.substring 0 64 reason) s]> (scopes p)) (ticks p)
    (closings p ++ [(l, String.substring 0 64 reason)]).

Lemma scope_at_some p l s : scopes p !! l = Some s -> scope_at p l = s.
Proof. intros Hl. unfold scope_at. by apply nth_lookup_Some. Qed.

Lemma scope_at_open p l : closePromise (scope_at p l) = false -> scopes p !! l = Some (scope_at p l).
Proof.
  unfold scope_at. destruct (scopes p !! l) as [s|] eqn:E; [by rewrite (nth_lookup_Some _ _ _ _ E)|].
  apply lookup_ge_None in E. by rewrite nth_overflow by done.
Qed.

Lemma close_eq l reason p :
  close l reason p = (Ok tt, if closePromise (scope_at p l) then p else after_close l reason p).
Proof.
  unfold close, bindM, scope, gets, ret. destruct (closePromise (scope_at p l)) eqn:E; [done|].
  apply scope_at_open in E. assert (Hl : (l < List.length (scopes p))%nat) by (by eapply lookup_lt_Some).
  unfold update, modify, revokeScope, set_scopes, set_planeBufferedBytes, set_records, set_sessions, set_closings. cbn.
  unfold scope_at at 1 2 3 4 5. cbn.
  repeat (rewrite (nth_lookup_Some _ _ _ _ (list_lookup_insert_eq _ _ _ Hl)) || rewrite list_insert_insert_eq).
  done.
Qed.

(** *** Replacing a scope by one with the same identity *)

Record same_identity (s s' : StreamScope) : Prop := {
  same_family : family s' = family s; same_stream : streamId s' = streamId s; same_key : key s' = key s;
  same_ready : ready s' = ready s; same_closed : closed s' = closed s
}.

Lemma good_ticket_insert ss l s s' t : ss !! l = Some s -> same_identity s s' ->
  good_ticket ss t -> good_ticket (<[l := s']> ss) t.
Proof.
  intros Hl [Hf Hi Hk Hr Hc] (s0 & H0 & Hc0 & Hk0 & He & parent & Hb).
  destruct (decide (l = payload t)) as [->|Hne].
  - rewrite Hl in H0. injection H0 as <-. exists s'. rewrite list_lookup_insert_eq by (by eapply lookup_lt_Some).
    split; [done|]. rewrite Hc, Hk, Hr. split; [done|]. split; [done|]. split; [done|]. exists parent.
    unfold ticket_object in *. by rewrite Hf, Hi, Hr.
  - exists s0. rewrite list_lookup_insert_ne by done. split; [done|]. split; [done|]. split; [done|]. split; [done|]. by exists parent.
Qed.

Lemma sane_rebook p l s s' : sane p -> scopes p !! l = Some s -> good_scope s' -> same_identity s s' ->
  planeBufferedBytes p + (bufferedBytes s' - bufferedBytes s) <= planeMaxBufferedBytes p ->
  sane (set_planeBufferedBytes (planeBufferedBytes p + (bufferedBytes s' - bufferedBytes s))
    (set_scopes (<[l := s']> (scopes p)) p)).
Proof.
  intros [Hpe Hpf Hg Hsl Hls Hku Hsf Htg Htu Htf Hd Hps] Hl Hs' Hid Hfit. pose proof Hid as [Hfa Hi Hk Hr Hc].
  assert (Hlt : (l < List.length (scopes p))%nat) by (by eapply lookup_lt_Some).
  split; cbn; try done.
  - rewrite (sum_insert _ _ _ _ _ Hl), Hpe. lia.
  - by apply Forall_insert.
  - intros k l' Hin. destruct (Hsl k l' Hin) as (s0 & H0 & Hk0 & Hc0). destruct (decide (l = l')) as [<-|Hne].
    + exists s'. rewrite list_lookup_insert_eq by done. rewrite Hl in H0. injection H0 as <-.
      split; [done|]. by rewrite Hk, Hc.
    + exists s0. by rewrite list_lookup_insert_ne.
  - intros l' s0 H0 Hc0. destruct (decide (l = l')) as [<-|Hne].
    + rewrite list_lookup_insert_eq in H0 by done. injection H0 as <-. rewrite Hk. apply Hls; [done|]. by rewrite <- Hc.
    + rewrite list_lookup_insert_ne in H0 by done. by apply Hls.
  - eapply Forall_impl; [exact Htg|]. intros e He. by eapply good_ticket_insert.
Qed.

(** A change that leaves the buffers alone; out of range it is no change. *)
Lemma sane_update p l f : sane p ->
  (forall s, scopes p !! l = Some s -> good_scope s -> good_scope (f s) /\ same_identity s (f s) /\ bufferedBytes (f s) = bufferedBytes s) ->
  sane (snd (update l f p)).
Proof.
  intros Hs Hf. unfold update, modify. cbn. destruct (scopes p !! l) as [s|] eqn:E.
  - rewrite (scope_at_some _ _ _ E).
    destruct (Hf s eq_refl) as (Hg & Hid & Hb); [by eapply (proj1 (Forall_lookup _ _) (all_good _ Hs))|].
    pose proof (sane_rebook p l s (f s) Hs E Hg Hid) as Hr. rewrite Hb, Z.sub_diag, Z.add_0_r in Hr.
    specialize (Hr (plane_fits _ Hs)). unfold set_planeBufferedBytes, set_scopes in *. cbn in *. done.
  - apply lookup_ge_None in E. rewrite list_insert_ge by done. destruct Hs. by split.
Qed.

Lemma sane_after_close p l reason : sane p -> closePromise (scope_at p l) = false -> sane (after_close l reason p).
Proof.
  intros Hs Hopen. pose proof (scope_at_open _ _ Hopen) as Hl. pose proof Hs as [Hpe Hpf Hg Hsl Hls Hku Hsf Htg Htu Htf Hd Hps].
  set (s := scope_at p l) in *. assert (Hlt : (l < List.length (scopes p))%nat) by (by eapply lookup_lt_Some).
  assert (Hgs : good_scope s) by (by eapply (proj1 (Forall_lookup _ _) Hg)). pose proof Hgs as [Hcf Hbe Hlp Hbf Hyf Hce].
  assert (Hopen' : closed s = false) by congruence.
  assert (Hbuf : 0 <= bufferedBytes s).
  { rewrite Hbe. apply sum_nonneg. rewrite List.Forall_forall in Hlp. intros r Hr. specialize (Hlp r Hr). unfold activeLength. case_match; lia. }
  assert (Hother : forall k l', In (k, l') (sessions p) -> l' <> l -> k <> key s).
  { intros k l' Hin Hne ->. pose proof (Hls l s Hl Hopen') as Hin'.
    by apply Hne, (nodup_fst_fun (sessions p) (key s)). }
  split; cbn; fold s.
  - rewrite (sum_insert _ _ _ _ _ Hl), Hpe. cbn. lia.
  - lia.
  - apply Forall_insert; [done|]. split; cbn; try done.
    + symmetry. apply sum_zero. intros r Hr. apply in_map_iff in Hr as (r' & <- & _). done.
    + apply Forall_map. by apply (Forall_impl _ _ _ Hlp).
    + lia.
    + intros _. apply Forall_map. by apply Forall_true.
  - intros k l' Hin. apply filter_In in Hin as [Hin Hk]. cbn in Hk. b2p. apply String.eqb_neq in Hk.
    destruct (Hsl k l' Hin) as (s0 & H0 & Hk0 & Hc0). destruct (decide (l = l')) as [<-|Hne].
    + rewrite Hl in H0. by injection H0 as <-.
    + exists s0. by rewrite list_lookup_insert_ne.
  - intros l' s0 H0 Hc0. destruct (decide (l = l')) as [<-|Hne].
    + rewrite list_lookup_insert_eq in H0 by done. by injection H0 as <-.
    + rewrite list_lookup_insert_ne in H0 by done. pose proof (Hls l' s0 H0 Hc0) as Hin.
      apply filter_In. split; [done|]. cbn. apply negb_true_iff, String.eqb_neq. by eapply Hother.
  - by apply NoDup_filter_map.
  - pose proof (filter_in_le (fun e => negb (String.eqb (fst e) (key s))) (sessions p)). lia.
  - rewrite List.Forall_forall in Htg |- *. intros [t r] Hin. apply filter_In in Hin as [Hin Hk]. cbn in Hk |- *. b2p.
    apply String.eqb_neq in Hk. destruct (Htg _ Hin) as (s0 & H0 & Hc0 & Hk0 & He). exists s0.
    rewrite list_lookup_insert_ne; [done|]. cbn in H0. intros ->. rewrite Hl in H0. by injection H0 as <-.
  - by apply NoDup_filter_map.
  - pose proof (filter_in_le (fun e => negb (String.eqb (scopeId (snd e)) (key s))) (records p)). lia.
  - intros Hcl. by rewrite (Hd Hcl).
  - done.
Qed.

Lemma sane_close p l reason : sane p -> sane (snd (close l reason p)).
Proof.
  intros Hs. rewrite close_eq. cbn. destruct (closePromise (scope_at p l)) eqn:E; [done|by apply sane_after_close].
Qed.

(** ** Operations that keep the invariant *)

Definition keeps {A} (m : M plane A) : Prop := forall p, sane p -> sane (snd (m p)).

Lemma keeps_ret {A} (x : A) : keeps (ret x).
Proof. by intros p. Qed.
Lemma keeps_throw {A} e : keeps (@throw plane A e).
Proof. by intros p. Qed.
Lemma keeps_lift {A} (m : result A) : keeps (lift m).
Proof. by intros p. Qed.
Lemma keeps_gets {A} (f : plane -> A) : keeps (gets f).
Proof. by intros p. Qed.
Lemma keeps_bind {A B} (m : M plane A) (k : A -> M plane B) : keeps m -> (forall x, keeps (k x)) -> keeps (bindM m k).
Proof. intros Hm Hk p Hp. specialize (Hm p Hp). unfold bindM. destruct (m p) as [[x|e] p']; [by apply Hk|done]. Qed.
Lemma keeps_catch {A} (m k : M plane A) : keeps m -> keeps k -> keeps (catch m k).
Proof. intros Hm Hk p Hp. specialize (Hm p Hp). unfold catch. destruct (m p) as [[x|e] p']; [done|by apply Hk]. Qed.
Lemma keeps_each {A} (body : A -> M plane unit) l : (forall x, keeps (body x)) -> keeps (each body l).
Proof. intros Hb. induction l as [|x l IH]; [apply keeps_ret|]. by apply keeps_bind. Qed.
Lemma keeps_if {A} (b : bool) (m k : M plane A) : keeps m -> keeps k -> keeps (if b then m else k).
Proof. by destruct b. Qed.

Lemma keeps_clock : keeps (currentMonotonic h).
Proof. intros p Hp. destruct (currentMonotonic_eq p) as (r & -> & _). by apply sane_ticks. Qed.
Lemma keeps_close l reason : keeps (close l reason).
Proof. intros p. apply sane_close. Qed.
Lemma keeps_ready l now : keeps (readyNow h l now).
Proof. intros p Hp. by apply sane_ticks. Qed.

Lemma keeps_assertActive l : keeps (assertActive h l).
Proof.
  unfold assertActive. apply keeps_bind; [apply keeps_gets|]. intros s. apply keeps_bind; [apply keeps_lift|]. intros _.
  apply keeps_bind; [apply keeps_clock|]. intros now. apply keeps_bind; [apply keeps_ready|]. intros ok.
  repeat apply keeps_if; try apply keeps_ret; (apply keeps_bind; [apply keeps_close|intros _; apply keeps_throw]).
Qed.

(** What [assertActive] has seen when it returns: [n] is the number of the
    clock call. *)
Record live_at (s : StreamScope) (n : nat) (now : Z) : Prop := {
  clock_read : monotonicMillis h n = VBig now;
  hook_agrees : isReady h (S n) (family s) (streamId s) (ready s) (metadata s) now = Ok (VBool true);
  not_expired : now < Stream.expiresMonotonicMillis (ready s);
  in_lifetime : now - openedMonotonicMillis s < lifetimeMillis s;
  not_idle : now - lastActivityMonotonicMillis s < idleMillis s
}.

Lemma is_true_iff v : is_true v = true <-> v = VBool true.
Proof. destruct v as [| | | | | | | |[]|]; done. Qed.

Lemma assertActive_ok l p now p' : assertActive h l p = (Ok now, p') ->
  closed (scope_at p l) = false /\ p' = set_ticks (S (S (ticks p))) p /\ live_at (scope_at p l) (ticks p) now.
Proof.
  unfold assertActive, bindM, scope, gets, throwM_if, lift, throw_if. destruct (closed (scope_at p l)) eqn:Ec; [done|].
  destruct (currentMonotonic_eq p) as (r & -> & Hr). destruct r as [t|]; [|done]. destruct (Hr t eq_refl) as [Hclock _].
  unfold readyNow, tick, bindM, scope, gets, modify, ret. cbn -[close scope_at]. rewrite scope_at_ticks.
  set (s := scope_at p l) in *. destruct (isReady h _ _ _ _ _ t) as [v|] eqn:Ev; [|by cbn -[close scope_at]; rewrite close_eq].
  destruct (is_true v) eqn:Et; cbn -[close scope_at]; [|by rewrite close_eq]. apply is_true_iff in Et as ->.
  repeat (match goal with |- context [?a <=? ?b] => destruct (a <=? b) eqn:? end; cbn -[close scope_at]; [by rewrite close_eq|]).
  intros [= <- <-]. b2p. split; [done|]. split; [done|]. split; done || lia.
Qed.

(** *** Single fields *)

Lemma keeps_update l f :
  (forall s, good_scope s -> good_scope (f s) /\ same_identity s (f s) /\ bufferedBytes (f s) = bufferedBytes s) ->
  keeps (update l f).
Proof. intros Hf p Hp. apply sane_update; auto. Qed.

Lemma keeps_timer l f : keeps (update l (fun s => with_timer (f s) s)).
Proof. apply keeps_update. intros s []. by repeat split. Qed.

Lemma keeps_scheduleExpiry l : keeps (scheduleExpiry h l).
Proof.
  unfold scheduleExpiry. apply keeps_bind; [apply keeps_gets|]. intros s. apply keeps_if; [apply keeps_ret|].
  apply keeps_bind; [apply (keeps_timer l (fun s => option_map _ (timerField s)))|]. intros _.
  apply keeps_bind; [apply keeps_clock|]. intros now. apply (keeps_timer l (fun s => Some _)).
Qed.

Lemma keeps_touch l : keeps (touch h l).
Proof.
  unfold touch. apply keeps_bind; [apply keeps_assertActive|]. intros now.
  apply keeps_bind; [|intros _; apply keeps_scheduleExpiry]. apply keeps_update. intros s []. by repeat split.
Qed.

Lemma keeps_poll l : keeps (pollScope h l).
Proof.
  unfold pollScope. apply keeps_bind; [apply keeps_gets|]. intros s. apply keeps_if; [apply keeps_ret|].
  apply keeps_catch; [|apply keeps_ret]. apply keeps_bind; [apply keeps_assertActive|intros _; apply keeps_ret].
Qed.

Lemma keeps_fire l : keeps (fireTimer h l).
Proof.
  unfold fireTimer. apply keeps_bind; [apply keeps_gets|]. intros s. destruct (timerField s) as [[d []]|]; try apply keeps_ret.
  apply keeps_bind; [apply (keeps_timer l (fun _ => None))|]. intros _. apply keeps_bind; [apply keeps_poll|].
  intros live. apply keeps_if; [apply keeps_scheduleExpiry|apply keeps_ret].
Qed.

(** *** Bytes and buffers *)

(** Runs the steps of a computation on a state. *)
Ltac run := unfold bindM, gets, modify, ret, throw, throwM_if, lift; cbn -[close scope_at assertActive touch update nonzeroRandomTicket drawTicket currentMonotonic sweep].

Lemma positive_length_ok v n : positive_length v = Ok n -> v = VNum n /\ 1 <= n <= MAX_SAFE_INTEGER.
Proof.
  destruct v; try done. unfold positive_length, fail_if, throw_if, isSafeInteger. intros Hq. destruct (_ || _) eqn:E; [done|].
  injection Hq as ->. b2p. split; [done|lia].
Qed.

Lemma keeps_countBytes l v : keeps (countBytes h l v).
Proof.
  intros p Hp. unfold countBytes. run. destruct (positive_length v) as [n|e]; [|done]. run.
  destruct (assertActive h l p) as [[now|e] p1] eqn:Ea; pose proof (keeps_assertActive l p Hp) as Hp1; rewrite Ea in Hp1; [|done].
  cbn [snd] in Hp1. run. unfold scope, gets. run. destruct (maxBytes (scope_at p1 l) <? _) eqn:E.
  - pose proof (keeps_close l "byte-cap" p1 Hp1) as Hc. destruct (close l "byte-cap" p1) as [[]]; done.
  - b2p. assert (Hu : sane (snd (update l (with_totalBytes (totalBytes (scope_at p1 l) + n)) p1))).
    { apply sane_update; [done|]. intros s Hs Hg. rewrite (scope_at_some _ _ _ Hs) in *. destruct Hg. by repeat split. }
    destruct (update l _ p1) as [r p2] eqn:E2. unfold update, modify in E2. injection E2 as <- <-. by apply keeps_touch.
Qed.

Lemma keeps_reserveBuffer l v : keeps (reserveBuffer h l v).
Proof.
  intros p Hp. unfold reserveBuffer. run. destruct (positive_length v) as [n|e] eqn:En; [|done]. run.
  destruct (assertActive h l p) as [[now|e] p1] eqn:Ea; pose proof (keeps_assertActive l p Hp) as Hp1; rewrite Ea in Hp1; [|done].
  cbn [snd] in Hp1. apply positive_length_ok in En as [_ Hn]. unfold scope, id. run. apply assertActive_ok in Ea as (Hopen & -> & _).
  rewrite <- scope_at_ticks with (n := S (S (ticks p))) in Hopen. set (p1 := set_ticks _ p) in *.
  destruct (_ || _) eqn:E; b2p.
  - pose proof (keeps_close l "buffer-cap" p1 Hp1) as Hc. destruct (close l "buffer-cap" p1) as [[]]; done.
  - destruct (scopes p1 !! l) as [s|] eqn:Hs; [|unfold scope_at in Hopen; by rewrite nth_overflow in Hopen by (by apply lookup_ge_None)].
    unfold update, modify. cbn -[scope_at]. rewrite (scope_at_some _ _ _ Hs) in *.
    pose proof (sane_rebook p1 l s (Stream.with_buffer (bufferedBytes s + n) (reservations s ++ [Reservation true n]) s) Hp1 Hs) as Hr.
    cbn in Hr. replace (bufferedBytes s + n - bufferedBytes s) with n in Hr by lia. apply Hr; [|by split|cbn in *; lia].
    destruct (proj1 (Forall_lookup _ _) (all_good _ Hp1) _ _ Hs) as [Hc Hb Hl Hf Hy He]. split; cbn; try done.
    + rewrite sum_app, Hb. cbn. lia.
    + apply Forall_app. split; [done|]. repeat constructor. cbn. lia.
    + intros Hcl. congruence.
Qed.

Lemma keeps_releaseBuffer l i : keeps (releaseBuffer l i).
Proof.
  intros p Hp. unfold releaseBuffer, scope. run. destruct (reservations (scope_at p l) !! i) as [r|] eqn:Er; [|done].
  destruct (active r) eqn:Ea; [|done]. cbn.
  destruct (scopes p !! l) as [s|] eqn:Hs; [|unfold scope_at in Er; by rewrite nth_overflow in Er by (by apply lookup_ge_None)].
  unfold update, modify. cbn -[scope_at]. rewrite (scope_at_some _ _ _ Hs) in *.
  destruct (proj1 (Forall_lookup _ _) (all_good _ Hp) _ _ Hs) as [Hc Hb Hl Hf Hy He].
  assert (Hn : 1 <= length r) by (by eapply (proj1 (Forall_lookup _ _) Hl)).
  pose proof (sane_rebook p l s (Stream.with_buffer (bufferedBytes s - length r)
    (<[i := Reservation false (length r)]> (reservations s)) s) Hp Hs) as Hr. cbn in Hr.
  replace (bufferedBytes s - length r - bufferedBytes s) with (- length r) in Hr by lia.
  apply Hr; [|by split|pose proof (plane_fits _ Hp); lia]. split; cbn; try done.
  - assert (activeLength r = length r) by (unfold activeLength; by rewrite Ea).
    rewrite (sum_insert _ _ _ _ _ Er), Hb. change (activeLength (Reservation false (length r))) with 0. lia.
  - by apply Forall_insert.
  - lia.
  - intros Hcl. apply Forall_insert; [by apply He|done].
Qed.

(** *** Tickets *)

Lemma sane_filter_records p f : sane p -> sane (set_records (List.filter f (records p)) p).
Proof.
  intros [Hpe Hpf Hg Hsl Hls Hku Hsf Htg Htu Htf Hd Hps]. split; cbn; try done.
  - rewrite List.Forall_forall in Htg |- *. intros e He. apply filter_In in He as [He _]. by apply Htg.
  - by apply NoDup_filter_map.
  - pose proof (filter_in_le f (records p)). lia.
Qed.

Lemma keeps_sweep now : keeps (sweep now).
Proof. intros p Hp. by apply sane_filter_records. Qed.

Lemma nonzeroRandomTicket_eq n p : exists r k, nonzeroRandomTicket h n p = (r, set_ticks k p) /\
  (forall t, r = Ok t -> blen t = 32).
Proof.
  revert p; induction n as [|n IH]; intros p; [by exists (Err GenericError), (ticks p); destruct p|].
  cbn [nonzeroRandomTicket]. unfold tick. run. unfold bytes_within.
  destruct (randomBytes h (ticks p)); cbn; try (by eexists _, _; split; [reflexivity|]); unfold fail_if, throw_if;
    (destruct (_ || _) eqn:E; cbn; [by eexists _, _; split; [reflexivity|]|]);
    (destruct (existsb _ _) eqn:Ex; cbn;
      [eexists _, _; split; [reflexivity|]; intros t [= <-]; b2p; unfold TICKET_BYTES in *; lia|]);
    match goal with |- context [nonzeroRandomTicket h n ?q] => destruct (IH q) as (r & k & -> & Hr); by exists r, k end.
Qed.

Lemma drawTicket_eq fuel p : exists r k, drawTicket h fuel p = (r, set_ticks k p) /\
  (forall t, r = Ok t -> find_ticket t (records p) = None /\ blen t = 32).
Proof.
  revert p; induction fuel as [|fuel IH]; intros p; [by exists (Err OUT_OF_FUEL), (ticks p); destruct p|].
  cbn [drawTicket]. run. destruct (nonzeroRandomTicket_eq 4 p) as ([t|e] & k & -> & Ht); [|by exists (Err e), k].
  cbn. destruct (find_ticket t (records p)) as [r|] eqn:E; cbn.
  - destruct (IH (set_ticks k p)) as (r' & k' & -> & Hr). by exists r', k'.
  - exists (Ok t), k. split; [done|]. intros t' [= <-]. auto.
Qed.

Lemma find_ticket_none t l : find_ticket t l = None -> ~ In t (map fst l).
Proof.
  induction l as [|[u r] l IH]; [by intros _ []|]. simpl. destruct (bytes_eqb u t) eqn:E; [done|].
  intros Hf [->|Hin]; [by rewrite bytes_eqb_refl in E|by apply IH].
Qed.

Lemma fixed32_ok v bs : fixed32 (VBytes v) = Ok bs -> bs = v.
Proof. unfold fixed32, bytes_within, fail_if, throw_if. cbn. by destruct (_ || _); intros [= ->]. Qed.

Lemma u64_big n m : u64 (VBig n) = Ok m -> m = n /\ 0 <= n <= MAX_U64.
Proof. unfold u64, fail_if, throw_if. cbn. destruct (_ || _) eqn:E; intros [= ->]. b2p. split; [done|lia]. Qed.

Lemma sane_issue fuel binding l p : sane p ->
  closed (scope_at p l) = false ->
  (exists parent, streamTicketBinding (ticket_object (scope_at p l) parent) = Ok binding) ->
  sane (snd (issue h fuel binding (key (scope_at p l)) l (VBig (Stream.expiresMonotonicMillis (ready (scope_at p l)))) p)).
Proof.
  intros Hp Hopen Hbind. unfold issue, bindM at 1. destruct (currentMonotonic_eq p) as (r & -> & _).
  destruct r as [now|]; [|by apply sane_ticks].
  pose proof (keeps_sweep now _ (sane_ticks (S (ticks p)) p Hp)) as Hs. unfold sweep, modify in Hs. cbn [snd] in Hs.
  unfold sweep. autorewrite with machine. set (p1 := set_records _ _) in *. unfold id. autorewrite with machine.
  destruct (maxTickets p1 <=? _) eqn:Ecap; [done|]. autorewrite with machine.
  destruct (fixed32 (VBytes binding)) as [b|] eqn:Eb; [|done]. apply fixed32_ok in Eb as ->. autorewrite with machine.
  destruct (_ || _); [done|]. autorewrite with machine. destruct (u64 _) as [e|] eqn:Eu; [|done]. apply u64_big in Eu as [-> _].
  cbv zeta. set (expiry := if _ <? _ then _ else _). autorewrite with machine. destruct (expiry <=? now) eqn:Ee; [done|].
  unfold bindM at 1.
  destruct (drawTicket_eq fuel p1) as (r & k & -> & Hr). destruct r as [t|]; [|by apply sane_ticks].
  destruct (Hr t eq_refl) as [Hfree _]. cbn -[scope_at p1]. apply (sane_ticks k) in Hs.
  change (records (set_ticks k p1)) with (records p1). change (scope_at p l) with (scope_at (set_ticks k p1) l) in *.
  set (p2 := set_ticks k p1) in *. assert (Hl : scopes p2 !! l = Some (scope_at p2 l)).
  { apply scope_at_open. destruct (scopes p2 !! l) as [s|] eqn:E.
    - rewrite (scope_at_some _ _ _ E) in *. destruct (proj1 (Forall_lookup _ _) (all_good _ Hs) _ _ E). congruence.
    - unfold scope_at in Hopen. by rewrite nth_overflow in Hopen by (by apply lookup_ge_None). }
  destruct Hs as [Hpe Hpf Hg Hsl Hls Hku Hsf Htg Htu Htf Hd Hps]. split; cbn -[scope_at]; try done.
  - apply Forall_app. split; [done|]. repeat constructor. exists (scope_at p2 l). split; [done|]. split; [done|]. split; [done|].
    split; [|done]. cbn -[scope_at]. unfold expiry. destruct (_ <? _) eqn:E; b2p; lia.
  - rewrite map_app. apply NoDup_ListNoDup, NoDup_app. split; [by apply NoDup_ListNoDup|]. split; [|by apply NoDup_singleton].
    intros x Hx Hin. apply list_elem_of_singleton in Hin as ->. apply (find_ticket_none _ _ Hfree). by apply list_elem_of_In.
  - rewrite length_app. cbn. b2p. unfold p2 in *. cbn in *. lia.
Qed.

Lemma keeps_issueTicket fuel l parent : keeps (issueTicket h fuel l parent).
Proof.
  intros p Hp. unfold issueTicket, id. run. destruct (_ <=? l)%nat; [done|]. cbn -[scope_at assertActive].
  destruct (assertActive h l p) as [[now|e] p1] eqn:Ea; pose proof (keeps_assertActive l p Hp) as Hp1; rewrite Ea in Hp1; [|done].
  cbn [snd] in Hp1. apply assertActive_ok in Ea as (Hopen & -> & _). unfold scope, gets. cbn -[scope_at].
  destruct (streamTicketBinding _) as [b|] eqn:Eb; [|done]. apply sane_issue; [done|by rewrite scope_at_ticks|by exists parent].
Qed.

Lemma keeps_consume t b : keeps (consume h t b).
Proof.
  intros p Hp. unfold consume. autorewrite with machine. destruct (bytes_within t _ _) as [tk|]; [|done]. autorewrite with machine.
  destruct (fixed32 (VBytes b)) as [bd|]; [|done]. autorewrite with machine.
  destruct (find_ticket tk (records p)) as [r|]; [|done]. autorewrite with machine.
  apply (sane_filter_records p (fun e => negb (bytes_eqb (fst e) tk))) in Hp. revert Hp. generalize (set_records (List.filter (fun e => negb (bytes_eqb (fst e) tk)) (records p)) p).
  clear p. intros p Hp. revert p Hp. change (keeps (let* now := currentMonotonic h in throwM_if (ticketExpires r <=? now) RETRY_TERMINAL ;;*
    throwM_if (negb (bytes_eqb (bindingHash r) bd)) RETRY_TERMINAL ;;* ret (payload r))).
  apply keeps_bind; [apply keeps_clock|]. intros now. apply keeps_bind; [apply keeps_lift|]. intros _.
  apply keeps_bind; [apply keeps_lift|intros _; apply keeps_ret].
Qed.

Lemma keeps_consumeTicket t v : keeps (consumeTicket h t v).
Proof.
  unfold consumeTicket. apply keeps_bind; [apply keeps_lift|]. intros b. apply keeps_bind; [apply keeps_consume|]. intros l.
  apply keeps_bind; [apply keeps_gets|]. intros p. apply keeps_bind; [apply keeps_lift|]. intros _.
  apply keeps_bind; [apply keeps_assertActive|intros _; apply keeps_ret].
Qed.

(** *** Sessions *)

Lemma positiveOr_ok v d n : positiveOr v d = Ok n -> 1 <= n \/ n = d.
Proof.
  unfold positiveOr, positiveInteger, throw_if. intros Hq. apply bindR_ok in Hq as (o & Ho & [= <-]).
  destruct (nullish v); [injection Ho as <-; by right|]. destruct v; try done. destruct (_ || _) eqn:E; [done|].
  injection Ho as <-. b2p. left. simpl. lia.
Qed.

Lemma u64_ok v n : u64 v = Ok n -> 0 <= n <= MAX_U64 /\ u64 (VBig n) = Ok n.
Proof.
  intros Hq. assert (Hn : 0 <= n <= MAX_U64).
  { unfold u64, fail_if, throw_if in Hq. destruct v; try done.
    - destruct (_ || _) eqn:E1 in Hq; [done|]. cbn in Hq. destruct (_ || _) eqn:E2 in Hq; [done|]. injection Hq as <-. b2p. lia.
    - cbn in Hq. destruct (_ || _) eqn:E2 in Hq; [done|]. injection Hq as <-. b2p. lia. }
  split; [done|]. unfold u64, fail_if. cbn. rewrite (proj2 (Z.ltb_ge n 0)), (proj2 (Z.ltb_ge _ n)) by lia. done.
Qed.

Lemma streamKey_big f v n k : u64 v = Ok n -> streamKey f (VBig n) = Ok k -> streamKey f v = Ok k.
Proof. intros Hn. destruct (u64_ok _ _ Hn) as [_ Hb]. unfold streamKey. by rewrite Hn, Hb. Qed.

(** A new scope is at the end of the heap, open and empty. *)
Lemma newScope_eq options p : 0 <= maxPerStreamBufferedBytes p -> exists r n ss,
  newScope h options p = (r, set_scopes (scopes p ++ ss) (set_ticks n p)) /\
  match r with
  | Err _ => ss = []
  | Ok l => l = List.length (scopes p) /\ exists s, ss = [s] /\ good_scope s /\ closed s = false /\ bufferedBytes s = 0 /\
      streamKey options.["family"] options.["streamId"] = Ok (key s)
  end.
Proof.
  intros Hps. assert (Hsame : forall e, exists r n ss, (@Err nat e, p) = (r, set_scopes (scopes p ++ ss) (set_ticks n p)) /\
    match r with Err _ => ss = [] | Ok _ => False end)
    by (intros e; exists (Err e), (ticks p), []; rewrite app_nil_r; by destruct p).
  assert (Hweak : forall e n, exists r n' ss, (@Err nat e, set_ticks n p) = (r, set_scopes (scopes p ++ ss) (set_ticks n' p)) /\
    match r with Err _ => ss = [] | Ok l => False end) by (intros e n; exists (Err e), n, []; rewrite app_nil_r; by destruct p).
  assert (Hdone : forall q, (exists r n ss, q = (r, set_scopes (scopes p ++ ss) (set_ticks n p)) /\
      match r with Err _ => ss = [] | Ok _ => False end) -> exists r n ss,
      q = (r, set_scopes (scopes p ++ ss) (set_ticks n p)) /\
      match r with Err _ => ss = [] | Ok l => l = List.length (scopes p) /\ exists s, ss = [s] /\ good_scope s /\ closed s = false /\
        bufferedBytes s = 0 /\ streamKey options.["family"] options.["streamId"] = Ok (key s) end).
  { intros q ([l|e] & n & ss & -> & Hr); [done|]. by exists (Err e), n, ss. }
  unfold newScope, id. autorewrite with machine.
  destruct (u64 options.["streamId"]) as [sid|] eqn:Es; [|by apply Hdone]. autorewrite with machine.
  destruct (streamKey _ (VBig sid)) as [k|] eqn:Ek; [|by apply Hdone]. apply (streamKey_big _ _ _ _ Es) in Ek. autorewrite with machine.
  destruct (u64 options.["maxBytes"]) as [mb|] eqn:Em; [|by apply Hdone]. autorewrite with machine.
  destruct (mb =? 0) eqn:Emb; [by apply Hdone|]. autorewrite with machine.
  destruct (positiveOr _ _) as [mbuf|] eqn:Ebuf; [|by apply Hdone]. autorewrite with machine.
  destruct (_ <? mbuf); [by apply Hdone|]. autorewrite with machine.
  destruct (positiveInteger options.["idleMillis"] None) as [idle|]; [|by apply Hdone]. autorewrite with machine.
  destruct (positiveInteger options.["lifetimeMillis"] None) as [life|]; [|by apply Hdone]. autorewrite with machine.
  destruct (required idle) as [idle'|]; [|by apply Hdone]. autorewrite with machine.
  destruct (required life) as [life'|]; [|by apply Hdone]. autorewrite with machine.
  unfold bindM at 1. destruct (currentMonotonic_eq p) as ([now|e] & -> & _); [|by apply Hdone]. autorewrite with machine.
  destruct (normalizeReadiness _ now) as [rd|]; [|by apply Hdone]. cbv zeta. unfold bindM at 1.
  destruct (currentMonotonic_eq (set_ticks (S (ticks p)) p)) as ([now'|e] & -> & _);
    [|exact (Hdone _ (Hweak e (S (S (ticks p)))))].
  autorewrite with machine. eexists (Ok _), _, [_]. split; [reflexivity|].
  split; [reflexivity|]. eexists. split; [reflexivity|].
  destruct (u64_ok _ _ Em) as [Hmb _]. apply positiveOr_ok in Ebuf. repeat split; cbn; try done; lia.
Qed.

Lemma assoc_nat_none k l : assoc_nat k l = None -> ~ In k (map fst l).
Proof.
  induction l as [|[u x] l IH]; [by intros _ []|]. simpl. destruct (String.eqb u k) eqn:E; [done|]. apply String.eqb_neq in E.
  intros Hf [->|Hin]; [done|by apply IH].
Qed.

Lemma good_ticket_grow ss s t : good_ticket ss t -> good_ticket (ss ++ [s]) t.
Proof. intros (s0 & H0 & He). exists s0. split; [|done]. by apply lookup_app_l_Some. Qed.

Lemma keeps_createSession options : keeps (createSession h options).
Proof.
  intros p Hp. unfold createSession, id. autorewrite with machine. destruct (closing p) eqn:Ec; [done|]. autorewrite with machine.
  destruct (negb _); [done|]. autorewrite with machine.
  destruct (streamKey _ _) as [k|] eqn:Ek; [|done]. autorewrite with machine.
  destruct (bool_decide _) eqn:Eb; [done|]. autorewrite with machine. destruct (_ <=? _) eqn:El; [done|]. unfold bindM at 1.
  destruct (newScope_eq options p (per_stream _ Hp)) as (r & n & ss & -> & Hr). destruct r as [l|e].
  2:{ subst ss. rewrite app_nil_r. destruct (sane_ticks n p Hp). by split. }
  destruct Hr as (-> & s & -> & Hg & Hcl & Hbuf & Hk). rewrite Ek in Hk. injection Hk as ->.
  assert (Hfree : assoc_nat (key s) (sessions p) = None) by (apply bool_decide_eq_false in Eb; by apply eq_None_not_Some).
  apply assoc_nat_none in Hfree. autorewrite with machine. cbn.
  destruct Hp as [Hpe Hpf Hga Hsl Hls Hku Hsf Htg Htu Htf Hd Hps]. split; cbn; try done.
  - rewrite sum_app. cbn. lia.
  - apply Forall_app. split; [done|]. by apply Forall_singleton.
  - intros k l Hin. apply in_app_or in Hin as [Hin|[[= <- <-]|[]]].
    + destruct (Hsl k l Hin) as (s0 & H0 & He). exists s0. split; [by apply lookup_app_l_Some|done].
    + exists s. by rewrite lookup_app_r, Nat.sub_diag.
  - intros l s0 H0 Hc0. apply in_or_app. destruct (lt_dec l (List.length (scopes p))) as [Hlt|Hge].
    + rewrite lookup_app_l in H0 by done. left. by apply Hls.
    + rewrite lookup_app_r in H0 by lia. apply list_lookup_singleton_Some in H0 as [Hz <-]. right. left. f_equal. lia.
  - rewrite map_app. apply NoDup_ListNoDup, NoDup_app. split; [by apply NoDup_ListNoDup|]. split; [|by apply NoDup_singleton].
    intros x Hx Hin. apply list_elem_of_singleton in Hin as ->. apply Hfree. by apply list_elem_of_In.
  - rewrite length_app. cbn. b2p. lia.
  - eapply Forall_impl; [exact Htg|]. intros e He. by apply good_ticket_grow.
  - congruence.
Qed.

Lemma keeps_fence text event : keeps (fence text event).
Proof.
  unfold fence. cbv zeta. apply keeps_bind; [apply keeps_if; [apply keeps_ret|apply keeps_bind; [apply keeps_lift|intros; apply keeps_ret]]|].
  intros sq. apply keeps_bind; [apply keeps_if; [apply keeps_ret|apply keeps_bind; [apply keeps_lift|intros; apply keeps_ret]]|].
  intros hs. apply keeps_bind; [apply keeps_gets|]. intros live. apply keeps_each. intros e.
  apply keeps_bind; [apply keeps_gets|]. intros s. repeat apply keeps_if; try apply keeps_ret. apply keeps_close.
Qed.

Lemma keeps_poll_plane : keeps (poll h).
Proof.
  unfold poll. apply keeps_bind; [apply keeps_clock|]. intros now. apply keeps_bind; [apply keeps_sweep|]. intros _.
  apply keeps_bind; [apply keeps_gets|]. intros live. apply keeps_each. intros e. apply keeps_bind; [apply keeps_poll|intros; apply keeps_ret].
Qed.

(** *** Closing the plane *)

Lemma each_close_closing b reason (live : list (string * nat)) p :
  each (fun e => close (snd e) reason) live (set_closing b p) =
  (Ok tt, set_closing b (snd (each (fun e => close (snd e) reason) live p))).
Proof.
  revert p; induction live as [|e live IH]; intros p; [done|]. cbn [each]. unfold bindM. rewrite !close_eq.
  change (scope_at (set_closing b p) (snd e)) with (scope_at p (snd e)).
  destruct (closePromise _); [apply IH|]. change (after_close (snd e) reason (set_closing b p)) with
    (set_closing b (after_close (snd e) reason p)). apply IH.
Qed.

Lemma scope_at_default p l : scope_at p l = default no_scope (scopes p !! l).
Proof. apply nth_lookup. Qed.

Lemma closed_stays l reason p l' : closed (scope_at p l') = true -> closed (scope_at (snd (close l reason p)) l') = true.
Proof.
  rewrite close_eq. cbn. destruct (closePromise (scope_at p l)) eqn:E; [done|]. apply scope_at_open in E.
  rewrite !scope_at_default. cbn. destruct (decide (l = l')) as [<-|Hne]; [|by rewrite list_lookup_insert_ne].
  rewrite list_lookup_insert_eq by (by eapply lookup_lt_Some). done.
Qed.

Lemma closed_now l reason p : sane p -> closed (scope_at (snd (close l reason p)) l) = true.
Proof.
  intros Hs. rewrite close_eq. cbn. destruct (closePromise (scope_at p l)) eqn:E.
  - destruct (scopes p !! l) as [s|] eqn:El; [|by rewrite scope_at_default, El].
    rewrite (scope_at_some _ _ _ El) in *. destruct (proj1 (Forall_lookup _ _) (all_good _ Hs) _ _ El). congruence.
  - apply scope_at_open in E. rewrite scope_at_default. cbn. by rewrite list_lookup_insert_eq by (by eapply lookup_lt_Some).
Qed.

Lemma close_sessions l reason p e : In e (sessions (snd (close l reason p))) -> In e (sessions p).
Proof. rewrite close_eq. cbn. destruct (closePromise _); [done|]. cbn. by intros [? _]%filter_In. Qed.

Lemma close_records l reason p e : In e (records (snd (close l reason p))) -> In e (records p).
Proof. rewrite close_eq. cbn. destruct (closePromise _); [done|]. cbn. by intros [? _]%filter_In. Qed.

Record all_closed (live : list (string * nat)) (p p' : plane) : Prop := {
  loop_sane : sane p';
  loop_stays l : closed (scope_at p l) = true -> closed (scope_at p' l) = true;
  loop_live e : In e live -> closed (scope_at p' (snd e)) = true;
  loop_sessions e : In e (sessions p') -> In e (sessions p);
  loop_records e : In e (records p') -> In e (records p)
}.

Lemma close_loop reason live p : sane p -> all_closed live p (snd (each (fun e => close (snd e) reason) live p)).
Proof.
  revert p; induction live as [|e live IH]; intros p Hp; [by split|]. cbn [each]. unfold bindM.
  pose proof (sane_close p (snd e) reason Hp) as Hp1. pose proof (closed_now (snd e) reason p Hp) as Hn.
  pose proof (closed_stays (snd e) reason p) as Hst. pose proof (close_sessions (snd e) reason p) as Hss.
  pose proof (close_records (snd e) reason p) as Hrs.
  rewrite close_eq in *. cbn [snd] in *. set (p1 := if closePromise _ then p else _) in *.
  destruct (IH p1 Hp1) as [IHs IHst IHl IHss IHrs]. split; auto. intros e' [<-|Hin]; auto.
Qed.

(** The state of a plane that has been closed. *)
Record drained_plane (p : plane) : Prop := {
  no_sessions : sessions p = [];
  no_tickets : records p = [];
  no_buffers : planeBufferedBytes p = 0;
  none_open s : In s (scopes p) -> closed s = true /\ bufferedBytes s = 0
}.

Lemma sane_drained p : sane p -> sessions p = [] -> drained_plane p.
Proof.
  intros Hp Hs. assert (Hall : forall s, In s (scopes p) -> closed s = true /\ bufferedBytes s = 0).
  { intros s [l Hl]%list_elem_of_In%list_elem_of_lookup_1.
    destruct (closed s) eqn:Ec; [|pose proof (live_sessions _ Hp l s Hl Ec) as Hin; by rewrite Hs in Hin].
    destruct (proj1 (Forall_lookup _ _) (all_good _ Hp) _ _ Hl) as [_ Hb _ _ _ He]. split; [done|]. rewrite Hb.
    apply sum_zero. intros r Hr. specialize (He Ec). rewrite List.Forall_forall in He. unfold activeLength. by rewrite (He r Hr). }
  split; [done| |rewrite (plane_exact _ Hp); apply sum_zero; intros s Hin; by apply Hall|done].
  destruct (records p) as [|[t r] rs] eqn:Er; [done|]. pose proof (tickets_good _ Hp) as Ht. rewrite Er in Ht.
  apply Forall_cons in Ht as [(s & Hl & Hc & _) _]. cbn in Hl. destruct (Hall s); [by eapply list_elem_of_In, list_elem_of_lookup_2|congruence].
Qed.

Lemma closePlane_drains reason p : sane p -> closing p = false ->
  closing (snd (closePlane reason p)) = true /\ sane (snd (closePlane reason p)) /\ drained_plane (snd (closePlane reason p)).
Proof.
  intros Hp Hc. unfold closePlane, id. autorewrite with machine. rewrite Hc. autorewrite with machine.
  assert (Hp1 : sane (set_records [] p)).
  { destruct Hp as [Hpe Hpf Hga Hsl Hls Hku Hsf Htg Htu Htf Hd Hps]. split; cbn; try done; try lia. constructor. }
  change (set_records [] (set_closing true p)) with (set_closing true (set_records [] p)).
  change (sessions (set_closing true (set_records [] p))) with (sessions p).
  rewrite each_close_closing. cbn [snd]. destruct (close_loop reason (sessions p) _ Hp1) as [Hs _ Hl Hss _].
  set (p2 := snd _) in *. assert (Hnone : sessions p2 = []).
  { destruct (sessions p2) as [|[k l] ss] eqn:E; [done|]. pose proof (Hss (k, l) (or_introl eq_refl)) as Hin.
    destruct (sessions_live _ Hs k l) as (s & Hsl & _ & Hcl); [rewrite E; by left|].
    specialize (Hl (k, l) Hin). cbn in Hl. rewrite (scope_at_some _ _ _ Hsl) in Hl. congruence. }
  assert (Hs' : sane (set_closing true p2)) by (destruct Hs; by split). split; [done|]. split; [done|]. by apply sane_drained.
Qed.

Lemma keeps_closePlane reason : keeps (closePlane reason).
Proof.
  intros p Hp. destruct (closing p) eqn:E; [|by apply closePlane_drains].
  unfold closePlane, id. autorewrite with machine. by rewrite E.
Qed.

(** ** The transition system *)

Inductive operation :=
| CreateSession (options : val)
| IssueTicket (fuel l : nat) (parentSessionId : val)
| ConsumeTicket (token expected : val)
| CountBytes (l : nat) (length : val)
| ReserveBuffer (l : nat) (length : val)
| ReleaseBuffer (l i : nat)
| Touch (l : nat)
| PollScope (l : nat)
| FireTimer (l : nat)
| Close (l : nat) (reason : string)
| Fence (text : val -> string) (event : val)
| Poll
| ClosePlane (reason : string).

Definition discard {A} (m : M plane A) : M plane unit := m ;;* ret tt.

Definition exec (o : operation) : M plane unit :=
  match o with
  | CreateSession options => discard (createSession h options)
  | IssueTicket fuel l parent => discard (issueTicket h fuel l parent)
  | ConsumeTicket token expected => discard (consumeTicket h token expected)
  | CountBytes l n => countBytes h l n
  | ReserveBuffer l n => discard (reserveBuffer h l n)
  | ReleaseBuffer l i => releaseBuffer l i
  | Touch l => touch h l
  | PollScope l => discard (pollScope h l)
  | FireTimer l => fireTimer h l
  | Close l reason => close l reason
  | Fence text event => fence text event
  | Poll => poll h
  | ClosePlane reason => closePlane reason
  end.

Inductive reachable : plane -> Prop :=
| reach_new options p : newPlane h options = Ok p -> reachable p
| reach_step o p : reachable p -> reachable (snd (exec o p)).

Lemma new_sane options p : newPlane h options = Ok p -> sane p.
Proof.
  unfold newPlane. destruct (monotonicMillis h 0); try done. intros Hq. apply bindR_ok in Hq as (? & _ & Hq).
  apply bindR_ok in Hq as (st & Hst%positiveOr_ok & Hq). apply bindR_ok in Hq as (bu & Hbu%positiveOr_ok & Hq).
  apply bindR_ok in Hq as (ps & Hps%positiveOr_ok & Hq). apply bindR_ok in Hq as (? & _ & Hq).
  apply bindR_ok in Hq as (ti & Hti%positiveOr_ok & Hq). apply bindR_ok in Hq as (tt' & _ & [= <-]).
  unfold DEFAULT_MAX_STREAMS, DEFAULT_MAX_PENDING_TICKETS, DEFAULT_MAX_BUFFERED_BYTES, DEFAULT_MAX_STREAM_BUFFERED_BYTES in *.
  split; cbn; try done; try lia; try constructor.
Qed.

Lemma keeps_exec o : keeps (exec o).
Proof.
  assert (Hd : forall A (m : M plane A), keeps m -> keeps (discard m)) by (intros A m Hm; apply keeps_bind; [done|intros; apply keeps_ret]).
  destruct o; cbn [exec]; try apply Hd;
    auto using keeps_createSession, keeps_issueTicket, keeps_consumeTicket, keeps_countBytes, keeps_reserveBuffer,
      keeps_releaseBuffer, keeps_touch, keeps_poll, keeps_fire, keeps_close, keeps_fence, keeps_poll_plane, keeps_closePlane.
Qed.

Lemma reachable_sane p : reachable p -> sane p.
Proof. induction 1 as [options p Hp|o p _ IH]; [by eapply new_sane|by apply keeps_exec]. Qed.

(** ** Properties *)

(** C35: The books of the stream plane are right in every state it can reach,
    through any sequence of openings, byte counts, buffer reservations and
    releases (repeated or late), tickets, timers and closings, successful or
    refused: the plane's buffered bytes are the sum over its streams and a
    stream's are the sum of its active reservations; the limits on streams,
    tickets, buffers and aggregate bytes hold; the session map holds exactly the
    open streams, under distinct keys; a closed stream holds nothing; and every
    pending ticket is for an open stream, expires no later than its readiness
    and is bound to it. *)
Theorem stream_books p : reachable p -> sane p.
Proof. apply reachable_sane. Qed.

(** Draining is complete and final: closing the plane ends every stream,
    frees every buffer and revokes every ticket at once, and in every reachable
    state in which it is closing nothing is open and no stream can be opened. *)
Theorem plane_drains reason p : reachable p ->
  (closing p = false -> closing (snd (closePlane reason p)) = true /\ drained_plane (snd (closePlane reason p))) /\
  (closing p = true -> drained_plane p /\ forall options, createSession h options p = (Err BUSY, p)).
Proof.
  intros Hs%reachable_sane. split; intros Hc.
  - by destruct (closePlane_drains reason p Hs Hc) as (? & _ & ?).
  - split; [apply sane_drained; [done|by apply drained]|]. intros options. unfold createSession, id.
    autorewrite with machine. by rewrite Hc.
Qed.

(** What a stream has been checked for when an operation on it succeeds. *)
Definition checked_live (l : nat) (p : plane) : Prop :=
  closed (scope_at p l) = false /\ exists now, live_at (scope_at p l) (ticks p) now.

Lemma touch_ok l p p' : touch h l p = (Ok tt, p') -> checked_live l p.
Proof.
  unfold touch, bindM. destruct (assertActive h l p) as [[now|e] p1] eqn:Ea; [|done]. intros _.
  apply assertActive_ok in Ea as (Hc & _ & Hl). split; [done|by exists now].
Qed.

Lemma assertActive_err l p e p' : assertActive h l p = (Err e, p') -> In e [RETRY_TERMINAL; TypeError; EXPIRED].
Proof.
  unfold assertActive, scope. autorewrite with machine. destruct (closed (scope_at p l)); [intros [= <- _]; by left|].
  unfold bindM at 1. destruct (currentMonotonic_eq p) as ([now|e'] & Hc & _).
  - rewrite Hc. unfold readyNow, tick, scope. autorewrite with machine. cbv zeta.
    repeat match goal with |- (if ?c then _ else _) _ = _ -> _ => destruct c end; try discriminate;
      unfold bindM; rewrite close_eq; intros [= <- _]; right; right; by left.
  - rewrite Hc. intros [= <- _]. revert Hc. unfold currentMonotonic, tick. autorewrite with machine.
    destruct (monotonicMillis h (ticks p)); autorewrite with machine; try (intros [= <-]; right; by left).
    destruct (_ || _); intros [= <-]; right; by left.
Qed.

Lemma schedule_err l p e p' : scheduleExpiry h l p = (Err e, p') -> e = TypeError.
Proof.
  unfold scheduleExpiry, scope. autorewrite with machine. destruct (closed _); [done|]. unfold update. autorewrite with machine.
  unfold bindM. match goal with |- context [currentMonotonic h ?q] => destruct (currentMonotonic_eq q) as ([now|e'] & Hc & _) end; rewrite Hc; [done|].
  intros [= <- _]. revert Hc. unfold currentMonotonic, tick. autorewrite with machine.
  destruct (monotonicMillis h _); autorewrite with machine; try (by intros [= <-]). by destruct (_ || _); intros [= <-].
Qed.

Lemma positive_length_num n : 1 <= n <= MAX_SAFE_INTEGER -> positive_length (VNum n) = Ok n.
Proof.
  intros Hn. unfold positive_length, fail_if, isSafeInteger. unfold MAX_SAFE_INTEGER in *.
  by rewrite (proj2 (Z.leb_le _ _)), (proj2 (Z.leb_le _ _)), (proj2 (Z.ltb_ge _ _)) by lia.
Qed.

(** A counted length, or the end of the stream. *)
Lemma countBytes_cases l n p r p' : sane p -> 1 <= n <= MAX_SAFE_INTEGER -> countBytes h l (VNum n) p = (r, p') ->
  match r with
  | Ok _ => checked_live l p /\ totalBytes (scope_at p l) + n <= maxBytes (scope_at p l)
  | Err TOO_LARGE => maxBytes (scope_at p l) < totalBytes (scope_at p l) + n /\ closed (scope_at p' l) = true
  | Err _ => True
  end.
Proof.
  intros Hs Hn. unfold countBytes, scope. rewrite bind_lift, (positive_length_num n Hn). unfold bindM at 1.
  destruct (assertActive h l p) as [[now|e] p1] eqn:Ea.
  2:{ intros [= <- _]. apply assertActive_err in Ea as [<-|[<-|[<-|[]]]]; done. }
  apply assertActive_ok in Ea as (Hc & -> & Hl). rewrite bind_gets, scope_at_ticks. cbv zeta.
  destruct (maxBytes (scope_at p l) <? _) eqn:E; b2p.
  - unfold bindM. pose proof (closed_now l "byte-cap" _ (sane_ticks (S (S (ticks p))) p Hs)) as Hn'.
    rewrite close_eq in *. cbn [snd] in Hn'. by intros [= <- <-].
  - unfold update. rewrite bind_modify. destruct (touch h l _) as [[[]|e] p2] eqn:Et; intros [= <- <-].
    + split; [split; [done|by exists now]|lia].
    + revert Et. unfold touch, bindM at 1. destruct (assertActive h l _) as [[t|e'] p3] eqn:Ea.
      * unfold update. rewrite bind_modify. intros ->%schedule_err. done.
      * intros [= -> _]. apply assertActive_err in Ea as [<-|[<-|[<-|[]]]]; done.
Qed.

Lemma reserveBuffer_ok l n p i p' : 1 <= n <= MAX_SAFE_INTEGER -> reserveBuffer h l (VNum n) p = (Ok i, p') ->
  checked_live l p /\ bufferedBytes (scope_at p l) + n <= maxBufferedBytes (scope_at p l) /\
  planeBufferedBytes p + n <= planeMaxBufferedBytes p /\ planeBufferedBytes p' = planeBufferedBytes p + n.
Proof.
  intros Hn. unfold reserveBuffer, scope, id. rewrite bind_lift, (positive_length_num n Hn). unfold bindM at 1.
  destruct (assertActive h l p) as [[now|e] p1] eqn:Ea; [|done]. apply assertActive_ok in Ea as (Hc & -> & Hl).
  rewrite !bind_gets, scope_at_ticks. destruct (_ || _) eqn:E; [unfold bindM; by rewrite close_eq|].
  unfold update. autorewrite with machine. intros [= _ <-]. b2p. split; [split; [done|by exists now]|]. by cbn in *.
Qed.

(** No byte is counted and no buffer granted on a stream that is over: when
    either succeeds, the stream was open, its readiness hook agreed, and at the
    clock reading of the check it was within its readiness, its lifetime and its
    idle limit; the bytes counted keep the aggregate within its cap and bytes
    beyond the cap end the stream; a grant fits the buffers of the stream and
    of the plane. *)
Theorem stream_limits l n p : reachable p -> 1 <= n <= MAX_SAFE_INTEGER ->
  match countBytes h l (VNum n) p with
  | (Ok _, _) => checked_live l p /\ totalBytes (scope_at p l) + n <= maxBytes (scope_at p l)
  | (Err TOO_LARGE, p') => maxBytes (scope_at p l) < totalBytes (scope_at p l) + n /\ closed (scope_at p' l) = true
  | (Err _, _) => True
  end /\
  match reserveBuffer h l (VNum n) p with
  | (Ok _, p') => checked_live l p /\ bufferedBytes (scope_at p l) + n <= maxBufferedBytes (scope_at p l) /\
      planeBufferedBytes p + n <= planeMaxBufferedBytes p /\ planeBufferedBytes p' = planeBufferedBytes p + n
  | (Err _, _) => True
  end.
Proof.
  intros Hs%reachable_sane Hn. split.
  - destruct (countBytes h l (VNum n) p) as [r p'] eqn:E. apply countBytes_cases in E; [|done..]. by destruct r as [[]|[]].
  - destruct (reserveBuffer h l (VNum n) p) as [[i|e] p'] eqn:E; [|done]. by apply (reserveBuffer_ok l n p i).
Qed.
(** *** Tickets *)

(** Two ticket objects that say the same thing. *)
Record same_binding (v w : val) : Prop := {
  same_families : num v.["family"] = num w.["family"];
  same_streams : u64 v.["streamId"] = u64 w.["streamId"];
  same_sequences : u64 v.["descriptorSequence"] = u64 w.["descriptorSequence"];
  same_hashes : fixed32 v.["descriptorHash"] = fixed32 w.["descriptorHash"];
  same_parents : bytes_within v.["parentSessionId"] 1 256 = bytes_within w.["parentSessionId"] 1 256
}.

Lemma stream_encodeU64 v bs : encodeU64 v = Ok bs -> exists n, u64 v = Ok n /\ 0 <= n <= MAX_U64 /\ bs = be_bytes 8 n.
Proof.
  unfold encodeU64. intros Hq. apply bindR_ok in Hq as (n & Hn & [= <-]). exists n. split; [done|].
  split; [by apply (u64_ok v)|]. rewrite writeU64_be_spec by done. rewrite splice_all; [done|].
  by rewrite blen_be_bytes.
Qed.

Lemma bytes_within_length v lo hi bs : bytes_within v lo hi = Ok bs -> lo <= blen bs <= hi.
Proof.
  unfold bytes_within, fail_if, throw_if. intros Hq. apply bindR_ok in Hq as (o & _ & Hq).
  destruct (_ || _) eqn:E; [done|]. injection Hq as <-. b2p. lia.
Qed.

(** The shape of a binding preimage. *)
Lemma bindingPreimage_ok v a : bindingPreimage v = Ok a -> exists sid seq hash parent,
  stream_family v.["family"] = true /\ u64 v.["streamId"] = Ok sid /\ u64 v.["descriptorSequence"] = Ok seq /\
  fixed32 v.["descriptorHash"] = Ok hash /\ bytes_within v.["parentSessionId"] 1 256 = Ok parent /\
  a = BINDING_DOMAIN ++ [z2b (num v.["family"])] ++ be_bytes 8 sid ++ be_bytes 8 seq ++ hash ++
    [z2b (js_ushr (blen parent) 8); z2b (js_and (blen parent) 0xff)] ++ parent.
Proof.
  unfold bindingPreimage. intros Hq. apply bindR_ok in Hq as (? & _ & Hq). apply bindR_ok in Hq as (? & Hf & Hq).
  apply fail_if_ok, negb_false_iff in Hf. apply bindR_ok in Hq as (parent & Hp & Hq). apply bindR_ok in Hq as (? & _ & Hq).
  apply bindR_ok in Hq as (sid & Hs & Hq). apply bindR_ok in Hq as (? & _ & Hq). cbn [Hash.concat bindR] in Hq.
  apply bindR_ok in Hq as (b1 & H1 & Hq). injection Hq as <-.
  apply bindR_ok in H1 as (b2 & H2 & [= <-]). apply bindR_ok in H2 as (e1 & He1 & H2).
  apply stream_encodeU64 in He1 as (n & Hn & _ & ->). apply u64_big in Hn as [-> _].
  apply bindR_ok in H2 as (b3 & H3 & [= <-]). apply bindR_ok in H3 as (e2 & He2 & H3).
  apply stream_encodeU64 in He2 as (seq & Hseq & _ & ->). apply bindR_ok in H3 as (b4 & H4 & [= <-]).
  apply bindR_ok in H4 as (hash & Hh & H4). injection H4 as <-. exists sid, seq, hash, parent.
  split_and!; try done. cbn [app]. by rewrite app_nil_r.
Qed.

Lemma family_byte f g : stream_family f = true -> stream_family g = true -> z2b (num f) = z2b (num g) -> num f = num g.
Proof.
  assert (Hc : forall x, stream_family x = true -> x = VNum 4 \/ x = VNum 5).
  { intros x Hx. unfold stream_family in Hx. apply orb_true_iff in Hx as [Hx|Hx]; apply is_num_iff in Hx; [by left|by right]. }
  intros [->| ->]%Hc [->| ->]%Hc; done.
Qed.

Lemma bindingPreimage_inj v w a : bindingPreimage v = Ok a -> bindingPreimage w = Ok a -> same_binding v w.
Proof.
  intros (s1 & q1 & h1 & p1 & Hf1 & Hs1 & Hq1 & Hh1 & Hp1 & ->)%bindingPreimage_ok
    (s2 & q2 & h2 & p2 & Hf2 & Hs2 & Hq2 & Hh2 & Hp2 & Heq)%bindingPreimage_ok.
  pose proof (bytes_within_length _ _ _ _ Hh1). pose proof (bytes_within_length _ _ _ _ Hh2).
  apply app_inj_1 in Heq as [_ Heq]; [|done]. apply app_inj_1 in Heq as [Hf Heq]; [|done]. injection Hf as Hf.
  apply app_inj_1 in Heq as [Hs Heq]; [|by rewrite !length_be_bytes]. apply app_inj_1 in Heq as [Hq Heq]; [|by rewrite !length_be_bytes].
  apply app_inj_1 in Heq as [-> Heq]; [|unfold blen in *; lia]. apply app_inj_1 in Heq as [_ ->]; [|done].
  pose proof (u64_ok _ _ Hs1) as [? _]. pose proof (u64_ok _ _ Hs2) as [? _]. pose proof (u64_ok _ _ Hq1) as [? _].
  pose proof (u64_ok _ _ Hq2) as [? _]. unfold MAX_U64 in *.
  apply be_bytes_inj in Hs, Hq; [|change (256 ^ Z.of_nat 8) with 18446744073709551616; lia..]. subst.
  split; [by apply family_byte|congruence..].
Qed.

(** Two inputs of the hash with one digest. *)
Definition bindings_collide (v w : val) : Prop := exists a b, bindingPreimage v = Ok a /\ bindingPreimage w = Ok b /\
  a <> b /\ Hash.blake2b256 a = Hash.blake2b256 b.

Lemma binding_hash_inj v w b : streamTicketBinding v = Ok b -> streamTicketBinding w = Ok b ->
  same_binding v w \/ bindings_collide v w.
Proof.
  unfold streamTicketBinding. intros Hv Hw. apply bindR_ok in Hv as (x & Hx & [= Hbx]). apply bindR_ok in Hw as (y & Hy & [= Hby]).
  destruct (bytes_eqb x y) eqn:Hne; [apply bytes_eqb_eq in Hne as ->; left; by eapply bindingPreimage_inj|]. right. exists x, y. split_and!; [done..| |congruence]. intros ->. by rewrite bytes_eqb_refl in Hne.
Qed.

Lemma find_ticket_in t l r : find_ticket t l = Some r -> In (t, r) l.
Proof.
  induction l as [|[u x] l IH]; [done|]. simpl. destruct (bytes_eqb u t) eqn:E; [|by right; apply IH].
  apply bytes_eqb_eq in E as ->. intros [= ->]. by left.
Qed.

Lemma find_ticket_gone t l : (forall r, ~ In (t, r) l) -> find_ticket t l = None.
Proof. intros Hn. destruct (find_ticket t l) as [r|] eqn:E; [|done]. by destruct (Hn r (find_ticket_in _ _ _ E)). Qed.

Lemma filter_gone t (l : list (bytes * ticket)) r : ~ In (t, r) (List.filter (fun e => negb (bytes_eqb (fst e) t)) l).
Proof. intros [_ Hf]%filter_In. cbn in Hf. by rewrite bytes_eqb_refl in Hf. Qed.

Lemma assertActive_records l p e : In e (records (snd (assertActive h l p))) -> In e (records p).
Proof.
  unfold assertActive, scope. autorewrite with machine. destruct (closed (scope_at p l)); [done|].
  unfold bindM at 1. destruct (currentMonotonic_eq p) as ([now|e'] & Hc & _); rewrite Hc; [|done].
  unfold readyNow, tick, scope. autorewrite with machine. cbv zeta.
  repeat match goal with |- In _ (records (snd ((if ?c then _ else _) _))) -> _ => destruct c end; try done;
    unfold bindM; rewrite close_eq; cbn [snd throw]; (destruct (closePromise _); [done|]); cbn; by intros [? _]%filter_In.
Qed.

(** *** Where pending tickets come from *)

(** No ticket is pending but those of [R]. *)
Definition within (R : list (bytes * ticket)) (p : plane) : Prop := List.incl (records p) R.

Lemma within_modify R f : (forall p e, In e (records (f p)) -> In e (records p)) -> preserves (within R) (modify f).
Proof. intros Hf. apply preserves_modify. intros p Hp e He. by apply Hp, Hf. Qed.

Ltac same_records := apply within_modify; intros ? ?; cbn; first [done | by intros [? _]%filter_In].

Section Within.
Context (R : list (bytes * ticket)).

Lemma within_update l f : preserves (within R) (update l f).
Proof. same_records. Qed.
Lemma within_tick : preserves (within R) tick.
Proof. unfold tick. keeping; same_records. Qed.
#[local] Hint Resolve within_update within_tick : keeps.
Lemma within_clock : preserves (within R) (currentMonotonic h).
Proof. unfold currentMonotonic. keeping. Qed.
#[local] Hint Resolve within_clock : keeps.
Lemma within_sweep now : preserves (within R) (sweep now).
Proof. same_records. Qed.
Lemma within_close l reason : preserves (within R) (close l reason).
Proof. intros p Hp e He. by apply Hp, (close_records l reason). Qed.
#[local] Hint Resolve within_sweep within_close : keeps.
Lemma within_active l : preserves (within R) (assertActive h l).
Proof. unfold assertActive, readyNow, scope. keeping. Qed.
#[local] Hint Resolve within_active : keeps.
Lemma within_schedule l : preserves (within R) (scheduleExpiry h l).
Proof. unfold scheduleExpiry, scope. keeping. Qed.
#[local] Hint Resolve within_schedule : keeps.
Lemma within_touch l : preserves (within R) (touch h l).
Proof. unfold touch. keeping. Qed.
Lemma within_poll l : preserves (within R) (pollScope h l).
Proof. unfold pollScope, scope. keeping. Qed.
#[local] Hint Resolve within_touch within_poll : keeps.

Lemma within_consume t b : preserves (within R) (consume h t b).
Proof. unfold consume. keeping; same_records. Qed.
#[local] Hint Resolve within_consume : keeps.

Lemma within_scope options : preserves (within R) (newScope h options).
Proof. unfold newScope. keeping; same_records. Qed.
#[local] Hint Resolve within_scope : keeps.

(** Only issuing makes a ticket pending. *)
Lemma within_exec o : (forall fuel l parent, o <> IssueTicket fuel l parent) -> preserves (within R) (exec o).
Proof.
  intros Ho. destruct o; try (by edestruct Ho); cbn [exec]; unfold discard.
  - unfold createSession. keeping; same_records.
  - unfold consumeTicket. keeping.
  - unfold countBytes, scope. keeping.
  - unfold reserveBuffer, scope. keeping; same_records.
  - unfold releaseBuffer, scope. keeping; same_records.
  - keeping.
  - keeping.
  - unfold fireTimer, scope. keeping.
  - keeping.
  - unfold fence, scope. keeping.
  - unfold poll. keeping.
  - unfold closePlane. keeping; same_records.
Qed.

End Within.

Lemma issue_records fuel b s l expires p x : let (r, p') := issue h fuel b s l expires p in
  In x (records p') -> In x (records p) \/ r = Ok (fst x).
Proof.
  unfold issue, bindM at 1. destruct (currentMonotonic_eq p) as (r & -> & _). destruct r as [now|]; [|by left].
  unfold sweep, id. autorewrite with machine. set (p1 := set_records _ _).
  assert (Hp1 : forall y, In y (records p1) -> In y (records p)) by (intros y; cbn; by intros [? _]%filter_In).
  destruct (_ <=? _); [by left; apply Hp1|]. autorewrite with machine. destruct (fixed32 _) as [b'|]; [|by left; apply Hp1]. autorewrite with machine.
  destruct (_ || _); [by left; apply Hp1|]. autorewrite with machine. destruct (u64 _) as [e|]; [|by left; apply Hp1]. autorewrite with machine. cbv zeta.
  destruct (_ <=? now); [by left; apply Hp1|]. autorewrite with machine. unfold bindM at 1.
  destruct (drawTicket_eq fuel p1) as (r & k & -> & _). destruct r as [t|]; [|by left; apply Hp1]. autorewrite with machine. unfold ret.
  cbn. intros [Hin|[<-|[]]]%in_app_or; [left; by apply Hp1|by right].
Qed.

Lemma issueTicket_records fuel l parent p x : let (r, p') := issueTicket h fuel l parent p in
  In x (records p') -> In x (records p) \/ r = Ok (fst x).
Proof.
  unfold issueTicket, id. autorewrite with machine. destruct (_ <=? l)%nat; [by left|]. autorewrite with machine. unfold bindM at 1.
  pose proof (assertActive_records l p x) as Ha. destruct (assertActive h l p) as [[now|] p1]; [|by left; apply Ha]. cbn [snd] in Ha.
  unfold scope. autorewrite with machine. destruct (streamTicketBinding _) as [b|]; [|by left; apply Ha]. autorewrite with machine.
  match goal with |- context [issue h fuel b ?s l ?e p1] => pose proof (issue_records fuel b s l e p1 x) as Hi; destruct (issue h fuel b s l e p1) as [r p'] end.
  intros [Hin|Hr]%Hi; [left; by apply Ha|by right].
Qed.

(** A step in which [token] is not drawn for a ticket. *)
Definition undrawn (token : bytes) (p p' : plane) : Prop := exists o, p' = snd (exec o p) /\
  forall fuel l parent, o = IssueTicket fuel l parent -> fst (issueTicket h fuel l parent p) <> Ok token.

(** [token] was last issued in [p0], for the stream at [l] and this parent
    session. *)
Definition last_issue (token : bytes) (l : nat) (parent : val) (p0 p : plane) : Prop := exists fuel p1,
  reachable p0 /\ issueTicket h fuel l parent p0 = (Ok token, p1) /\ rtc (undrawn token) p1 p.

Lemma exec_issue fuel l parent p : snd (exec (IssueTicket fuel l parent) p) = snd (issueTicket h fuel l parent p).
Proof. cbn [exec]. unfold discard, bindM. by destruct (issueTicket h fuel l parent p) as [[]]. Qed.

Lemma undrawn_records token r p p' : undrawn token p p' -> In (token, r) (records p') -> In (token, r) (records p).
Proof.
  intros (o & -> & Hu) Hin.
  assert (Ho : (exists fuel l parent, o = IssueTicket fuel l parent) \/ forall fuel l parent, o <> IssueTicket fuel l parent) by (destruct o; (by right) || (left; by eexists _, _, _)).
  destruct Ho as [(fuel & l & parent & ->)|Hn].
  - rewrite exec_issue in Hin. pose proof (issueTicket_records fuel l parent p (token, r)) as Hi. specialize (Hu fuel l parent eq_refl).
    destruct (issueTicket h fuel l parent p) as [res p']. by destruct (Hi Hin).
  - refine (within_exec (records p) o _ p _ _ Hin); [done|by intros e].
Qed.

Lemma undrawn_steps token r p p' : rtc (undrawn token) p p' -> In (token, r) (records p') -> In (token, r) (records p).
Proof. induction 1 as [|p p1 p' Hu _ IH]; [done|]. intros Hin%IH. by eapply undrawn_records. Qed.

(** What is pending was issued. *)
Lemma pending_issued token r p : reachable p -> In (token, r) (records p) -> exists l parent p0, last_issue token l parent p0 p.
Proof.
  induction 1 as [options p Hp|o p Hr IH]; intros Hin.
  - exfalso. revert Hin. enough (records p = []) as -> by done. unfold newPlane in Hp. destruct (monotonicMillis h 0); try done. by oks.
  - assert (Hu : (exists fuel l parent, o = IssueTicket fuel l parent /\ fst (issueTicket h fuel l parent p) = Ok token) \/ undrawn token p (snd (exec o p))).
    { destruct o; try (right; by eexists). assert (He : fst (issueTicket h fuel l parentSessionId p) = Ok token \/ fst (issueTicket h fuel l parentSessionId p) <> Ok token).
      { destruct (fst _) as [u|]; [|by right]. destruct (bytes_eqb u token) eqn:E; [apply bytes_eqb_eq in E as ->; by left|].
        right. intros [= ->]. by rewrite bytes_eqb_refl in E. }
      destruct He as [He|He]; [left; by eexists _, _, _|]. right. eexists. split; [reflexivity|]. by intros ? ? ? [= <- <- <-]. }
    destruct Hu as [(fuel & l & parent & -> & He)|Hu].
    + exists l, parent, p, fuel, (snd (issueTicket h fuel l parent p)). split_and!; [done|by rewrite <- He, <- surjective_pairing|].
      rewrite exec_issue. apply rtc_refl.
    + destruct (IH (undrawn_records _ _ _ _ Hu Hin)) as (l & parent & p0 & fuel & p1 & H0 & H1 & Hs). exists l, parent, p0, fuel, p1.
      split_and!; [done..|by eapply rtc_r].
Qed.

Lemma find_ticket_app t l r : find_ticket t l = None -> find_ticket t (l ++ [(t, r)]) = Some r.
Proof.
  induction l as [|[u x] l IH]; cbn; [by rewrite bytes_eqb_refl|]. by destruct (bytes_eqb u t).
Qed.

Lemma issue_ok fuel b l s expires p token p1 :
  issue h fuel b s l (VBig expires) p = (Ok token, p1) ->
  exists now r, monotonicMillis h (ticks p) = VBig now /\ find_ticket token (records p1) = Some r /\ blen token = TICKET_BYTES /\
    bindingHash r = b /\ payload r = l /\ ticketExpires r = Z.min (now + ttlMillis p) expires /\ scopes p1 = scopes p.
Proof.
  unfold issue, sweep, id, bindM at 1. destruct (currentMonotonic_eq p) as (r & -> & Hc).
  destruct r as [now|]; [|done]. destruct (Hc now eq_refl) as [Hnow _]. autorewrite with machine. set (p2 := set_records _ _).
  destruct (_ <=? _); [done|]. autorewrite with machine. destruct (fixed32 (VBytes b)) as [b'|] eqn:Eb; [|done].
  apply fixed32_ok in Eb as ->. autorewrite with machine. destruct (_ || _); [done|]. autorewrite with machine.
  destruct (u64 _) as [e|] eqn:Eu; [|done]. apply u64_big in Eu as [-> _]. autorewrite with machine. cbv zeta.
  destruct (_ <=? now); [done|]. autorewrite with machine. unfold bindM at 1.
  destruct (drawTicket_eq fuel p2) as (r & k & -> & Ht). destruct r as [t|]; [|done]. destruct (Ht t eq_refl) as [Hfree Hlen].
  unfold bindM, modify, ret. intros [= <- <-]. exists now. eexists. cbn. rewrite find_ticket_app by done.
  split_and!; try done. cbn. destruct (expires <? _) eqn:E; b2p; lia.
Qed.

Lemma only_ticket token r r' (l : list (bytes * ticket)) : List.NoDup (map fst l) -> In (token, r) l -> In (token, r') l -> r = r'.
Proof.
  induction l as [|[u x] l IH]; [done|]. cbn. rewrite NoDup_cons_iff. intros [Hu Hn] [H1|H1] [H2|H2]; [congruence| | |by apply IH].
  - injection H1 as -> ->. destruct Hu. by apply (in_map fst) in H2.
  - injection H2 as -> ->. destruct Hu. by apply (in_map fst) in H1.
Qed.

(** A pending ticket is what its last issue made it. *)
Lemma last_issue_binds token l parent p0 p r : last_issue token l parent p0 p -> In (token, r) (records p) ->
  payload r = l /\ streamTicketBinding (ticket_object (scope_at p0 l) parent) = Ok (bindingHash r).
Proof.
  intros (fuel & p1 & Hr & Hi & Hs) Hin%(undrawn_steps _ _ _ _ Hs).
  assert (Hp1 : sane p1) by (pose proof (keeps_issueTicket fuel l parent p0 (reachable_sane _ Hr)) as Hk; by rewrite Hi in Hk).
  unfold issueTicket, id in Hi. autorewrite with machine in Hi. destruct (_ <=? l)%nat; [done|]. autorewrite with machine in Hi. unfold bindM at 1 in Hi.
  destruct (assertActive h l p0) as [[now|] p2] eqn:Ea; [|done]. apply assertActive_ok in Ea as (_ & -> & _). unfold scope in Hi. autorewrite with machine in Hi.
  change (scope_at (set_ticks _ p0) l) with (scope_at p0 l) in Hi. destruct (streamTicketBinding _) as [b|] eqn:Eb; [|done]. autorewrite with machine in Hi.
  apply issue_ok in Hi as (_ & r' & _ & Hf & _ & Hb & Hl & _). apply find_ticket_in in Hf.
  assert (r = r') as ->; [|split; [done|by rewrite Hb]].
  by apply (only_ticket token r r' (records p1) (tokens_unique _ Hp1)).
Qed.

(** What a consumed ticket admits to. *)
Record admitted (token : bytes) (expected : val) (p : plane) (l : nat) (t : ticket) (s : StreamScope) : Prop := {
  adm_pending : In (token, t) (records p) /\ payload t = l;
  adm_scope : scopes p !! l = Some s /\ closed s = false;
  adm_fresh : exists now, monotonicMillis h (ticks p) = VBig now /\ now < ticketExpires t;
  adm_live : exists n now, live_at s n now;
  adm_issued : exists parent p0, last_issue token l parent p0 p;
  adm_binding : forall l0 parent p0, last_issue token l0 parent p0 p -> l0 = l /\
    (same_binding expected (ticket_object (scope_at p0 l) parent) \/ bindings_collide expected (ticket_object (scope_at p0 l) parent))
}.

Lemma consume_ok t b p l p' : consume h t b p = (Ok l, p') -> exists token r now,
  bytes_within t TICKET_BYTES TICKET_BYTES = Ok token /\ find_ticket token (records p) = Some r /\ payload r = l /\
  bindingHash r = b /\ monotonicMillis h (ticks p) = VBig now /\ now < ticketExpires r /\
  p' = set_ticks (S (ticks p)) (set_records (List.filter (fun e => negb (bytes_eqb (fst e) token)) (records p)) p).
Proof.
  unfold consume. autorewrite with machine. destruct (bytes_within t _ _) as [token|]; [|done]. autorewrite with machine.
  destruct (fixed32 (VBytes b)) as [bd|] eqn:Eb; [|done]. apply fixed32_ok in Eb as ->. autorewrite with machine.
  destruct (find_ticket token (records p)) as [r|] eqn:Ef; [|done]. autorewrite with machine. set (p1 := set_records _ p).
  unfold bindM at 1. destruct (currentMonotonic_eq p1) as ([now|] & -> & Hr); [|done]. destruct (Hr now eq_refl) as [Hn _].
  autorewrite with machine. destruct (_ <=? now) eqn:E1; [done|]. autorewrite with machine.
  destruct (bytes_eqb (bindingHash r) b) eqn:E2; [|done]. apply bytes_eqb_eq in E2. intros [= <- <-]. b2p.
  exists token, r, now. by split_and!.
Qed.

Lemma consume_gone t b p token : bytes_within t TICKET_BYTES TICKET_BYTES = Ok token -> blen b = 32 ->
  forall r, ~ In (token, r) (records (snd (consume h t b p))).
Proof.
  intros Ht Hb. unfold consume. autorewrite with machine. rewrite Ht. autorewrite with machine.
  assert (Hf : fixed32 (VBytes b) = Ok b) by (unfold fixed32, bytes_within; cbn; by rewrite Hb). rewrite Hf. autorewrite with machine.
  destruct (find_ticket token (records p)) as [r0|] eqn:Ef.
  - autorewrite with machine. set (p1 := set_records _ p). unfold bindM at 1.
    destruct (currentMonotonic_eq p1) as ([now|] & -> & _); [|intros r; apply filter_gone]. autorewrite with machine.
    destruct (_ <=? now); [intros r; apply filter_gone|]. autorewrite with machine. destruct (negb _); intros r; apply filter_gone.
  - intros r Hin. cbn in Hin. apply (in_map fst) in Hin. by apply (find_ticket_none _ _ Ef).
Qed.

Lemma keeps_consumeTicket_records t v b p e : streamTicketBinding v = Ok b ->
  In e (records (snd (consumeTicket h t v p))) -> In e (records (snd (consume h t b p))).
Proof.
  intros Hv. unfold consumeTicket, id. autorewrite with machine. rewrite Hv. unfold bindM at 1.
  destruct (consume h t b p) as [[l|e'] p1]; [|done]. autorewrite with machine. destruct (_ <=? l)%nat; [done|].
  unfold bindM. pose proof (assertActive_records l p1 e) as Hr. by destruct (assertActive h l p1) as [[] ?].
Qed.

Hypothesis digest_length : forall bs, blen (generichash bs) = 32.

(** C36: A stream ticket works at most once and only for what it was issued for.
    Presenting a well-formed ticket with a well-formed expectation, rightly or
    wrongly, spends it; one that is not pending is refused and changes nothing;
    and if it admits to a stream, then it was pending and unexpired, the stream is
    open and within its limits, the ticket had been issued, and whenever it was
    last issued, it was for this stream, and the family, stream, descriptor and
    parent session the caller expects are those of the stream and the parent
    session it was issued with, or the two bindings collide under BLAKE2b. *)
Theorem ticket_single_use t expected p token b : reachable p ->
  bytes_within t TICKET_BYTES TICKET_BYTES = Ok token -> streamTicketBinding expected = Ok b ->
  find_ticket token (records (snd (consumeTicket h t expected p))) = None /\
  (find_ticket token (records p) = None -> consumeTicket h t expected p = (Err RETRY_TERMINAL, p)) /\
  (forall l p', consumeTicket h t expected p = (Ok l, p') -> exists r s, admitted token expected p l r s).
Proof.
  intros Hr Ht Hb. pose proof (reachable_sane p Hr) as Hs.
  assert (Hlen : blen b = 32) by (unfold streamTicketBinding in Hb; apply bindR_ok in Hb as (x & _ & [= <-]); apply digest_length).
  split; [|split].
  - apply find_ticket_gone. intros r Hin. apply (keeps_consumeTicket_records _ _ _ _ _ Hb) in Hin. by apply consume_gone in Hin.
  - intros Hn. unfold consumeTicket. autorewrite with machine. rewrite Hb. unfold bindM at 1, consume. autorewrite with machine.
    rewrite Ht. autorewrite with machine. unfold fixed32, bytes_within. cbn. rewrite Hlen. cbn. by rewrite Hn.
  - intros l p'. unfold consumeTicket, id. autorewrite with machine. rewrite Hb. unfold bindM at 1.
    destruct (consume h t b p) as [[l0|] p1] eqn:Ec; [|done]. apply consume_ok in Ec as (tk & r & now & Htk & Hf & Hpl & Hbr & Hm & Hlt & ->).
    rewrite Ht in Htk. injection Htk as <-. autorewrite with machine. destruct (_ <=? l0)%nat; [done|]. unfold bindM at 1.
    destruct (assertActive h l0 _) as [[now'|] p2] eqn:Ea; [|done]. intros [= <- _].
    apply assertActive_ok in Ea as (Hc & _ & Hl). apply find_ticket_in in Hf as Hin.
    pose proof (tickets_good _ Hs) as Hg. rewrite List.Forall_forall in Hg.
    destruct (Hg _ Hin) as (s & Hsl & Hcs & _). cbn [snd] in *. rewrite Hpl in Hsl.
    exists r, s. split; [done|done|by exists now| | |].
    + exists (S (ticks p)), now'. change (scope_at (set_ticks _ _) l0) with (scope_at p l0) in Hl. by rewrite (scope_at_some _ _ _ Hsl) in Hl.
    + destruct (pending_issued token r p Hr Hin) as (l1 & parent & p0 & Hi). destruct (last_issue_binds _ _ _ _ _ _ Hi Hin) as [E _].
      exists parent, p0. by rewrite <- Hpl, E.
    + intros l1 parent p0 Hi. destruct (last_issue_binds _ _ _ _ _ _ Hi Hin) as [E Hpb]. assert (l1 = l0) as -> by (by rewrite <- E). split; [done|].
      apply (binding_hash_inj _ _ b); [done|]. by rewrite <- Hbr.
Qed.

(** *** Drawing and using a ticket *)

(** The entropy source answers its call [n] with the 32-byte token [t], which
    is not zero. *)
Definition draws (n : nat) (t : bytes) : Prop :=
  randomBytes h n = VBytes t /\ blen t = TICKET_BYTES /\ existsb (fun b => negb (b2z b =? 0)) t = true.

Lemma nonzero_draw n t p : ticks p = n -> draws n t ->
  nonzeroRandomTicket h 4 p = (Ok t, set_ticks (S n) p).
Proof.
  intros <- (Hr & Hl & Hn). unfold nonzeroRandomTicket at 1, tick. autorewrite with machine. rewrite Hr.
  assert (Hb : bytes_within (VBytes t) TICKET_BYTES TICKET_BYTES = Ok t) by (unfold bytes_within; cbn [bindR]; by rewrite Hl).
  rewrite Hb. autorewrite with machine. by rewrite Hn.
Qed.

Lemma find_ticket_taken t l : is_Some (find_ticket t l) -> In t (map fst l).
Proof. intros [r Hr]. apply find_ticket_in in Hr. by apply (in_map fst) in Hr. Qed.

(** Either a free token turns up or every draw was taken. *)
Lemma draw_or_taken (T : nat -> bytes) fuel p : (forall i, (i < fuel)%nat -> draws (ticks p + i) (T (ticks p + i)%nat)) ->
  (exists n, drawTicket h fuel p = (Ok (T n), set_ticks (S n) p) /\ find_ticket (T n) (records p) = None) \/
  (forall i, (i < fuel)%nat -> In (T (ticks p + i)%nat) (map fst (records p))).
Proof.
  revert p. induction fuel as [|fuel IH]; intros p Hd; [right; lia|]. cbn [drawTicket].
  unfold bindM at 1. specialize (Hd 0%nat ltac:(lia)) as Hd0. rewrite Nat.add_0_r in Hd0. rewrite (nonzero_draw _ _ _ eq_refl Hd0).
  autorewrite with machine. cbn [records set_ticks]. destruct (bool_decide_reflect (is_Some (find_ticket (T (ticks p)) (records p)))) as [Ht|Ht].
  - destruct (IH (set_ticks (S (ticks p)) p)) as [(n & Hn & Hf)|Hall].
    + intros i Hi. cbn. specialize (Hd (S i) ltac:(lia)). by rewrite Nat.add_succ_r in Hd.
    + left. by exists n.
    + right. intros [|i] Hi; [rewrite Nat.add_0_r; by apply find_ticket_taken|]. rewrite Nat.add_succ_r. apply (Hall i). lia.
  - left. exists (ticks p). split; [done|]. destruct (find_ticket _ _); [by destruct Ht|done].
Qed.

(** Drawing a ticket token ends, and with a token nobody holds: when the
    entropy source gives distinct nonzero 32-byte tokens for one call more than
    there are pending tickets, the loop, run that many times, returns a
    token that is not pending; nothing but the count of draws has changed. *)
Theorem ticket_draw_ends (T : nat -> bytes) fuel p : (List.length (records p) < fuel)%nat ->
  (forall i, (i < fuel)%nat -> draws (ticks p + i) (T (ticks p + i)%nat)) ->
  (forall i j, (i < j < fuel)%nat -> T (ticks p + i)%nat <> T (ticks p + j)%nat) ->
  exists n, drawTicket h fuel p = (Ok (T n), set_ticks (S n) p) /\ find_ticket (T n) (records p) = None.
Proof.
  intros Hf Hd Hne. destruct (draw_or_taken T fuel p Hd) as [|Hall]; [done|].
  set (drawn := map (fun i => T (ticks p + i)%nat) (List.seq 0 fuel)).
  assert (Hnd : List.NoDup drawn).
  { apply Finite.Injective_map_NoDup_in; [|apply seq_NoDup]. intros i j Hi%in_seq Hj%in_seq He.
    destruct (Nat.lt_trichotomy i j) as [Hl|[->|Hl]]; [|done|]; exfalso; [apply (Hne i j)|apply (Hne j i)]; (done || lia). }
  apply NoDup_incl_length with (l' := map fst (records p)) in Hnd.
  - unfold drawn in Hnd. rewrite !length_map, length_seq in Hnd. lia.
  - intros t (i & <- & Hi%in_seq)%in_map_iff. apply Hall. lia.
Qed.

Lemma assertActive_live l p now : closed (scope_at p l) = false -> 0 <= now <= MAX_U64 ->
  live_at (scope_at p l) (ticks p) now -> assertActive h l p = (Ok now, set_ticks (S (S (ticks p))) p).
Proof.
  intros Hc Hn [Hr Hh He Hl Hi]. unfold assertActive, scope, currentMonotonic, readyNow, tick. autorewrite with machine. rewrite Hc.
  autorewrite with machine. rewrite Hr.
  rewrite (proj2 (Z.ltb_ge now 0)), (proj2 (Z.ltb_ge MAX_U64 now)) by lia. cbn [orb]. autorewrite with machine.
  unfold scope. autorewrite with machine. cbn [ticks set_ticks].
  change (scope_at (set_ticks _ _) l) with (scope_at p l). rewrite Hh. cbn [is_true negb].
  rewrite !(proj2 (Z.leb_gt _ _)) by done. done.
Qed.

(** A ticket does what it was issued for: presented once with the family,
    stream, descriptor and parent session it was issued with, before its
    lifetime and the readiness have run out and while the stream is live,
    it admits to its stream. *)
Theorem ticket_round_trip fuel l parent p token p1 issued now live :
  issueTicket h fuel l parent p = (Ok token, p1) ->
  monotonicMillis h (S (S (ticks p))) = VBig issued ->
  monotonicMillis h (ticks p1) = VBig now -> 0 <= now <= MAX_U64 ->
  now < issued + ttlMillis p -> now < Stream.expiresMonotonicMillis (ready (scope_at p l)) ->
  live_at (scope_at p l) (S (ticks p1)) live -> 0 <= live <= MAX_U64 ->
  exists p2, consumeTicket h (VBytes token) (ticket_object (scope_at p l) parent) p1 = (Ok l, p2).
Proof.
  intros Hi Hclock Hnow Hn Httl Hexp Hlive Hlr. unfold issueTicket, id, scope in Hi. autorewrite with machine in Hi.
  destruct (List.length (scopes p) <=? l)%nat eqn:Hloc; [done|]. autorewrite with machine in Hi. unfold bindM at 1 in Hi.
  destruct (assertActive h l p) as [[t|] p'] eqn:Ea; [|done]. apply assertActive_ok in Ea as (Hc & -> & _).
  autorewrite with machine in Hi. change (scope_at (set_ticks _ p) l) with (scope_at p l) in Hi.
  destruct (streamTicketBinding (ticket_object (scope_at p l) parent)) as [b|] eqn:Eb; [|done]. autorewrite with machine in Hi.
  apply issue_ok in Hi as (i & r & Hi & Hf & Hlen & Hbr & Hpl & Hexpiry & Hsc). cbn [ticks ttlMillis set_ticks scopes] in *.
  rewrite Hclock in Hi. injection Hi as <-.
  assert (Hb : fixed32 (VBytes b) = Ok b).
  { unfold streamTicketBinding in Eb. apply bindR_ok in Eb as (x & _ & [= <-]). unfold fixed32, bytes_within. cbn. by rewrite digest_length. }
  assert (Ht : bytes_within (VBytes token) TICKET_BYTES TICKET_BYTES = Ok token) by (unfold bytes_within; cbn [bindR]; by rewrite Hlen).
  unfold consumeTicket, consume. autorewrite with machine. rewrite Eb. autorewrite with machine. rewrite Ht, Hb. autorewrite with machine.
  rewrite Hf. autorewrite with machine. set (p3 := set_records _ p1). unfold currentMonotonic, tick. autorewrite with machine.
  change (ticks p3) with (ticks p1). rewrite Hnow, (proj2 (Z.ltb_ge now 0)), (proj2 (Z.ltb_ge MAX_U64 now)) by lia. autorewrite with machine.
  rewrite (proj2 (Z.leb_gt _ _)) by lia. autorewrite with machine. rewrite Hbr, bytes_eqb_refl. autorewrite with machine.
  cbn [negb]. unfold id. autorewrite with machine. cbn [scopes set_ticks set_records p3]. rewrite Hsc, Hpl, Hloc. autorewrite with machine.
  unfold bindM. assert (Hsame : forall n, scope_at (set_ticks n p3) l = scope_at p l) by (intros n; unfold scope_at; cbn; by rewrite Hsc).
  erewrite assertActive_live; [|by rewrite Hsame|exact Hlr|by rewrite Hsame]. by eexists.
Qed.
End Laws.

(** ** Examples *)

Section Demo.

(** A clock that advances a millisecond per hook call, a service that is always
    ready, and an entropy source whose [n]th token repeats the byte [n]. *)
Definition demo_hooks : hooks := Hooks
  (fun n => VBig (1000 + Z.of_nat n))
  (fun _ _ _ _ _ _ => Ok (VBool true))
  (fun n => VBytes (replicate 32 (z2b (1 + Z.of_nat n)))).

Definition demo_ready : val := VObj [("descriptorSequence", VBig 7); ("descriptorHash", VBytes (replicate 32 x07));
  ("expiresMonotonicMillis", VBig 5000)].

Definition demo_stream (family streamId : Z) : val := VObj [("family", VNum family); ("streamId", VBig streamId);
  ("maxBytes", VBig 1000); ("maxBufferedBytes", VNum 300); ("idleMillis", VNum 100); ("lifetimeMillis", VNum 1000);
  ("readiness", demo_ready)].

Definition demo_parent : val := VStr "parent-session".

(** Two streams; bytes counted, buffers reserved, one released twice; a ticket
    issued for the first stream; a duplicate opening and a byte count over the
    cap of the second, which ends it. *)
Definition demo_operations : list operation := [CreateSession (demo_stream 4 1); CreateSession (demo_stream 5 2);
  CreateSession (demo_stream 4 1); CountBytes 0 (VNum 400); ReserveBuffer 0 (VNum 200); ReserveBuffer 1 (VNum 50);
  ReserveBuffer 0 (VNum 30); ReleaseBuffer 0 0; ReleaseBuffer 0 0; CountBytes 1 (VNum 1001);
  IssueTicket 2 0 demo_parent].

Local Existing Instance demo_platform.

Definition demo_plane : plane :=
  match newPlane demo_hooks (VObj [("maxStreams", VNum 3)]) with
  | Ok p => fold_left (fun p o => snd (exec demo_hooks o p)) demo_operations p
  | Err _ => Plane 0 0 0 0 0 [] 0 false [] [] 0 []
  end.

Lemma demo_plane_reachable : reachable demo_hooks demo_plane.
Proof.
  unfold demo_plane. destruct (newPlane _ _) as [p|] eqn:E; [|done].
  apply reach_new in E. revert E. generalize p. induction demo_operations as [|o l IH]; intros q Hq; [done|].
  apply IH. by apply reach_step.
Qed.

Example demo_state : planeBufferedBytes demo_plane = 30 /\ closings demo_plane = [(1%nat, "byte-cap")] /\
  sessions demo_plane = [("4:1", 0%nat)] /\ List.length (records demo_plane) = 1%nat.
Proof. vm_compute. done. Qed.

Lemma stream_books_witness : planeBufferedBytes demo_plane = 30 /\ sane demo_plane.
Proof. split; [vm_compute; reflexivity|]. exact (stream_books demo_hooks demo_plane demo_plane_reachable). Defined.

Lemma plane_drains_witness : closing demo_plane = false /\
  drained_plane (snd (closePlane "shutdown" demo_plane)) /\
  planeBufferedBytes (snd (closePlane "shutdown" demo_plane)) = 0.
Proof.
  split; [vm_compute; reflexivity|].
  destruct (plane_drains demo_hooks "shutdown" demo_plane demo_plane_reachable) as [Hd _].
  split; [apply Hd; vm_compute; reflexivity|vm_compute; reflexivity].
Defined.

(** The first stream has 600 bytes left. *)
Lemma stream_limits_witness :
  (exists p', countBytes demo_hooks 0 (VNum 601) demo_plane = (Err TOO_LARGE, p')) /\
  (exists i p', reserveBuffer demo_hooks 0 (VNum 270) demo_plane = (Ok i, p') /\
    planeBufferedBytes p' = planeBufferedBytes demo_plane + 270).
Proof.
  split; [eexists; vm_compute; reflexivity|].
  destruct (stream_limits demo_hooks 0 270 demo_plane demo_plane_reachable) as [_ Hr]; [vm_compute; by split|]. revert Hr.
  destruct (reserveBuffer demo_hooks 0 (VNum 270) demo_plane) as [[i|e] p'] eqn:E;
    [|vm_compute in E; discriminate]. intros (_ & _ & _ & Hp). exists i, p'. exact (conj eq_refl Hp).
Defined.

Definition demo_token : bytes := match records demo_plane with (t, _) :: _ => t | [] => [] end.
Definition demo_expected : val := VObj [("family", VNum 4); ("streamId", VBig 1); ("descriptorSequence", VBig 7);
  ("descriptorHash", VBytes (replicate 32 x07)); ("parentSessionId", demo_parent)].

(** The ticket is used, and used up. *)
Lemma ticket_single_use_witness : exists p', consumeTicket demo_hooks (VBytes demo_token) demo_expected demo_plane = (Ok 0%nat, p') /\
  find_ticket demo_token (records p') = None /\ exists r s, admitted demo_hooks demo_token demo_expected demo_plane 0 r s.
Proof.
  set (b := match streamTicketBinding demo_expected with Ok b => b | Err _ => [] end).
  destruct (@ticket_single_use demo_platform demo_hooks demo_digest_length (VBytes demo_token) demo_expected demo_plane demo_token b
    demo_plane_reachable) as (Hgone & _ & Hok); [vm_compute; reflexivity..|]. revert Hgone Hok.
  destruct (consumeTicket demo_hooks (VBytes demo_token) demo_expected demo_plane) as [[l|e] p'] eqn:E;
    [|vm_compute in E; discriminate].
  assert (l = 0%nat) as -> by (vm_compute in E; congruence).
  intros Hgone Hok. exists p'. split; [exact eq_refl|]. split; [exact Hgone|]. exact (Hok 0%nat p' eq_refl).
Defined.

Definition demo_before : plane :=
  match newPlane demo_hooks (VObj []) with
  | Ok p => snd (exec demo_hooks (CreateSession (demo_stream 4 1)) p)
  | Err _ => demo_plane
  end.
Definition demo_after : plane := snd (issueTicket demo_hooks 1 0 demo_parent demo_before).

Lemma ticket_round_trip_witness :
  exists p2, consumeTicket demo_hooks (VBytes (replicate 32 x07)) (ticket_object (scope_at demo_before 0) demo_parent) demo_after = (Ok 0%nat, p2).
Proof.
  apply (@ticket_round_trip demo_platform demo_hooks demo_digest_length 1 0 demo_parent demo_before (replicate 32 x07) demo_after 1005 1007 1008);
    try (vm_compute; reflexivity); try (vm_compute; split; discriminate). split; vm_compute; reflexivity.
Defined.

Lemma ticket_draw_ends_witness : (List.length (records demo_plane) = 1)%nat /\
  exists n, drawTicket demo_hooks 2 demo_plane = (Ok (replicate 32 (z2b (1 + Z.of_nat n))), set_ticks (S n) demo_plane).
Proof.
  split; [vm_compute; reflexivity|].
  destruct (ticket_draw_ends demo_hooks (fun n => replicate 32 (z2b (1 + Z.of_nat n))) 2 demo_plane) as (n & Hn & _).
  - vm_compute. lia.
  - intros [|[|i]] Hi; [vm_compute; done..|lia].
  - intros [|[|i]] [|[|j]] Hij; try lia. vm_compute. done.
  - by exists n.
Defined.

End Demo.
