(* ===== verification/WriteAheadLog.v ===== *)
(** * The write-ahead log (packages/blind-daemon/transaction-store.js)

    The frames of the log, the group commit that appends them, the sealing of
    segments, recovery and pruning. The control directory is part of the state:
    the live segment, the sealed segments by name, and for every file how many
    of its bytes have been synced.

    Every call that leaves the code (a file operation, the fault injector, the
    caller's [applyFrame]) may succeed or throw, and a write may be cut short.
    What the [n]th such call does is given by [outside], and [io] applies it. A
    call that fails may still have had its effect: so the states in which a crash
    can find the directory are the ones in which a failing call can leave it.
    Reading a file, its size or the list of the directory does not fail. The
    live segment is opened with O_APPEND and written at a position; the two
    agree, because every write of an open store is at the end of the file.

    File modes, ownership, inodes and locks are not modelled, nor the staging
    area of opaque bodies, the session leases and the readiness barriers. *)

From Stdlib Require Import ZArith Lia Bool List String Ascii.
From Stdlib Require Import Strings.Byte.
From stdpp Require Import base tactics list strings.
From S2P Require Import Prelude Codec Authority Hashes.

Module Wal.

Definition WAL_MAGIC : bytes := ascii_bytes "HRWL".
Definition WAL_VERSION : Z := 2.
Definition WAL_HEADER_BYTES : Z := 192.
Definition WAL_CHECKSUM_BYTES : Z := 32.
Definition WAL_MIN_FRAME_BYTES : Z := WAL_HEADER_BYTES + WAL_CHECKSUM_BYTES.
Definition ZERO32 : bytes := replicate 32 Byte.x00.
Definition DEFAULT_WAL_SEGMENT_MAX_BYTES : Z := 64 * 1024 * 1024.
Definition MIN_WAL_SEGMENT_MAX_BYTES : Z := 64 * 1024.
Definition MAX_WAL_SEGMENT_MAX_BYTES : Z := 1024 * 1024 * 1024.
Definition WAL_CHECKSUM_DOMAIN : bytes := ascii_bytes "hiverelay.blind.wal-frame-checksum.v1".
Definition WAL_HASH_DOMAIN : bytes := ascii_bytes "hiverelay.blind.wal-frame-hash.v1".

(** ** Argument checks and integers *)

Definition isZero (value : bytes) : bool := forallb (fun b => b2z b =? 0) value.

(** [bytes(value, length, field, { nonzero })] *)
Definition bytes_of (value : val) (length : option Z) (nonzero : bool) : result bytes :=
  match value with
  | VBytes bs =>
      throw_if (match length with Some n => negb (blen bs =? n) | None => false end) TypeError ;;!
      throw_if (nonzero && isZero bs) TypeError ;;!
      Ok bs
  | _ => Err TypeError
  end.

Definition asU64 (value : val) : result Z :=
  let! value :=
    match value with
    | VNum n => throw_if (negb (isSafeInteger n) || (n <? 0)) TypeError ;;! Ok (VBig n)
    | _ => Ok value
    end in
  match value with
  | VBig n => throw_if ((n <? 0) || (MAX_U64 <? n)) TypeError ;;! Ok n
  | _ => Err TypeError
  end.

Definition boundedInteger (value : val) (minimum maximum : Z) : result Z :=
  match value with
  | VNum n => throw_if (negb (isSafeInteger n) || (n <? minimum) || (maximum <? n)) TypeError ;;! Ok n
  | _ => Err TypeError
  end.

Definition writeU16be (buffer : bytes) (offset value : Z) : bytes :=
  let buffer := set_byte buffer offset (js_ushr value 8) in
  set_byte buffer (offset + 1) value.

Definition readU16be (buffer : bytes) (offset : Z) : Z :=
  get_byte buffer offset * 0x100 + get_byte buffer (offset + 1).

Definition writeU32be (buffer : bytes) (offset value : Z) : bytes :=
  let buffer := set_byte buffer offset (js_ushr value 24) in
  let buffer := set_byte buffer (offset + 1) (js_ushr value 16) in
  let buffer := set_byte buffer (offset + 2) (js_ushr value 8) in
  set_byte buffer (offset + 3) value.

Definition readU32be (buffer : bytes) (offset : Z) : Z :=
  get_byte buffer offset * 0x1000000 + get_byte buffer (offset + 1) * 0x10000 +
  get_byte buffer (offset + 2) * 0x100 + get_byte buffer (offset + 3).

Definition writeU64be (buffer : bytes) (offset value : Z) : result bytes :=
  let! value := asU64 (VBig value) in
  Ok (writeU64_loop buffer value offset [7; 6; 5; 4; 3; 2; 1; 0]).

Definition readU64be (buffer : bytes) (offset : Z) : Z :=
  readU64_loop buffer offset [0; 1; 2; 3; 4; 5; 6; 7] 0.

(** ** Frames *)

Record header := Header {
  type : Z;
  totalLength : Z;
  payloadLength : Z;
  sequence : Z;
  transactionId : bytes;
  virtualBucket : Z;
  mapGeneration : Z;
  ownerFenceTokenHash : bytes;
  previousWalHash : bytes;
  durabilityContinuityHash : bytes;
  payloadHash : bytes
}.

(** A decoded frame: the fields of its header and what follows them. *)
Record frame := Frame { head_of : header; payload : bytes; walHash : bytes; frameBytes : Z }.

Definition inspectBlindWalFrameV2Header (bs : bytes) (maximumPayloadBytes : Z) : result header :=
  let! bs := bytes_of (VBytes bs) (Some WAL_HEADER_BYTES) false in
  let! _ := boundedInteger (VNum maximumPayloadBytes) 1024 (16 * 1024 * 1024) in
  throw_if (negb (bytes_eqb (slice bs 0 4) WAL_MAGIC)) RECOVERY_GAP_READ_ONLY ;;!
  throw_if (negb (get_byte bs 4 =? WAL_VERSION)) RECOVERY_GAP_READ_ONLY ;;!
  let type := get_byte bs 5 in
  throw_if (type =? 0) RECOVERY_GAP_READ_ONLY ;;!
  let totalLength := readU32be bs 6 in
  let payloadLength := readU32be bs 92 in
  throw_if (negb (totalLength =? WAL_MIN_FRAME_BYTES + payloadLength)) RECOVERY_GAP_READ_ONLY ;;!
  throw_if (maximumPayloadBytes <? payloadLength) RECOVERY_GAP_READ_ONLY ;;!
  let sequence := readU64be bs 10 in
  throw_if (sequence =? 0) RECOVERY_GAP_READ_ONLY ;;!
  let transactionId := slice bs 18 32 in
  throw_if (isZero transactionId) RECOVERY_GAP_READ_ONLY ;;!
  let mapGeneration := readU64be bs 52 in
  throw_if (mapGeneration =? 0) RECOVERY_GAP_READ_ONLY ;;!
  let ownerFenceTokenHash := slice bs 60 32 in
  throw_if (isZero ownerFenceTokenHash) RECOVERY_GAP_READ_ONLY ;;!
  let durabilityContinuityHash := slice bs 128 32 in
  throw_if (isZero durabilityContinuityHash) RECOVERY_GAP_READ_ONLY ;;!
  Ok (Header type totalLength payloadLength sequence transactionId (readU16be bs 50) mapGeneration
    ownerFenceTokenHash (slice bs 96 32) durabilityContinuityHash (slice bs 160 32)).

(** How the promise of the member at an index was settled. *)
Abbreviation settled := (list (nat * result frame)).

Section WithPlatform.
Context `{Platform}.

Definition hashParts (domain : bytes) (parts : list bytes) : bytes := Hash.blake2b256 (domain ++ concat parts).
Definition frameChecksum (prefixAndPayload : bytes) : bytes := hashParts WAL_CHECKSUM_DOMAIN [prefixAndPayload].
Definition frameHash (completeFrame : bytes) : bytes := hashParts WAL_HASH_DOMAIN [completeFrame].

Definition encodeWalFrame (value : val) (maximumPayloadBytes : Z) : result bytes :=
  let! type := boundedInteger value.["type"] 1 255 in
  let! sequence := asU64 value.["sequence"] in
  throw_if (sequence =? 0) TypeError ;;!
  let! transactionId := bytes_of value.["transactionId"] (Some 32) true in
  let! virtualBucket := boundedInteger value.["virtualBucket"] 0 0xffff in
  let! mapGeneration := asU64 value.["mapGeneration"] in
  let! ownerFenceTokenHash := bytes_of value.["ownerFenceTokenHash"] (Some 32) true in
  let! durabilityContinuityHash := bytes_of value.["durabilityContinuityHash"] (Some 32) true in
  let! previousWalHash := bytes_of value.["previousWalHash"] (Some 32) false in
  let! payload := bytes_of value.["payload"] None false in
  throw_if (maximumPayloadBytes <? blen payload) TOO_LARGE ;;!
  let totalLength := WAL_MIN_FRAME_BYTES + blen payload in
  let frame := replicate (Z.to_nat totalLength) Byte.x00 in
  let frame := splice frame 0 WAL_MAGIC in
  let frame := set_byte frame 4 WAL_VERSION in
  let frame := set_byte frame 5 type in
  let frame := writeU32be frame 6 totalLength in
  let! frame := writeU64be frame 10 sequence in
  let frame := splice frame 18 transactionId in
  let frame := writeU16be frame 50 virtualBucket in
  let! frame := writeU64be frame 52 mapGeneration in
  let frame := splice frame 60 ownerFenceTokenHash in
  let frame := writeU32be frame 92 (blen payload) in
  let frame := splice frame 96 previousWalHash in
  let frame := splice frame 128 durabilityContinuityHash in
  let frame := splice frame 160 (Hash.blake2b256 payload) in
  let frame := splice frame WAL_HEADER_BYTES payload in
  let checksumOffset := totalLength - WAL_CHECKSUM_BYTES in
  Ok (splice frame checksumOffset (frameChecksum (slice frame 0 checksumOffset))).

Definition decodeBlindWalFrameV2 (frame : bytes) (expectedSequence : Z)
    (expectedPreviousWalHash expectedDurabilityContinuityHash : bytes) (maximumPayloadBytes : Z) : result Wal.frame :=
  throw_if (blen frame <? WAL_MIN_FRAME_BYTES) RECOVERY_GAP_READ_ONLY ;;!
  let! header := inspectBlindWalFrameV2Header (slice frame 0 WAL_HEADER_BYTES) maximumPayloadBytes in
  throw_if (negb (totalLength header =? blen frame)) RECOVERY_GAP_READ_ONLY ;;!
  throw_if (negb (sequence header =? expectedSequence)) RECOVERY_GAP_READ_ONLY ;;!
  throw_if (negb (bytes_eqb (previousWalHash header) expectedPreviousWalHash)) RECOVERY_GAP_READ_ONLY ;;!
  throw_if (negb (bytes_eqb (durabilityContinuityHash header) expectedDurabilityContinuityHash)) RECOVERY_GAP_READ_ONLY ;;!
  let payload := slice frame WAL_HEADER_BYTES (payloadLength header) in
  throw_if (negb (bytes_eqb (Hash.blake2b256 payload) (payloadHash header))) RECOVERY_GAP_READ_ONLY ;;!
  let checksumOffset := blen frame - WAL_CHECKSUM_BYTES in
  throw_if (negb (bytes_eqb (frameChecksum (slice frame 0 checksumOffset)) (drop (Z.to_nat checksumOffset) frame)))
    RECOVERY_GAP_READ_ONLY ;;!
  Ok (Frame header payload (frameHash frame) (blen frame)).

(** ** Names of sealed segments

    [wal-<first>-<last>.v2], both as 16 lower-case hexadecimal digits. *)

Definition hex_digit (n : Z) : byte := if n <? 10 then z2b (0x30 + n) else z2b (0x57 + n).
Definition hex_value (b : byte) : option Z :=
  let n := b2z b in
  if (0x30 <=? n) && (n <=? 0x39) then Some (n - 0x30)
  else if (0x61 <=? n) && (n <=? 0x66) then Some (n - 0x57) else None.

(** [n.toString(16).padStart(k, '0')] for [n < 16^k] *)
Fixpoint hex (k : nat) (n : Z) : bytes :=
  match k with O => [] | S k => hex k (n / 16) ++ [hex_digit (n mod 16)] end.

Fixpoint unhex_from (acc : Z) (bs : bytes) : option Z :=
  match bs with
  | [] => Some acc
  | b :: rest => match hex_value b with Some d => unhex_from (acc * 16 + d) rest | None => None end
  end.

Definition walSealedSegmentName (firstSequence lastSequence : Z) : result bytes :=
  let! firstSequence := asU64 (VBig firstSequence) in
  let! lastSequence := asU64 (VBig lastSequence) in
  throw_if ((firstSequence =? 0) || (lastSequence <? firstSequence)) TypeError ;;!
  Ok (ascii_bytes "wal-" ++ hex 16 firstSequence ++ ascii_bytes "-" ++ hex 16 lastSequence ++ ascii_bytes ".v2").

(** [WAL_SEALED_SEGMENT_NAME.exec(name)], with the two groups as numbers. *)
Definition parse_segment_name (name : bytes) : option (Z * Z) :=
  if (blen name =? 40) && bytes_eqb (slice name 0 4) (ascii_bytes "wal-") && bytes_eqb (slice name 20 1) (ascii_bytes "-")
     && bytes_eqb (slice name 37 3) (ascii_bytes ".v2")
  then match unhex_from 0 (slice name 4 16), unhex_from 0 (slice name 21 16) with
       | Some first, Some last => Some (first, last)
       | _, _ => None
       end
  else None.

(** ** The state *)

(** The arguments of the constructor. *)
Record config := Config {
  store_mapGeneration : Z;
  store_ownerFenceTokenHash : bytes;
  store_durabilityContinuityHash : bytes;
  maximumWalPayloadBytes : Z;
  walSegmentMaxBytes : Z
}.

Record segment := Segment { name : bytes; firstSequence : Z; lastSequence : Z }.

(** The position of the writer. *)
Record head := Head {
  walOffset : Z;
  walSequence : Z;
  headHash : bytes;
  liveSegmentFirstSequence : Z;
  sealedWalSegments : list segment
}.

(** [handle]: is it not null. [rootActive]: is the root in OPEN_STORE_ROOTS. *)
Record flags := Flags { handle : bool; opened : bool; closing : bool; destroyed : bool; poisoned : bool; rootActive : bool }.

(** A file, and how long a prefix of it a crash cannot take away. *)
Record file := File { contents : bytes; synced : Z }.

(** The control directory: [wal.v2], and the entries whose names start with
    [wal-], in the order in which they are listed. *)
Record directory := Directory { live : option file; sealed : list (bytes * file) }.

(** An element of [walCommitQueue]. [prewriteFence] is what the fence does:
    throw, or return, a promise or not. [applies]: is there an [applyFrame]. *)
Record member := Member { value : val; prewriteFence : option (result bool); applies : bool }.

Record store := Store {
  own : config;
  position : head;
  flag : flags;
  walCommitQueue : list member;
  control : directory;
  ticks : nat;
  (** the frames the callbacks have taken since the store was made *)
  applied : list frame
}.

Definition on_position (f : head -> head) (s : store) : store :=
  Store (own s) (f (position s)) (flag s) (walCommitQueue s) (control s) (ticks s) (applied s).
Definition on_flag (f : flags -> flags) (s : store) : store :=
  Store (own s) (position s) (f (flag s)) (walCommitQueue s) (control s) (ticks s) (applied s).
Definition set_own (c : config) (s : store) : store :=
  Store c (position s) (flag s) (walCommitQueue s) (control s) (ticks s) (applied s).
Definition set_queue (q : list member) (s : store) : store :=
  Store (own s) (position s) (flag s) q (control s) (ticks s) (applied s).
Definition on_control (f : directory -> directory) (s : store) : store :=
  Store (own s) (position s) (flag s) (walCommitQueue s) (f (control s)) (ticks s) (applied s).
Definition set_ticks (n : nat) (s : store) : store :=
  Store (own s) (position s) (flag s) (walCommitQueue s) (control s) n (applied s).
Definition record_applied (f : frame) (s : store) : store :=
  Store (own s) (position s) (flag s) (walCommitQueue s) (control s) (ticks s) (applied s ++ [f]).

Definition set_handle (b : bool) : store -> store :=
  on_flag (fun x => Flags b (opened x) (closing x) (destroyed x) (poisoned x) (rootActive x)).
Definition set_opened (b : bool) : store -> store :=
  on_flag (fun x => Flags (handle x) b (closing x) (destroyed x) (poisoned x) (rootActive x)).
Definition set_closing (b : bool) : store -> store :=
  on_flag (fun x => Flags (handle x) (opened x) b (destroyed x) (poisoned x) (rootActive x)).
Definition set_destroyed (b : bool) : store -> store :=
  on_flag (fun x => Flags (handle x) (opened x) (closing x) b (poisoned x) (rootActive x)).
Definition set_poisoned (b : bool) : store -> store :=
  on_flag (fun x => Flags (handle x) (opened x) (closing x) (destroyed x) b (rootActive x)).
Definition set_rootActive (b : bool) : store -> store :=
  on_flag (fun x => Flags (handle x) (opened x) (closing x) (destroyed x) (poisoned x) b).

(** The constructor, on a directory. *)
Definition newStore (c : config) (d : directory) : store :=
  Store c (Head 0 0 ZERO32 1 []) (Flags false false false false false false) [] d 0 [].

(** ** Calls that leave the code *)

(** A call succeeds or throws. A write has written [n] bytes by then; any other
    call that throws has had its effect unless [n] is 0. *)
Inductive outcome := Done (n : Z) | Fails (n : Z).

Section WithOutside.
Context (outside : nat -> outcome).

Definition tick : M store outcome := let* n := gets ticks in modify (set_ticks (S n)) ;;* ret (outside n).

(** One call with its effect on the state. *)
Definition io (effect : store -> store) : M store unit :=
  let* o := tick in
  match o with
  | Done _ => modify effect
  | Fails n => (if n =? 0 then ret tt else modify effect) ;;* throw GenericError
  end.

(** [this.#fault(...)], [syncDirectory(...)], [handle.close()]: no effect on
    what is modelled. *)
Definition call : M store unit := io id.

Definition on_live (f : file -> file) : store -> store :=
  on_control (fun d => Directory (option_map f (live d)) (sealed d)).

(** [handle.sync()] and [handle.datasync()] *)
Definition sync_file (f : file) : file := File (contents f) (blen (contents f)).
Definition syncWal : M store unit := io (on_live sync_file).

(** A write at a position: a gap before it is filled with zeros. *)
Definition pwrite (bs : bytes) (position : Z) (data : bytes) : bytes :=
  take (Z.to_nat position) (bs ++ replicate (Z.to_nat (position - blen bs)) Byte.x00) ++ data ++
  drop (Z.to_nat (position + blen data)) bs.
Definition write_file (position : Z) (data : bytes) (f : file) : file :=
  File (pwrite (contents f) position data) (Z.min (synced f) position).

Fixpoint writeAll_loop (fuel : nat) (buffer : bytes) (position written : Z) : M store unit :=
  match fuel with
  | O => throw OUT_OF_FUEL
  | S fuel =>
      if written <? blen buffer then
        let* o := tick in
        let n := match o with Done n | Fails n => Z.max 0 (Z.min n (blen buffer - written)) end in
        modify (on_live (write_file (position + written) (slice buffer written n))) ;;*
        match o with
        | Fails _ => throw GenericError
        | Done _ => throwM_if (n =? 0) GenericError ;;* writeAll_loop fuel buffer position (written + n)
        end
      else ret tt
  end.

(** Every pass writes at least one byte or throws. *)
Definition writeAll (buffer : bytes) (position : Z) : M store unit :=
  writeAll_loop (S (List.length buffer)) buffer position 0.

(** [readAtMost]: the bytes of the file at a position, at most [length]. *)
Definition readAtMost (bs : bytes) (position length : Z) : bytes := slice bs position length.

Definition truncate_file (length : Z) (f : file) : file :=
  File (take (Z.to_nat length) (contents f)) (Z.min (synced f) length).

Definition truncateTornTail (offset : Z) : M store unit :=
  io (on_live (truncate_file offset)) ;;* syncWal ;;* call.

(** The caller's [applyFrame] or [applyRecoveredFrame]. *)
Definition apply_frame (f : frame) : M store unit := io (record_applied f).

(** ** Sealing the live segment *)

(** [fs.rename(this.walPath, sealedPath)] *)
Definition rename_live (name : bytes) (d : directory) : directory :=
  match live d with
  | Some f => Directory None (List.filter (fun e => negb (bytes_eqb (fst e) name)) (sealed d) ++ [(name, f)])
  | None => d
  end.

(** [fs.open(this.walPath, O_CREAT)] *)
Definition create_live (d : directory) : directory :=
  match live d with Some _ => d | None => Directory (Some (File [] 0)) (sealed d) end.

Definition sealLiveSegment : M store unit :=
  let* s := gets id in
  let firstSequence := liveSegmentFirstSequence (position s) in
  let lastSequence := walSequence (position s) in
  if lastSequence <? firstSequence then ret tt
  else
    let* name := lift (walSealedSegmentName firstSequence lastSequence) in
    call ;;*
    modify (set_handle false) ;;*
    let* missing := gets (fun s => bool_decide (live (control s) = None)) in
    throwM_if missing GenericError ;;*
    io (on_control (rename_live name)) ;;*
    call ;;*
    call ;;*
    let* present := gets (fun s => negb (bool_decide (live (control s) = None))) in
    throwM_if present GenericError ;;*
    io (on_control create_live) ;;*
    modify (set_handle true) ;;*
    syncWal ;;*
    call ;;*
    call ;;*
    modify (on_position (fun x => Head 0 (walSequence x) (headHash x) (lastSequence + 1)
      (sealedWalSegments x ++ [Segment name firstSequence lastSequence]))).

(** ** Group commit *)

(** A member's frame, ready to be written; [index] is the member's place in the
    group. *)
Record entry := Entry {
  index : nat; entry_applies : bool; completeFrame : bytes; entry_sequence : Z; entry_offset : Z }.

Definition run_fence (m : member) : result unit :=
  match prewriteFence m with
  | None => Ok tt
  | Some fence => let! promise := fence in throw_if promise TypeError
  end.

Definition encode_member (c : config) (m : member) (memberSequence : Z) (previousWalHash : bytes) : result bytes :=
  run_fence m ;;!
  let! type := getx (value m) "type" in
  encodeWalFrame (VObj [
    ("type", type);
    ("sequence", VBig memberSequence);
    ("transactionId", (value m).["transactionId"]);
    ("virtualBucket", (value m).["virtualBucket"]);
    ("mapGeneration", VBig (store_mapGeneration c));
    ("ownerFenceTokenHash", VBytes (store_ownerFenceTokenHash c));
    ("durabilityContinuityHash", VBytes (store_durabilityContinuityHash c));
    ("previousWalHash", VBytes previousWalHash);
    ("payload", (value m).["payload"])]) (maximumWalPayloadBytes c).

(** The first loop: the frames of the members that pass, and the members that
    were ejected. *)
Fixpoint encode_group (c : config) (group : list member) (i : nat) (sequence : Z) (previousWalHash : bytes) (offset : Z) :
    list entry * settled :=
  match group with
  | [] => ([], [])
  | m :: rest =>
      let memberSequence := sequence + 1 in
      match encode_member c m memberSequence previousWalHash with
      | Err e => let '(frames, rejected) := encode_group c rest (S i) sequence previousWalHash offset in
                 (frames, (i, Err e) :: rejected)
      | Ok completeFrame =>
          let '(frames, rejected) := encode_group c rest (S i) memberSequence (frameHash completeFrame)
                                       (offset + blen completeFrame) in
          (Entry i (applies m) completeFrame memberSequence offset :: frames, rejected)
      end
  end.

Fixpoint rebase (frames : list entry) (rebased : Z) : list entry :=
  match frames with
  | [] => []
  | e :: rest => Entry (index e) (entry_applies e) (completeFrame e) (entry_sequence e) rebased
                 :: rebase rest (rebased + blen (completeFrame e))
  end.

(** [rejectWalGroupAsPoisoned(frames, failedIndex, failure)], for the frames
    from the failed one on; [None] is the index -1. *)
Definition reject_poisoned (frames : list entry) (failure : option error) : settled :=
  match frames, failure with
  | e :: rest, Some err => (index e, Err err) :: map (fun e => (index e, Err RECOVERY_GAP_READ_ONLY)) rest
  | _, _ => map (fun e => (index e, Err RECOVERY_GAP_READ_ONLY)) frames
  end.

(** [rejectWalGroupAsPoisoned] in the write loop, where no member is settled. *)
Definition reject_at (frames : list entry) (i : nat) (failure : error) : settled :=
  map (fun e => (index e, Err RECOVERY_GAP_READ_ONLY)) (take i frames) ++ reject_poisoned (drop i frames) (Some failure).

(** Runs a computation and gives its outcome as a value. *)
Definition attempt {A} (m : M store A) : M store (result A) :=
  fun s => let '(r, s') := m s in (Ok r, s').

Fixpoint write_frames (frames : list entry) (i : nat) : M store (option (nat * error)) :=
  match frames with
  | [] => ret None
  | e :: rest =>
      let* r := attempt (writeAll (completeFrame e) (entry_offset e) ;;* call) in
      match r with Err failure => ret (Some (i, failure)) | Ok _ => write_frames rest (S i) end
  end.

Fixpoint finish_frames (frames : list entry) : M store settled :=
  match frames with
  | [] => ret []
  | e :: rest =>
      let* c := gets own in
      let* r := attempt (
        call ;;*
        let* walHash := gets (fun s => headHash (position s)) in
        lift (decodeBlindWalFrameV2 (completeFrame e) (entry_sequence e) walHash
          (store_durabilityContinuityHash c) (maximumWalPayloadBytes c))) in
      match r with
      | Err failure => modify (set_poisoned true) ;;* ret (reject_poisoned (e :: rest) (Some failure))
      | Ok decoded =>
          modify (on_position (fun x => Head (walOffset x + blen (completeFrame e)) (entry_sequence e) (walHash decoded)
            (liveSegmentFirstSequence x) (sealedWalSegments x))) ;;*
          let* a := attempt (if entry_applies e then apply_frame decoded else ret tt) in
          match a with
          | Err failure => modify (set_poisoned true) ;;* ret (reject_poisoned (e :: rest) (Some failure))
          | Ok _ => let* settled := finish_frames rest in ret ((index e, Ok decoded) :: settled)
          end
      end
  end.

(** Settles every member with one error. *)
Definition reject_all (group : list member) (e : error) : settled :=
  map (fun i => (i, Err e)) (List.seq 0 (List.length group)).

Definition commitWalGroup (group : list member) : M store settled :=
  let* s := gets id in
  if negb (handle (flag s)) || negb (opened (flag s)) then ret (reject_all group GenericError)
  else if closing (flag s) then ret (reject_all group GenericError)
  else if poisoned (flag s) then ret (reject_all group RECOVERY_GAP_READ_ONLY)
  else
    let start := walOffset (position s) in
    let '(frames, rejected) := encode_group (own s) group 0 (walSequence (position s)) (headHash (position s)) start in
    let offset := fold_left (fun n e => n + blen (completeFrame e)) frames start in
    match frames with
    | [] => ret rejected
    | _ =>
        let rollover := (0 <? start) && (0 <? offset - start) && (walSegmentMaxBytes (own s) <? start + (offset - start)) in
        let* rolled := attempt (if rollover then sealLiveSegment else ret tt) in
        match rolled with
        | Err _ => modify (set_poisoned true) ;;* ret (rejected ++ reject_poisoned frames None)
        | Ok _ =>
            let frames := if rollover then rebase frames 0 else frames in
            let* failed := write_frames frames 0 in
            match failed with
            | Some (i, failure) => modify (set_poisoned true) ;;* ret (rejected ++ reject_at frames i failure)
            | None =>
                let* synced := attempt syncWal in
                match synced with
                | Err failure => modify (set_poisoned true) ;;* ret (rejected ++ map (fun e => (index e, Err failure)) frames)
                | Ok _ => let* settled := finish_frames frames in ret (rejected ++ settled)
                end
            end
        end
    end.

(** [append (value)] and [appendAndApply]: the checks, and the queue. *)
Definition append (m : member) : M store unit :=
  let* s := gets id in
  throwM_if (negb (handle (flag s)) || negb (opened (flag s))) GenericError ;;*
  throwM_if (closing (flag s)) GenericError ;;*
  throwM_if (poisoned (flag s)) RECOVERY_GAP_READ_ONLY ;;*
  modify (set_queue (walCommitQueue s ++ [m])).

(** One turn of [#drainWalCommits]: it takes the queue as it is. *)
Definition drainWalCommits : M store settled :=
  let* group := gets walCommitQueue in
  modify (set_queue []) ;;*
  commitWalGroup group.

(** ** Recovery *)

Record anchor := Anchor { anchorSequence : Z; anchorHash : bytes }.

(** [{ checkpointAnchor, replayCoveredFrames }] *)
Record recovery := Recovery { checkpointAnchor : option anchor; replayCoveredFrames : bool }.

(** [normalizeWalAnchorValue] *)
Definition normalizeWalAnchorValue (value : val) : result anchor :=
  throw_if (match value with VObj _ | VBytes _ => false | _ => true end) TypeError ;;!
  let! sequence := asU64 value.["sequence"] in
  throw_if (sequence =? 0) TypeError ;;!
  let! hash := bytes_of value.["hash"] (Some 32) true in
  Ok (Anchor sequence hash).

Definition normalizeOpenRecoveryOptions (options : val) : result recovery :=
  match options with
  | VObj fields =>
      throw_if (existsb (fun f => negb (String.eqb (fst f) "checkpointAnchor" || String.eqb (fst f) "replayCoveredFrames"))
        fields) TypeError ;;!
      let replay := options.["replayCoveredFrames"] in
      throw_if (negb (nullish replay) && negb (match replay with VBool _ => true | _ => false end)) TypeError ;;!
      let! checkpointAnchor :=
        if nullish options.["checkpointAnchor"] then Ok None
        else let! a := normalizeWalAnchorValue options.["checkpointAnchor"] in Ok (Some a) in
      throw_if (is_true replay && match checkpointAnchor with None => true | Some _ => false end) TypeError ;;!
      Ok (Recovery checkpointAnchor (is_true replay))
  | _ => Err TypeError
  end.

(** The local variables a scan threads through the segments: the object
    [chain] and the flag [anchorVerified] (or [verified]). *)
Record chain := Chain {
  expectedSequence : Z; expectedPreviousWalHash : option bytes; anchorVerified : bool }.

(** [#scanSegmentFrames]: gives the length of the valid prefix. [bs] is what
    the handle reads; every pass ends or takes a frame of 224 bytes or more. *)
Fixpoint scanSegmentFrames (fuel : nat) (bs : bytes) (size : Z) (sealed : bool)
    (onFrame : frame -> chain -> M store chain) (offset : Z) (c : chain) : M store (Z * chain) :=
  match fuel with
  | O => throw OUT_OF_FUEL
  | S fuel =>
      if negb (offset <? size) then ret (offset, c)
      else
        let remaining := size - offset in
        let torn := if sealed then throw RECOVERY_GAP_READ_ONLY else truncateTornTail offset ;;* ret (offset, c) in
        if remaining <? WAL_HEADER_BYTES then torn
        else
          let header := readAtMost bs offset WAL_HEADER_BYTES in
          if negb (blen header =? WAL_HEADER_BYTES) then torn
          else
            let* s := gets own in
            let* inspected := lift (inspectBlindWalFrameV2Header header (maximumWalPayloadBytes s)) in
            if remaining <? totalLength inspected then torn
            else
              let rest := readAtMost bs (offset + WAL_HEADER_BYTES) (totalLength inspected - WAL_HEADER_BYTES) in
              if negb (blen rest =? totalLength inspected - WAL_HEADER_BYTES) then torn
              else
                let* frame := lift (decodeBlindWalFrameV2 (header ++ rest) (expectedSequence c)
                  (match expectedPreviousWalHash c with None => previousWalHash inspected | Some h => h end)
                  (store_durabilityContinuityHash s) (maximumWalPayloadBytes s)) in
                throwM_if (negb (mapGeneration (head_of frame) =? store_mapGeneration s)
                           || negb (bytes_eqb (ownerFenceTokenHash (head_of frame)) (store_ownerFenceTokenHash s)))
                  RECOVERY_GAP_READ_ONLY ;;*
                let* c := onFrame frame c in
                scanSegmentFrames fuel bs size sealed onFrame (offset + totalLength inspected) c
  end.

(** One more pass than there are bytes. *)
Definition scan_file (bs : bytes) (size : Z) (sealed : bool) (onFrame : frame -> chain -> M store chain) (c : chain) :
    M store (Z * chain) :=
  scanSegmentFrames (S (Z.to_nat size)) bs size sealed onFrame 0 c.

(** [segments.sort(...)] by first sequence. *)
Fixpoint insert_segment (x : segment) (l : list segment) : list segment :=
  match l with
  | [] => [x]
  | y :: rest => if firstSequence x <? firstSequence y then x :: l else y :: insert_segment x rest
  end.
Definition sort_segments (l : list segment) : list segment := fold_left (fun acc x => insert_segment x acc) l [].

Fixpoint parse_entries (entries : list (bytes * file)) : result (list segment) :=
  match entries with
  | [] => Ok []
  | (name, _) :: rest =>
      match parse_segment_name name with
      | None => Err RECOVERY_GAP_READ_ONLY
      | Some (firstSequence, lastSequence) =>
          throw_if ((firstSequence =? 0) || (lastSequence <? firstSequence)) RECOVERY_GAP_READ_ONLY ;;!
          let! segments := parse_entries rest in
          Ok (Segment name firstSequence lastSequence :: segments)
      end
  end.

Fixpoint check_gaps (segments : list segment) : result unit :=
  match segments with
  | a :: ((b :: _) as rest) =>
      throw_if (negb (firstSequence b =? lastSequence a + 1)) RECOVERY_GAP_READ_ONLY ;;! check_gaps rest
  | _ => Ok tt
  end.

Definition enumerateWalSegments : M store (list segment) :=
  let* entries := gets (fun s => sealed (control s)) in
  let* segments := lift (parse_entries entries) in
  let segments := sort_segments segments in
  lift (check_gaps segments) ;;*
  ret segments.

Definition peekLiveFirstSequence : M store Z :=
  let* s := gets id in
  match live (control s) with
  | None => throw GenericError
  | Some f =>
      if blen (contents f) <? WAL_HEADER_BYTES then ret 1
      else
        let header := readAtMost (contents f) 0 WAL_HEADER_BYTES in
        if negb (blen header =? WAL_HEADER_BYTES) then ret 1
        else
          let* inspected := lift (inspectBlindWalFrameV2Header header (maximumWalPayloadBytes (own s))) in
          ret (sequence inspected)
  end.

Fixpoint find_file (name : bytes) (l : list (bytes * file)) : option file :=
  match l with [] => None | (k, f) :: rest => if bytes_eqb k name then Some f else find_file name rest end.

Definition replaySealedWalSegment (x : segment) (onFrame : frame -> chain -> M store chain) (c : chain) : M store chain :=
  let* f := gets (fun s => find_file (name x) (sealed (control s))) in
  match f with
  | None => throw GenericError
  | Some f =>
      let* r := scan_file (contents f) (blen (contents f)) true onFrame c in
      ret (snd r)
  end.

(** The callback [onFrame] of [#recover]. *)
Definition recover_frame (r : recovery) (f : frame) (c : chain) : M store chain :=
  let* verified := lift (
    match checkpointAnchor r with
    | Some a =>
        if negb (anchorVerified c) && (sequence (head_of f) =? anchorSequence a)
        then throw_if (negb (bytes_eqb (walHash f) (anchorHash a))) RECOVERY_GAP_READ_ONLY ;;! Ok true
        else Ok (anchorVerified c)
    | None => Ok (anchorVerified c)
    end) in
  (if match checkpointAnchor r with
      | None => true
      | Some a => replayCoveredFrames r || (anchorSequence a <? sequence (head_of f))
      end
   then apply_frame f else ret tt) ;;*
  modify (on_position (fun x => Head (walOffset x) (sequence (head_of f)) (walHash f) (liveSegmentFirstSequence x)
    (sealedWalSegments x))) ;;*
  ret (Chain (sequence (head_of f) + 1) (Some (walHash f)) verified).

Fixpoint recover_segments (r : recovery) (segments : list segment) (c : chain) : M store chain :=
  match segments with
  | [] => ret c
  | x :: rest =>
      throwM_if (negb (firstSequence x =? expectedSequence c)) RECOVERY_GAP_READ_ONLY ;;*
      let* c := replaySealedWalSegment x (recover_frame r) c in
      throwM_if (negb (expectedSequence c =? lastSequence x + 1)) RECOVERY_GAP_READ_ONLY ;;*
      recover_segments r rest c
  end.

(** The chain before the first retained frame, or a refusal. *)
Definition start_chain (r : recovery) (firstRetainedSequence : Z) : result chain :=
  let c := Chain firstRetainedSequence (if firstRetainedSequence =? 1 then Some ZERO32 else None) false in
  match checkpointAnchor r with
  | None => throw_if (negb (firstRetainedSequence =? 1)) RECOVERY_GAP_READ_ONLY ;;! Ok c
  | Some a =>
      throw_if (anchorSequence a + 1 <? firstRetainedSequence) RECOVERY_GAP_READ_ONLY ;;!
      Ok (if firstRetainedSequence =? anchorSequence a + 1
          then Chain firstRetainedSequence (Some (anchorHash a)) true else c)
  end.

Definition recover (r : recovery) : M store unit :=
  let* segments := enumerateWalSegments in
  let* firstRetainedSequence :=
    match segments with [] => peekLiveFirstSequence | x :: _ => ret (firstSequence x) end in
  let* c := lift (start_chain r firstRetainedSequence) in
  let* c := recover_segments r segments c in
  modify (on_position (fun x => Head (walOffset x) (walSequence x) (headHash x) (expectedSequence c) (sealedWalSegments x))) ;;*
  let* f := gets (fun s => live (control s)) in
  match f with
  | None => throw GenericError
  | Some f =>
      let* (offset, c) := scan_file (contents f) (blen (contents f)) false (recover_frame r) c in
      modify (on_position (fun x => Head offset (walSequence x) (headHash x) (liveSegmentFirstSequence x) (sealedWalSegments x))) ;;*
      throwM_if (match checkpointAnchor r with Some _ => negb (anchorVerified c) | None => false end) RECOVERY_GAP_READ_ONLY ;;*
      modify (on_position (fun x => Head (walOffset x) (walSequence x) (headHash x) (liveSegmentFirstSequence x) segments))
  end.

(** [try { m } catch (error) { handler; throw error }] *)
Definition on_throw {A} (m : M store A) (handler : store -> store) : M store A :=
  fun s => match m s with (Ok x, s') => (Ok x, s') | (Err e, s') => (Err e, handler s') end.

(** The part of [_open] from the creation of the live segment on. The last
    call stands for [#cleanupStaging]. *)
Definition open_wal (r : recovery) : M store unit :=
  io (on_control create_live) ;;*
  modify (set_handle true) ;;*
  call ;;* syncWal ;;* call ;;* call ;;* call ;;*
  recover r ;;*
  call ;;*
  let* closing := gets (fun s => closing (flag s)) in
  throwM_if closing GenericError ;;*
  modify (set_opened true).

Definition open (options : val) : M store unit :=
  let* s := gets id in
  throwM_if (destroyed (flag s)) GenericError ;;*
  throwM_if (handle (flag s)) GenericError ;;*
  throwM_if (closing (flag s)) GenericError ;;*
  let* r := lift (normalizeOpenRecoveryOptions options) in
  throwM_if (rootActive (flag s)) RECOVERY_GAP_READ_ONLY ;;*
  modify (set_rootActive true) ;;*
  on_throw (open_wal r) (fun s => set_rootActive false (set_handle false (set_opened false s))).

(** ** Pruning *)

Definition prune_frame (a : anchor) (f : frame) (c : chain) : M store chain :=
  let* verified := lift (
    if sequence (head_of f) =? anchorSequence a
    then throw_if (negb (bytes_eqb (walHash f) (anchorHash a))) RECOVERY_GAP_READ_ONLY ;;! Ok true
    else Ok (anchorVerified c)) in
  ret (Chain (sequence (head_of f) + 1) (Some (walHash f)) verified).

Definition verifyWalPruneAnchor (a : anchor) : M store unit :=
  let* p := gets position in
  if anchorSequence a =? walSequence p then
    throwM_if (negb (bytes_eqb (headHash p) (anchorHash a))) RECOVERY_GAP_READ_ONLY
  else
    let* c :=
      if liveSegmentFirstSequence p <=? anchorSequence a then
        let* f := gets (fun s => live (control s)) in
        match f with
        | None => throw GenericError
        | Some f =>
            let* (_, c) := scan_file (contents f) (walOffset p) true (prune_frame a)
                              (Chain (liveSegmentFirstSequence p) None false) in ret c
        end
      else
        match List.find (fun x => (firstSequence x <=? anchorSequence a) && (anchorSequence a <=? lastSequence x))
                (sealedWalSegments p) with
        | None => throw RECOVERY_GAP_READ_ONLY
        | Some x => replaySealedWalSegment x (prune_frame a) (Chain (firstSequence x) None false)
        end in
    throwM_if (negb (anchorVerified c)) RECOVERY_GAP_READ_ONLY.

(** [fs.unlink]; a missing file is not an error. *)
Definition unlink (name : bytes) (d : directory) : directory :=
  Directory (live d) (List.filter (fun e => negb (bytes_eqb (fst e) name)) (sealed d)).

(** Which segments an anchor and a horizon allow to go. *)
Definition prunable (a : anchor) (retainFromSequence : Z) (x : segment) : bool :=
  negb ((anchorSequence a <? lastSequence x) || (retainFromSequence <=? lastSequence x)).

Definition prune_segments (a : anchor) (retainFromSequence : Z) : list segment -> M store unit :=
  each (fun x =>
    if prunable a retainFromSequence x then io (on_control (unlink (name x))) ;;* call ;;* call else ret tt).

Definition pruneWalSegments (options : val) : M store (list segment) :=
  let* s := gets id in
  throwM_if (negb (handle (flag s)) || negb (opened (flag s))) GenericError ;;*
  throwM_if (closing (flag s)) GenericError ;;*
  throwM_if (poisoned (flag s)) RECOVERY_GAP_READ_ONLY ;;*
  throwM_if (match options with VObj _ => false | _ => true end) TypeError ;;*
  throwM_if (match options with
             | VObj fields => existsb (fun f => negb (String.eqb (fst f) "checkpointAnchor" || String.eqb (fst f) "retainFromSequence")) fields
             | _ => false end) TypeError ;;*
  let* a := lift (normalizeWalAnchorValue options.["checkpointAnchor"]) in
  let* retainFromSequence := lift (asU64 options.["retainFromSequence"]) in
  throwM_if (retainFromSequence =? 0) TypeError ;;*
  throwM_if (walSequence (position s) <? anchorSequence a) RECOVERY_GAP_READ_ONLY ;;*
  verifyWalPruneAnchor a ;;*
  let segments := sealedWalSegments (position s) in
  prune_segments a retainFromSequence segments ;;*
  modify (on_position (fun x => Head (walOffset x) (walSequence x) (headHash x) (liveSegmentFirstSequence x)
    (List.filter (fun x => negb (prunable a retainFromSequence x)) (sealedWalSegments x)))) ;;*
  ret (List.filter (prunable a retainFromSequence) segments).

(** ** Closing

    [close] raises [closing] at once; the rest runs when the lock of the log
    is free. *)
Definition close_begin : M store unit := modify (set_closing true).

(** The hashes are wiped. *)
Definition wiped (c : config) : config :=
  Config (store_mapGeneration c) (replicate (List.length (store_ownerFenceTokenHash c)) Byte.x00)
    (replicate (List.length (store_durabilityContinuityHash c)) Byte.x00) (maximumWalPayloadBytes c) (walSegmentMaxBytes c).

Definition close_end : M store unit :=
  let* s := gets id in
  modify (set_opened false) ;;*
  modify (set_handle false) ;;*
  let* closed := (if handle (flag s) then attempt call else ret (Ok tt)) in
  modify (set_rootActive false) ;;*
  modify (set_own (wiped (own s))) ;;*
  modify (set_destroyed true) ;;*
  modify (set_closing false) ;;*
  lift closed.

End WithOutside.
End WithPlatform.
End Wal.
