(* ===== verification/WalFrames.v ===== *)
(** * Frames of the write-ahead log: layout and inverses

    [wire] is the layout of a frame, field by field; the encoder produces it and
    the decoder accepts nothing else. *)

From Stdlib Require Import ZArith Lia Bool List String Ascii.
From Stdlib Require Import Strings.Byte.
From stdpp Require Import base tactics list strings.
From S2P Require Import Prelude Codec CodecLaws Authority Hashes WriteAheadLog.
Import Wal.

(** What a caller asks to be logged. *)
Record entry_data := Data { d_type : Z; d_transaction : bytes; d_bucket : Z; d_payload : bytes }.

Record data_ok (c : config) (d : entry_data) : Prop := {
  ok_type : 1 <= d_type d <= 255;
  ok_transaction : blen (d_transaction d) = 32 /\ isZero (d_transaction d) = false;
  ok_bucket : 0 <= d_bucket d <= 0xffff;
  ok_payload : blen (d_payload d) <= maximumWalPayloadBytes c
}.

Record config_ok (c : config) : Prop := {
  ok_generation : 0 < store_mapGeneration c <= MAX_U64;
  ok_fence : blen (store_ownerFenceTokenHash c) = 32 /\ isZero (store_ownerFenceTokenHash c) = false;
  ok_continuity : blen (store_durabilityContinuityHash c) = 32 /\ isZero (store_durabilityContinuityHash c) = false;
  ok_maximum : 1024 <= maximumWalPayloadBytes c <= 16 * 1024 * 1024
}.

(** ** Reading parts *)

Lemma slice_skip a b i n : blen a <= i -> slice (a ++ b) i n = slice b (i - blen a) n.
Proof.
  unfold slice, blen. intros Hi. rewrite drop_app_ge by lia. do 2 f_equal. lia.
Qed.

Lemma slice_here a b n : blen a = n -> slice (a ++ b) 0 n = a.
Proof. intros <-. unfold slice, blen. rewrite Nat2Z.id. apply take_app_length. Qed.

Lemma slice_last a n : blen a = n -> slice a 0 n = a.
Proof. intros <-. apply slice_all. Qed.

Lemma slice_at a b i n : i = 0 -> blen a = n -> slice (a ++ b) i n = a.
Proof. intros ->. apply slice_here. Qed.

(** Finds a part of a concatenation by its offset. *)
Ltac part := repeat (rewrite slice_skip by len); first [rewrite slice_at by len | rewrite slice_last by len]; try done.

Lemma slice_slice bs i n j m : 0 <= i -> 0 <= j -> 0 <= m -> j + m <= n -> slice (slice bs i n) j m = slice bs (i + j) m.
Proof.
  unfold slice. intros. rewrite skipn_firstn_comm, take_take, drop_drop. f_equal; [lia|f_equal; lia].
Qed.

Lemma get_byte_value bs i : 0 <= i < blen bs -> get_byte bs i = be_val (slice bs i 1).
Proof.
  intros Hi. change 1 with (1 + 0). rewrite slice_cons by lia. rewrite slice_nil. unfold be_val. cbn.
  rewrite b2z_z2b. symmetry. apply Z.mod_small. unfold get_byte. destruct (bs !! _); [apply b2z_range|lia].
Qed.

Lemma be_val_slice_app bs i m n : m = n + 1 -> 0 <= i -> 0 <= n -> i + n < blen bs ->
  be_val (slice bs i m) = be_val (slice bs i n) * 256 + get_byte bs (i + n).
Proof.
  intros ->. intros. rewrite slice_app, get_byte_value by lia. set (x := slice bs (i + n) 1).
  assert (Hx : blen x = 1) by (apply blen_slice; lia). destruct x as [|b [|]]; [discriminate| |].
  - by rewrite be_val_snoc.
  - rewrite !blen_cons in Hx. pose proof (blen_nonneg l). lia.
Qed.

Lemma readU16be_spec bs i : 0 <= i -> i + 2 <= blen bs -> readU16be bs i = be_val (slice bs i 2).
Proof.
  intros. unfold readU16be. rewrite (be_val_slice_app bs i 2 1), (get_byte_value bs i) by lia. lia.
Qed.

Lemma readU32be_spec bs i : 0 <= i -> i + 4 <= blen bs -> readU32be bs i = be_val (slice bs i 4).
Proof.
  intros. unfold readU32be. rewrite (be_val_slice_app bs i 4 3), (be_val_slice_app bs i 3 2), (be_val_slice_app bs i 2 1) by lia.
  rewrite (get_byte_value bs i) by lia. lia.
Qed.

Lemma readU64be_spec bs i : 0 <= i -> i + 8 <= blen bs -> readU64be bs i = be_val (slice bs i 8).
Proof. intros. change (readU64be bs i) with (readU64 bs i false). by apply readU64_be_spec. Qed.

(** ** Writing parts *)

Lemma ushr_div v k : 0 <= v < 4294967296 -> 0 <= k < 32 -> js_ushr v k = v / 2 ^ k.
Proof. intros. unfold js_ushr. rewrite (Z.mod_small v), (Z.mod_small k), Z.shiftr_div_pow2 by lia. done. Qed.

Lemma writeU16be_next buf a i v : i = blen a -> blen a + 2 <= blen buf -> 0 <= v <= 0xffff ->
  writeU16be (splice buf 0 a) i v = splice buf 0 (a ++ be_bytes 2 v).
Proof.
  intros -> Hl Hv. unfold writeU16be. rewrite set_byte_next, set_byte_next by len. rewrite <- app_assoc, ushr_div by lia. done.
Qed.

Lemma writeU32be_next buf a i v : i = blen a -> blen a + 4 <= blen buf -> 0 <= v < 4294967296 ->
  writeU32be (splice buf 0 a) i v = splice buf 0 (a ++ be_bytes 4 v).
Proof.
  intros -> Hl Hv. unfold writeU32be. do 4 rewrite set_byte_next by len. rewrite <- !app_assoc, !ushr_div by lia.
  change (be_bytes 4 v) with [z2b (v / 256 / 256 / 256); z2b (v / 256 / 256); z2b (v / 256); z2b v]. rewrite !Z.div_div by lia. done.
Qed.

Lemma asU64_of n : 0 <= n <= MAX_U64 -> Wal.asU64 (VBig n) = Ok n.
Proof. intros. unfold Wal.asU64. cbn. by rewrite (proj2 (Z.ltb_ge n 0)), (proj2 (Z.ltb_ge MAX_U64 n)) by lia. Qed.

Lemma asU64_inv v n : Wal.asU64 v = Ok n -> 0 <= n <= MAX_U64.
Proof.
  unfold Wal.asU64. intros Hq. apply bindR_ok in Hq as (w & _ & Hq). destruct w; try done. oks. b2p. lia.
Qed.

Lemma asU64_big_inv n m : Wal.asU64 (VBig n) = Ok m -> m = n /\ 0 <= n <= MAX_U64.
Proof. unfold Wal.asU64. cbn [bindR]. intros Hq. oks. b2p. split; [done|lia]. Qed.

Lemma writeU64be_next buf a i v : i = blen a -> blen a + 8 <= blen buf -> 0 <= v <= MAX_U64 ->
  writeU64be (splice buf 0 a) i v = Ok (splice buf 0 (a ++ be_bytes 8 v)).
Proof.
  intros -> Hl Hv. unfold writeU64be. rewrite asU64_of by done. cbn [bindR]. f_equal.
  change (writeU64 (splice buf 0 a) v (blen a) false = splice buf 0 (a ++ be_bytes 8 v)). pose proof (blen_nonneg a).
  rewrite writeU64_be_spec by (rewrite ?blen_splice by lia; lia). by apply splice_next; len.
Qed.

(** ** The layout *)

Section Layout.
Context `{Platform} (c : config).
Hypothesis digest_length : forall bs, blen (generichash bs) = 32.

Definition prefix_parts (seq : Z) (prev : bytes) (d : entry_data) : list bytes := [
  WAL_MAGIC; [z2b WAL_VERSION]; [z2b (d_type d)]; be_bytes 4 (WAL_MIN_FRAME_BYTES + blen (d_payload d));
  be_bytes 8 seq; d_transaction d; be_bytes 2 (d_bucket d); be_bytes 8 (store_mapGeneration c);
  store_ownerFenceTokenHash c; be_bytes 4 (blen (d_payload d)); prev; store_durabilityContinuityHash c;
  Hash.blake2b256 (d_payload d); d_payload d].

Definition wire_prefix (seq : Z) (prev : bytes) (d : entry_data) : bytes := concat (prefix_parts seq prev d).
Definition wire (seq : Z) (prev : bytes) (d : entry_data) : bytes :=
  wire_prefix seq prev d ++ frameChecksum (wire_prefix seq prev d).

Definition header_of (seq : Z) (prev : bytes) (d : entry_data) : header :=
  Header (d_type d) (WAL_MIN_FRAME_BYTES + blen (d_payload d)) (blen (d_payload d)) seq (d_transaction d) (d_bucket d)
    (store_mapGeneration c) (store_ownerFenceTokenHash c) prev (store_durabilityContinuityHash c)
    (Hash.blake2b256 (d_payload d)).

Definition frame_of (seq : Z) (prev : bytes) (d : entry_data) : frame :=
  Frame (header_of seq prev d) (d_payload d) (frameHash (wire seq prev d)) (WAL_MIN_FRAME_BYTES + blen (d_payload d)).

Record link_ok (seq : Z) (prev : bytes) : Prop := { ok_sequence : 0 < seq <= MAX_U64; ok_previous : blen prev = 32 }.

Lemma blen_blake bs : blen (Hash.blake2b256 bs) = 32.
Proof. apply digest_length. Qed.

Context (Hc : config_ok c).

Lemma blen_wire_prefix seq prev d : data_ok c d -> link_ok seq prev -> blen (wire_prefix seq prev d) = 192 + blen (d_payload d).
Proof.
  intros [_ [Ht _] _ _] [_ Hp]. destruct Hc as [_ [Hf _] [Hd _] _]. unfold wire_prefix, prefix_parts. cbn [concat].
  autorewrite with hive_len. rewrite blen_blake, Ht, Hp, Hf, Hd. change (blen WAL_MAGIC) with 4. lia.
Qed.

Lemma blen_checksum bs : blen (frameChecksum bs) = 32.
Proof. apply digest_length. Qed.

Lemma blen_wire seq prev d : data_ok c d -> link_ok seq prev -> blen (wire seq prev d) = 224 + blen (d_payload d).
Proof. intros. unfold wire. rewrite blen_app, blen_wire_prefix, blen_checksum by done. lia. Qed.

(** ** The encoder *)

Definition frame_object (type transactionId virtualBucket payload : val) (seq : Z) (prev : bytes) : val := VObj [
  ("type", type);
  ("sequence", VBig seq);
  ("transactionId", transactionId);
  ("virtualBucket", virtualBucket);
  ("mapGeneration", VBig (store_mapGeneration c));
  ("ownerFenceTokenHash", VBytes (store_ownerFenceTokenHash c));
  ("durabilityContinuityHash", VBytes (store_durabilityContinuityHash c));
  ("previousWalHash", VBytes prev);
  ("payload", payload)].

Lemma bytes_of_inv v n b bs : bytes_of v n b = Ok bs ->
  v = VBytes bs /\ (forall k, n = Some k -> blen bs = k) /\ (b = true -> isZero bs = false).
Proof.
  unfold bytes_of. destruct v; try done. intros Hq. oks. split; [done|]. split.
  - intros k ->. by b2p.
  - intros ->. done.
Qed.

Lemma wal_bytes_ok bs k b : blen bs = k -> (b = true -> isZero bs = false) -> bytes_of (VBytes bs) (Some k) b = Ok bs.
Proof. intros <- Hz. unfold bytes_of. rewrite Z.eqb_refl. cbn. destruct b; [by rewrite Hz|done]. Qed.

Lemma boundedInteger_inv v lo hi n : Wal.boundedInteger v lo hi = Ok n -> v = VNum n /\ lo <= n <= hi.
Proof. unfold Wal.boundedInteger. destruct v; try done. intros Hq. oks. b2p. split; [done|lia]. Qed.

Lemma boundedInteger_of n lo hi : lo <= n <= hi -> - MAX_SAFE_INTEGER <= lo -> hi <= MAX_SAFE_INTEGER ->
  Wal.boundedInteger (VNum n) lo hi = Ok n.
Proof.
  intros. unfold Wal.boundedInteger, isSafeInteger. rewrite (proj2 (Z.leb_le _ n)), (proj2 (Z.leb_le n _)) by lia.
  by rewrite (proj2 (Z.ltb_ge n lo)), (proj2 (Z.ltb_ge hi n)) by lia.
Qed.

(** The stores of the encoder fill the buffer from the left. *)
Lemma encode_buffer seq prev d output : data_ok c d -> link_ok seq prev -> blen output = 224 + blen (d_payload d) ->
  (let frame := splice output 0 WAL_MAGIC in
   let frame := set_byte frame 4 WAL_VERSION in
   let frame := set_byte frame 5 (d_type d) in
   let frame := writeU32be frame 6 (WAL_MIN_FRAME_BYTES + blen (d_payload d)) in
   let! frame := writeU64be frame 10 seq in
   let frame := splice frame 18 (d_transaction d) in
   let frame := writeU16be frame 50 (d_bucket d) in
   let! frame := writeU64be frame 52 (store_mapGeneration c) in
   let frame := splice frame 60 (store_ownerFenceTokenHash c) in
   let frame := writeU32be frame 92 (blen (d_payload d)) in
   let frame := splice frame 96 prev in
   let frame := splice frame 128 (store_durabilityContinuityHash c) in
   let frame := splice frame 160 (Hash.blake2b256 (d_payload d)) in
   Ok (splice frame WAL_HEADER_BYTES (d_payload d))) = Ok (splice output 0 (wire_prefix seq prev d)).
Proof.
  intros [_ [Ht _] Hv Hpl] [Hs Hp] Hl. destruct Hc as [Hg [Hf _] [Hd _] Hm]. pose proof (blen_nonneg (d_payload d)).
  pose proof (blen_blake (d_payload d)) as Hb. cbv zeta. change WAL_MIN_FRAME_BYTES with 224. change WAL_HEADER_BYTES with 192.
  pose proof (eq_refl : blen WAL_MAGIC = 4) as Hmagic.
  do 2 rewrite set_byte_next by len. rewrite writeU32be_next by len.
  rewrite writeU64be_next by len. cbn [bindR]. rewrite splice_next by len. rewrite writeU16be_next by len.
  rewrite writeU64be_next by len. cbn [bindR]. rewrite splice_next by len. rewrite writeU32be_next by len.
  do 4 rewrite splice_next by len. unfold wire_prefix, prefix_parts. cbn [concat]. by rewrite <- !app_assoc, app_nil_r.
Qed.

Lemma encode_wire seq prev d : data_ok c d -> link_ok seq prev ->
  encodeWalFrame (frame_object (VNum (d_type d)) (VBytes (d_transaction d)) (VNum (d_bucket d)) (VBytes (d_payload d)) seq prev)
    (maximumWalPayloadBytes c) = Ok (wire seq prev d).
Proof.
  intros Hd Hk. pose proof (encode_buffer seq prev d (replicate (Z.to_nat (WAL_MIN_FRAME_BYTES + blen (d_payload d))) Byte.x00) Hd Hk) as Hb.
  pose proof (blen_wire_prefix seq prev d Hd Hk) as Hw. pose proof (blen_wire seq prev d Hd Hk) as Hww.
  pose proof Hd as [Ht [Htl Htz] Hv Hpl]. pose proof Hk as [Hs Hp]. destruct Hc as [Hg [Hfl Hfz] [Hdl Hdz] Hm].
  pose proof (blen_nonneg (d_payload d)).
  unfold encodeWalFrame, frame_object. cbn [get assoc String.eqb Ascii.eqb Bool.eqb]. unfold MAX_SAFE_INTEGER in *.
  rewrite boundedInteger_of by (unfold MAX_SAFE_INTEGER; lia). cbn [bindR]. rewrite asU64_of by lia. cbn [bindR].
  rewrite (proj2 (Z.eqb_neq seq 0)) by lia. cbn [throw_if bindR]. rewrite wal_bytes_ok by done. cbn [bindR].
  rewrite boundedInteger_of by (unfold MAX_SAFE_INTEGER; lia). cbn [bindR]. rewrite asU64_of by lia. cbn [bindR].
  rewrite !wal_bytes_ok by done. cbn [bindR bytes_of throw_if andb]. rewrite (proj2 (Z.ltb_ge _ _)) by lia. cbn [throw_if bindR].
  set (output := replicate _ _) in *.
  assert (Ho : blen output = 224 + blen (d_payload d)).
  { unfold output. rewrite blen_replicate. change WAL_MIN_FRAME_BYTES with 224. lia. }
  specialize (Hb Ho). cbv zeta in Hb.
  apply bindR_ok in Hb as (f1 & Hf1 & Hb). rewrite Hf1. cbn [bindR]. apply bindR_ok in Hb as (f2 & Hf2 & Hb). rewrite Hf2. cbn [bindR].
  injection Hb as Hb. rewrite Hb. f_equal. change WAL_MIN_FRAME_BYTES with 224. change WAL_CHECKSUM_BYTES with 32.
  replace (224 + blen (d_payload d) - 32) with (blen (wire_prefix seq prev d)) by lia.
  assert (Hslice : slice (splice output 0 (wire_prefix seq prev d)) 0 (blen (wire_prefix seq prev d)) = wire_prefix seq prev d).
  { unfold splice. rewrite take_0. cbn [app]. by apply slice_here. }
  rewrite Hslice, splice_next by (rewrite ?blen_checksum; lia). apply splice_all.
  change (blen (wire seq prev d) = blen output). lia.
Qed.

Lemma encodeWalFrame_inv type tx vb pl seq prev bs :
  encodeWalFrame (frame_object type tx vb pl seq prev) (maximumWalPayloadBytes c) = Ok bs ->
  exists d, data_ok c d /\ link_ok seq prev /\ bs = wire seq prev d /\
    type = VNum (d_type d) /\ tx = VBytes (d_transaction d) /\ vb = VNum (d_bucket d) /\ pl = VBytes (d_payload d).
Proof.
  intros Hq. pose proof Hq as Hq'. unfold encodeWalFrame, frame_object in Hq.
  cbn [get assoc String.eqb Ascii.eqb Bool.eqb] in Hq.
  apply bindR_ok in Hq as (t & Ht & Hq). apply bindR_ok in Hq as (s & Hs & Hq). apply bindR_ok in Hq as ([] & Hz & Hq).
  apply bindR_ok in Hq as (txb & Htx & Hq). apply bindR_ok in Hq as (v & Hv & Hq). apply bindR_ok in Hq as (g & _ & Hq).
  apply bindR_ok in Hq as (f & _ & Hq). apply bindR_ok in Hq as (dc & _ & Hq). apply bindR_ok in Hq as (pv & Hpv & Hq).
  apply bindR_ok in Hq as (p & Hp & Hq). apply bindR_ok in Hq as ([] & Hmax & _).
  apply boundedInteger_inv in Ht as [-> Ht]. apply boundedInteger_inv in Hv as [-> Hv].
  apply bytes_of_inv in Htx as (-> & Htl & Htz). apply bytes_of_inv in Hp as (-> & _ & _). apply bytes_of_inv in Hpv as ([= <-] & Hpl & _).
  apply asU64_big_inv in Hs as [-> Hs].
  apply throw_if_ok in Hz, Hmax. b2p. exists (Data t txb v p).
  assert (Hd : data_ok c (Data t txb v p)) by (split; cbn; auto).
  assert (Hk : link_ok seq prev) by (split; [lia|by apply Hpl]).
  split; [done|]. split; [done|]. split; [|done]. pose proof (encode_wire seq prev _ Hd Hk) as He. cbn [d_type d_transaction d_bucket d_payload] in He. congruence.
Qed.

(** ** The decoder *)

(** What the header parser reads at each offset. *)
Record header_at (bs : bytes) (h : header) : Prop := {
  at_magic : slice bs 0 4 = WAL_MAGIC;
  at_version : be_val (slice bs 4 1) = WAL_VERSION;
  at_type : be_val (slice bs 5 1) = type h;
  at_total : be_val (slice bs 6 4) = totalLength h;
  at_sequence : be_val (slice bs 10 8) = sequence h;
  at_transaction : slice bs 18 32 = transactionId h;
  at_bucket : be_val (slice bs 50 2) = virtualBucket h;
  at_generation : be_val (slice bs 52 8) = mapGeneration h;
  at_fence : slice bs 60 32 = ownerFenceTokenHash h;
  at_payloadLength : be_val (slice bs 92 4) = payloadLength h;
  at_previous : slice bs 96 32 = previousWalHash h;
  at_continuity : slice bs 128 32 = durabilityContinuityHash h;
  at_payloadHash : slice bs 160 32 = payloadHash h
}.

(** What it checks. *)
Record header_good (h : header) : Prop := {
  good_type : type h <> 0;
  good_total : totalLength h = WAL_MIN_FRAME_BYTES + payloadLength h;
  good_payload : payloadLength h <= maximumWalPayloadBytes c;
  good_sequence : sequence h <> 0;
  good_transaction : isZero (transactionId h) = false;
  good_generation : mapGeneration h <> 0;
  good_fence : isZero (ownerFenceTokenHash h) = false;
  good_continuity : isZero (durabilityContinuityHash h) = false
}.

Lemma inspect_iff bs h : inspectBlindWalFrameV2Header bs (maximumWalPayloadBytes c) = Ok h <->
  blen bs = 192 /\ header_at bs h /\ header_good h.
Proof.
  destruct Hc as [_ _ _ Hm]. unfold inspectBlindWalFrameV2Header.
  rewrite boundedInteger_of by (unfold MAX_SAFE_INTEGER; lia). change WAL_HEADER_BYTES with 192. split.
  - intros Hq. apply bindR_ok in Hq as (b & Hb & Hq). apply bytes_of_inv in Hb as ([= <-] & Hl & _). specialize (Hl 192 eq_refl).
    split; [done|]. oks. b2p. rewrite !get_byte_value in * by lia. rewrite !readU32be_spec in * by lia.
    rewrite !readU64be_spec in * by lia. rewrite readU16be_spec by lia. split; split; cbn [type totalLength payloadLength sequence
      transactionId virtualBucket mapGeneration ownerFenceTokenHash previousWalHash durabilityContinuityHash payloadHash];
      done || (by apply bytes_eqb_eq).
  - intros (Hl & [Hmg Hv Ht Htl Hs Htx Hb Hg Hf Hpl Hp Hd Hph] & [Gt Gtl Gp Gs Gtx Gg Gf Gd]).
    rewrite wal_bytes_ok by done. cbn [bindR]. rewrite !get_byte_value, !readU32be_spec, !readU64be_spec, readU16be_spec by lia.
    rewrite Hmg, Hv, Ht, Htl, Hs, Htx, Hb, Hg, Hf, Hpl, Hp, Hd, Hph, bytes_eqb_refl, Gtx, Gf, Gd, Gtl.
    rewrite (proj2 (Z.eqb_neq (type h) 0)), (proj2 (Z.eqb_neq (sequence h) 0)), (proj2 (Z.eqb_neq (mapGeneration h) 0)) by done.
    rewrite !Z.eqb_refl, (proj2 (Z.ltb_ge _ _)) by done. cbn [negb throw_if bindR]. rewrite <- Gtl. by destruct h.
Qed.

Lemma be_val_small k n : 0 <= n < 256 ^ Z.of_nat k -> be_val (be_bytes k n) = n.
Proof. apply be_val_be_bytes. Qed.

(** The widths in use. *)
Lemma wide k n : k = 2%nat /\ 0 <= n <= 0xffff \/ k = 4%nat /\ 0 <= n <= 16 * 1024 * 1024 + 224 \/ k = 8%nat /\ 0 <= n <= MAX_U64 ->
  0 <= n < 256 ^ Z.of_nat k.
Proof. unfold MAX_U64. intros [[-> Hn]|[[-> Hn]|[-> Hn]]]; cbn; lia. Qed.

Lemma wire_header_at seq prev d t : data_ok c d -> link_ok seq prev ->
  header_at (slice (wire_prefix seq prev d ++ t) 0 192) (header_of seq prev d) /\ header_good (header_of seq prev d).
Proof.
  intros [Ht [Htl Htz] Hv Hpl] [Hs Hp]. destruct Hc as [Hg [Hfl Hfz] [Hdl Hdz] Hm].
  pose proof (blen_nonneg (d_payload d)). pose proof (blen_blake (d_payload d)) as Hbl. pose proof (eq_refl : blen WAL_MAGIC = 4) as Hmagic.
  unfold wire_prefix, prefix_parts. cbn [concat]. rewrite app_nil_r, <- !app_assoc. change WAL_MIN_FRAME_BYTES with 224.
  assert (H1 : forall n, 0 <= n <= 255 -> be_val [z2b n] = n).
  { intros n Hn. unfold be_val. cbn. rewrite b2z_z2b. apply Z.mod_small. lia. }
  split; split; cbn [header_of type totalLength payloadLength sequence transactionId virtualBucket mapGeneration
    ownerFenceTokenHash previousWalHash durabilityContinuityHash payloadHash]; try done; try lia;
    change WAL_MIN_FRAME_BYTES with 224; rewrite ?slice_slice by lia; part; first [apply H1; unfold WAL_VERSION; lia | apply be_val_small; apply wide; lia].
Qed.

Lemma inspect_wire seq prev d t : data_ok c d -> link_ok seq prev ->
  inspectBlindWalFrameV2Header (slice (wire_prefix seq prev d ++ t) 0 192) (maximumWalPayloadBytes c) = Ok (header_of seq prev d).
Proof.
  intros Hd Hk. apply inspect_iff. destruct (wire_header_at seq prev d t Hd Hk) as [Ha Hg]. split; [|done].
  pose proof (blen_wire_prefix seq prev d Hd Hk). pose proof (blen_nonneg (d_payload d)). pose proof (blen_nonneg t).
  apply blen_slice; len.
Qed.

Lemma join_slices bs i n j m k : j = i + n -> k = n + m -> 0 <= i -> 0 <= n -> 0 <= m ->
  slice bs i n ++ slice bs j m = slice bs i k.
Proof. intros -> -> ???. by rewrite slice_app. Qed.

Lemma digits bs i n k : 0 <= i -> i + n <= blen bs -> n = Z.of_nat k -> slice bs i n = be_bytes k (be_val (slice bs i n)).
Proof.
  intros ?? ->. symmetry. apply be_bytes_of. pose proof (blen_slice bs i (Z.of_nat k)). unfold blen in *. lia.
Qed.

(** A header is the concatenation of what is read from it. *)
Lemma header_bytes bs h : blen bs = 192 -> header_at bs h ->
  bs = WAL_MAGIC ++ be_bytes 1 WAL_VERSION ++ be_bytes 1 (type h) ++ be_bytes 4 (totalLength h) ++ be_bytes 8 (sequence h) ++
    transactionId h ++ be_bytes 2 (virtualBucket h) ++ be_bytes 8 (mapGeneration h) ++ ownerFenceTokenHash h ++
    be_bytes 4 (payloadLength h) ++ previousWalHash h ++ durabilityContinuityHash h ++ payloadHash h.
Proof.
  intros Hl [<- <- <- <- <- <- <- <- <- <- <- <- <-].
  rewrite <- (digits bs 4 1 1), <- (digits bs 5 1 1), <- (digits bs 6 4 4), <- (digits bs 10 8 8), <- (digits bs 50 2 2),
    <- (digits bs 52 8 8), <- (digits bs 92 4 4) by lia.
  rewrite (join_slices bs 128 32 160 32 64), (join_slices bs 96 32 128 64 96), (join_slices bs 92 4 96 96 100),
    (join_slices bs 60 32 92 100 132), (join_slices bs 52 8 60 132 140), (join_slices bs 50 2 52 140 142),
    (join_slices bs 18 32 50 142 174), (join_slices bs 10 8 18 174 182), (join_slices bs 6 4 10 182 186),
    (join_slices bs 5 1 6 186 187), (join_slices bs 4 1 5 187 188), (join_slices bs 0 4 4 188 192) by lia.
  rewrite <- Hl. symmetry. apply slice_all.
Qed.

Lemma be_val_range bs i n : 0 <= i -> 0 <= n -> i + n <= blen bs -> 0 <= be_val (slice bs i n) < 256 ^ n.
Proof. intros. pose proof (be_val_bound (slice bs i n)). by rewrite blen_slice in * by lia. Qed.

(** The frames of a store. *)
Definition ours (f : frame) : Prop :=
  mapGeneration (head_of f) = store_mapGeneration c /\ ownerFenceTokenHash (head_of f) = store_ownerFenceTokenHash c.

Lemma decode_wire seq prev d : data_ok c d -> link_ok seq prev ->
  decodeBlindWalFrameV2 (wire seq prev d) seq prev (store_durabilityContinuityHash c) (maximumWalPayloadBytes c) =
  Ok (frame_of seq prev d).
Proof.
  intros Hd Hk. pose proof (blen_wire seq prev d Hd Hk) as Hl. pose proof (blen_wire_prefix seq prev d Hd Hk) as Hp.
  pose proof (blen_nonneg (d_payload d)). unfold decodeBlindWalFrameV2. rewrite Hl. change WAL_MIN_FRAME_BYTES with 224.
  change WAL_HEADER_BYTES with 192. change WAL_CHECKSUM_BYTES with 32. rewrite (proj2 (Z.ltb_ge _ _)) by lia. cbn [throw_if bindR].
  unfold wire at 1. rewrite inspect_wire by done. cbn [bindR header_of totalLength sequence previousWalHash durabilityContinuityHash
    payloadHash payloadLength]. change WAL_MIN_FRAME_BYTES with 224. rewrite !Z.eqb_refl, !bytes_eqb_refl. cbn [negb throw_if bindR].
  assert (Hpay : slice (wire seq prev d) 192 (blen (d_payload d)) = d_payload d).
  { unfold wire, wire_prefix, prefix_parts. cbn [concat]. rewrite app_nil_r, <- !app_assoc.
    destruct Hd as [_ [Htl _] _ _], Hk as [_ Hpr], Hc as [_ [Hfl _] [Hdl _] _]. pose proof (blen_blake (d_payload d)).
    pose proof (eq_refl : blen WAL_MAGIC = 4). part. }
  rewrite Hpay, bytes_eqb_refl. cbn [negb throw_if bindR].
  replace (224 + blen (d_payload d) - 32) with (blen (wire_prefix seq prev d)) by lia. unfold wire at 1 2.
  rewrite slice_here by done. rewrite (drop_part _ (wire_prefix seq prev d) (frameChecksum (wire_prefix seq prev d))) by done.
  rewrite bytes_eqb_refl. cbn [negb throw_if bindR]. by rewrite Hp || done.
Qed.

Lemma frame_decode_inv bs seq prev f :
  decodeBlindWalFrameV2 bs seq prev (store_durabilityContinuityHash c) (maximumWalPayloadBytes c) = Ok f -> ours f ->
  exists d, data_ok c d /\ link_ok seq prev /\ bs = wire seq prev d /\ f = frame_of seq prev d.
Proof.
  unfold decodeBlindWalFrameV2. change WAL_MIN_FRAME_BYTES with 224. change WAL_HEADER_BYTES with 192. change WAL_CHECKSUM_BYTES with 32.
  intros Hq [Hog Hof]. apply bindR_ok in Hq as ([] & Hlen & Hq). apply bindR_ok in Hq as (h & Hh & Hq).
  apply throw_if_ok in Hlen. oks. b2p. cbn [head_of] in *. apply inspect_iff in Hh as (Hl & Ha & Hg).
  repeat match goal with E : bytes_eqb _ _ = true |- _ => apply bytes_eqb_eq in E end.
  pose proof (header_bytes _ _ Hl Ha) as Hb. set (b := slice bs 0 192) in *.
  assert (Hty : type h = be_val (slice b 5 1)) by (symmetry; apply (at_type _ _ Ha)).
  assert (Hvb : virtualBucket h = be_val (slice b 50 2)) by (symmetry; apply (at_bucket _ _ Ha)).
  assert (Hse : sequence h = be_val (slice b 10 8)) by (symmetry; apply (at_sequence _ _ Ha)).
  assert (Hpl : payloadLength h = be_val (slice b 92 4)) by (symmetry; apply (at_payloadLength _ _ Ha)).
  assert (Htl : blen (transactionId h) = 32) by (rewrite <- (at_transaction _ _ Ha); apply blen_slice; lia).
  assert (Hpr : blen (previousWalHash h) = 32) by (rewrite <- (at_previous _ _ Ha); apply blen_slice; lia).
  pose proof (be_val_range b 5 1 ltac:(lia) ltac:(lia) ltac:(lia)) as R1. pose proof (be_val_range b 50 2 ltac:(lia) ltac:(lia) ltac:(lia)) as R2.
  pose proof (be_val_range b 10 8 ltac:(lia) ltac:(lia) ltac:(lia)) as R3. pose proof (be_val_range b 92 4 ltac:(lia) ltac:(lia) ltac:(lia)) as R4.
  rewrite <- Hty in R1. rewrite <- Hvb in R2. rewrite <- Hse in R3. rewrite <- Hpl in R4.
  change (256 ^ 1) with 256 in R1. change (256 ^ 2) with 65536 in R2. change (256 ^ 8) with 18446744073709551616 in R3.
  destruct Hg as [Gt Gtl Gp Gs Gtx Gg Gf Gd]. change WAL_MIN_FRAME_BYTES with 224 in Gtl.
  set (p := slice bs 192 (payloadLength h)) in *. assert (Hp : blen p = payloadLength h) by (apply blen_slice; lia).
  set (d := Data (type h) (transactionId h) (virtualBucket h) p). exists d.
  assert (Hd : data_ok c d) by (split; cbn; [lia|done|lia|lia]).
  assert (Hk : link_ok (sequence h) (previousWalHash h)) by (split; [unfold MAX_U64; lia|done]).
  subst seq prev. split; [done|]. split; [done|].
  assert (Hpre : slice bs 0 (blen bs - 32) = wire_prefix (sequence h) (previousWalHash h) d).
  { rewrite <- (join_slices bs 0 192 192 (payloadLength h)) by lia. fold b. fold p. rewrite Hb at 1.
    unfold wire_prefix, prefix_parts. cbn [concat d_type d_transaction d_bucket d_payload d]. rewrite app_nil_r, <- !app_assoc.
    change WAL_MIN_FRAME_BYTES with 224. rewrite Hp, <- Gtl, <- Hog, <- Hof, <- H3, H4. done. }
  assert (Hbs : bs = wire (sequence h) (previousWalHash h) d).
  { unfold wire. rewrite <- Hpre, H5. unfold slice. cbn [Z.to_nat]. rewrite drop_0. symmetry. apply take_drop. }
  split; [done|]. unfold frame_of. rewrite <- Hbs. cbn [d_payload d]. f_equal; [|change WAL_MIN_FRAME_BYTES with 224; rewrite Hp; lia].
  unfold header_of. cbn [d_type d_transaction d_bucket d_payload d]. change WAL_MIN_FRAME_BYTES with 224.
  rewrite Hp, <- Gtl, <- Hog, <- Hof, <- H3, H4. by destruct h.
Qed.

(** C18: at a place of the log, the byte strings that decode to a frame of this
    store's generation and fence are exactly the ones the encoder makes, and the
    frame has what was encoded: the type, the transaction, the bucket and the
    payload, the place, the store's constants, and the hash and the length of
    the bytes. *)
Theorem wal_frame_exact seq prev bs f :
  decodeBlindWalFrameV2 bs seq prev (store_durabilityContinuityHash c) (maximumWalPayloadBytes c) = Ok f /\ ours f <->
  encodeWalFrame (frame_object (VNum (type (head_of f))) (VBytes (transactionId (head_of f))) (VNum (virtualBucket (head_of f)))
    (VBytes (payload f)) seq prev) (maximumWalPayloadBytes c) = Ok bs /\
  f = Frame (Header (type (head_of f)) (blen bs) (blen (payload f)) seq (transactionId (head_of f)) (virtualBucket (head_of f))
        (store_mapGeneration c) (store_ownerFenceTokenHash c) prev (store_durabilityContinuityHash c) (Hash.blake2b256 (payload f)))
      (payload f) (frameHash bs) (blen bs).
Proof.
  split.
  - intros [Hq Ho]. destruct (frame_decode_inv _ _ _ _ Hq Ho) as (d & Hd & Hk & -> & ->). cbn [head_of frame_of header_of payload type transactionId virtualBucket].
    split; [by apply encode_wire|]. rewrite (blen_wire seq prev d Hd Hk). done.
  - intros [Hq Hf]. apply encodeWalFrame_inv in Hq as (d & Hd & Hk & -> & [= Ht] & [= Htx] & [= Hvb] & [= Hpl]).
    rewrite Ht, Htx, Hvb, Hpl, (blen_wire seq prev d Hd Hk) in Hf. subst f. split; [by apply decode_wire|done].
Qed.

End Layout.
