(* ===== verification/WalLog.v ===== *)
(** * Logs: chains of frames, their prefixes and the names of segments

    A log is the concatenation of the frames of a list of entries, each frame
    naming the hash of the one before it. What a crash leaves of a log is a
    shorter log and the beginning of one more frame. *)

From Stdlib Require Import ZArith Lia Bool List String Ascii.
From Stdlib Require Import Strings.Byte.
From stdpp Require Import base tactics list strings.
From S2P Require Import Prelude Codec CodecLaws Authority Hashes WriteAheadLog WalFrames.
Import Wal.

(** ** Names of sealed segments *)

Lemma hex_value_digit n : 0 <= n < 16 -> hex_value (hex_digit n) = Some n.
Proof.
  intros Hn. assert (Hall : Forall (fun k => hex_value (hex_digit (Z.of_nat k)) = Some (Z.of_nat k)) (List.seq 0 16)) by (repeat constructor).
  rewrite List.Forall_forall in Hall. specialize (Hall (Z.to_nat n)). rewrite Z2Nat.id in Hall by lia. apply Hall, in_seq. lia.
Qed.

Lemma unhex_app acc a b : unhex_from acc (a ++ b) = match unhex_from acc a with Some n => unhex_from n b | None => None end.
Proof. revert acc; induction a as [|x a IH]; intros acc; cbn; [done|]. destruct (hex_value x); [apply IH|done]. Qed.

Lemma unhex_hex k n acc : 0 <= n < 16 ^ Z.of_nat k -> unhex_from acc (hex k n) = Some (acc * 16 ^ Z.of_nat k + n).
Proof.
  revert n acc. induction k as [|k IH]; intros n acc Hn.
  - change (16 ^ Z.of_nat 0) with 1 in *. cbn. f_equal. lia.
  - rewrite Nat2Z.inj_succ, Z.pow_succ_r in * by lia. cbn [hex]. rewrite unhex_app, IH.
    + cbn. rewrite hex_value_digit by (apply Z.mod_pos_bound; lia). f_equal. rewrite (Z.div_mod n 16) at 3 by lia. ring.
    + split; [apply Z.div_pos; lia|apply Z.div_lt_upper_bound; lia].
Qed.

Lemma blen_hex k n : blen (hex k n) = Z.of_nat k.
Proof. revert n; induction k as [|k IH]; intros n; [done|]. cbn [hex]. rewrite blen_app, IH, blen_cons, blen_nil. lia. Qed.

#[export] Hint Rewrite blen_hex : hive_len.

Definition segment_name (first last : Z) : bytes :=
  ascii_bytes "wal-" ++ hex 16 first ++ ascii_bytes "-" ++ hex 16 last ++ ascii_bytes ".v2".

Lemma name_ok first last : 0 < first <= last -> last <= MAX_U64 -> walSealedSegmentName first last = Ok (segment_name first last).
Proof.
  intros. unfold walSealedSegmentName. rewrite !asU64_of by lia. cbn [bindR].
  by rewrite (proj2 (Z.eqb_neq first 0)), (proj2 (Z.ltb_ge last first)) by lia.
Qed.

Lemma parse_name first last : 0 <= first <= MAX_U64 -> 0 <= last <= MAX_U64 ->
  parse_segment_name (segment_name first last) = Some (first, last).
Proof.
  intros Hf Hl. unfold parse_segment_name, segment_name. set (A := ascii_bytes "wal-"). set (B := ascii_bytes "-"). set (C := ascii_bytes ".v2").
  assert (HA : blen A = 4) by done. assert (HB : blen B = 1) by done. assert (HC : blen C = 3) by done.
  assert (Hlen : blen (A ++ hex 16 first ++ B ++ hex 16 last ++ C) = 40) by len. rewrite Hlen.
  assert (S1 : slice (A ++ hex 16 first ++ B ++ hex 16 last ++ C) 0 4 = A) by part.
  assert (S2 : slice (A ++ hex 16 first ++ B ++ hex 16 last ++ C) 20 1 = B) by part.
  assert (S3 : slice (A ++ hex 16 first ++ B ++ hex 16 last ++ C) 37 3 = C).
  { repeat (rewrite slice_skip by len). autorewrite with hive_len. rewrite HA, HB. by apply slice_last. }
  assert (S4 : slice (A ++ hex 16 first ++ B ++ hex 16 last ++ C) 4 16 = hex 16 first) by part.
  assert (S5 : slice (A ++ hex 16 first ++ B ++ hex 16 last ++ C) 21 16 = hex 16 last) by part.
  rewrite S1, S2, S3, S4, S5, !bytes_eqb_refl. cbn [Z.eqb Pos.eqb andb].
  unfold MAX_U64 in *. rewrite !unhex_hex by (change (16 ^ Z.of_nat 16) with 18446744073709551616; lia). do 2 f_equal; lia.
Qed.

(** ** Logs *)

Section Logs.
Context `{Platform} (c : config).
Hypothesis digest_length : forall bs, blen (generichash bs) = 32.
Context (Hc : config_ok c).

Fixpoint log (seq : Z) (prev : bytes) (ds : list entry_data) : bytes :=
  match ds with
  | [] => []
  | d :: rest => wire c seq prev d ++ log (seq + 1) (frameHash (wire c seq prev d)) rest
  end.

Fixpoint frames (seq : Z) (prev : bytes) (ds : list entry_data) : list frame :=
  match ds with
  | [] => []
  | d :: rest => frame_of c seq prev d :: frames (seq + 1) (frameHash (wire c seq prev d)) rest
  end.

(** The hash of the last frame. *)
Fixpoint end_hash (seq : Z) (prev : bytes) (ds : list entry_data) : bytes :=
  match ds with [] => prev | d :: rest => end_hash (seq + 1) (frameHash (wire c seq prev d)) rest end.

Definition end_seq (seq : Z) (ds : list entry_data) : Z := seq + Z.of_nat (List.length ds).

Record log_ok (seq : Z) (prev : bytes) (ds : list entry_data) : Prop := {
  log_data : Forall (data_ok c) ds;
  log_start : 0 < seq;
  log_end : end_seq seq ds <= MAX_U64 + 1;
  log_prev : blen prev = 32
}.

Lemma blen_frameHash bs : blen (frameHash bs) = 32.
Proof. apply digest_length. Qed.

Lemma log_ok_cons seq prev d ds : log_ok seq prev (d :: ds) <->
  data_ok c d /\ link_ok seq prev /\ log_ok (seq + 1) (frameHash (wire c seq prev d)) ds.
Proof.
  unfold end_seq. split.
  - intros [Hd Hs He Hp]. unfold end_seq in He. cbn [List.length] in He. apply Forall_cons in Hd as [Hd Hds]. split; [done|].
    split; [split; [lia|done]|]. split; [done|lia|unfold end_seq; lia|apply blen_frameHash].
  - intros (Hd & [Hs Hp] & [Hds _ He _]). unfold end_seq in He. split; [by apply Forall_cons|lia|unfold end_seq; cbn [List.length]; lia|done].
Qed.

Lemma end_hash_length seq prev ds : blen prev = 32 -> blen (end_hash seq prev ds) = 32.
Proof. revert seq prev; induction ds as [|d ds IH]; intros seq prev Hp; [done|]. apply IH, blen_frameHash. Qed.

Lemma end_seq_app seq a b : end_seq seq (a ++ b) = end_seq (end_seq seq a) b.
Proof. unfold end_seq. rewrite length_app. lia. Qed.

Lemma end_seq_cons seq d ds : end_seq seq (d :: ds) = end_seq (seq + 1) ds.
Proof. unfold end_seq. cbn [List.length]. lia. Qed.

Lemma end_hash_app seq prev a b : end_hash seq prev (a ++ b) = end_hash (end_seq seq a) (end_hash seq prev a) b.
Proof.
  revert seq prev; induction a as [|d a IH]; intros seq prev; cbn [app end_hash].
  - unfold end_seq. cbn. by rewrite Z.add_0_r.
  - by rewrite IH, end_seq_cons.
Qed.

Lemma log_app seq prev a b : log seq prev (a ++ b) = log seq prev a ++ log (end_seq seq a) (end_hash seq prev a) b.
Proof.
  revert seq prev; induction a as [|d a IH]; intros seq prev; cbn [app log end_hash].
  - unfold end_seq. cbn. by rewrite Z.add_0_r.
  - by rewrite IH, end_seq_cons, app_assoc.
Qed.

Lemma frames_app seq prev a b : frames seq prev (a ++ b) = frames seq prev a ++ frames (end_seq seq a) (end_hash seq prev a) b.
Proof.
  revert seq prev; induction a as [|d a IH]; intros seq prev; cbn [app frames end_hash].
  - unfold end_seq. cbn. by rewrite Z.add_0_r.
  - by rewrite IH, end_seq_cons.
Qed.

Lemma log_ok_app seq prev a b : log_ok seq prev (a ++ b) <-> log_ok seq prev a /\ log_ok (end_seq seq a) (end_hash seq prev a) b.
Proof.
  split.
  - intros [Hd Hs He Hp]. apply Forall_app in Hd as [Ha Hb]. rewrite end_seq_app in He.
    assert (end_seq seq a <= end_seq (end_seq seq a) b) by (unfold end_seq; lia). assert (seq <= end_seq seq a) by (unfold end_seq; lia).
    split; split; try done; try lia. by apply end_hash_length.
  - intros [[Ha Hs _ Hp] [Hb _ He _]]. split; [by apply Forall_app|done|by rewrite end_seq_app|done].
Qed.

Lemma length_frames seq prev ds : List.length (frames seq prev ds) = List.length ds.
Proof. revert seq prev; induction ds as [|d ds IH]; intros; cbn; [done|by rewrite IH]. Qed.

Lemma frames_take seq prev ds k : frames seq prev (take k ds) = take k (frames seq prev ds).
Proof. revert seq prev k; induction ds as [|d ds IH]; intros seq prev [|k]; cbn; [done..|by rewrite IH]. Qed.

(** A log shorter than one header is empty. *)
Lemma blen_log_cons seq prev d ds : log_ok seq prev (d :: ds) -> 224 <= blen (log seq prev (d :: ds)).
Proof.
  intros (Hd & Hk & _)%log_ok_cons. cbn [log]. rewrite blen_app, (blen_wire c digest_length Hc) by done.
  pose proof (blen_nonneg (d_payload d)). pose proof (blen_nonneg (log (seq + 1) (frameHash (wire c seq prev d)) ds)). lia.
Qed.

(** The beginning of a frame that would continue the log, short of all of it. *)
Definition torn (seq : Z) (prev : bytes) (tail : bytes) : Prop :=
  tail = [] \/ exists d, data_ok c d /\ link_ok seq prev /\ tail = take (List.length tail) (wire c seq prev d) /\
    (List.length tail < List.length (wire c seq prev d))%nat.

Lemma torn_nil seq prev : torn seq prev [].
Proof. by left. Qed.

Lemma torn_take seq prev tail n : torn seq prev tail -> torn seq prev (take n tail).
Proof.
  intros [->|(d & Hd & Hk & Ht & Hl)]; [rewrite take_nil; by left|]. right. exists d. split; [done|]. split; [done|].
  rewrite length_take. split; [|lia]. rewrite Ht at 1. rewrite take_take. done.
Qed.

(** Cutting a log anywhere leaves a shorter log and a torn frame. *)
Lemma cut_log seq prev ds tail n : log_ok seq prev ds -> torn (end_seq seq ds) (end_hash seq prev ds) tail ->
  exists j tail', (j <= List.length ds)%nat /\ take n (log seq prev ds ++ tail) = log seq prev (take j ds) ++ tail' /\
    torn (end_seq seq (take j ds)) (end_hash seq prev (take j ds)) tail' /\
    (forall k, (k <= List.length ds)%nat -> (List.length (log seq prev (take k ds)) <= n)%nat -> (k <= j)%nat).
Proof.
  revert seq prev n. induction ds as [|d ds IH]; intros seq prev n Hok Ht.
  - exists 0%nat, (take n tail). cbn in *. split; [done|]. split; [done|]. split; [by apply torn_take|]. lia.
  - apply log_ok_cons in Hok as (Hd & Hk & Hok). cbn [log end_hash] in *. set (w := wire c seq prev d) in *.
    rewrite end_seq_cons in Ht.
    destruct (Nat.lt_ge_cases n (List.length w)) as [Hn|Hn].
    + exists 0%nat, (take n w). cbn [take log app]. split; [lia|]. split; [rewrite <- app_assoc; apply take_app_le; lia|]. split.
      * unfold end_seq. cbn [end_hash List.length]. rewrite Z.add_0_r. destruct n as [|n]; [by left|]. right. exists d.
        split; [done|]. split; [done|]. rewrite length_take. fold w. split; [f_equal; lia|lia].
      * intros [|k] Hk' Hl; [done|]. exfalso. cbn [take log] in Hl. fold w in Hl. rewrite length_app in Hl. lia.
    + destruct (IH (seq + 1) (frameHash w) (n - List.length w)%nat Hok Ht) as (j & tail' & Hj & Htk & Htl & Hm).
      exists (S j), tail'. cbn [take log end_hash List.length]. fold w. rewrite <- !app_assoc, end_seq_cons. split; [lia|]. split; [|split; [done|]].
      * rewrite take_app_ge by lia. by rewrite Htk.
      * intros [|k] Hk' Hl; [lia|]. apply le_n_S, Hm; [cbn in Hk'; lia|]. cbn [take log] in Hl. fold w in Hl. rewrite length_app in Hl. lia.
Qed.

End Logs.
