(* ===== verification/WalScan.v ===== *)
(** * Scanning a log: what recovery sees of a directory

    Reading the files of a directory that holds a log is the same as feeding
    the callback its frames one after the other, and truncating what is torn. *)

From Stdlib Require Import ZArith Lia Bool List String Ascii.
From Stdlib Require Import Strings.Byte.
From stdpp Require Import base tactics list strings.
From S2P Require Import Prelude Codec CodecLaws Authority Hashes WriteAheadLog WalFrames WalLog.
Import Wal.

Section Scan.
Context `{Platform} (c : config) (outside : nat -> outcome).
Hypothesis digest_length : forall bs, blen (generichash bs) = 32.
Context (Hc : config_ok c).

(** The callback, on frames in order. *)
Fixpoint feed (onFrame : frame -> chain -> M store chain) (fs : list frame) (ch : chain) : M store chain :=
  match fs with [] => ret ch | f :: rest => let* ch := onFrame f ch in feed onFrame rest ch end.

Lemma feed_app onFrame a b ch s :
  feed onFrame (a ++ b) ch s = bindM (feed onFrame a ch) (fun ch => feed onFrame b ch) s.
Proof.
  revert ch s; induction a as [|f a IH]; intros ch s; cbn [app feed]; [done|]. rewrite bind_bind. unfold bindM at 1 2.
  destruct (onFrame f ch s) as [[ch'|] s']; [apply IH|done].
Qed.

(** A callback that leaves the constants and the files alone and moves the
    chain to the frame it was given. *)
Definition follows (onFrame : frame -> chain -> M store chain) : Prop := forall f ch s ch' s',
  onFrame f ch s = (Ok ch', s') -> own s' = own s /\ control s' = control s /\
    expectedSequence ch' = sequence (head_of f) + 1 /\ expectedPreviousWalHash ch' = Some (walHash f).

(** The chain is at a place: it expects this sequence and, unless it cannot
    know, this predecessor. *)
Definition at_link (ch : chain) (seq : Z) (prev : bytes) : Prop :=
  expectedSequence ch = seq /\ (expectedPreviousWalHash ch = Some prev \/ expectedPreviousWalHash ch = None).

Lemma follows_feed onFrame fs : follows onFrame -> forall ch s ch' s', feed onFrame fs ch s = (Ok ch', s') ->
  own s' = own s /\ control s' = control s.
Proof.
  intros Hf. induction fs as [|f fs IH]; intros ch s ch' s'; cbn [feed]; [by intros [= _ <-]|]. unfold bindM.
  destruct (onFrame f ch s) as [[ch1|] s1] eqn:E; [|done]. intros Hq. apply Hf in E as (Ho & Hct & _). apply IH in Hq as [-> ->]. done.
Qed.

Lemma follows_link onFrame ds seq prev : follows onFrame -> forall ch s ch' s', at_link ch seq prev ->
  feed onFrame (frames c seq prev ds) ch s = (Ok ch', s') -> at_link ch' (end_seq seq ds) (end_hash c seq prev ds).
Proof.
  intros Hf. revert seq prev. induction ds as [|d ds IH]; intros seq prev ch s ch' s' Ha; cbn [frames feed end_hash].
  - intros [= <- _]. unfold end_seq. cbn. by rewrite Z.add_0_r.
  - unfold bindM. destruct (onFrame _ ch s) as [[ch1|] s1] eqn:E; [|done]. rewrite end_seq_cons. apply IH.
    apply Hf in E as (_ & _ & H1 & H2). split; [done|by left].
Qed.

(** One pass over a whole frame. *)
Lemma scan_step onFrame fuel pre seq prev d post size sealed ch s :
  own s = c -> data_ok c d -> link_ok seq prev -> at_link ch seq prev -> size = blen (pre ++ wire c seq prev d ++ post) ->
  scanSegmentFrames outside (S fuel) (pre ++ wire c seq prev d ++ post) size sealed onFrame (blen pre) ch s =
  bindM (onFrame (frame_of c seq prev d) ch) (fun ch =>
    scanSegmentFrames outside fuel (pre ++ wire c seq prev d ++ post) size sealed onFrame (blen (pre ++ wire c seq prev d)) ch) s.
Proof.
  intros Ho Hd Hk [Hs Hp] ->. pose proof (blen_wire c digest_length Hc seq prev d Hd Hk) as Hw.
  pose proof (blen_nonneg (d_payload d)). pose proof (blen_nonneg pre). pose proof (blen_nonneg post).
  cbn [scanSegmentFrames]. rewrite !blen_app, Hw. change WAL_HEADER_BYTES with 192.
  rewrite (proj2 (Z.ltb_lt (blen pre) _)) by lia. cbn [negb]. cbv zeta. rewrite (proj2 (Z.ltb_ge _ 192)) by lia.
  set (bs := pre ++ wire c seq prev d ++ post).
  assert (Hh : readAtMost bs (blen pre) 192 = slice (wire_prefix c seq prev d ++ frameChecksum (wire_prefix c seq prev d) ++ post) 0 192).
  { unfold readAtMost, bs, wire. rewrite slice_skip by lia. rewrite Z.sub_diag. by rewrite <- app_assoc. }
  rewrite Hh. pose proof (blen_wire_prefix c digest_length Hc seq prev d Hd Hk) as Hwp.
  rewrite blen_slice by (rewrite ?blen_app, ?Hwp; pose proof (blen_nonneg (frameChecksum (wire_prefix c seq prev d))); lia).
  cbn [Z.eqb Pos.eqb negb]. rewrite bind_gets, Ho, bind_lift, (inspect_wire c digest_length Hc) by done.
  cbn [totalLength header_of previousWalHash]. change WAL_MIN_FRAME_BYTES with 224.
  rewrite (proj2 (Z.ltb_ge _ (224 + _))) by lia.
  assert (Hr : readAtMost bs (blen pre + 192) (224 + blen (d_payload d) - 192) = drop 192 (wire c seq prev d)).
  { unfold readAtMost, bs, slice. rewrite drop_app_ge by (unfold blen in *; lia).
    replace (Z.to_nat (blen pre + 192) - List.length pre)%nat with 192%nat by (unfold blen; lia).
    unfold blen in *. rewrite drop_app_le by lia. rewrite take_app_le by (rewrite length_drop; lia).
    apply take_ge. rewrite length_drop. lia. }
  rewrite Hr. assert (Hl : blen (drop 192 (wire c seq prev d)) = 224 + blen (d_payload d) - 192) by (unfold blen in *; rewrite length_drop; lia).
  rewrite Hl, Z.eqb_refl. cbn [negb].
  assert (Hall : slice (wire_prefix c seq prev d ++ frameChecksum (wire_prefix c seq prev d) ++ post) 0 192 ++ drop 192 (wire c seq prev d) = wire c seq prev d).
  { rewrite app_assoc. change (wire_prefix c seq prev d ++ frameChecksum (wire_prefix c seq prev d)) with (wire c seq prev d).
    unfold slice. rewrite drop_0, take_app_le by (unfold blen in *; lia). apply take_drop. }
  rewrite Hall, bind_lift. rewrite Hs.
  replace (match expectedPreviousWalHash ch with Some h => h | None => prev end) with prev by (by destruct Hp as [-> | ->]).
  rewrite (decode_wire c digest_length Hc) by done. rewrite bind_throw_if. cbn [head_of frame_of header_of mapGeneration ownerFenceTokenHash].
  rewrite Z.eqb_refl, bytes_eqb_refl. cbn [negb orb]. unfold bindM. destruct (onFrame _ ch s) as [[ch'|] s']; [|done].
  by rewrite <- Hw.
Qed.

Lemma scan_feed onFrame sealed ds : follows onFrame -> forall fuel pre seq prev post ch s,
  own s = c -> log_ok c seq prev ds -> at_link ch seq prev ->
  scanSegmentFrames outside (List.length ds + fuel) (pre ++ log c seq prev ds ++ post) (blen (pre ++ log c seq prev ds ++ post))
    sealed onFrame (blen pre) ch s =
  bindM (feed onFrame (frames c seq prev ds) ch) (fun ch =>
    scanSegmentFrames outside fuel (pre ++ log c seq prev ds ++ post) (blen (pre ++ log c seq prev ds ++ post)) sealed onFrame
      (blen (pre ++ log c seq prev ds)) ch) s.
Proof.
  intros Hf. induction ds as [|d ds IH]; intros fuel pre seq prev post ch s Ho Hok Ha.
  - cbn [log frames feed List.length Nat.add app]. by rewrite bind_ret, app_nil_r.
  - apply (log_ok_cons c digest_length) in Hok as (Hd & Hk & Hok). cbn [List.length Nat.add log frames feed]. rewrite <- app_assoc.
    rewrite scan_step by done. rewrite bind_bind. unfold bindM at 1 2. destruct (onFrame _ ch s) as [[ch'|] s'] eqn:E; [|done].
    apply Hf in E as (Ho' & _ & Hs' & Hp'). rewrite !(app_assoc pre). rewrite IH; [|congruence|done|split; [done|by left]].
    by rewrite <- !app_assoc.
Qed.

Lemma log_fuel seq prev ds : log_ok c seq prev ds -> (List.length ds <= List.length (log c seq prev ds))%nat.
Proof.
  revert seq prev; induction ds as [|d ds IH]; intros seq prev Hok; [done|].
  pose proof (blen_log_cons c digest_length Hc seq prev d ds Hok) as Hl.
  apply (log_ok_cons c digest_length) in Hok as (Hd & Hk & Hok). apply IH in Hok. cbn [log List.length] in *.
  pose proof (blen_wire c digest_length Hc seq prev d Hd Hk). pose proof (blen_nonneg (d_payload d)).
  rewrite length_app. unfold blen in *. lia.
Qed.

(** The end of a file. *)
Lemma scan_end onFrame fuel bs sealed ch s :
  scanSegmentFrames outside (S fuel) bs (blen bs) sealed onFrame (blen bs) ch s = (Ok (blen bs, ch), s).
Proof. cbn [scanSegmentFrames]. by rewrite Z.ltb_irrefl. Qed.

(** The beginning of one more frame. *)
Lemma scan_torn onFrame fuel pre seq prev tail ch s : own s = c -> torn c seq prev tail -> tail <> [] ->
  scanSegmentFrames outside (S fuel) (pre ++ tail) (blen (pre ++ tail)) false onFrame (blen pre) ch s =
  bindM (truncateTornTail outside (blen pre)) (fun _ => ret (blen pre, ch)) s.
Proof.
  intros Ho [->|(d & Hd & Hk & Ht & Hl)] Hne; [done|]. pose proof (blen_wire c digest_length Hc seq prev d Hd Hk) as Hw.
  pose proof (blen_nonneg pre). assert (0 < blen tail) by (destruct tail; [done|rewrite blen_cons; pose proof (blen_nonneg tail); lia]).
  assert (Hlt : blen tail < 224 + blen (d_payload d)) by (unfold blen in *; lia).
  cbn [scanSegmentFrames]. rewrite blen_app. change WAL_HEADER_BYTES with 192.
  rewrite (proj2 (Z.ltb_lt (blen pre) _)) by lia. cbn [negb]. cbv zeta.
  replace (blen pre + blen tail - blen pre) with (blen tail) by lia. destruct (blen tail <? 192) eqn:E; [done|]. b2p.
  assert (Hh : readAtMost (pre ++ tail) (blen pre) 192 = slice (wire c seq prev d) 0 192).
  { unfold readAtMost. rewrite slice_skip by lia. rewrite Z.sub_diag. unfold slice. rewrite !drop_0, Ht, take_take.
    f_equal. unfold blen in *. lia. }
  rewrite Hh, blen_slice by lia. cbn [Z.eqb Pos.eqb negb]. rewrite bind_gets, Ho, bind_lift. unfold wire. rewrite (inspect_wire c digest_length Hc) by done.
  cbn [totalLength header_of]. change WAL_MIN_FRAME_BYTES with 224. by rewrite (proj2 (Z.ltb_lt _ (224 + _))) by lia.
Qed.

(** A sealed file, whole. *)
Lemma scan_file_sealed onFrame sealed seq prev ds ch s : follows onFrame -> own s = c -> log_ok c seq prev ds -> at_link ch seq prev ->
  scan_file outside (log c seq prev ds) (blen (log c seq prev ds)) sealed onFrame ch s =
  bindM (feed onFrame (frames c seq prev ds) ch) (fun ch => ret (blen (log c seq prev ds), ch)) s.
Proof.
  intros Hf Ho Hok Ha. unfold scan_file. pose proof (log_fuel seq prev ds Hok) as Hfl.
  replace (S (Z.to_nat (blen (log c seq prev ds)))) with (List.length ds + S (List.length (log c seq prev ds) - List.length ds))%nat
    by (unfold blen; lia).
  pose proof (scan_feed onFrame sealed ds Hf (S (List.length (log c seq prev ds) - List.length ds)) [] seq prev [] ch s Ho Hok Ha) as Hs.
  cbn [app] in Hs. rewrite app_nil_r in Hs. change (blen []) with 0 in Hs. rewrite Hs. unfold bindM. destruct (feed _ _ ch s) as [[ch'|] s']; [|done]. apply scan_end.
Qed.

(** The live file, up to what is torn. *)
Lemma scan_file_live onFrame seq prev ds tail ch s : follows onFrame -> own s = c -> log_ok c seq prev ds -> at_link ch seq prev ->
  torn c (end_seq seq ds) (end_hash c seq prev ds) tail -> tail <> [] ->
  scan_file outside (log c seq prev ds ++ tail) (blen (log c seq prev ds ++ tail)) false onFrame ch s =
  bindM (feed onFrame (frames c seq prev ds) ch) (fun ch =>
    truncateTornTail outside (blen (log c seq prev ds)) ;;* ret (blen (log c seq prev ds), ch)) s.
Proof.
  intros Hf Ho Hok Ha Ht Hne. unfold scan_file. pose proof (log_fuel seq prev ds Hok) as Hfl.
  replace (S (Z.to_nat (blen (log c seq prev ds ++ tail)))) with (List.length ds + S (List.length (log c seq prev ds ++ tail) - List.length ds))%nat
    by (unfold blen; rewrite length_app; lia).
  pose proof (scan_feed onFrame false ds Hf (S (List.length (log c seq prev ds ++ tail) - List.length ds)) [] seq prev tail ch s Ho Hok Ha) as Hs.
  cbn [app] in Hs. change (blen []) with 0 in Hs. rewrite Hs. unfold bindM at 1 2. destruct (feed _ _ ch s) as [[ch'|] s'] eqn:E; [|done].
  destruct (follows_feed _ _ Hf _ _ _ _ E) as [Ho' _]. eapply scan_torn; [congruence|exact Ht|done].
Qed.

End Scan.
