(* ===== verification/WalStore.v ===== *)
(** * The store: its invariant and what every operation does to it

    [holds] relates the files and the writer of a store to a list of entries per
    sealed segment, the entries of the live segment, and what is torn at its
    end. *)

From Stdlib Require Import ZArith Lia Bool List String Ascii.
From Stdlib Require Import Strings.Byte.
From stdpp Require Import base tactics list strings.
From S2P Require Import Prelude Codec CodecLaws Authority Hashes WriteAheadLog WalFrames WalLog WalScan.
Import Wal.

Section Store.
Context `{Platform} (c : config) (outside : nat -> outcome).
Hypothesis digest_length : forall bs, blen (generichash bs) = 32.
Context (Hc : config_ok c).

Notation log := (log c).
Notation frames := (frames c).
Notation end_hash := (end_hash c).
Notation log_ok := (log_ok c).
Notation torn := (torn c).

(** ** Directories *)

Fixpoint sealed_files (seq : Z) (prev : bytes) (segs : list (list entry_data)) : list (bytes * file) :=
  match segs with
  | [] => []
  | x :: rest => (segment_name seq (end_seq seq x - 1), File (log seq prev x) (blen (log seq prev x)))
                 :: sealed_files (end_seq seq x) (end_hash seq prev x) rest
  end.

Fixpoint sealed_segments (seq : Z) (segs : list (list entry_data)) : list segment :=
  match segs with
  | [] => []
  | x :: rest => Segment (segment_name seq (end_seq seq x - 1)) seq (end_seq seq x - 1) :: sealed_segments (end_seq seq x) rest
  end.

Definition nonempty (segs : list (list entry_data)) : Prop := Forall (fun x => x <> []) segs.

Lemma end_seq_lt seq x : x <> [] -> seq < end_seq seq x.
Proof. unfold end_seq. destruct x; [done|cbn]. lia. Qed.

Lemma sealed_files_app seq prev a b : sealed_files seq prev (a ++ b) =
  sealed_files seq prev a ++ sealed_files (end_seq seq (concat a)) (end_hash seq prev (concat a)) b.
Proof.
  revert seq prev; induction a as [|x a IH]; intros seq prev; cbn [app sealed_files concat].
  - unfold end_seq. cbn. by rewrite Z.add_0_r.
  - by rewrite IH, end_seq_app, end_hash_app.
Qed.

Lemma sealed_segments_app seq a b : sealed_segments seq (a ++ b) = sealed_segments seq a ++ sealed_segments (end_seq seq (concat a)) b.
Proof.
  revert seq; induction a as [|x a IH]; intros seq; cbn [app sealed_segments concat].
  - unfold end_seq. cbn. by rewrite Z.add_0_r.
  - by rewrite IH, end_seq_app.
Qed.

(** The range of a segment name is in the name. *)
Lemma name_range seq x l : log_ok seq l x -> x <> [] ->
  parse_segment_name (segment_name seq (end_seq seq x - 1)) = Some (seq, end_seq seq x - 1).
Proof. intros [_ Hs He _] Hne. pose proof (end_seq_lt seq x Hne). apply parse_name; unfold MAX_U64 in *; lia. Qed.

Lemma parse_sealed seq prev segs : log_ok seq prev (concat segs) -> nonempty segs ->
  parse_entries (sealed_files seq prev segs) = Ok (sealed_segments seq segs).
Proof.
  revert seq prev; induction segs as [|x segs IH]; intros seq prev Hok Hne; [done|]. cbn [concat] in Hok.
  apply (log_ok_app c digest_length) in Hok as [Hx Hrest]. apply Forall_cons in Hne as [Hx' Hne].
  cbn [sealed_files sealed_segments parse_entries]. rewrite (name_range seq x prev Hx Hx'). pose proof (end_seq_lt seq x Hx').
  destruct Hx as [_ Hs _ _]. rewrite (proj2 (Z.eqb_neq seq 0)), (proj2 (Z.ltb_ge _ seq)) by lia. cbn [orb throw_if bindR]. by rewrite IH.
Qed.

Lemma sorted_insert seq x segs : nonempty segs -> firstSequence x < seq ->
  forall acc, Forall (fun y => firstSequence y < firstSequence x) acc -> insert_segment x acc = acc ++ [x].
Proof.
  intros _ _ acc Ha. induction Ha as [|y acc Hy Ha IH]; [done|]. cbn [insert_segment]. rewrite (proj2 (Z.ltb_ge _ _)) by lia.
  by rewrite IH.
Qed.

Lemma sort_sealed seq segs : nonempty segs -> forall acc, Forall (fun y => firstSequence y < seq) acc ->
  fold_left (fun acc x => insert_segment x acc) (sealed_segments seq segs) acc = acc ++ sealed_segments seq segs.
Proof.
  intros Hne. revert seq. induction Hne as [|x segs Hx Hne IH]; intros seq acc Ha; cbn [sealed_segments fold_left]; [by rewrite app_nil_r|].
  set (y := Segment _ _ _). rewrite (sorted_insert (seq + 1) y segs Hne) by (cbn; lia || done).
  pose proof (end_seq_lt seq x Hx). rewrite IH; [by rewrite <- app_assoc|]. apply Forall_app. split; [|by constructor].
  eapply Forall_impl; [exact Ha|]. cbn. lia.
Qed.

Lemma gaps_sealed seq segs : check_gaps (sealed_segments seq segs) = Ok tt.
Proof.
  revert seq; induction segs as [|x segs IH]; intros seq; [done|]. cbn [sealed_segments check_gaps]. specialize (IH (end_seq seq x)).
  destruct segs as [|y segs]; [done|]. cbn [sealed_segments] in *. cbn [firstSequence lastSequence].
  rewrite Z.sub_add, Z.eqb_refl. exact IH.
Qed.

Lemma enumerate_eq seq prev segs s : sealed (control s) = sealed_files seq prev segs -> log_ok seq prev (concat segs) -> nonempty segs ->
  enumerateWalSegments s = (Ok (sealed_segments seq segs), s).
Proof.
  intros Hs Hok Hne. unfold enumerateWalSegments. rewrite bind_gets, Hs, bind_lift, (parse_sealed seq prev) by done.
  unfold sort_segments. rewrite (sort_sealed seq) by (done || constructor). cbn [app]. by rewrite bind_lift, gaps_sealed.
Qed.

(** ** Recovery *)

(** An outside call succeeds, or throws without its effect, or throws after it. *)
Lemma io_cases e s : io outside e s = (Ok tt, e (set_ticks (S (ticks s)) s)) \/
  io outside e s = (Err GenericError, set_ticks (S (ticks s)) s) \/ io outside e s = (Err GenericError, e (set_ticks (S (ticks s)) s)).
Proof.
  unfold io, tick. autorewrite with machine. destruct (outside (ticks s)) as [n|n]; [by left|]. right.
  destruct (n =? 0); [by left|by right].
Qed.

(** The same constants, flags, queue and files. *)
Record quiet (s s' : store) : Prop := Quiet {
  quiet_own : own s' = own s; quiet_flag : flag s' = flag s; quiet_queue : walCommitQueue s' = walCommitQueue s;
  quiet_control : control s' = control s }.

#[export] Instance quiet_preorder : PreOrder quiet.
Proof.
  split; [by split|]. intros s1 s2 s3 [H1 H2 H3 H4] [H5 H6 H7 H8]. split; etransitivity; eassumption.
Qed.

(** Is a frame given to the caller? *)
Definition replayed (r : recovery) (f : frame) : bool :=
  match checkpointAnchor r with
  | None => true
  | Some a => replayCoveredFrames r || (anchorSequence a <? sequence (head_of f))
  end.

(** Is it the frame of the anchor? *)
Definition anchored (r : recovery) (f : frame) : bool :=
  match checkpointAnchor r with Some a => sequence (head_of f) =? anchorSequence a | None => false end.

Definition move (p : head) (f : frame) : head :=
  Head (walOffset p) (sequence (head_of f)) (walHash f) (liveSegmentFirstSequence p) (sealedWalSegments p).

Lemma recover_frame_spec r f ch s res s' : recover_frame outside r f ch s = (res, s') ->
  quiet s s' /\
  match res with
  | Ok ch' => position s' = move (position s) f /\ applied s' = applied s ++ List.filter (replayed r) [f] /\
      ch' = Chain (sequence (head_of f) + 1) (Some (walHash f)) (anchorVerified ch || anchored r f) /\
      (anchored r f = true -> anchorVerified ch = false -> option_map anchorHash (checkpointAnchor r) = Some (walHash f))
  | Err _ => position s' = position s
  end.
Proof.
  unfold recover_frame. rewrite bind_lift. fold (replayed r f). unfold anchored.
  set (v := match checkpointAnchor r with Some _ => _ | None => _ end).
  assert (Hv : forall b, v = Ok b -> b = anchorVerified ch || anchored r f /\
    (anchored r f = true -> anchorVerified ch = false -> option_map anchorHash (checkpointAnchor r) = Some (walHash f))).
  { unfold v, anchored. intros b. destruct (checkpointAnchor r) as [a|]; [|intros [= <-]; by rewrite orb_false_r].
    destruct (anchorVerified ch), (sequence (head_of f) =? anchorSequence a); cbn [negb andb orb]; try (intros [= <-]; done).
    intros Hq. oks. b2p. apply bytes_eqb_eq in H0. cbn. split; [done|]. by rewrite H0. }
  destruct v as [b|]; [|by intros [= <- <-]]. destruct (Hv b eq_refl) as [-> Hb]. clear Hv. unfold bindM at 1.
  assert (Ha : exists r1 s1, (if replayed r f then apply_frame outside f else ret tt) s = (r1, s1) /\ quiet s s1 /\ position s1 = position s /\
    (r1 = Ok tt -> applied s1 = applied s ++ List.filter (replayed r) [f])).
  { cbn [List.filter]. destruct (replayed r f); [|exists (Ok tt), s; by rewrite app_nil_r].
    destruct (io_cases (record_applied f) s) as [E|[E|E]]; unfold apply_frame; rewrite E; eexists _, _; (split; [reflexivity|]); done. }
  destruct Ha as ([[]|e] & s1 & -> & Hq & Hp & Happ); [|intros [= <- <-]; done]. autorewrite with machine.
  intros [= <- <-]. cbn [position on_position applied]. split; [by destruct Hq|]. rewrite Hp. split; [done|]. split; [by apply Happ|]. done.
Qed.

Lemma recover_follows r : follows (recover_frame outside r).
Proof.
  intros f ch s ch' s' (Hq & _ & _ & -> & _)%recover_frame_spec. destruct Hq. done.
Qed.

(** What feeding frames to recovery does. *)
Lemma feed_spec r fs ch s res s' : feed (recover_frame outside r) fs ch s = (res, s') ->
  quiet s s' /\
  match res with
  | Ok ch' => position s' = fold_left move fs (position s) /\ applied s' = applied s ++ List.filter (replayed r) fs /\
      anchorVerified ch' = anchorVerified ch || existsb (anchored r) fs
  | Err _ => exists fs', fs' `prefix_of` fs /\ position s' = fold_left move fs' (position s)
  end.
Proof.
  revert ch s; induction fs as [|f fs IH]; intros ch s; cbn [feed].
  - intros [= <- <-]. split; [done|]. cbn. by rewrite app_nil_r, orb_false_r.
  - unfold bindM. destruct (recover_frame outside r f ch s) as [[ch1|e] s1] eqn:E; apply recover_frame_spec in E as [Hq Hs].
    + destruct Hs as (Hp & Ha & -> & _). intros [Hq' Hs]%IH. split; [by transitivity s1|]. destruct res as [ch'|].
      * destruct Hs as (Hp' & Ha' & Hv). rewrite Hp', Hp, Ha', Ha, Hv, <- app_assoc. cbn [anchorVerified existsb].
        rewrite orb_assoc. split; [done|]. split; [|done]. f_equal. cbn [List.filter]. by destruct (replayed r f).
      * destruct Hs as (fs' & Hpre & Hp'). exists (f :: fs'). split; [by apply prefix_cons|]. by rewrite Hp', Hp.
    + intros [= <- <-]. split; [done|]. exists []. split; [apply prefix_nil|]. done.
Qed.

(** Where the writer is after a log. *)
Lemma fold_move seq prev ds p : ds <> [] \/ (walSequence p = seq - 1 /\ headHash p = prev) ->
  fold_left move (frames seq prev ds) p =
  Head (walOffset p) (end_seq seq ds - 1) (end_hash seq prev ds) (liveSegmentFirstSequence p) (sealedWalSegments p).
Proof.
  revert seq prev p; induction ds as [|d ds IH]; intros seq prev p Hp; cbn [WalLog.frames fold_left WalLog.end_hash].
  - destruct Hp as [|[Hs Hh]]; [done|]. unfold end_seq. cbn [List.length Z.of_nat]. rewrite Z.add_0_r, <- Hs, <- Hh. by destruct p.
  - rewrite IH; [by rewrite end_seq_cons|]. right. cbn. split; [lia|done].
Qed.

Lemma find_sealed pre name f post : (forall g, ~ In (name, g) pre) -> find_file name (pre ++ (name, f) :: post) = Some f.
Proof.
  induction pre as [|[k g] pre IH]; intros Hn; cbn [app find_file]; [by rewrite bytes_eqb_refl|].
  destruct (bytes_eqb k name) eqn:E; [|apply IH; intros g' Hg; by apply (Hn g'); right].
  apply bytes_eqb_eq in E as ->. destruct (Hn g). by left.
Qed.

(** Every name in a list of segments before a sequence starts before it. *)
Definition names_before (seq : Z) (l : list (bytes * file)) : Prop :=
  Forall (fun e => exists a b, parse_segment_name (fst e) = Some (a, b) /\ a < seq) l.

Lemma names_before_sealed seq prev segs : log_ok seq prev (concat segs) -> nonempty segs ->
  names_before (end_seq seq (concat segs)) (sealed_files seq prev segs).
Proof.
  revert seq prev; induction segs as [|x segs IH]; intros seq prev Hok Hne; [constructor|]. cbn [concat] in Hok.
  apply (log_ok_app c digest_length) in Hok as [Hx Hrest]. apply Forall_cons in Hne as [Hx' Hne]. cbn [sealed_files concat].
  rewrite end_seq_app. constructor; [|by apply IH]. cbn [fst]. eexists _, _. split; [by eapply name_range|].
  pose proof (end_seq_lt seq x Hx'). unfold end_seq in *. lia.
Qed.

Lemma names_fresh seq l b f : names_before seq l -> 0 <= seq <= MAX_U64 -> 0 <= b <= MAX_U64 -> ~ In (segment_name seq b, f) l.
Proof.
  intros Hn Hs Hb Hin. unfold names_before in Hn. rewrite List.Forall_forall in Hn. destruct (Hn _ Hin) as (x & y & Hp & Hlt).
  cbn [fst] in Hp. rewrite parse_name in Hp by done. injection Hp as <- <-. lia.
Qed.

Lemma recover_segments_eq r segs : forall pre seq prev ch s, own s = c ->
  sealed (control s) = pre ++ sealed_files seq prev segs -> names_before seq pre -> log_ok seq prev (concat segs) -> nonempty segs ->
  at_link ch seq prev ->
  recover_segments outside r (sealed_segments seq segs) ch s =
  feed (recover_frame outside r) (frames seq prev (concat segs)) ch s.
Proof.
  induction segs as [|x segs IH]; intros pre seq prev ch s Ho Hs Hpre Hok Hne Ha; [done|].
  cbn [concat] in Hok. pose proof Hok as Hok'. apply (log_ok_app c digest_length) in Hok as [Hx Hrest].
  apply Forall_cons in Hne as [Hx' Hne]. cbn [sealed_segments recover_segments concat]. rewrite (frames_app c), feed_app.
  pose proof (end_seq_lt seq x Hx') as Hlt. rewrite bind_throw_if. cbn [firstSequence lastSequence]. destruct Ha as [Has Hap].
  rewrite Has, Z.eqb_refl. cbn [negb]. unfold replaySealedWalSegment. rewrite bind_bind, bind_gets. cbn [name].
  destruct Hx as [Hxd Hxs Hxe Hxp]. rewrite Hs. cbn [sealed_files]. rewrite find_sealed.
  2:{ intros g. apply (names_fresh seq); [done|unfold MAX_U64 in *; lia..]. }
  rewrite bind_bind. cbn [contents]. unfold bindM at 1.
  rewrite (scan_file_sealed c outside digest_length Hc); [|apply recover_follows|done|by split|by split]. unfold bindM at 1 4.
  destruct (feed _ _ ch s) as [[ch'|] s'] eqn:E; [|done]. pose proof (follows_feed _ _ (recover_follows r) _ _ _ _ E) as [Ho' Hct].
  pose proof (follows_link c _ _ _ _ (recover_follows r) _ _ _ _ (conj Has Hap) E) as Ha'. cbn [snd]. unfold ret at 1. unfold bindM at 1. cbn [ret snd].
  rewrite bind_throw_if. destruct Ha' as [Ha1 Ha2]. rewrite Ha1, Z.sub_add, Z.eqb_refl. cbn [negb].
  apply (IH (pre ++ [(segment_name seq (end_seq seq x - 1), File (log seq prev x) (blen (log seq prev x)))])); try done.
  - congruence.
  - rewrite Hct, Hs. cbn [sealed_files]. by rewrite <- app_assoc.
  - apply Forall_app. split; [eapply Forall_impl; [exact Hpre|]; intros e (a & b & ? & ?); exists a, b; split; [done|lia]|].
    constructor; [|constructor]. cbn [fst]. eexists _, _. split; [eapply name_range; [by split|done]|done].
Qed.

(** ** The invariant *)

(** The live segment holds the entries and a torn frame, and a crash cannot take
    the first [k] entries away. *)
Definition live_rep (seq : Z) (prev : bytes) (lv : list entry_data) (tail : bytes) (k : nat) (f : file) : Prop :=
  contents f = log seq prev lv ++ tail /\ blen (log seq prev (take k lv)) <= synced f <= blen (contents f).

(** The directory holds a log that continues from [base] and [pbase]. *)
Record files (base : Z) (pbase : bytes) (s : store) (segs : list (list entry_data)) (lv : list entry_data) (tail : bytes) (k : nat) : Prop := {
  files_own : own s = c;
  files_sealed : sealed (control s) = sealed_files base pbase segs;
  files_nonempty : nonempty segs;
  files_log : log_ok base pbase (concat segs ++ lv);
  files_live : match live (control s) with
    | Some f => live_rep (end_seq base (concat segs)) (end_hash base pbase (concat segs)) lv tail k f
    | None => lv = [] /\ tail = []
    end;
  files_torn : torn (end_seq base (concat segs ++ lv)) (end_hash base pbase (concat segs ++ lv)) tail;
  files_kept : (k <= List.length lv)%nat
}.

(** The writer of an open store that is not poisoned is at the end of the log,
    and everything is synced. *)
Record ready (base : Z) (pbase : bytes) (s : store) (segs : list (list entry_data)) (lv : list entry_data) : Prop := {
  ready_live : live (control s) = Some (File (log (end_seq base (concat segs)) (end_hash base pbase (concat segs)) lv)
    (blen (log (end_seq base (concat segs)) (end_hash base pbase (concat segs)) lv)));
  ready_position : position s = Head (blen (log (end_seq base (concat segs)) (end_hash base pbase (concat segs)) lv))
    (end_seq base (concat segs ++ lv) - 1) (end_hash base pbase (concat segs ++ lv)) (end_seq base (concat segs))
    (sealed_segments base segs)
}.

(** A writer that has seen no frame has not moved. *)
Definition unmoved (base : Z) (pbase : bytes) (s : store) (all : list entry_data) : Prop :=
  all <> [] \/ (walSequence (position s) = base - 1 /\ headHash (position s) = pbase).

Definition running (s : store) : Prop := opened (flag s) = true /\ poisoned (flag s) = false.

Record holds (base : Z) (pbase : bytes) (s : store) (segs : list (list entry_data)) (lv : list entry_data) (tail : bytes) (k : nat) : Prop := {
  holds_files : files base pbase s segs lv tail k;
  holds_unmoved : unmoved base pbase s (concat segs ++ lv);
  holds_ready : running s -> ready base pbase s segs lv /\ tail = [] /\ k = List.length lv;
  holds_root : opened (flag s) = true -> rootActive (flag s) = true
}.

(** The first frame recovery finds. *)
Definition base_known (base : Z) (pbase : bytes) (all : list entry_data) : Prop := all <> [] \/ (base = 1 /\ pbase = ZERO32).

(** The recovery options fit the log: its beginning is known, and the anchor, if
    there is one, is the frame before it or one of its frames. *)
Definition fits (base : Z) (pbase : bytes) (r : recovery) : Prop :=
  exists ch, start_chain r base = Ok ch /\ at_link ch base pbase.

Lemma quiet_files base pbase s s' segs lv tail k : quiet s s' -> files base pbase s segs lv tail k -> files base pbase s' segs lv tail k.
Proof. intros [Ho _ _ Hct] [H1 H2 H3 H4 H5 H6 H7]. split; rewrite ?Ho, ?Hct; done. Qed.

(** Cutting the torn frame off. *)
Lemma truncate_live_rep seq prev lv tail k f : live_rep seq prev lv tail k f ->
  live_rep seq prev lv [] k (truncate_file (blen (log seq prev lv)) f).
Proof.
  intros [Hct [Hs1 Hs2]]. unfold live_rep, truncate_file. cbn [contents synced]. rewrite Hct, app_nil_r.
  assert (Htk : take (Z.to_nat (blen (log seq prev lv))) (log seq prev lv ++ tail) = log seq prev lv)
    by (unfold blen; rewrite Nat2Z.id; apply take_app_length).
  rewrite Htk. split; [done|]. assert (blen (log seq prev (take k lv)) <= blen (log seq prev lv)); [|lia].
  rewrite <- (take_drop k lv) at 2. rewrite log_app, blen_app. pose proof (blen_nonneg (log (end_seq seq (take k lv)) (end_hash seq prev (take k lv)) (drop k lv))). lia.
Qed.

Lemma sync_live_rep seq prev lv tail k f : live_rep seq prev lv tail k f -> live_rep seq prev lv tail k (sync_file f).
Proof. intros [Hct [Hs1 Hs2]]. split; [done|]. cbn. lia. Qed.

(** A synced live segment keeps all its entries. *)
Lemma synced_live_rep seq prev lv tail k f : live_rep seq prev lv tail k f -> live_rep seq prev lv tail (List.length lv) (sync_file f).
Proof. intros [Hct _]. split; [done|]. cbn. rewrite Hct, take_ge, blen_app by done. pose proof (blen_nonneg tail). lia. Qed.

(** What a step may do to a store that is not running: the files still hold the
    log, of the torn frame something may be gone. *)
Lemma files_on_live base pbase s s' segs lv tail tail' k k' f f' :
  files base pbase s segs lv tail k -> own s' = own s -> sealed (control s') = sealed (control s) ->
  live (control s) = Some f -> live (control s') = Some f' ->
  (live_rep (end_seq base (concat segs)) (end_hash base pbase (concat segs)) lv tail k f ->
   live_rep (end_seq base (concat segs)) (end_hash base pbase (concat segs)) lv tail' k' f') ->
  tail' = tail \/ tail' = [] -> (k' <= List.length lv)%nat -> files base pbase s' segs lv tail' k'.
Proof.
  intros [H1 H2 H3 H4 H5 H6 H7] Ho Hs Hl Hl' Hf Ht Hk. rewrite Hl in H5. split; rewrite ?Ho, ?Hs, ?Hl'; try done; [by apply Hf|].
  destruct Ht as [->| ->]; [done|apply torn_nil].
Qed.

(** ** Steps on the live segment *)

(** The same store, the live segment aside. *)
Record beside (s s' : store) : Prop := Beside {
  beside_own : own s' = own s; beside_flag : flag s' = flag s; beside_queue : walCommitQueue s' = walCommitQueue s;
  beside_position : position s' = position s; beside_sealed : sealed (control s') = sealed (control s);
  beside_applied : applied s' = applied s }.

#[export] Instance beside_preorder : PreOrder beside.
Proof.
  split; [by split|]. intros s1 s2 s3 [] []. split; etransitivity; eassumption.
Qed.

Lemma beside_ticks n s : beside s (set_ticks n s).
Proof. by split. Qed.

Lemma io_live e s res s' : io outside (on_live e) s = (res, s') -> beside s s' /\
  (live (control s') = live (control s) \/ live (control s') = option_map e (live (control s))) /\
  (res = Ok tt -> live (control s') = option_map e (live (control s))).
Proof. destruct (io_cases (on_live e) s) as [E|[E|E]]; rewrite E; intros [= <- <-]; (split; [by split|]); split; auto. done. Qed.

Lemma call_spec s res s' : call outside s = (res, s') -> beside s s' /\ live (control s') = live (control s).
Proof. unfold call. destruct (io_cases id s) as [E|[E|E]]; rewrite E; intros [= <- <-]; by split. Qed.

Lemma truncate_spec n s f res s' : live (control s) = Some f -> truncateTornTail outside n s = (res, s') ->
  beside s s' /\ exists f', live (control s') = Some f' /\
    (f' = f \/ f' = truncate_file n f \/ f' = sync_file (truncate_file n f)) /\
    (res = Ok tt -> f' = sync_file (truncate_file n f)).
Proof.
  intros Hl. unfold truncateTornTail, syncWal. unfold bindM at 1.
  destruct (io outside (on_live (truncate_file n)) s) as [[[]|e] s1] eqn:E1; apply io_live in E1 as (B1 & C1 & O1).
  2:{ intros [= <- <-]. split; [done|]. destruct C1 as [-> | ->]; rewrite Hl; eexists; (split; [reflexivity|]); (split; [auto|done]). }
  specialize (O1 eq_refl). rewrite Hl in O1. cbn in O1. unfold bindM.
  destruct (io outside (on_live sync_file) s1) as [[[]|e] s2] eqn:E2; apply io_live in E2 as (B2 & C2 & O2).
  2:{ intros [= <- <-]. split; [by transitivity s1|]. destruct C2 as [-> | ->]; rewrite O1; eexists; (split; [reflexivity|]); (split; [auto|done]). }
  specialize (O2 eq_refl). rewrite O1 in O2. cbn in O2. intros Hc3. apply call_spec in Hc3 as [B3 C3].
  split; [transitivity s1; [done|by transitivity s2]|]. rewrite C3, O2. eexists. split; [reflexivity|]. auto.
Qed.

(** The sequence recovery starts from. *)
Lemma peek_eq base pbase s lv tail f k : own s = c -> live (control s) = Some f -> live_rep base pbase lv tail k f ->
  log_ok base pbase lv -> torn (end_seq base lv) (end_hash base pbase lv) tail -> base_known base pbase lv ->
  peekLiveFirstSequence s = (Ok base, s).
Proof.
  intros Ho Hl [Hct _] Hok Ht Hb. unfold peekLiveFirstSequence. autorewrite with machine. cbn [id]. rewrite Hl, Hct. change WAL_HEADER_BYTES with 192.
  assert (Hpeek : forall d t, data_ok c d -> link_ok base pbase -> 192 <= blen t -> slice t 0 192 = slice (wire c base pbase d) 0 192 ->
    (if blen t <? 192 then ret 1 else let header := readAtMost t 0 192 in if negb (blen header =? 192) then ret 1
      else let* inspected := lift (inspectBlindWalFrameV2Header header (maximumWalPayloadBytes (own s))) in ret (sequence inspected)) s = (Ok base, s)).
  { intros d t Hd Hk Ht' Hs. rewrite (proj2 (Z.ltb_ge _ 192)) by done. cbv zeta. unfold readAtMost. rewrite blen_slice by lia. cbn [Z.eqb Pos.eqb negb].
    rewrite Hs. unfold wire. by rewrite Ho, (inspect_wire c digest_length Hc). }
  destruct lv as [|d lv].
  - cbn [WalLog.log app] in *. unfold end_seq in Ht. cbn in Ht. rewrite Z.add_0_r in Ht. destruct Hb as [|[-> ->]]; [done|].
    destruct (blen tail <? 192) eqn:E; [done|]. b2p. destruct Ht as [->|(d & Hd & Hk & Ht & Hlt)]; [done|].
    specialize (Hpeek d tail Hd Hk ltac:(lia)). rewrite (proj2 (Z.ltb_ge _ 192)) in Hpeek by lia. apply Hpeek.
    unfold slice. rewrite !drop_0, Ht, take_take. f_equal. unfold blen in *. lia.
  - apply (log_ok_cons c digest_length) in Hok as (Hd & Hk & _). cbn [WalLog.log]. rewrite <- app_assoc.
    pose proof (blen_wire c digest_length Hc base pbase d Hd Hk) as Hw. pose proof (blen_nonneg (d_payload d)).
    apply (Hpeek d); [done..| |].
    + rewrite blen_app. match goal with |- _ <= _ + blen ?x => pose proof (blen_nonneg x) end. lia.
    + unfold slice. rewrite !drop_0. apply take_app_le. unfold blen in *. lia.
Qed.

(** Recovery from a directory that holds a log. When it fails the log is still
    there; when it succeeds the writer is at its end and every frame has been
    given to the caller, or those after the anchor. *)
Lemma first_eq base pbase s segs lv tail k : files base pbase s segs lv tail k -> live (control s) <> None ->
  base_known base pbase (concat segs ++ lv) ->
  (match sealed_segments base segs with [] => peekLiveFirstSequence | x :: _ => ret (firstSequence x) end) s = (Ok base, s).
Proof.
  intros [Ho _ Hne Hok Hlv Ht _] Hlive Hb. destruct (live (control s)) as [f|] eqn:El; [|done]. destruct segs as [|x segs]; [|done].
  cbn [concat app sealed_segments] in *. unfold end_seq at 1 in Hlv. cbn [List.length Z.of_nat WalLog.end_hash] in Hlv. rewrite Z.add_0_r in Hlv.
  by eapply peek_eq.
Qed.

Lemma live_scan_spec r base pbase s segs lv tail f ch res s' : own s = c -> live (control s) = Some f ->
  contents f = log (end_seq base (concat segs)) (end_hash base pbase (concat segs)) lv ++ tail ->
  log_ok base pbase (concat segs ++ lv) -> torn (end_seq base (concat segs ++ lv)) (end_hash base pbase (concat segs ++ lv)) tail ->
  at_link ch (end_seq base (concat segs)) (end_hash base pbase (concat segs)) ->
  let L := log (end_seq base (concat segs)) (end_hash base pbase (concat segs)) lv in
  scan_file outside (contents f) (blen (contents f)) false (recover_frame outside r) ch s = (res, s') ->
  exists s1 r1, feed (recover_frame outside r) (frames (end_seq base (concat segs)) (end_hash base pbase (concat segs)) lv) ch s = (r1, s1) /\
    beside s1 s' /\ exists f', live (control s') = Some f' /\
    (f' = f \/ f' = truncate_file (blen L) f \/ f' = sync_file (truncate_file (blen L) f)) /\
    match res with
    | Ok (offset, ch') => offset = blen L /\ r1 = Ok ch' /\ (f' = f /\ tail = [] \/ f' = sync_file (truncate_file (blen L) f))
    | Err _ => True
    end.
Proof.
  cbv zeta. intros Ho Hl Hct Hok Ht Ha Hq. apply (log_ok_app c digest_length) in Hok as [_ Hok].
  set (L := log _ _ lv) in *. rewrite end_seq_app, end_hash_app in Ht. destruct (decide (tail = [])) as [->|Hne].
  - rewrite app_nil_r in Hct. rewrite Hct in Hq. unfold L in Hq. rewrite (scan_file_sealed c outside digest_length Hc) in Hq; [|apply recover_follows|done..].
    unfold bindM in Hq. destruct (feed _ _ ch s) as [[ch'|e] s1] eqn:E; injection Hq as <- <-; eexists s1, _; (split; [reflexivity|]); (split; [done|]);
      apply feed_spec in E as [[_ _ _ Hcs] _]; exists f; rewrite Hcs; (split; [done|]); (split; [auto|]); [|done]. cbn. auto.
  - rewrite Hct in Hq. unfold L in Hq. rewrite (scan_file_live c outside digest_length Hc) in Hq; [|apply recover_follows|done..].
    fold L in Hq. unfold bindM at 1 in Hq. destruct (feed _ _ ch s) as [[ch'|e] s1] eqn:E.
    + apply feed_spec in E as Hf. destruct Hf as [[_ _ _ Hcs] _]. unfold bindM in Hq.
      destruct (truncateTornTail outside (blen L) s1) as [[[]|e] s2] eqn:E2; injection Hq as <- <-; eexists s1, _; (split; [reflexivity|]);
        (apply (truncate_spec _ _ f) in E2 as (Hb & f' & Hf' & Hcases & Hok'); [|by rewrite Hcs]); (split; [done|]); exists f'; (split; [done|]); (split; [done|]); [|done].
      split; [done|]. split; [done|]. right. by apply Hok'.
    + injection Hq as <- <-. eexists s1, _. split; [reflexivity|]. split; [done|]. apply feed_spec in E as [[_ _ _ Hcs] _]. exists f. rewrite Hcs.
      split; [done|]. by split; [auto|].
Qed.

(** A step that leaves the files and the constants alone but may move the writer. *)
Record recovering (base : Z) (pbase : bytes) (segs : list (list entry_data)) (lv : list entry_data) (tail : bytes) (f : file)
    (s s' : store) : Prop := {
  rec_own : own s' = own s;
  rec_flag : flag s' = flag s;
  rec_queue : walCommitQueue s' = walCommitQueue s;
  rec_sealed : sealed (control s') = sealed (control s);
  rec_live : exists f', live (control s') = Some f' /\
    let L := blen (log (end_seq base (concat segs)) (end_hash base pbase (concat segs)) lv) in
    (f' = f \/ f' = truncate_file L f \/ f' = sync_file (truncate_file L f));
  rec_unmoved : unmoved base pbase s (concat segs ++ lv) -> unmoved base pbase s' (concat segs ++ lv)
}.

Lemma unmoved_feed base pbase s s' all fs : fs `prefix_of` frames base pbase all -> position s' = fold_left move fs (position s) ->
  unmoved base pbase s all -> unmoved base pbase s' all.
Proof.
  intros Hp Hpos. unfold unmoved. destruct all as [|d all]; [|intros _; by left]. intros [|[Hs Hh]]; [done|]. right.
  apply prefix_nil_inv in Hp as ->. by rewrite Hpos.
Qed.

Lemma unmoved_position base pbase s s' all : walSequence (position s') = walSequence (position s) ->
  headHash (position s') = headHash (position s) -> unmoved base pbase s all -> unmoved base pbase s' all.
Proof. intros Hs Hh. unfold unmoved. by rewrite Hs, Hh. Qed.

Lemma recover_spec r base pbase s segs lv tail k f res s' : files base pbase s segs lv tail k -> live (control s) = Some f ->
  base_known base pbase (concat segs ++ lv) -> fits base pbase r -> recover outside r s = (res, s') ->
  recovering base pbase segs lv tail f s s' /\
  match res with
  | Ok _ => (live (control s') = Some f /\ tail = [] \/ exists f0, live (control s') = Some (sync_file f0) /\
        f0 = truncate_file (blen (log (end_seq base (concat segs)) (end_hash base pbase (concat segs)) lv)) f) /\
      (unmoved base pbase s (concat segs ++ lv) -> position s' =
        Head (blen (log (end_seq base (concat segs)) (end_hash base pbase (concat segs)) lv))
          (end_seq base (concat segs ++ lv) - 1) (end_hash base pbase (concat segs ++ lv)) (end_seq base (concat segs)) (sealed_segments base segs)) /\
      applied s' = applied s ++ List.filter (replayed r) (frames base pbase (concat segs ++ lv))
  | Err _ => True
  end.
Proof.
  intros Hf Hl Hb (ch0 & Hch & Hat). pose proof Hf as [Ho Hs Hne Hok Hlv Ht _]. rewrite Hl in Hlv. destruct Hlv as [Hct _].
  pose proof Hok as Hok'. apply (log_ok_app c digest_length) in Hok' as [Hoks _].
  unfold recover. unfold bindM at 1. rewrite (enumerate_eq base pbase segs) by done.
  unfold bindM at 1. rewrite (first_eq base pbase s segs lv tail k) by (done || by rewrite Hl). rewrite bind_lift, Hch.
  unfold bindM at 1. rewrite (recover_segments_eq r segs [] base pbase) by (done || constructor).
  destruct (feed _ _ ch0 s) as [[ch1|e] s1] eqn:E1.
  2:{ apply feed_spec in E1 as [[Q1 Q2 Q3 Q4] (fs & Hpre & Hpos)]. intros [= <- <-]. split; [|done]. split; try done; [by rewrite Q4| |].
      - exists f. rewrite Q4. split; [done|by left].
      - intros Hu. eapply unmoved_feed; [|exact Hpos|exact Hu]. rewrite (frames_app c). by apply prefix_app_r. }
  pose proof (follows_link c _ _ _ _ (recover_follows r) _ _ _ _ Hat E1) as Hat1.
  apply feed_spec in E1 as [[Q1 Q2 Q3 Q4] (Hpos1 & Happ1 & _)]. autorewrite with machine. cbn [control on_position]. rewrite Q4, Hl.
  set (s2 := on_position _ s1). unfold bindM at 1.
  destruct (scan_file _ _ _ _ _ ch1 s2) as [rs s3] eqn:E3. eapply (live_scan_spec r base pbase s2 segs lv tail f) in E3 as (s4 & r4 & Ef & Hbs & f' & Hl' & Hcases & Hres);
    [|by rewrite <- Ho, <- Q1|by rewrite <- Hl, <- Q4|done..].
  apply feed_spec in Ef as [[P1 P2 P3 P4] Hfeed]. destruct Hbs as [B1 B2 B3 B4 B5 B6].
  assert (Hrec : forall p, walSequence p = walSequence (position s3) -> headHash p = headHash (position s3) ->
    recovering base pbase segs lv tail f s (Store (own s3) p (flag s3) (walCommitQueue s3) (control s3) (ticks s3) (applied s3))).
  { intros p Hps Hph. split; cbn [own flag walCommitQueue control].
    - rewrite B1, P1. exact Q1.
    - rewrite B2, P2. exact Q2.
    - rewrite B3, P3. exact Q3.
    - rewrite B5, P4. cbn [s2 control on_position]. by rewrite Q4.
    - exists f'. done.
    - unfold unmoved. cbn [position]. rewrite Hps, Hph, B4.
      assert (Hfs : exists fs', fs' `prefix_of` frames (end_seq base (concat segs)) (end_hash base pbase (concat segs)) lv /\ position s4 = fold_left move fs' (position s2)).
      { destruct r4 as [ch4|e4]; [|exact Hfeed]. eexists. split; [reflexivity|]. by destruct Hfeed. }
      destruct Hfs as (fs' & Hpre & Hpos4). destruct (concat segs ++ lv) as [|d all] eqn:Eall; [|intros _; by left].
      apply app_eq_nil in Eall as [Es El]. rewrite El in Hpre. apply prefix_nil_inv in Hpre as ->. intros [|[? ?]]; [done|]. right.
      rewrite Hpos4. cbn [fold_left s2 position on_position walSequence headHash]. rewrite Hpos1, Es. done. }
  destruct rs as [[offset ch4]|e]; [|intros [= <- <-]; split; [|done]; specialize (Hrec (position s3) eq_refl eq_refl); by destruct s3].
  destruct Hres as (-> & -> & Hlive). destruct Hfeed as (Hpos4 & Happ4 & _). autorewrite with machine. cbv zeta.
  destruct (match checkpointAnchor r with Some _ => _ | None => _ end); intros [= <- <-].
  { split; [|done]. specialize (Hrec (position (on_position (fun x => Head (blen (log (end_seq base (concat segs)) (end_hash base pbase (concat segs)) lv))
      (walSequence x) (headHash x) (liveSegmentFirstSequence x) (sealedWalSegments x)) s3)) eq_refl eq_refl). exact Hrec. }
  split; [apply Hrec; done|]. cbn [on_position control position applied]. split; [|split].
  - destruct Hlive as [[-> ->]| ->]; [by left|]. right. by eexists.
  - intros Hu. rewrite B4, Hpos4.
    assert (Hs2 : lv <> [] \/ (walSequence (position s2) = end_seq base (concat segs) - 1 /\ headHash (position s2) = end_hash base pbase (concat segs))).
    { cbn [s2 on_position position walSequence headHash]. rewrite Hpos1. destruct (concat segs) as [|d ds] eqn:Es.
      - unfold end_seq. cbn. rewrite Z.add_0_r. destruct Hu as [Hu|Hu]; [by left|by right].
      - right. by rewrite fold_move by (by left). }
    rewrite fold_move by done. cbn [walSequence headHash liveSegmentFirstSequence sealedWalSegments]. rewrite end_seq_app, end_hash_app.
    f_equal. apply Hat1.
  - rewrite B6, Happ4. cbn [s2 on_position applied]. rewrite Happ1, <- app_assoc, <- List.filter_app. by rewrite (frames_app c).
Qed.

(** ** Opening *)

(** The live segment, created if it is missing. *)
Definition live_or_new (s : store) : file := match live (control s) with Some f => f | None => File [] 0 end.

Lemma files_live_rep base pbase s segs lv tail k : files base pbase s segs lv tail k ->
  live_rep (end_seq base (concat segs)) (end_hash base pbase (concat segs)) lv tail k (live_or_new s).
Proof.
  intros [_ _ _ _ Hl _ _]. unfold live_or_new. destruct (live (control s)); [done|]. destruct Hl as [-> ->]. split; [done|].
  rewrite take_nil. by split.
Qed.

(** On the way to recovery: the live segment may have been created and synced. *)
Record prepared (s s' : store) : Prop := {
  prep_own : own s' = own s;
  prep_queue : walCommitQueue s' = walCommitQueue s;
  prep_position : position s' = position s;
  prep_sealed : sealed (control s') = sealed (control s);
  prep_applied : applied s' = applied s;
  prep_flag : opened (flag s') = opened (flag s) /\ closing (flag s') = closing (flag s) /\ destroyed (flag s') = destroyed (flag s) /\
    poisoned (flag s') = poisoned (flag s) /\ rootActive (flag s') = rootActive (flag s);
  prep_live : live (control s') = live (control s) \/ live (control s') = Some (live_or_new s) \/
    live (control s') = Some (sync_file (live_or_new s))
}.

Lemma prepared_beside s s1 s2 : prepared s s1 -> beside s1 s2 -> live (control s2) = live (control s1) -> prepared s s2.
Proof. intros [] [] Hl. split; congruence. Qed.

Lemma prepared_files base pbase s s' segs lv tail k : files base pbase s segs lv tail k -> prepared s s' ->
  files base pbase s' segs lv tail k.
Proof.
  intros Hf [Ho _ _ Hs _ _ Hl]. pose proof (files_live_rep _ _ _ _ _ _ _ Hf) as Hr. destruct Hf as [H1 H2 H3 H4 H5 H6 H7].
  split; rewrite ?Ho, ?Hs; try done. destruct Hl as [-> |[-> | ->]]; [done..|]. by apply sync_live_rep.
Qed.

(** The calls before recovery. *)
Definition prepare : M store unit :=
  io outside (on_control create_live) ;;* modify (set_handle true) ;;*
  call outside ;;* syncWal outside ;;* call outside ;;* call outside ;;* call outside.

Lemma prepare_spec s res s' : prepare s = (res, s') -> prepared s s' /\
  (res = Ok tt -> live (control s') = Some (sync_file (live_or_new s)) /\ handle (flag s') = true).
Proof.
  assert (Hcr : live (control (on_control create_live (set_ticks (S (ticks s)) s))) = Some (live_or_new s) /\
    sealed (control (on_control create_live (set_ticks (S (ticks s)) s))) = sealed (control s)).
  { unfold live_or_new. cbn. unfold create_live. destruct (live (control s)) eqn:E; [by rewrite E|done]. }
  unfold prepare. unfold bindM at 1. destruct (io_cases (on_control create_live) s) as [E|[E|E]]; rewrite E.
  2:{ intros [= <- <-]. split; [|done]. split; try done. by left. }
  2:{ intros [= <- <-]. split; [|done]. split; try done; [apply Hcr|right; left; apply Hcr]. }
  rewrite bind_modify. set (s1 := set_handle true _). assert (P1 : prepared s s1) by (split; try done; [apply Hcr|right; left; apply Hcr]).
  assert (L1 : live (control s1) = Some (live_or_new s)) by apply Hcr. assert (H1 : handle (flag s1) = true) by done. clearbody s1.
  unfold bindM at 1. destruct (call outside s1) as [[[]|e] s2] eqn:E2; apply call_spec in E2 as [B2 C2].
  2:{ intros [= <- <-]. split; [|done]. by eapply prepared_beside. }
  assert (P2 : prepared s s2) by (by eapply prepared_beside). rewrite L1 in C2.
  unfold bindM at 1, syncWal. destruct (io outside (on_live sync_file) s2) as [[[]|e] s3] eqn:E3; apply io_live in E3 as (B3 & C3 & O3).
  2:{ intros [= <- <-]. split; [|done]. destruct P2, B3. split; try congruence. rewrite C2 in C3. destruct C3 as [-> | ->]; auto. }
  specialize (O3 eq_refl). rewrite C2 in O3. cbn in O3.
  assert (P3 : prepared s s3) by (destruct P2, B3; split; try congruence; auto).
  unfold bindM at 1. destruct (call outside s3) as [[[]|e] s4] eqn:E4; apply call_spec in E4 as [B4 C4].
  2:{ intros [= <- <-]. split; [|done]. by eapply prepared_beside. }
  assert (P4 : prepared s s4) by (by eapply prepared_beside).
  unfold bindM at 1. destruct (call outside s4) as [[[]|e] s5] eqn:E5; apply call_spec in E5 as [B5 C5].
  2:{ intros [= <- <-]. split; [|done]. by eapply prepared_beside. }
  assert (P5 : prepared s s5) by (by eapply prepared_beside).
  intros E6. apply call_spec in E6 as [B6 C6]. split; [by eapply prepared_beside|]. intros _. split; [congruence|].
  destruct B2 as [_ F2 _ _ _ _], B3 as [_ F3 _ _ _ _], B4 as [_ F4 _ _ _ _], B5 as [_ F5 _ _ _ _], B6 as [_ F6 _ _ _ _]. congruence.
Qed.

Lemma open_wal_eq r s : open_wal outside r s = bindM prepare (fun _ => recover outside r ;;* call outside ;;*
  let* closing := gets (fun s => closing (flag s)) in throwM_if closing GenericError ;;* modify (set_opened true)) s.
Proof.
  unfold open_wal, prepare, bindM, modify. destruct (io outside _ s) as [[[]|] s1]; [|done].
  destruct (call outside _) as [[[]|] s2]; [|done]. destruct (syncWal outside s2) as [[[]|] s3]; [|done].
  destruct (call outside s3) as [[[]|] s4]; [|done]. destruct (call outside s4) as [[[]|] s5]; [|done].
  by destruct (call outside s5) as [[[]|] s6].
Qed.

Lemma recovering_files base pbase s s' segs lv tail k f : files base pbase s segs lv tail k -> live (control s) = Some f ->
  recovering base pbase segs lv tail f s s' -> exists tail', files base pbase s' segs lv tail' k.
Proof.
  intros Hf Hl [Ho _ _ Hs (f' & Hl' & Hcases) _].
  assert (Hk : (k <= List.length lv)%nat) by apply Hf. destruct Hcases as [->|[->| ->]].
  - exists tail. eapply files_on_live; eauto.
  - exists []. eapply files_on_live; [exact Hf|done|done|exact Hl|exact Hl'| |by right|done]. apply truncate_live_rep.
  - exists []. eapply files_on_live; [exact Hf|done|done|exact Hl|exact Hl'| |by right|done]. intros Hlr. apply sync_live_rep. by eapply truncate_live_rep.
Qed.

(** All that a synced live segment holds is safe. *)
Lemma files_synced base pbase s segs lv tail k f : files base pbase s segs lv tail k -> live (control s) = Some f ->
  synced f = blen (contents f) -> files base pbase s segs lv tail (List.length lv).
Proof.
  intros [H1 H2 H3 H4 H5 H6 H7] Hl Hs. rewrite Hl in H5. destruct H5 as [Hct _]. split; rewrite ?Hl; try done.
  split; [done|]. rewrite Hs, Hct, take_ge, blen_app by done. pose proof (blen_nonneg tail). lia.
Qed.

Lemma unmoved_prepared base pbase s s' all : prepared s s' -> unmoved base pbase s all -> unmoved base pbase s' all.
Proof. intros [_ _ Hp _ _ _ _]. unfold unmoved. by rewrite Hp. Qed.

(** Opening a store that is not running. *)
Lemma open_wal_spec r base pbase s segs lv tail k res s' : files base pbase s segs lv tail k ->
  unmoved base pbase s (concat segs ++ lv) -> base_known base pbase (concat segs ++ lv) -> fits base pbase r ->
  open_wal outside r s = (res, s') ->
  (exists tail' k', (k <= k')%nat /\ files base pbase s' segs lv tail' k') /\ unmoved base pbase s' (concat segs ++ lv) /\
  walCommitQueue s' = walCommitQueue s /\ rootActive (flag s') = rootActive (flag s) /\
  (res = Ok tt -> files base pbase s' segs lv [] (List.length lv) /\ ready base pbase s' segs lv /\
    opened (flag s') = true /\ handle (flag s') = true /\ poisoned (flag s') = poisoned (flag s) /\ destroyed (flag s') = destroyed (flag s) /\
    closing (flag s') = false /\
    applied s' = applied s ++ List.filter (replayed r) (frames base pbase (concat segs ++ lv))).
Proof.
  intros Hf Hu Hb Hfit. rewrite open_wal_eq. unfold bindM at 1. destruct (prepare s) as [[[]|e] s1] eqn:E1; apply prepare_spec in E1 as [P1 O1].
  2:{ intros [= <- <-]. split; [exists tail, k; split; [done|by eapply prepared_files]|]. split; [by eapply unmoved_prepared|]. destruct P1. destruct prep_flag0 as (? & ? & ? & ? & ?). done. }
  destruct (O1 eq_refl) as [L1 H1]. pose proof (prepared_files _ _ _ _ _ _ _ _ Hf P1) as F1. pose proof (unmoved_prepared _ _ _ _ _ P1 Hu) as U1.
  pose proof (files_synced _ _ _ _ _ _ _ _ F1 L1 eq_refl) as F1'. assert (Hkl : (k <= List.length lv)%nat) by apply Hf.
  set (f1 := sync_file (live_or_new s)) in *. destruct P1 as [_ Q1 Pos1 _ App1 (Fo & Fc & Fd & Fp & Fr) _].
  unfold bindM at 1. destruct (recover outside r s1) as [[[]|e] s2] eqn:E2; eapply recover_spec in E2 as [R2 O2]; try done.
  2:{ intros [= <- <-]. destruct (recovering_files _ _ _ _ _ _ _ _ _ F1' L1 R2) as [tail' F2]. destruct R2 as [_ R2f R2q _ _ R2u].
      split; [exists tail', (List.length lv); done|]. split; [by apply R2u|]. split; [congruence|]. split; [|done]. by rewrite R2f. }
  destruct O2 as (Lv & Pos2 & App2).
  destruct (recovering_files _ _ _ _ _ _ _ _ _ F1' L1 R2) as [tail2 F2]. destruct R2 as [_ R2f R2q _ _ R2u].
  assert (Hclean : live (control s2) = Some (File (log (end_seq base (concat segs)) (end_hash base pbase (concat segs)) lv)
    (blen (log (end_seq base (concat segs)) (end_hash base pbase (concat segs)) lv)))).
  { destruct F1' as [_ _ _ _ Lr _ _]. rewrite L1 in Lr. destruct Lv as [[Lv ->]|(f0 & Lv & ->)]; rewrite Lv; f_equal.
    - destruct Lr as [Hct _]. rewrite app_nil_r in Hct. unfold f1, sync_file in *. cbn in *. by rewrite Hct.
    - apply truncate_live_rep in Lr as [Hct _]. rewrite app_nil_r in Hct. unfold sync_file. by rewrite Hct. }
  assert (Ht2 : tail2 = []).
  { destruct F2 as [_ _ _ _ Lr _ _]. rewrite Hclean in Lr. destruct Lr as [Hct _]. cbn in Hct. symmetry in Hct.
    rewrite <- (app_nil_r (log _ _ lv)) in Hct at 2. by apply app_inv_head in Hct. }
  subst tail2. unfold bindM at 1. destruct (call outside s2) as [[[]|e] s3] eqn:E3; apply call_spec in E3 as [B3 L3].
  2:{ intros [= <- <-]. assert (F3 : files base pbase s3 segs lv [] (List.length lv)) by (destruct F2, B3; split; rewrite ?L3; congruence).
      split; [exists [], (List.length lv); done|]. destruct B3 as [_ B3f B3q B3p _ _]. split; [unfold unmoved; rewrite B3p; by apply R2u|]. split; [congruence|].
      split; [|done]. by rewrite B3f, R2f. }
  assert (F3 : files base pbase s3 segs lv [] (List.length lv)) by (destruct F2, B3; split; rewrite ?L3; congruence).
  destruct B3 as [_ B3f B3q B3p _ B3a]. rewrite bind_gets, bind_throw_if.
  assert (U3 : unmoved base pbase s3 (concat segs ++ lv)) by (unfold unmoved; rewrite B3p; by apply R2u).
  destruct (closing (flag s3)) eqn:Ec; intros [= <- <-].
  { split; [exists [], (List.length lv); done|]. split; [done|]. split; [congruence|]. split; [|done]. by rewrite B3f, R2f. }
  assert (F4 : files base pbase (set_opened true s3) segs lv [] (List.length lv)) by (destruct F3; by split).
  split; [exists [], (List.length lv); done|]. split; [done|]. split; [cbn; congruence|]. split; [cbn; by rewrite B3f, R2f|]. intros _.
  split; [done|]. cbn [set_opened on_flag flag opened handle poisoned destroyed closing]. rewrite B3f, R2f. rewrite B3f, R2f, Fc in Ec. split; [|split; [done|]].
  - split; cbn [set_opened on_flag control position]; [by rewrite L3|]. rewrite B3p. by apply Pos2.
  - rewrite Fp, Fd, Fc. split; [done|]. split; [done|]. split; [done|]. split; [done|]. cbn. rewrite B3a, App2, App1. done.
Qed.

Lemma open_holds options base pbase s segs lv tail k res s' : holds base pbase s segs lv tail k ->
  base_known base pbase (concat segs ++ lv) -> (forall r, normalizeOpenRecoveryOptions options = Ok r -> fits base pbase r) ->
  open outside options s = (res, s') -> exists tail' k', (k <= k')%nat /\ holds base pbase s' segs lv tail' k'.
Proof.
  intros Hh Hb Hfit. assert (Hstay : exists tail' k', (k <= k')%nat /\ holds base pbase s segs lv tail' k') by (exists tail, k; done).
  unfold open. autorewrite with machine. cbn [id]. destruct (destroyed (flag s)); [by intros [= _ <-]|]. autorewrite with machine.
  destruct (handle (flag s)); [by intros [= _ <-]|]. autorewrite with machine. destruct (closing (flag s)); [by intros [= _ <-]|].
  autorewrite with machine. destruct (normalizeOpenRecoveryOptions options) as [r|] eqn:Er; [|by intros [= _ <-]]. autorewrite with machine.
  destruct (rootActive (flag s)) eqn:Era; [by intros [= _ <-]|]. autorewrite with machine.
  destruct Hh as [Hf Hu _ Hroot]. set (s1 := set_rootActive true s).
  assert (F1 : files base pbase s1 segs lv tail k) by (destruct Hf; by split). unfold on_throw.
  destruct (open_wal outside r s1) as [[[]|e] s2] eqn:E; apply (open_wal_spec _ base pbase s1 segs lv tail k) in E as ((tail' & k' & Hk & F2) & U2 & _ & R2 & O2); auto; intros [= _ <-].
  - destruct (O2 eq_refl) as (F3 & Hr & _). exists [], (List.length lv). split; [apply Hf|]. split; [done|done|done|]. intros _. by rewrite R2.
  - exists tail', k'. split; [done|]. split; [destruct F2; by split|done|by intros [? _]|done].
Qed.

(** Without options a store whose log begins at genesis opens. *)
Lemma fits_genesis r : match checkpointAnchor r with Some a => 1 <= anchorSequence a | None => True end -> fits 1 ZERO32 r.
Proof.
  intros Ha. unfold fits, start_chain. destruct (checkpointAnchor r) as [a|].
  - rewrite (proj2 (Z.ltb_ge _ 1)) by lia. rewrite (proj2 (Z.eqb_neq 1 (anchorSequence a + 1))) by lia. cbn. eexists. split; [reflexivity|]. split; [done|by left].
  - cbn. eexists. split; [reflexivity|]. split; [done|by left].
Qed.

Lemma normalize_anchor options r : normalizeOpenRecoveryOptions options = Ok r ->
  match checkpointAnchor r with Some a => 1 <= anchorSequence a /\ blen (anchorHash a) = 32 | None => True end.
Proof.
  unfold normalizeOpenRecoveryOptions. destruct options; try done. intros Hq. oks. destruct x1 as [a|]; cbn [checkpointAnchor]; [|done].
  destruct (nullish (VObj fields).["checkpointAnchor"]); [discriminate|]. apply bindR_ok in H2 as (b & Hb & [= ->]).
  unfold normalizeWalAnchorValue in Hb. apply bindR_ok in Hb as (_ & _ & Hb). apply bindR_ok in Hb as (n & Hn & Hb).
  apply bindR_ok in Hb as (u & Hz & Hb). apply bindR_ok in Hb as (h & Hh & [= <-]). apply asU64_inv in Hn. apply throw_if_ok in Hz. b2p.
  apply bytes_of_inv in Hh as (_ & Hl & _). cbn. split; [lia|by apply Hl].
Qed.

End Store.
