(* ===== verification/WalCommit.v ===== *)
(** * Group commit: what it writes, and what it acknowledges *)

From Stdlib Require Import ZArith Lia Bool List String Ascii.
From Stdlib Require Import Strings.Byte.
From stdpp Require Import base tactics list strings.
From S2P Require Import Prelude Codec CodecLaws Authority Hashes WriteAheadLog WalFrames WalLog WalScan WalStore.
Import Wal.

Section Commit.
Context `{Platform} (c : config) (outside : nat -> outcome).
Hypothesis digest_length : forall bs, blen (generichash bs) = 32.
Context (Hc : config_ok c).

Notation log := (log c).
Notation frames := (frames c).
Notation end_hash := (end_hash c).
Notation log_ok := (log_ok c).
Notation torn := (torn c).

(** ** Writing *)

Lemma pwrite_end bs data : pwrite bs (blen bs) data = bs ++ data.
Proof.
  unfold pwrite. rewrite Z.sub_diag. cbn [Z.to_nat replicate]. rewrite app_nil_r. unfold blen at 1. rewrite Nat2Z.id, take_ge by lia.
  rewrite drop_ge by (unfold blen; lia). by rewrite app_nil_r.
Qed.

Lemma write_end f bs data : contents f = bs -> synced f <= blen bs -> write_file (blen bs) data f = File (bs ++ data) (synced f).
Proof. intros <- Hs. unfold write_file. rewrite pwrite_end, Z.min_l by done. done. Qed.

Lemma writeAll_loop_spec fuel bs buffer : forall written s f res s', live (control s) = Some f ->
  contents f = bs ++ take (Z.to_nat written) buffer -> synced f <= blen bs -> 0 <= written <= blen buffer ->
  writeAll_loop outside fuel buffer (blen bs) written s = (res, s') ->
  beside s s' /\ exists j, written <= j <= blen buffer /\
    live (control s') = Some (File (bs ++ take (Z.to_nat j) buffer) (synced f)) /\
    (res = Ok tt -> j = blen buffer) /\ (blen buffer - written < Z.of_nat fuel -> res <> Err OUT_OF_FUEL).
Proof.
  induction fuel as [|fuel IH]; intros written s f res s' Hl Hct Hsy Hw; cbn [writeAll_loop].
  - intros [= <- <-]. split; [done|]. exists written. rewrite Hl, <- Hct. split; [lia|]. split; [by destruct f|]. split; [done|lia].
  - destruct (written <? blen buffer) eqn:E; b2p.
    2:{ intros [= <- <-]. split; [done|]. exists written. rewrite Hl, <- Hct. split; [lia|]. split; [by destruct f|]. split; [lia|done]. }
    unfold tick. autorewrite with machine. cbv zeta.
    set (o := outside (ticks s)). set (n := match o with Done n | Fails n => Z.max 0 (Z.min n (blen buffer - written)) end).
    assert (Hn : 0 <= n <= blen buffer - written) by (unfold n; destruct o; lia).
    set (s1 := on_live _ (set_ticks _ s)).
    assert (Hb : beside s s1) by (by split).
    assert (L1 : live (control s1) = Some (File (bs ++ take (Z.to_nat (written + n)) buffer) (synced f))).
    { unfold s1, on_live. cbn [on_control control live set_ticks]. rewrite Hl. cbn [option_map]. f_equal.
      assert (Hlen : blen bs + written = blen (bs ++ take (Z.to_nat written) buffer)) by (rewrite blen_app; unfold blen in *; rewrite length_take; lia).
      rewrite Hlen, (write_end f _ _ Hct) by (pose proof (blen_nonneg (take (Z.to_nat written) buffer)); rewrite blen_app; lia).
      rewrite <- app_assoc. do 2 f_equal. unfold slice. rewrite Z2Nat.inj_add by lia. apply take_take_drop. }
    destruct o as [m|m] eqn:Eo.
    + rewrite bind_throw_if. destruct (n =? 0) eqn:En; b2p.
      * intros [= <- <-]. split; [done|]. exists (written + n). split; [lia|]. split; [done|]. split; [done|done].
      * intros Hq. eapply IH in Hq as (B2 & j & Hj & L2 & O2 & F2); [|exact L1|done|done|lia]. cbn [synced] in *.
        split; [by etransitivity|]. exists j. split; [lia|]. split; [done|]. split; [done|]. intros Hf. apply F2. lia.
    + intros [= <- <-]. split; [done|]. exists (written + n). split; [lia|]. split; [done|]. split; [done|done].
Qed.

Lemma writeAll_spec bs buffer s f res s' : live (control s) = Some f -> contents f = bs -> synced f <= blen bs ->
  writeAll outside buffer (blen bs) s = (res, s') ->
  beside s s' /\ res <> Err OUT_OF_FUEL /\ exists j, (j <= List.length buffer)%nat /\
    live (control s') = Some (File (bs ++ take j buffer) (synced f)) /\ (res = Ok tt -> j = List.length buffer).
Proof.
  intros Hl Hct Hs Hq. eapply (writeAll_loop_spec _ bs buffer 0) in Hq as (Hb & j & Hj & Hl' & Hok & Hf); [|done|by rewrite app_nil_r|done|pose proof (blen_nonneg buffer); lia].
  split; [done|]. split; [apply Hf; unfold blen; lia|]. exists (Z.to_nat j). unfold blen in *. split; [lia|]. split; [done|]. intros ->%Hok. lia.
Qed.

(** The entries of a group carry the frames of some data, in order. *)
Fixpoint entries_for (seq : Z) (prev : bytes) (offset : Z) (ds : list entry_data) (es : list entry) : Prop :=
  match ds, es with
  | [], [] => True
  | d :: ds, e :: es => completeFrame e = wire c seq prev d /\ entry_sequence e = seq /\ entry_offset e = offset /\
      entries_for (seq + 1) (frameHash (wire c seq prev d)) (offset + blen (wire c seq prev d)) ds es
  | _, _ => False
  end.

(** A member and the data of its frame. *)
Definition asked (m : member) (d : entry_data) : Prop :=
  getx (value m) "type" = Ok (VNum (d_type d)) /\ (value m).["transactionId"] = VBytes (d_transaction d) /\
  (value m).["virtualBucket"] = VNum (d_bucket d) /\ (value m).["payload"] = VBytes (d_payload d).

(** The entry of a member of a group whose first index is [i]. *)
Definition entry_of (group : list member) (i : nat) (d : entry_data) (e : entry) : Prop :=
  exists n m, index e = (i + n)%nat /\ group !! n = Some m /\ asked m d.

Lemma entry_of_cons m group i ds es : Forall2 (entry_of group (S i)) ds es -> Forall2 (entry_of (m :: group) i) ds es.
Proof. intros Hf. eapply Forall2_impl; [exact Hf|]. intros d e (n & x & Hn & Hx & Ha). exists (S n), x. split; [lia|done]. Qed.

Lemma encode_group_spec group : forall i seq prev offset es rejected, 0 <= seq <= MAX_U64 -> blen prev = 32 ->
  encode_group c group i seq prev offset = (es, rejected) ->
  exists ds, log_ok (seq + 1) prev ds /\ entries_for (seq + 1) prev offset ds es /\ omap (fun x => match snd x with Ok f => Some f | Err _ => None end) rejected = [] /\
    Forall2 (entry_of group i) ds es /\ map index es ++ map fst rejected ≡ₚ List.seq i (List.length group).
Proof.
  induction group as [|m group IH]; intros i seq prev offset es rejected Hs Hp; cbn [encode_group].
  - intros [= <- <-]. exists []. split; [|split_and!; done || constructor]. split; [constructor|lia|unfold end_seq; cbn; lia|done].
  - destruct (encode_member c m (seq + 1) prev) as [bs|e] eqn:E.
    + unfold encode_member in E. apply bindR_ok in E as ([] & _ & E). apply bindR_ok in E as (ty & Hty & E).
      apply (encodeWalFrame_inv c digest_length Hc) in E as (d & Hd & Hk & -> & -> & Htx & Hvb & Hpl).
      destruct (encode_group c group (S i) _ _ _) as [es' rejected'] eqn:Eg.
      apply IH in Eg as (ds & Hok & He & Hr & Hm & Hix); [|destruct Hk; lia|apply digest_length]. intros [= <- <-]. exists (d :: ds).
      split; [by apply (log_ok_cons c digest_length)|]. split; [done|]. split; [done|]. split; [|cbn; by rewrite Hix].
      constructor; [exists 0%nat, m; split; [cbn; lia|done]|by apply entry_of_cons].
    + destruct (encode_group c group (S i) seq prev offset) as [es' rejected'] eqn:Eg. apply IH in Eg as (ds & Hok & He & Hr & Hm & Hix); [|done..].
      intros [= <- <-]. exists ds. split_and!; try done; [by apply entry_of_cons|]. cbn. by rewrite <- Permutation_middle, Hix.
Qed.

Lemma rebase_spec ds : forall seq prev offset es offset', entries_for seq prev offset ds es -> entries_for seq prev offset' ds (rebase es offset').
Proof.
  induction ds as [|d ds IH]; intros seq prev offset [|e es] offset'; cbn [entries_for rebase completeFrame entry_sequence entry_offset]; try done.
  intros (Hf & Hs & _ & He). rewrite Hf. repeat split; try done. by eapply IH.
Qed.

Lemma entries_end ds : forall seq prev offset es, entries_for seq prev offset ds es ->
  fold_left (fun n e => n + blen (completeFrame e)) es offset = offset + blen (log seq prev ds).
Proof.
  induction ds as [|d ds IH]; intros seq prev offset [|e es]; cbn [entries_for fold_left WalLog.log]; try done.
  - intros _. rewrite blen_nil. lia.
  - intros (-> & _ & _ & He). rewrite (IH _ _ _ _ He), blen_app. lia.
Qed.

(** The write loop appends frames, the last one perhaps in part. *)
Lemma write_frames_spec ds : forall seq prev es i bs s f res s', log_ok seq prev ds -> entries_for seq prev (blen bs) ds es ->
  live (control s) = Some f -> contents f = bs -> synced f <= blen bs -> write_frames outside es i s = (res, s') ->
  beside s s' /\ exists j part, (j <= List.length ds)%nat /\
    live (control s') = Some (File (bs ++ log seq prev (take j ds) ++ part) (synced f)) /\
    torn (end_seq seq (take j ds)) (end_hash seq prev (take j ds)) part /\
    (res = Ok None -> j = List.length ds /\ part = []) /\ (exists x, res = Ok x).
Proof.
  induction ds as [|d ds IH]; intros seq prev [|e es] i bs s f res s' Hok He Hl Hct Hsy; cbn [entries_for] in He; try done; cbn [write_frames].
  - intros [= <- <-]. split; [done|]. exists 0%nat, []. cbn. rewrite app_nil_r, Hl, <- Hct. split; [lia|]. split; [by destruct f|]. split; [by left|]. split; [done|by eexists].
  - destruct He as (Hf & _ & Ho & He). pose proof Hok as Hok'. apply (log_ok_cons c digest_length) in Hok as (Hd & Hk & Hok).
    rewrite Hf, Ho. set (w := wire c seq prev d) in *. unfold bindM at 1, attempt.
    destruct ((writeAll outside w (blen bs) ;;* call outside) s) as [r s1] eqn:E1. unfold bindM in E1.
    destruct (writeAll outside w (blen bs) s) as [[[]|err] s0] eqn:E0; eapply writeAll_spec in E0 as (B0 & _ & j & Hj & L0 & O0); try done.
    + rewrite (O0 eq_refl), take_ge in L0 by done. apply call_spec in E1 as [B1 L1]. rewrite L0 in L1. destruct r as [[]|err].
      * intros Hq. eapply (IH _ _ es (S i) (bs ++ w)) in Hq as (B2 & j2 & part & Hj2 & L2 & T2 & O2 & X2); [|done|rewrite blen_app; exact He|exact L1|done|rewrite blen_app; pose proof (blen_nonneg w); cbn [synced]; lia].
        split; [etransitivity; [exact B0|by etransitivity]|]. exists (S j2), part. cbn [take WalLog.log WalLog.end_hash List.length synced] in *. fold w. rewrite end_seq_cons, <- !app_assoc in *.
        split; [lia|]. split; [done|]. split; [done|]. split; [|done]. intros [-> ->]%O2. done.
      * intros [= <- <-]. split; [by etransitivity|]. exists 1%nat, []. cbn [take WalLog.log WalLog.end_hash List.length]. fold w. rewrite !app_nil_r.
        split; [lia|]. split; [done|]. split; [by left|]. split; [done|by eexists].
    + injection E1 as <- <-. intros [= <- <-]. split; [done|]. destruct (decide (j = List.length w)) as [->|Hne].
      * exists 1%nat, []. cbn [take WalLog.log WalLog.end_hash List.length]. fold w. rewrite !app_nil_r. rewrite take_ge in L0 by done.
        split; [lia|]. split; [done|]. split; [by left|]. split; [done|by eexists].
      * exists 0%nat, (take j w). cbn [take WalLog.log WalLog.end_hash List.length app]. unfold end_seq. cbn [List.length Z.of_nat]. rewrite Z.add_0_r.
        split; [lia|]. split; [done|]. split; [|split; [done|by eexists]]. right. exists d. rewrite length_take. fold w. split; [done|]. split; [done|]. split; [f_equal; lia|lia].
Qed.

(** ** Acknowledging *)

(** The frames whose members were resolved. *)
Definition acked (x : settled) : list frame := omap (fun x => match snd x with Ok f => Some f | Err _ => None end) x.

Lemma acked_app a b : acked (a ++ b) = acked a ++ acked b.
Proof. apply omap_app. Qed.

Lemma acked_errors {A} (f : A -> nat) (g : A -> error) l : acked (map (fun x => (f x, Err (g x))) l) = [].
Proof. induction l as [|x l IH]; [done|exact IH]. Qed.

Lemma acked_poisoned es failure : acked (reject_poisoned es failure) = [].
Proof. destruct es as [|e es], failure; cbn; try done; apply (acked_errors index (fun _ => RECOVERY_GAP_READ_ONLY)). Qed.

Lemma acked_reject_at es i failure : acked (reject_at es i failure) = [].
Proof.
  unfold reject_at. rewrite acked_app, acked_poisoned, app_nil_r. apply (acked_errors index (fun _ => RECOVERY_GAP_READ_ONLY)).
Qed.

Lemma acked_reject_all group e : acked (reject_all group e) = [].
Proof. apply (acked_errors id (fun _ => e)). Qed.

(** What a promise is settled with, for the data and the entry of its member. *)
Definition carries (d : entry_data) (f : frame) : Prop :=
  type (head_of f) = d_type d /\ transactionId (head_of f) = d_transaction d /\ virtualBucket (head_of f) = d_bucket d /\ payload f = d_payload d.

Definition settles (d : entry_data) (e : entry) (y : nat * result frame) : Prop :=
  fst y = index e /\ forall f, snd y = Ok f -> carries d f.

Lemma settles_errors (g : entry -> error) ds es : List.length ds = List.length es -> Forall3 settles ds es (map (fun e => (index e, Err (g e))) es).
Proof. revert es; induction ds as [|d ds IH]; intros [|e es]; cbn; try done; [constructor|]. intros [= Hl]. constructor; [done|by apply IH]. Qed.

Lemma settles_poisoned ds es failure : List.length ds = List.length es -> Forall3 settles ds es (reject_poisoned es failure).
Proof.
  destruct ds as [|d ds], es as [|e es]; try done; [destruct failure; constructor|]. intros [= Hl]. destruct failure; cbn; (constructor; [done|]);
    by apply (settles_errors (fun _ => RECOVERY_GAP_READ_ONLY)).
Qed.

Lemma settles_at ds es i failure : List.length ds = List.length es -> Forall3 settles ds es (reject_at es i failure).
Proof.
  intros Hl. unfold reject_at. rewrite <- (take_drop i ds). rewrite <- (take_drop i es) at 1. apply Forall3_app.
  - apply (settles_errors (fun _ => RECOVERY_GAP_READ_ONLY)). rewrite !length_take. lia.
  - apply settles_poisoned. rewrite !length_drop. lia.
Qed.

Lemma entries_length ds : forall seq prev offset es, entries_for seq prev offset ds es -> List.length ds = List.length es.
Proof. induction ds as [|d ds IH]; intros seq prev offset [|e es]; cbn; try done. intros (_ & _ & _ & He). f_equal. by eapply IH. Qed.

Lemma settles_rebase ds es : forall offset y, Forall3 settles ds (rebase es offset) y -> Forall3 settles ds es y.
Proof.
  revert ds. induction es as [|e es IH]; intros ds offset y Hy; cbn [rebase] in Hy; inversion Hy; subst; constructor; [done|by eapply IH].
Qed.

(** Everything but the writer's position, the flag [poisoned] and what the
    callbacks have seen. *)
Record committing (s s' : store) : Prop := {
  com_own : own s' = own s;
  com_queue : walCommitQueue s' = walCommitQueue s;
  com_control : control s' = control s;
  com_flag : handle (flag s') = handle (flag s) /\ opened (flag s') = opened (flag s) /\ closing (flag s') = closing (flag s) /\
    destroyed (flag s') = destroyed (flag s) /\ rootActive (flag s') = rootActive (flag s)
}.

#[local] Instance committing_preorder : PreOrder committing.
Proof.
  split; [by split|]. intros s1 s2 s3 [A1 A2 A3 (? & ? & ? & ? & ?)] [B1 B2 B3 (? & ? & ? & ? & ?)]. split; [congruence..|]. split_and!; congruence.
Qed.

Lemma call_committing s res s' : call outside s = (res, s') -> committing s s' /\ position s' = position s /\ poisoned (flag s') = poisoned (flag s).
Proof. unfold call. destruct (io_cases outside id s) as [E|[E|E]]; rewrite E; intros [= <- <-]; by split. Qed.

(** The last loop: members are resolved from the first to the last, until one
    fails and the store is poisoned. *)
Lemma finish_frames_spec ds : forall seq prev offset es s res s', log_ok seq prev ds -> entries_for seq prev offset ds es ->
  own s = c -> walSequence (position s) = seq - 1 -> headHash (position s) = prev -> finish_frames outside es s = (res, s') ->
  committing s s' /\ exists x j, res = Ok x /\ (j <= List.length ds)%nat /\ acked x = frames seq prev (take j ds) /\ Forall3 settles ds es x /\
    (poisoned (flag s') = true \/
     j = List.length ds /\ poisoned (flag s') = poisoned (flag s) /\
     position s' = Head (walOffset (position s) + blen (log seq prev ds)) (end_seq seq ds - 1) (end_hash seq prev ds)
       (liveSegmentFirstSequence (position s)) (sealedWalSegments (position s))).
Proof.
  induction ds as [|d ds IH]; intros seq prev offset [|e es] s res s' Hok He Ho Hs Hp; cbn [entries_for] in He; try done; cbn [finish_frames].
  - intros [= <- <-]. split; [done|]. exists [], 0%nat. split; [done|]. split; [done|]. split; [done|]. split; [constructor|]. right. split; [done|]. split; [done|].
    unfold end_seq. cbn [List.length Z.of_nat WalLog.log WalLog.end_hash]. rewrite blen_nil, !Z.add_0_r, <- Hs, <- Hp. by destruct (position s).
  - pose proof (f_equal S (entries_length _ _ _ _ _ (proj2 (proj2 (proj2 He))))) as Hlen. destruct He as (Hf & Hes & _ & He).
    apply (log_ok_cons c digest_length) in Hok as (Hd & Hk & Hok). rewrite bind_gets, Ho, Hf, Hes.
    set (w := wire c seq prev d) in *. unfold bindM at 1, attempt. unfold bindM at 1.
    destruct (call outside s) as [[[]|err] s1] eqn:E1; apply call_committing in E1 as (C1 & P1 & F1).
    2:{ autorewrite with machine. intros [= <- <-]. split; [transitivity s1; [done|by split]|]. eexists _, 0%nat. split; [reflexivity|]. split; [lia|].
        split; [apply (acked_poisoned (e :: es) (Some err))|]. split; [by apply (settles_poisoned (d :: ds) (e :: es) (Some err))|]. by left. }
    autorewrite with machine. rewrite P1, Hp. unfold lift, w. rewrite (decode_wire c digest_length Hc) by done. fold w. autorewrite with machine.
    set (s2 := on_position _ s1). assert (C2 : committing s s2) by (transitivity s1; [done|by split]).
    assert (P2 : position s2 = Head (walOffset (position s) + blen w) seq (frameHash w) (liveSegmentFirstSequence (position s)) (sealedWalSegments (position s)))
      by (unfold s2; cbn; by rewrite P1).
    assert (F2 : poisoned (flag s2) = poisoned (flag s)) by done. clearbody s2. unfold bindM at 1, attempt.
    assert (Ha : exists r s3, (if entry_applies e then apply_frame outside (frame_of c seq prev d) else ret tt) s2 = (r, s3) /\ committing s2 s3 /\
      position s3 = position s2 /\ poisoned (flag s3) = poisoned (flag s2)).
    { destruct (entry_applies e); [|by eexists _, _]. unfold apply_frame.
      destruct (io_cases outside (record_applied (frame_of c seq prev d)) s2) as [E|[E|E]]; rewrite E; eexists _, _; (split; [reflexivity|]); done. }
    destruct Ha as (r & s3 & -> & C3 & P3 & F3). destruct r as [[]|err].
    2:{ autorewrite with machine. intros [= <- <-]. split; [transitivity s2; [done|]; transitivity s3; [done|by split]|]. eexists _, 0%nat. split; [reflexivity|].
        split; [lia|]. split; [apply (acked_poisoned (e :: es) (Some err))|]. split; [by apply (settles_poisoned (d :: ds) (e :: es) (Some err))|]. by left. }
    unfold bindM. destruct (finish_frames outside es s3) as [rr s4] eqn:E4.
    eapply IH in E4 as (C4 & x & j & -> & Hj & Hx & Hset & Hend); [|exact Hok|exact He|destruct C2, C3; congruence|rewrite P3, P2; cbn; lia|by rewrite P3, P2].
    intros [= <- <-]. split; [transitivity s2; [done|]; by transitivity s3|]. eexists _, (S j). split; [reflexivity|]. cbn [List.length]. split; [lia|].
    split; [change (frame_of c seq prev d :: acked x = frame_of c seq prev d :: frames (seq + 1) (frameHash w) (take j ds)); by rewrite Hx|].
    split; [constructor; [split; [done|by intros f [= <-]]|done]|]. destruct Hend as [Hend|(-> & Hpo & Hpos)]; [by left|]. right. split; [done|]. split; [congruence|].
    rewrite Hpos, P3, P2. cbn [WalLog.log WalLog.end_hash]. fold w. rewrite end_seq_cons, blen_app. cbn. f_equal. lia.
Qed.

(** ** Sealing *)

Lemma filter_names seq l b : names_before seq l -> 0 <= seq <= MAX_U64 -> 0 <= b <= MAX_U64 ->
  List.filter (fun e => negb (bytes_eqb (fst e) (segment_name seq b))) l = l.
Proof.
  intros Hn Hs Hb. assert (Hf : forall f, ~ In (segment_name seq b, f) l) by (intros f; by apply (names_fresh seq)). clear Hn.
  induction l as [|[k f] l IH]; [done|]. cbn [List.filter fst]. destruct (bytes_eqb k (segment_name seq b)) eqn:E.
  - apply bytes_eqb_eq in E as ->. destruct (Hf f). by left.
  - cbn [negb]. f_equal. apply IH. intros g Hg. by apply (Hf g); right.
Qed.

(** The directory after the rename. *)
Lemma sealed_snoc base pbase segs lv : sealed_files c base pbase (segs ++ [lv]) =
  sealed_files c base pbase segs ++ [(segment_name (end_seq base (concat segs)) (end_seq base (concat segs ++ lv) - 1),
    File (log (end_seq base (concat segs)) (end_hash base pbase (concat segs)) lv)
      (blen (log (end_seq base (concat segs)) (end_hash base pbase (concat segs)) lv)))].
Proof. rewrite sealed_files_app. cbn [sealed_files]. by rewrite end_seq_app. Qed.

Lemma concat_snoc segs (lv : list entry_data) : concat (segs ++ [lv]) = concat segs ++ lv.
Proof. rewrite concat_app. cbn. by rewrite app_nil_r. Qed.

Lemma files_sealed_over base pbase s s' segs lv k : files c base pbase s segs lv [] k -> lv <> [] -> own s' = own s ->
  sealed (control s') = sealed_files c base pbase (segs ++ [lv]) ->
  (live (control s') = None \/ live (control s') = Some (File [] 0)) -> files c base pbase s' (segs ++ [lv]) [] [] 0.
Proof.
  intros [H1 H2 H3 H4 H5 H6 H7] Hne Ho Hs Hl. split; rewrite ?Ho; try done.
  - apply Forall_app. split; [done|by constructor].
  - by rewrite app_nil_r, concat_snoc.
  - destruct Hl as [-> | ->]; [done|]. split; [done|by split].
  - apply torn_nil.
Qed.

Record sealing (s s' : store) : Prop := {
  seal_own : own s' = own s;
  seal_queue : walCommitQueue s' = walCommitQueue s;
  seal_applied : applied s' = applied s;
  seal_head : walSequence (position s') = walSequence (position s) /\ headHash (position s') = headHash (position s);
  seal_flag : opened (flag s') = opened (flag s) /\ closing (flag s') = closing (flag s) /\ destroyed (flag s') = destroyed (flag s) /\
    poisoned (flag s') = poisoned (flag s) /\ rootActive (flag s') = rootActive (flag s)
}.

Lemma sealing_beside s s1 s2 : sealing s s1 -> beside s1 s2 -> sealing s s2.
Proof. intros [] []. split; congruence. Qed.

(** The live segment of a ready store has two places to be: live, or sealed. *)
Definition sealed_or_not (base : Z) (pbase : bytes) (s : store) (segs : list (list entry_data)) (lv : list entry_data) : Prop :=
  files c base pbase s segs lv [] (List.length lv) \/ files c base pbase s (segs ++ [lv]) [] [] 0.

Lemma same_files base pbase s s' segs lv tail k : files c base pbase s segs lv tail k -> own s' = own s -> control s' = control s ->
  files c base pbase s' segs lv tail k.
Proof. intros [] Ho Hct. by split; rewrite ?Ho, ?Hct. Qed.

Lemma beside_files base pbase s s' segs lv tail k : files c base pbase s segs lv tail k -> beside s s' -> live (control s') = live (control s) ->
  files c base pbase s' segs lv tail k.
Proof.
  intros Hf [Ho _ _ _ Hs _] Hl. eapply same_files; [exact Hf|done|]. destruct (control s), (control s'). cbn in *. congruence.
Qed.

(** Where sealing can be, with these sealed files and this live segment. *)
Record stage (s0 : store) (files : list (bytes * file)) (l : option file) (s : store) : Prop := {
  stage_sealing : sealing s0 s;
  stage_sealed : sealed (control s) = files;
  stage_live : live (control s) = l;
  stage_position : position s = position s0
}.

Lemma stage_beside s0 fs l s s' : stage s0 fs l s -> beside s s' -> live (control s') = live (control s) -> stage s0 fs l s'.
Proof. intros [] [] ?. split; [by eapply sealing_beside|congruence..]. Qed.

Lemma triple_call s0 fs l (R : store -> Prop) : (forall s, stage s0 fs l s -> R s) ->
  triple (stage s0 fs l) (call outside) (fun _ => stage s0 fs l) R.
Proof.
  intros HR s Hs. destruct (call outside s) as [[[]|e] s'] eqn:E; apply call_spec in E as [B L]; [|apply HR]; by eapply stage_beside.
Qed.

Lemma triple_control s0 fs l fs' l' d (R : store -> Prop) :
  (forall s, stage s0 fs l s -> R s) -> (forall s, stage s0 fs' l' s -> R s) ->
  (forall x, sealed x = fs -> live x = l -> sealed (d x) = fs' /\ live (d x) = l') ->
  triple (stage s0 fs l) (io outside (on_control d)) (fun _ => stage s0 fs' l') R.
Proof.
  intros HR HR' Hd s Hs. assert (Hs' : stage s0 fs l (set_ticks (S (ticks s)) s)) by (eapply stage_beside; [exact Hs|by split|done]).
  assert (Hs'' : stage s0 fs' l' (on_control d (set_ticks (S (ticks s)) s))).
  { destruct Hs as [[? ? ? ? ?] Hf Hl Hp]. destruct (Hd (control s) Hf Hl). by split. }
  destruct (io_cases outside (on_control d) s) as [E|[E|E]]; rewrite E; auto.
Qed.

(** Where a seal that throws may have stopped. *)
Definition seal_stopped (s0 : store) (fs fs' : list (bytes * file)) (f : file) (s : store) : Prop :=
  stage s0 fs (Some f) s \/ stage s0 fs' None s \/ stage s0 fs' (Some (File [] 0)) s.

Lemma triple_sync s0 fs n (R : store -> Prop) : (forall s, stage s0 fs (Some (File [] 0)) s -> R s) -> n = 0 ->
  triple (stage s0 fs (Some (File [] n))) (syncWal outside) (fun _ => stage s0 fs (Some (File [] 0))) R.
Proof.
  intros HR ->. unfold syncWal. apply triple_control; [done..|]. intros x Hs Hl. cbn. by rewrite Hl.
Qed.

(** The calls of a seal, once the name is made. *)
Lemma seal_calls s0 fs fs' f name g : (forall x, sealed x = fs -> live x = Some f -> sealed (rename_live name x) = fs' /\ live (rename_live name x) = None) ->
  triple (stage s0 fs (Some f)) (
    call outside ;;*
    modify (set_handle false) ;;*
    let* missing := gets (fun s => bool_decide (live (control s) = None)) in
    throwM_if missing GenericError ;;*
    io outside (on_control (rename_live name)) ;;*
    call outside ;;*
    call outside ;;*
    let* present := gets (fun s => negb (bool_decide (live (control s) = None))) in
    throwM_if present GenericError ;;*
    io outside (on_control create_live) ;;*
    modify (set_handle true) ;;*
    syncWal outside ;;*
    call outside ;;*
    call outside ;;*
    modify (on_position g))
  (fun _ s => exists s1, stage s0 fs' (Some (File [] 0)) s1 /\ handle (flag s1) = true /\ s = on_position g s1) (seal_stopped s0 fs fs' f).
Proof.
  intros Hr. assert (RA : forall s, stage s0 fs (Some f) s -> seal_stopped s0 fs fs' f s) by (by left).
  assert (RB : forall s, stage s0 fs' None s -> seal_stopped s0 fs fs' f s) by (by right; left).
  assert (RC : forall s, stage s0 fs' (Some (File [] 0)) s -> seal_stopped s0 fs fs' f s) by (by right; right).
  eapply triple_bind; [by apply triple_call|intros ?].
  eapply (triple_bind _ _ _ (fun _ => stage s0 fs (Some f))); [apply triple_modify; intros s [[] ? ? ?]; by split|intros ?].
  eapply triple_bind; [apply triple_gets|intros missing].
  eapply triple_bind; [apply triple_throw_if; intros s [-> [_ _ -> _]]; by apply bool_decide_eq_false|intros ?].
  eapply triple_bind; [apply (triple_pre _ (stage s0 fs (Some f))); [by intros s [_ Hs]|apply triple_control; [exact RA|exact RB|exact Hr]]|intros ?].
  eapply triple_bind; [by apply triple_call|intros ?]. eapply triple_bind; [by apply triple_call|intros ?].
  eapply triple_bind; [apply triple_gets|intros present].
  eapply triple_bind; [apply triple_throw_if; intros s [-> [_ _ -> _]]; done|intros ?].
  eapply (triple_bind _ _ _ (fun _ => stage s0 fs' (Some (File [] 0)))).
  { apply (triple_pre _ (stage s0 fs' None)); [by intros s [_ Hs]|]. apply triple_control; [exact RB|exact RC|]. intros y Hs Hl. unfold create_live. by rewrite Hl. }
  intros ?. set (P := fun s => stage s0 fs' (Some (File [] 0)) s /\ handle (flag s) = true).
  assert (Hkeep : forall m : M store unit, triple (stage s0 fs' (Some (File [] 0))) m (fun _ => stage s0 fs' (Some (File [] 0))) (seal_stopped s0 fs fs' f) ->
    (forall s, handle (flag (snd (m s))) = handle (flag s)) -> triple P m (fun _ => P) (seal_stopped s0 fs fs' f)).
  { intros m Hm Hh s [Hs Hhs]. specialize (Hm s Hs). specialize (Hh s). destruct (m s) as [[y|e] s']; [|done]. split; [done|]. cbn in Hh. congruence. }
  assert (Hio : forall e s, (forall s, flag (e s) = flag s) -> handle (flag (snd (io outside e s))) = handle (flag s)).
  { intros e s He. destruct (io_cases outside e s) as [E|[E|E]]; rewrite E; cbn [snd]; by rewrite ?He. }
  eapply (triple_bind _ _ _ (fun _ => P)); [apply triple_modify; intros s [[] ? ? ?]; by split|intros ?].
  eapply (triple_bind _ _ _ (fun _ => P)); [apply Hkeep; [by apply triple_sync|intros s; by apply Hio]|intros ?].
  eapply (triple_bind _ _ _ (fun _ => P)); [apply Hkeep; [by apply triple_call|intros s; by apply Hio]|intros ?].
  eapply (triple_bind _ _ _ (fun _ => P)); [apply Hkeep; [by apply triple_call|intros s; by apply Hio]|intros ?].
  apply triple_modify. intros s [Hs Hhs]. by exists s.
Qed.

Lemma seal_spec base pbase s segs lv res s' : files c base pbase s segs lv [] (List.length lv) -> ready c base pbase s segs lv -> lv <> [] ->
  sealLiveSegment outside s = (res, s') ->
  sealing s s' /\ sealed_or_not base pbase s' segs lv /\
  (res = Ok tt -> files c base pbase s' (segs ++ [lv]) [] [] 0 /\ ready c base pbase s' (segs ++ [lv]) [] /\ handle (flag s') = true).
Proof.
  intros Hf [Hl Hp] Hne. pose proof Hf as [Ho Hs Hn Hok _ _ _]. apply (log_ok_app c digest_length) in Hok as [Hoks [_ Hst Hen _]].
  rewrite <- end_seq_app in Hen. unfold sealLiveSegment. rewrite bind_gets. cbn [id]. rewrite Hp. cbn [liveSegmentFirstSequence walSequence].
  pose proof (end_seq_lt (end_seq base (concat segs)) lv Hne) as Hlt. rewrite <- end_seq_app in Hlt.
  rewrite (proj2 (Z.ltb_ge _ _)) by lia. rewrite bind_lift, name_ok by lia.
  set (name := segment_name _ _). set (L := log _ _ lv) in *. set (g := fun x : head => _).
  set (fs := sealed_files c base pbase segs) in *. set (fs' := sealed_files c base pbase (segs ++ [lv])).
  assert (Hr : forall x, sealed x = fs -> live x = Some (File L (blen L)) -> sealed (rename_live name x) = fs' /\ live (rename_live name x) = None).
  { intros x Hx1 Hx2. unfold rename_live. rewrite Hx2. cbn [sealed live]. split; [|done]. unfold fs'. rewrite Hx1, sealed_snoc.
    unfold name, fs. rewrite filter_names; [done| |unfold MAX_U64 in *; lia..]. by apply (names_before_sealed c digest_length). }
  assert (H0 : stage s fs (Some (File L (blen L))) s) by (by split).
  pose proof (seal_calls s fs fs' (File L (blen L)) name g Hr s H0) as Hq. intros E. rewrite E in Hq.
  assert (Hbefore : forall x, stage s fs (Some (File L (blen L))) x -> files c base pbase x segs lv [] (List.length lv)).
  { intros x [[Hox _ _ _ _] Hsx Hlx _]. eapply (same_files _ _ s); [done..|]. destruct (control s), (control x). cbn in *. congruence. }
  assert (Hafter : forall x l, stage s fs' l x -> l = None \/ l = Some (File [] 0) -> files c base pbase x (segs ++ [lv]) [] [] 0).
  { intros x l [[Hox _ _ _ _] Hsx Hlx _] Hcase. eapply (files_sealed_over _ _ s); [done..|]. by rewrite Hlx. }
  destruct res as [[]|e].
  - destruct Hq as (s1 & Hst1 & Hh1 & ->). pose proof (Hafter s1 _ Hst1 (or_intror eq_refl)) as F1. destruct Hst1 as [[A1 A2 A3 [A4 A4'] A5] Hs1 Hl1 Hp1].
    assert (F : files c base pbase (on_position g s1) (segs ++ [lv]) [] [] 0) by (by eapply same_files).
    split; [split; done|]. split; [by right|]. intros _. split; [done|]. split; [|done]. split; cbn [on_position control position].
    + by rewrite Hl1.
    + unfold g. rewrite Hp1, Hp. cbn [walSequence headHash sealedWalSegments WalLog.log]. rewrite blen_nil, app_nil_r, concat_snoc, sealed_segments_app.
      cbn [sealed_segments]. rewrite <- end_seq_app. f_equal. lia.
  - destruct Hq as [Hst1|[Hst1|Hst1]]; (split; [apply Hst1|]); (split; [|done]); [left|right..]; eauto.
Qed.

(** ** A group *)

(** What a crash cannot take away. *)
Definition kept (segs : list (list entry_data)) (lv : list entry_data) (k : nat) : list entry_data := concat segs ++ take k lv.

(** Frames appended to the live segment. *)
Lemma files_extend base pbase s s' segs lv ds part sy : files c base pbase s segs lv [] (List.length lv) -> ready c base pbase s segs lv ->
  own s' = own s -> sealed (control s') = sealed (control s) ->
  log_ok (end_seq base (concat segs ++ lv)) (end_hash base pbase (concat segs ++ lv)) ds ->
  torn (end_seq base (concat segs ++ lv ++ ds)) (end_hash base pbase (concat segs ++ lv ++ ds)) part ->
  blen (log (end_seq base (concat segs)) (end_hash base pbase (concat segs)) lv) <= sy <=
    blen (log (end_seq base (concat segs)) (end_hash base pbase (concat segs)) (lv ++ ds) ++ part) ->
  live (control s') = Some (File (log (end_seq base (concat segs)) (end_hash base pbase (concat segs)) (lv ++ ds) ++ part) sy) ->
  files c base pbase s' segs (lv ++ ds) part (List.length lv).
Proof.
  intros [H1 H2 H3 H4 H5 H6 H7] _ Ho Hs Hok Ht Hsy Hl. split; rewrite ?Ho, ?Hs, ?Hl; try done.
  - rewrite app_assoc. by apply (log_ok_app c digest_length).
  - split; [done|]. rewrite take_app_length. cbn. lia.
  - rewrite length_app. lia.
Qed.

Lemma log_ext base pbase segs lv ds : log (end_seq base (concat segs)) (end_hash base pbase (concat segs)) (lv ++ ds) =
  log (end_seq base (concat segs)) (end_hash base pbase (concat segs)) lv ++
  log (end_seq base (concat segs ++ lv)) (end_hash base pbase (concat segs ++ lv)) ds.
Proof. by rewrite log_app, end_seq_app, end_hash_app. Qed.

(** Writing, syncing and acknowledging frames at the end of a ready store. *)
Definition land (frames : list entry) (rejected : settled) : M store settled :=
  let* failed := write_frames outside frames 0 in
  match failed with
  | Some (i, failure) => modify (set_poisoned true) ;;* ret (rejected ++ reject_at frames i failure)
  | None =>
      let* synced := attempt (syncWal outside) in
      match synced with
      | Err failure => modify (set_poisoned true) ;;* ret (rejected ++ map (fun e => (index e, Err failure)) frames)
      | Ok _ => let* settled := finish_frames outside frames in ret (rejected ++ settled)
      end
  end.

(** The effect of a group on the log: [ds] is appended, the first [j] of its
    frames are acknowledged, and then all of it is safe. *)
Record landed (base : Z) (pbase : bytes) (s s' : store) (segs segs' : list (list entry_data)) (lv lv' : list entry_data) (tail' : bytes)
    (k k' : nat) (ds : list entry_data) (j : nat) (x : settled) : Prop := {
  landed_holds : holds c base pbase s' segs' lv' tail' k';
  landed_total : concat segs' ++ lv' = (concat segs ++ lv) ++ ds;
  landed_kept : kept segs lv k `prefix_of` kept segs' lv' k';
  landed_acked : acked x = frames (end_seq base (concat segs ++ lv)) (end_hash base pbase (concat segs ++ lv)) (take j ds);
  landed_safe : (0 < j)%nat -> kept segs' lv' k' = concat segs' ++ lv';
  landed_queue : walCommitQueue s' = walCommitQueue s
}.

Lemma kept_all segs lv : kept segs lv (List.length lv) = concat segs ++ lv.
Proof. unfold kept. by rewrite take_ge. Qed.

Lemma poisoned_holds base pbase s segs lv tail k : files c base pbase s segs lv tail k -> unmoved base pbase s (concat segs ++ lv) ->
  (opened (flag s) = true -> rootActive (flag s) = true) -> holds c base pbase (set_poisoned true s) segs lv tail k.
Proof. intros Hf Hu Hr. split; [destruct Hf; by split|done|by intros [_ ?]|done]. Qed.

Lemma land_spec base pbase s segs lv ds es rejected res s' : files c base pbase s segs lv [] (List.length lv) -> ready c base pbase s segs lv ->
  (opened (flag s) = true -> rootActive (flag s) = true) -> ds <> [] ->
  log_ok (end_seq base (concat segs ++ lv)) (end_hash base pbase (concat segs ++ lv)) ds ->
  entries_for (end_seq base (concat segs ++ lv)) (end_hash base pbase (concat segs ++ lv))
    (blen (log (end_seq base (concat segs)) (end_hash base pbase (concat segs)) lv)) ds es ->
  acked rejected = [] -> land es rejected s = (res, s') ->
  (exists x lv' tail' k' ds' j, res = Ok x /\ landed base pbase s s' segs segs lv lv' tail' (List.length lv) k' ds' j x) /\
  exists y, res = Ok (rejected ++ y) /\ Forall3 settles ds es y.
Proof.
  intros Hf Hr Hroot Hne Hok He Hrej. pose proof (entries_length _ _ _ _ _ He) as Hlen. pose proof Hr as [Hl Hpos]. pose proof Hf as [Ho _ _ _ _ _ _].
  set (L := log (end_seq base (concat segs)) (end_hash base pbase (concat segs)) lv) in *. unfold land. unfold bindM at 1.
  destruct (write_frames outside es 0 s) as [r s1] eqn:E1.
  eapply (write_frames_spec ds) in E1 as (B1 & j & part & Hj & L1 & T1 & O1 & (o & ->)); [|exact Hok|exact He|exact Hl|done|cbn; lia].
  cbn [synced] in L1. rewrite app_assoc in L1. unfold L in L1 at 1. rewrite <- log_ext in L1.
  assert (Hokj : forall m, log_ok (end_seq base (concat segs ++ lv)) (end_hash base pbase (concat segs ++ lv)) (take m ds)).
  { intros m. rewrite <- (take_drop m ds) in Hok. by apply (log_ok_app c digest_length) in Hok as [? _]. }
  assert (F1 : files c base pbase s1 segs (lv ++ take j ds) part (List.length lv)).
  { eapply files_extend; [exact Hf|done|apply B1|apply B1|apply Hokj| | |exact L1].
    - by rewrite app_assoc, end_seq_app, (end_hash_app c base pbase (concat segs ++ lv)).
    - rewrite log_ext. fold L. rewrite !blen_app. pose proof (blen_nonneg part).
      pose proof (blen_nonneg (log (end_seq base (concat segs ++ lv)) (end_hash base pbase (concat segs ++ lv)) (take j ds))). lia. }
  assert (Hun : forall s2 m, walSequence (position s2) = walSequence (position s) -> headHash (position s2) = headHash (position s) ->
    unmoved base pbase s2 (concat segs ++ lv ++ take m ds)).
  { intros s2 m Hs2 Hh2. unfold unmoved. rewrite Hs2, Hh2, Hpos. cbn [walSequence headHash].
    destruct (concat segs ++ lv ++ take m ds) as [|d l] eqn:Eapp; [|by left]. right. rewrite app_assoc in Eapp. apply app_eq_nil in Eapp as [-> _].
    unfold end_seq. cbn. split; [lia|done]. }
  assert (Hpart : forall s2, beside s s2 -> files c base pbase s2 segs (lv ++ take j ds) part (List.length lv) -> forall x, acked x = [] ->
    landed base pbase s (set_poisoned true s2) segs segs lv (lv ++ take j ds) part (List.length lv) (List.length lv) (take j ds) 0 x).
  { intros s2 [B2 B3 B4 B5 _ _] F2 x Hx. split; [|by rewrite app_assoc| |done|lia|exact B4].
    - apply poisoned_holds; [done|apply Hun; by rewrite B5|by rewrite B3].
    - rewrite kept_all. unfold kept. rewrite take_app_length. done. }
  destruct o as [[i failure]|].
  { autorewrite with machine. intros [= <- <-]. split; [|eexists; split; [reflexivity|by apply settles_at]]. eexists _, _, _, _, _, _. split; [reflexivity|].
    apply Hpart; [done..|]. by rewrite acked_app, Hrej, acked_reject_at. }
  destruct (O1 eq_refl) as [-> ->]. rewrite take_ge, ?app_nil_r in * by done. unfold bindM at 1, attempt.
  destruct (syncWal outside s1) as [r2 s2] eqn:E2. unfold syncWal in E2. apply io_live in E2 as (B2 & C2 & O2).
  assert (B02 : beside s s2) by (by etransitivity).
  assert (F2 : files c base pbase s2 segs (lv ++ ds) [] (List.length lv)).
  { rewrite L1 in C2. destruct C2 as [C2|C2]; (eapply files_on_live; [exact F1|apply B2|apply B2|exact L1|exact C2| |by left|rewrite length_app; lia]); [done|]. apply sync_live_rep. }
  destruct r2 as [[]|failure].
  2:{ autorewrite with machine. intros [= <- <-]. split; [|eexists; split; [reflexivity|by apply (settles_errors (fun _ => failure))]]. eexists _, _, _, _, _, _. split; [reflexivity|]. apply Hpart; [done..|].
      rewrite acked_app, Hrej. apply (acked_errors index (fun _ => failure)). }
  specialize (O2 eq_refl). rewrite L1 in O2. cbn [option_map] in O2.
  assert (F2' : files c base pbase s2 segs (lv ++ ds) [] (List.length (lv ++ ds))) by (by eapply files_synced).
  unfold bindM at 1. destruct (finish_frames outside es s2) as [r3 s3] eqn:E3.
  eapply (finish_frames_spec ds) in E3 as (C3 & x & j & -> & Hj' & Hx & Hset & Hend); [|exact Hok|exact He|destruct F2; done|destruct B02 as [_ _ _ -> _ _]; by rewrite Hpos|destruct B02 as [_ _ _ -> _ _]; by rewrite Hpos].
  intros [= <- <-]. destruct C3 as [C31 C32 C33 (C34 & C35 & C36 & C37 & C38)]. destruct B02 as [B3 B4 B5 B6 _ _].
  assert (F3 : files c base pbase s3 segs (lv ++ ds) [] (List.length (lv ++ ds))) by (by eapply same_files).
  split; [|by exists x]. exists (rejected ++ x), (lv ++ ds), [], (List.length (lv ++ ds)), ds, j. split; [done|]. split.
  - split; [done| | |by rewrite C35, C38, B4].
    + left. destruct ds; [done|]. by destruct (concat segs), lv.
    + intros [_ Hpo]. destruct Hend as [Hend|(-> & _ & Hp3)]; [congruence|]. split; [|done]. split.
      * rewrite C33, O2. unfold sync_file. cbn [contents]. rewrite ?app_nil_r. done.
      * rewrite Hp3, B6, Hpos. cbn [walOffset liveSegmentFirstSequence sealedWalSegments]. unfold L. rewrite <- blen_app, <- log_ext, <- end_seq_app, <- end_hash_app.
        by rewrite <- app_assoc.
  - by rewrite app_assoc.
  - rewrite !kept_all, app_assoc. by apply prefix_app_r.
  - by rewrite acked_app, Hrej, Hx.
  - intros _. apply kept_all.
  - by rewrite C32, B5.
Qed.

(** A group on a store that refuses it. *)
Lemma landed_nothing base pbase s segs lv tail k x : holds c base pbase s segs lv tail k -> acked x = [] ->
  landed base pbase s s segs segs lv lv tail k k [] 0 x.
Proof. intros Hh Hx. split; [done|by rewrite app_nil_r|done|done|lia|done]. Qed.

Lemma landed_poisoned base pbase s s' segs segs' lv lv' k' x : files c base pbase s' segs' lv' [] k' ->
  kept segs lv (List.length lv) = kept segs' lv' k' -> concat segs' ++ lv' = concat segs ++ lv -> lv <> [] ->
  sealing s s' -> (opened (flag s) = true -> rootActive (flag s) = true) -> acked x = [] ->
  landed base pbase s (set_poisoned true s') segs segs' lv lv' [] (List.length lv) k' [] 0 x.
Proof.
  intros Hf Hk Ht Hne [_ Hq _ _ (Ho & _ & _ & _ & Hr)] Hroot Hx. split; [|by rewrite app_nil_r|by rewrite Hk|done|lia|done].
  apply poisoned_holds; [done| |by rewrite Ho, Hr]. left. rewrite Ht. by destruct (concat segs), lv.
Qed.

(** Every promise of the group is settled once, the ones that are fulfilled with
    a frame that carries what was appended. *)
Definition fulfils (m : member) (f : frame) : Prop :=
  getx (value m) "type" = Ok (VNum (type (head_of f))) /\ (value m).["transactionId"] = VBytes (transactionId (head_of f)) /\
  (value m).["virtualBucket"] = VNum (virtualBucket (head_of f)) /\ (value m).["payload"] = VBytes (payload f).

Definition group_settled (group : list member) (x : settled) : Prop :=
  map fst x ≡ₚ List.seq 0 (List.length group) /\ forall i f, In (i, Ok f) x -> exists m, group !! i = Some m /\ fulfils m f.

Lemma settled_all group e : group_settled group (reject_all group e).
Proof.
  unfold reject_all. split; [by rewrite map_map, map_id|]. intros i f Hin. apply in_map_iff in Hin as (j & Hj & _). done.
Qed.

Lemma settled_with group rejected ds es y : map index es ++ map fst rejected ≡ₚ List.seq 0 (List.length group) -> acked rejected = [] ->
  Forall2 (entry_of group 0) ds es -> Forall3 settles ds es y -> group_settled group (rejected ++ y).
Proof.
  intros Hix Hrej Hm Hy. assert (Hfst : map fst y = map index es) by (clear -Hy; induction Hy as [|d e z ds es y [Hz _] _ IH]; cbn; [done|by rewrite Hz, IH]).
  split; [by rewrite map_app, Hfst, (Permutation_app_comm (map fst rejected))|]. intros i f [Hin|Hin]%in_app_or.
  - exfalso. clear -Hrej Hin. induction rejected as [|[j r] l IH]; [done|]. destruct r as [g|]; [done|]. destruct Hin as [[=]|Hin]. by apply IH.
  - clear -Hm Hy Hin. induction Hy as [|d e z ds es y [Hz Hc] _ IH]; [done|]. apply Forall2_cons in Hm as [(n & m & Hn & Hg & H1 & H2 & H3 & H4) Hm].
    destruct Hin as [->|Hin]; [|by apply IH]. cbn in Hz, Hc. exists m. subst i. rewrite Hn. destruct (Hc f eq_refl) as (C1 & C2 & C3 & C4).
    unfold fulfils. rewrite C1, C2, C3, C4. done.
Qed.

(** A group, whatever the state of the store and whatever the calls do: the
    group's promises are all settled, frames are only added, what was safe
    stays safe, and what is acknowledged is in the log, in order, and safe. *)
Lemma commit_spec base pbase s segs lv tail k group res s' : holds c base pbase s segs lv tail k ->
  commitWalGroup outside group s = (res, s') ->
  exists x segs' lv' tail' k' ds j, res = Ok x /\ group_settled group x /\ landed base pbase s s' segs segs' lv lv' tail' k k' ds j x.
Proof.
  intros Hh. unfold commitWalGroup. rewrite bind_gets. cbn [id].
  assert (Hno : forall e, (Ok (reject_all group e), s) = (res, s') -> exists x segs' lv' tail' k' ds j, res = Ok x /\ group_settled group x /\
    landed base pbase s s' segs segs' lv lv' tail' k k' ds j x).
  { intros e [= <- <-]. eexists _, segs, lv, tail, k, [], 0%nat. split; [reflexivity|]. split; [apply settled_all|]. apply landed_nothing; [done|apply acked_reject_all]. }
  destruct (handle (flag s)) eqn:Eh; [|apply Hno]. destruct (opened (flag s)) eqn:Eo; [|apply Hno]. cbn [negb orb].
  destruct (closing (flag s)) eqn:Ec; [apply Hno|]. destruct (poisoned (flag s)) eqn:Ep; [apply Hno|]. cbv zeta.
  destruct Hh as [Hf Hu Hrun Hroot]. destruct (Hrun (conj Eo Ep)) as (Hr & -> & ->). pose proof Hf as [Ho _ _ Hok _ _ _]. rewrite Ho.
  pose proof Hr as [_ Hp]. rewrite Hp. cbn [walOffset walSequence headHash].
  destruct (encode_group c group 0 _ _ _) as [es rejected] eqn:Eg. destruct Hok as [_ Hst Hen Hpb].
  eapply encode_group_spec in Eg as (ds & Hds & He & Hrej & Hm & Hix); [|unfold end_seq in *; lia|by apply (end_hash_length c digest_length)].
  change (acked rejected = []) in Hrej. rewrite Z.sub_add in Hds, He.
  destruct es as [|e0 es'] eqn:Ees.
  { intros [= <- <-]. eexists _, segs, lv, [], (List.length lv), [], 0%nat. split; [reflexivity|]. split; [|by apply landed_nothing].
    rewrite <- (app_nil_r rejected). apply Forall2_nil_inv_r in Hm. subst ds. eapply settled_with; [exact Hix|done|constructor|constructor]. }
  rewrite <- Ees in *. assert (Hne : ds <> []) by (intros ->; by subst es). clear Ees e0 es'. set (L := log _ _ lv) in *.
  destruct ((0 <? blen L) && _ && _) eqn:Eroll.
  - apply andb_true_iff in Eroll as [Eroll _]. apply andb_true_iff in Eroll as [Eroll _]. b2p.
    assert (Hlv : lv <> []) by (intros ->; done).
    unfold bindM at 1, attempt at 1. destruct (sealLiveSegment outside s) as [rr s1] eqn:E1.
    eapply seal_spec in E1 as (S1 & Hor & Hseal); [|done..]. destruct rr as [[]|err].
    + destruct (Hseal eq_refl) as (F1 & R1 & _). intros Hl. eapply (land_spec base pbase s1 (segs ++ [lv]) [] ds (rebase es 0) rejected) in Hl as [(x & lv' & tail' & k' & ds' & j & -> & [A1 A2 A3 A4 A5 A6]) (y & [= ->] & Hy)];
        [|done|done| |done|by rewrite app_nil_r, concat_snoc| |done].
      * rewrite app_nil_r, concat_snoc in A2, A4. eexists _, (segs ++ [lv]), lv', tail', k', ds', j. split; [done|].
        split; [eapply settled_with; [exact Hix|done|exact Hm|by eapply settles_rebase]|]. split; [done|by rewrite concat_snoc| |done|done|rewrite A6; apply S1].
        unfold kept in A3 |- *. rewrite take_nil, app_nil_r, concat_snoc in A3. by rewrite (take_ge lv), concat_snoc.
      * destruct S1 as [_ _ _ _ (-> & _ & _ & _ & ->)]. done.
      * rewrite app_nil_r, concat_snoc. cbn [WalLog.log]. rewrite blen_nil. by eapply rebase_spec.
    + assert (Hset : group_settled group (rejected ++ reject_poisoned es None)).
      { eapply settled_with; [exact Hix|done|exact Hm|]. apply settles_poisoned. by eapply entries_length. }
      autorewrite with machine. intros [= <- <-]. destruct Hor as [Hor|Hor].
      * eexists _, segs, lv, [], (List.length lv), [], 0%nat. split; [reflexivity|]. split; [done|]. apply landed_poisoned; try done. by rewrite acked_app, Hrej, acked_poisoned.
      * eexists _, (segs ++ [lv]), [], [], 0%nat, [], 0%nat. split; [reflexivity|]. split; [done|]. apply landed_poisoned; try done.
        -- unfold kept. by rewrite concat_snoc, take_nil, app_nil_r, take_ge.
        -- by rewrite app_nil_r, concat_snoc.
        -- by rewrite acked_app, Hrej, acked_poisoned.
  - unfold bindM at 1, attempt at 1, ret at 1. intros Hl. eapply (land_spec base pbase s segs lv ds es rejected) in Hl as [(x & lv' & tail' & k' & ds' & j & -> & Hlanded) (y & [= ->] & Hy)]; try done.
    eexists _, segs, lv', tail', k', ds', j. split; [done|]. split; [by eapply settled_with|done].
Qed.

End Commit.
