(* ===== verification/WalLaws.v ===== *)
(** * What the write-ahead log promises

    A store and its directory under any sequence of opening, appending, group
    commits, closing and crashes, where every call that leaves the code may
    fail. What was acknowledged is found again by the next opening. *)

From Stdlib Require Import ZArith Lia Bool List String Ascii.
From Stdlib Require Import Strings.Byte.
From stdpp Require Import base tactics list strings.
From S2P Require Import Prelude Codec CodecLaws Authority Hashes WriteAheadLog WalFrames WalLog WalScan WalStore WalCommit.
Import Wal.

(** ** Crashes *)

(** A crash may take from a file what has not been synced. *)
Definition file_survives (f f' : file) : Prop :=
  exists n, synced f <= n <= blen (contents f) /\ f' = File (take (Z.to_nat n) (contents f)) (synced f).

Definition directory_survives (d d' : directory) : Prop :=
  option_Forall2 file_survives (live d) (live d') /\
  Forall2 (fun e e' => fst e = fst e' /\ file_survives (snd e) (snd e')) (sealed d) (sealed d').

(** A call outside that never fails. *)
Definition healthy (outside : nat -> outcome) : Prop := forall n, exists m, outside n = Done m.

Section Laws.
Context `{Platform} (c : config).
Hypothesis digest_length : forall bs, blen (generichash bs) = 32.
Context (Hc : config_ok c).

(** ** Steps *)

Inductive wal_step : store * list frame -> store * list frame -> Prop :=
  | step_open outside options s a res s' :
      open outside options s = (res, s') -> wal_step (s, a) (s', a)
  | step_append m s a res s' :
      append m s = (res, s') -> wal_step (s, a) (s', a)
  | step_drain outside s a x s' :
      drainWalCommits outside s = (Ok x, s') -> wal_step (s, a) (s', a ++ acked x)
  | step_close_begin s a res s' :
      close_begin s = (res, s') -> wal_step (s, a) (s', a)
  | step_close_end outside s a res s' :
      close_end outside s = (res, s') -> wal_step (s, a) (s', a)
  | step_crash s a d :
      directory_survives (control s) d -> wal_step (s, a) (newStore c d, a).

(** From an empty directory. *)
Inductive wal_reachable : store -> list frame -> Prop :=
  | reach_new : wal_reachable (newStore c (Directory None [])) []
  | reach_step s a s' a' : wal_reachable s a -> wal_step (s, a) (s', a') -> wal_reachable s' a'.

(** A store that was closed keeps its directory but not its constants. *)
Definition closed (s : store) : Prop := destroyed (flag s) = true /\ opened (flag s) = false /\ handle (flag s) = false.

(** The directory holds a log from genesis, and no crash can take from it what
    was acknowledged. *)
Definition keeps (s : store) (a : list frame) : Prop := exists segs lv tail k,
  holds c 1 ZERO32 s segs lv tail k /\ a `sublist_of` frames c 1 ZERO32 (kept segs lv k).

Definition sound (s : store) (a : list frame) : Prop := keeps s a \/ closed s /\ keeps (set_own c s) a.

Lemma frames_prefix ds es : ds `prefix_of` es -> frames c 1 ZERO32 ds `sublist_of` frames c 1 ZERO32 es.
Proof. intros [x ->]. rewrite (frames_app c). by apply sublist_inserts_r. Qed.

Lemma sound_new : sound (newStore c (Directory None [])) [].
Proof.
  left. exists [], [], [], 0%nat. split; [|apply sublist_nil_l]. split; [|by right|by intros [? _]|done].
  split; try done; [apply List.Forall_nil|apply torn_nil].
Qed.

(** The parts of a store the invariant looks at. *)
Lemma holds_same base pbase s s' segs lv tail k : holds c base pbase s segs lv tail k -> own s' = own s -> control s' = control s ->
  position s' = position s -> (running s' -> running s) -> (opened (flag s') = true -> rootActive (flag s') = true) ->
  holds c base pbase s' segs lv tail k.
Proof.
  intros [Hf Hu Hr _] Ho Hct Hp Hrun Hroot. split; [by eapply same_files| |intros Hx|done].
  - unfold unmoved. by rewrite Hp.
  - destruct (Hr (Hrun Hx)) as ([H1 H2] & ?). split; [|done]. split; congruence.
Qed.

Lemma survives_synced l : forall l', Forall (fun e : bytes * file => synced (snd e) = blen (contents (snd e))) l ->
  Forall2 (fun e e' => fst e = fst e' /\ file_survives (snd e) (snd e')) l l' -> l' = l.
Proof.
  induction l as [|[k [bs n]] l IH]; intros l' Hl Hf; [by apply Forall2_nil_inv_l in Hf|]. apply Forall_cons in Hl as [Hn Hl]. cbn in Hn. subst n.
  apply Forall2_cons_inv_l in Hf as ([k' f'] & l'' & [Hk (n & Hn & Hf')] & Hrest & ->). cbn in *. rewrite (IH _ Hl Hrest). subst.
  do 3 f_equal. apply take_ge. unfold blen in *. lia.
Qed.

Lemma sealed_synced base pbase segs : Forall (fun e : bytes * file => synced (snd e) = blen (contents (snd e))) (sealed_files c base pbase segs).
Proof. revert base pbase; induction segs as [|x segs IH]; intros; cbn; constructor; [done|apply IH]. Qed.

(** After a crash. *)
Lemma crash_files base pbase s d segs lv tail k : files c base pbase s segs lv tail k -> directory_survives (control s) d ->
  exists j tail', (k <= j)%nat /\ files c base pbase (newStore c d) segs (take j lv) tail' k.
Proof.
  intros [H1 H2 H3 H4 H5 H6 H7] [Hlive Hseal]. rewrite H2 in Hseal. apply survives_synced in Hseal; [|apply sealed_synced].
  pose proof H4 as H4'. apply (log_ok_app c digest_length) in H4' as [Hs Hok]. rewrite end_seq_app, end_hash_app in H6.
  destruct (live (control s)) as [f|] eqn:El; inversion Hlive as [? f' (n & Hn & ->) He1 He2|He1 He2].
  - destruct H5 as [Hct Hsy]. rewrite Hct in *.
    destruct (cut_log c digest_length _ _ lv tail (Z.to_nat n) Hok H6) as (j & tail' & Hj & Htk & Htorn & Hmax).
    assert (Hkj : (k <= j)%nat) by (apply Hmax; [done|]; unfold blen in *; lia).
    exists j, tail'. split; [done|]. split; cbn [newStore own control]; try done.
    + rewrite <- (take_drop j lv), app_assoc in H4. by apply (log_ok_app c digest_length) in H4 as [? _].
    + rewrite <- He2. split; cbn [contents synced]; [done|]. rewrite take_take, Nat.min_l by done. unfold blen in *. rewrite length_take. lia.
    + by rewrite end_seq_app, end_hash_app.
    + rewrite length_take. lia.
  - destruct H5 as [-> ->]. exists k, []. split; [done|]. rewrite take_nil. split; cbn [newStore own control]; try done; [by rewrite <- He2|apply torn_nil].
Qed.

Lemma keeps_same s s' a : keeps s a -> own s' = own s -> control s' = control s -> position s' = position s ->
  (running s' -> running s) -> (opened (flag s') = true -> rootActive (flag s') = true) -> keeps s' a.
Proof. intros (segs & lv & tail & k & Hh & Ha) H1 H2 H3 H4 H5. exists segs, lv, tail, k. split; [by eapply holds_same|done]. Qed.

Lemma keeps_open outside options s a res s' : keeps s a -> open outside options s = (res, s') -> keeps s' a.
Proof.
  intros (segs & lv & tail & k & Hh & Ha) E. eapply (open_holds c outside digest_length Hc) in E as (tail' & k' & Hk & Hh'); [|exact Hh|by right|].
  - exists segs, lv, tail', k'. split; [done|]. etransitivity; [exact Ha|]. apply frames_prefix. unfold kept.
    apply prefix_app. exists (take (k' - k) (drop k lv)). rewrite take_take_drop. f_equal. lia.
  - intros r Hr. apply fits_genesis. apply normalize_anchor in Hr. destruct (checkpointAnchor r); [lia|done].
Qed.

(** Appending touches the queue, or nothing. *)
Lemma append_cases m s res s' : append m s = (res, s') -> s' = s \/ s' = set_queue (walCommitQueue s ++ [m]) s.
Proof.
  unfold append. rewrite bind_gets. cbn [id]. do 3 (rewrite bind_throw_if; match goal with |- context[if ?b then _ else _] => destruct b; [by intros [= _ <-]; left|] end).
  intros [= _ <-]. by right.
Qed.

Lemma keeps_drain outside s a x s' : keeps s a -> drainWalCommits outside s = (Ok x, s') -> keeps s' (a ++ acked x).
Proof.
  intros (segs & lv & tail & k & Hh & Ha) E. unfold drainWalCommits in E. rewrite bind_gets, bind_modify in E.
  assert (Hq : holds c 1 ZERO32 (set_queue [] s) segs lv tail k) by (eapply holds_same; [exact Hh|done..|apply Hh]).
  eapply (commit_spec c outside digest_length Hc) in E as (y & segs' & lv' & tail' & k' & ds & j & [= <-] & _ & [L1 L2 L3 L4 L5 _]); [|exact Hq].
  exists segs', lv', tail', k'. split; [done|]. destruct j as [|j].
  - cbn in L4. rewrite L4, app_nil_r. etransitivity; [exact Ha|by apply frames_prefix].
  - rewrite L5, L2, (frames_app c), L4 by lia. apply sublist_app; [etransitivity; [exact Ha|]|].
    + apply frames_prefix. unfold kept. apply prefix_app. exists (drop k lv). by rewrite take_drop.
    + rewrite frames_take. apply sublist_take.
Qed.

Lemma keeps_crash s a d : keeps s a -> directory_survives (control s) d -> keeps (newStore c d) a.
Proof.
  intros (segs & lv & tail & k & [Hf Hu _ _] & Ha) E. destruct (crash_files _ _ _ _ _ _ _ _ Hf E) as (j & tail' & Hk & Hf').
  exists segs, (take j lv), tail', k. split; [split; [done|by right|by intros [? _]|done]|]. unfold kept. by rewrite take_take, Nat.min_l.
Qed.

(** What closing leaves alone. *)
Lemma close_end_spec outside s res s' : close_end outside s = (res, s') -> closed s' /\ control s' = control s /\ position s' = position s.
Proof.
  unfold close_end. rewrite bind_gets, !bind_modify. cbn [id].
  assert (Hcall : forall t r t', (if handle (flag s) then attempt (call outside) else ret (Ok tt)) t = (r, t') ->
    (exists x, r = Ok x) /\ control t' = control t /\ position t' = position t /\ handle (flag t') = handle (flag t) /\ opened (flag t') = opened (flag t)).
  { intros t r t'. destruct (handle (flag s)); [|intros [= <- <-]; by split; [eexists|]]. unfold attempt. destruct (call outside t) as [r1 t1] eqn:Et.
    apply call_committing in Et as ([] & Hp & _). intros [= <- <-]. split; [by eexists|]. intuition. }
  unfold bindM at 1. destruct (_ (set_handle false _)) as [r t'] eqn:Et. apply Hcall in Et as ([x ->] & H1 & H2 & H3 & H4).
  rewrite !bind_modify. intros [= _ <-]. cbn in *. by split.
Qed.

Lemma sound_step s a s' a' : sound s a -> wal_step (s, a) (s', a') -> sound s' a'.
Proof.
  intros Hs Hst. inversion Hst as [outside options s0 a0 res s1 E|m s0 a0 res s1 E|outside s0 a0 x s1 E|s0 a0 res s1 E|outside s0 a0 res s1 E|s0 a0 d E]; subst.
  - destruct Hs as [Hs|[(Hd & Ho & Hh) Hs]]; [left; by eapply keeps_open|]. revert E. unfold open. rewrite bind_gets, bind_throw_if. cbn [id]. rewrite Hd.
    intros [= _ <-]. by right.
  - apply append_cases in E as [->| ->]; [done|]. destruct Hs as [Hs|[Hcl Hs]]; [left|right; split; [done|]];
      (eapply keeps_same; [exact Hs|done..|]; by destruct Hs as (? & ? & ? & ? & [_ _ _ Hr] & _)).
  - destruct Hs as [Hs|[(Hd & Ho & Hh) Hs]]; [left; by eapply keeps_drain|]. revert E. unfold drainWalCommits. rewrite bind_gets, bind_modify. unfold commitWalGroup.
    rewrite bind_gets. cbn [id set_queue flag]. rewrite Hh. intros [= <- <-]. rewrite acked_reject_all, app_nil_r. right. split; [done|].
    eapply keeps_same; [exact Hs|done..|]. by destruct Hs as (? & ? & ? & ? & [_ _ _ Hr] & _).
  - injection E as _ <-. destruct Hs as [Hs|[Hcl Hs]]; [left|right; split; [done|]];
      (eapply keeps_same; [exact Hs|done..|]; by destruct Hs as (? & ? & ? & ? & [_ _ _ Hr] & _)).
  - apply close_end_spec in E as ((Hd & Ho & Hh) & Hct & Hp). right. split; [done|].
    destruct Hs as [Hs|[_ Hs]]; (eapply keeps_same; [exact Hs|..|]); cbn [set_own own control position flag]; try done; try (by rewrite Ho); try (by intros [Hx _]; cbn in Hx; rewrite Ho in Hx).
    by destruct Hs as (? & ? & ? & ? & [[-> _ _ _ _ _ _] _ _ _] & _).
  - left. destruct Hs as [Hs|[_ Hs]]; by eapply keeps_crash.
Qed.

Lemma reachable_sound s a : wal_reachable s a -> sound s a.
Proof. induction 1 as [|s a s' a' _ IH Hst]; [apply sound_new|by eapply sound_step]. Qed.

(** ** Opening when nothing fails *)

Section Healthy.
Context (outside : nat -> outcome) (Hout : healthy outside).

Lemma io_done e s : io outside e s = (Ok tt, e (set_ticks (S (ticks s)) s)).
Proof. unfold io, tick. autorewrite with machine. by destruct (Hout (ticks s)) as [m ->]. Qed.

(** The options ask for a log like this one: the anchor, if there is one, is the
    frame before it or one of its frames. *)
Definition meets (base : Z) (pbase : bytes) (all : list entry_data) (r : recovery) : Prop :=
  (base = 1 -> pbase = ZERO32) /\
  match checkpointAnchor r with
  | None => base = 1
  | Some a => exists p, p `prefix_of` all /\ anchorSequence a = end_seq base p - 1 /\ anchorHash a = end_hash c base pbase p
  end.

Lemma frames_in f : forall base pbase all, In f (frames c base pbase all) -> exists p d, p ++ [d] `prefix_of` all /\
  f = frame_of c (end_seq base p) (end_hash c base pbase p) d.
Proof.
  intros base pbase all. revert base pbase. induction all as [|d all IH]; intros base pbase; [done|]. intros [<-|Hin].
  - exists [], d. unfold end_seq. cbn. rewrite Z.add_0_r. split; [|done]. by exists all.
  - apply IH in Hin as (p & e & [q ->] & ->). exists (d :: p), e. rewrite end_seq_cons. split; [by exists q|done].
Qed.

Lemma prefix_length_eq (p q all : list entry_data) : p `prefix_of` all -> q `prefix_of` all -> List.length p = List.length q -> p = q.
Proof.
  intros [x ->] [y Hy] Hl. by apply app_inj_1 in Hy as [-> _].
Qed.

Lemma meets_chain base pbase all r : log_ok c base pbase all -> meets base pbase all r -> exists ch, start_chain r base = Ok ch /\ at_link ch base pbase /\
  (forall f, In f (frames c base pbase all) -> anchored r f = true -> option_map anchorHash (checkpointAnchor r) = Some (walHash f)) /\
  (checkpointAnchor r <> None -> anchorVerified ch || existsb (anchored r) (frames c base pbase all) = true).
Proof.
  intros [_ Hst _ _] [Hz Hm]. unfold start_chain, anchored. destruct (checkpointAnchor r) as [a|].
  - destruct Hm as (p & [q ->] & Has & Hah). rewrite (proj2 (Z.ltb_ge _ base)) by (unfold end_seq in *; lia). cbn [throw_if bindR].
    eexists. split; [reflexivity|]. destruct (decide (p = [])) as [->|Hne].
    + unfold end_seq in Has. cbn in Has, Hah. rewrite (proj2 (Z.eqb_eq base _)) by lia. split; [split; [done|left; cbn; by rewrite Hah]|]. split; [|done].
      intros f Hin Heq. apply frames_in in Hin as (p & d & _ & ->). cbn in Heq. b2p. unfold end_seq in Heq. lia.
    + pose proof (end_seq_lt base p Hne).
      rewrite (proj2 (Z.eqb_neq base _)) by lia. split; [split; [done|]|split].
      * destruct (base =? 1) eqn:E; b2p; [left; by rewrite Hz|by right].
      * intros f Hin Heq. apply frames_in in Hin as (p' & d & Hpre & ->). cbn in Heq. b2p. cbn [option_map walHash frame_of]. f_equal. rewrite Hah.
        assert (Hp : p = p' ++ [d]).
        { eapply prefix_length_eq; [by exists q|exact Hpre|]. rewrite length_app. cbn. unfold end_seq in *. lia. }
        rewrite Hp, end_hash_app. done.
      * intros _. apply existsb_exists. destruct (exists_last Hne) as (p' & d & Hp). subst p. exists (frame_of c (end_seq base p') (end_hash c base pbase p') d).
        split; [|cbn; rewrite Has, end_seq_app; unfold end_seq; cbn; apply Z.eqb_eq; lia].
        rewrite !(frames_app c). apply in_or_app. left. apply in_or_app. right. by left.
  - rewrite Hm. cbn. eexists. split; [reflexivity|]. split; [split; [done|left; cbn; by rewrite Hz]|]. by split.
Qed.

Lemma feed_done r fs : forall ch s, (forall f, In f fs -> anchored r f = true -> option_map anchorHash (checkpointAnchor r) = Some (walHash f)) ->
  exists ch' s', feed (recover_frame outside r) fs ch s = (Ok ch', s').
Proof.
  induction fs as [|f fs IH]; intros ch s Hm; cbn [feed]; [by eexists _, _|]. unfold bindM at 1.
  destruct (recover_frame outside r f ch s) as [[ch1|e] s1] eqn:E; [apply IH; intros g Hg; apply Hm; by right|]. exfalso. revert E.
  unfold recover_frame. rewrite bind_lift. fold (replayed r f).
  assert (Hv : exists b, match checkpointAnchor r with
    | Some a => if negb (anchorVerified ch) && (sequence (head_of f) =? anchorSequence a)
        then throw_if (negb (bytes_eqb (walHash f) (anchorHash a))) RECOVERY_GAP_READ_ONLY ;;! Ok true else Ok (anchorVerified ch)
    | None => Ok (anchorVerified ch) end = Ok b).
  { specialize (Hm f (or_introl eq_refl)). unfold anchored in Hm. destruct (checkpointAnchor r) as [a|]; [|by eexists].
    destruct (anchorVerified ch); cbn [negb andb]; [by eexists|]. destruct (sequence (head_of f) =? anchorSequence a); [|by eexists].
    injection (Hm eq_refl) as ->. rewrite bytes_eqb_refl. by eexists. }
  destruct Hv as [b ->]. unfold bindM, apply_frame. destruct (replayed r f); [rewrite io_done|]; done.
Qed.

Lemma prepare_done s : exists s', prepare outside s = (Ok tt, s').
Proof. unfold prepare, call, syncWal. unfold bindM, modify. repeat rewrite io_done. by eexists. Qed.

Lemma truncate_done n s : exists s', truncateTornTail outside n s = (Ok tt, s').
Proof. unfold truncateTornTail, call, syncWal. unfold bindM. repeat rewrite io_done. by eexists. Qed.

Lemma recover_done r base pbase s segs lv tail k f : files c base pbase s segs lv tail k -> live (control s) = Some f ->
  base_known base pbase (concat segs ++ lv) -> meets base pbase (concat segs ++ lv) r -> exists s', recover outside r s = (Ok tt, s').
Proof.
  intros Hf Hl Hb Hm. pose proof Hf as [Ho Hs Hne Hok Hlv Ht _]. rewrite Hl in Hlv. destruct Hlv as [Hct _].
  destruct (meets_chain _ _ _ _ Hok Hm) as (ch0 & Hch & Hat & Hmatch & Hver). rewrite (frames_app c) in Hmatch, Hver.
  pose proof Hok as Hok'. apply (log_ok_app c digest_length) in Hok' as [Hoks Hoklv]. rewrite end_seq_app, end_hash_app in Ht.
  unfold recover. unfold bindM at 1. rewrite (enumerate_eq c digest_length base pbase segs) by done.
  unfold bindM at 1. rewrite (first_eq c digest_length Hc base pbase s segs lv tail k) by (done || by rewrite Hl). rewrite bind_lift, Hch.
  unfold bindM at 1. rewrite (recover_segments_eq c outside digest_length Hc r segs [] base pbase) by (done || constructor).
  destruct (feed_done r (frames c base pbase (concat segs)) ch0 s) as (ch1 & s1 & E1); [intros g Hg; apply Hmatch, in_or_app; by left|]. rewrite E1.
  pose proof (follows_link c _ _ _ _ (recover_follows outside r) _ _ _ _ Hat E1) as Hat1.
  apply feed_spec in E1 as [[Q1 Q2 Q3 Q4] (_ & _ & V1)]. autorewrite with machine. cbn [control on_position]. rewrite Q4, Hl, Hct.
  set (s2 := on_position _ s1).
  destruct (feed_done r (frames c (end_seq base (concat segs)) (end_hash c base pbase (concat segs)) lv) ch1 s2) as (ch2 & s3 & E2);
    [intros g Hg; apply Hmatch, in_or_app; by right|].
  assert (Hscan : exists n s4, scan_file outside (log c (end_seq base (concat segs)) (end_hash c base pbase (concat segs)) lv ++ tail)
    (blen (log c (end_seq base (concat segs)) (end_hash c base pbase (concat segs)) lv ++ tail)) false (recover_frame outside r) ch1 s2 = (Ok (n, ch2), s4)).
  { destruct (decide (tail = [])) as [->|Hnt].
    - rewrite app_nil_r, (scan_file_sealed c outside digest_length Hc); [|apply recover_follows|cbn; congruence|done..]. unfold bindM. rewrite E2. by eexists _, _.
    - rewrite (scan_file_live c outside digest_length Hc); [|apply recover_follows|cbn; congruence|done..]. unfold bindM. rewrite E2.
      destruct (truncate_done (blen (log c (end_seq base (concat segs)) (end_hash c base pbase (concat segs)) lv)) s3) as [s4 ->]. by eexists _, _. }
  destruct Hscan as (n & s4 & Hscan). unfold bindM at 1. rewrite Hscan. autorewrite with machine.
  apply feed_spec in E2 as [_ (_ & _ & V2)]. rewrite existsb_app, orb_assoc in Hver. rewrite V2, V1.
  destruct (checkpointAnchor r) as [a|]; [rewrite Hver by done|]; by eexists.
Qed.

Lemma open_wal_done r base pbase s segs lv tail k : files c base pbase s segs lv tail k -> closing (flag s) = false ->
  base_known base pbase (concat segs ++ lv) -> meets base pbase (concat segs ++ lv) r -> exists s', open_wal outside r s = (Ok tt, s').
Proof.
  intros Hf Hcl Hb Hm. rewrite open_wal_eq. unfold bindM at 1. destruct (prepare_done s) as [s1 E1]. rewrite E1.
  apply prepare_spec in E1 as [P1 O1]. destruct (O1 eq_refl) as [L1 _]. pose proof (prepared_files c _ _ _ _ _ _ _ _ Hf P1) as F1.
  unfold bindM at 1. destruct (recover_done r base pbase s1 segs lv tail k _ F1 L1 Hb Hm) as [s2 E2]. rewrite E2.
  eapply (recover_spec c outside digest_length Hc) in E2 as [[_ R2 _ _ _ _] _]; [|done..|].
  - unfold bindM at 1, call. rewrite io_done. rewrite bind_gets, bind_throw_if. cbn [id flag set_ticks]. rewrite R2.
    destruct P1 as [_ _ _ _ _ (_ & -> & _) _]. rewrite Hcl. by eexists.
  - destruct F1 as [_ _ _ Hok _ _ _]. destruct (meets_chain _ _ _ _ Hok Hm) as (ch & ? & ? & _). by exists ch.
Qed.

(** A new store on a directory that holds a log opens at its end. *)
Lemma open_done options r base pbase d segs lv tail k : normalizeOpenRecoveryOptions options = Ok r ->
  files c base pbase (newStore c d) segs lv tail k -> base_known base pbase (concat segs ++ lv) -> meets base pbase (concat segs ++ lv) r ->
  exists s', open outside options (newStore c d) = (Ok tt, s') /\ running s' /\ closing (flag s') = false /\ handle (flag s') = true /\ rootActive (flag s') = true /\
    files c base pbase s' segs lv [] (List.length lv) /\ ready c base pbase s' segs lv /\
    applied s' = List.filter (replayed r) (frames c base pbase (concat segs ++ lv)).
Proof.
  intros Hr Hf Hb Hm. unfold open. rewrite bind_gets. cbn [id newStore flag destroyed handle closing rootActive].
  rewrite bind_throw_if, bind_throw_if, bind_throw_if, bind_lift, Hr, bind_throw_if, bind_modify. unfold on_throw.
  set (s1 := set_rootActive true (newStore c d)).
  assert (F1 : files c base pbase s1 segs lv tail k) by (by eapply same_files).
  destruct (open_wal_done r base pbase s1 segs lv tail k F1 eq_refl Hb Hm) as [s' E]. rewrite E.
  eapply (open_wal_spec c outside digest_length Hc) in E as (_ & _ & _ & Hroot & O); [|exact F1| |exact Hb|].
  - destruct (O eq_refl) as (F2 & R2 & Hop & Hh & Hpo & _ & Hcl & Happ). exists s'. split; [done|]. split; [by split|]. done.
  - destruct Hb as [Hb|[-> ->]]; [by left|by right].
  - destruct F1 as [_ _ _ Hok _ _ _]. destruct (meets_chain _ _ _ _ Hok Hm) as (ch & ? & ? & _). by exists ch.
Qed.

End Healthy.

(** ** Nothing acknowledged is lost *)

(** C1: whatever happened before (openings, appends, group commits and closes in
    any order, every file operation, fault and callback free to fail, with or
    without its effect, and crashes that take what was not synced), a new store
    on what a crash leaves opens, gives the caller a chain of frames from
    genesis in which every acknowledged frame is found, in the order of the
    acknowledgements, and its writer stands at the end of that chain. *)
Theorem acknowledged_survive s acknowledged d outside :
  wal_reachable s acknowledged -> directory_survives (control s) d -> healthy outside ->
  exists ds s', open outside (VObj []) (newStore c d) = (Ok tt, s') /\ running s' /\ log_ok c 1 ZERO32 ds /\
    applied s' = frames c 1 ZERO32 ds /\ acknowledged `sublist_of` applied s' /\
    walSequence (position s') = Z.of_nat (List.length ds) /\ headHash (position s') = end_hash c 1 ZERO32 ds.
Proof.
  intros Hs Hd Hout. assert (Hr : wal_reachable (newStore c d) acknowledged) by (eapply reach_step; [exact Hs|by constructor]).
  apply reachable_sound in Hr as [(segs & lv & tail & k & [Hf _ _ _] & Ha)|[(? & _) _]]; [|done].
  destruct (open_done outside Hout (VObj []) (Recovery None false) 1 ZERO32 d segs lv tail k) as (s' & E & Hrun & _ & _ & _ & F & [_ Hp] & Happ);
    [done|done|by right|by split|]. exists (concat segs ++ lv), s'. split; [done|]. split; [done|]. split; [apply F|].
  assert (Hall : applied s' = frames c 1 ZERO32 (concat segs ++ lv)).
  { rewrite Happ. clear. generalize (frames c 1 ZERO32 (concat segs ++ lv)) as fs. induction fs as [|f fs IH]; cbn; [done|]. by rewrite IH. }
  split; [done|]. split; [rewrite Hall; etransitivity; [exact Ha|]; apply frames_prefix; unfold kept; apply prefix_app; exists (drop k lv); by rewrite take_drop|].
  rewrite Hp. cbn. unfold end_seq. split; [lia|done].
Qed.

(** C19: a group commit settles every promise of the queue, each one once: with
    an error, or with a frame that carries the type, the transaction, the bucket
    and the payload that were appended. Nothing is left in the queue. *)
Theorem every_append_settled s acknowledged outside res s' :
  wal_reachable s acknowledged -> drainWalCommits outside s = (res, s') ->
  exists x, res = Ok x /\ group_settled (walCommitQueue s) x /\ walCommitQueue s' = [].
Proof.
  intros Hs E. revert E. unfold drainWalCommits. rewrite bind_gets, bind_modify. intros E. apply reachable_sound in Hs as [(segs & lv & tail & k & Hh & _)|[(_ & _ & Hcl) _]].
  - assert (Hq : holds c 1 ZERO32 (set_queue [] s) segs lv tail k) by (eapply holds_same; [exact Hh|done..|apply Hh]).
    eapply (commit_spec c outside digest_length Hc) in E as (x & segs' & lv' & tail' & k' & ds & j & -> & Hx & [_ _ _ _ _ ->]); [|exact Hq].
    by exists x.
  - unfold commitWalGroup in E. rewrite bind_gets in E. cbn [id set_queue flag] in E. rewrite Hcl in E. injection E as <- <-.
    eexists. split; [reflexivity|]. split; [apply settled_all|done].
Qed.

End Laws.
