(* ===== verification/WalTermination.v ===== *)
(** * The loops of the write-ahead log end

    Scans and writes are given as much fuel as there are bytes, and one more.
    Here it is shown that they never use all of it, whatever the files hold and
    whatever the calls outside do. *)

From Stdlib Require Import ZArith Lia Bool List String Ascii.
From Stdlib Require Import Strings.Byte.
From stdpp Require Import base tactics list strings.
From S2P Require Import Prelude Codec CodecLaws Authority Hashes WriteAheadLog WalFrames.
Import Wal.

(** A computation that does not run out of fuel. *)
Definition ends {S A} (m : M S A) : Prop := forall s, fst (m s) <> Err OUT_OF_FUEL.

(** The same for a value. *)
Definition not_fuel {A} (r : result A) : Prop := r <> Err OUT_OF_FUEL.

Lemma ends_ret {S A} (x : A) : ends (S := S) (ret x).
Proof. done. Qed.

Lemma ends_bind {S A B} (m : M S A) (f : A -> M S B) : ends m -> (forall x, ends (f x)) -> ends (bindM m f).
Proof.
  intros Hm Hf s. unfold bindM. specialize (Hm s). destruct (m s) as [[x|e] s']; [apply Hf|]. cbn in *. congruence.
Qed.

Lemma ends_gets {S A} (f : S -> A) : ends (gets f).
Proof. done. Qed.

Lemma ends_modify {S} (f : S -> S) : ends (modify f).
Proof. done. Qed.

Lemma ends_throw {S A} e : e <> OUT_OF_FUEL -> ends (S := S) (throw (A := A) e).
Proof. intros He s [= Hs]. done. Qed.

Lemma ends_throw_if {S} b e : e <> OUT_OF_FUEL -> ends (S := S) (throwM_if b e).
Proof. intros He s. unfold throwM_if, throw, ret. destruct b; cbn; congruence. Qed.

Lemma ends_lift {S A} (r : result A) : not_fuel r -> ends (S := S) (lift r).
Proof. intros Hr s. unfold lift. by destruct r. Qed.

Lemma ends_if {S A} (b : bool) (m n : M S A) : ends m -> ends n -> ends (if b then m else n).
Proof. by destruct b. Qed.

Lemma ends_each {S A} (body : A -> M S unit) l : (forall x, ends (body x)) -> ends (each body l).
Proof. intros Hb. induction l as [|x l IH]; cbn [each]; [apply ends_ret|]. by apply ends_bind. Qed.

Create HintDb ends.
#[export] Hint Resolve ends_ret ends_bind ends_gets ends_modify ends_throw ends_throw_if ends_lift ends_if ends_each : ends.
#[export] Hint Extern 1 (_ <> OUT_OF_FUEL) => discriminate : ends.

(** Values: the errors of checks and of the codec. *)
Lemma not_fuel_bind {A B} (r : result A) (f : A -> result B) : not_fuel r -> (forall x, not_fuel (f x)) -> not_fuel (bindR r f).
Proof. intros Hr Hf. destruct r as [x|e]; [apply Hf|]. unfold not_fuel in *. cbn. congruence. Qed.

Lemma not_fuel_throw_if b e : e <> OUT_OF_FUEL -> not_fuel (throw_if b e).
Proof. unfold not_fuel, throw_if. destruct b; congruence. Qed.

Lemma not_fuel_if {A} (b : bool) (r r' : result A) : not_fuel r -> not_fuel r' -> not_fuel (if b then r else r').
Proof. by destruct b. Qed.

Lemma not_fuel_ok {A} (x : A) : not_fuel (Ok x).
Proof. done. Qed.

Lemma not_fuel_err {A} e : e <> OUT_OF_FUEL -> not_fuel (A := A) (Err e).
Proof. unfold not_fuel. congruence. Qed.

#[export] Hint Resolve not_fuel_bind not_fuel_throw_if not_fuel_if not_fuel_ok not_fuel_err : ends.

(** Splits on what a [match] looks at. *)
Ltac step := cbv zeta; match goal with
  | |- forall _, _ => intros ?
  | |- ends (bindM _ _) => apply ends_bind
  | |- ends (lift _) => apply ends_lift
  | |- ends (each _ _) => apply ends_each
  | |- not_fuel (bindR _ _) => apply not_fuel_bind
  | |- ends (match ?x with _ => _ end) => destruct x
  | |- not_fuel (match ?x with _ => _ end) => destruct x
  end.
Ltac finish := repeat first [solve [auto 3 with ends nocore] | step].

Lemma bytes_of_ends v n b : not_fuel (bytes_of v n b).
Proof. unfold bytes_of. finish. Qed.

Lemma asU64_ends v : not_fuel (Wal.asU64 v).
Proof. unfold Wal.asU64. finish. Qed.

Lemma boundedInteger_ends v lo hi : not_fuel (Wal.boundedInteger v lo hi).
Proof. unfold Wal.boundedInteger. finish. Qed.

#[export] Hint Resolve bytes_of_ends asU64_ends boundedInteger_ends : ends.

Lemma inspect_ends bs n : not_fuel (inspectBlindWalFrameV2Header bs n).
Proof. unfold inspectBlindWalFrameV2Header. finish. Qed.

#[export] Hint Resolve inspect_ends : ends.

Lemma segment_name_ends a b : not_fuel (walSealedSegmentName a b).
Proof. unfold walSealedSegmentName. finish. Qed.

Lemma parse_entries_ends l : not_fuel (parse_entries l).
Proof. induction l as [|[k f] l IH]; cbn [parse_entries]; finish. Qed.

Lemma check_gaps_ends l : not_fuel (check_gaps l).
Proof. induction l as [|a [|b l] IH]; cbn [check_gaps] in *; finish. Qed.

Lemma anchor_ends v : not_fuel (normalizeWalAnchorValue v).
Proof. unfold normalizeWalAnchorValue. finish. Qed.

#[export] Hint Resolve segment_name_ends parse_entries_ends check_gaps_ends anchor_ends : ends.

Lemma options_ends v : not_fuel (normalizeOpenRecoveryOptions v).
Proof. unfold normalizeOpenRecoveryOptions. finish. Qed.

Lemma start_chain_ends r n : not_fuel (start_chain r n).
Proof. unfold start_chain. finish. Qed.

#[export] Hint Resolve options_ends start_chain_ends : ends.

Section Outside.
Context `{Platform} (outside : nat -> outcome).

Lemma decode_ends bs n prev h m : not_fuel (decodeBlindWalFrameV2 bs n prev h m).
Proof. unfold decodeBlindWalFrameV2. finish. Qed.

Lemma io_ends e : ends (io outside e).
Proof. unfold io, tick. finish. Qed.

#[local] Hint Resolve decode_ends io_ends : ends.

Lemma call_ends : ends (call outside).
Proof. apply io_ends. Qed.

Lemma sync_ends : ends (syncWal outside).
Proof. apply io_ends. Qed.

#[local] Hint Resolve call_ends sync_ends : ends.

Lemma truncate_ends n : ends (truncateTornTail outside n).
Proof. unfold truncateTornTail. finish. Qed.

#[local] Hint Resolve truncate_ends : ends.

Lemma apply_ends f : ends (apply_frame outside f).
Proof. apply io_ends. Qed.

#[local] Hint Resolve apply_ends : ends.

(** A frame takes 224 bytes or more. *)
Lemma inspected_size bs n h : inspectBlindWalFrameV2Header bs n = Ok h -> 224 <= totalLength h.
Proof.
  unfold inspectBlindWalFrameV2Header. intros Hq. apply bindR_ok in Hq as (b & Hb & Hq). apply bytes_of_inv in Hb as ([= <-] & Hl & _).
  specialize (Hl _ eq_refl). change WAL_HEADER_BYTES with 192 in Hl. oks. b2p. cbn [totalLength]. match goal with E : readU32be bs 6 = _ |- _ => rewrite E end.
  rewrite readU32be_spec by lia. change WAL_MIN_FRAME_BYTES with 224. pose proof (be_val_range bs 92 4). lia.
Qed.

Lemma scan_ends onFrame bs size sealed : (forall f ch, ends (onFrame f ch)) -> forall fuel offset ch, Z.max 0 (size - offset) < Z.of_nat fuel ->
  ends (scanSegmentFrames outside fuel bs size sealed onFrame offset ch).
Proof.
  intros Hon. induction fuel as [|fuel IH]; intros offset ch Hfuel; cbn [scanSegmentFrames]; [lia|].
  apply ends_if; [finish|]. cbv zeta. set (torn := if sealed then _ else _). assert (Ht : ends torn) by (unfold torn; finish). clearbody torn.
    apply ends_if; [done|]. apply ends_if; [done|]. apply ends_bind; [apply ends_gets|intros o].
    intros s. rewrite bind_lift. destruct (inspectBlindWalFrameV2Header _ _) as [h|e] eqn:E; [|by specialize (inspect_ends (readAtMost bs offset WAL_HEADER_BYTES) (maximumWalPayloadBytes o)); rewrite E; intros ? [= ->]].
    apply inspected_size in E. revert s. destruct (size - offset <? totalLength h) eqn:El; [done|]. b2p. apply ends_if; [done|]. finish. apply IH. lia.
Qed.
Lemma scan_file_ends onFrame bs size sealed ch : (forall f ch, ends (onFrame f ch)) -> ends (scan_file outside bs size sealed onFrame ch).
Proof. intros Hon. apply scan_ends; [done|]. lia. Qed.

#[local] Hint Resolve scan_file_ends : ends.

Lemma recover_frame_ends r f ch : ends (recover_frame outside r f ch).
Proof. unfold recover_frame. finish. Qed.

Lemma prune_frame_ends a f ch : ends (prune_frame a f ch).
Proof. unfold prune_frame. finish. Qed.

#[local] Hint Resolve recover_frame_ends prune_frame_ends : ends.

Lemma replay_ends x onFrame ch : (forall f ch, ends (onFrame f ch)) -> ends (replaySealedWalSegment outside x onFrame ch).
Proof. intros Hon. unfold replaySealedWalSegment. finish. Qed.

#[local] Hint Resolve replay_ends : ends.

Lemma recover_segments_ends r l : forall ch, ends (recover_segments outside r l ch).
Proof. induction l as [|x l IH]; intros ch; cbn [recover_segments]; finish. Qed.

#[local] Hint Resolve recover_segments_ends : ends.

Lemma recover_ends r : ends (recover outside r).
Proof. unfold recover, enumerateWalSegments, peekLiveFirstSequence. finish. Qed.

#[local] Hint Resolve recover_ends : ends.

Lemma open_wal_ends r : ends (open_wal outside r).
Proof. unfold open_wal. finish. Qed.

Lemma on_throw_ends {A} (m : M store A) h : ends m -> ends (on_throw m h).
Proof. intros Hm s. unfold on_throw. specialize (Hm s). destruct (m s) as [[x|e] s']; done. Qed.

Lemma writeAll_ends buffer position : ends (writeAll outside buffer position).
Proof.
  unfold writeAll. assert (Hloop : forall fuel written, Z.max 0 (blen buffer - written) < Z.of_nat fuel -> ends (writeAll_loop outside fuel buffer position written)).
  { induction fuel as [|fuel IH]; intros written Hf; cbn [writeAll_loop]; [lia|]. destruct (written <? blen buffer) eqn:E; [|done]. b2p.
    apply ends_bind; [unfold tick; finish|intros o]. cbv zeta. set (n := match o with Done n | Fails n => _ end).
    assert (Hn : 0 <= n <= blen buffer - written) by (unfold n; destruct o; lia). clearbody n. apply ends_bind; [done|intros _].
    destruct o; [|by apply ends_throw]. intros s. rewrite bind_throw_if. destruct (n =? 0) eqn:En; [done|]. b2p. apply IH. lia. }
  apply Hloop. unfold blen. lia.
Qed.

(** C38: opening, pruning, sealing and writing end: whatever the directory holds
    (frames, garbage, files of any length), whatever options are given and
    whatever the calls outside do, the loops over frames and over the bytes to
    write never use the fuel they are given. *)
Theorem wal_loops_end options s buffer position :
  fst (open outside options s) <> Err OUT_OF_FUEL /\ fst (pruneWalSegments outside options s) <> Err OUT_OF_FUEL /\
  fst (sealLiveSegment outside s) <> Err OUT_OF_FUEL /\ fst (writeAll outside buffer position s) <> Err OUT_OF_FUEL.
Proof.
  split; [|split; [|split]]; [| | |apply writeAll_ends]; revert s.
  - change (ends (open outside options)). unfold open. finish. apply on_throw_ends, open_wal_ends.
  - change (ends (pruneWalSegments outside options)). unfold pruneWalSegments, verifyWalPruneAnchor, prune_segments. finish.
  - change (ends (sealLiveSegment outside)). unfold sealLiveSegment. finish.
Qed.

End Outside.
