(* ===== verification/WalPrune.v ===== *)
(** * Pruning: sealed segments go, what a checkpoint needs stays *)

From Stdlib Require Import ZArith Lia Bool List String Ascii.
From Stdlib Require Import Strings.Byte.
From stdpp Require Import base tactics list strings.
From S2P Require Import Prelude Codec CodecLaws Authority Hashes WriteAheadLog WalFrames WalLog WalScan WalStore WalCommit WalLaws.
Import Wal.

Section Prune.
Context `{Platform} (c : config) (outside : nat -> outcome).
Hypothesis digest_length : forall bs, blen (generichash bs) = 32.
Context (Hc : config_ok c).

(** ** The anchor *)

(** The anchor is a frame of the log, or the frame before it. *)
Definition names_frame (base : Z) (pbase : bytes) (all : list entry_data) (a : anchor) : Prop :=
  exists p, p `prefix_of` all /\ anchorSequence a = end_seq base p - 1 /\ anchorHash a = end_hash c base pbase p.

Lemma prune_frame_spec a f ch s res s' : prune_frame a f ch s = (res, s') -> s' = s /\
  forall ch', res = Ok ch' -> expectedSequence ch' = sequence (head_of f) + 1 /\ expectedPreviousWalHash ch' = Some (walHash f) /\
    (anchorVerified ch' = true -> anchorVerified ch = true \/ (sequence (head_of f) = anchorSequence a /\ walHash f = anchorHash a)).
Proof.
  unfold prune_frame. rewrite bind_lift. destruct (sequence (head_of f) =? anchorSequence a) eqn:E; b2p.
  - destruct (bytes_eqb (walHash f) (anchorHash a)) eqn:Eh; cbn; intros [= <- <-]; (split; [done|]); [|done].
    intros ch' [= <-]. apply bytes_eqb_eq in Eh. cbn. auto.
  - intros [= <- <-]. split; [done|]. intros ch' [= <-]. cbn. auto.
Qed.

Lemma prune_follows a : follows (prune_frame a).
Proof. intros f ch s ch' s' Hq. apply prune_frame_spec in Hq as [-> Hq]. destruct (Hq _ eq_refl) as (? & ? & _). done. Qed.

Lemma feed_prune a fs : forall ch s res s', feed (prune_frame a) fs ch s = (res, s') -> s' = s /\
  forall ch', res = Ok ch' -> anchorVerified ch' = true ->
    anchorVerified ch = true \/ exists f, In f fs /\ sequence (head_of f) = anchorSequence a /\ walHash f = anchorHash a.
Proof.
  induction fs as [|f fs IH]; intros ch s res s'; cbn [feed]; [intros [= <- <-]; split; [done|]; intros ch' [= <-]; auto|]. unfold bindM.
  destruct (prune_frame a f ch s) as [[ch1|e] s1] eqn:E; apply prune_frame_spec in E as [-> Hf]; [|by intros [= <- <-]].
  intros Hq. apply IH in Hq as [-> Hq]. split; [done|]. intros ch' -> Hv. destruct (Hq _ eq_refl Hv) as [Hv1|(g & Hg & Hg')].
  - destruct (Hf _ eq_refl) as (_ & _ & Hv'). destruct (Hv' Hv1) as [?|?]; [by left|]. right. exists f. split; [by left|done].
  - right. exists g. split; [by right|done].
Qed.

(** A frame found in a part of the log. *)
Lemma found_frame base pbase pre part post a f : In f (frames c (end_seq base pre) (end_hash c base pbase pre) part) ->
  sequence (head_of f) = anchorSequence a -> walHash f = anchorHash a -> names_frame base pbase (pre ++ part ++ post) a.
Proof.
  intros (p & d & [q ->] & ->)%frames_in Hs Hh. exists (pre ++ p ++ [d]). split; [exists (q ++ post); by rewrite <- !app_assoc|].
  cbn in Hs, Hh. rewrite <- Hs, <- Hh, !end_seq_app, !end_hash_app. split; [unfold end_seq; cbn; lia|done].
Qed.

(** Replaying one sealed segment of the directory. *)
Lemma replay_eq base pbase pre x post onFrame ch s : follows onFrame -> own s = c -> sealed (control s) = sealed_files c base pbase (pre ++ x :: post) ->
  log_ok c base pbase (concat (pre ++ x :: post)) -> nonempty (pre ++ x :: post) ->
  at_link ch (end_seq base (concat pre)) (end_hash c base pbase (concat pre)) ->
  let seq := end_seq base (concat pre) in
  replaySealedWalSegment outside (Segment (segment_name seq (end_seq seq x - 1)) seq (end_seq seq x - 1)) onFrame ch s =
  feed onFrame (frames c seq (end_hash c base pbase (concat pre)) x) ch s.
Proof.
  cbv zeta. intros Hf Ho Hs Hok Hne Ha. unfold replaySealedWalSegment. rewrite bind_gets. cbn [name]. rewrite Hs, sealed_files_app.
  rewrite concat_app in Hok. cbn [concat] in Hok. apply (log_ok_app c digest_length) in Hok as [Hpre Hok]. apply (log_ok_app c digest_length) in Hok as [Hx _].
  apply Forall_app in Hne as [Hnpre Hne]. apply Forall_cons in Hne as [Hnx _]. pose proof (end_seq_lt (end_seq base (concat pre)) x Hnx).
  destruct Hx as [Hxd Hxs Hxe Hxp]. cbn [sealed_files]. rewrite find_sealed.
  2:{ intros g. apply (names_fresh (end_seq base (concat pre))); [by apply (names_before_sealed c digest_length)|unfold MAX_U64 in *; lia..]. }
  cbn [contents]. unfold bindM. rewrite (scan_file_sealed c outside digest_length Hc); [|done|done|by split|done]. unfold bindM.
  by destruct (feed _ _ ch s) as [[ch'|] s'].
Qed.

Lemma find_segment base segs p x : List.find p (sealed_segments base segs) = Some x -> exists pre y post, segs = pre ++ y :: post /\
  x = Segment (segment_name (end_seq base (concat pre)) (end_seq (end_seq base (concat pre)) y - 1)) (end_seq base (concat pre))
        (end_seq (end_seq base (concat pre)) y - 1).
Proof.
  revert base. induction segs as [|y segs IH]; intros base; [done|]. cbn [sealed_segments List.find]. destruct (p _).
  - intros [= <-]. exists [], y, segs. assert (Hz : end_seq base (concat []) = base) by (unfold end_seq; cbn; lia). by rewrite Hz.
  - intros Hq. apply IH in Hq as (pre & z & post & -> & ->). exists (y :: pre), z, post. cbn [concat]. by rewrite end_seq_app.
Qed.

Lemma verify_spec base pbase s segs lv k a res s' : files c base pbase s segs lv [] k -> ready c base pbase s segs lv ->
  verifyWalPruneAnchor outside a s = (res, s') -> s' = s /\ (res = Ok tt -> names_frame base pbase (concat segs ++ lv) a).
Proof.
  intros [Ho Hs Hn Hok _ _ _] [Hl Hp]. unfold verifyWalPruneAnchor. rewrite bind_gets, Hp. cbn [walSequence headHash liveSegmentFirstSequence walOffset sealedWalSegments].
  destruct (anchorSequence a =? end_seq base (concat segs ++ lv) - 1) eqn:E1; b2p.
  { unfold throwM_if, lift. intros [= <- <-]. split; [done|]. intros Hq%throw_if_ok. b2p. apply bytes_eqb_eq in Hq. exists (concat segs ++ lv). done. }
  apply (log_ok_app c digest_length) in Hok as [Hoks Hoklv]. unfold bindM at 1. destruct (end_seq base (concat segs) <=? anchorSequence a).
  - rewrite bind_gets, Hl. cbn [contents]. unfold bindM at 1. rewrite (scan_file_sealed c outside digest_length Hc); [|apply prune_follows|done|done|split; [done|by right]].
    unfold bindM. destruct (feed _ _ _ s) as [[ch|e] s1] eqn:E; apply feed_prune in E as [-> Hv]; [|by intros [= <- <-]].
    cbn [ret]. unfold throwM_if, lift. intros [= <- <-]. split; [done|]. intros Hq%throw_if_ok. b2p. destruct (Hv _ eq_refl Hq) as [|(f & Hin & Hf & Hh)]; [done|].
    rewrite <- (app_nil_r lv). by eapply found_frame.
  - destruct (List.find _ _) as [x|] eqn:Ef; [|intros [= <- <-]; done]. apply find_segment in Ef as (pre & y & post & -> & ->).
    cbn [firstSequence]. rewrite (replay_eq base pbase pre y post); [|apply prune_follows|done..|split; [done|by right]].
    destruct (feed _ _ _ s) as [[ch|e] s1] eqn:E; apply feed_prune in E as [-> Hv]; [|by intros [= <- <-]].
    unfold throwM_if, lift. intros [= <- <-]. split; [done|]. intros Hq%throw_if_ok. b2p. destruct (Hv _ eq_refl Hq) as [|(f & Hin & Hf & Hh)]; [done|].
    rewrite concat_app. cbn [concat]. rewrite <- !app_assoc. by eapply found_frame.
Qed.

(** ** The segments that go *)

Lemma unlink_first seq prev x rest d : log_ok c seq prev x -> x <> [] -> nonempty rest -> log_ok c (end_seq seq x) (end_hash c seq prev x) (concat rest) ->
  sealed d = sealed_files c seq prev (x :: rest) ->
  unlink (segment_name seq (end_seq seq x - 1)) d = Directory (live d) (sealed_files c (end_seq seq x) (end_hash c seq prev x) rest).
Proof.
  intros Hx Hnx Hn Hok Hs. unfold unlink. rewrite Hs. cbn [sealed_files List.filter fst]. rewrite bytes_eqb_refl. cbn [negb]. f_equal.
  pose proof (name_range c seq x prev Hx Hnx) as Hname. pose proof (end_seq_lt seq x Hnx) as Hlt.
  assert (Hgen : forall n h, seq < n -> log_ok c n h (concat rest) ->
    List.filter (fun e => negb (bytes_eqb (fst e) (segment_name seq (end_seq seq x - 1)))) (sealed_files c n h rest) = sealed_files c n h rest).
  { clear -Hname Hn digest_length. induction rest as [|y rest IH]; intros n h Hn' Hok; [done|]. cbn [concat] in Hok. apply (log_ok_app c digest_length) in Hok as [Hy Hok].
    apply Forall_cons in Hn as [Hny Hn]. pose proof (end_seq_lt n y Hny). cbn [sealed_files List.filter fst].
    destruct (bytes_eqb _ _) eqn:E; [|cbn [negb]; f_equal; apply IH; [done|lia|done]]. exfalso. apply bytes_eqb_eq in E. revert Hname. rewrite <- E, (name_range c n y h Hy Hny).
    intros [= Hq _]. lia. }
  by apply Hgen.
Qed.

Lemma prunable_later a retain seq x rest : nonempty (x :: rest) -> prunable a retain (Segment (segment_name seq (end_seq seq x - 1)) seq (end_seq seq x - 1)) = false ->
  Forall (fun y => prunable a retain y = false) (sealed_segments (end_seq seq x) rest).
Proof.
  intros [Hx Hn]%Forall_cons Hp. assert (Hgen : forall n, end_seq seq x <= n -> Forall (fun y => prunable a retain y = false) (sealed_segments n rest)).
  { unfold prunable in *. cbn [lastSequence] in Hp. clear Hx. induction Hn as [|y rest Hy _ IH]; intros n Hle; [constructor|]. pose proof (end_seq_lt n y Hy).
    cbn [sealed_segments]. constructor; [|apply IH; lia]. cbn [lastSequence]. apply negb_false_iff, orb_true_iff in Hp. apply negb_false_iff, orb_true_iff.
    destruct Hp as [Hp|Hp]; b2p; [left|right]; [apply Z.ltb_lt|apply Z.leb_le]; lia. }
  by apply Hgen.
Qed.

Lemma prune_nothing a retain l s : Forall (fun y => prunable a retain y = false) l -> prune_segments outside a retain l s = (Ok tt, s).
Proof. induction 1 as [|y l Hy _ IH]; [done|]. unfold prune_segments in *. cbn [each]. unfold bindM. by rewrite Hy. Qed.

Record same_but_ticks (s s' : store) : Prop := {
  same_own : own s' = own s; same_flag : flag s' = flag s; same_queue : walCommitQueue s' = walCommitQueue s;
  same_control : control s' = control s; same_position : position s' = position s }.

Lemma call_quiet s res s' : call outside s = (res, s') -> same_but_ticks s s'.
Proof. unfold call. destruct (io_cases outside id s) as [E|[E|E]]; rewrite E; intros [= <- <-]; by split. Qed.

(** Pruning unlinks segments from the first on; when it throws, not all of them. *)
Lemma prune_segments_spec a retain segs : forall base pbase s res s', sealed (control s) = sealed_files c base pbase segs -> nonempty segs ->
  log_ok c base pbase (concat segs) -> prune_segments outside a retain (sealed_segments base segs) s = (res, s') ->
  exists pre post, segs = pre ++ post /\ Forall (fun x => prunable a retain x = true) (sealed_segments base pre) /\
    control s' = Directory (live (control s)) (sealed_files c (end_seq base (concat pre)) (end_hash c base pbase (concat pre)) post) /\
    own s' = own s /\ flag s' = flag s /\ position s' = position s /\ walCommitQueue s' = walCommitQueue s /\
    (res = Ok tt -> Forall (fun x => prunable a retain x = false) (sealed_segments (end_seq base (concat pre)) post)).
Proof.
  assert (Hstop : forall (segs : list (list entry_data)) base pbase (s : store), sealed (control s) = sealed_files c base pbase segs ->
    control s = Directory (live (control s)) (sealed_files c (end_seq base (concat [])) (end_hash c base pbase (concat [])) segs)).
  { intros segs0 base pbase s Hs. cbn. unfold end_seq. cbn. rewrite Z.add_0_r, <- Hs. by destruct (control s). }
  induction segs as [|x rest IH]; intros base pbase s res s' Hs Hn Hok.
  - intros [= <- <-]. exists [], []. split; [done|]. split; [constructor|]. split; [by apply Hstop|]. by split_and!.
  - unfold prune_segments in *. cbn [sealed_segments each]. destruct (prunable a retain _) eqn:Ep.
    2:{ intros Hq. pose proof (prunable_later _ _ _ _ _ Hn Ep) as Hlater. unfold bindM at 1 in Hq. cbn [ret] in Hq.
        pose proof (prune_nothing a retain _ s Hlater) as Hno. unfold prune_segments in Hno. rewrite Hno in Hq. injection Hq as <- <-.
        exists [], (x :: rest). split; [done|]. split; [constructor|]. split; [by apply Hstop|]. split_and!; try done. intros _. unfold end_seq at 1. cbn [concat List.length Z.of_nat].
        rewrite Z.add_0_r. by constructor. }
    cbn [concat] in Hok. apply (log_ok_app c digest_length) in Hok as [Hx Hok]. pose proof Hn as [Hnx Hn']%Forall_cons. cbn [name].
    set (e := on_control (unlink _)).
    assert (Hone : forall s2, control s2 = unlink (segment_name base (end_seq base x - 1)) (control s) -> x :: rest = [x] ++ rest /\
      Forall (fun x => prunable a retain x = true) (sealed_segments base [x]) /\
      control s2 = Directory (live (control s)) (sealed_files c (end_seq base (concat [x])) (end_hash c base pbase (concat [x])) rest)).
    { intros s2 ->. cbn [concat sealed_segments]. rewrite app_nil_r. split; [done|]. split; [by repeat constructor|]. by apply unlink_first. }
    unfold bindM at 1 2. destruct (io_cases outside e s) as [E|[E|E]]; rewrite E.
    2:{ intros [= <- <-]. exists [], (x :: rest). split; [done|]. split; [constructor|]. split; [by apply (Hstop (x :: rest) base pbase s)|]. by split_and!. }
    2:{ intros [= <- <-]. exists [x], rest. destruct (Hone (e (set_ticks (S (ticks s)) s)) eq_refl) as (? & ? & ?). by split_and!. }
    set (s1 := e _). assert (Hs1 : control s1 = unlink (segment_name base (end_seq base x - 1)) (control s)) by done. 
    assert (H1 : own s1 = own s /\ flag s1 = flag s /\ position s1 = position s /\ walCommitQueue s1 = walCommitQueue s) by done. clearbody s1. destruct H1 as (O1 & F1 & P1 & Q1).
    unfold bindM at 1. destruct (call outside s1) as [[[]|err] s2] eqn:E2; apply call_quiet in E2 as [O2 F2 Q2 C2 P2].
    2:{ intros [= <- <-]. exists [x], rest. destruct (Hone s2 ltac:(congruence)) as (? & ? & ?). split_and!; try done; congruence. }
    destruct (call outside s2) as [[[]|err] s3] eqn:E3; apply call_quiet in E3 as [O3 F3 Q3 C3 P3].
    2:{ intros [= <- <-]. exists [x], rest. destruct (Hone s3 ltac:(congruence)) as (? & ? & ?). split_and!; try done; congruence. }
    destruct (Hone s3 ltac:(congruence)) as (_ & Hpx & Hc3). cbn [concat] in Hc3. rewrite app_nil_r in Hc3. intros Hq. apply (IH (end_seq base x) (end_hash c base pbase x)) in Hq as (pre & post & -> & Hpre & Hct & O4 & F4 & P4 & Q4 & Hpost); [|by rewrite Hc3|done..].
    exists (x :: pre), post. split; [done|]. split; [cbn [sealed_segments] in *; apply Forall_cons in Hpx as [Hpx _]; by constructor|].
    cbn [concat]. rewrite end_seq_app, end_hash_app. split; [by rewrite Hct, Hc3|]. split_and!; try done; congruence.
Qed.

Lemma files_prune base pbase s s' pre post lv : files c base pbase s (pre ++ post) lv [] (List.length lv) -> own s' = own s ->
  control s' = Directory (live (control s)) (sealed_files c (end_seq base (concat pre)) (end_hash c base pbase (concat pre)) post) ->
  files c (end_seq base (concat pre)) (end_hash c base pbase (concat pre)) s' post lv [] (List.length lv).
Proof.
  intros [H1 H2 H3 H4 H5 H6 H7] Ho Hct. rewrite !concat_app, <- !app_assoc, ?end_seq_app, ?end_hash_app in *.
  apply (log_ok_app c digest_length) in H4 as [_ H4]. apply Forall_app in H3 as [_ H3]. split; rewrite ?Ho, ?Hct; try done; apply torn_nil.
Qed.

Lemma filter_pruned a retain base pre post : Forall (fun x => prunable a retain x = true) (sealed_segments base pre) ->
  Forall (fun x => prunable a retain x = false) (sealed_segments (end_seq base (concat pre)) post) ->
  List.filter (prunable a retain) (sealed_segments base (pre ++ post)) = sealed_segments base pre /\
  List.filter (fun x => negb (prunable a retain x)) (sealed_segments base (pre ++ post)) = sealed_segments (end_seq base (concat pre)) post.
Proof.
  rewrite sealed_segments_app, !List.filter_app. generalize (sealed_segments base pre), (sealed_segments (end_seq base (concat pre)) post). intros l m Hl Hm.
  assert (Hl' : List.filter (prunable a retain) l = l /\ List.filter (fun x => negb (prunable a retain x)) l = [])
    by (induction Hl as [|x l Hx _ [IH1 IH2]]; [done|]; cbn; by rewrite Hx, IH1, IH2).
  assert (Hm' : List.filter (prunable a retain) m = [] /\ List.filter (fun x => negb (prunable a retain x)) m = m)
    by (induction Hm as [|x m Hx _ [IH1 IH2]]; [done|]; cbn; by rewrite Hx, IH1, IH2).
  destruct Hl' as [-> ->], Hm' as [-> ->]. by rewrite app_nil_r.
Qed.

(** What goes is covered by the anchor. *)
Lemma pruned_covered a retain base pre : nonempty pre -> Forall (fun x => prunable a retain x = true) (sealed_segments base pre) ->
  pre = [] \/ end_seq base (concat pre) - 1 <= anchorSequence a.
Proof.
  intros _ Hp. destruct pre as [|x pre _] using rev_ind; [by left|]. right. rewrite sealed_segments_app in Hp. apply Forall_app in Hp as [_ Hp].
  cbn [sealed_segments] in Hp. apply Forall_cons in Hp as [Hp _]. unfold prunable in Hp. cbn [lastSequence] in Hp. apply negb_true_iff, orb_false_iff in Hp as [Hp _]. b2p.
  by rewrite concat_snoc, end_seq_app.
Qed.

(** Pruning, whatever the calls do: the directory holds a log that has lost its
    first segments; and when it succeeds the writer knows, and the anchor covers
    what is gone. *)
Lemma prune_spec base pbase s segs lv options res s' : files c base pbase s segs lv [] (List.length lv) -> ready c base pbase s segs lv ->
  pruneWalSegments outside options s = (res, s') ->
  exists pre post, segs = pre ++ post /\ own s' = own s /\ flag s' = flag s /\
    files c (end_seq base (concat pre)) (end_hash c base pbase (concat pre)) s' post lv [] (List.length lv) /\
    forall removed, res = Ok removed -> exists a retain, normalizeWalAnchorValue options.["checkpointAnchor"] = Ok a /\
      Wal.asU64 options.["retainFromSequence"] = Ok retain /\
      Forall (fun x => prunable a retain x = false) (sealed_segments (end_seq base (concat pre)) post) /\
      names_frame base pbase (concat segs ++ lv) a /\ (pre = [] \/ end_seq base (concat pre) - 1 <= anchorSequence a) /\
      removed = sealed_segments base pre /\
      ready c (end_seq base (concat pre)) (end_hash c base pbase (concat pre)) s' post lv.
Proof.
  intros Hf Hr. assert (Hz : end_seq base (concat []) = base) by (unfold end_seq; cbn; lia).
  assert (Hno : forall e, (Err e, s) = (res, s') -> exists pre post, segs = pre ++ post /\ own s' = own s /\ flag s' = flag s /\
    files c (end_seq base (concat pre)) (end_hash c base pbase (concat pre)) s' post lv [] (List.length lv) /\
    forall removed, res = Ok removed -> exists a retain, normalizeWalAnchorValue options.["checkpointAnchor"] = Ok a /\
      Wal.asU64 options.["retainFromSequence"] = Ok retain /\
      Forall (fun x => prunable a retain x = false) (sealed_segments (end_seq base (concat pre)) post) /\
      names_frame base pbase (concat segs ++ lv) a /\ (pre = [] \/ end_seq base (concat pre) - 1 <= anchorSequence a) /\
      removed = sealed_segments base pre /\
      ready c (end_seq base (concat pre)) (end_hash c base pbase (concat pre)) s' post lv).
  { intros e [= <- <-]. exists [], segs. by rewrite Hz. }
  unfold pruneWalSegments. rewrite bind_gets. cbn [id]. do 5 (rewrite bind_throw_if; match goal with |- context[if ?b then _ else _] => destruct b; [apply Hno|] end).
  rewrite bind_lift. destruct (normalizeWalAnchorValue _) as [a|e]; [|apply Hno]. rewrite bind_lift. destruct (Wal.asU64 _) as [retain|e] eqn:Eret; [|apply Hno].
  do 2 (rewrite bind_throw_if; match goal with |- context[if ?b then _ else _] => destruct b; [apply Hno|] end).
  unfold bindM at 1. destruct (verifyWalPruneAnchor outside a s) as [[[]|e] s1] eqn:E1; eapply verify_spec in E1 as [-> Hname]; try done; [|apply Hno]. specialize (Hname eq_refl).
  pose proof Hr as [Hl Hp]. pose proof Hf as [Ho Hs Hn Hok _ _ _]. apply (log_ok_app c digest_length) in Hok as [Hoks _]. rewrite Hp. cbn [sealedWalSegments].
  unfold bindM at 1. destruct (prune_segments outside a retain _ s) as [r2 s2] eqn:E2.
  eapply prune_segments_spec in E2 as (pre & post & -> & Hpre & Hct & Ho2 & Hf2 & Hp2 & _ & Hpost); [|done..].
  pose proof (files_prune _ _ _ s2 _ _ _ Hf Ho2 Hct) as F2. destruct r2 as [[]|e].
  - specialize (Hpost eq_refl). destruct (filter_pruned _ _ _ _ _ Hpre Hpost) as [Fpre Fpost]. rewrite bind_modify. intros [= <- <-]. exists pre, post.
    split; [done|]. split; [done|]. split; [done|]. split; [by eapply same_files|]. intros removed [= <-]. exists a, retain. split; [done|]. split; [done|]. split; [done|]. split; [done|].
    split; [apply Forall_app in Hn as [Hn _]; by eapply pruned_covered|]. split; [done|]. split; cbn [on_position control position].
    + by rewrite Hct, Hl, concat_app, end_seq_app, end_hash_app.
    + rewrite Hp2, Hp. cbn [walOffset walSequence headHash liveSegmentFirstSequence sealedWalSegments]. rewrite Fpost, !concat_app, <- !app_assoc, !end_seq_app, !end_hash_app. done.
  - intros [= <- <-]. exists pre, post. by rewrite Ho2.
Qed.

End Prune.

(** ** A pruned log opens with the anchor it was pruned for *)

Section Reopen.
Context `{Platform} (c : config).
Hypothesis digest_length : forall bs, blen (generichash bs) = 32.
Context (Hc : config_ok c).

(** The anchor names a frame of what is left. *)
Lemma names_later base pbase pre all a : names_frame c base pbase (pre ++ all) a -> (pre = [] \/ end_seq base pre - 1 <= anchorSequence a) ->
  names_frame c (end_seq base pre) (end_hash c base pbase pre) all a.
Proof.
  intros (p & Hp & Hs & Hh) Hle. assert (Hpre : exists q, p = pre ++ q /\ q `prefix_of` all).
  { destruct Hle as [->|Hle]; [by exists p|]. destruct (prefix_weak_total p pre (pre ++ all)) as [Hpp|[q ->]]; [done|by apply prefix_app_r| |].
    - exists []. rewrite app_nil_r. split; [|apply prefix_nil]. apply (prefix_length_eq _ _ pre); [done|done|]. apply prefix_length in Hpp. unfold end_seq in *. lia.
    - exists q. split; [done|]. by apply prefix_app_inv in Hp. }
  destruct Hpre as (q & -> & Hq). rewrite end_seq_app in Hs. rewrite end_hash_app in Hh. by exists q.
Qed.

(** The frames before a place have smaller sequences. *)
Lemma frames_below base pbase all f : In f (frames c base pbase all) -> base <= sequence (head_of f) < end_seq base all.
Proof.
  intros (p & d & [q ->] & ->)%frames_in. cbn. unfold end_seq. rewrite !length_app. cbn. lia.
Qed.

Lemma filter_after base pbase pre all n : (pre = [] \/ end_seq base pre - 1 <= n) ->
  List.filter (fun f => n <? sequence (head_of f)) (frames c base pbase (pre ++ all)) =
  List.filter (fun f => n <? sequence (head_of f)) (frames c (end_seq base pre) (end_hash c base pbase pre) all).
Proof.
  intros Hle. rewrite (frames_app c), List.filter_app. assert (Hnil : List.filter (fun f => n <? sequence (head_of f)) (frames c base pbase pre) = []); [|by rewrite Hnil].
  destruct Hle as [->|Hle]; [done|]. assert (Hall : Forall (fun f => n <? sequence (head_of f) = false) (frames c base pbase pre)).
  { apply List.Forall_forall. intros f Hf%frames_below. apply Z.ltb_ge. lia. }
  induction Hall as [|f l Hf _ IH]; cbn; [done|by rewrite Hf].
Qed.

(** C17: a store that stands at the end of its log is pruned with an anchor, and
    something of the log is left (a sealed segment, or frames in the live one).
    Then a new store on what a crash leaves opens with the same anchor: its
    writer is where the pruned store's is, at the head it had before pruning, and
    the caller is given exactly the frames after the anchor that the log had
    before it was pruned. *)
Theorem pruned_log_reopens base pbase s segs lv outside options removed s' d outside' :
  holds c base pbase s segs lv [] (List.length lv) -> running s -> (base = 1 -> pbase = ZERO32) ->
  pruneWalSegments outside options s = (Ok removed, s') ->
  sealedWalSegments (position s') <> [] \/ 0 < walOffset (position s') ->
  directory_survives (control s') d -> healthy outside' ->
  exists a s'', normalizeWalAnchorValue options.["checkpointAnchor"] = Ok a /\
    open outside' (VObj [("checkpointAnchor", options.["checkpointAnchor"])]) (newStore c d) = (Ok tt, s'') /\ running s'' /\
    position s'' = position s' /\ walSequence (position s'') = walSequence (position s) /\ headHash (position s'') = headHash (position s) /\
    applied s'' = List.filter (fun f => anchorSequence a <? sequence (head_of f)) (frames c base pbase (concat segs ++ lv)).
Proof.
  intros [Hf _ Hr _] Hrun Hz E Hleft Hd Hout. destruct (Hr Hrun) as (Hready & _ & _). pose proof Hready as [_ Hpos].
  apply (prune_spec c outside digest_length Hc base pbase s segs lv) in E as (pre & post & -> & _ & _ & F & Hok); [|done..]. destruct (Hok _ eq_refl) as (a & retain & Ha & _ & _ & Hname & Hcov & _ & [Hl' Hpos']).
  clear Hok. set (base' := end_seq base (concat pre)) in *. set (pbase' := end_hash c base pbase (concat pre)) in *.
  eapply (crash_files c digest_length) in F as (j & tail' & Hj & F'); [|exact Hd]. rewrite take_ge in F' by done.
  assert (Hcov' : concat pre = [] \/ base' - 1 <= anchorSequence a) by (destruct Hcov as [->|]; [by left|by right]).
  rewrite concat_app, <- app_assoc in Hname. apply names_later in Hname; [|done].
  assert (Hne : concat post ++ lv <> []).
  { rewrite Hpos' in Hleft. cbn [sealedWalSegments walOffset] in Hleft. destruct Hleft as [Hleft|Hleft].
    - destruct post as [|x post]; [done|]. destruct F' as [_ _ [Hx _]%Forall_cons _ _ _ _]. cbn. by destruct x.
    - destruct lv; [cbn in Hleft; rewrite blen_nil in Hleft; lia|]. by destruct (concat post). }
  destruct (open_done c digest_length Hc outside' Hout (VObj [("checkpointAnchor", options.["checkpointAnchor"])]) (Recovery (Some a) false) base' pbase' d post lv tail' (List.length lv))
    as (s'' & Eo & Hrun'' & _ & _ & _ & _ & [_ Hpos''] & Happ); [|done|by left| |].
  - cbn. unfold normalizeWalAnchorValue in *. revert Ha. destruct (options.["checkpointAnchor"]); try done; by intros ->.
  - split; [|done]. intros Hb. unfold base', pbase' in *. destruct Hf as [_ _ Hn [_ Hst _ _] _ _ _]. apply Forall_app in Hn as [Hn _].
    destruct pre as [|x pre]; [apply Hz; cbn in Hb; unfold end_seq in Hb; cbn in Hb; lia|]. exfalso. apply Forall_cons in Hn as [Hx _]. pose proof (end_seq_lt base x Hx).
    cbn [concat] in Hb. rewrite end_seq_app in Hb. unfold end_seq in *. lia.
  - exists a, s''. split; [done|]. split; [exact Eo|]. split; [done|]. split; [by rewrite Hpos'', Hpos'|].
    rewrite Hpos'', Hpos. cbn [walSequence headHash]. unfold base', pbase'. rewrite concat_app, <- app_assoc, !(end_seq_app base (concat pre)), !(end_hash_app c base pbase (concat pre)).
    split; [done|]. split; [done|]. rewrite Happ, filter_after by done. done.
Qed.

(** ** When nothing is left *)

Lemma prune_segments_done outside a retain l : healthy outside -> forall s, exists s', prune_segments outside a retain l s = (Ok tt, s').
Proof.
  intros Hout. unfold prune_segments. induction l as [|x l IH]; intros s; cbn [each]; [by eexists|]. unfold bindM, call. destruct (prunable a retain x); [|apply IH].
  do 3 rewrite (io_done outside Hout). apply IH.
Qed.

(** Opening an empty log with an anchor. *)
Lemma open_empty outside options r a d : healthy outside -> normalizeOpenRecoveryOptions options = Ok r -> checkpointAnchor r = Some a ->
  1 <= anchorSequence a -> files c 1 ZERO32 (newStore c d) [] [] [] 0 ->
  exists s', open outside options (newStore c d) = (Err RECOVERY_GAP_READ_ONLY, s').
Proof.
  intros Hout Hr Ha Hle Hf. unfold open. rewrite bind_gets. cbn [id newStore flag destroyed handle closing rootActive].
  rewrite bind_throw_if, bind_throw_if, bind_throw_if, bind_lift, Hr, bind_throw_if, bind_modify. unfold on_throw.
  set (s1 := set_rootActive true (newStore c d)). rewrite open_wal_eq. destruct (prepare_done outside Hout s1) as [s2 E2]. unfold bindM at 1. rewrite E2.
  apply prepare_spec in E2 as [P2 O2]. destruct (O2 eq_refl) as [L2 _]. assert (F1 : files c 1 ZERO32 s1 [] [] [] 0) by (by eapply same_files).
  pose proof (prepared_files c _ _ _ _ _ _ _ _ F1 P2) as F2. pose proof F2 as [Ho Hs Hn Hok Hl _ _].
  rewrite L2 in Hl. destruct Hl as [Hct _]. set (f := sync_file _) in *.
  unfold recover. unfold bindM at 1 2. rewrite (enumerate_eq c digest_length 1 ZERO32 [] s2 Hs Hok Hn). unfold bindM at 1.
  rewrite (first_eq c digest_length Hc 1 ZERO32 s2 [] [] [] 0) by (done || (by rewrite L2) || by right). rewrite bind_lift.
  unfold start_chain. rewrite Ha, (proj2 (Z.ltb_ge _ 1)), (proj2 (Z.eqb_neq 1 _)) by lia. cbn [throw_if bindR sealed_segments recover_segments].
  rewrite bind_ret, bind_modify, bind_gets. cbn [on_position control]. rewrite L2, Hct. by eexists.
Qed.

(** C39: when the live segment is empty (as it is after a rollover that was cut
    short) a prune anchored at the head, with a horizon past it, succeeds and
    removes every segment, and with them the log: a new store refuses to open
    with that anchor, and without an anchor it opens as if nothing had ever been
    written. *)
Theorem empty_live_segment_strands base pbase s segs outside m :
  holds c base pbase s segs [] [] 0 -> running s -> handle (flag s) = true -> closing (flag s) = false -> segs <> [] -> healthy outside ->
  isZero (headHash (position s)) = false -> walSequence (position s) < m <= MAX_U64 ->
  let anchor := VObj [("sequence", VBig (walSequence (position s))); ("hash", VBytes (headHash (position s)))] in
  exists s', pruneWalSegments outside (VObj [("checkpointAnchor", anchor); ("retainFromSequence", VBig m)]) s = (Ok (sealedWalSegments (position s)), s') /\
    walSequence (position s') = walSequence (position s) /\
    forall d outside', directory_survives (control s') d -> healthy outside' ->
      (exists s'', open outside' (VObj [("checkpointAnchor", anchor)]) (newStore c d) = (Err RECOVERY_GAP_READ_ONLY, s'')) /\
      (exists s'', open outside' (VObj []) (newStore c d) = (Ok tt, s'') /\ walSequence (position s'') = 0 /\ applied s'' = []).
Proof.
  intros [Hf _ Hr _] Hrun Hh Hcl Hne Hout Hz Hm anchor. destruct (Hr Hrun) as (Hready & _ & _). pose proof Hready as [Hl Hp]. pose proof Hf as [_ _ Hn Hok _ _ _].
  rewrite !app_nil_r in *. destruct Hok as [_ Hst Hen Hpb]. assert (Hws : walSequence (position s) = end_seq base (concat segs) - 1) by (by rewrite Hp).
  assert (Hhh : headHash (position s) = end_hash c base pbase (concat segs)) by (by rewrite Hp).
  assert (Hpos : 1 <= walSequence (position s)).
  { rewrite Hws. destruct segs as [|x segs]; [done|]. apply Forall_cons in Hn as [Hx _]. cbn [concat]. rewrite end_seq_app. pose proof (end_seq_lt base x Hx). unfold end_seq in *. lia. }
  assert (Ha : normalizeWalAnchorValue anchor = Ok (Anchor (walSequence (position s)) (headHash (position s)))).
  { unfold normalizeWalAnchorValue, anchor. cbn [throw_if bindR get assoc String.eqb Ascii.eqb Bool.eqb]. rewrite asU64_of by lia. cbn [bindR].
    rewrite (proj2 (Z.eqb_neq _ 0)) by lia. cbn [throw_if bindR]. rewrite wal_bytes_ok; [done| |done]. rewrite Hhh. by apply (end_hash_length c digest_length). }
  set (options := VObj _). destruct (pruneWalSegments outside options s) as [res s'] eqn:E. pose proof E as Hspec.
  apply (prune_spec c outside digest_length Hc base pbase s segs []) in Hspec as (pre & post & -> & _ & _ & F & Hres); [|done..].
  assert (Hres' : exists removed, res = Ok removed).
  { revert E. unfold pruneWalSegments. rewrite bind_gets. cbn [id]. destruct Hrun as [Hop Hpo]. rewrite Hh, Hop, Hcl, Hpo.
    unfold options. cbn [negb orb]. do 5 rewrite bind_throw_if. cbn [existsb fst String.eqb Ascii.eqb Bool.eqb orb negb get assoc].
    rewrite bind_lift, Ha, bind_lift, asU64_of by lia. rewrite bind_throw_if, (proj2 (Z.eqb_neq m 0)) by lia. rewrite bind_throw_if. cbn [anchorSequence]. rewrite Z.ltb_irrefl.
    unfold bindM at 1, verifyWalPruneAnchor. rewrite bind_gets. cbn [anchorSequence anchorHash]. rewrite Z.eqb_refl, bytes_eqb_refl. cbn [negb throwM_if throw_if lift].
    destruct (prune_segments_done outside (Anchor (walSequence (position s)) (headHash (position s))) m (sealedWalSegments (position s)) Hout s) as [s2 E2].
    unfold bindM at 1. rewrite E2. rewrite bind_modify. intros [= <- _]. by eexists. }
  destruct Hres' as [removed ->]. destruct (Hres _ eq_refl) as (a & retain & Ha' & Hret & Hpost & _ & _ & -> & [Hl' Hp']).
  cbn [options get assoc String.eqb Ascii.eqb Bool.eqb] in Ha', Hret. rewrite Ha in Ha'. injection Ha' as <-. rewrite asU64_of in Hret by lia. injection Hret as <-.
  assert (post = []) as ->.
  { destruct post as [|x post]; [done|]. exfalso. cbn [sealed_segments] in Hpost. apply Forall_cons in Hpost as [Hx _]. unfold prunable in Hx. cbn [anchorSequence lastSequence] in Hx.
    rewrite Hws, concat_app in Hx, Hm. cbn [concat] in Hx, Hm. rewrite !end_seq_app in Hx, Hm. set (n := end_seq (end_seq base (concat pre)) x) in *.
    assert (n <= end_seq n (concat post)) by (unfold end_seq; lia). apply negb_false_iff, orb_true_iff in Hx as [Hx|Hx]; b2p; lia. }
  rewrite app_nil_r in *. exists s'. split; [by rewrite Hp|]. split; [rewrite Hp', Hws; unfold end_seq; cbn; lia|]. intros d outside' Hd Hout'.
  eapply (crash_files c digest_length) in F as (j & tail' & _ & [_ Hs' _ _ Hl'' _ _]); [|exact Hd]. cbn [newStore control] in Hs', Hl''.
  destruct Hd as [Hdl _]. rewrite Hl' in Hdl. inversion Hdl as [? f' (n & Hn' & ->) He1 He2|]; subst.
  assert (F0 : files c 1 ZERO32 (newStore c d) [] [] [] 0).
  { split; cbn [newStore own control]; try done; [apply List.Forall_nil| |apply torn_nil]. rewrite <- He2. cbn in *. split; [by rewrite take_nil|]. cbn. rewrite take_nil. unfold blen in *. cbn in *. lia. }
  split.
  - apply (open_empty outside' _ (Recovery (Some (Anchor (walSequence (position s)) (headHash (position s)))) false) (Anchor (walSequence (position s)) (headHash (position s))));
      [done| |done|done|done]. unfold normalizeOpenRecoveryOptions. cbn -[normalizeWalAnchorValue anchor]. change (nullish anchor) with false. cbv iota. by rewrite Ha.
  - destruct (open_done c digest_length Hc outside' Hout' (VObj []) (Recovery None false) 1 ZERO32 d [] [] [] 0) as (s'' & Eo & _ & _ & _ & _ & _ & [_ Hp''] & Happ);
      [done|done|by right|by split|]. exists s''. split; [done|]. split; [by rewrite Hp''|done].
Qed.

End Reopen.
