(* ===== verification/WalDemo.v ===== *)
(** * The write-ahead log on concrete stores

    Each theorem on the log is applied here to a store that the definitions
    compute. *)

From Stdlib Require Import ZArith Lia Bool List String Ascii.
From Stdlib Require Import Strings.Byte.
From stdpp Require Import base tactics list strings.
From S2P Require Import Prelude Codec CodecLaws DemoPlatform Authority Hashes WriteAheadLog WalFrames WalLog WalScan WalStore WalCommit WalLaws WalPrune.
Import Wal.

#[local] Existing Instance demo_platform.

Definition demo_config : config := Config 1 (replicate 32 Byte.x01) (replicate 32 Byte.x02) 1024 65536.
Definition demo_data : entry_data := Data 1 (replicate 32 Byte.x07) 3 [Byte.x2a].
Definition demo_member : member :=
  Member (VObj [("type", VNum 1); ("transactionId", VBytes (replicate 32 Byte.x07)); ("virtualBucket", VNum 3); ("payload", VBytes [Byte.x2a])]) None true.
Definition demo_outside (n : nat) : outcome := Done 1000000.

Lemma demo_config_ok : config_ok demo_config.
Proof. by repeat split. Qed.

Lemma demo_data_ok : data_ok demo_config demo_data.
Proof. by repeat split. Qed.

Lemma demo_healthy : healthy demo_outside.
Proof. intros n. by eexists. Qed.

Lemma demo_length bs : blen (generichash bs) = 32.
Proof. apply demo_digest_length. Qed.

(** ** A store that has been opened and has committed one member *)

Definition demo_opened : store := snd (open demo_outside (VObj []) (newStore demo_config (Directory None []))).
Definition demo_queued : store := snd (append demo_member demo_opened).
Definition demo_settled : settled := match fst (drainWalCommits demo_outside demo_queued) with Ok x => x | Err _ => [] end.
Definition demo_committed : store := snd (drainWalCommits demo_outside demo_queued).

Lemma demo_queued_reachable : wal_reachable demo_config demo_queued [].
Proof.
  eapply reach_step; [eapply reach_step; [apply reach_new|]|].
  - eapply (step_open _ demo_outside (VObj [])). apply surjective_pairing.
  - eapply (step_append _ demo_member). apply surjective_pairing.
Qed.

Lemma demo_drains : drainWalCommits demo_outside demo_queued = (Ok demo_settled, demo_committed).
Proof. vm_compute. reflexivity. Qed.

Lemma demo_committed_reachable : wal_reachable demo_config demo_committed (acked demo_settled).
Proof. eapply reach_step; [apply demo_queued_reachable|]. apply (step_drain _ demo_outside demo_queued [] demo_settled), demo_drains. Qed.

Lemma survives_same d : option_Forall2 (fun f _ => synced f <= blen (contents f)) (live d) (live d) ->
  Forall (fun e => synced (snd e) <= blen (contents (snd e))) (sealed d) -> directory_survives d d.
Proof.
  assert (Hf : forall f, synced f <= blen (contents f) -> file_survives f f).
  { intros f Hs. exists (blen (contents f)). split; [lia|]. unfold blen. rewrite Nat2Z.id, take_ge by done. by destruct f. }
  intros Hl Hs. split.
  - destruct (live d) as [f|]; constructor. inversion Hl. by apply Hf.
  - induction Hs; constructor; auto.
Qed.

Lemma demo_survives : directory_survives (control demo_committed) (control demo_committed).
Proof. apply survives_same; vm_compute; by repeat constructor. Qed.

Lemma acknowledged_survive_witness : List.length (acked demo_settled) = 1%nat /\
  exists ds s', open demo_outside (VObj []) (newStore demo_config (control demo_committed)) = (Ok tt, s') /\ running s' /\ log_ok demo_config 1 ZERO32 ds /\
    applied s' = frames demo_config 1 ZERO32 ds /\ acked demo_settled `sublist_of` applied s' /\
    walSequence (position s') = Z.of_nat (List.length ds) /\ headHash (position s') = end_hash demo_config 1 ZERO32 ds.
Proof.
  split; [vm_compute; reflexivity|].
  exact (acknowledged_survive demo_config demo_length demo_config_ok demo_committed (acked demo_settled) (control demo_committed) demo_outside
    demo_committed_reachable demo_survives demo_healthy).
Defined.

Lemma every_append_settled_witness : List.length (walCommitQueue demo_queued) = 1%nat /\
  exists x, Ok demo_settled = Ok x /\ group_settled (walCommitQueue demo_queued) x /\ walCommitQueue demo_committed = [].
Proof.
  split; [vm_compute; reflexivity|].
  exact (every_append_settled demo_config demo_length demo_config_ok demo_queued [] demo_outside _ _ demo_queued_reachable demo_drains).
Defined.

Definition demo_frame : frame := frame_of demo_config 1 ZERO32 demo_data.

Lemma wal_frame_exact_witness : let bs := wire demo_config 1 ZERO32 demo_data in blen bs = 225 /\
  (decodeBlindWalFrameV2 bs 1 ZERO32 (store_durabilityContinuityHash demo_config) (maximumWalPayloadBytes demo_config) = Ok demo_frame /\ ours demo_config demo_frame <->
   encodeWalFrame (frame_object demo_config (VNum (type (head_of demo_frame))) (VBytes (transactionId (head_of demo_frame))) (VNum (virtualBucket (head_of demo_frame)))
     (VBytes (payload demo_frame)) 1 ZERO32) (maximumWalPayloadBytes demo_config) = Ok bs /\
   demo_frame = Frame (Header (type (head_of demo_frame)) (blen bs) (blen (payload demo_frame)) 1 (transactionId (head_of demo_frame)) (virtualBucket (head_of demo_frame))
     (store_mapGeneration demo_config) (store_ownerFenceTokenHash demo_config) ZERO32 (store_durabilityContinuityHash demo_config) (Hash.blake2b256 (payload demo_frame)))
     (payload demo_frame) (frameHash bs) (blen bs)).
Proof.
  split; [vm_compute; reflexivity|].
  exact (wal_frame_exact demo_config demo_length demo_config_ok 1 ZERO32 (wire demo_config 1 ZERO32 demo_data) demo_frame).
Defined.

(** ** Stores with a sealed segment *)

(** A directory with one sealed segment of one frame, and these entries live. *)
Definition demo_directory (lv : list entry_data) : directory :=
  let L := log demo_config 2 (frameHash (wire demo_config 1 ZERO32 demo_data)) lv in
  Directory (Some (File L (blen L))) (sealed_files demo_config 1 ZERO32 [[demo_data]]).

Definition demo_two (lv : list entry_data) : store := snd (open demo_outside (VObj []) (newStore demo_config (demo_directory lv))).

Lemma demo_two_holds lv : Forall (data_ok demo_config) lv -> Z.of_nat (List.length lv) < 1000 ->
  holds demo_config 1 ZERO32 (demo_two lv) [[demo_data]] lv [] (List.length lv) /\ running (demo_two lv) /\ closing (flag (demo_two lv)) = false /\ handle (flag (demo_two lv)) = true.
Proof.
  intros Hlv Hlen. assert (F : files demo_config 1 ZERO32 (newStore demo_config (demo_directory lv)) [[demo_data]] lv [] (List.length lv)).
  { split; cbn [newStore own control demo_directory live sealed]; try done.
    - by repeat constructor.
    - split; [constructor; [apply demo_data_ok|done]|lia|unfold end_seq, MAX_U64; cbn [concat app List.length]; lia|done].
    - split; [by rewrite app_nil_r|]. rewrite take_ge by done. done.
    - apply torn_nil. }
  destruct (open_done demo_config demo_length demo_config_ok demo_outside demo_healthy (VObj []) (Recovery None false) 1 ZERO32 (demo_directory lv) _ _ _ _ eq_refl F)
    as (s' & E & Hrun & Hcl & Hh & Hroot & F' & R & _); [by right|by split|].
  assert (Hs : demo_two lv = s') by (unfold demo_two; rewrite E; reflexivity). rewrite Hs. clear E Hs F.
  split; [|exact (conj Hrun (conj Hcl Hh))]. split; [exact F'|left; discriminate|intros _; exact (conj R (conj eq_refl eq_refl))|intros _; exact Hroot].
Qed.

(** The anchor is the frame of the sealed segment. *)
Definition demo_anchor : val := VObj [("sequence", VBig 1); ("hash", VBytes (frameHash (wire demo_config 1 ZERO32 demo_data)))].
Definition demo_prune : val := VObj [("checkpointAnchor", demo_anchor); ("retainFromSequence", VBig 2)].
Definition demo_pruned : store := snd (pruneWalSegments demo_outside demo_prune (demo_two [demo_data])).
Definition demo_removed : list segment := sealed_segments 1 [[demo_data]].

Lemma demo_prunes : pruneWalSegments demo_outside demo_prune (demo_two [demo_data]) = (Ok demo_removed, demo_pruned).
Proof. vm_compute. reflexivity. Qed.

Lemma demo_pruned_survives : directory_survives (control demo_pruned) (control demo_pruned).
Proof. apply survives_same; vm_compute; by repeat constructor. Qed.

Lemma pruned_log_reopens_witness : List.length demo_removed = 1%nat /\
  exists a s'', normalizeWalAnchorValue demo_prune.["checkpointAnchor"] = Ok a /\
    open demo_outside (VObj [("checkpointAnchor", demo_prune.["checkpointAnchor"])]) (newStore demo_config (control demo_pruned)) = (Ok tt, s'') /\ running s'' /\
    position s'' = position demo_pruned /\ walSequence (position s'') = walSequence (position (demo_two [demo_data])) /\
    headHash (position s'') = headHash (position (demo_two [demo_data])) /\
    applied s'' = List.filter (fun f => anchorSequence a <? sequence (head_of f)) (frames demo_config 1 ZERO32 (concat [[demo_data]] ++ [demo_data])).
Proof.
  destruct (demo_two_holds [demo_data]) as (Hh & Hrun & _); [by repeat constructor|done|]. split; [vm_compute; reflexivity|].
  refine (pruned_log_reopens demo_config demo_length demo_config_ok 1 ZERO32 (demo_two [demo_data]) [[demo_data]] [demo_data] demo_outside demo_prune demo_removed demo_pruned
    (control demo_pruned) demo_outside Hh Hrun (fun _ => eq_refl) demo_prunes _ demo_pruned_survives demo_healthy).
  right. vm_compute. reflexivity.
Defined.

Lemma empty_live_segment_strands_witness : let s := demo_two [] in
  let anchor := VObj [("sequence", VBig (walSequence (position s))); ("hash", VBytes (headHash (position s)))] in
  List.length (sealedWalSegments (position s)) = 1%nat /\
  exists s', pruneWalSegments demo_outside (VObj [("checkpointAnchor", anchor); ("retainFromSequence", VBig 2)]) s = (Ok (sealedWalSegments (position s)), s') /\
    walSequence (position s') = walSequence (position s) /\
    forall d outside', directory_survives (control s') d -> healthy outside' ->
      (exists s'', open outside' (VObj [("checkpointAnchor", anchor)]) (newStore demo_config d) = (Err RECOVERY_GAP_READ_ONLY, s'')) /\
      (exists s'', open outside' (VObj []) (newStore demo_config d) = (Ok tt, s'') /\ walSequence (position s'') = 0 /\ applied s'' = []).
Proof.
  destruct (demo_two_holds []) as (Hh & Hrun & Hcl & Hha); [constructor|done|]. split; [vm_compute; reflexivity|].
  refine (empty_live_segment_strands demo_config demo_length demo_config_ok 1 ZERO32 (demo_two []) [[demo_data]] demo_outside 2 Hh Hrun Hha Hcl _ demo_healthy _ _).
  - discriminate.
  - vm_compute. reflexivity.
  - vm_compute. by split.
Defined.
