(* ===== verification/SecretSharing.v ===== *)
(** * Publicly verifiable secret sharing (packages/core/core/pvss.js and
      packages/client/secret-sharing.js)

    A dealer splits a secret scalar into shares encrypted to their holders; a
    relay checks an encrypted share against public commitments; enough decrypted
    shares give the secret point back. The two files have the same helpers, word
    for word; they are written once here.

    The curve (@noble/secp256k1) is the class [Curve]: its points, their sum,
    multiplication by a scalar, and their hexadecimal form, each as the source
    calls it. [crypto_generichash] is the platform's. Random bytes are a hook,
    numbered by call. The text of an object given where a string is meant
    is a parameter. *)

From Stdlib Require Import ZArith Lia Bool List String Ascii.
From Stdlib Require Import Strings.Byte.
From stdpp Require Import base tactics list strings.
From S2P Require Import Prelude Codec.

(** The part of @noble/secp256k1 that the source uses. *)
Class Curve := {
  point : Type;
  (** [Point.BASE] *)
  BASE : point;
  (** [P.add(Q)] *)
  point_add : point -> point -> point;
  (** [P.multiply(n)] *)
  multiply : point -> Z -> result point;
  (** [P.toHex(true)] *)
  toHex : point -> result string;
  (** [Point.fromHex(h)] on a string *)
  fromHex : string -> result point
}.

Module Pvss.

Definition N : Z := 0xFFFFFFFFFFFFFFFFFFFFFFFFFFFFFFFEBAAEDCE6AF48A03BBFD25E8CD0364141.
Definition KEY_DOMAIN : string := "hiverelay-pvss-key-v1:".
Definition MAX_SHARES : Z := 255.
Definition SCHEME : string := "pvss-secp256k1-v1".

(** ** Scalars *)

(** [((n % N) + N) % N]; the remainder has the sign of the dividend. *)
Definition modN (n : Z) : Z := Z.rem (Z.rem n N + N) N.

Definition hex_char (d : Z) : ascii := ascii_of_nat (Z.to_nat (if d <? 10 then 48 + d else 87 + d)).

(** The last [k] hexadecimal digits. *)
Fixpoint hex_text (k : nat) (n : Z) : string :=
  match k with O => "" | S k => (hex_text k (n / 16) ++ String (hex_char (n mod 16)) "")%string end.

(** [s.toString(16).padStart(64, '0')], for s below 16^64 *)
Definition scalarToHex (s : Z) : string := hex_text 64 s.

Definition hex_digit_value (c : ascii) : option Z :=
  let n := Z.of_nat (nat_of_ascii c) in
  if (48 <=? n) && (n <=? 57) then Some (n - 48)
  else if (65 <=? n) && (n <=? 70) then Some (n - 55)
  else if (97 <=? n) && (n <=? 102) then Some (n - 87)
  else None.

Fixpoint read_hex (acc : Z) (s : string) : option Z :=
  match s with
  | EmptyString => Some acc
  | String c rest => match hex_digit_value c with Some d => read_hex (acc * 16 + d) rest | None => None end
  end.

(** White space at the end of a text is no part of the number. Each line is
    one character in UTF-8, last byte first. *)
Definition white_space : list (list nat) :=
  map (fun n => [n]) [9; 10; 11; 12; 13; 32]%nat ++
  [[160; 194]; [128; 154; 225]]%nat ++
  map (fun n => [n; 128; 226]%nat) [128; 129; 130; 131; 132; 133; 134; 135; 136; 137; 138; 168; 169; 175]%nat ++
  [[159; 129; 226]; [128; 128; 227]; [191; 187; 239]]%nat.

Fixpoint strip (w : list nat) (l : list ascii) : option (list ascii) :=
  match w, l with
  | [], _ => Some l
  | n :: w, c :: l => if Nat.eqb (nat_of_ascii c) n then strip w l else None
  | _, [] => None
  end.

Fixpoint trim_reversed (fuel : nat) (l : list ascii) : list ascii :=
  match fuel with
  | O => l
  | S fuel =>
      match omap (fun w => strip w l) white_space with
      | shorter :: _ => trim_reversed fuel shorter
      | [] => l
      end
  end.

Definition trim_end (s : string) : string :=
  string_of_list_ascii (rev (trim_reversed (String.length s) (rev (list_ascii_of_string s)))).

(** [BigInt('0x' + h)] *)
Definition hexToScalar (h : string) : result Z :=
  match trim_end h with
  | EmptyString => Err GenericError
  | digits => match read_hex 0 digits with Some n => Ok n | None => Err GenericError end
  end.

(** The loop of [invN]: one pass of Euclid's algorithm. *)
Fixpoint invN_loop (fuel : nat) (lm hm low high : Z) : result Z :=
  match fuel with
  | O => Err OUT_OF_FUEL
  | S fuel =>
      if 1 <? low then
        let ratio := Z.quot high low in
        invN_loop fuel (hm - lm * ratio) lm (high - low * ratio) low
      else Ok (modN lm)
  end.

(** Two passes halve the numbers, and N is below 2^256. *)
Definition invN (a : Z) : result Z :=
  let x := modN a in
  throw_if (x =? 0) (Thrown "SS_NOT_INVERTIBLE") ;;!
  invN_loop 513 1 0 x N.

Definition polyEval (coeffs : list Z) (x : Z) : Z := fold_right (fun a acc => modN (acc * x + a)) 0 coeffs.

(** The two products of [lagrangeAtZero] for the index [i]. *)
Definition lagrange_products (indices : list Z) (i : Z) : Z * Z :=
  fold_left (fun '(num, den) j => if j =? i then (num, den) else (modN (num * modN (- j)), modN (den * modN (i - j)))) indices (1, 1).

Fixpoint map_all {A B} (f : A -> result B) (l : list A) : result (list B) :=
  match l with
  | [] => Ok []
  | x :: rest => let! y := f x in let! ys := map_all f rest in Ok (y :: ys)
  end.

(** The entries of the Map, in the order of the indices. *)
Definition lagrangeAtZero (indices : list Z) : result (list (Z * Z)) :=
  map_all (fun i => let '(num, den) := lagrange_products indices i in let! inv := invN den in Ok (i, modN (num * inv))) indices.

(** ** Texts and bytes *)

(** [b4a.from(p, 'hex')]: the digits in pairs, up to the first pair that is not. *)
Fixpoint hex_bytes (s : string) : bytes :=
  match s with
  | String a (String b rest) =>
      match hex_digit_value a, hex_digit_value b with
      | Some x, Some y => z2b (x * 16 + y) :: hex_bytes rest
      | _, _ => []
      end
  | _ => []
  end.

(** [b4a.toString(bs, 'hex')] *)
Definition bytes_hex (bs : bytes) : string := hex_text (2 * List.length bs) (be_val bs).

(** [Number.isInteger(v)] and at least [minimum]. *)
Definition integer_from (minimum : Z) (v : val) : option Z :=
  match v with VNum n => if minimum <=? n then Some n else None | _ => None end.

(** [{ ...} = params || {}] *)
Definition params_of (params : val) : val := if falsy params then VObj [] else params.

Section WithCurve.
Context `{Platform} `{Curve}.

Definition pointToHex (P : point) : result string := toHex P.

(** [secp.Point.fromHex(h)]: only strings are read. *)
Definition hexToPoint (h : val) : result point := match h with VStr s => fromHex s | _ => Err TypeError end.

(** [hashToScalar (...parts)] on hexadecimal parts *)
Definition hashToScalar (parts : list string) : Z := modN (be_val (generichash (concat (map hex_bytes parts)))).

(** The search for a point, from a counter on. *)
Fixpoint hashToCurve_loop (tries : nat) (seed : string) (counter : Z) : result point :=
  match tries with
  | O => Err GenericError
  | S tries =>
      let hash := generichash (ascii_bytes (seed ++ ":" ++ decimal_name counter)) in
      match fromHex (bytes_hex (z2b 2 :: hash)) with
      | Ok P => Ok P
      | Err _ => hashToCurve_loop tries seed (counter + 1)
      end
  end.

Definition hashToCurveSimple (seed : string) : result point := hashToCurve_loop 256 seed 0.

(** [const C_GEN = hashToCurveSimple(...)] *)
Definition commit_generator : result point := hashToCurveSimple "hiverelay-pvss-commit-generator-v1".

(** [keyFromPoint] of the client, [deriveKey] of the relay *)
Definition keyFromPoint (P : point) : result string :=
  let! hex := pointToHex P in
  Ok (bytes_hex (generichash (ascii_bytes (KEY_DOMAIN ++ hex)))).

(** ** Equality of discrete logarithms *)

(** The six texts that are hashed. *)
Definition challenge (base1 A base2 B R1 R2 : point) : result Z :=
  let! base1 := pointToHex base1 in
  let! A := pointToHex A in
  let! base2 := pointToHex base2 in
  let! B := pointToHex B in
  let! R1 := pointToHex R1 in
  let! R2 := pointToHex R2 in
  Ok (hashToScalar [base1; A; base2; B; R1; R2]).

(** The body of the [try] of [verifyDleq]. *)
Definition check_dleq (base1 A base2 B : point) (proof : val) : result bool :=
  match falsy proof, proof.["e"], proof.["s"] with
  | false, VStr e, VStr s =>
      let! e := hexToScalar e in
      let! s := hexToScalar s in
      let sOrN := if s =? 0 then N else s in
      let! s_base1 := multiply base1 sOrN in
      let! e_A := multiply A e in
      let R1 := point_add s_base1 e_A in
      let! s_base2 := multiply base2 sOrN in
      let! e_B := multiply B e in
      let R2 := point_add s_base2 e_B in
      let! e2 := challenge base1 A base2 B R1 R2 in
      Ok (e =? e2)
  | _, _, _ => Ok false
  end.

Definition verifyDleq (base1 A base2 B : point) (proof : val) : bool :=
  match check_dleq base1 A base2 B proof with Ok b => b | Err _ => false end.

(** ** Commitments *)

Fixpoint commitmentShare_loop (points : list point) (x : Z) (acc : option point) (xPow : Z) : result (option point) :=
  match points with
  | [] => Ok acc
  | Cj :: rest =>
      let! term := multiply Cj (if modN xPow =? 0 then N else modN xPow) in
      commitmentShare_loop rest x (Some (match acc with None => term | Some acc => point_add acc term end)) (modN (xPow * x))
  end.

(** [commitmentShare]; None is [null]. *)
Definition commitmentShare (points : list point) (index : Z) : result (option point) :=
  commitmentShare_loop points index None 1.

(** The text of an array element in [join]. *)
Definition join_text (text_of_object : val -> string) (v : val) : string :=
  if nullish v then "" else js_text text_of_object v.

Definition commitmentRootOf (text_of_object : val -> string) (commitments : list val) : string :=
  bytes_hex (generichash (ascii_bytes (String.concat "" (map (join_text text_of_object) commitments)))).

Definition shareCommitmentAt (commitments : list val) (index : Z) : result string :=
  let! points := map_all hexToPoint commitments in
  let! P := commitmentShare points index in
  match P with Some P => pointToHex P | None => Err TypeError end.

(** ** The relay's checks *)

Section WithGenerator.
Context (C_GEN : point) (text_of_object : val -> string).

(** The check of one share against the commitment points. *)
Definition check_share (points : list point) (index : Z) (share : val) : result bool :=
  let! Xi := commitmentShare points index in
  let! yi := hexToPoint share.["shareholder"] in
  let! Yi := hexToPoint share.["encryptedShare"] in
  match Xi with
  | Some Xi => Ok (verifyDleq C_GEN Xi yi Yi share.["proof"])
  | None => Ok false
  end.

Definition verifyEncryptedShare (commitments share : val) : bool :=
  match commitments, integer_from 1 share.["index"] with
  | VList ((_ :: _) as commitments), Some index =>
      match (let! points := map_all hexToPoint commitments in check_share points index share) with Ok b => b | Err _ => false end
  | _, _ => false
  end.

(** The body of the [try]s of [verifyDecryptedShare], in both files. *)
Definition check_decrypted (decrypted : val) : result bool :=
  let! Si := hexToPoint decrypted.["share"] in
  let! yi := hexToPoint decrypted.["shareholder"] in
  let! Yi := hexToPoint decrypted.["encryptedShare"] in
  Ok (verifyDleq BASE yi Si Yi decrypted.["proof"]).

Definition verifyDecryptedShare (decrypted : val) : bool :=
  if falsy decrypted then false
  else match check_decrypted decrypted with Ok b => b | Err _ => false end.

Definition refused (reason : string) : val := VObj [("ok", VBool false); ("reason", VStr reason)].

(** [list.find(a => a && a[field] === value)] *)
Definition find_by (field : string) (value : val) (l : list val) : option val :=
  List.find (fun a => negb (falsy a) && strict_eqb a.[field] value) l.

Definition verifyShareBundleForRelay (intent bundle relayPubkey : val) : val :=
  if falsy intent || falsy intent.["shareScheme"] then refused "intent-not-pvss"
  else match intent.["shareAssignments"] with
  | VList assignments =>
      match find_by "relayPubkey" relayPubkey assignments with
      | None => refused "relay-not-assigned"
      | Some assigned =>
          match bundle.["commitments"], bundle.["encryptedShares"] with
          | VList commitments, VList shares =>
              let root := commitmentRootOf text_of_object commitments in
              if negb (strict_eqb (VStr root) intent.["commitmentRoot"]) then refused "commitmentRoot-mismatch"
              else match find_by "index" assigned.["shareIndex"] shares with
              | None => refused "share-missing"
              | Some share =>
                  if negb (verifyEncryptedShare (VList commitments) share) then refused "share-verify-failed"
                  else match shareCommitmentAt commitments (num assigned.["shareIndex"]) with
                  | Err _ => refused "bundle-malformed"
                  | Ok shareCommitment => VObj [
                      ("ok", VBool true);
                      ("shareScheme", intent.["shareScheme"]);
                      ("commitmentRoot", intent.["commitmentRoot"]);
                      ("shareIndex", assigned.["shareIndex"]);
                      ("shareCommitment", VStr shareCommitment)]
                  end
              end
          | _, _ => refused "bundle-malformed"
          end
      end
  | _ => refused "intent-missing-assignments"
  end.

(** ** The dealer and the holders of shares *)

(** [verifyShareConsistency] *)
Definition verifyShareConsistency (points : list point) (sh : val) : bool :=
  match falsy sh, integer_from 1 sh.["index"] with
  | false, Some index => match check_share points index sh with Ok b => b | Err _ => false end
  | _, _ => false
  end.

Definition verifyShares (params : val) : result val :=
  let params := params_of params in
  match params.["commitments"] with
  | VList ((_ :: _) as commitments) =>
      match params.["encryptedShares"] with
      | VList encryptedShares =>
          match map_all hexToPoint commitments with
          | Err _ => Err (Thrown "SS_BAD_COMMITMENT")
          | Ok points =>
              let index := params.["index"] in
              let everything := match index with VUndef => true | _ => false end in
              let subset := if everything then encryptedShares
                            else List.filter (fun sh => negb (falsy sh) && strict_eqb sh.["index"] index) encryptedShares in
              throw_if (negb everything && Nat.eqb (List.length subset) 0) (Thrown "SS_INDEX_NOT_FOUND") ;;!
              let bad := List.filter (fun sh => negb (verifyShareConsistency points sh)) subset in
              Ok (VObj [
                ("valid", VBool (Nat.eqb (List.length bad) 0));
                ("verified", VNum (Z.of_nat (List.length subset - List.length bad)));
                ("badIndices", VList (map (fun sh => if falsy sh then sh else sh.["index"]) bad))])
          end
      | _ => Err (Thrown "SS_MISSING_SHARES")
      end
  | _ => Err (Thrown "SS_MISSING_COMMITMENTS")
  end.

(** Random bytes by number of the call, and how many calls a draw may take.
    The state is the number of calls made. *)
Context (randombytes : nat -> bytes) (patience : nat).

Fixpoint randomScalar_loop (fuel : nat) : M nat Z :=
  match fuel with
  | O => throw OUT_OF_FUEL
  | S fuel =>
      let* n := gets id in
      modify S ;;*
      let s := modN (be_val (randombytes n)) in
      if s =? 0 then randomScalar_loop fuel else ret s
  end.

Definition randomScalar : M nat Z := randomScalar_loop patience.

Definition proveDleq (base1 A base2 B : point) (x : Z) : M nat val :=
  let* k := randomScalar in
  let* R1 := lift (multiply base1 k) in
  let* R2 := lift (multiply base2 k) in
  let* e := lift (challenge base1 A base2 B R1 R2) in
  let s := modN (k - e * x) in
  ret (VObj [("e", VStr (scalarToHex e)); ("s", VStr (scalarToHex s))]).

Definition keygen : M nat val :=
  let* x := randomScalar in
  let* P := lift (multiply BASE x) in
  let* hex := lift (pointToHex P) in
  ret (VObj [("secretKey", VStr (scalarToHex x)); ("publicKey", VStr hex)]).

Fixpoint random_coefficients (n : nat) : M nat (list Z) :=
  match n with
  | O => ret []
  | S n => let* a := randomScalar in let* rest := random_coefficients n in ret (a :: rest)
  end.

(** One element of [encryptedShares]. *)
Definition encrypt_share (coeffs : list Z) (yi : point) (index : Z) : M nat val :=
  let pi := polyEval coeffs index in
  throwM_if (pi =? 0) (Thrown "SS_DEGENERATE_SHARE") ;;*
  let* Xi := lift (multiply C_GEN pi) in
  let* Yi := lift (multiply yi pi) in
  let* proof := proveDleq C_GEN Xi yi Yi pi in
  let* shareholder := lift (pointToHex yi) in
  let* encryptedShare := lift (pointToHex Yi) in
  ret (VObj [("index", VNum index); ("shareholder", VStr shareholder); ("encryptedShare", VStr encryptedShare); ("proof", proof)]).

Fixpoint encrypt_shares (coeffs : list Z) (recipients : list point) (index : Z) : M nat (list val) :=
  match recipients with
  | [] => ret []
  | yi :: rest =>
      let* share := encrypt_share coeffs yi index in
      let* shares := encrypt_shares coeffs rest (index + 1) in
      ret (share :: shares)
  end.

(** The public keys of [split]; an error names the position of the bad one. *)
Fixpoint parse_shareholders (shareholders : list val) (idx : Z) : result (list point) :=
  match shareholders with
  | [] => Ok []
  | pk :: rest =>
      let! P := match hexToPoint pk with
                | Ok P => Ok P
                | Err _ => Err (Thrown ("SS_BAD_SHAREHOLDER_PUBKEY:" ++ decimal_name idx))
                end in
      let! points := parse_shareholders rest (idx + 1) in
      Ok (P :: points)
  end.

(** [hexToScalar] of a value that should be a string: ['0x' + h] *)
Definition scalar_of (h : val) : result Z := hexToScalar (js_text text_of_object h).

Definition split (params : val) : M nat val :=
  let params := params_of params in
  match integer_from 1 params.["threshold"] with
  | None => throw (Thrown "SS_INVALID_THRESHOLD")
  | Some threshold =>
      match params.["shareholders"] with
      | VList shareholders =>
          throwM_if (Z.of_nat (List.length shareholders) <? threshold) (Thrown "SS_THRESHOLD_EXCEEDS_SHAREHOLDERS") ;;*
          throwM_if (MAX_SHARES <? Z.of_nat (List.length shareholders)) (Thrown "SS_TOO_MANY_SHARES") ;;*
          let* recipients := lift (parse_shareholders shareholders 0) in
          let secret := params.["secret"] in
          let* s := (if falsy secret then randomScalar else lift (let! n := scalar_of secret in Ok (modN n))) in
          throwM_if (s =? 0) (Thrown "SS_INVALID_SECRET") ;;*
          let* rest := random_coefficients (Z.to_nat threshold - 1) in
          let coeffs := s :: rest in
          let* commitmentPoints := lift (map_all (multiply C_GEN) coeffs) in
          let* commitments := lift (map_all pointToHex commitmentPoints) in
          let commitments := map VStr commitments in
          let* encryptedShares := encrypt_shares coeffs recipients 1 in
          let* P := lift (multiply BASE s) in
          let* secretPoint := lift (pointToHex P) in
          let* key := lift (keyFromPoint P) in
          ret (VObj [
            ("threshold", VNum threshold);
            ("secretPoint", VStr secretPoint);
            ("key", VStr key);
            ("public", VObj [
              ("scheme", VStr SCHEME);
              ("threshold", VNum threshold);
              ("commitments", VList commitments);
              ("commitmentRoot", VStr (commitmentRootOf text_of_object commitments));
              ("encryptedShares", VList encryptedShares)])])
      | _ => throw (Thrown "SS_THRESHOLD_EXCEEDS_SHAREHOLDERS")
      end
  end.

Definition decryptShare (params : val) : M nat val :=
  let params := params_of params in
  let encryptedShare := params.["encryptedShare"] in
  let secretKey := params.["secretKey"] in
  throwM_if (falsy encryptedShare || falsy secretKey) (Thrown "SS_MISSING_PARAMS") ;;*
  let* x := lift (let! n := scalar_of secretKey in Ok (modN n)) in
  throwM_if (x =? 0) (Thrown "SS_BAD_SECRET_KEY") ;;*
  let* Yi := lift (match hexToPoint encryptedShare.["encryptedShare"] with
                   | Ok P => Ok P
                   | Err _ => Err (Thrown "SS_BAD_ENCRYPTED_SHARE") end) in
  let* yi := lift (multiply BASE x) in
  let* inverse := lift (invN x) in
  let* Si := lift (multiply Yi inverse) in
  let* proof := proveDleq BASE yi Si Yi x in
  let* share := lift (pointToHex Si) in
  let* shareholder := lift (pointToHex yi) in
  let* encrypted := lift (pointToHex Yi) in
  ret (VObj [("index", encryptedShare.["index"]); ("share", VStr share); ("shareholder", VStr shareholder);
    ("encryptedShare", VStr encrypted); ("proof", proof)]).

(** [verifyDecryptedShare] of the client *)
Definition clientVerifyDecryptedShare (params : val) : result val :=
  let params := params_of params in
  throw_if (falsy params.["share"] || falsy params.["shareholder"] || falsy params.["encryptedShare"]) (Thrown "SS_MISSING_PARAMS") ;;!
  Ok (VObj [("valid", VBool (match check_decrypted params with Ok b => b | Err _ => false end))]).

(** The loop of [reconstruct] that checks and parses the shares. *)
Fixpoint collect_shares (shares : list val) (seen : list Z) : result (list (Z * point)) :=
  match shares with
  | [] => Ok []
  | sh :: rest =>
      match falsy sh, integer_from 1 sh.["index"] with
      | false, Some index =>
          throw_if (existsb (Z.eqb index) seen) (Thrown "SS_DUPLICATE_SHARE_INDEX") ;;!
          (if negb (falsy sh.["proof"]) && negb (falsy sh.["shareholder"]) && negb (falsy sh.["encryptedShare"]) then
             let! yi := hexToPoint sh.["shareholder"] in
             let! Si := hexToPoint sh.["share"] in
             let! Yi := hexToPoint sh.["encryptedShare"] in
             throw_if (negb (verifyDleq BASE yi Si Yi sh.["proof"])) (Thrown ("SS_INVALID_SHARE_PROOF:" ++ decimal_name index))
           else Ok tt) ;;!
          let! P := hexToPoint sh.["share"] in
          let! points := collect_shares rest (index :: seen) in
          Ok ((index, P) :: points)
      | _, _ => Err (Thrown "SS_BAD_SHARE_INDEX")
      end
  end.

Fixpoint lookup_index (lambdas : list (Z * Z)) (index : Z) : Z :=
  match lambdas with [] => 0 | (i, lambda) :: rest => if i =? index then lambda else lookup_index rest index end.

(** The sum of the shares, each times its coefficient; None is [null]. *)
Fixpoint combine (lambdas : list (Z * Z)) (points : list (Z * point)) (acc : option point) : result (option point) :=
  match points with
  | [] => Ok acc
  | (index, P) :: rest =>
      let lambda := lookup_index lambdas index in
      let! term := multiply P (if lambda =? 0 then N else lambda) in
      combine lambdas rest (Some (match acc with None => term | Some acc => point_add acc term end))
  end.

Definition reconstruct (params : val) : result val :=
  let params := params_of params in
  match params.["shares"] with
  | VList ((_ :: _) as shares) =>
      throw_if (match params.["threshold"] with VNum t => Z.of_nat (List.length shares) <? t | _ => false end)
        (Thrown "SS_INSUFFICIENT_SHARES") ;;!
      let! points := collect_shares shares [] in
      let! lambdas := lagrangeAtZero (map fst points) in
      let! sum := combine lambdas points None in
      match sum with
      | Some P =>
          let! secretPoint := pointToHex P in
          let! key := keyFromPoint P in
          Ok (VObj [("secretPoint", VStr secretPoint); ("key", VStr key)])
      | None => Err TypeError
      end
  | _ => Err (Thrown "SS_MISSING_SHARES")
  end.

Definition deriveKey (params : val) : result val :=
  let params := params_of params in
  throw_if (falsy params.["secretPoint"]) (Thrown "SS_MISSING_PARAMS") ;;!
  let! P := hexToPoint params.["secretPoint"] in
  let! key := keyFromPoint P in
  Ok (VObj [("key", VStr key)]).

End WithGenerator.
End WithCurve.
End Pvss.
