(* ===== verification/PvssOrder.v ===== *)
(** * The order of the group is prime

    A certificate in the manner of Pocklington: if a^(n-1) is 1 modulo n and
    a^((n-1)/q) - 1 has no factor in common with n, for primes q whose product
    exceeds the root of n, then n is prime. Small primes are found by trial
    division. *)

From Stdlib Require Import ZArith Lia Bool List Znumtheory Zpow_facts Arith.
From stdpp Require Import base tactics list.
From S2P Require Import Prelude.

(** ** Powers modulo a number *)

Fixpoint powm (a : Z) (e : positive) (n : Z) : Z :=
  match e with
  | xH => a mod n
  | xO e => let b := powm a e n in (b * b) mod n
  | xI e => let b := powm a e n in ((b * b) mod n * a) mod n
  end.

Lemma powm_ok a e n : 0 < n -> powm a e n = a ^ Z.pos e mod n.
Proof.
  intros Hn. induction e as [e IH|e IH|]; cbn [powm].
  - rewrite IH, <- Z.mul_mod, Z.mul_mod_idemp_l by lia. f_equal. rewrite Pos2Z.inj_xI, Z.pow_add_r, Z.pow_twice_r, Z.pow_1_r by lia. done.
  - rewrite IH, <- Z.mul_mod by lia. f_equal. rewrite Pos2Z.inj_xO, Z.pow_twice_r. done.
  - by rewrite Z.pow_1_r.
Qed.

(** ** The order of an element *)

Section Order.
Context (a p m : Z) (Hp : 1 < p) (Hm : 0 < m) (Ham : a ^ m mod p = 1).

Definition cycles (k : nat) : Prop := (0 < k)%nat /\ a ^ Z.of_nat k mod p = 1.

Lemma pow_pow_1 x k : 0 <= x -> 0 <= k -> a ^ x mod p = 1 -> a ^ (x * k) mod p = 1.
Proof. intros Hx Hk H1. rewrite Z.pow_mul_r by done. rewrite Zpower_mod, H1 by lia. rewrite Z.pow_1_l by done. by apply Z.mod_small. Qed.

Lemma least_cycle : exists d, cycles d /\ forall k, cycles k -> (d <= k)%nat.
Proof.
  destruct (dec_inh_nat_subset_has_unique_least_element cycles) as (d & [Hd Hmin] & _).
  - intros k. unfold cycles. destruct (Nat.lt_dec 0%nat k), (Z.eq_dec (a ^ Z.of_nat k mod p) 1); tauto.
  - exists (Z.to_nat m). split; [lia|]. by rewrite Z2Nat.id by lia.
  - by exists d.
Qed.

Lemma cycle_shift i j d : (0 < d)%nat -> a ^ Z.of_nat d mod p = 1 -> (i <= j)%nat -> a ^ Z.of_nat i mod p = a ^ Z.of_nat j mod p -> a ^ Z.of_nat (j - i) mod p = 1.
Proof.
  intros Hd H1 Hij He. set (k := Z.of_nat d * Z.of_nat i - Z.of_nat i). assert (Hk : 0 <= k) by nia.
  assert (Hone : a ^ (Z.of_nat i + k) mod p = 1) by (replace (Z.of_nat i + k) with (Z.of_nat d * Z.of_nat i) by lia; apply pow_pow_1; lia || done).
  rewrite <- Hone. transitivity (a ^ (Z.of_nat (j - i) + (Z.of_nat i + k)) mod p).
  - rewrite (Z.pow_add_r a (Z.of_nat (j - i))) by lia. rewrite Z.mul_mod, Hone, Z.mul_1_r, Z.mod_mod by lia. done.
  - replace (Z.of_nat (j - i) + (Z.of_nat i + k)) with (Z.of_nat j + k) by lia. rewrite !Z.pow_add_r by lia.
    rewrite (Z.mul_mod (a ^ Z.of_nat j)), (Z.mul_mod (a ^ Z.of_nat i)), He by lia. done.
Qed.

(** The order divides every exponent that gives one, and is below p. *)
Lemma order : exists d, 0 < d < p /\ forall k, 0 <= k -> a ^ k mod p = 1 <-> (d | k).
Proof.
  destruct least_cycle as (d & [Hd Had] & Hmin). exists (Z.of_nat d). split.
  - split; [lia|]. set (powers := map (fun i => a ^ Z.of_nat i mod p) (seq 0 d)).
    assert (Hnd : List.NoDup powers).
    { apply NoDup_map_NoDup_ForallPairs; [|apply seq_NoDup]. intros i j Hi%in_seq Hj%in_seq He.
      assert (Hlt : forall i j, (i < j)%nat -> (j < d)%nat -> a ^ Z.of_nat i mod p = a ^ Z.of_nat j mod p -> False).
      { intros x y Hxy Hy Hxe. assert (Hc : cycles (y - x)) by (split; [lia|]; apply (cycle_shift x y d); lia || done). apply Hmin in Hc. lia. }
      destruct (Nat.lt_trichotomy i j) as [|[|]]; [exfalso; apply (Hlt i j); lia || done|done|exfalso; apply (Hlt j i); lia || done]. }
    assert (Hin : incl powers (map Z.of_nat (seq 1 (Z.to_nat p - 1)))).
    { intros x (i & <- & Hi%in_seq)%in_map_iff. pose proof (Z.mod_pos_bound (a ^ Z.of_nat i) p ltac:(lia)) as Hb.
      assert (Hz : a ^ Z.of_nat i mod p <> 0).
      { intros Hz. assert (Hone : a ^ (Z.of_nat d) mod p = 1) by done. replace (Z.of_nat d) with (Z.of_nat i + Z.of_nat (d - i)) in Hone by lia.
        rewrite Z.pow_add_r, Z.mul_mod, Hz, Z.mul_0_l, Z.mod_0_l in Hone by lia. lia. }
      apply in_map_iff. exists (Z.to_nat (a ^ Z.of_nat i mod p)). rewrite in_seq. lia. }
    apply NoDup_incl_length in Hin; [|done]. unfold powers in Hin. rewrite !length_map, !length_seq in Hin. lia.
  - intros k Hk. split.
    + intros Hak. apply Z.mod_divide; [lia|]. pose proof (Z.mod_pos_bound k (Z.of_nat d) ltac:(lia)) as Hb. destruct (Z.eq_dec (k mod Z.of_nat d) 0) as [|Hnz]; [done|exfalso].
      assert (Hc : cycles (Z.to_nat (k mod Z.of_nat d))).
      { split; [lia|]. rewrite Z2Nat.id by lia. rewrite (Z.div_mod k (Z.of_nat d)) in Hak by lia.
        rewrite Z.pow_add_r, Z.mul_mod in Hak by (try apply Z.mul_nonneg_nonneg; try apply Z.div_pos; lia).
        rewrite pow_pow_1, Z.mul_1_l, Z.mod_mod in Hak by (try apply Z.div_pos; lia || done). done. }
      apply Hmin in Hc. lia.
    + intros [c ->]. rewrite Z.mul_comm. apply pow_pow_1; [lia|nia|done].
Qed.

End Order.

(** ** The certificate *)

Definition product (qs : list Z) : Z := fold_right Z.mul 1 qs.

Definition certificate (n a : Z) (qs : list Z) : bool :=
  (1 <? n) && (n <? (product qs + 1) * (product qs + 1)) && (powm a (Z.to_pos (n - 1)) n =? 1) &&
  forallb (fun q => ((n - 1) mod q =? 0) && (Z.gcd (powm a (Z.to_pos ((n - 1) / q)) n - 1) n =? 1)) qs.

Lemma product_divides qs d : Forall prime qs -> NoDup qs -> Forall (fun q => (q | d)) qs -> (product qs | d).
Proof.
  revert d. induction qs as [|q qs IH]; intros d Hq Hn Hd; [apply Z.divide_1_l|]. inversion Hq as [|? ? Hpq Hqs]; subst. inversion Hd as [|? ? [c ->] Hds]; subst.
  apply NoDup_cons in Hn as [Hni Hn]. change (product (q :: qs)) with (q * product qs). rewrite (Z.mul_comm c). apply Z.mul_divide_mono_l, IH; [done|done|].
  rewrite Forall_forall in *. intros r Hr. specialize (Hds r Hr). apply prime_mult in Hds as [|Hrq]; [done| |by apply Hqs].
  exfalso. apply Hni. apply prime_div_prime in Hrq; [by subst|by apply Hqs|done].
Qed.

(** Every divisor is above the product of the known primes. *)
Lemma divisor_large n a qs p : certificate n a qs = true -> Forall prime qs -> NoDup qs -> 1 < p -> (p | n) -> product qs < p.
Proof.
  unfold certificate. intros Hc Hq Hnd Hp Hpn. b2p. match goal with Hf : forallb _ _ = true |- _ => rename Hf into Hall end.
  assert (Hmod : forall e, powm a e n = 1 -> a ^ Z.pos e mod p = 1).
  { intros e He. rewrite powm_ok in He by lia. rewrite (Zmod_div_mod p n) by (lia || done). rewrite He. by apply Z.mod_small. }
  assert (Hn1 : a ^ (n - 1) mod p = 1) by (rewrite <- (Z2Pos.id (n - 1)) by lia; by apply Hmod).
  destruct (order a p (n - 1) Hp ltac:(lia) Hn1) as (d & Hd & Hord). apply Z.le_lt_trans with d; [|lia]. apply Z.divide_pos_le; [lia|].
  apply product_divides; [done|done|]. rewrite Forall_forall in *. intros q Hin. rewrite forallb_forall in Hall. specialize (Hall q ltac:(by apply list_elem_of_In)). b2p.
  pose proof (Hq q Hin) as Hpq. pose proof (prime_ge_2 q Hpq) as Hq2. match goal with Hz : (n - 1) mod q = 0 |- _ => apply Z.mod_divide in Hz as [c Hc]; [|lia] end.
  rewrite Hc, Z.div_mul in * by lia. assert (Hc0 : 0 < c) by nia. apply Hord in Hn1; [|lia]. destruct Hn1 as [k Hk].
  assert (Hqkd : (q | k * d)) by (exists c; lia). apply prime_mult in Hqkd as [[j ->]|]; [|done|done]. exfalso.
  assert (Hdc : (d | c)) by (exists j; apply (Z.mul_reg_l _ _ q); lia). apply Hord in Hdc; [|lia].
  match goal with Hg : Z.gcd _ n = 1 |- _ => rename Hg into Hgcd end. rewrite powm_ok, Z2Pos.id in Hgcd by lia.
  assert (Hp1 : (p | 1)); [|apply Z.divide_pos_le in Hp1; lia]. rewrite <- Hgcd. apply Z.gcd_greatest; [|done].
  destruct Hpn as [t Ht]. rewrite Z.mod_eq by lia. apply Z.mod_divide; [lia|]. rewrite Ht.
  replace (a ^ c - t * p * (a ^ c / (t * p)) - 1) with (a ^ c - 1 + (- t * (a ^ c / (t * p))) * p) by ring. rewrite Z.mod_add by lia.
  rewrite Zminus_mod, Hdc, (Z.mod_small 1 p), Z.sub_diag by lia. apply Z.mod_0_l. lia.
Qed.

Theorem certified n a qs : certificate n a qs = true -> Forall prime qs -> NoDup qs -> prime n.
Proof.
  intros Hc Hq Hnd. apply prime_alt. assert (Hn : 1 < n /\ n < (product qs + 1) * (product qs + 1)) by (unfold certificate in Hc; b2p; done). split; [lia|].
  intros p Hp Hpn. pose proof (divisor_large n a qs p Hc Hq Hnd ltac:(lia) Hpn) as H1. destruct Hpn as [m Hm].
  assert (Hm1 : 1 < m) by nia. pose proof (divisor_large n a qs m Hc Hq Hnd Hm1 ltac:(exists p; lia)) as H2.
  assert (0 <= product qs) by (clear - Hq; induction Hq as [|q qs Hq _ IH]; [done|]; cbn; apply prime_ge_2 in Hq; unfold product in IH; nia). nia.
Qed.

(** ** Trial division *)

Fixpoint no_divisor (fuel : nat) (d n : Z) : bool :=
  if n <? d * d then true else
  match fuel with O => false | S fuel => negb (n mod d =? 0) && no_divisor fuel (d + 1) n end.

Lemma no_divisor_ok fuel n : forall d, 0 < d -> no_divisor fuel d n = true -> forall c, d <= c -> c * c <= n -> ~ (c | n).
Proof.
  induction fuel as [|fuel IH]; intros d Hd Hf c Hc Hcn; cbn in Hf; destruct (n <? d * d) eqn:E; b2p; try nia; try done.
  destruct (Z.eq_dec c d) as [->|]; [|by apply (IH (d + 1)); lia || done]. intros Hdiv. apply Z.mod_divide in Hdiv; [|lia]. done.
Qed.

Lemma trial fuel n : 1 < n -> no_divisor fuel 2 n = true -> prime n.
Proof.
  intros Hn Hf. apply prime_alt. split; [done|]. intros c Hc [m Hm]. destruct (Z.le_gt_cases (c * c) n).
  - apply (no_divisor_ok fuel n 2 ltac:(lia) Hf c); [lia|done|by exists m].
  - apply (no_divisor_ok fuel n 2 ltac:(lia) Hf m); [nia|nia|exists c; lia].
Qed.

(** ** The order *)

Ltac by_trial := apply (trial 30000); [lia|vm_compute; reflexivity].

Lemma prime_12 : prime 297159362677.
Proof. apply (certified _ 2 [1627771]); [vm_compute; reflexivity|repeat (apply Forall_cons_2; [by_trial|]); constructor|apply NoDup_singleton]. Qed.

Lemma prime_29 : prime 29047611873442575647497758179.
Proof.
  apply (certified _ 2 [297159362677; 545358713]); [vm_compute; reflexivity|apply Forall_cons_2; [apply prime_12|apply Forall_singleton; by_trial]|].
  apply NoDup_cons. split; [|apply NoDup_singleton]. rewrite list_elem_of_singleton. lia.
Qed.

Lemma prime_33 : prime 341948486974166000522343609283189.
Proof. apply (certified _ 2 [29047611873442575647497758179]); [vm_compute; reflexivity|apply Forall_singleton, prime_29|apply NoDup_singleton]. Qed.

Lemma prime_21 : prime 174723607534414371449.
Proof.
  apply (certified _ 2 [44706919; 120233]); [vm_compute; reflexivity|repeat (apply Forall_cons_2; [by_trial|]); constructor|].
  apply NoDup_cons. split; [|apply NoDup_singleton]. rewrite list_elem_of_singleton. lia.
Qed.

Lemma order_prime : prime 0xFFFFFFFFFFFFFFFFFFFFFFFFFFFFFFFEBAAEDCE6AF48A03BBFD25E8CD0364141.
Proof.
  apply (certified _ 2 [341948486974166000522343609283189; 174723607534414371449]); [vm_compute; reflexivity|apply Forall_cons_2; [apply prime_33|apply Forall_singleton, prime_21]|].
  apply NoDup_cons. split; [|apply NoDup_singleton]. rewrite list_elem_of_singleton. lia.
Qed.
