(* ===== verification/PvssArith.v ===== *)
(** * Arithmetic modulo the order of the group: inverses and interpolation

    [invN] is the extended algorithm of Euclid; the coefficients of
    [lagrangeAtZero] give the value at zero of every polynomial shorter than the
    list of indices. *)

From Stdlib Require Import ZArith Lia Bool List String Ascii Znumtheory Morphisms Setoid.
From stdpp Require Import base tactics list strings.
From S2P Require Import Prelude Codec SecretSharing PvssOrder.
Import Pvss.

Lemma N_pos : 0 < N.
Proof. done. Qed.

(** ** Congruence *)

Definition eqN (a b : Z) : Prop := (N | a - b).
Declare Scope mod_scope.
Infix "==" := eqN (at level 70) : mod_scope.
Open Scope mod_scope.

Lemma eqN_mod a b : a == b <-> a mod N = b mod N.
Proof.
  unfold eqN. split; intros Hab.
  - destruct Hab as [k Hk]. replace a with (b + k * N) by lia. by apply Z.mod_add.
  - exists (a / N - b / N). pose proof (Z.div_mod a N ltac:(done)). pose proof (Z.div_mod b N ltac:(done)). lia.
Qed.

#[export] Instance eqN_equivalence : Equivalence eqN.
Proof. split; repeat intros ?; rewrite eqN_mod in *; congruence. Qed.

#[export] Instance add_eqN : Proper (eqN ==> eqN ==> eqN) Z.add.
Proof. intros a b Hab c d Hcd. rewrite eqN_mod in *. by rewrite Z.add_mod, Hab, Hcd, <- Z.add_mod by done. Qed.

#[export] Instance mul_eqN : Proper (eqN ==> eqN ==> eqN) Z.mul.
Proof. intros a b Hab c d Hcd. rewrite eqN_mod in *. by rewrite Z.mul_mod, Hab, Hcd, <- Z.mul_mod by done. Qed.

#[export] Instance opp_eqN : Proper (eqN ==> eqN) Z.opp.
Proof. intros a b Hab. replace (- a) with (-1 * a) by lia. replace (- b) with (-1 * b) by lia. by rewrite Hab. Qed.

#[export] Instance sub_eqN : Proper (eqN ==> eqN ==> eqN) Z.sub.
Proof. intros a b Hab c d Hcd. rewrite <- !Z.add_opp_r. by rewrite Hab, Hcd. Qed.

Lemma eq_eqN a b : a = b -> a == b.
Proof. by intros ->. Qed.

(** An identity of integers. *)
Ltac eqN_ring := apply eq_eqN; ring.

Lemma modN_mod n : modN n = n mod N.
Proof.
  unfold modN. pose proof (Z.rem_bound_abs n N ltac:(done)) as Hb. pose proof N_pos as HN. rewrite (Z.abs_eq N) in Hb by lia.
  rewrite Z.rem_mod_nonneg by lia. rewrite <- (Z.mul_1_l N) at 2. rewrite Z.mod_add by done.
  symmetry. rewrite (Z.quot_rem' n N) at 1. by rewrite Z.add_comm, Z.mul_comm, Z.mod_add.
Qed.

Lemma mod_eqN n : n mod N == n.
Proof. apply eqN_mod. by apply Z.mod_mod. Qed.

Lemma modN_eqN n : modN n == n.
Proof. rewrite modN_mod. apply mod_eqN. Qed.

Lemma modN_range n : 0 <= modN n < N.
Proof. rewrite modN_mod. by apply Z.mod_pos_bound. Qed.

Lemma modN_small n : 0 <= n < N -> modN n = n.
Proof. intros Hn. rewrite modN_mod. by apply Z.mod_small. Qed.

Lemma modN_cong a b : a == b -> modN a = modN b.
Proof. rewrite !modN_mod. by intros ?%eqN_mod. Qed.

(** ** Units *)

Definition unit (a : Z) : Prop := Z.gcd a N = 1.

Lemma unit_cong a b : a == b -> unit a -> unit b.
Proof. unfold unit. intros Hab%eqN_mod Ha. rewrite Z.gcd_comm, <- Z.gcd_mod, <- Hab, Z.gcd_mod, Z.gcd_comm by done. done. Qed.

Lemma unit_mul a b : unit a -> unit b -> unit (a * b).
Proof.
  unfold unit. intros Ha Hb. apply Zgcd_1_rel_prime in Ha, Hb. apply Zgcd_1_rel_prime.
  apply rel_prime_sym, rel_prime_mult; by apply rel_prime_sym.
Qed.

Lemma unit_opp a : unit a -> unit (- a).
Proof. unfold unit. by rewrite Z.gcd_opp_l. Qed.

Lemma unit_1 : unit 1.
Proof. done. Qed.

Lemma unit_nonzero a : unit a -> ~ a == 0.
Proof. intros Ha Hz. apply (unit_cong _ _ Hz) in Ha. done. Qed.

(** The order is prime. *)
Lemma unit_of_nonzero a : ~ a == 0 -> unit a.
Proof.
  intros Ha. apply Zgcd_1_rel_prime, rel_prime_sym, prime_rel_prime; [exact order_prime|]. intros Hd. apply Ha. unfold eqN. by rewrite Z.sub_0_r.
Qed.

Lemma scalar_unit k : 1 <= k < N -> unit k.
Proof. intros Hk. apply unit_of_nonzero. unfold eqN. rewrite Z.sub_0_r. intros Hd. apply Z.divide_pos_le in Hd; lia. Qed.

(** ** Euclid *)

Lemma invN_loop_spec x fuel : forall lm hm low high k, lm * x == low -> hm * x == high -> Z.gcd low high = 1 -> 0 < low < high ->
  low * high < 2 ^ k -> 0 <= k < Z.of_nat fuel -> exists y, invN_loop fuel lm hm low high = Ok y /\ 0 <= y < N /\ y * x == 1.
Proof.
  induction fuel as [|fuel IH]; intros lm hm low high k Hlm Hhm Hg Hlh Hk Hf; [lia|]. cbn [invN_loop]. destruct (1 <? low) eqn:E; b2p.
  - rewrite Z.quot_div_nonneg by lia. pose proof (Z.div_mod high low ltac:(lia)) as Hd. pose proof (Z.mod_pos_bound high low ltac:(lia)) as Hm.
    assert (Hq : 1 <= high / low) by (apply Z.div_le_lower_bound; lia).
    assert (Hnz : high mod low <> 0) by (intros Hz; rewrite <- (Z.gcd_mod high low), Hz, Z.gcd_0_l in Hg by lia; lia).
    assert (Hr : high - low * (high / low) = high mod low) by lia. rewrite Hr.
    assert (Hk2 : 2 <= k) by (destruct (Z.lt_ge_cases k 2); [|done]; exfalso; assert (2 ^ k <= 2) by (change 2 with (2 ^ 1) at 2; apply Z.pow_le_mono_r; lia); nia).
    apply (IH _ _ _ _ (k - 1)); [|done| |lia| |lia].
    + rewrite <- Hr. generalize (high / low). intros q. rewrite <- Hlm, <- Hhm. eqN_ring.
    + rewrite Z.gcd_mod by lia. done.
    + assert (Hh : 2 * 2 ^ (k - 1) = 2 ^ k) by (rewrite <- Z.pow_succ_r by lia; f_equal; lia). assert (H2 : 2 * (high mod low) <= high) by nia.
      apply (Z.mul_le_mono_nonneg_l _ _ low) in H2; [|lia]. rewrite <- Hh in Hk. clear - Hk H2. lia.
  - assert (Hl : low = 1) by lia. subst low.
    exists (modN lm). split; [done|]. split; [apply modN_range|]. by rewrite modN_eqN.
Qed.

(** The inverse is found for every unit, within the fuel of the loop. *)
Lemma invN_ok a : unit a -> exists y, invN a = Ok y /\ 0 <= y < N /\ y * a == 1.
Proof.
  intros Hu. unfold invN. assert (Hx : unit (modN a)) by (by eapply unit_cong; [symmetry; apply modN_eqN|]).
  pose proof (modN_range a) as Hr. destruct (modN a =? 0) eqn:E; b2p; [by rewrite E in Hx|]. cbn [throw_if bindR].
  destruct (invN_loop_spec (modN a) 513 1 0 (modN a) N 512) as (y & Hy & Hyr & Hyx); [eqN_ring|by exists (-1)|exact Hx|lia| |lia|].
  - change (2 ^ 512) with (2 ^ 256 * 2 ^ 256). apply Z.mul_lt_mono_nonneg; [lia|transitivity N; [lia|done]|done|done].
  - exists y. split; [done|]. split; [done|]. by rewrite <- (modN_eqN a).
Qed.

Lemma invN_zero a : a == 0 -> invN a = Err (Thrown "SS_NOT_INVERTIBLE").
Proof. intros Ha. unfold invN. apply modN_cong in Ha. by rewrite Ha. Qed.

Lemma invN_cong a b : a == b -> invN a = invN b.
Proof. intros Hab. unfold invN. by rewrite (modN_cong _ _ Hab). Qed.

(** The inverse as a function. *)
Definition inverse (a : Z) : Z := match invN a with Ok y => y | Err _ => 0 end.

Lemma inverse_mul a : unit a -> inverse a * a == 1.
Proof. intros Ha. unfold inverse. by destruct (invN_ok a Ha) as (y & -> & _ & Hy). Qed.

Lemma cancel a b d : unit d -> a * d == b * d -> a == b.
Proof.
  intros Hd Hab. transitivity (a * (inverse d * d)); [rewrite inverse_mul by done; eqN_ring|].
  transitivity (b * (inverse d * d)); [|rewrite inverse_mul by done; eqN_ring].
  replace (a * (inverse d * d)) with (a * d * inverse d) by ring. rewrite Hab. eqN_ring.
Qed.

(** ** Interpolation *)

(** The polynomial, over the integers. *)
Definition eval (coeffs : list Z) (x : Z) : Z := fold_right (fun a acc => acc * x + a) 0 coeffs.

Lemma polyEval_eqN coeffs x : polyEval coeffs x == eval coeffs x.
Proof. induction coeffs as [|a coeffs IH]; [done|]. cbn [polyEval eval fold_right]. rewrite modN_eqN. unfold polyEval, eval in IH. by rewrite IH. Qed.

Lemma polyEval_range coeffs x : coeffs <> [] -> 0 <= polyEval coeffs x < N.
Proof. destruct coeffs; [done|]. intros _. apply modN_range. Qed.

(** The products, over the integers. *)
Fixpoint num_prod (xs : list Z) (i : Z) : Z :=
  match xs with [] => 1 | j :: rest => if j =? i then num_prod rest i else num_prod rest i * - j end.
Fixpoint den_prod (xs : list Z) (i : Z) : Z :=
  match xs with [] => 1 | j :: rest => if j =? i then den_prod rest i else den_prod rest i * (i - j) end.

Definition coefficient (xs : list Z) (i : Z) : Z := num_prod xs i * inverse (den_prod xs i).

Definition sum_over (xs : list Z) (f : Z -> Z) : Z := fold_right (fun i acc => f i + acc) 0 xs.

(** The differences of distinct indices are units. *)
Definition separated (xs : list Z) : Prop := forall i j, In i xs -> In j xs -> i <> j -> unit (i - j).

Lemma sum_over_cong xs f g : (forall i, In i xs -> f i == g i) -> sum_over xs f == sum_over xs g.
Proof.
  induction xs as [|x xs IH]; intros Hfg; [done|]. cbn [sum_over fold_right]. unfold sum_over in IH.
  rewrite (Hfg x (or_introl eq_refl)), IH; [done|]. intros i Hi. apply Hfg. by right.
Qed.

Lemma sum_over_add xs f g : sum_over xs (fun i => f i + g i) = sum_over xs f + sum_over xs g.
Proof. induction xs as [|x xs IH]; [done|]. unfold sum_over in *. cbn. rewrite IH. ring. Qed.

Lemma sum_over_scale xs f a : sum_over xs (fun i => a * f i) = a * sum_over xs f.
Proof. induction xs as [|x xs IH]; [cbn; ring|]. unfold sum_over in *. cbn. rewrite IH. ring. Qed.

Lemma den_unit xs i ys : (forall j, In j xs -> In j ys) -> In i ys -> separated ys -> unit (den_prod xs i).
Proof.
  intros Hsub Hi Hs. induction xs as [|j xs IH]; [done|]. cbn [den_prod]. destruct (j =? i) eqn:E; b2p; [apply IH; intros; apply Hsub; by right|].
  apply unit_mul; [apply IH; intros; apply Hsub; by right|]. apply Hs; [done|apply Hsub; by left|congruence].
Qed.

Lemma coefficient_mul xs i : separated xs -> In i xs -> coefficient xs i * den_prod xs i == num_prod xs i.
Proof.
  intros Hs Hi. unfold coefficient. rewrite <- Z.mul_assoc, inverse_mul by (by apply (den_unit xs i xs)). eqN_ring.
Qed.

(** Without the head of the list. *)
Lemma coefficient_step m ys i : separated (m :: ys) -> m <> i -> In i ys ->
  coefficient (m :: ys) i * (i - m) == - m * coefficient ys i.
Proof.
  intros Hs Hm Hi. assert (Hs' : separated ys) by (intros a b Ha Hb; apply Hs; by right).
  apply (cancel _ _ (den_prod ys i)); [by apply (den_unit ys i ys)|].
  pose proof (coefficient_mul (m :: ys) i Hs (or_intror Hi)) as H1. cbn [num_prod den_prod] in H1. rewrite (proj2 (Z.eqb_neq m i)) in H1 by done.
  replace (coefficient (m :: ys) i * (i - m) * den_prod ys i) with (coefficient (m :: ys) i * (den_prod ys i * (i - m))) by ring.
  rewrite H1, <- Z.mul_assoc, (coefficient_mul ys i Hs' Hi). eqN_ring.
Qed.

Lemma coefficient_swap a b ys i : coefficient (a :: b :: ys) i = coefficient (b :: a :: ys) i.
Proof.
  unfold coefficient. cbn [num_prod den_prod]. destruct (a =? i), (b =? i); try done. f_equal; [ring|]. f_equal. ring.
Qed.

(** The sum over a list, with the factor that removes its head. *)
Lemma sum_remove m ys (q : Z -> Z) : separated (m :: ys) -> ~ In m ys ->
  sum_over (m :: ys) (fun i => coefficient (m :: ys) i * (i - m) * q i) == - m * sum_over ys (fun i => coefficient ys i * q i).
Proof.
  intros Hs Hm. cbn [sum_over fold_right]. change (fold_right _ 0 ys) with (sum_over ys (fun i => coefficient (m :: ys) i * (i - m) * q i)).
  rewrite Z.sub_diag. replace (coefficient (m :: ys) m * 0 * q m) with 0 by ring. rewrite Z.add_0_l, <- sum_over_scale. apply sum_over_cong.
  intros i Hi. rewrite coefficient_step; [eqN_ring|done|by intros ->|done].
Qed.

Lemma separated_tail a ys : separated (a :: ys) -> separated ys.
Proof. intros Hs i j Hi Hj. apply Hs; by right. Qed.

Lemma coefficients_sum n : forall xs, List.length xs = S n -> NoDup xs -> separated xs -> sum_over xs (coefficient xs) == 1.
Proof.
  induction n as [|n IH]; intros xs Hl Hn Hs.
  - destruct xs as [|a [|]]; try done. cbn. unfold coefficient. cbn [num_prod den_prod]. rewrite Z.eqb_refl. done.
  - destruct xs as [|a [|b ys]]; try done. apply NoDup_cons in Hn as [Ha Hn]. rewrite list_elem_of_In in Ha. pose proof Hn as [Hb Hn']%NoDup_cons. rewrite list_elem_of_In in Hb.
    assert (Hab : a <> b) by (intros ->; apply Ha; by left).
    assert (Hs2 : separated (b :: a :: ys)) by (intros i j Hi Hj; apply Hs; cbn in *; tauto).
    pose proof (sum_remove a (b :: ys) (fun _ => 1) Hs Ha) as H1. pose proof (sum_remove b (a :: ys) (fun _ => 1) Hs2 ltac:(intros [->|]; done)) as H2.
    assert (Hone : forall zs, sum_over zs (fun i => coefficient zs i * 1) = sum_over zs (coefficient zs))
      by (intros zs; unfold sum_over; generalize (coefficient zs); intros f; induction zs as [|z zs IHz]; cbn; [done|]; rewrite IHz; ring).
    rewrite Hone, (IH (b :: ys)) in H1; [|cbn in *; lia|done|by eapply separated_tail].
    rewrite Hone, (IH (a :: ys)) in H2; [|cbn in *; lia|apply NoDup_cons; split; [rewrite list_elem_of_In; intros Hin; apply Ha; by right|done]|by eapply separated_tail].
    assert (Hswap : sum_over (b :: a :: ys) (fun i => coefficient (b :: a :: ys) i * (i - b) * 1) =
      sum_over (a :: b :: ys) (fun i => coefficient (a :: b :: ys) i * (i - b) * 1)).
    { unfold sum_over. cbn [fold_right]. rewrite !(coefficient_swap b a).
      assert (He : forall zs, fold_right (fun i acc => coefficient (b :: a :: ys) i * (i - b) * 1 + acc) 0 zs = fold_right (fun i acc => coefficient (a :: b :: ys) i * (i - b) * 1 + acc) 0 zs)
        by (induction zs as [|z zs IHz]; cbn; [done|by rewrite IHz, (coefficient_swap b a)]). rewrite He. ring. }
    rewrite Hswap in H2. apply (cancel _ _ (b - a)); [apply Hs; [by right; left|by left|congruence]|].
    transitivity (sum_over (a :: b :: ys) (fun i => coefficient (a :: b :: ys) i * (i - a) * 1) + - 1 * sum_over (a :: b :: ys) (fun i => coefficient (a :: b :: ys) i * (i - b) * 1)).
    + rewrite <- sum_over_scale, <- sum_over_add. rewrite Z.mul_comm, <- sum_over_scale. apply sum_over_cong. intros i _. eqN_ring.
    + rewrite H1, H2. eqN_ring.
Qed.

(** The value at zero. *)
Lemma interpolation p : forall xs, (List.length p <= List.length xs)%nat -> xs <> [] -> NoDup xs -> separated xs ->
  sum_over xs (fun i => coefficient xs i * eval p i) == eval p 0.
Proof.
  induction p as [|a q IH]; intros xs Hl Hne Hn Hs.
  - cbn [eval fold_right]. transitivity (0 * sum_over xs (coefficient xs)); [rewrite <- sum_over_scale; apply sum_over_cong; intros; eqN_ring|eqN_ring].
  - destruct xs as [|m ys]; [done|]. pose proof Hn as [Hm Hn']%NoDup_cons. rewrite list_elem_of_In in Hm. cbn [eval fold_right]. fold (eval q).
    transitivity (a * sum_over (m :: ys) (coefficient (m :: ys)) + (sum_over (m :: ys) (fun i => coefficient (m :: ys) i * (i - m) * eval q i) +
      m * sum_over (m :: ys) (fun i => coefficient (m :: ys) i * eval q i))).
    { rewrite <- !sum_over_scale, <- !sum_over_add. apply sum_over_cong. intros i _. unfold eval. eqN_ring. }
    rewrite (coefficients_sum (List.length ys)), sum_remove, (IH (m :: ys)) by (done || (cbn in *; lia)). cbn [List.length] in Hl. destruct ys as [|y ys].
    + destruct q; [|cbn in Hl; lia]. cbn. eqN_ring.
    + rewrite IH; [|lia|done|done|by eapply separated_tail]. fold (eval q 0). eqN_ring.
Qed.

(** ** The indices of shares, and [lagrangeAtZero] *)

Lemma unit_factor a b : unit (a * b) -> unit a.
Proof.
  unfold unit. intros Hab. apply Z.divide_1_r_nonneg; [apply Z.gcd_nonneg|]. rewrite <- Hab. apply Z.gcd_greatest; [|apply Z.gcd_divide_r].
  apply Z.divide_mul_l, Z.gcd_divide_l.
Qed.

Lemma unit_inverse a : unit a -> unit (inverse a).
Proof. intros Ha. apply (unit_factor _ a). eapply unit_cong; [symmetry; by apply inverse_mul|done]. Qed.

Lemma inverse_cong a b : a == b -> inverse a = inverse b.
Proof. intros Hab. unfold inverse. by rewrite (invN_cong a b). Qed.

Lemma invN_inverse a : unit a -> invN a = Ok (inverse a).
Proof. intros Ha. unfold inverse. by destruct (invN_ok a Ha) as (y & -> & _). Qed.

(** Indices with inverses, whose differences have inverses. *)
Definition index_set (xs : list Z) : Prop := Forall unit xs /\ separated xs.

(** Numbers from 1 on, below the order. *)
Lemma index_set_below xs : Forall (fun i => 1 <= i < N) xs -> index_set xs.
Proof.
  intros Hx. split; [eapply Forall_impl; [exact Hx|apply scalar_unit]|]. rewrite List.Forall_forall in Hx. intros i j Hi%Hx Hj%Hx Hij.
  destruct (Z.lt_total i j) as [|[|]]; [|done|].
  - replace (i - j) with (- (j - i)) by lia. apply unit_opp, scalar_unit. lia.
  - apply scalar_unit. lia.
Qed.

Lemma num_unit xs i : Forall unit xs -> unit (num_prod xs i).
Proof.
  induction 1 as [|j xs Hj _ IH]; [done|]. cbn [num_prod]. destruct (j =? i); [done|]. apply unit_mul; [done|]. by apply unit_opp.
Qed.

Lemma coefficient_unit xs i : index_set xs -> In i xs -> unit (coefficient xs i).
Proof.
  intros [Hx Hs] Hi. apply unit_mul; [by apply num_unit|]. by apply unit_inverse, (den_unit xs i xs).
Qed.

Lemma lagrange_products_eqN i xs : forall num den num' den',
  fold_left (fun '(num, den) j => if j =? i then (num, den) else (modN (num * modN (- j)), modN (den * modN (i - j)))) xs (num, den) = (num', den') ->
  num' == num * num_prod xs i /\ den' == den * den_prod xs i.
Proof.
  induction xs as [|j xs IH]; intros num den num' den' Hf; cbn in Hf.
  - injection Hf as <- <-. split; cbn; eqN_ring.
  - cbn [num_prod den_prod]. destruct (j =? i).
    + by apply IH in Hf.
    + apply IH in Hf as [Hn Hd]. rewrite Hn, Hd, !modN_eqN. split; eqN_ring.
Qed.

Lemma map_all_ok {A B} (f : A -> result B) (g : A -> B) l : (forall x, In x l -> f x = Ok (g x)) -> map_all f l = Ok (map g l).
Proof.
  induction l as [|x l IH]; intros Hf; [done|]. cbn [map_all map]. rewrite Hf by (by left). cbn [bindR]. rewrite IH; [done|]. intros y Hy. apply Hf. by right.
Qed.

(** What [lagrangeAtZero] returns. *)
Lemma lagrangeAtZero_ok xs : index_set xs -> lagrangeAtZero xs = Ok (map (fun i => (i, modN (coefficient xs i))) xs).
Proof.
  intros [Hx Hs]. apply map_all_ok. intros i Hi. destruct (lagrange_products xs i) as [num den] eqn:E. apply lagrange_products_eqN in E as [Hn Hd].
  rewrite Z.mul_1_l in Hn, Hd. assert (Hu : unit den) by (eapply unit_cong; [symmetry; exact Hd|]; by apply (den_unit xs i xs)).
  rewrite invN_inverse by done. cbn [bindR]. do 2 f_equal. apply modN_cong. unfold coefficient. by rewrite Hn, (inverse_cong _ _ Hd).
Qed.

Lemma lookup_index_map f xs i : In i xs -> lookup_index (map (fun i => (i, f i)) xs) i = f i.
Proof. induction xs as [|x xs IH]; [done|]. cbn. destruct (x =? i) eqn:E; b2p; [by subst|]. intros [|]; [done|by apply IH]. Qed.

Lemma modN_nonzero a : unit a -> 1 <= modN a < N.
Proof.
  intros Ha. pose proof (modN_range a). enough (modN a <> 0) by lia. intros Hz. apply (unit_nonzero a Ha). rewrite <- (modN_eqN a). by rewrite Hz.
Qed.
