(* ===== verification/PvssCurve.v ===== *)
(** * Proofs of equal discrete logarithms

    What the curve promises ([CurveLaws]), and what follows for [proveDleq] and
    [verifyDleq]: an honest proof is accepted exactly when neither of its
    scalars is zero, and two accepted proofs with the same announcements and
    different challenges yield the logarithm. *)

From Stdlib Require Import ZArith Lia Bool List String Ascii Morphisms Setoid.
From Stdlib Require Import Strings.Byte.
From stdpp Require Import base tactics list strings.
From S2P Require Import Prelude Codec SecretSharing PvssArith.
Import Pvss.

(** A group of the prime order [N], written with its identity and its scalar
    multiplication, and the texts of its elements. [multiply] refuses the
    scalars outside 1 .. N - 1; the identity has no text; the text of a point has
    66 digits, or 130 when it starts with 04. *)
Class CurveLaws `{Curve} := {
  zero : point;
  smul : Z -> point -> point;
  add_comm P Q : point_add P Q = point_add Q P;
  add_assoc P Q R : point_add P (point_add Q R) = point_add (point_add P Q) R;
  add_zero P : point_add zero P = P;
  smul_0 P : smul 0 P = zero;
  smul_1 P : smul 1 P = P;
  smul_plus a b P : smul (a + b) P = point_add (smul a P) (smul b P);
  smul_mul a b P : smul (a * b) P = smul a (smul b P);
  smul_add a P Q : smul a (point_add P Q) = point_add (smul a P) (smul a Q);
  smul_order P : smul N P = zero;
  base_nonzero : BASE <> zero;
  base_generates P : exists k, P = smul k BASE;
  multiply_eq P n : multiply P n = if (1 <=? n) && (n <? N) then Ok (smul n P) else Err GenericError;
  toHex_zero : toHex zero = Err GenericError;
  toHex_ok P : P <> zero -> exists h, toHex P = Ok h /\ fromHex h = Ok P;
  fromHex_nonzero h P : fromHex h = Ok P -> P <> zero;
  fromHex_length h P : fromHex h = Ok P -> String.length h = match String.get 1 h with Some "4"%char => 130%nat | _ => 66%nat end
}.

(** ** The group *)

Section Group.
Context `{CurveLaws}.

Lemma smul_zero k : smul k zero = zero.
Proof. by rewrite <- (smul_0 zero), <- smul_mul, Z.mul_0_r. Qed.

Lemma smul_cong a b P : a == b -> smul a P = smul b P.
Proof.
  intros [k Hk]. replace a with (b + k * N) by lia. by rewrite smul_plus, smul_mul, smul_order, smul_zero, add_comm, add_zero.
Qed.

#[export] Instance smul_proper : Proper (eqN ==> eq ==> eq) smul.
Proof. intros a b Hab P Q ->. by apply smul_cong. Qed.

Lemma add_opp P : point_add P (smul (-1) P) = zero.
Proof. rewrite <- (smul_1 P) at 1. by rewrite <- smul_plus, smul_0. Qed.

Lemma add_cancel P Q R : point_add P Q = point_add P R -> Q = R.
Proof.
  intros HQR. rewrite <- (add_zero Q), <- (add_zero R), <- (add_opp P), (add_comm P), <- !add_assoc. by rewrite HQR.
Qed.

Lemma smul_nonzero a P : P <> zero -> unit a -> smul a P <> zero.
Proof.
  intros HP Ha Hz. apply HP. by rewrite <- (smul_1 P), <- (smul_cong _ _ P (inverse_mul a Ha)), smul_mul, Hz, smul_zero.
Qed.

(** The logarithm is determined modulo the order. *)
Lemma smul_inj a b P : P <> zero -> smul a P = smul b P -> a == b.
Proof.
  intros HP Hab. assert (Hz : smul (a - b) P = zero).
  { apply (add_cancel (smul b P)). rewrite <- smul_plus. replace (b + (a - b)) with a by lia. by rewrite Hab, add_comm, add_zero. }
  destruct (Znumtheory.Zdivide_dec N (a - b)) as [Hd|Hd]; [exact Hd|]. exfalso. apply (smul_nonzero (a - b) P HP); [|done]. apply unit_of_nonzero. unfold eqN. by rewrite Z.sub_0_r.
Qed.

Lemma smul_cancel a P Q : unit a -> smul a P = smul a Q -> P = Q.
Proof.
  intros Ha Hpq. rewrite <- (smul_1 P), <- (smul_1 Q), <- (smul_cong _ _ P (inverse_mul a Ha)), <- (smul_cong _ _ Q (inverse_mul a Ha)).
  by rewrite !smul_mul, Hpq.
Qed.

Lemma multiply_ok P k : 1 <= k < N -> multiply P k = Ok (smul k P).
Proof. intros Hk. rewrite multiply_eq. by rewrite (proj2 (Z.leb_le 1 k)), (proj2 (Z.ltb_lt k N)) by lia. Qed.

Lemma multiply_inv P k Q : multiply P k = Ok Q -> 1 <= k < N /\ Q = smul k P.
Proof. rewrite multiply_eq. destruct ((1 <=? k) && (k <? N)) eqn:E; [|done]. intros [= <-]. b2p. split; [lia|done]. Qed.

(** [pointToHex] as a function. *)
Definition hex (P : point) : string := match toHex P with Ok h => h | Err _ => "" end.

Lemma toHex_hex P : P <> zero -> toHex P = Ok (hex P).
Proof. intros HP. unfold hex. by destruct (toHex_ok P HP) as (h & -> & _). Qed.

Lemma fromHex_hex P : P <> zero -> fromHex (hex P) = Ok P.
Proof. intros HP. unfold hex. by destruct (toHex_ok P HP) as (h & -> & Hh). Qed.

Lemma toHex_inv P h : toHex P = Ok h -> h = hex P.
Proof. unfold hex. by intros ->. Qed.

Lemma hex_nonempty P : P <> zero -> hex P <> EmptyString.
Proof. intros HP Hh. pose proof (fromHex_length _ _ (fromHex_hex P HP)) as Hl. rewrite Hh in Hl. done. Qed.

End Group.

(** ** The text of a scalar *)

Lemma read_hex_app s t : forall acc, read_hex acc (s ++ t)%string = match read_hex acc s with Some a => read_hex a t | None => None end.
Proof. induction s as [|c s IH]; intros acc; [done|].
  change (String c s ++ t)%string with (String c (s ++ t)%string). cbn [read_hex]. destruct (hex_digit_value c); [apply IH|done].
Qed.

Lemma hex_char_value d : 0 <= d < 16 -> hex_digit_value (hex_char d) = Some d.
Proof.
  intros Hd. assert (Hall : forallb (fun n => match hex_digit_value (hex_char (Z.of_nat n)) with Some v => v =? Z.of_nat n | None => false end) (seq 0 16) = true) by (vm_compute; reflexivity).
  rewrite forallb_forall in Hall. specialize (Hall (Z.to_nat d) ltac:(apply in_seq; lia)). cbv beta in Hall. rewrite Z2Nat.id in Hall by lia.
  destruct (hex_digit_value (hex_char d)); [|done]. by apply Z.eqb_eq in Hall as ->.
Qed.

Lemma read_hex_text k : forall n acc, read_hex acc (hex_text k n) = Some (acc * 16 ^ Z.of_nat k + n mod 16 ^ Z.of_nat k).
Proof.
  induction k as [|k IH]; intros n acc.
  - cbn [hex_text read_hex]. rewrite Z.pow_0_r, Z.mod_1_r. f_equal. lia.
  - cbn [hex_text]. rewrite read_hex_app, IH. cbn [read_hex]. rewrite hex_char_value by (apply Z.mod_pos_bound; lia). f_equal.
    rewrite Nat2Z.inj_succ, Z.pow_succ_r by lia. rewrite Z.rem_mul_r by lia. ring.
Qed.

Lemma length_string_app (s t : string) : String.length (s ++ t)%string = (String.length s + String.length t)%nat.
Proof. induction s as [|c s IH]; [done|]. change (String c s ++ t)%string with (String c (s ++ t)%string). cbn [String.length Nat.add]. by rewrite IH. Qed.

Lemma length_hex_text k : forall n, String.length (hex_text k n) = k.
Proof. induction k as [|k IH]; intros n; [done|]. cbn [hex_text]. rewrite length_string_app, IH. cbn. lia. Qed.

Lemma list_of_app (s t : string) : list_ascii_of_string (s ++ t)%string = list_ascii_of_string s ++ list_ascii_of_string t.
Proof. induction s as [|c s IH]; [done|]. change (String c s ++ t)%string with (String c (s ++ t)%string). cbn [list_ascii_of_string app]. by rewrite IH. Qed.

Definition not_digit (w : list nat) : bool :=
  match w with n :: _ => (n <? 256)%nat && match hex_digit_value (ascii_of_nat n) with Some _ => false | None => true end | [] => false end.

Lemma strip_hex c l : hex_digit_value c <> None -> omap (fun w => strip w (c :: l)) white_space = [].
Proof.
  intros Hc. assert (Hw : forallb not_digit white_space = true) by (vm_compute; reflexivity).
  induction white_space as [|w ws IH]; [done|]. cbn [forallb] in Hw. apply andb_prop in Hw as [Hw Hws]. cbn [omap list_omap].
  destruct w as [|n w]; [done|]. cbn [strip]. destruct (Nat.eqb_spec (nat_of_ascii c) n) as [<-|]; [|by apply IH].
  unfold not_digit in Hw. rewrite ascii_nat_embedding in Hw. destruct (hex_digit_value c); [|done]. by rewrite andb_false_r in Hw.
Qed.

(** A text that ends in a digit ends there. *)
Lemma trim_end_digit s c : hex_digit_value c <> None -> trim_end (s ++ String c "")%string = (s ++ String c "")%string.
Proof.
  intros Hc. unfold trim_end. rewrite length_string_app, Nat.add_comm, list_of_app, rev_app_distr. cbn [String.length Nat.add rev list_ascii_of_string app trim_reversed].
  rewrite strip_hex by done. change (c :: rev (list_ascii_of_string s)) with (rev [c] ++ rev (list_ascii_of_string s)).
  rewrite <- rev_app_distr, rev_involutive. change [c] with (list_ascii_of_string (String c "")). by rewrite <- list_of_app, string_of_list_ascii_of_string.
Qed.

Lemma hexToScalar_text k n : 0 <= n < 16 ^ Z.of_nat (S k) -> hexToScalar (hex_text (S k) n) = Ok n.
Proof.
  intros Hn. unfold hexToScalar. assert (He : trim_end (hex_text (S k) n) = hex_text (S k) n).
  { cbn [hex_text]. apply trim_end_digit. by rewrite hex_char_value by (apply Z.mod_pos_bound; lia). }
  rewrite He. pose proof (read_hex_text (S k) n 0) as Hr. rewrite Z.mod_small in Hr by done. destruct (hex_text (S k) n) eqn:E; [|by rewrite Hr].
  pose proof (length_hex_text (S k) n) as Hl. rewrite E in Hl. done.
Qed.

Lemma N_below : N < 16 ^ Z.of_nat 64.
Proof. vm_compute. reflexivity. Qed.

Lemma hexToScalar_scalar s : 0 <= s < N -> hexToScalar (scalarToHex s) = Ok s.
Proof. intros Hs. apply (hexToScalar_text 63). pose proof N_below. lia. Qed.

Lemma scalarToHex_inj a b : 0 <= a < N -> 0 <= b < N -> scalarToHex a = scalarToHex b -> a = b.
Proof. intros Ha Hb Hab. pose proof (hexToScalar_scalar a Ha) as E. rewrite Hab, hexToScalar_scalar in E by done. congruence. Qed.
