(* ===== verification/PvssDleq.v ===== *)
(** * Proofs of equal discrete logarithms: completeness and soundness

    An honest proof is accepted exactly when neither of its scalars is zero.
    Two proofs accepted for the same announcements under hashes that give
    different challenges yield the common logarithm. *)

From Stdlib Require Import ZArith Lia Bool List String Ascii Morphisms Setoid.
From stdpp Require Import base tactics list strings.
From S2P Require Import Prelude Codec SecretSharing PvssArith PvssCurve.
Import Pvss.

(** The proof object with these scalars. *)
Definition proof_of (e s : Z) : val := VObj [("e", VStr (scalarToHex e)); ("s", VStr (scalarToHex s))].

(** One of the scalars of the proof is zero. *)
Definition degenerate (proof : val) : bool :=
  strict_eqb proof.["e"] (VStr (scalarToHex 0)) || strict_eqb proof.["s"] (VStr (scalarToHex 0)).

Lemma degenerate_of e s : 0 <= e < N -> 0 <= s < N -> degenerate (proof_of e s) = (e =? 0) || (s =? 0).
Proof.
  assert (Hz : forall a, 0 <= a < N -> String.eqb (scalarToHex a) (scalarToHex 0) = (a =? 0)).
  { intros a Ha. destruct (Z.eqb_spec a 0) as [->|Hn]; [apply String.eqb_refl|]. apply String.eqb_neq. intros E. by apply scalarToHex_inj in E. }
  intros He Hs. unfold degenerate, proof_of. change (String.eqb (scalarToHex e) (scalarToHex 0) || String.eqb (scalarToHex s) (scalarToHex 0) = (e =? 0) || (s =? 0)).
  by rewrite !Hz.
Qed.

(** The scalars a verifier reads in a proof. *)
Definition scalars (proof : val) : option (Z * Z) :=
  match falsy proof, proof.["e"], proof.["s"] with
  | false, VStr e, VStr s => match hexToScalar e, hexToScalar s with Ok e, Ok s => Some (e, s) | _, _ => None end
  | _, _, _ => None
  end.

Section Dleq.
Context `{Platform} `{CurveLaws}.

(** What the verifier recomputes. *)
Definition announce (base A : point) (e s : Z) : point := point_add (smul s base) (smul e A).

Lemma challenge_range base1 A base2 B R1 R2 e : challenge base1 A base2 B R1 R2 = Ok e -> 0 <= e < N.
Proof. unfold challenge. intros He. oks. apply modN_range. Qed.

Lemma verifyDleq_true base1 A base2 B proof : verifyDleq base1 A base2 B proof = true <->
  exists e s, scalars proof = Some (e, s) /\ 1 <= e < N /\ 1 <= s < N /\ challenge base1 A base2 B (announce base1 A e s) (announce base2 B e s) = Ok e.
Proof.
  unfold verifyDleq, check_dleq, scalars. destruct (falsy proof); [split; [done|by intros (? & ? & ? & _)]|].
  destruct proof.["e"] as [| | | | | | |e| |]; try (split; [done|by intros (? & ? & ? & _)]).
  destruct proof.["s"] as [| | | | | | |s| |]; try (split; [done|by intros (? & ? & ? & _)]).
  destruct (hexToScalar e) as [e'|]; cbn [bindR]; [|split; [done|by intros (? & ? & ? & _)]].
  destruct (hexToScalar s) as [s'|]; cbn [bindR]; [|split; [done|by intros (? & ? & ? & _)]]. split.
  - intros Hv. destruct (bindR _ _) as [b|] eqn:E in Hv; [|done]. subst b. oks. repeat match goal with Hm : multiply _ _ = Ok _ |- _ => apply multiply_inv in Hm as [? ->] end.
    exists e', s'. split; [done|]. assert (Hs : s' <> 0) by (intros ->; change (0 =? 0) with true in *; cbv iota in *; lia). rewrite (proj2 (Z.eqb_neq s' 0) Hs) in *. repeat split; try lia.
    match goal with Hx : challenge _ _ _ _ _ _ = Ok ?y, Hy : (e' =? ?y) = true |- _ => apply Z.eqb_eq in Hy; subst y; exact Hx end.
  - intros (e1 & s1 & [= -> ->] & He & Hs & Hc). rewrite (proj2 (Z.eqb_neq s1 0)) by lia. rewrite !multiply_ok by lia. cbn [bindR].
    unfold announce in Hc. rewrite Hc. cbn [bindR]. apply Z.eqb_refl.
Qed.

Lemma scalars_of e s : 0 <= e < N -> 0 <= s < N -> scalars (proof_of e s) = Some (e, s).
Proof.
  intros He Hs. unfold scalars, proof_of. cbn [falsy].
  change (match hexToScalar (scalarToHex e), hexToScalar (scalarToHex s) with Ok e, Ok s => Some (e, s) | _, _ => None end = Some (e, s)).
  by rewrite !hexToScalar_scalar.
Qed.

Context (randombytes : nat -> bytes) (patience : nat).

Lemma randomScalar_range n x n' : randomScalar randombytes patience n = (Ok x, n') -> 1 <= x < N.
Proof.
  unfold randomScalar. generalize patience as fuel. intros fuel. revert n. induction fuel as [|fuel IH]; intros n Hr; [done|]. cbn [randomScalar_loop] in Hr.
  rewrite bind_gets, bind_modify in Hr. destruct (modN _ =? 0) eqn:E in Hr; [by apply IH in Hr|]. injection Hr as <- _. b2p.
  unfold id in *. pose proof (modN_range (be_val (randombytes n))). lia.
Qed.

Lemma proveDleq_ok base1 A base2 B x n proof n' : proveDleq randombytes patience base1 A base2 B x n = (Ok proof, n') ->
  exists k e, 1 <= k < N /\ challenge base1 A base2 B (smul k base1) (smul k base2) = Ok e /\ 0 <= e < N /\ proof = proof_of e (modN (k - e * x)).
Proof.
  unfold proveDleq. intros Hp. run_ok. repeat match goal with Hm : multiply _ _ = Ok _ |- _ => apply multiply_inv in Hm as [? ->] end.
  match goal with Hc : challenge _ _ _ _ _ _ = Ok ?e |- _ => pose proof (challenge_range _ _ _ _ _ _ _ Hc); do 2 eexists; split; [|split; [exact Hc|]]; done end.
Qed.

(** The verifier's announcements are the prover's. *)
Lemma announce_honest base x k e : announce base (smul x base) e (modN (k - e * x)) = smul k base.
Proof. unfold announce. rewrite <- smul_mul, <- smul_plus. apply smul_cong. rewrite modN_eqN. eqN_ring. Qed.

Lemma honest_proof base1 base2 x n proof n' :
  proveDleq randombytes patience base1 (smul x base1) base2 (smul x base2) x n = (Ok proof, n') ->
  verifyDleq base1 (smul x base1) base2 (smul x base2) proof = negb (degenerate proof).
Proof.
  intros (k & e & Hk & Hc & He & ->)%proveDleq_ok. pose proof (modN_range (k - e * x)) as Hs. rewrite degenerate_of, negb_orb by done.
  apply eq_true_iff_eq. rewrite verifyDleq_true, andb_true_iff, !negb_true_iff, !Z.eqb_neq. split.
  - intros (e' & s' & Hsc & ? & ? & _). rewrite scalars_of in Hsc by done. injection Hsc as <- <-. lia.
  - intros [Hez Hsz]. exists e, (modN (k - e * x)). rewrite scalars_of, !announce_honest by done. repeat split; lia || done.
Qed.

End Dleq.

(** The common logarithm is extracted from two challenges. *)
Lemma extract `{CurveLaws} base A e s e' s' : 1 <= e < N -> 1 <= e' < N -> e <> e' -> announce base A e s = announce base A e' s' ->
  A = smul ((s - s') * inverse (e' - e)) base.
Proof.
  intros He He' Hne Ha. assert (Hu : unit (e' - e)).
  { apply unit_of_nonzero. rewrite eqN_mod. intros Hz. rewrite Z.mod_0_l in Hz by done. apply Z.mod_divide in Hz as [c Hc]; [|done]. assert (c = 0) by nia. lia. }
  apply (smul_cancel (e' - e) _ _ Hu). rewrite <- smul_mul. transitivity (smul (s - s') base).
  - apply (add_cancel (point_add (smul s' base) (smul e A))). rewrite <- !add_assoc, <- smul_plus. replace (e + (e' - e)) with e' by lia.
    unfold announce in Ha. rewrite <- Ha, add_assoc, (add_comm _ (smul (s - s') base)), add_assoc, <- smul_plus.
    replace (s - s' + s') with s by lia. done.
  - apply smul_cong. rewrite (Z.mul_comm (e' - e)), <- Z.mul_assoc, inverse_mul by done. eqN_ring.
Qed.
