(* ===== verification/PvssShares.v ===== *)
(** * Commitments, shares and reconstruction

    The commitments determine a polynomial; [commitmentShare] is its value in
    the exponent of the commitment generator; a share is its value under the
    holder's key; [reconstruct] is its value at zero. *)

From Stdlib Require Import ZArith Lia Bool List String Ascii Morphisms Setoid.
From stdpp Require Import base tactics list strings.
From S2P Require Import Prelude Codec SecretSharing PvssArith PvssCurve PvssDleq.
Import Pvss.

Section Shares.
Context `{Platform} `{CurveLaws}.

(** ** Commitments *)

(** The value of the committed polynomial, in the group. *)
Fixpoint feldman (points : list point) (x : Z) : point :=
  match points with [] => zero | C :: rest => point_add C (smul x (feldman rest x)) end.

Lemma feldman_commit C coeffs x : feldman (map (fun a => smul a C) coeffs) x = smul (eval coeffs x) C.
Proof.
  induction coeffs as [|a coeffs IH]; [by rewrite smul_0|]. cbn [map feldman eval fold_right]. rewrite IH, <- smul_mul, <- smul_plus.
  apply smul_cong. unfold eval. eqN_ring.
Qed.

Lemma commitmentShare_loop_ok x points : unit x -> forall acc xPow, unit xPow ->
  commitmentShare_loop points x acc xPow = Ok (match points, acc with
    | [], _ => acc
    | _, None => Some (smul xPow (feldman points x))
    | _, Some a => Some (point_add a (smul xPow (feldman points x))) end).
Proof.
  intros Hx. induction points as [|C points IH]; intros acc xPow Hp; [done|]. cbn [commitmentShare_loop].
  pose proof (modN_nonzero xPow Hp) as Hr. rewrite (proj2 (Z.eqb_neq (modN xPow) 0)) by lia. rewrite multiply_ok by done. cbn [bindR].
  rewrite (smul_cong _ _ C (modN_eqN xPow)). assert (Hn : unit (modN (xPow * x))) by (eapply unit_cong; [symmetry; apply modN_eqN|by apply unit_mul]).
  rewrite IH by done. f_equal. cbn [feldman]. rewrite !smul_add, <- !smul_mul, (smul_cong _ _ _ (modN_eqN (xPow * x))).
  destruct points as [|D points]; destruct acc as [a|]; try (by rewrite add_assoc); try done; cbn [feldman]; by rewrite smul_zero, (add_comm _ zero), add_zero.
Qed.

Lemma commitmentShare_ok points x : unit x -> points <> [] -> commitmentShare points x = Ok (Some (feldman points x)).
Proof.
  intros Hx Hp. unfold commitmentShare. rewrite commitmentShare_loop_ok by done. destruct points; [done|]. by rewrite smul_1.
Qed.

(** Every list of commitments commits to a polynomial. *)
Lemma base_unit P : P <> zero -> exists k, unit k /\ P = smul k BASE.
Proof.
  intros HP. destruct (base_generates P) as [k ->]. exists k. split; [|done]. apply unit_of_nonzero. intros Hk. apply HP. by rewrite (smul_cong _ _ _ Hk), smul_0.
Qed.

Lemma logarithm C P : C <> zero -> exists a, P = smul a C.
Proof.
  intros HC. destruct (base_unit C HC) as (c & Hc & ->), (base_generates P) as [k ->]. exists (k * inverse c). rewrite <- smul_mul. apply smul_cong.
  rewrite <- Z.mul_assoc, inverse_mul by done. eqN_ring.
Qed.

Lemma committed C points : C <> zero -> exists coeffs, List.length coeffs = List.length points /\ points = map (fun a => smul a C) coeffs.
Proof.
  intros HC. induction points as [|P points (coeffs & Hl & ->)]; [by exists []|]. destruct (logarithm C P HC) as [a ->]. exists (a :: coeffs). split; [by rewrite <- (length_map (fun a => smul a C) (a :: coeffs))|done].
Qed.

(** The commitment generator is a point. *)
Lemma generator_nonzero C : commit_generator = Ok C -> C <> zero.
Proof.
  unfold commit_generator, hashToCurveSimple. generalize 0, 256%nat. intros counter tries. revert counter.
  induction tries as [|tries IH]; intros counter HC; [done|]. cbn [hashToCurve_loop] in HC. destruct (fromHex _) eqn:E; [|by eapply IH].
  injection HC as <-. by eapply fromHex_nonzero.
Qed.

Lemma hexToPoint_nonzero v P : hexToPoint v = Ok P -> P <> zero.
Proof. destruct v; try done. apply fromHex_nonzero. Qed.

(** ** Sums in the group *)

Fixpoint weighted (xs : list Z) (f : Z -> Z) (points : list (Z * point)) : point :=
  match points with [] => zero | (i, P) :: rest => point_add (smul (f i) P) (weighted xs f rest) end.

(** The loop of [reconstruct], when every coefficient has an inverse. *)
Lemma combine_ok xs points : index_set xs -> (forall i P, In (i, P) points -> In i xs) -> forall acc,
  combine (map (fun i => (i, modN (coefficient xs i))) xs) points acc = Ok (match points, acc with
    | [], _ => acc
    | _, None => Some (weighted xs (coefficient xs) points)
    | _, Some a => Some (point_add a (weighted xs (coefficient xs) points)) end).
Proof.
  intros Hx. induction points as [|[i P] points IH]; intros Hin acc; [done|]. cbn [combine]. rewrite (lookup_index_map (fun i => modN (coefficient xs i))) by (by apply (Hin i P); left).
  pose proof (modN_nonzero _ (coefficient_unit xs i Hx (Hin i P (or_introl eq_refl)))) as Hr. rewrite (proj2 (Z.eqb_neq _ 0)) by lia.
  rewrite multiply_ok by done. cbn [bindR]. rewrite (smul_cong _ _ P (modN_eqN _)), IH by (intros j Q Hj; apply (Hin j Q); by right). f_equal. cbn [weighted].
  destruct points as [|[j Q] points]; destruct acc as [a|]; try (by rewrite add_assoc); try done; cbn [weighted]; by rewrite (add_comm _ zero), add_zero.
Qed.

(** The points of a polynomial combine to its value at zero. *)
Lemma weighted_eval xs coeffs ys : weighted xs (coefficient xs) (map (fun i => (i, smul (eval coeffs i) BASE)) ys) =
  smul (sum_over ys (fun i => coefficient xs i * eval coeffs i)) BASE.
Proof.
  induction ys as [|i ys IH]; [by rewrite smul_0|]. cbn [map weighted sum_over fold_right]. rewrite IH, <- smul_mul, <- smul_plus. done.
Qed.

Lemma weighted_secret xs coeffs : index_set xs -> NoDup xs -> xs <> [] -> (List.length coeffs <= List.length xs)%nat ->
  weighted xs (coefficient xs) (map (fun i => (i, smul (eval coeffs i) BASE)) xs) = smul (eval coeffs 0) BASE.
Proof. intros [_ Hs] Hn Hne Hl. rewrite weighted_eval. apply smul_cong. by apply interpolation. Qed.

(** ** [reconstruct] *)

(** The proof of a share, when it has one. *)
Definition proof_holds (sh : val) : bool :=
  if negb (falsy sh.["proof"]) && negb (falsy sh.["shareholder"]) && negb (falsy sh.["encryptedShare"]) then
    match hexToPoint sh.["shareholder"], hexToPoint sh.["share"], hexToPoint sh.["encryptedShare"] with
    | Ok yi, Ok Si, Ok Yi => verifyDleq BASE yi Si Yi sh.["proof"]
    | _, _, _ => false
    end
  else true.

(** The share is the point [P] at the index [i]. *)
Definition share_is (sh : val) (ip : Z * point) : Prop :=
  falsy sh = false /\ sh.["index"] = VNum ip.1 /\ 1 <= ip.1 /\ hexToPoint sh.["share"] = Ok ip.2 /\ proof_holds sh = true.

Lemma integer_from_ok minimum v n : integer_from minimum v = Some n <-> v = VNum n /\ minimum <= n.
Proof.
  unfold integer_from. destruct v as [| |m| | | | | | |]; try (split; [done|by intros [? _]]). destruct (minimum <=? m) eqn:E; b2p; split; [by intros [= ->]|by intros [[= ->] _]|done|].
  intros [[= ->] ?]. lia.
Qed.

Lemma collect_shares_ok shares ips : forall seen, collect_shares shares seen = Ok ips <->
  Forall2 share_is shares ips /\ NoDup (map fst ips) /\ (forall i, In i (map fst ips) -> ~ In i seen).
Proof.
  revert ips. induction shares as [|sh shares IH]; intros ips seen; cbn [collect_shares].
  { split; [intros [= <-]; split; [constructor|split; [constructor|done]]|intros [Hf _]; by inversion Hf]. }
  split.
  - intros Hc. destruct (falsy sh) eqn:Ef; [done|]. destruct (integer_from 1 sh.["index"]) as [i|] eqn:Ei; [|done]. apply integer_from_ok in Ei as [Ei Hi].
    apply bindR_ok in Hc as ([] & Hd%throw_if_ok & Hc). apply bindR_ok in Hc as ([] & Hp & Hc). apply bindR_ok in Hc as (P & HP & Hc).
    apply bindR_ok in Hc as (rest & Hr & [= <-]). apply IH in Hr as (Hf & Hn & Hs). split; [constructor; [|done]|split].
    + repeat split; try done. unfold proof_holds. destruct (_ && _); [|done]. apply bindR_ok in Hp as (yi & -> & Hp). apply bindR_ok in Hp as (Si & -> & Hp).
      apply bindR_ok in Hp as (Yi & -> & Hp). apply throw_if_ok in Hp. by apply negb_false_iff in Hp.
    + cbn. apply NoDup_cons. split; [|done]. rewrite list_elem_of_In. intros Hin. by apply (Hs i Hin); left.
    + cbn. intros j [<-|Hj] Hin; [|by apply (Hs j Hj); right]. assert (He : existsb (Z.eqb i) seen = true) by (apply existsb_exists; exists i; by rewrite Z.eqb_refl).
      congruence.
  - intros (Hf & Hn & Hs). inversion Hf as [|? [i P] ? rest (Ef & Ei & Hi & HP & Hp) Hr]; subst. cbn [fst snd] in *. cbn [map fst] in Hn, Hs.
    apply NoDup_cons in Hn as [Hni Hn]. rewrite list_elem_of_In in Hni. rewrite Ef, (proj2 (integer_from_ok 1 _ i)) by done.
    assert (Hseen : existsb (Z.eqb i) seen = false).
    { apply not_true_is_false. intros (j & Hj & E)%existsb_exists. b2p. subst j. by apply (Hs i); [left|]. }
    rewrite Hseen. cbn [throw_if bindR]. rewrite HP. unfold proof_holds in Hp. rewrite HP in Hp.
    assert (Hrest : collect_shares shares (i :: seen) = Ok rest).
    { apply IH. split; [done|]. split; [done|]. intros j Hj [<-|Hin]; [done|]. apply (Hs j); [by right|done]. }
    destruct (_ && _).
    + destruct (hexToPoint sh.["shareholder"]); [|done]. destruct (hexToPoint sh.["encryptedShare"]); [|done]. cbn [bindR]. rewrite Hp. cbn [negb throw_if bindR]. by rewrite Hrest.
    + cbn [bindR]. by rewrite Hrest.
Qed.

(** The key of a point, and what is returned for it. *)
Definition key_of (P : point) : string := bytes_hex (generichash (ascii_bytes (KEY_DOMAIN ++ hex P))).
Definition recovered (P : point) : val := VObj [("secretPoint", VStr (hex P)); ("key", VStr (key_of P))].

Lemma keyFromPoint_ok P : P <> zero -> keyFromPoint P = Ok (key_of P).
Proof. intros HP. unfold keyFromPoint, pointToHex. by rewrite toHex_hex. Qed.

Lemma keyFromPoint_inv P k : keyFromPoint P = Ok k -> k = key_of P.
Proof. unfold keyFromPoint, pointToHex. intros Hk. oks. unfold key_of. by rewrite (toHex_inv P) with (h := x). Qed.

(** Shares that are the points of a polynomial, enough of them. *)
Lemma reconstruct_ok params shares ips r : params_of params = params -> params.["shares"] = VList shares ->
  Forall2 share_is shares ips -> index_set (map fst ips) -> NoDup (map fst ips) -> ips <> [] ->
  (forall t, params.["threshold"] = VNum t -> t <= Z.of_nat (List.length shares)) ->
  r = weighted (map fst ips) (coefficient (map fst ips)) ips -> r <> zero -> reconstruct params = Ok (recovered r).
Proof.
  intros Hp Hs Hf Hx Hn Hne Ht -> Hr. unfold reconstruct. rewrite Hp, Hs. destruct shares as [|sh shares]; [by inversion Hf; subst|].
  assert (Hthr : (match params.["threshold"] with VNum t => Z.of_nat (List.length (sh :: shares)) <? t | _ => false end) = false).
  { destruct params.["threshold"]; try done. apply Z.ltb_ge. by apply Ht. }
  rewrite Hthr. cbn [throw_if bindR]. rewrite (proj2 (collect_shares_ok _ ips [])) by (repeat split; [done|done|intros i _ []]). cbn [bindR].
  rewrite lagrangeAtZero_ok by done. cbn [bindR]. rewrite combine_ok by (try done; intros i P Hin; by apply (in_map fst) in Hin). cbn [bindR].
  destruct ips as [|ip ips]; [done|]. unfold pointToHex. rewrite toHex_hex by done. cbn [bindR]. by rewrite keyFromPoint_ok.
Qed.

(** What a successful call has done. *)
Lemma reconstruct_inv params shares r : params_of params = params -> params.["shares"] = VList shares -> reconstruct params = Ok r ->
  exists ips, Forall2 share_is shares ips /\ NoDup (map fst ips) /\ ips <> [] /\
  (index_set (map fst ips) -> r = recovered (weighted (map fst ips) (coefficient (map fst ips)) ips)).
Proof.
  intros Hp Hs. unfold reconstruct. rewrite Hp, Hs. destruct shares as [|sh shares]; [done|]. intros Hr. apply bindR_ok in Hr as ([] & _ & Hr).
  apply bindR_ok in Hr as (ips & (Hf & Hn & _)%collect_shares_ok & Hr). apply bindR_ok in Hr as (lambdas & Hl & Hr). apply bindR_ok in Hr as (sum & Hc & Hr).
  exists ips. split; [done|]. split; [done|]. split; [intros ->; by inversion Hf|]. intros Hx. rewrite lagrangeAtZero_ok in Hl by done. injection Hl as <-.
  rewrite combine_ok in Hc by (try done; intros i P Hin; by apply (in_map fst) in Hin). injection Hc as <-.
  destruct ips as [|ip ips]; [by inversion Hf|]. apply bindR_ok in Hr as (h & Hh%toHex_inv & Hr). apply bindR_ok in Hr as (k & Hk%keyFromPoint_inv & [= <-]).
  by rewrite Hh, Hk.
Qed.

End Shares.
