(* ===== verification/PvssDealer.v ===== *)
(** * The dealer, the holders and the relay

    What [split] publishes, what [decryptShare] makes of a share, and the
    verdict of a relay on the dealer's bundle. *)

From Stdlib Require Import ZArith Lia Bool List String Ascii Morphisms Setoid.
From stdpp Require Import base tactics list strings.
From S2P Require Import Prelude Codec SecretSharing PvssArith PvssCurve PvssDleq PvssShares.
Import Pvss.

Section Dealer.
Context `{Platform} `{CurveLaws} (C_GEN : point) (text_of_object : val -> string) (randombytes : nat -> bytes) (patience : nat).
Notation split := (split C_GEN text_of_object randombytes patience).
Notation decryptShare := (decryptShare text_of_object randombytes patience).

(** ** What a share is *)

(** The share of the holder [yi] at the index, and its proof. *)
Definition honest_share (coeffs : list Z) (yi : point) (index : Z) (share : val) : Prop := exists proof,
  let pi := polyEval coeffs index in
  share = VObj [("index", VNum index); ("shareholder", VStr (hex yi)); ("encryptedShare", VStr (hex (smul pi yi))); ("proof", proof)] /\
  1 <= pi < N /\ verifyDleq C_GEN (smul pi C_GEN) yi (smul pi yi) proof = negb (degenerate proof).

(** The share the holder decrypts from it, and its proof. *)
Definition honest_opening (coeffs : list Z) (yi : point) (index : Z) (opened : val) : Prop := exists proof,
  let pi := polyEval coeffs index in
  opened = VObj [("index", VNum index); ("share", VStr (hex (smul pi BASE))); ("shareholder", VStr (hex yi));
    ("encryptedShare", VStr (hex (smul pi yi))); ("proof", proof)] /\
  verifyDleq BASE yi (smul pi BASE) (smul pi yi) proof = negb (degenerate proof).

Lemma encrypt_share_ok coeffs yi index n share n' :
  encrypt_share C_GEN randombytes patience coeffs yi index n = (Ok share, n') -> honest_share coeffs yi index share.
Proof.
  unfold encrypt_share. intros He. run_ok. repeat match goal with Hm : multiply _ _ = Ok _ |- _ => apply multiply_inv in Hm as [? ->] | Hh : pointToHex _ = Ok _ |- _ => apply toHex_inv in Hh as -> end.
  match goal with Hp : proveDleq _ _ _ _ _ _ _ _ = (Ok ?proof, _) |- _ => exists proof; apply honest_proof in Hp end. split; [reflexivity|]. split; [assumption|]. assumption.
Qed.

Lemma encrypt_shares_ok coeffs recipients : forall index n shares n',
  encrypt_shares C_GEN randombytes patience coeffs recipients index n = (Ok shares, n') ->
  List.length shares = List.length recipients /\
  forall k share, shares !! k = Some share -> exists yi, recipients !! k = Some yi /\ honest_share coeffs yi (index + Z.of_nat k) share.
Proof.
  induction recipients as [|yi recipients IH]; intros index n shares n' He; cbn [encrypt_shares] in He; run_ok.
  - split; [done|]. intros k share Hk. by rewrite lookup_nil in Hk.
  - match goal with Hs : encrypt_share _ _ _ _ _ _ _ = (Ok _, _), He : encrypt_shares _ _ _ _ _ _ _ = (Ok _, _) |- _ => apply encrypt_share_ok in Hs; apply IH in He as [Hl Hr] end.
    split; [cbn; lia|]. intros [|k] share Hk.
    + injection Hk as <-. exists yi. split; [done|]. by rewrite Z.add_0_r.
    + destruct (Hr k share Hk) as (y & Hy & Hh). exists y. split; [done|]. by replace (index + Z.of_nat (S k)) with (index + 1 + Z.of_nat k) by lia.
Qed.

Lemma random_coefficients_ok k : forall n l n', random_coefficients randombytes patience k n = (Ok l, n') ->
  List.length l = k /\ Forall (fun a => 1 <= a < N) l.
Proof.
  induction k as [|k IH]; intros n l n' Hr; cbn [random_coefficients] in Hr; run_ok; [done|].
  match goal with Hs : randomScalar _ _ _ = (Ok _, _), Hrest : random_coefficients _ _ _ _ = (Ok _, _) |- _ => apply randomScalar_range in Hs; apply IH in Hrest as [<- Hl] end.
  split; [done|]. by constructor.
Qed.

Lemma parse_shareholders_ok l : forall idx points, parse_shareholders l idx = Ok points -> Forall2 (fun pk P => hexToPoint pk = Ok P) l points.
Proof.
  induction l as [|pk l IH]; intros idx points Hp; cbn [parse_shareholders] in Hp; [injection Hp as <-; constructor|].
  destruct (hexToPoint pk) as [P|] eqn:E; cbn [bindR] in Hp; [|done]. apply bindR_ok in Hp as (rest & Hr & [= <-]). constructor; [done|by eapply IH].
Qed.

Lemma map_all_Forall2 {A B} (f : A -> result B) l ys : map_all f l = Ok ys -> Forall2 (fun x y => f x = Ok y) l ys.
Proof.
  revert ys. induction l as [|x l IH]; intros ys Hm; cbn [map_all] in Hm; [injection Hm as <-; constructor|].
  apply bindR_ok in Hm as (y & Hy & Hm). apply bindR_ok in Hm as (rest & Hr & [= <-]). constructor; [done|by apply IH].
Qed.

Lemma multiply_all_inv P coeffs points : map_all (multiply P) coeffs = Ok points -> points = map (fun a => smul a P) coeffs /\ Forall (fun a => 1 <= a < N) coeffs.
Proof. intros Hm%map_all_Forall2. induction Hm as [|a Q coeffs points [Ha ->]%multiply_inv _ [-> IH]]; [done|]. split; [done|by constructor]. Qed.

Lemma toHex_all_inv points texts : map_all pointToHex points = Ok texts -> texts = map hex points.
Proof. intros Hm%map_all_Forall2. induction Hm as [|P h points texts ->%toHex_inv _ ->]; done. Qed.

(** What the dealer publishes, and keeps. *)
Record dealt (params out : val) (threshold : Z) (shareholders : list val) (recipients : list point) (coeffs : list Z) (shares : list val) : Prop := {
  dealt_threshold : (params_of params).["threshold"] = VNum threshold;
  dealt_holders : (params_of params).["shareholders"] = VList shareholders;
  dealt_recipients : Forall2 (fun pk P => hexToPoint pk = Ok P) shareholders recipients;
  dealt_bounds : 1 <= threshold <= Z.of_nat (List.length shareholders) /\ Z.of_nat (List.length shareholders) <= MAX_SHARES;
  dealt_degree : Z.of_nat (List.length coeffs) = threshold;
  dealt_scalars : Forall (fun a => 1 <= a < N) coeffs;
  dealt_count : List.length shares = List.length recipients;
  dealt_shares k share : shares !! k = Some share -> exists yi, recipients !! k = Some yi /\ honest_share coeffs yi (1 + Z.of_nat k) share;
  dealt_out :
    let S := smul (eval coeffs 0) BASE in
    let commitments := map VStr (map hex (map (fun a => smul a C_GEN) coeffs)) in
    out = VObj [
      ("threshold", VNum threshold);
      ("secretPoint", VStr (hex S));
      ("key", VStr (key_of S));
      ("public", VObj [
        ("scheme", VStr SCHEME);
        ("threshold", VNum threshold);
        ("commitments", VList commitments);
        ("commitmentRoot", VStr (commitmentRootOf text_of_object commitments));
        ("encryptedShares", VList shares)])]
}.

Lemma split_ok params n out n' : split params n = (Ok out, n') ->
  exists threshold shareholders recipients coeffs shares, dealt params out threshold shareholders recipients coeffs shares.
Proof.
  unfold Pvss.split. intros Hs. destruct (integer_from 1 _) as [t|] eqn:Et; [|done]. apply integer_from_ok in Et as [Et Ht].
  destruct (params_of params).["shareholders"] as [| | | | |holders| | | |] eqn:Eh; try done.
  apply bindM_ok in Hs as ([] & ? & [Hmin ->]%throwM_ok & Hs). apply bindM_ok in Hs as ([] & ? & [Hmax ->]%throwM_ok & Hs).
  apply bindM_ok in Hs as (recipients & ? & [Hr ->]%lift_ok & Hs). apply bindM_ok in Hs as (s & n1 & _ & Hs).
  apply bindM_ok in Hs as ([] & ? & [Hsz ->]%throwM_ok & Hs). apply bindM_ok in Hs as (rest & n2 & [Hl Hc]%random_coefficients_ok & Hs).
  apply bindM_ok in Hs as (points & ? & [[-> Hsc]%multiply_all_inv ->]%lift_ok & Hs). apply bindM_ok in Hs as (texts & ? & [->%toHex_all_inv ->]%lift_ok & Hs).
  apply bindM_ok in Hs as (shares & n3 & [Hcount Hsh]%encrypt_shares_ok & Hs). run_ok.
  repeat match goal with Hm : multiply _ _ = Ok _ |- _ => apply multiply_inv in Hm as [? ->] | Hh : pointToHex _ = Ok _ |- _ => apply toHex_inv in Hh as -> | Hk : keyFromPoint _ = Ok _ |- _ => apply keyFromPoint_inv in Hk as -> end.
  b2p. exists t, holders, recipients, (s :: rest), shares. split; try done; [by eapply parse_shareholders_ok|cbn [List.length]; lia|].
  assert (He : smul s BASE = smul (eval (s :: rest) 0) BASE) by (f_equal; cbn [eval fold_right]; ring). cbv zeta. by rewrite <- He.
Qed.

(** A share of the bundle, its holder and its index. *)
Lemma dealt_share params out threshold shareholders recipients coeffs shares k share :
  dealt params out threshold shareholders recipients coeffs shares -> shares !! k = Some share ->
  exists yi, recipients !! k = Some yi /\ yi <> zero /\ honest_share coeffs yi (1 + Z.of_nat k) share /\ 1 <= 1 + Z.of_nat k <= MAX_SHARES.
Proof.
  intros D Hk. destruct (dealt_shares _ _ _ _ _ _ _ D k share Hk) as (yi & Hyi & Hh). exists yi. split; [done|].
  destruct (Forall2_lookup_r _ _ _ _ _ (dealt_recipients _ _ _ _ _ _ _ D) Hyi) as (pk & _ & HP). split; [by eapply hexToPoint_nonzero|]. split; [done|].
  pose proof (dealt_bounds _ _ _ _ _ _ _ D). pose proof (Forall2_length _ _ _ (dealt_recipients _ _ _ _ _ _ _ D)). apply lookup_lt_Some in Hyi. lia.
Qed.

Lemma dealt_coeffs params out threshold shareholders recipients coeffs shares : dealt params out threshold shareholders recipients coeffs shares -> coeffs <> [].
Proof. intros D. pose proof (dealt_degree _ _ _ _ _ _ _ D). pose proof (dealt_bounds _ _ _ _ _ _ _ D). intros ->. cbn in *. lia. Qed.

(** ** The relay *)

Lemma commitment_points coeffs : C_GEN <> zero -> Forall (fun a => 1 <= a < N) coeffs ->
  map_all hexToPoint (map VStr (map hex (map (fun a => smul a C_GEN) coeffs))) = Ok (map (fun a => smul a C_GEN) coeffs).
Proof.
  intros HC. induction 1 as [|a coeffs Ha _ IH]; [done|]. cbn [map map_all hexToPoint].
  rewrite fromHex_hex by (by apply smul_nonzero; [|apply scalar_unit]). cbn [bindR]. by rewrite IH.
Qed.

Lemma honest_commitment coeffs index : coeffs <> [] -> unit index ->
  commitmentShare (map (fun a => smul a C_GEN) coeffs) index = Ok (Some (smul (polyEval coeffs index) C_GEN)).
Proof.
  intros Hc Hi. rewrite commitmentShare_ok, feldman_commit; [|done|by destruct coeffs]. by rewrite <- (smul_cong _ _ _ (polyEval_eqN coeffs index)).
Qed.

(** The check of one share, whoever makes it: the relay, or the dealer. *)
Lemma check_honest_share coeffs yi index share : C_GEN <> zero -> yi <> zero -> coeffs <> [] -> unit index -> honest_share coeffs yi index share ->
  check_share C_GEN (map (fun a => smul a C_GEN) coeffs) index share = Ok (negb (degenerate share.["proof"])).
Proof.
  intros HC Hy Hc Hi (proof & -> & Hp & Hv). unfold check_share. rewrite honest_commitment by done. cbn [bindR].
  change (hexToPoint _) with (fromHex (hex yi)) at 1. rewrite fromHex_hex by done. cbn [bindR].
  change (hexToPoint _) with (fromHex (hex (smul (polyEval coeffs index) yi))). rewrite fromHex_hex by (by apply smul_nonzero; [|apply scalar_unit]). cbn [bindR].
  f_equal. exact Hv.
Qed.

Lemma index_unit index : 1 <= index <= MAX_SHARES -> unit index.
Proof. intros Hi. apply scalar_unit. assert (MAX_SHARES < N) by done. lia. Qed.

Lemma verify_honest_share coeffs yi index share : C_GEN <> zero -> yi <> zero -> coeffs <> [] -> Forall (fun a => 1 <= a < N) coeffs ->
  1 <= index <= MAX_SHARES -> honest_share coeffs yi index share ->
  verifyEncryptedShare C_GEN (VList (map VStr (map hex (map (fun a => smul a C_GEN) coeffs)))) share = negb (degenerate share.["proof"]).
Proof.
  intros HC Hy Hc Hs Hi Hsh. unfold verifyEncryptedShare. pose proof Hsh as (proof & Heq & _).
  assert (Hix : integer_from 1 share.["index"] = Some index) by (subst share; apply integer_from_ok; split; [done|lia]).
  destruct coeffs as [|a coeffs]; [done|]. cbn [map]. rewrite Hix. pose proof (commitment_points (a :: coeffs) HC Hs) as Hm. cbn [map] in Hm. rewrite Hm. cbn [bindR].
  pose proof (check_honest_share _ _ _ _ HC Hy Hc (index_unit _ Hi) Hsh) as Hk. cbn [map] in Hk. by rewrite Hk.
Qed.

(** Shares are found by their index. *)
Lemma find_share shares : forall start k share,
  (forall j sh, shares !! j = Some sh -> exists fields, sh = VObj (("index", VNum (start + Z.of_nat j)) :: fields)) ->
  shares !! k = Some share -> find_by "index" (VNum (start + Z.of_nat k)) shares = Some share.
Proof.
  induction shares as [|sh shares IH]; intros start k share Hall Hk; [by rewrite lookup_nil in Hk|]. unfold find_by. cbn [List.find].
  destruct (Hall 0%nat sh eq_refl) as [fields ->].
  set (sh := VObj _). assert (Hsh : negb (falsy sh) && strict_eqb sh.["index"] (VNum (start + Z.of_nat k)) = (start + Z.of_nat 0 =? start + Z.of_nat k)) by reflexivity.
  rewrite Hsh. destruct k as [|k].
  - injection Hk as <-. by rewrite Z.eqb_refl.
  - rewrite (proj2 (Z.eqb_neq _ _)) by lia. replace (start + Z.of_nat (S k)) with (start + 1 + Z.of_nat k) by lia. apply (IH (start + 1) k share); [|done].
    intros j sh' Hj. destruct (Hall (S j) sh' Hj) as [f ->]. exists f. do 4 f_equal. lia.
Qed.

(** ** The holder *)

Lemma inverse_range a : unit a -> 1 <= inverse a < N.
Proof.
  intros Ha. unfold inverse. destruct (invN_ok a Ha) as (y & -> & Hy & E). enough (y <> 0) by lia. intros ->. apply (unit_nonzero 1 unit_1).
  by rewrite <- E.
Qed.

(** The argument of [decryptShare]. *)
Definition to_open (share : val) (x : Z) : val := VObj [("encryptedShare", share); ("secretKey", VStr (scalarToHex x))].

Lemma key_text_truthy x : falsy (VStr (scalarToHex x)) = false.
Proof. pose proof (length_hex_text 64 x) as Hl. cbn [falsy]. unfold scalarToHex. by destruct (hex_text 64 x). Qed.

(** Opening a share is one proof and its texts. *)
Lemma decryptShare_eq coeffs x index share n : 1 <= x < N -> honest_share coeffs (smul x BASE) index share ->
  let Si := smul (polyEval coeffs index) BASE in
  decryptShare (to_open share x) n = (let* proof := proveDleq randombytes patience BASE (smul x BASE) Si (smul x Si) x in
    ret (VObj [("index", VNum index); ("share", VStr (hex Si)); ("shareholder", VStr (hex (smul x BASE))); ("encryptedShare", VStr (hex (smul x Si))); ("proof", proof)])) n.
Proof.
  intros Hx (proof & -> & Hp & _). cbv zeta. set (pi := polyEval coeffs index) in *. pose proof (scalar_unit x Hx) as Hux. pose proof (scalar_unit pi Hp) as Hup.
  assert (HS : smul pi BASE <> zero) by (apply smul_nonzero; [apply base_nonzero|done]).
  assert (HY : smul pi (smul x BASE) = smul x (smul pi BASE)) by (rewrite <- !smul_mul; f_equal; ring). rewrite HY.
  unfold Pvss.decryptShare, to_open. change (params_of (VObj _)) with (to_open (VObj [("index", VNum index); ("shareholder", VStr (hex (smul x BASE)));
    ("encryptedShare", VStr (hex (smul x (smul pi BASE)))); ("proof", proof)]) x).
  set (share := VObj [("index", VNum index); _; _; _]). change ((to_open share x).["encryptedShare"]) with share. change ((to_open share x).["secretKey"]) with (VStr (scalarToHex x)).
  rewrite key_text_truthy. change (falsy share || false) with false. change (scalar_of text_of_object (VStr (scalarToHex x))) with (hexToScalar (scalarToHex x)).
  rewrite hexToScalar_scalar by lia. rewrite bind_throw_if. cbv iota. cbn [bindR]. rewrite modN_small by lia. rewrite bind_lift, bind_throw_if. rewrite (proj2 (Z.eqb_neq x 0)) by lia.
  change (hexToPoint share.["encryptedShare"]) with (fromHex (hex (smul x (smul pi BASE)))). rewrite fromHex_hex by (by apply smul_nonzero). rewrite bind_lift.
  rewrite multiply_ok by done. rewrite bind_lift. rewrite invN_inverse by done. rewrite bind_lift. rewrite multiply_ok by (by apply inverse_range). rewrite bind_lift.
  assert (Hopen : smul (inverse x) (smul x (smul pi BASE)) = smul pi BASE) by (rewrite <- smul_mul, (smul_cong _ _ _ (inverse_mul x Hux)); apply smul_1).
  rewrite Hopen. apply bindM_ext. intros pr n'.
  unfold pointToHex. rewrite !toHex_hex by (done || (apply smul_nonzero; [done|done]) || (apply smul_nonzero; [apply base_nonzero|done])). done.
Qed.

Lemma decryptShare_ok coeffs x index share n opened n' : 1 <= x < N -> honest_share coeffs (smul x BASE) index share ->
  decryptShare (to_open share x) n = (Ok opened, n') -> honest_opening coeffs (smul x BASE) index opened.
Proof.
  intros Hx Hsh. rewrite (decryptShare_eq coeffs x index) by done. intros Hd. run_ok.
  match goal with Hp : proveDleq _ _ _ _ _ _ _ _ = (Ok ?proof, _) |- _ => exists proof; apply honest_proof in Hp; rename Hp into Hv end. cbv zeta.
  assert (HY : smul (polyEval coeffs index) (smul x BASE) = smul x (smul (polyEval coeffs index) BASE)) by (rewrite <- !smul_mul; f_equal; ring). by rewrite HY.
Qed.

(** Drawing a scalar ends, and so does everything that needs one. *)
Definition draws : Prop := forall n, exists x n', randomScalar randombytes patience n = (Ok x, n').

Lemma challenge_total base1 A base2 B R1 R2 : base1 <> zero -> A <> zero -> base2 <> zero -> B <> zero -> R1 <> zero -> R2 <> zero ->
  exists e, challenge base1 A base2 B R1 R2 = Ok e.
Proof. intros. unfold challenge, pointToHex. rewrite !toHex_hex by done. by eexists. Qed.

Lemma proveDleq_total base1 A base2 B x n : draws -> base1 <> zero -> A <> zero -> base2 <> zero -> B <> zero ->
  exists proof n', proveDleq randombytes patience base1 A base2 B x n = (Ok proof, n').
Proof.
  intros Hd Hb1 HA Hb2 HB. unfold proveDleq. destruct (Hd n) as (k & n1 & Hk). pose proof (randomScalar_range _ _ _ _ _ Hk) as Hr. pose proof (scalar_unit k Hr).
  rewrite (bind_run _ _ _ _ _ Hk). cbv beta. rewrite !multiply_ok by done. rewrite !bind_lift. destruct (challenge_total base1 A base2 B (smul k base1) (smul k base2)) as [e He]; try done; try (by apply smul_nonzero).
  rewrite He. by do 2 eexists.
Qed.

Lemma decryptShare_total coeffs x index share n : draws -> 1 <= x < N -> honest_share coeffs (smul x BASE) index share ->
  exists opened n', decryptShare (to_open share x) n = (Ok opened, n').
Proof.
  intros Hd Hx Hsh. rewrite (decryptShare_eq coeffs x index) by done. destruct Hsh as (_ & _ & Hp & _). pose proof (scalar_unit x Hx). pose proof (scalar_unit _ Hp).
  assert (HS : smul (polyEval coeffs index) BASE <> zero) by (apply smul_nonzero; [apply base_nonzero|done]).
  destruct (proveDleq_total BASE (smul x BASE) (smul (polyEval coeffs index) BASE) (smul x (smul (polyEval coeffs index) BASE)) x n) as (proof & n' & E);
    [done|apply base_nonzero|apply smul_nonzero; [apply base_nonzero|done]|done|by apply smul_nonzero|]. rewrite (bind_run _ _ _ _ _ E). by do 2 eexists.
Qed.

(** An opening counts as its point. *)
Lemma opening_is coeffs yi index opened : yi <> zero -> 1 <= index -> 1 <= polyEval coeffs index < N -> honest_opening coeffs yi index opened -> degenerate opened.["proof"] = false ->
  share_is opened (index, smul (eval coeffs index) BASE).
Proof.
  intros Hy Hi Hp (proof & -> & Hv) Hd. change (degenerate proof = false) in Hd. rewrite Hd in Hv. pose proof (scalar_unit _ Hp) as Hu.
  assert (HS : smul (polyEval coeffs index) BASE <> zero) by (apply smul_nonzero; [apply base_nonzero|done]). rewrite <- (smul_cong _ _ BASE (polyEval_eqN coeffs index)).
  repeat split; try done; cbn [fst snd].
  - exact (fromHex_hex _ HS).
  - unfold proof_holds. change (hexToPoint _) with (fromHex (hex yi)) at 1. rewrite fromHex_hex by done.
    change (hexToPoint _) with (fromHex (hex (smul (polyEval coeffs index) BASE))) at 1. rewrite fromHex_hex by done.
    change (hexToPoint _) with (fromHex (hex (smul (polyEval coeffs index) yi))). rewrite fromHex_hex by (by apply smul_nonzero). change (_.["proof"]) with proof. rewrite Hv. by destruct (_ && _).
Qed.

End Dealer.
