(* ===== verification/DemoCurve.v ===== *)
(** * A concrete curve

    The witnesses evaluate the code on the additive group of the integers modulo
    the order: the laws of [CurveLaws] hold there, and logarithms are easy. *)

From Stdlib Require Import ZArith Lia Bool List String Ascii Eqdep_dec.
From stdpp Require Import base tactics list strings.
From S2P Require Import Prelude Codec SecretSharing PvssArith PvssCurve.
Import Pvss.

Definition in_order (z : Z) : bool := (0 <=? z) && (z <? N).

Definition residue : Type := { z : Z | in_order z = true }.

Lemma residue_eq (a b : residue) : proj1_sig a = proj1_sig b -> a = b.
Proof. destruct a as [a Ha], b as [b Hb]. cbn. intros ->. f_equal. apply UIP_dec, bool_dec. Qed.

Lemma residue_ok z : in_order (z mod N) = true.
Proof. unfold in_order. pose proof (Z.mod_pos_bound z N N_pos). apply andb_true_intro. split; [apply Z.leb_le|apply Z.ltb_lt]; lia. Qed.

Definition residue_of (z : Z) : residue := exist _ (z mod N) (residue_ok z).

Lemma residue_val (a : residue) : proj1_sig a mod N = proj1_sig a.
Proof. destruct a as [a Ha]. cbn. unfold in_order in Ha. b2p. apply Z.mod_small. lia. Qed.

Definition demo_hex (a : residue) : result string :=
  if proj1_sig a =? 0 then Err GenericError else Ok ("02" ++ hex_text 64 (proj1_sig a))%string.

Definition demo_point (h : string) : result residue :=
  match h with
  | String "0" (String "2" digits) =>
      match read_hex 0 digits with
      | Some n => if Nat.eqb (String.length digits) 64 && (1 <=? n) && (n <? N) then Ok (residue_of n) else Err GenericError
      | None => Err GenericError
      end
  | _ => Err GenericError
  end.

#[export] Instance demo_curve : Curve := {|
  point := residue;
  BASE := residue_of 1;
  point_add a b := residue_of (proj1_sig a + proj1_sig b);
  multiply a n := if (1 <=? n) && (n <? N) then Ok (residue_of (n * proj1_sig a)) else Err GenericError;
  toHex := demo_hex;
  fromHex := demo_point
|}.

Lemma demo_point_shape h a : demo_point h = Ok a -> exists digits n, h = String "0" (String "2" digits) /\
  String.length digits = 64%nat /\ 1 <= n < N /\ a = residue_of n.
Proof.
  unfold demo_point. intros Hp. repeat case_match; try done. injection Hp as <-. subst. b2p.
  match goal with Hl : Nat.eqb _ _ = true |- _ => apply Nat.eqb_eq in Hl end. do 2 eexists. split; [done|]. split; [done|]. split; [|done]. lia.
Qed.


#[export] Program Instance demo_laws : CurveLaws := {|
  zero := residue_of 0;
  smul k a := residue_of (k * proj1_sig a)
|}.
Next Obligation. intros P Q. apply residue_eq. cbn. by rewrite Z.add_comm. Qed.
Next Obligation. intros P Q R. apply residue_eq. cbn. rewrite Z.add_mod_idemp_l, Z.add_mod_idemp_r by done. by rewrite Z.add_assoc. Qed.
Next Obligation. intros P. apply residue_eq. cbn. rewrite Z.mod_0_l, Z.add_0_l by done. apply residue_val. Qed.
Next Obligation. intros P. by apply residue_eq. Qed.
Next Obligation. intros P. apply residue_eq. cbn. rewrite Z.mul_1_l. apply residue_val. Qed.
Next Obligation. intros a b P. apply residue_eq. cbn. rewrite <- Z.add_mod by done. by rewrite Z.mul_add_distr_r. Qed.
Next Obligation. intros a b P. apply residue_eq. cbn. rewrite Z.mul_mod_idemp_r by done. by rewrite Z.mul_assoc. Qed.
Next Obligation. intros a P Q. apply residue_eq. cbn. rewrite Z.mul_mod_idemp_r, <- Z.add_mod by done. by rewrite Z.mul_add_distr_l. Qed.
Next Obligation. intros P. apply residue_eq. cbn. rewrite Z.mul_comm, Z.mod_mul, Z.mod_0_l by done. done. Qed.
Next Obligation. intros H. apply (f_equal (@proj1_sig _ _)) in H. cbn in H. done. Qed.
Next Obligation. intros P. exists (proj1_sig P). apply residue_eq. cbn. rewrite Z.mul_mod_idemp_r, Z.mul_1_r by done. symmetry. apply residue_val. Qed.
Next Obligation. done. Qed.
Next Obligation. done. Qed.
Next Obligation.
  intros [p Hp] HP. assert (Hz : p <> 0) by (intros ->; by apply HP, residue_eq). pose proof Hp as Hr. unfold in_order in Hr. b2p.
  cbn [toHex demo_curve]. unfold demo_hex. cbn [proj1_sig]. rewrite (proj2 (Z.eqb_neq p 0)) by done. eexists. split; [done|]. cbn [fromHex demo_curve].
  change ("02" ++ hex_text 64 p)%string with (String "0" (String "2" (hex_text 64 p))). unfold demo_point.
  rewrite read_hex_text, length_hex_text. pose proof N_below. rewrite (Z.mod_small p) by (split; [done|etransitivity; eassumption]). rewrite Z.mul_0_l, Z.add_0_l.
  rewrite (proj2 (Z.leb_le 1 p)), (proj2 (Z.ltb_lt p N)) by lia. cbn [Nat.eqb andb]. f_equal. apply residue_eq. cbn. apply Z.mod_small. lia.
Qed.
Next Obligation.
  intros h P (digits & n & _ & _ & Hn & ->)%demo_point_shape Hz. apply (f_equal (@proj1_sig _ _)) in Hz. cbn in Hz. rewrite Z.mod_small, Z.mod_0_l in Hz by (done || lia). lia.
Qed.
Next Obligation. intros h P (digits & n & -> & Hl & _)%demo_point_shape. cbn. by rewrite Hl. Qed.
