(* ===== verification/PvssLaws.v ===== *)
(** * The scheme of secret sharing

    Enough opened shares give the dealer's secret back; shares whose proofs are
    sound reconstruct one secret whatever the dealer did; the relay's verdict on
    the dealer's bundle; what two accepted bundles have in common. *)

From Stdlib Require Import ZArith Lia Bool List String Ascii Morphisms Setoid.
From Stdlib Require Import Strings.Byte.
From stdpp Require Import base tactics list strings.
From S2P Require Import Prelude Codec SecretSharing PvssArith PvssCurve PvssDleq PvssShares PvssDealer.
Import Pvss.

(** ** Coefficients *)

(** C34: [invN] ends for every argument within the passes it is given: with the
    inverse, between 1 and N - 1, or with SS_NOT_INVERTIBLE for the multiples of
    the order. (The order is prime, so nothing else fails.) *)
Theorem invN_total a : match invN a with
  | Ok y => 0 < y < N /\ modN (y * a) = 1
  | Err e => e = Thrown "SS_NOT_INVERTIBLE" /\ modN a = 0
  end.
Proof.
  destruct (Z.eq_dec (modN a) 0) as [E|E].
  - assert (Hz : a == 0) by (rewrite <- (modN_eqN a), E; reflexivity). by rewrite (invN_zero a Hz).
  - assert (Hu : unit a). { apply unit_of_nonzero. intros Hz. apply E. by rewrite (modN_cong _ _ Hz). }
    destruct (invN_ok a Hu) as (y & -> & Hy & Hm). rewrite (modN_cong _ _ Hm). split; [|done]. enough (y <> 0) by lia. intros ->. by apply (unit_nonzero 1 unit_1).
Qed.

(** The coefficients [lagrangeAtZero] computes for distinct indices below the
    order give the value at zero of every polynomial with at most as many
    coefficients as there are indices: no division fails, and the loops end. *)
Theorem lagrange_interpolates xs coeffs : Forall (fun i => 1 <= i < N) xs -> NoDup xs -> xs <> [] -> (List.length coeffs <= List.length xs)%nat ->
  exists lambdas, lagrangeAtZero xs = Ok lambdas /\ map fst lambdas = xs /\
    modN (fold_right (fun '(i, lambda) acc => lambda * polyEval coeffs i + acc) 0 lambdas) = polyEval coeffs 0.
Proof.
  intros Hx Hn Hne Hl. pose proof (index_set_below xs Hx) as Hs. rewrite lagrangeAtZero_ok by done. eexists. split; [done|]. split; [by rewrite map_map, map_id|].
  assert (He : fold_right (fun '(i, lambda) acc => lambda * polyEval coeffs i + acc) 0 (map (fun i => (i, modN (coefficient xs i))) xs) ==
    sum_over xs (fun i => coefficient xs i * eval coeffs i)).
  { unfold sum_over. generalize xs at 2 4 as ys. intros ys. induction ys as [|i ys IH]; [done|]. cbn [map fold_right]. by rewrite IH, modN_eqN, polyEval_eqN. }
  rewrite (modN_cong _ _ He), (modN_cong _ _ (interpolation coeffs xs Hl Hne Hn (proj2 Hs))), <- (modN_cong _ _ (polyEval_eqN coeffs 0)).
  destruct coeffs; [done|]. by apply modN_small, polyEval_range.
Qed.

Lemma lagrange_interpolates_witness : exists lambdas, lagrangeAtZero [2; 5; 7] = Ok lambdas /\ map fst lambdas = [2; 5; 7] /\
  modN (fold_right (fun '(i, lambda) acc => lambda * polyEval [42; 8; 3] i + acc) 0 lambdas) = 42.
Proof.
  apply (lagrange_interpolates [2; 5; 7] [42; 8; 3]).
  - repeat (apply Forall_cons_2; [by split|]). constructor.
  - repeat (apply NoDup_cons; split; [rewrite list_elem_of_In; cbn; lia|]). apply NoDup_nil_2.
  - done.
  - cbn. lia.
Defined.

(** ** Proofs *)

(** Fiat and Shamir's proof is sound: if the verifier accepts two proofs of
    one statement with the same announcements but different challenges (as it
    can under two hash functions), then the two points have the same logarithm
    for their bases, and it can be computed from the proofs. *)
Theorem dleq_special_soundness `{Curve} `{!CurveLaws} (hash hash' : Platform) base1 A base2 B proof proof' e s e' s' :
  @verifyDleq hash _ base1 A base2 B proof = true -> @verifyDleq hash' _ base1 A base2 B proof' = true ->
  scalars proof = Some (e, s) -> scalars proof' = Some (e', s') ->
  announce base1 A e s = announce base1 A e' s' -> announce base2 B e s = announce base2 B e' s' -> e <> e' ->
  let x := (s - s') * inverse (e' - e) in A = smul x base1 /\ B = smul x base2.
Proof.
  intros (e1 & s1 & E1 & He & _)%verifyDleq_true (e2 & s2 & E2 & He' & _)%verifyDleq_true Hs Hs'. rewrite E1 in Hs. rewrite E2 in Hs'. injection Hs as -> ->. injection Hs' as -> ->.
  intros HA HB Hne. split; by apply (extract _ _ e s e' s').
Qed.

(** ** One secret *)

Section Agreement.
Context `{Platform} `{CurveLaws} (C_GEN : point).

Definition same_log (base1 A base2 B : point) : Prop := exists x, A = smul x base1 /\ B = smul x base2.

(** What the two proofs of an opened share say: the encrypted share is the
    committed value under the holder's key, and the share is its decryption. *)
Definition sound_share (points : list point) (sh : val) : Prop := exists i Xi yi Yi Si,
  sh.["index"] = VNum i /\ i < N /\ commitmentShare points i = Ok (Some Xi) /\
  hexToPoint sh.["shareholder"] = Ok yi /\ hexToPoint sh.["encryptedShare"] = Ok Yi /\ hexToPoint sh.["share"] = Ok Si /\
  same_log C_GEN Xi yi Yi /\ same_log BASE yi Si Yi.

(** Such a share is the value of the committed polynomial. *)
Lemma sound_share_value coeffs sh i P : C_GEN <> zero -> coeffs <> [] -> sound_share (map (fun a => smul a C_GEN) coeffs) sh -> share_is sh (i, P) ->
  1 <= i < N /\ P = smul (eval coeffs i) BASE.
Proof.
  intros HC Hc (j & Xi & yi & Yi & Si & Hj & Hb & HX & Hy & HY & HS & (x & Hx1 & Hx2) & (k & Hk1 & Hk2)) (_ & Hi & H1i & HP & _). cbn [fst snd] in *.
  rewrite Hi in Hj. injection Hj as <-. rewrite HP in HS. injection HS as <-. split; [done|]. pose proof (scalar_unit i (conj H1i Hb)) as Hu.
  rewrite commitmentShare_ok, feldman_commit in HX by (done || by destruct coeffs). injection HX as <-. apply smul_inj in Hx1; [|done].
  assert (Hku : unit k).
  { apply unit_of_nonzero. intros Hz. apply (hexToPoint_nonzero _ _ Hy). by rewrite Hk1, (smul_cong _ _ _ Hz), smul_0. }
  apply (smul_cancel k _ _ Hku). rewrite <- Hk2, Hx2, <- (smul_cong _ _ yi Hx1), Hk1, <- !smul_mul. f_equal. ring.
Qed.

Lemma params_given params l f : params.[f] = VList l -> params_of params = params.
Proof. destruct params; try done. Qed.

Lemma sound_shares_secret coeffs params shares r : C_GEN <> zero -> coeffs <> [] ->
  Forall (sound_share (map (fun a => smul a C_GEN) coeffs)) shares -> (List.length coeffs <= List.length shares)%nat ->
  params.["shares"] = VList shares -> reconstruct params = Ok r -> r = recovered (smul (eval coeffs 0) BASE).
Proof.
  intros HC Hc Hs Hl Hp Hr. destruct (reconstruct_inv params shares r (params_given _ _ _ Hp) Hp Hr) as (ips & Hf & Hn & Hne & Heq).
  assert (Hips : Forall (fun ip => 1 <= fst ip < N /\ snd ip = smul (eval coeffs (fst ip)) BASE) ips).
  { clear - HC Hc Hs Hf. induction Hf as [|sh [i P] shares ips Hsh _ IH]; [constructor|]. inversion Hs; subst. constructor; [by eapply sound_share_value|by apply IH]. }
  assert (Hx : index_set (map fst ips)) by (apply index_set_below, Forall_map; eapply Forall_impl; [exact Hips|by intros ? [? _]]).
  rewrite (Heq Hx). f_equal. transitivity (weighted (map fst ips) (coefficient (map fst ips)) (map (fun i => (i, smul (eval coeffs i) BASE)) (map fst ips))).
  - f_equal. clear - Hips. induction Hips as [|[i P] ips [_ E] _ IH]; [done|]. cbn in *. by rewrite <- IH, E.
  - apply weighted_secret; [done|done|by destruct ips|]. apply Forall2_length in Hf. rewrite length_map. lia.
Qed.

End Agreement.

(** C24: The secret is fixed by the commitments: any two lists of shares whose
    proofs are sound, each with at least as many shares as there are commitments,
    reconstruct the same secret, whatever the dealer did. *)
Theorem sound_shares_agree `{Platform} `{CurveLaws} C_GEN points params1 params2 shares1 shares2 r1 r2 :
  commit_generator = Ok C_GEN -> points <> [] ->
  params1.["shares"] = VList shares1 -> params2.["shares"] = VList shares2 ->
  Forall (sound_share C_GEN points) shares1 -> Forall (sound_share C_GEN points) shares2 ->
  (List.length points <= List.length shares1)%nat -> (List.length points <= List.length shares2)%nat ->
  reconstruct params1 = Ok r1 -> reconstruct params2 = Ok r2 -> r1 = r2.
Proof.
  intros HC Hp Hs1 Hs2 Hf1 Hf2 Hl1 Hl2 Hr1 Hr2. pose proof (generator_nonzero _ HC) as Hz.
  destruct (committed C_GEN points Hz) as (coeffs & Hlen & ->). assert (Hc : coeffs <> []) by (by destruct coeffs). rewrite length_map in *.
  rewrite (sound_shares_secret C_GEN coeffs params1 shares1 r1), (sound_shares_secret C_GEN coeffs params2 shares2 r2) by done. done.
Qed.

(** ** From the dealer to the secret *)

Section Roundtrip.
Context `{Platform} `{CurveLaws} (C_GEN : point) (text_of_object : val -> string) (randombytes : nat -> bytes) (patience : nat).
Notation split := (split C_GEN text_of_object randombytes patience).
Notation decryptShare := (decryptShare text_of_object randombytes patience).
Notation keygen := (keygen randombytes patience).

(** The share of the holder with the same number. *)
Definition share_for (out : val) (holders : list val) (k : nat) (share keys : val) : Prop :=
  elems out.["public"].["encryptedShares"] !! k = Some share /\ holders !! k = Some keys.

Definition opening (share keys : val) : val := VObj [("encryptedShare", share); ("secretKey", keys.["secretKey"])].

(** What one of the holders made of his share, with a proof that counts. *)
Definition opened_share (out : val) (holders : list val) (opened : val) : Prop := exists k share keys n n',
  share_for out holders k share keys /\ decryptShare (opening share keys) n = (Ok opened, n') /\ degenerate opened.["proof"] = false.

Lemma keygen_ok n keys n' : keygen n = (Ok keys, n') ->
  exists x, 1 <= x < N /\ keys = VObj [("secretKey", VStr (scalarToHex x)); ("publicKey", VStr (hex (smul x BASE)))].
Proof.
  unfold Pvss.keygen. intros Hk. run_ok. match goal with Hx : randomScalar _ _ _ = (Ok ?x, _) |- _ => apply randomScalar_range in Hx; exists x end.
  repeat match goal with Hm : multiply _ _ = Ok _ |- _ => apply multiply_inv in Hm as [? ->] | Hh : pointToHex _ = Ok _ |- _ => apply toHex_inv in Hh as -> end. done.
Qed.

Context (params out : val) (holders : list val) (n n' : nat).
Hypothesis (Hsplit : split params n = (Ok out, n')).
Hypothesis (Hholders : (params_of params).["shareholders"] = VList (map (fun keys => keys.["publicKey"]) holders)).
Hypothesis (Hkeys : Forall (fun keys => exists m m', keygen m = (Ok keys, m')) holders).

(** The holder of a share, and the share. *)
Lemma holder_share threshold shareholders recipients coeffs shares k share keys :
  dealt C_GEN text_of_object params out threshold shareholders recipients coeffs shares -> share_for out holders k share keys ->
  exists x, 1 <= x < N /\ opening share keys = to_open share x /\ honest_share C_GEN coeffs (smul x BASE) (1 + Z.of_nat k) share /\ 1 + Z.of_nat k <= MAX_SHARES.
Proof.
  intros D [Hs Hk]. rewrite (dealt_out _ _ _ _ _ _ _ _ _ D) in Hs. change (shares !! k = Some share) in Hs.
  rewrite Forall_lookup in Hkeys. destruct (Hkeys k keys Hk) as (m & m' & (x & Hx & ->)%keygen_ok). exists x. split; [done|]. split; [done|].
  destruct (dealt_share _ _ _ _ _ _ _ _ _ _ _ D Hs) as (yi & Hyi & _ & Hh & Hb). assert (Heq : shareholders = map (fun keys => keys.["publicKey"]) holders).
  { pose proof (dealt_holders _ _ _ _ _ _ _ _ _ D) as E. rewrite Hholders in E. by injection E as <-. }
  destruct (Forall2_lookup_r _ _ _ _ _ (dealt_recipients _ _ _ _ _ _ _ _ _ D) Hyi) as (pk & Hpk & HP). rewrite Heq in Hpk. rewrite list_lookup_fmap, Hk in Hpk. injection Hpk as <-.
  change (fromHex (hex (smul x BASE)) = Ok yi) in HP. rewrite fromHex_hex in HP by (apply smul_nonzero; [apply base_nonzero|by apply scalar_unit]). injection HP as <-.
  split; [done|lia].
Qed.

Lemma opened_is threshold shareholders recipients coeffs shares opened :
  dealt C_GEN text_of_object params out threshold shareholders recipients coeffs shares -> opened_share out holders opened ->
  1 <= num opened.["index"] < N /\ share_is opened (num opened.["index"], smul (eval coeffs (num opened.["index"])) BASE).
Proof.
  intros D (k & share & keys & m & m' & Hfor & Hd & Hg). destruct (holder_share _ _ _ _ _ _ _ _ D Hfor) as (x & Hx & Hop & Hh & Hb). rewrite Hop in Hd.
  pose proof (decryptShare_ok _ _ _ _ _ _ _ _ _ _ _ Hx Hh Hd) as Ho. destruct Hh as (_ & _ & Hp & _).
  assert (Hi : opened.["index"] = VNum (1 + Z.of_nat k)) by (destruct Ho as (? & -> & _); done). rewrite Hi. cbn [num].
  split; [assert (MAX_SHARES < N) by done; lia|]. eapply opening_is; try done; [|lia]. apply smul_nonzero; [apply base_nonzero|by apply scalar_unit].
Qed.

Lemma opened_shares_is threshold shareholders recipients coeffs shares opened :
  dealt C_GEN text_of_object params out threshold shareholders recipients coeffs shares -> Forall (opened_share out holders) opened ->
  let xs := map (fun o => num o.["index"]) opened in
  Forall (fun i => 1 <= i < N) xs /\ Forall2 share_is opened (map (fun i => (i, smul (eval coeffs i) BASE)) xs).
Proof.
  intros D. induction 1 as [|o opened Ho _ [IHx IHf]]; [split; constructor|]. destruct (opened_is _ _ _ _ _ _ D Ho) as [Hx Hs].
  split; cbn [map]; by constructor.
Qed.

Lemma reconstruct_opened opened : Forall (opened_share out holders) opened -> NoDup (map (fun o => num o.["index"]) opened) ->
  num out.["threshold"] <= Z.of_nat (List.length opened) ->
  reconstruct (VObj [("shares", VList opened); ("threshold", out.["threshold"])]) = Ok (VObj [("secretPoint", out.["secretPoint"]); ("key", out.["key"])]).
Proof.
  intros Ho Hn Hl. destruct (split_ok _ _ _ _ _ _ _ _ Hsplit) as (t & shareholders & recipients & coeffs & shares & D).
  destruct (opened_shares_is _ _ _ _ _ _ D Ho) as [Hx Hf]. set (xs := map _ opened) in *. set (ips := map (fun i => (i, smul (eval coeffs i) BASE)) xs) in *.
  assert (Hfst : map fst ips = xs) by (unfold ips; by rewrite map_map, map_id). pose proof (dealt_out _ _ _ _ _ _ _ _ _ D) as Hout. cbv zeta in Hout.
  assert (Ht : out.["threshold"] = VNum t) by (by rewrite Hout). rewrite Ht in *. cbn [num] in Hl.
  pose proof (dealt_degree _ _ _ _ _ _ _ _ _ D) as Hdeg. pose proof (dealt_bounds _ _ _ _ _ _ _ _ _ D) as Hb.
  assert (Hlen : List.length xs = List.length opened) by apply length_map. assert (Hne : xs <> []) by (intros E; rewrite E in Hlen; cbn in Hlen; lia).
  replace (VObj [("secretPoint", out.["secretPoint"]); ("key", out.["key"])]) with (recovered (smul (eval coeffs 0) BASE)) by (by rewrite Hout).
  apply (reconstruct_ok _ opened ips); [done|done|done|rewrite Hfst; by apply index_set_below|by rewrite Hfst|unfold ips; by destruct xs|by intros t' [= <-]| |].
  - rewrite Hfst. symmetry. apply weighted_secret; [by apply index_set_below|done|done|lia].
  - apply smul_nonzero; [apply base_nonzero|]. pose proof (dealt_scalars _ _ _ _ _ _ _ _ _ D) as Hsc. destruct coeffs as [|a coeffs]; [cbn in Hdeg; lia|].
    inversion Hsc; subst. apply (unit_cong a); [cbn [eval fold_right]; eqN_ring|by apply scalar_unit].
Qed.

End Roundtrip.

(** C23: What [split] shares, [reconstruct] recovers. The holders have key pairs of
    [keygen]. Each of them can open his share, whatever the random draws are, and
    any openings with distinct indices, at least as many as the threshold, give
    the dealer's secret point and key back. (An opening whose proof has a zero
    scalar is left out: it is made with negligible probability, and refused.) *)
Theorem split_reconstruct `{Platform} `{CurveLaws} C_GEN text_of_object randombytes patience params out holders n n' :
  split C_GEN text_of_object randombytes patience params n = (Ok out, n') ->
  (params_of params).["shareholders"] = VList (map (fun keys => keys.["publicKey"]) holders) ->
  Forall (fun keys => exists m m', keygen randombytes patience m = (Ok keys, m')) holders ->
  (draws randombytes patience -> forall k share keys m, share_for out holders k share keys ->
    exists opened m', decryptShare text_of_object randombytes patience (opening share keys) m = (Ok opened, m')) /\
  (forall opened, Forall (opened_share text_of_object randombytes patience out holders) opened -> NoDup (map (fun o => num o.["index"]) opened) ->
    num out.["threshold"] <= Z.of_nat (List.length opened) ->
    reconstruct (VObj [("shares", VList opened); ("threshold", out.["threshold"])]) =
      Ok (VObj [("secretPoint", out.["secretPoint"]); ("key", out.["key"])])).
Proof.
  intros Hs Hh Hk. split.
  - intros Hd k share keys m Hfor. destruct (split_ok _ _ _ _ _ _ _ _ Hs) as (t & shareholders & recipients & coeffs & shares & D).
    destruct (holder_share _ _ _ _ _ _ _ Hh Hk _ _ _ _ _ _ _ _ D Hfor) as (x & Hx & -> & Hsh & _). by eapply decryptShare_total.
  - intros opened Ho Hn Hl. by eapply reconstruct_opened.
Qed.

(** ** The relay *)

Section Relay.
Context `{Platform} `{CurveLaws} (C_GEN : point) (text_of_object : val -> string).
Notation verifyShareBundleForRelay := (verifyShareBundleForRelay C_GEN text_of_object).

Lemma field_of_truthy v f : falsy v.[f] = false -> falsy v = false.
Proof. by destruct v. Qed.

Definition accepted (intent assigned : val) (shareCommitment : string) : val := VObj [
  ("ok", VBool true);
  ("shareScheme", intent.["shareScheme"]);
  ("commitmentRoot", intent.["commitmentRoot"]);
  ("shareIndex", assigned.["shareIndex"]);
  ("shareCommitment", VStr shareCommitment)].

(** What the relay has checked when it accepts a bundle. *)
Lemma accepted_inv intent bundle relay : (verifyShareBundleForRelay intent bundle relay).["ok"] = VBool true ->
  exists assignments assigned commitments points shareCommitment,
    intent.["shareAssignments"] = VList assignments /\ find_by "relayPubkey" relay assignments = Some assigned /\
    bundle.["commitments"] = VList commitments /\ commitments <> [] /\ map_all hexToPoint commitments = Ok points /\
    intent.["commitmentRoot"] = VStr (commitmentRootOf text_of_object commitments) /\
    shareCommitmentAt commitments (num assigned.["shareIndex"]) = Ok shareCommitment /\
    verifyShareBundleForRelay intent bundle relay = accepted intent assigned shareCommitment.
Proof.
  unfold Pvss.verifyShareBundleForRelay. destruct (_ || _); [done|]. destruct intent.["shareAssignments"] as [| | | | |assignments| | | |] eqn:Ea; try done.
  destruct (find_by "relayPubkey" relay assignments) as [assigned|] eqn:Ef; [|done]. destruct bundle.["commitments"] as [| | | | |commitments| | | |] eqn:Ec; try done.
  destruct bundle.["encryptedShares"] as [| | | | |shares| | | |]; try done. destruct (negb (strict_eqb _ _)) eqn:Er; [done|]. apply negb_false_iff in Er.
  destruct (find_by "index" _ shares) as [share|]; [|done]. destruct (negb (verifyEncryptedShare _ _ _)) eqn:Ev; [done|]. apply negb_false_iff in Ev.
  destruct (shareCommitmentAt _ _) as [c|] eqn:Es; [|done]. intros _. unfold verifyEncryptedShare in Ev. destruct commitments as [|v commitments]; [done|].
  destruct (integer_from 1 _); [|done]. destruct (map_all hexToPoint (v :: commitments)) as [points|] eqn:Em; [|done].
  exists assignments, assigned, (v :: commitments), points, c. repeat split; try done.
  cbn [strict_eqb] in Er. destruct intent.["commitmentRoot"]; try done. by apply String.eqb_eq in Er as <-.
Qed.

End Relay.

(** C25: The relay accepts what the dealer publishes: for the share of every
    holder the verdict on the dealer's own bundle is the receipt, whose
    [shareCommitment] commits to the very scalar the encrypted share hides,
    unless the share's proof has a zero scalar, when the verdict is
    share-verify-failed. *)
Theorem relay_accepts_dealer `{Platform} `{CurveLaws} C_GEN text_of_object randombytes patience params out n n' intent relay assignments assigned k share :
  commit_generator = Ok C_GEN -> split C_GEN text_of_object randombytes patience params n = (Ok out, n') ->
  let public := out.["public"] in
  elems public.["encryptedShares"] !! k = Some share ->
  falsy intent.["shareScheme"] = false -> intent.["shareAssignments"] = VList assignments ->
  find_by "relayPubkey" relay assignments = Some assigned -> assigned.["shareIndex"] = VNum (1 + Z.of_nat k) ->
  intent.["commitmentRoot"] = public.["commitmentRoot"] ->
  exists p holder, share.["shareholder"] = VStr (hex holder) /\ share.["encryptedShare"] = VStr (hex (smul p holder)) /\
    verifyShareBundleForRelay C_GEN text_of_object intent public relay =
      if degenerate share.["proof"] then refused "share-verify-failed" else accepted intent assigned (hex (smul p C_GEN)).
Proof.
  intros HC Hs public Hk Hsch Ha Hf Hi Hr. apply generator_nonzero in HC. destruct (split_ok _ _ _ _ _ _ _ _ Hs) as (t & holders & recipients & coeffs & shares & D).
  pose proof (dealt_out _ _ _ _ _ _ _ _ _ D) as Hout. cbv zeta in Hout. subst public. rewrite Hout in *. change (shares !! k = Some share) in Hk.
  destruct (dealt_share _ _ _ _ _ _ _ _ _ _ _ D Hk) as (yi & _ & Hy & Hh & Hb). pose proof Hh as (proof & Heq & Hp & _). pose proof (dealt_coeffs _ _ _ _ _ _ _ _ _ D) as Hc.
  exists (polyEval coeffs (1 + Z.of_nat k)), yi. split; [by rewrite Heq|]. split; [by rewrite Heq|].
  pose proof (dealt_scalars _ _ _ _ _ _ _ _ _ D) as Hsc. pose proof (verify_honest_share _ _ _ _ _ HC Hy Hc Hsc Hb Hh) as Hv.
  unfold verifyShareBundleForRelay. rewrite (field_of_truthy _ _ Hsch), Hsch, Ha, Hf. cbn [orb]. rewrite Hr, Hi.
  set (commitments := map VStr _) in *. change ((VObj _).["public"].["commitments"]) with (VList commitments). change ((VObj _).["public"].["encryptedShares"]) with (VList shares).
  change ((VObj _).["public"].["commitmentRoot"]) with (VStr (commitmentRootOf text_of_object commitments)).
  assert (Hroot : strict_eqb (VStr (commitmentRootOf text_of_object commitments)) (VStr (commitmentRootOf text_of_object commitments)) = true) by (apply String.eqb_refl).
  cbv iota. rewrite Hroot. cbn [negb].
  rewrite (find_share shares 1 k share); [|intros j sh Hj; destruct (dealt_shares _ _ _ _ _ _ _ _ _ D j sh Hj) as (? & _ & (? & -> & _)); by eexists|done].
  rewrite Hv, negb_involutive. destruct (degenerate share.["proof"]); [done|]. cbn [num]. unfold shareCommitmentAt, commitments.
  rewrite commitment_points by done. cbn [bindR]. rewrite honest_commitment by (done || by apply index_unit). cbn [bindR]. unfold pointToHex.
  rewrite toHex_hex by (apply smul_nonzero; [done|by apply scalar_unit]). unfold accepted. by rewrite Hr, Hi.
Qed.
