(* ===== verification/PvssBundle.v ===== *)
(** * The commitment root pins the commitments

    The root is the hash of the concatenated texts of the points. The texts
    delimit themselves, so one root belongs to one list of commitments, up to a
    collision of the hash. *)

From Stdlib Require Import ZArith Lia Bool List String Ascii.
From Stdlib Require Import Strings.Byte.
From stdpp Require Import base tactics list strings.
From S2P Require Import Prelude Codec SecretSharing PvssArith PvssCurve PvssDleq PvssShares PvssDealer PvssLaws.
Import Pvss.

(** ** Texts of points *)

Lemma get_list s : forall n, String.get n s = nth_error (list_ascii_of_string s) n.
Proof. induction s as [|c s IH]; intros [|n]; try done. apply IH. Qed.

Lemma list_of_length s : List.length (list_ascii_of_string s) = String.length s.
Proof. induction s as [|c s IH]; [done|]. cbn. by rewrite IH. Qed.

Lemma list_of_inj s t : list_ascii_of_string s = list_ascii_of_string t -> s = t.
Proof. intros E. by rewrite <- (string_of_list_ascii_of_string s), E, string_of_list_ascii_of_string. Qed.

Lemma list_of_concat l : list_ascii_of_string (String.concat "" l) = List.concat (map list_ascii_of_string l).
Proof.
  induction l as [|s [|t l] IH]; [done|cbn [String.concat map List.concat]; by rewrite app_nil_r|].
  cbn [String.concat map List.concat] in *. by rewrite !list_of_app, IH.
Qed.

Lemma ascii_bytes_inj s t : ascii_bytes s = ascii_bytes t -> s = t.
Proof.
  unfold ascii_bytes. intros E. apply list_of_inj. apply (f_equal (map ascii_of_byte)) in E. rewrite !map_map in E.
  assert (Hid : forall l, map (fun c => ascii_of_byte (byte_of_ascii c)) l = l) by (induction l as [|c l IH]; [done|]; cbn; by rewrite ascii_of_byte_of_ascii, IH).
  by rewrite !Hid in E.
Qed.

Lemma bytes_hex_inj a b : blen a = 32 -> blen b = 32 -> bytes_hex a = bytes_hex b -> a = b.
Proof.
  intros Ha Hb. unfold bytes_hex. assert (Hl : forall bs, blen bs = 32 -> List.length bs = 32%nat) by (unfold blen; lia). rewrite (Hl a Ha), (Hl b Hb). intros E.
  apply (f_equal (read_hex 0)) in E. rewrite !read_hex_text, !Z.mul_0_l, !Z.add_0_l in E.
  pose proof (be_val_bound a) as Ba. pose proof (be_val_bound b) as Bb. rewrite Ha in Ba. rewrite Hb in Bb. change (256 ^ 32) with (16 ^ Z.of_nat (2 * 32)) in Ba, Bb.
  rewrite !Z.mod_small in E by done. injection E as E. by rewrite <- (be_bytes_of 32 a), <- (be_bytes_of 32 b), E by (by apply Hl).
Qed.

Section Texts.
Context `{CurveLaws}.

Lemma text_long h P : fromHex h = Ok P -> (66 <= String.length h)%nat.
Proof. intros Hh. rewrite (fromHex_length h P Hh). repeat case_match; lia. Qed.

(** No text of a point starts another. *)
Lemma texts_delimit h1 h2 P1 P2 r1 r2 : fromHex h1 = Ok P1 -> fromHex h2 = Ok P2 ->
  list_ascii_of_string h1 ++ r1 = list_ascii_of_string h2 ++ r2 -> h1 = h2 /\ r1 = r2.
Proof.
  intros H1' H2' E. assert (Hl : String.length h1 = String.length h2).
  { rewrite (fromHex_length _ _ H1'), (fromHex_length _ _ H2'), !get_list. pose proof (text_long _ _ H1'). pose proof (text_long _ _ H2').
    apply (f_equal (fun l => nth_error l 1)) in E. rewrite !nth_error_app1 in E by (rewrite list_of_length; lia). by rewrite E. }
  apply app_inj_1 in E as [E ->]; [|by rewrite !list_of_length]. split; [by apply list_of_inj|done].
Qed.

Lemma commitment_text toT v P : hexToPoint v = Ok P -> exists h, v = VStr h /\ fromHex h = Ok P /\ join_text toT v = h.
Proof. destruct v; try done. intros Hh. by exists s. Qed.

Lemma joined_nonempty toT v l pts : map_all hexToPoint (v :: l) = Ok pts -> String.concat "" (map (join_text toT) (v :: l)) <> EmptyString.
Proof.
  intros Hp E. apply bindR_ok in Hp as (Q & (h & -> & Hh & Hj)%(commitment_text toT) & _). apply (f_equal list_ascii_of_string) in E.
  rewrite list_of_concat in E. cbn [map List.concat] in E. rewrite Hj in E. apply app_eq_nil in E as [E _]. pose proof (text_long _ _ Hh).
  by destruct h; cbn in *; [lia|].
Qed.

Lemma joined_inj toT l1 : forall l2 pts1 pts2, map_all hexToPoint l1 = Ok pts1 -> map_all hexToPoint l2 = Ok pts2 ->
  String.concat "" (map (join_text toT) l1) = String.concat "" (map (join_text toT) l2) -> l1 = l2.
Proof.
  induction l1 as [|v l1 IH]; intros [|w l2] pts1 pts2 Hp1 Hp2 E; [done|by apply joined_nonempty with (toT := toT) in Hp2|by apply joined_nonempty with (toT := toT) in Hp1|].
  - apply bindR_ok in Hp1 as (P & (h & -> & Hh & Hj)%(commitment_text toT) & Hp1). apply bindR_ok in Hp1 as (ps & Hp1 & _).
    apply bindR_ok in Hp2 as (Q & (g & -> & Hg & Hk)%(commitment_text toT) & Hp2). apply bindR_ok in Hp2 as (qs & Hp2 & _).
    apply (f_equal list_ascii_of_string) in E. rewrite !list_of_concat in E. cbn [map List.concat] in E. rewrite Hj, Hk in E.
    destruct (texts_delimit _ _ _ _ _ _ Hh Hg E) as [-> Er]. f_equal. apply (IH l2 ps qs Hp1 Hp2). apply list_of_inj. by rewrite !list_of_concat.
Qed.

End Texts.

(** What the root of a bundle is the hash of. *)
Definition rooted_text (text_of_object : val -> string) (bundle : val) : bytes :=
  ascii_bytes (String.concat "" (map (join_text text_of_object) (elems bundle.["commitments"]))).

(** C26: The intent pins the commitments: two bundles one relay accepts for one
    intent have the same commitments, and so the same receipt, or the texts of
    their commitments, which differ, are a collision of the hash function. *)
Theorem bundle_pinned `{Platform} `{CurveLaws} C_GEN text_of_object intent relay bundle1 bundle2 :
  (forall bs, blen (generichash bs) = 32) ->
  let verdict := verifyShareBundleForRelay C_GEN text_of_object intent in
  (verdict bundle1 relay).["ok"] = VBool true -> (verdict bundle2 relay).["ok"] = VBool true ->
  (bundle1.["commitments"] = bundle2.["commitments"] /\ verdict bundle1 relay = verdict bundle2 relay) \/
  (rooted_text text_of_object bundle1 <> rooted_text text_of_object bundle2 /\
    generichash (rooted_text text_of_object bundle1) = generichash (rooted_text text_of_object bundle2)).
Proof.
  intros Hlen verdict. unfold verdict. intros (as1 & a1 & cs1 & ps1 & c1 & Ha1 & Hf1 & Hc1 & _ & Hp1 & Hr1 & Hs1 & E1)%accepted_inv.
  intros (as2 & a2 & cs2 & ps2 & c2 & Ha2 & Hf2 & Hc2 & _ & Hp2 & Hr2 & Hs2 & E2)%accepted_inv.
  rewrite Hr1 in Hr2. injection Hr2 as Hr2. rewrite Ha1 in Ha2. injection Ha2 as <-. rewrite Hf1 in Hf2. injection Hf2 as <-.
  unfold commitmentRootOf in Hr2. apply bytes_hex_inj in Hr2; [|apply Hlen|apply Hlen]. unfold rooted_text. rewrite Hc1, Hc2. cbn [elems].
  set (t1 := String.concat "" (map _ cs1)) in *. set (t2 := String.concat "" (map _ cs2)) in *. destruct (decide (t1 = t2)) as [Et|Hne].
  - left. apply (joined_inj _ _ _ _ _ Hp1 Hp2) in Et as <-. split; [done|]. rewrite E1, E2. rewrite Hs1 in Hs2. by injection Hs2 as ->.
  - right. split; [|done]. intros E. by apply Hne, ascii_bytes_inj.
Qed.
