(* ===== verification/PvssDemo.v ===== *)
(** * Secret sharing on a concrete curve

    Three holders, two of whom recover the secret; their relays; a dishonest
    proof. The theorems of the scheme are applied to what the code computes. *)

From Stdlib Require Import ZArith Lia Bool List String Ascii.
From Stdlib Require Import Strings.Byte.
From stdpp Require Import base tactics list strings.
From S2P Require Import Prelude Codec DemoPlatform SecretSharing PvssArith PvssCurve PvssDleq PvssShares PvssDealer DemoCurve PvssLaws PvssBundle.
Import Pvss.

#[local] Existing Instance demo_platform.

Definition value {A} (default : A) (m : result A) : A := match m with Ok x => x | Err _ => default end.
Definition no_text (v : val) : string := "".

(** A different 32 bytes at every call. *)
Definition demo_random (n : nat) : bytes := be_bytes 32 (Z.of_nat n * 1000003 + 17).

Definition demo_keys (m : nat) : val := value VUndef (fst (keygen demo_random 1 m)).
Definition demo_holders : list val := [demo_keys 100; demo_keys 101; demo_keys 102].
Definition demo_generator : point := value (residue_of 1) commit_generator.
Definition demo_params : val := VObj [("threshold", VNum 2); ("shareholders", VList (map (fun keys => keys.["publicKey"]) demo_holders))].
Definition demo_split := split demo_generator no_text demo_random 1 demo_params 0%nat.
Definition demo_out : val := value VUndef (fst demo_split).
Definition demo_public : val := demo_out.["public"].
Definition demo_share (k : nat) : val := default VUndef (elems demo_public.["encryptedShares"] !! k).
Definition demo_opened (k : nat) : val := value VUndef (fst (decryptShare no_text demo_random 1 (opening (demo_share k) (demo_keys (100 + k)%nat)) (200 + k)%nat)).

Definition demo_intent : val := VObj [
  ("shareScheme", VStr SCHEME);
  ("commitmentRoot", demo_public.["commitmentRoot"]);
  ("shareAssignments", VList [VObj [("relayPubkey", VStr "r1"); ("shareIndex", VNum 3)]; VObj [("relayPubkey", VStr "r2"); ("shareIndex", VNum 1)]])].

Example demo_key_recovered : value VUndef (reconstruct (VObj [("shares", VList [demo_opened 2; demo_opened 0])])) =
  VObj [("secretPoint", demo_out.["secretPoint"]); ("key", demo_out.["key"])].
Proof. vm_compute. reflexivity. Qed.

Example demo_verdict : (verifyShareBundleForRelay demo_generator no_text demo_intent demo_public (VStr "r2")).["ok"] = VBool true.
Proof. vm_compute. reflexivity. Qed.

(** ** From the dealer to the secret *)

Lemma demo_split_ok : split demo_generator no_text demo_random 1 demo_params 0%nat = (Ok demo_out, snd demo_split).
Proof. vm_compute. reflexivity. Qed.

Lemma demo_keys_ok : Forall (fun keys => exists m m', keygen demo_random 1 m = (Ok keys, m')) demo_holders.
Proof.
  repeat (apply Forall_cons_2; [|]); [exists 100%nat|exists 101%nat|exists 102%nat|constructor]; eexists; vm_compute; reflexivity.
Qed.

Lemma demo_holders_ok : (params_of demo_params).["shareholders"] = VList (map (fun keys => keys.["publicKey"]) demo_holders).
Proof. vm_compute. reflexivity. Qed.

Lemma demo_opened_ok k : In k [0; 1; 2]%nat -> opened_share no_text demo_random 1 demo_out demo_holders (demo_opened k).
Proof.
  intros Hk. exists k, (demo_share k), (demo_keys (100 + k)), (200 + k)%nat. eexists. split; [|split].
  - cbn in Hk. split; destruct Hk as [<-|[<-|[<-|[]]]]; vm_compute; reflexivity.
  - cbn in Hk. destruct Hk as [<-|[<-|[<-|[]]]]; vm_compute; reflexivity.
  - cbn in Hk. destruct Hk as [<-|[<-|[<-|[]]]]; vm_compute; reflexivity.
Qed.

Lemma split_reconstruct_witness :
  reconstruct (VObj [("shares", VList [demo_opened 2; demo_opened 0]); ("threshold", demo_out.["threshold"])]) =
    Ok (VObj [("secretPoint", demo_out.["secretPoint"]); ("key", demo_out.["key"])]).
Proof.
  apply (proj2 (split_reconstruct demo_generator no_text demo_random 1 demo_params demo_out demo_holders 0 (snd demo_split) demo_split_ok demo_holders_ok demo_keys_ok) [demo_opened 2; demo_opened 0]).
  - apply Forall_cons_2; [apply (demo_opened_ok 2); by right; right; left|apply Forall_cons_2; [apply (demo_opened_ok 0); by left|constructor]].
  - apply NoDup_cons. split; [|apply NoDup_singleton]. rewrite list_elem_of_singleton. vm_compute. discriminate.
  - vm_compute. discriminate.
Defined.

(** ** The relay *)

Lemma demo_generator_ok : commit_generator = Ok demo_generator.
Proof.
  assert (Hok : is_ok commit_generator = true) by (vm_compute; reflexivity). unfold demo_generator. by destruct commit_generator.
Qed.

Lemma demo_share_ok : elems demo_out.["public"].["encryptedShares"] !! 0%nat = Some (demo_share 0).
Proof. vm_compute. reflexivity. Qed.

Definition demo_assigned : val := VObj [("relayPubkey", VStr "r2"); ("shareIndex", VNum 1)].

Lemma demo_share_counts : degenerate (demo_share 0).["proof"] = false.
Proof. vm_compute. reflexivity. Qed.

Lemma relay_accepts_dealer_witness : exists p holder,
  (demo_share 0).["shareholder"] = VStr (hex holder) /\ (demo_share 0).["encryptedShare"] = VStr (hex (smul p holder)) /\
  verifyShareBundleForRelay demo_generator no_text demo_intent demo_public (VStr "r2") =
    accepted demo_intent demo_assigned (hex (smul p demo_generator)).
Proof.
  assert (Hscheme : falsy demo_intent.["shareScheme"] = false) by (vm_compute; reflexivity).
  assert (Hlist : demo_intent.["shareAssignments"] = VList (elems demo_intent.["shareAssignments"])) by (vm_compute; reflexivity).
  assert (Hfound : find_by "relayPubkey" (VStr "r2") (elems demo_intent.["shareAssignments"]) = Some demo_assigned) by (vm_compute; reflexivity).
  assert (Hindex : demo_assigned.["shareIndex"] = VNum (1 + Z.of_nat 0)) by (vm_compute; reflexivity).
  assert (Hroot : demo_intent.["commitmentRoot"] = demo_out.["public"].["commitmentRoot"]) by (vm_compute; reflexivity).
  destruct (relay_accepts_dealer demo_generator no_text demo_random 1 demo_params demo_out 0 (snd demo_split) demo_intent (VStr "r2")
    (elems demo_intent.["shareAssignments"]) demo_assigned 0 (demo_share 0)
    demo_generator_ok demo_split_ok demo_share_ok Hscheme Hlist Hfound Hindex Hroot) as (p & holder & Hh & He & Hv).
  rewrite demo_share_counts in Hv. exists p, holder. exact (conj Hh (conj He Hv)).
Defined.

(** The same commitments with one share taken out. *)
Definition smaller_public : val := VObj [("commitments", demo_public.["commitments"]); ("encryptedShares", VList [demo_share 0])].

Lemma bundle_pinned_witness :
  (demo_public.["commitments"] = smaller_public.["commitments"] /\
    verifyShareBundleForRelay demo_generator no_text demo_intent demo_public (VStr "r2") =
    verifyShareBundleForRelay demo_generator no_text demo_intent smaller_public (VStr "r2")) \/
  (rooted_text no_text demo_public <> rooted_text no_text smaller_public /\
    generichash (rooted_text no_text demo_public) = generichash (rooted_text no_text smaller_public)).
Proof.
  apply (bundle_pinned demo_generator no_text demo_intent (VStr "r2") demo_public smaller_public).
  - exact demo_digest_length.
  - vm_compute. reflexivity.
  - vm_compute. reflexivity.
Defined.

(** ** One secret *)

Definition demo_points : list point := value [] (map_all hexToPoint (elems demo_public.["commitments"])).

Lemma value_ok {A} (d : A) m : is_ok m = true -> m = Ok (value d m).
Proof. by destruct m. Qed.

Definition demo_field (k : nat) (f : string) : result residue := hexToPoint (demo_opened k).[f].
Definition demo_at (k : nat) (f : string) : residue := value (residue_of 1) (demo_field k f).

(** Logarithms are quotients here. *)
Definition quotient (b a : residue) : Z := (proj1_sig b * inverse (proj1_sig a)) mod N.
Definition multiple (x : Z) (a b : residue) : bool := proj1_sig b =? (x * proj1_sig a) mod N.

Lemma multiple_log x (a b c d : residue) : multiple x a b && multiple x c d = true -> same_log a b c d.
Proof. unfold multiple. intros Hm. b2p. exists x. split; by apply residue_eq. Qed.

Definition demo_sound (k : nat) : bool :=
  let Xi : residue := feldman demo_points (1 + Z.of_nat k) in
  let x := quotient Xi demo_generator in
  let secret := proj1_sig (demo_at k "shareholder") in
  strict_eqb (demo_opened k).["index"] (VNum (1 + Z.of_nat k)) &&
  (is_ok (demo_field k "shareholder") && is_ok (demo_field k "encryptedShare") && is_ok (demo_field k "share")) &&
  ((multiple x demo_generator Xi && multiple x (demo_at k "shareholder") (demo_at k "encryptedShare")) &&
   (multiple secret BASE (demo_at k "shareholder") && multiple secret (demo_at k "share") (demo_at k "encryptedShare"))).

Lemma demo_all_sound : forallb demo_sound [0; 1; 2]%nat = true.
Proof. vm_compute. reflexivity. Qed.

Lemma demo_points_some : demo_points <> [].
Proof. assert (Hl : Nat.eqb (List.length demo_points) 0 = false) by (vm_compute; reflexivity). by destruct demo_points. Qed.

Lemma demo_opened_sound k : In k [0; 1; 2]%nat -> sound_share demo_generator demo_points (demo_opened k).
Proof.
  intros Hk. pose proof demo_all_sound as Hall. rewrite forallb_forall in Hall. pose proof (Hall k Hk) as Hs. unfold demo_sound in Hs. cbv zeta in Hs.
  apply andb_prop in Hs as [[Hi [[Hy HY]%andb_prop HS]%andb_prop]%andb_prop [H1 H2]%andb_prop].
  exists (1 + Z.of_nat k), (feldman demo_points (1 + Z.of_nat k)), (demo_at k "shareholder"), (demo_at k "encryptedShare"), (demo_at k "share").
  assert (Hr : 1 <= 1 + Z.of_nat k < N) by (assert (4 < N) by done; cbn in Hk; lia).
  split; [apply is_num_iff; exact Hi|]. split; [exact (proj2 Hr)|].
  split; [exact (commitmentShare_ok _ _ (scalar_unit _ Hr) demo_points_some)|].
  split; [exact (value_ok _ _ Hy)|]. split; [exact (value_ok _ _ HY)|]. split; [exact (value_ok _ _ HS)|].
  split; [exact (multiple_log _ _ _ _ _ H1)|exact (multiple_log _ _ _ _ _ H2)].
Qed.

Definition two_shares (i j : nat) : val := VObj [("shares", VList [demo_opened i; demo_opened j])].

Lemma two_sound i j : In i [0; 1; 2]%nat -> In j [0; 1; 2]%nat -> Forall (sound_share demo_generator demo_points) [demo_opened i; demo_opened j].
Proof. intros Hi Hj. apply Forall_cons_2; [exact (demo_opened_sound i Hi)|]. apply Forall_cons_2; [exact (demo_opened_sound j Hj)|constructor]. Qed.

Lemma two_enough : (List.length demo_points <= 2)%nat.
Proof. apply Nat.leb_le. vm_compute. reflexivity. Qed.

Lemma sound_shares_agree_witness : value VUndef (reconstruct (two_shares 0 1)) = value VUndef (reconstruct (two_shares 2 1)).
Proof.
  apply (sound_shares_agree demo_generator demo_points (two_shares 0 1) (two_shares 2 1) [demo_opened 0; demo_opened 1] [demo_opened 2; demo_opened 1]).
  - exact demo_generator_ok.
  - exact demo_points_some.
  - reflexivity.
  - reflexivity.
  - apply two_sound; [by left|by right; left].
  - apply two_sound; [by right; right; left|by right; left].
  - exact two_enough.
  - exact two_enough.
  - apply value_ok. vm_compute. reflexivity.
  - apply value_ok. vm_compute. reflexivity.
Defined.

(** ** Proofs *)

(** Another hash function: the same random scalar gets another challenge. *)
Definition other_platform : Platform := {|
  generichash bs := demo_digest (Byte.x01 :: bs);
  is_nfc := is_nfc;
  is_lower_case := is_lower_case;
  parse_url := parse_url
|}.

Definition demo_base : point := residue_of 7.
Definition demo_proof (hash : Platform) : val := value VUndef (fst (@proveDleq hash _ demo_random 1 BASE (smul 5 BASE) demo_base (smul 5 demo_base) 5 3%nat)).
Definition demo_scalars (hash : Platform) : Z * Z := default (0, 0) (scalars (demo_proof hash)).

Lemma demo_scalars_ok hash : is_Some (scalars (demo_proof hash)) -> scalars (demo_proof hash) = Some (fst (demo_scalars hash), snd (demo_scalars hash)).
Proof. unfold demo_scalars. intros [[e s] ->]. done. Qed.

Lemma dleq_special_soundness_witness :
  let '(e, s) := demo_scalars demo_platform in let '(e', s') := demo_scalars other_platform in
  let x := (s - s') * inverse (e' - e) in smul 5 BASE = smul x BASE /\ smul 5 demo_base = smul x demo_base.
Proof.
  rewrite (surjective_pairing (demo_scalars demo_platform)), (surjective_pairing (demo_scalars other_platform)).
  apply (dleq_special_soundness demo_platform other_platform BASE (smul 5 BASE) demo_base (smul 5 demo_base) (demo_proof demo_platform) (demo_proof other_platform)).
  - vm_compute. reflexivity.
  - vm_compute. reflexivity.
  - apply demo_scalars_ok. apply is_Some_alt. vm_compute. exact I.
  - apply demo_scalars_ok. apply is_Some_alt. vm_compute. exact I.
  - apply residue_eq. vm_compute. reflexivity.
  - apply residue_eq. vm_compute. reflexivity.
  - apply Z.eqb_neq. vm_compute. reflexivity.
Defined.
