(* ===== verification/AsyncCalls.v ===== *)
(** * Asynchronous functions

    An async function runs until it awaits something, and goes on when that has
    settled; in between the state may have changed in any way other functions
    can change it. [async] is what is left of a call: its result, or what it
    awaits and how it goes on. [segment] reasons about one run up to the next
    await, relying on an invariant that every other run keeps. *)

From Stdlib Require Import ZArith Lia Bool List String Ascii.
From stdpp Require Import base tactics list strings relations.
From S2P Require Import Prelude.

Section Async.
Context {W : Type} {Q : Type -> Type}.

Inductive async (A : Type) : Type :=
  | Done (r : result A)
  | Await {X : Type} (q : Q X) (k : result X -> W -> async A * W).

Definition AsyncM (A : Type) : Type := W -> async A * W.

Fixpoint bind_async {A B} (m : async A) (f : A -> AsyncM B) : AsyncM B :=
  match m with
  | Done _ (Ok x) => f x
  | Done _ (Err e) => fun w => (Done B (Err e), w)
  | Await _ q k => fun w => (Await B q (fun answer w => let (m', w') := k answer w in bind_async m' f w'), w)
  end.

Definition bindA {A B} (m : AsyncM A) (f : A -> AsyncM B) : AsyncM B :=
  fun w => let (m', w') := m w in bind_async m' f w'.

(** Code without an await; a throw settles the call. *)
Definition sync {A} (m : M W A) : AsyncM A := fun w => let (r, w') := m w in (Done A r, w').

Definition await {X} (q : Q X) : AsyncM X := fun w => (Await X q (fun answer w => (Done X answer, w)), w).

(** ** Runs *)

Fixpoint async_rect' {A} (P : async A -> Prop) (done : forall r, P (Done A r))
  (awaits : forall X (q : Q X) k, (forall answer w, P (fst (k answer w))) -> P (Await A q k)) (m : async A) : P m :=
  match m with
  | Done _ r => done r
  | Await _ q k => awaits _ q k (fun answer w => async_rect' P done awaits (fst (k answer w)))
  end.

(** What a run may do to the state. *)
Section Guarantee.
Context (G : W -> W -> Prop) `{!PreOrder G}.

(** Every later run of [m] keeps to [G], and a result comes with [P]. *)
Fixpoint settles {A} (P : A -> W -> Prop) (m : async A) : Prop :=
  match m with
  | Done _ _ => True
  | Await _ q k => forall answer w, let (m', w') := k answer w in
      G w w' /\ match m' with Done _ (Ok x) => P x w' | _ => True end /\ settles P m'
  end.

(** So does the run from [w0] that ends in [o]. *)
Definition segment {A} (P : A -> W -> Prop) (w0 : W) (o : async A * W) : Prop :=
  let (m, w) := o in G w0 w /\ match m with Done _ (Ok x) => P x w | _ => True end /\ settles P m.

Lemma segment_bind {A B} (P : A -> W -> Prop) (R : B -> W -> Prop) (m : AsyncM A) f w0 w :
  segment P w0 (m w) -> (forall x w', P x w' -> segment R w' (f x w')) -> segment R w0 (bindA m f w).
Proof.
  unfold bindA. destruct (m w) as [m' w']. intros (Hg & Hp & Hs) Hf. revert w0 w' Hg Hp Hs.
  induction m' as [[x|e]|X q k IH] using async_rect'; intros w0 w' Hg Hp Hs; cbn.
  - specialize (Hf x w' Hp). destruct (f x w') as [m2 w2]. destruct Hf as (Hg2 & Hr & Hs2). split; [by transitivity w'|done].
  - done.
  - split; [done|]. split; [done|]. intros answer v. specialize (Hs answer v). specialize (IH answer v).
    destruct (k answer v) as [m'' v']. destruct Hs as (Hg' & Hp' & Hs'). specialize (IH v v' Hg' Hp' Hs'). cbn in IH.
    destruct (bind_async m'' f v') as [m3 v3]. exact IH.
Qed.

Lemma segment_sync {A} (P : A -> W -> Prop) (m : M W A) w : G w (snd (m w)) -> (forall x w', m w = (Ok x, w') -> P x w') -> segment P w (sync m w).
Proof. unfold sync. destruct (m w) as [[x|e] w'] eqn:E; cbn; intros Hi Hp; split_and!; auto. Qed.

Lemma segment_await {X} (P : X -> W -> Prop) (q : Q X) w : (forall x w, P x w) -> segment P w (await q w).
Proof. intros Hp. split_and!; [reflexivity|done|]. intros [x|e] v; cbn; split_and!; done || reflexivity. Qed.

End Guarantee.

End Async.

Arguments Done {W Q A} r.
Arguments Await {W Q A X} q k.
Arguments async W Q A : clear implicits.
Arguments AsyncM W Q A : clear implicits.

Notation "'let^' x ':=' m 'in' k" := (bindA m (fun x => k))
  (at level 10, x pattern, m at level 100, k at level 200,
   format "'[v' 'let^'  x  ':='  m  'in' '/' k ']'") : js_scope.
Notation "m ';;^' k" := (bindA m (fun _ => k))
  (at level 199, right associativity, format "'[v' m  ';;^' '/' k ']'") : js_scope.
