(* ===== verification/DescriptorState.v ===== *)
(** * The service descriptor of a relay (packages/blind-daemon/descriptor-state.js)

    A relay signs descriptors of itself, each linked to the one before by its
    hash. [DescriptorState] holds the chain that was accepted: it refuses
    rollbacks, forks and gaps, closes for good when it sees one, and tells the
    operations that took a snapshot whether they may still rely on it.

    The signature verifiers, the restoration authority and the clock are hooks,
    numbered by call. Operations run one after the other, as [_serialized] makes
    them. Abort signals are only passed on to the hooks and left out. *)

From Stdlib Require Import ZArith Lia Bool List String Ascii.
From Stdlib Require Import Strings.Byte.
From stdpp Require Import base tactics list strings.
From S2P Require Import Prelude JsMap Codec CodecLaws Authority Hashes SchemaKit SchemasDescribe SchemasDurability SchemasInternal.

Module Descriptor.

Definition MAX_U32 : Z := 0xffffffff.

(** [DESCRIPTOR_CLOSED_REASON] *)
Definition NO_DESCRIPTOR : Z := 1.
Definition NOT_YET_VALID : Z := 2.
Definition REASON_EXPIRED : Z := 3.
Definition ROLLBACK : Z := 4.
Definition FORK : Z := 5.
Definition CHAIN_GAP : Z := 6.
Definition INVALID_TRANSITION : Z := 7.
Definition RETIRED : Z := 8.
Definition RESTORE_UNVERIFIED : Z := 9.

(** ** Values *)

(** A BigInt field that its encoding has already checked. *)
Definition big (v : val) : Z := match v with VBig n => n | _ => 0 end.

(** [asBytes] and [ownedBytes] *)
Definition asBytes (value : val) (length : option Z) : result bytes :=
  match value with
  | VBytes bs =>
      throw_if (match length with Some n => negb (blen bs =? n) | None => false end) TypeError ;;!
      Ok bs
  | _ => Err TypeError
  end.

Definition sameBytes (left right : val) : bool :=
  match left, right with VBytes a, VBytes b => bytes_eqb a b | _, _ => false end.

(** [u64]: a number or BigInt within the range. *)
Definition u64 (value : val) : result Z :=
  match value with
  | VNum n | VBig n => throw_if ((n <? 0) || (MAX_U64 <? n)) (Closed RESTORE_UNVERIFIED) ;;! Ok n
  | _ => Err (Closed RESTORE_UNVERIFIED)
  end.

(** ** Records *)

Record record := {
  canonicalBytes : bytes;
  hash : bytes;
  descriptorSequence : Z;
  issuedEpoch : Z;
  expiresEpoch : Z;
  storeLifecycleState : Z;
  generation : Z;
  lifecycleFence : Z;
  hadReadinessGap : bool;
  restored : bool
}.

(** What an operation holds on to. *)
Record snapshot := {
  snap_descriptor : val;
  snap_canonicalBytes : bytes;
  snap_hash : bytes;
  snap_descriptorSequence : Z;
  snap_generation : Z;
  snap_lifecycleFence : Z;
  snap_hadReadinessGap : bool;
  fullStoreVerificationRequired : bool
}.

Record DescriptorState := {
  currentRecord : option record;
  byHash : list (bytes * record);
  bySequence : list (Z * record);
  state_generation : Z;
  state_fence : Z;
  fault : option Z;
  (** how many calls the hooks have had *)
  calls : nat
}.

Definition set_calls n s := {| currentRecord := currentRecord s; byHash := byHash s; bySequence := bySequence s;
  state_generation := state_generation s; state_fence := state_fence s; fault := fault s; calls := n |}.
Definition set_fault r s := {| currentRecord := currentRecord s; byHash := byHash s; bySequence := bySequence s;
  state_generation := state_generation s; state_fence := state_fence s; fault := Some r; calls := calls s |}.
Definition set_generation n s := {| currentRecord := currentRecord s; byHash := byHash s; bySequence := bySequence s;
  state_generation := n; state_fence := state_fence s; fault := fault s; calls := calls s |}.
Definition set_fence n s := {| currentRecord := currentRecord s; byHash := byHash s; bySequence := bySequence s;
  state_generation := state_generation s; state_fence := n; fault := fault s; calls := calls s |}.
Definition set_records c h q s := {| currentRecord := c; byHash := h; bySequence := q;
  state_generation := state_generation s; state_fence := state_fence s; fault := fault s; calls := calls s |}.

Record config := { maxHistory : Z; retentionEpochs : Z; allowEmergencyGaps : bool }.

(** What the descriptor state is given. *)
Record hooks := {
  verifySignature : nat -> val -> result val;
  verifyIdentityTransitionSignature : nat -> val -> result val;
  verifyRestoration : option (nat -> val -> result val);
  epochNow : nat -> result val
}.

(** ** Canonical bytes *)

Definition decodeExact (codec : encoding) (canonicalBytes : bytes) : result val :=
  match (let! value := decodeCanonical codec (VBytes canonicalBytes) in
         let! encoded := encodeCanonical codec value in
         throw_if (negb (bytes_eqb canonicalBytes encoded)) GenericError ;;!
         Ok value) with
  | Ok value => Ok value
  | Err _ => Err (Closed INVALID_TRANSITION)
  end.

(** ** Transitions *)

(** [closedError] *)
Definition closed_if (cond : bool) (reason : Z) : result unit := throw_if cond (Closed reason).

Definition continuityValue (durability : val) : val := VObj [
  ("version", VNum 1);
  ("profileId", durability.["profileId"]);
  ("externalJournalId", durability.["externalJournalId"]);
  ("externalWitnessPublicKey", durability.["externalWitnessPublicKey"]);
  ("externalJournalReplicationClass", durability.["externalJournalReplicationClass"]);
  ("externalJournalFailureGroupId", durability.["externalJournalFailureGroupId"]);
  ("restoreEvidenceFeedId", durability.["restoreEvidenceFeedId"])].

Definition assertAdvertisedDescriptorProfile (descriptor : val) : result unit :=
  closed_if (negb (js_and (num descriptor.["enabledOperationBits"]) (js_not ADVERTISED_OPERATION_BITS) =? 0)) INVALID_TRANSITION.

Definition lifecycleTransition (previous next : Z) : bool :=
  if previous =? next then negb (previous =? STORE_LIFECYCLE_STATE_RETIRED)
  else if (previous =? STORE_LIFECYCLE_STATE_ACTIVE) && (next =? STORE_LIFECYCLE_STATE_DRAINING) then true
  else (previous =? STORE_LIFECYCLE_STATE_DRAINING) && (next =? STORE_LIFECYCLE_STATE_RETIRED).

Definition is_state (descriptor : val) (state : Z) : bool := is_num descriptor.["storeLifecycleState"] state.

Definition assertGenesis (descriptor : val) : result unit :=
  closed_if (negb (strict_eqb descriptor.["descriptorSequence"] (VBig 0)) || negb (strict_eqb descriptor.["identitySequence"] (VBig 0))
    || negb (nullish descriptor.["previousDescriptorHash"]) || negb (nullish descriptor.["previousRelayKey"])
    || negb (nullish descriptor.["identityTransition"]) || negb (is_state descriptor STORE_LIFECYCLE_STATE_ACTIVE)) INVALID_TRANSITION.

Definition assertSameKeyTransition (previous next : val) : result unit :=
  closed_if (negb (nullish next.["previousRelayKey"]) || negb (nullish next.["identityTransition"])
    || negb (strict_eqb next.["identitySequence"] previous.["identitySequence"])
    || negb (sameBytes previous.["storeId"] next.["storeId"])
    || negb (strict_eqb previous.["durability"].["profileId"] next.["durability"].["profileId"])
    || negb (sameBytes previous.["durabilityContinuityHash"] next.["durabilityContinuityHash"])) INVALID_TRANSITION ;;!
  closed_if (negb (lifecycleTransition (num previous.["storeLifecycleState"]) (num next.["storeLifecycleState"]))) INVALID_TRANSITION ;;!
  closed_if (is_state previous STORE_LIFECYCLE_STATE_ACTIVE && is_state next STORE_LIFECYCLE_STATE_ACTIVE
    && js_le next.["issuedEpoch"] previous.["issuedEpoch"]) INVALID_TRANSITION.

Definition assertRotationTransition (previous next : val) : result unit :=
  let transition := next.["identityTransition"] in
  closed_if (negb (is_state previous STORE_LIFECYCLE_STATE_RETIRED) || negb (is_state next STORE_LIFECYCLE_STATE_ACTIVE)
    || falsy transition || falsy next.["previousRelayKey"]
    || sameBytes previous.["storeId"] next.["storeId"]
    || negb (sameBytes next.["previousRelayKey"] previous.["relayPublicKey"])
    || negb (sameBytes transition.["oldRelayKey"] previous.["relayPublicKey"])
    || negb (sameBytes transition.["newRelayKey"] next.["relayPublicKey"])
    || negb (strict_eqb transition.["oldIdentitySequence"] previous.["identitySequence"])
    || negb (strict_eqb transition.["newIdentitySequence"] next.["identitySequence"])
    || negb (strict_eqb next.["identitySequence"] (VBig (big previous.["identitySequence"] + 1)))
    || negb (strict_eqb transition.["validFromEpoch"] next.["issuedEpoch"])) INVALID_TRANSITION.

Definition assertDrainEpoch (previous next : val) : result unit :=
  closed_if ((is_state previous STORE_LIFECYCLE_STATE_DRAINING || is_state previous STORE_LIFECYCLE_STATE_RETIRED)
    && negb (is_state next STORE_LIFECYCLE_STATE_ACTIVE)
    && negb (strict_eqb next.["drainStartedEpoch"] previous.["drainStartedEpoch"])) INVALID_TRANSITION.

Section WithPlatform.
Context `{Platform}.

Definition assertDurabilityHashes (descriptor : val) : result unit :=
  let! profileBytes := encodeCanonical durabilityProfileV1 descriptor.["durability"] in
  let! continuityBytes := encodeCanonical Durability.durabilityContinuityBindingV1 (continuityValue descriptor.["durability"]) in
  let! profileHash := Hash.durabilityProfileHash (VBytes profileBytes) in
  let! continuityHash := Hash.durabilityContinuityHash (VBytes continuityBytes) in
  closed_if (negb (sameBytes descriptor.["durabilityProfileHash"] (VBytes profileHash))
    || negb (sameBytes descriptor.["durabilityContinuityHash"] (VBytes continuityHash))) INVALID_TRANSITION.

(** Whether there is a gap before the next descriptor, and whether snapshots of
    the one before lose their use. *)
Definition assertTransition (previousRecord : record) (next : val) (allowGap : bool) : result (bool * bool) :=
  let! previous := decodeExact blindServiceDescriptorV1 (canonicalBytes previousRecord) in
  closed_if (negb (strict_eqb next.["descriptorSequence"] (VBig (big previous.["descriptorSequence"] + 1)))
    || falsy next.["previousDescriptorHash"]
    || negb (sameBytes next.["previousDescriptorHash"] (VBytes (hash previousRecord)))) CHAIN_GAP ;;!
  let readinessGap := js_le previous.["expiresEpoch"] next.["issuedEpoch"] in
  closed_if (readinessGap && negb allowGap) INVALID_TRANSITION ;;!
  let sameRelay := sameBytes previous.["relayPublicKey"] next.["relayPublicKey"] in
  (if sameRelay then assertSameKeyTransition previous next else assertRotationTransition previous next) ;;!
  assertDrainEpoch previous next ;;!
  Ok (readinessGap, readinessGap || negb sameRelay || negb (sameBytes previous.["storeId"] next.["storeId"])
    || negb (strict_eqb previous.["storeLifecycleState"] next.["storeLifecycleState"])).

Definition recordFor (descriptor : val) (canonicalBytes hash : bytes) (generation lifecycleFence : Z) (hadReadinessGap restored : bool) : record := {|
  canonicalBytes := canonicalBytes;
  hash := hash;
  descriptorSequence := big descriptor.["descriptorSequence"];
  issuedEpoch := num descriptor.["issuedEpoch"];
  expiresEpoch := num descriptor.["expiresEpoch"];
  storeLifecycleState := num descriptor.["storeLifecycleState"];
  generation := generation;
  lifecycleFence := lifecycleFence;
  hadReadinessGap := hadReadinessGap;
  restored := restored
|}.

Definition snapshotFor (record : record) : result snapshot :=
  let! descriptor := decodeExact blindServiceDescriptorV1 (canonicalBytes record) in
  Ok {|
    snap_descriptor := descriptor;
    snap_canonicalBytes := canonicalBytes record;
    snap_hash := hash record;
    snap_descriptorSequence := descriptorSequence record;
    snap_generation := generation record;
    snap_lifecycleFence := lifecycleFence record;
    snap_hadReadinessGap := hadReadinessGap record;
    fullStoreVerificationRequired := hadReadinessGap record || restored record
  |}.

Definition manifestMatchesDescriptor (manifest descriptor : val) (hash : bytes) : bool :=
  strict_eqb manifest.["descriptorSequenceFloor"] descriptor.["descriptorSequence"] &&
  sameBytes manifest.["descriptorHashFloor"] (VBytes hash) &&
  sameBytes manifest.["relayPublicKey"] descriptor.["relayPublicKey"] &&
  sameBytes manifest.["storeId"] descriptor.["storeId"] &&
  strict_eqb manifest.["durabilityProfileId"] descriptor.["durability"].["profileId"] &&
  sameBytes manifest.["durabilityContinuityHash"] descriptor.["durabilityContinuityHash"] &&
  sameBytes manifest.["durabilityProfileHash"] descriptor.["durabilityProfileHash"] &&
  strict_eqb manifest.["formatMajor"] descriptor.["durability"].["storeFormatMajor"] &&
  strict_eqb manifest.["formatMinor"] descriptor.["durability"].["storeFormatMinor"] &&
  sameBytes manifest.["storeFormatHash"] descriptor.["durability"].["storeFormatHash"] &&
  sameBytes manifest.["specHash"] descriptor.["build"].["specHash"] &&
  sameBytes manifest.["abiHash"] descriptor.["build"].["abiHash"].

(** ** The state *)

Section WithHooks.
Context (outside : hooks) (limits : config).

Definition call (hook : nat -> result val) : M DescriptorState val :=
  let* n := gets calls in
  modify (set_calls (S n)) ;;*
  lift (hook n).

Definition currentEpoch : M DescriptorState Z :=
  let* value := call (epochNow outside) in
  match value with
  | VNum n => throwM_if ((n <? 0) || (MAX_U32 <? n)) TypeError ;;* ret n
  | _ => throw TypeError
  end.

(** The descriptor with its signature field taken off. *)
Definition without_tail (bs : bytes) (n : Z) : bytes := take (Z.to_nat (blen bs - n)) bs.

(** The loop over the two signers. *)
Fixpoint verify_signers (signers : list (string * string * string)) (transitionBytes unsignedBytes payload : bytes) : M DescriptorState unit :=
  match signers with
  | [] => ret tt
  | (signer, key, signature) :: rest =>
      let* transition := lift (decodeExact relayIdentityTransitionV1 transitionBytes) in
      let* verified := call (fun n => verifyIdentityTransitionSignature outside n (VObj [
        ("domainId", VNum AUXILIARY_SIGNATURE_DOMAIN_ID_IDENTITY_TRANSITION);
        ("signer", VStr signer);
        ("publicKey", transition.[key]);
        ("signature", transition.[signature]);
        ("payload", VBytes payload);
        ("canonicalUnsignedBytes", VBytes unsignedBytes);
        ("canonicalBytes", VBytes transitionBytes);
        ("transition", transition)])) in
      throwM_if (negb (is_true verified)) (Closed INVALID_TRANSITION) ;;*
      verify_signers rest transitionBytes unsignedBytes payload
  end.

Definition verifyIdentityTransition (value : val) : M DescriptorState unit :=
  let* transitionBytes := lift (encodeCanonical relayIdentityTransitionV1 value) in
  let unsignedBytes := without_tail transitionBytes 128 in
  let* payload := lift (Hash.auxiliarySignaturePayload (VNum AUXILIARY_SIGNATURE_DOMAIN_ID_IDENTITY_TRANSITION) (VBytes unsignedBytes)) in
  verify_signers [("old", "oldRelayKey", "oldSignature"); ("new", "newRelayKey", "newSignature")] transitionBytes unsignedBytes payload ;;*
  let* _ := lift (decodeExact relayIdentityTransitionV1 transitionBytes) in
  ret tt.

Definition verifiedDescriptor (canonicalBytes : bytes) : M DescriptorState val :=
  let* descriptor := lift (decodeExact blindServiceDescriptorV1 canonicalBytes) in
  lift (assertDurabilityHashes descriptor) ;;*
  lift (assertAdvertisedDescriptorProfile descriptor) ;;*
  let unsignedBytes := without_tail canonicalBytes 64 in
  let* payload := lift (Hash.resultSignaturePayload (VNum RESULT_SIGNATURE_DOMAIN_ID_DESCRIPTOR) (VBytes unsignedBytes)) in
  let* verified := call (fun n => verifySignature outside n (VObj [
    ("domainId", VNum RESULT_SIGNATURE_DOMAIN_ID_DESCRIPTOR);
    ("publicKey", descriptor.["relayPublicKey"]);
    ("signature", descriptor.["signature"]);
    ("payload", VBytes payload);
    ("canonicalBytes", VBytes canonicalBytes);
    ("descriptor", descriptor)])) in
  throwM_if (negb (is_true verified)) (Closed INVALID_TRANSITION) ;;*
  let* descriptor := lift (decodeExact blindServiceDescriptorV1 canonicalBytes) in
  lift (assertDurabilityHashes descriptor) ;;*
  lift (assertAdvertisedDescriptorProfile descriptor) ;;*
  (if nullish descriptor.["identityTransition"] then ret tt else verifyIdentityTransition descriptor.["identityTransition"]) ;;*
  ret descriptor.

Definition install (r : record) : M DescriptorState unit :=
  modify (fun s => set_records (Some r) (map_set bytes_eqb (hash r) r (byHash s)) (map_set Z.eqb (descriptorSequence r) r (bySequence s)) s).

(** The records in the order of their sequence numbers. *)
Fixpoint insert_record (r : record) (sorted : list record) : list record :=
  match sorted with
  | [] => [r]
  | x :: rest => if descriptorSequence r <? descriptorSequence x then r :: sorted else x :: insert_record r rest
  end.

Definition sort_records (l : list record) : list record := fold_left (fun sorted r => insert_record r sorted) l [].

Fixpoint prune_loop (ordered : list record) (floor : Z) : M DescriptorState unit :=
  match ordered with
  | [] => ret tt
  | first :: rest =>
      let count := Z.of_nat (List.length ordered) in
      if (maxHistory limits <? count) || ((1 <? count) && (expiresEpoch first <? floor)) then
        modify (fun s => set_records (currentRecord s) (map_delete bytes_eqb (hash first) (byHash s))
          (map_delete Z.eqb (descriptorSequence first) (bySequence s)) s) ;;*
        prune_loop rest floor
      else ret tt
  end.

Definition prune (now : Z) : M DescriptorState unit :=
  let floor := Z.max 0 (now - retentionEpochs limits) in
  let* records := gets (fun s => map snd (bySequence s)) in
  prune_loop (sort_records records) floor.

(** The end of [_activate]. *)
Definition install_next (descriptor : val) (canonicalBytes hash : bytes) (fence : Z) (gap restored : bool) (now : Z) : M DescriptorState snapshot :=
  let* g := gets state_generation in
  modify (set_generation (g + 1)) ;;*
  let r := recordFor descriptor canonicalBytes hash (g + 1) fence gap restored in
  modify (set_fence fence) ;;*
  install r ;;*
  prune now ;;*
  lift (snapshotFor r).

Definition faulted {A} (reason : Z) : M DescriptorState A := modify (set_fault reason) ;;* throw (Closed reason).

Definition activate_serialized (canonicalBytes : bytes) (emergencyGap trustedRestore : bool) : M DescriptorState snapshot :=
  let* closed := gets fault in
  match closed with
  | Some reason => throw (Closed reason)
  | None =>
      let* descriptor := verifiedDescriptor canonicalBytes in
      let* hash' := lift (Hash.serviceDescriptorHash (VBytes canonicalBytes)) in
      let* now := currentEpoch in
      throwM_if (js_lt (VNum now) descriptor.["issuedEpoch"]) (Closed NOT_YET_VALID) ;;*
      throwM_if (js_le descriptor.["expiresEpoch"] (VNum now)) (Closed REASON_EXPIRED) ;;*
      let* current := gets currentRecord in
      let* fence := gets state_fence in
      match current with
      | None =>
          throwM_if (negb (strict_eqb descriptor.["descriptorSequence"] (VBig 0)) || trustedRestore) (Closed CHAIN_GAP) ;;*
          lift (assertGenesis descriptor) ;;*
          install_next descriptor canonicalBytes hash' fence false false now
      | Some current =>
          if js_lt descriptor.["descriptorSequence"] (VBig (descriptorSequence current)) then faulted ROLLBACK
          else if strict_eqb descriptor.["descriptorSequence"] (VBig (descriptorSequence current)) then
            if negb (bytes_eqb hash' (hash current)) then faulted FORK else lift (snapshotFor current)
          else match assertTransition current descriptor (allowEmergencyGaps limits && emergencyGap) with
          | Err (Closed reason) => faulted reason
          | Err e => throw e
          | Ok (readinessGap, fenceChanged) =>
              install_next descriptor canonicalBytes hash' (if fenceChanged then fence + 1 else fence)
                (hadReadinessGap current || readinessGap) (restored current) now
          end
      end
  end.

Definition activate (input options : val) : M DescriptorState snapshot :=
  let* canonicalBytes := lift (asBytes input None) in
  activate_serialized canonicalBytes (is_true options.["emergencyGap"]) (is_true options.["trustedRestore"]).

(** The loop over the chain. *)
Fixpoint restore_chain (chain : list bytes) (previous : option record) (fence : Z) (gap : bool) : M DescriptorState (list record * Z) :=
  match chain with
  | [] => ret ([], fence)
  | canonicalBytes :: rest =>
      let* descriptor := verifiedDescriptor canonicalBytes in
      let* hash' := lift (Hash.serviceDescriptorHash (VBytes canonicalBytes)) in
      let* (fence, gap) := lift (match previous with
        | None =>
            if strict_eqb descriptor.["descriptorSequence"] (VBig 0) then assertGenesis descriptor ;;! Ok (fence, gap) else Ok (fence, true)
        | Some previous =>
            let! (readinessGap, fenceChanged) := assertTransition previous descriptor (allowEmergencyGaps limits) in
            Ok (if fenceChanged then fence + 1 else fence, gap || readinessGap)
        end) in
      let* g := gets state_generation in
      modify (set_generation (g + 1)) ;;*
      let r := recordFor descriptor canonicalBytes hash' (g + 1) fence gap true in
      let* (pending, fence) := restore_chain rest (Some r) fence gap in
      ret (r :: pending, fence)
  end.

(** The restoration authority must echo what it was shown. *)
Definition verify_restoration (chain : list bytes) (manifestBytes : option bytes) (last : val) (lastHash : bytes) : M DescriptorState unit :=
  match manifestBytes, verifyRestoration outside with
  | Some manifestBytes, Some verify =>
      let* manifest := lift (decodeExact Internal.blindStoreManifestV1 manifestBytes) in
      throwM_if (negb (manifestMatchesDescriptor manifest last lastHash)) (Closed RESTORE_UNVERIFIED) ;;*
      let* evidence := call (fun n => verify n (VObj [
        ("canonicalManifestBytes", VBytes manifestBytes);
        ("manifest", manifest);
        ("descriptorChainBytes", VList (map VBytes chain));
        ("descriptorSequenceFloor", last.["descriptorSequence"]);
        ("descriptorHashFloor", VBytes lastHash);
        ("relayPublicKey", last.["relayPublicKey"]);
        ("storeId", last.["storeId"]);
        ("durabilityProfileId", last.["durability"].["profileId"]);
        ("durabilityContinuityHash", last.["durabilityContinuityHash"]);
        ("durabilityProfileHash", last.["durabilityProfileHash"])])) in
      throwM_if (negb (is_true evidence.["verified"]) || negb (is_true evidence.["fullStoreVerified"])) (Closed RESTORE_UNVERIFIED) ;;*
      let* floor := lift (u64 evidence.["descriptorSequenceFloor"]) in
      throwM_if (negb (strict_eqb (VBig floor) last.["descriptorSequence"])
        || negb (sameBytes evidence.["descriptorHashFloor"] (VBytes lastHash))
        || negb (sameBytes evidence.["relayPublicKey"] last.["relayPublicKey"])
        || negb (sameBytes evidence.["storeId"] last.["storeId"])
        || negb (strict_eqb evidence.["durabilityProfileId"] last.["durability"].["profileId"])
        || negb (sameBytes evidence.["durabilityContinuityHash"] last.["durabilityContinuityHash"])
        || negb (sameBytes evidence.["durabilityProfileHash"] last.["durabilityProfileHash"])) (Closed RESTORE_UNVERIFIED) ;;*
      let* _ := lift (decodeExact Internal.blindStoreManifestV1 manifestBytes) in
      ret tt
  | _, _ => throw (Closed RESTORE_UNVERIFIED)
  end.

Definition restore_serialized (chain : list bytes) (manifestBytes : option bytes) : M DescriptorState snapshot :=
  let* current := gets currentRecord in
  let* closed := gets fault in
  throwM_if (match current, closed with None, None => false | _, _ => true end) (Closed RESTORE_UNVERIFIED) ;;*
  let* (pending, fence) := restore_chain chain None 0 false in
  match pending, List.last pending (recordFor VUndef [] [] 0 0 false false) with
  | [], _ => throw TypeError
  | firstRecord :: _, lastRecord =>
      let* first := lift (decodeExact blindServiceDescriptorV1 (canonicalBytes firstRecord)) in
      let* last := lift (decodeExact blindServiceDescriptorV1 (canonicalBytes lastRecord)) in
      (if negb (strict_eqb first.["descriptorSequence"] (VBig 0)) || match manifestBytes with Some _ => true | None => false end
       then verify_restoration chain manifestBytes last (hash lastRecord) else ret tt) ;;*
      each install pending ;;*
      modify (set_fence fence) ;;*
      let* now := currentEpoch in
      prune now ;;*
      let* current := gets currentRecord in
      match current with Some r => lift (snapshotFor r) | None => throw TypeError end
  end.

Fixpoint all_bytes (l : list val) : result (list bytes) :=
  match l with [] => Ok [] | v :: rest => let! bs := asBytes v None in let! rest := all_bytes rest in Ok (bs :: rest) end.

Definition restore (input options : val) : M DescriptorState snapshot :=
  match input.["descriptorChainBytes"] with
  | VList chain =>
      throwM_if ((Z.of_nat (List.length chain) =? 0) || (maxHistory limits <? Z.of_nat (List.length chain))) TypeError ;;*
      let* chain := lift (all_bytes chain) in
      let* manifestBytes := lift (if nullish input.["manifestBytes"] then Ok None else let! bs := asBytes input.["manifestBytes"] None in Ok (Some bs)) in
      throwM_if (is_true input.["trustedRestore"] || is_true options.["trustedRestore"]) (Closed RESTORE_UNVERIFIED) ;;*
      restore_serialized chain manifestBytes
  | _ => throw TypeError
  end.

(** *** What others ask *)

Inductive view := READY (current : snapshot) | CLOSED (reason : Z).

Definition state : M DescriptorState view :=
  let* closed := gets fault in
  let* current := gets currentRecord in
  match closed, current with
  | Some reason, _ => ret (CLOSED reason)
  | None, None => ret (CLOSED NO_DESCRIPTOR)
  | None, Some r =>
      let* now := currentEpoch in
      if now <? issuedEpoch r then ret (CLOSED NOT_YET_VALID)
      else if expiresEpoch r <=? now then ret (CLOSED REASON_EXPIRED)
      else if storeLifecycleState r =? STORE_LIFECYCLE_STATE_RETIRED then ret (CLOSED RETIRED)
      else let* current := lift (snapshotFor r) in ret (READY current)
  end.

Definition requireCurrent : M DescriptorState snapshot :=
  let* v := state in
  match v with READY current => ret current | CLOSED reason => throw (Closed reason) end.

Definition historical (hash : val) : M DescriptorState (option snapshot) :=
  let* hash := lift (asBytes hash (Some 32)) in
  let* found := gets (fun s => map_get bytes_eqb hash (byHash s)) in
  match found with
  | None => ret None
  | Some r => let* found := lift (snapshotFor r) in ret (Some found)
  end.

Definition selected (hash : val) : M DescriptorState (option snapshot) :=
  if nullish hash then let* current := requireCurrent in ret (Some current) else historical hash.

Definition recordForSnapshot (taken : option snapshot) : M DescriptorState (option record) :=
  match taken with
  | None => ret None
  | Some taken =>
      let* hash := lift (asBytes (VBytes (snap_hash taken)) (Some 32)) in
      let* found := gets (fun s => map_get bytes_eqb hash (byHash s)) in
      ret (match found with
           | Some r => if (descriptorSequence r =? snap_descriptorSequence taken) && (generation r =? snap_generation taken)
                          && (lifecycleFence r =? snap_lifecycleFence taken) then Some r else None
           | None => None
           end)
  end.

Definition remainsUsable (taken : option snapshot) : M DescriptorState bool :=
  let* closed := gets fault in
  match closed with
  | Some _ => ret false
  | None =>
      let* found := recordForSnapshot taken in
      let* current := gets currentRecord in
      match found, current with
      | Some r, Some current =>
          if negb (lifecycleFence r =? lifecycleFence current) then ret false
          else
            let* now := currentEpoch in
            ret (negb ((now <? issuedEpoch r) || (expiresEpoch r <=? now) || (storeLifecycleState current =? STORE_LIFECYCLE_STATE_RETIRED)))
      | _, _ => ret false
      end
  end.

Definition resultBinding (taken : option snapshot) (restoreEvidence : val) : M DescriptorState val :=
  let* found := recordForSnapshot taken in
  match found with
  | None => throw TypeError
  | Some r =>
      let* descriptor := lift (decodeExact blindServiceDescriptorV1 (canonicalBytes r)) in
      let* headSequence := lift (if nullish restoreEvidence.["restoreEvidenceHeadSequence"] then Ok 0 else u64 restoreEvidence.["restoreEvidenceHeadSequence"]) in
      let* headHash := lift (if nullish restoreEvidence.["restoreEvidenceHeadHash"] then Ok (replicate 32 Byte.x00)
        else asBytes restoreEvidence.["restoreEvidenceHeadHash"] (Some 32)) in
      ret (VObj [
        ("version", VNum 1);
        ("relayPublicKey", descriptor.["relayPublicKey"]);
        ("storeId", descriptor.["storeId"]);
        ("descriptorSequence", descriptor.["descriptorSequence"]);
        ("descriptorHash", VBytes (hash r));
        ("durabilityProfileId", descriptor.["durability"].["profileId"]);
        ("durabilityContinuityHash", descriptor.["durabilityContinuityHash"]);
        ("durabilityProfileHash", descriptor.["durabilityProfileHash"]);
        ("restoreEvidenceHeadSequence", VBig headSequence);
        ("restoreEvidenceHeadHash", VBytes headHash);
        ("externalCommitWitness", VNull)])
  end.

End WithHooks.

(** [maxHistory] and [retentionEpochs] of the constructor *)
Definition bounded_option (value : val) (default maximum : Z) : result Z :=
  let value := if nullish value then VNum default else value in
  match value with
  | VNum n => throw_if (negb (isSafeInteger n) || (n <? 1) || (maximum <? n)) TypeError ;;! Ok n
  | _ => Err TypeError
  end.

Definition newState : DescriptorState := {| currentRecord := None; byHash := []; bySequence := []; state_generation := 0; state_fence := 0; fault := None; calls := 0 |}.

(** The constructor; it asks the clock once. *)
Definition newDescriptorState (outside : hooks) (options : val) : result (config * DescriptorState) :=
  let! maxHistory := bounded_option options.["maxHistory"] 4096 4096 in
  let! retentionEpochs := bounded_option options.["retentionEpochs"] 1460 1460 in
  let limits := {| maxHistory := maxHistory; retentionEpochs := retentionEpochs; allowEmergencyGaps := is_true options.["allowEmergencyGaps"] |} in
  match currentEpoch outside newState with
  | (Ok _, s) => Ok (limits, s)
  | (Err e, _) => Err e
  end.

(** ** The binding of a result *)

Definition assertRelayResultBinding (actual expected : val) : result unit :=
  closed_if (falsy actual || falsy expected || negb (is_num actual.["version"] 1) || negb (strict_eqb actual.["version"] expected.["version"])
    || negb (strict_eqb actual.["descriptorSequence"] expected.["descriptorSequence"])
    || negb (strict_eqb actual.["durabilityProfileId"] expected.["durabilityProfileId"])
    || negb (strict_eqb actual.["restoreEvidenceHeadSequence"] expected.["restoreEvidenceHeadSequence"])) INVALID_TRANSITION ;;!
  for_each (fun field => closed_if (falsy actual.[field] || falsy expected.[field] || negb (sameBytes actual.[field] expected.[field])) INVALID_TRANSITION)
    ["relayPublicKey"; "storeId"; "descriptorHash"; "durabilityContinuityHash"; "durabilityProfileHash"; "restoreEvidenceHeadHash"].

End WithPlatform.
End Descriptor.
