(* ===== verification/DescriptorChain.v ===== *)
(** * The chain of descriptors

    What a record of [DescriptorState] stands for, when one record follows
    another, and the invariant of the state: its maps hold one chain of signed
    descriptors, each with the hash of the one before. *)

From Stdlib Require Import ZArith Lia Bool List String Ascii Sorted.
From stdpp Require Import base tactics list strings.
From S2P Require Import Prelude JsMap Codec CodecLaws Authority Hashes SchemaKit SchemasDescribe SchemasDurability SchemasInternal Accepted DescriptorState.
Import Descriptor.

(** ** Programs of the state *)

(** The outcome of a run: a result in [Q], or a state in [R] after an error. *)
Definition ends {S A} (Q : A -> S -> Prop) (R : S -> Prop) (o : result A * S) : Prop :=
  match o with (Ok x, s') => Q x s' | (Err _, s') => R s' end.

Lemma outcome_bind {S A B} (Q : A -> S -> Prop) Q' (R : S -> Prop) (m : M S A) (k : A -> M S B) s :
  ends Q R (m s) -> (forall x s', Q x s' -> ends Q' R (k x s')) -> ends Q' R (bindM m k s).
Proof. intros Hm Hk. unfold bindM. destruct (m s) as [[x|e] s']; [by apply Hk|exact Hm]. Qed.

Lemma outcome_weaken {S A} (Q Q' : A -> S -> Prop) (R R' : S -> Prop) o :
  ends Q R o -> (forall x s', Q x s' -> Q' x s') -> (forall s', R s' -> R' s') -> ends Q' R' o.
Proof. intros Ho HQ HR. destruct o as [[x|e] s']; [by apply HQ|by apply HR]. Qed.

Lemma outcome_ok {S A} (Q : A -> S -> Prop) (R : S -> Prop) o x s' : ends Q R o -> o = (Ok x, s') -> Q x s'.
Proof. by intros Ho ->. Qed.

Lemma outcome_state {S A} (R : S -> Prop) (o : result A * S) : ends (fun _ => R) R o -> R (snd o).
Proof. by destruct o as [[x|e] s']. Qed.

(** ** Decoded descriptors *)

Section WithPlatform.
Context `{Platform}.

Lemma decodeExact_ok e t `{!Lawful e [] t} bs v : decodeExact e bs = Ok v -> has_type t v = true /\ encodeCanonical e v = Ok bs.
Proof.
  unfold decodeExact. intros Hd. destruct (bindR _ _) as [w|] eqn:E in Hd; [|done]. injection Hd as <-. apply bindR_ok in E as (x & Hx & E).
  apply bindR_ok in E as (b & Hb & E). apply bindR_ok in E as ([] & Hc%throw_if_ok & [= <-]). apply negb_false_iff, bytes_eqb_eq in Hc as ->.
  split; [|done]. by apply (codec_canonical e t) in Hx as [? _].
Qed.

Definition descriptor_of (bs : bytes) : result val := decodeExact blindServiceDescriptorV1 bs.

Lemma descriptor_typed bs d : descriptor_of bs = Ok d -> has_type blindServiceDescriptorBaseV1_type d = true.
Proof. intros Hd. exact (proj1 (decodeExact_ok _ _ _ _ Hd)). Qed.

Lemma type_big v : has_type TBig v = true -> v = VBig (big v).
Proof. by destruct v. Qed.
Lemma type_num v : has_type TNum v = true -> v = VNum (num v).
Proof. by destruct v. Qed.
Lemma type_bytes v : has_type TBytes v = true -> v = VBytes (raw v).
Proof. by destruct v. Qed.

Lemma big_field bs d n : descriptor_of bs = Ok d -> In n ["descriptorSequence"; "identitySequence"] -> d.[n] = VBig (big d.[n]).
Proof.
  intros Hd%descriptor_typed Hn. apply type_big. apply (has_field n TBig _ d Hd). cbn in Hn. destruct Hn as [<-|[<-|[]]]; reflexivity.
Qed.

Lemma num_field bs d n : descriptor_of bs = Ok d -> In n ["issuedEpoch"; "expiresEpoch"; "storeLifecycleState"] -> d.[n] = VNum (num d.[n]).
Proof.
  intros Hd%descriptor_typed Hn. apply type_num. apply (has_field n TNum _ d Hd). cbn in Hn. destruct Hn as [<-|[<-|[<-|[]]]]; reflexivity.
Qed.

Lemma bytes_field bs d n : descriptor_of bs = Ok d -> In n ["relayPublicKey"; "storeId"; "durabilityContinuityHash"] -> d.[n] = VBytes (raw d.[n]).
Proof.
  intros Hd%descriptor_typed Hn. apply type_bytes. apply (has_field n TBytes _ d Hd). cbn in Hn. destruct Hn as [<-|[<-|[<-|[]]]]; reflexivity.
Qed.

Lemma sameBytes_eq a b : sameBytes a b = true <-> exists bs, a = VBytes bs /\ b = VBytes bs.
Proof.
  split; [|intros (bs & -> & ->); by apply bytes_eqb_eq]. destruct a, b; try done. cbn. intros ->%bytes_eqb_eq. by eexists.
Qed.

Lemma same_bigint v n : strict_eqb v (VBig n) = true <-> v = VBig n.
Proof. split; [|intros ->; apply Z.eqb_refl]. destruct v; try done. cbn. by intros ->%Z.eqb_eq. Qed.

Lemma same_number v n : strict_eqb v (VNum n) = true <-> v = VNum n.
Proof. apply is_num_iff. Qed.

(** ** Transitions, declaratively *)

(** A refresh keeps the relay's key, identity and store, and moves the
    lifecycle at most one step, never out of retirement. *)
Record refresh (d d' : val) : Prop := {
  refresh_key : d.["relayPublicKey"] = d'.["relayPublicKey"];
  refresh_store : d.["storeId"] = d'.["storeId"];
  refresh_continuity : d.["durabilityContinuityHash"] = d'.["durabilityContinuityHash"];
  refresh_identity : d'.["identitySequence"] = d.["identitySequence"];
  refresh_lifecycle : let s := num d.["storeLifecycleState"] in let s' := num d'.["storeLifecycleState"] in
    s < STORE_LIFECYCLE_STATE_RETIRED /\ (s' = s \/ s' = s + 1);
  refresh_issued : num d.["storeLifecycleState"] = STORE_LIFECYCLE_STATE_ACTIVE -> num d'.["storeLifecycleState"] = STORE_LIFECYCLE_STATE_ACTIVE ->
    num d.["issuedEpoch"] < num d'.["issuedEpoch"]
}.

(** A rotation starts another store under another key, from a retired one. *)
Record rotation (d d' : val) : Prop := {
  rotation_key : d.["relayPublicKey"] <> d'.["relayPublicKey"];
  rotation_store : d.["storeId"] <> d'.["storeId"];
  rotation_from : num d.["storeLifecycleState"] = STORE_LIFECYCLE_STATE_RETIRED;
  rotation_to : num d'.["storeLifecycleState"] = STORE_LIFECYCLE_STATE_ACTIVE;
  rotation_previous : d'.["previousRelayKey"] = d.["relayPublicKey"];
  rotation_transition : d'.["identityTransition"].["oldRelayKey"] = d.["relayPublicKey"] /\ d'.["identityTransition"].["newRelayKey"] = d'.["relayPublicKey"];
  rotation_identity : d'.["identitySequence"] = VBig (big d.["identitySequence"] + 1)
}.

Record successor (d d' : val) (h : bytes) : Prop := {
  next_sequence : big d'.["descriptorSequence"] = big d.["descriptorSequence"] + 1;
  next_link : d'.["previousDescriptorHash"] = VBytes h;
  next_kind : refresh d d' \/ rotation d d'
}.

(** Snapshots keep their use over a step of this kind. *)
Definition same_fence (d d' : val) : Prop :=
  d'.["relayPublicKey"] = d.["relayPublicKey"] /\ d'.["storeId"] = d.["storeId"] /\ d'.["storeLifecycleState"] = d.["storeLifecycleState"] /\
  num d'.["issuedEpoch"] < num d.["expiresEpoch"].

Lemma closed_if_ok c r u : closed_if c r = Ok u <-> c = false.
Proof. apply throw_if_ok. Qed.

Lemma lifecycle_step s s' : lifecycleTransition s s' = true -> 1 <= s <= 3 -> s < STORE_LIFECYCLE_STATE_RETIRED /\ (s' = s \/ s' = s + 1).
Proof.
  unfold lifecycleTransition, STORE_LIFECYCLE_STATE_RETIRED, STORE_LIFECYCLE_STATE_ACTIVE, STORE_LIFECYCLE_STATE_DRAINING.
  destruct (s =? s') eqn:E; b2p; [intros Hn Hr; b2p; lia|]. destruct (_ && _) eqn:E2; [intros _ _; b2p; lia|]. intros Hd _. b2p. lia.
Qed.

Lemma not_same_bytes a b : sameBytes a b = false -> a = VBytes (raw a) -> a <> b.
Proof. intros Hs Ha <-. rewrite Ha in Hs. cbn in Hs. by rewrite bytes_eqb_refl in Hs. Qed.

(** What an accepted transition is. *)
Lemma assertTransition_ok r d bs' d' allow gap changed : descriptor_of (canonicalBytes r) = Ok d -> descriptor_of bs' = Ok d' ->
  1 <= num d.["storeLifecycleState"] <= 3 ->
  assertTransition r d' allow = Ok (gap, changed) -> successor d d' (hash r) /\ (changed = false -> same_fence d d').
Proof.
  intros Hd Hd' Hl. unfold assertTransition. unfold descriptor_of in Hd. rewrite Hd. cbn [bindR]. fold (descriptor_of (canonicalBytes r)) in Hd. intros Ht.
  apply bindR_ok in Ht as ([] & Hc%closed_if_ok & Ht). apply orb_false_elim in Hc as [Hc Hh]. apply orb_false_elim in Hc as [Hseq _].
  apply negb_false_iff, same_bigint in Hseq. apply negb_false_iff, sameBytes_eq in Hh as (h & Hlink & [= <-]).
  apply bindR_ok in Ht as ([] & _ & Ht). apply bindR_ok in Ht as ([] & Hk & Ht). apply bindR_ok in Ht as ([] & _ & [= <- <-]).
  pose proof (bytes_field _ _ "relayPublicKey" Hd ltac:(by left)) as Tk. pose proof (bytes_field _ _ "storeId" Hd ltac:(by right; left)) as Ts.
  pose proof (num_field _ _ "issuedEpoch" Hd ltac:(by left)) as Ti. pose proof (num_field _ _ "issuedEpoch" Hd' ltac:(by left)) as Ti'.
  pose proof (num_field _ _ "expiresEpoch" Hd ltac:(by right; left)) as Te.
  pose proof (num_field _ _ "storeLifecycleState" Hd ltac:(by right; right; left)) as Tl. pose proof (num_field _ _ "storeLifecycleState" Hd' ltac:(by right; right; left)) as Tl'.
  split.
  - split; [by rewrite Hseq|done|]. destruct (sameBytes d.["relayPublicKey"] d'.["relayPublicKey"]) eqn:Ek.
    + left. apply sameBytes_eq in Ek as (k & Hk1 & Hk2). unfold assertSameKeyTransition in Hk. apply bindR_ok in Hk as ([] & Ha%closed_if_ok & Hk).
      apply bindR_ok in Hk as ([] & Hb%closed_if_ok & Hk%closed_if_ok). b2p.
      repeat match goal with Hx : sameBytes _ _ = true |- _ => apply sameBytes_eq in Hx as (? & ? & ?) end.
      split; try congruence.
      * match goal with Hx : strict_eqb d'.["identitySequence"] _ = true |- _ => rewrite (big_field _ _ "identitySequence" Hd ltac:(by right; left)) in Hx |- *; by apply same_bigint in Hx end.
      * by apply lifecycle_step.
      * intros Ha1 Ha2. unfold is_state in Hk. rewrite Tl, Tl', Ha1, Ha2 in Hk. cbn in Hk. rewrite Ti, Ti' in Hk. cbn in Hk. b2p. lia.
    + right. unfold assertRotationTransition in Hk. apply closed_if_ok in Hk. b2p.
      repeat match goal with Hx : sameBytes _ _ = true |- _ => apply sameBytes_eq in Hx as (? & ? & ?) | Hx : is_state _ _ = true |- _ => apply is_num_iff in Hx end.
      split; try (by apply not_same_bytes); try congruence; try (split; congruence).
      * match goal with Hx : strict_eqb d'.["identitySequence"] (VBig _) = true |- _ => by apply same_bigint in Hx end.
  - intros Hf. b2p. repeat match goal with Hx : sameBytes _ _ = true |- _ => apply sameBytes_eq in Hx as (? & ? & ?) end.
    repeat split; try congruence.
    + match goal with Hx : strict_eqb d.["storeLifecycleState"] _ = true |- _ => rewrite Tl' in Hx |- *; by apply same_number in Hx end.
    + match goal with Hx : js_le d.["expiresEpoch"] _ = false |- _ => rewrite Te, Ti' in Hx; cbn in Hx; b2p end. done.
Qed.

Lemma lifecycle_range bs d : descriptor_of bs = Ok d -> 1 <= num d.["storeLifecycleState"] <= 3.
Proof.
  intros Hd. apply (decodeExact_ok _ blindServiceDescriptorBaseV1_type) in Hd as [_ Ha%encoded_accepted]. apply accepted_capped in Ha.
  field Ha "storeLifecycleState" as Hs. by apply accepted_ranged in Hs as [_ ?].
Qed.

(** ** Hashes *)

(** Two byte strings with one hash. *)
Definition collision : Prop := exists a b, a <> b /\ generichash a = generichash b.

Lemma descriptor_hash_ok bs h : Hash.serviceDescriptorHash (VBytes bs) = Ok h -> h = generichash (ascii_bytes "hiverelay.blind.descriptor-hash.v1" ++ bs).
Proof. by intros [= <-]. Qed.

Lemma descriptor_hash_binds bs bs' h : Hash.serviceDescriptorHash (VBytes bs) = Ok h -> Hash.serviceDescriptorHash (VBytes bs') = Ok h ->
  bs = bs' \/ collision.
Proof.
  intros Hh%descriptor_hash_ok Hh'%descriptor_hash_ok. destruct (bytes_eqb bs bs') eqn:E; [left; by apply bytes_eqb_eq|right].
  eexists _, _. split; [|by rewrite Hh in Hh']. intros ->%app_inv_head. by rewrite bytes_eqb_refl in E.
Qed.

(** ** Chains of records *)

Section WithHooks.
Context (outside : hooks).

(** What the verifier of signatures is shown. *)
Definition signature_request (bs : bytes) (d : val) (payload : bytes) : val := VObj [
  ("domainId", VNum RESULT_SIGNATURE_DOMAIN_ID_DESCRIPTOR);
  ("publicKey", d.["relayPublicKey"]);
  ("signature", d.["signature"]);
  ("payload", VBytes payload);
  ("canonicalBytes", VBytes bs);
  ("descriptor", d)].

(** The verifier accepted the signature over all bytes but the signature. *)
Definition signed (bs : bytes) (d : val) : Prop := exists n payload,
  Hash.resultSignaturePayload (VNum RESULT_SIGNATURE_DOMAIN_ID_DESCRIPTOR) (VBytes (without_tail bs 64)) = Ok payload /\
  verifySignature outside n (signature_request bs d payload) = Ok (VBool true).

(** Both keys of a new identity signed the step to it. *)
Definition transition_request (t : val) (bs payload : bytes) (signer key signature : string) : val := VObj [
  ("domainId", VNum AUXILIARY_SIGNATURE_DOMAIN_ID_IDENTITY_TRANSITION);
  ("signer", VStr signer);
  ("publicKey", t.[key]);
  ("signature", t.[signature]);
  ("payload", VBytes payload);
  ("canonicalUnsignedBytes", VBytes (without_tail bs 128));
  ("canonicalBytes", VBytes bs);
  ("transition", t)].

Definition countersigned (value : val) : Prop := exists bs t payload,
  encodeCanonical relayIdentityTransitionV1 value = Ok bs /\ decodeExact relayIdentityTransitionV1 bs = Ok t /\
  Hash.auxiliarySignaturePayload (VNum AUXILIARY_SIGNATURE_DOMAIN_ID_IDENTITY_TRANSITION) (VBytes (without_tail bs 128)) = Ok payload /\
  let accepts signer key signature := exists n, verifyIdentityTransitionSignature outside n
    (transition_request t bs payload signer key signature) = Ok (VBool true) in
  accepts "old" "oldRelayKey" "oldSignature" /\ accepts "new" "newRelayKey" "newSignature".

Record verified (bs : bytes) (d : val) : Prop := {
  verified_decodes : descriptor_of bs = Ok d;
  verified_signed : signed bs d;
  verified_durability : assertDurabilityHashes d = Ok tt;
  verified_profile : assertAdvertisedDescriptorProfile d = Ok tt;
  verified_identity : nullish d.["identityTransition"] = false -> countersigned d.["identityTransition"]
}.

(** A record tells what its bytes say. *)
Record sound (r : record) : Prop := {
  sound_verified : exists d, verified (canonicalBytes r) d /\
    r = recordFor d (canonicalBytes r) (hash r) (generation r) (lifecycleFence r) (hadReadinessGap r) (restored r);
  sound_hash : Hash.serviceDescriptorHash (VBytes (canonicalBytes r)) = Ok (hash r)
}.

Record linked (r r' : record) : Prop := {
  linked_successor : exists d d', descriptor_of (canonicalBytes r) = Ok d /\ descriptor_of (canonicalBytes r') = Ok d' /\
    successor d d' (hash r) /\ (lifecycleFence r' = lifecycleFence r -> same_fence d d');
  linked_sequence : descriptorSequence r' = descriptorSequence r + 1;
  linked_fence : lifecycleFence r <= lifecycleFence r';
  linked_generation : generation r < generation r'
}.

(** [l], oldest record first, is what the maps of the state hold. *)
Record kept (s : DescriptorState) (l : list record) : Prop := {
  kept_hashes : byHash s = map (fun r => (hash r, r)) l;
  kept_sequences : bySequence s = map (fun r => (descriptorSequence r, r)) l;
  kept_current : currentRecord s = last l;
  kept_sound : Forall sound l;
  kept_linked : Sorted linked l;
  kept_distinct : NoDup (map hash l)
}.

(** The counters of the state are those of the last record, or ahead of them. *)
Definition on_top (s : DescriptorState) (l : list record) : Prop := forall r, last l = Some r ->
  lifecycleFence r = state_fence s /\ generation r <= state_generation s.

(** A step from a record that was accepted, when [assertTransition] takes it. *)
Lemma transition_links r d r' d' allow gap changed fence : sound r -> descriptor_of (canonicalBytes r') = Ok d' ->
  descriptor_of (canonicalBytes r) = Ok d -> descriptorSequence r' = big d'.["descriptorSequence"] ->
  assertTransition r d' allow = Ok (gap, changed) -> lifecycleFence r = fence ->
  lifecycleFence r' = (if changed then fence + 1 else fence) -> generation r < generation r' -> linked r r'.
Proof.
  intros Hr Hd' Hd Hs Ht Hf Hf' Hg. pose proof (lifecycle_range _ _ Hd) as Hl.
  destruct (assertTransition_ok _ _ _ _ _ _ _ Hd Hd' Hl Ht) as [Hn Hc]. destruct Hr as [(d0 & [Hd0 _ _ _ _] & Hr) _].
  rewrite Hd in Hd0. injection Hd0 as <-. split.
  - exists d, d'. split_and!; [done..|]. intros Heq. apply Hc. destruct changed; [lia|done].
  - rewrite Hs, Hr. apply Hn.
  - destruct changed; lia.
  - done.
Qed.

End WithHooks.
End WithPlatform.
