(* ===== verification/DescriptorBooks.v ===== *)
(** * The records of the descriptor state

    The maps of [DescriptorState] as one list of records: what installing a
    record, pruning and looking up do to it. *)

From Stdlib Require Import ZArith Lia Bool List String Ascii Sorted.
From stdpp Require Import base tactics list strings.
From S2P Require Import Prelude JsMap Codec CodecLaws Authority Hashes SchemaKit SchemasDescribe SchemasDurability SchemasInternal Accepted DescriptorState DescriptorChain.
Import Descriptor.

(** ** Lists *)

Lemma sorted_snoc {A} (R : A -> A -> Prop) l x : Sorted R l -> (forall y, last l = Some y -> R y x) -> Sorted R (l ++ [x]).
Proof.
  induction l as [|a l IH]; intros Hs Hl; [by repeat constructor|]. apply Sorted_inv in Hs as [Hs Ha]. destruct l as [|b l].
  - repeat constructor. by apply Hl.
  - cbn. constructor; [apply IH; [done|]; intros y Hy; by apply Hl|]. apply HdRel_inv in Ha. by constructor.
Qed.

Lemma sorted_weaken {A} (R R' : A -> A -> Prop) l : (forall x y, R x y -> R' x y) -> Sorted R l -> Sorted R' l.
Proof. intros HR. induction 1 as [|x l _ IH Hx]; constructor; [done|]. destruct Hx; constructor; by apply HR. Qed.

Lemma sorted_app_r {A} (R : A -> A -> Prop) l l' : Sorted R (l ++ l') -> Sorted R l'.
Proof. induction l as [|x l IH]; [done|]. cbn. intros [Hs _]%Sorted_inv. by apply IH. Qed.

Lemma map_get_found {K} (eqb : K -> K -> bool) (f : record -> K) key l r :
  map_get eqb key (map (fun r => (f r, r)) l) = Some r -> In r l /\ eqb (f r) key = true.
Proof.
  unfold map_get. induction l as [|x l IH]; [done|]. cbn. destruct (eqb (f x) key) eqn:E; [|intros [? ?]%IH; by split; [right|]].
  intros [= <-]. split; [by left|done].
Qed.

Lemma hashes_fresh (h : bytes) l : ~ In h (map hash l) -> Forall (fun e : bytes * record => bytes_eqb (fst e) h = false) (map (fun r => (hash r, r)) l).
Proof.
  intros Hn. apply Forall_map, List.Forall_forall. intros r Hr. cbn. destruct (bytes_eqb (hash r) h) eqn:E; [|done].
  apply bytes_eqb_eq in E. destruct Hn. rewrite <- E. by apply in_map.
Qed.

(** ** The order of the records *)

Definition before (r r' : record) : Prop := descriptorSequence r < descriptorSequence r'.

Lemma sequences_fresh n l : Forall (fun r => descriptorSequence r <> n) l -> Forall (fun e : Z * record => (fst e =? n) = false) (map (fun r => (descriptorSequence r, r)) l).
Proof. intros Hf. apply Forall_map. eapply Forall_impl; [exact Hf|]. intros r Hr. by apply Z.eqb_neq. Qed.

Lemma insert_above r l : Forall (fun x => before x r) l -> insert_record r l = l ++ [r].
Proof. unfold before. induction 1 as [|x l Hx _ IH]; [done|]. cbn. destruct (_ <? _) eqn:E; b2p; [lia|by rewrite IH]. Qed.

Lemma sort_ascending l acc : StronglySorted before (acc ++ l) -> fold_left (fun sorted r => insert_record r sorted) l acc = acc ++ l.
Proof.
  revert acc. induction l as [|r l IH]; intros acc Hs; cbn; [by rewrite app_nil_r|].
  rewrite insert_above.
  - rewrite IH; rewrite <- app_assoc; done.
  - clear IH. induction acc as [|a acc IH]; [constructor|]. cbn in Hs. apply StronglySorted_inv in Hs as [Hs Ha].
    constructor; [|by apply IH]. rewrite List.Forall_forall in Ha. apply Ha. apply in_or_app. right. by left.
Qed.

Section WithPlatform.
Context `{Platform} (outside : hooks) (limits : config).
Hypothesis history : 1 <= maxHistory limits.

Lemma linked_ascending l : Sorted linked l -> StronglySorted before l.
Proof.
  intros Hs. apply Sorted_StronglySorted; [intros x y z; unfold before; lia|]. eapply sorted_weaken; [|exact Hs].
  intros x y Hl. unfold before. rewrite (linked_sequence _ _ Hl). lia.
Qed.

Lemma sort_records_held s l : kept outside s l -> sort_records (map snd (bySequence s)) = l.
Proof.
  intros Hk. rewrite (kept_sequences _ _ _ Hk), map_map, map_id. by apply (sort_ascending l []), linked_ascending, (kept_linked _ _ _ Hk).
Qed.

(** ** Installing *)

(** Only the maps differ. *)
Definition same_counters (s s' : DescriptorState) : Prop := state_generation s' = state_generation s /\ state_fence s' = state_fence s /\
  fault s' = fault s /\ calls s' = calls s.

Lemma snoc_before l r : Sorted linked (l ++ [r]) -> Forall (fun x => before x r) l.
Proof.
  intros Hs%linked_ascending. induction l as [|x l IH]; [constructor|]. cbn in Hs. apply StronglySorted_inv in Hs as [Hs Hx].
  constructor; [|by apply IH]. rewrite List.Forall_forall in Hx. apply Hx, in_or_app. right. by left.
Qed.

(** A hash of the chain says which record it is of. *)
Lemma hash_fresh l r : Forall (sound outside) l -> sound outside r -> Forall (fun x => before x r) l -> ~ In (hash r) (map hash l) \/ collision.
Proof.
  intros Hl Hr Hb. induction l as [|x l IH]; [by left; intros []|]. apply Forall_cons in Hl as [Hx Hl]. apply Forall_cons in Hb as [Hb Hbl].
  destruct (bytes_eqb (hash x) (hash r)) eqn:E.
  - apply bytes_eqb_eq in E. pose proof (sound_hash _ _ Hx) as Hh. rewrite E in Hh.
    destruct (descriptor_hash_binds _ _ _ Hh (sound_hash _ _ Hr)) as [He|?]; [|by right].
    destruct (sound_verified _ _ Hx) as (d & [Hd _ _ _ _] & Hxd), (sound_verified _ _ Hr) as (d' & [Hd' _ _ _ _] & Hrd).
    rewrite He, Hd' in Hd. injection Hd as <-. unfold before in Hb. rewrite Hxd, Hrd in Hb. cbn in Hb. lia.
  - destruct (IH Hl Hbl) as [Hn|]; [left|by right]. cbn. intros [He|?]; [|done]. by rewrite He, bytes_eqb_refl in E.
Qed.

Lemma install_kept s l r : kept outside s l -> sound outside r -> (forall x, last l = Some x -> linked x r) ->
  forall s', install r s = (Ok tt, s') -> kept outside s' (l ++ [r]) \/ collision.
Proof.
  intros [Kh Ks Kc Kg Kl Kd] Hr Hl s' [= <-]. assert (Hs : Sorted linked (l ++ [r])) by (by apply sorted_snoc).
  pose proof (snoc_before _ _ Hs) as Hb. destruct (hash_fresh l r Kg Hr Hb) as [Hn|]; [left|by right]. split; cbn; try done.
  - rewrite Kh, map_set_fresh by (by apply hashes_fresh). by rewrite map_app.
  - rewrite Ks, map_set_fresh; [by rewrite map_app|]. apply sequences_fresh. eapply Forall_impl; [exact Hb|]. unfold before. intros x Hx. lia.
  - by rewrite last_snoc.
  - apply Forall_app. split; [done|by constructor].
  - rewrite map_app. apply NoDup_app. split_and!; [done| |apply NoDup_singleton]. intros h Hh%list_elem_of_In. cbn. by intros ->%list_elem_of_singleton.
Qed.

Lemma install_all_kept rs s l : kept outside s l -> Forall (sound outside) rs -> Sorted linked (l ++ rs) ->
  exists s', each install rs s = (Ok tt, s') /\ (kept outside s' (l ++ rs) \/ collision) /\ same_counters s s'.
Proof.
  revert s l. induction rs as [|r rs IH]; intros s l Hk Hg Hs.
  - exists s. rewrite app_nil_r. split_and!; [done|by left|done..].
  - apply Forall_cons in Hg as [Hr Hg]. cbn [each]. replace (l ++ r :: rs) with ((l ++ [r]) ++ rs) in * by (by rewrite <- app_assoc).
    assert (Hlink : forall x, last l = Some x -> linked x r).
    { intros x (l' & ->)%last_Some. clear -Hs. rewrite <- !app_assoc in Hs. cbn in Hs. induction l' as [|y l' IH]; cbn in Hs; apply Sorted_inv in Hs as [Hs Hh]; [by apply HdRel_inv in Hh|by apply IH]. }
    destruct (install_kept s l r Hk Hr Hlink _ eq_refl) as [Hk'|Hc].
    + destruct (IH _ _ Hk' Hg Hs) as (s' & He & Hk'' & Hsame). exists s'. by split_and!.
    + clear -Hc. revert s l r. induction rs as [|r' rs IH]; intros s l r; [eexists; split_and!; [reflexivity|by right|done..]|].
      destruct (IH (snd (install r s)) l r') as (s' & He & _ & Hsame). exists s'. split_and!; [exact He|by right|apply Hsame..].
Qed.

(** ** Pruning *)

Lemma drop_kept s r l : kept outside s (r :: l) -> l <> [] ->
  kept outside (set_records (currentRecord s) (map_delete bytes_eqb (hash r) (byHash s)) (map_delete Z.eqb (descriptorSequence r) (bySequence s)) s) l.
Proof.
  intros [Kh Ks Kc Kg Kl Kd] Hl. split; cbn.
  - rewrite Kh. cbn. apply map_delete_first; [apply bytes_eqb_refl|]. apply hashes_fresh. cbn in Kd. apply NoDup_cons in Kd as [Kd _].
    by rewrite <- list_elem_of_In.
  - rewrite Ks. cbn. apply map_delete_first; [apply Z.eqb_refl|]. apply sequences_fresh. apply linked_ascending, StronglySorted_inv in Kl as [_ Kl].
    eapply Forall_impl; [exact Kl|]. unfold before. intros x Hx. lia.
  - rewrite Kc. by destruct l.
  - by apply Forall_inv_tail in Kg.
  - by apply Sorted_inv in Kl as [Kl _].
  - by apply NoDup_cons in Kd as [_ Kd].
Qed.

Lemma prune_loop_kept floor l s : kept outside s l -> l <> [] -> exists s' l', prune_loop limits l floor s = (Ok tt, s') /\
  kept outside s' l' /\ last l' = last l /\ l' `suffix_of` l /\ Z.of_nat (List.length l') <= maxHistory limits /\ same_counters s s'.
Proof.
  revert s. induction l as [|r l IH]; intros s Hk Hl; [done|]. cbn [prune_loop]. cbv zeta.
  destruct (_ || _) eqn:E.
  - assert (Hl' : l <> []).
    { intros ->. cbn in E. rewrite andb_false_l, orb_false_r in E. b2p. lia. }
    autorewrite with machine. destruct (IH _ (drop_kept _ _ _ Hk Hl') Hl') as (s' & l' & Hp & Hk' & Hlast & Hsuf & Hlen & Hc).
    exists s', l'. split_and!; try done; [rewrite Hlast; by destruct l|by apply suffix_cons_r].
  - exists s, (r :: l). b2p. split_and!; try done; split_and!; done.
Qed.

Lemma prune_kept now s l : kept outside s l -> l <> [] -> exists s' l', prune limits now s = (Ok tt, s') /\
  kept outside s' l' /\ last l' = last l /\ l' `suffix_of` l /\ Z.of_nat (List.length l') <= maxHistory limits /\ same_counters s s'.
Proof.
  intros Hk Hl. unfold prune. cbv zeta. autorewrite with machine. rewrite (sort_records_held _ _ Hk). by apply prune_loop_kept.
Qed.

(** ** Looking up *)

Lemma lookup_kept s l h r : kept outside s l -> map_get bytes_eqb h (byHash s) = Some r -> In r l /\ hash r = h.
Proof. intros Hk. rewrite (kept_hashes _ _ _ Hk). intros [? ?%bytes_eqb_eq]%map_get_found. done. Qed.

(** What the holder of a snapshot can be sure of. *)
Definition genuine (taken : snapshot) : Prop := exists r, sound outside r /\ snapshotFor r = Ok taken.

Lemma snapshot_total r : sound outside r -> exists taken, snapshotFor r = Ok taken /\ genuine taken.
Proof.
  intros Hr. destruct (sound_verified _ _ Hr) as (d & [Hd _ _ _ _] & _). unfold genuine, snapshotFor. unfold descriptor_of in Hd.
  eexists. split; [|exists r; split; [done|]]; rewrite Hd; reflexivity.
Qed.

Lemma snapshot_fields r taken : snapshotFor r = Ok taken -> descriptor_of (canonicalBytes r) = Ok (snap_descriptor taken) /\
  snap_hash taken = hash r /\ snap_canonicalBytes taken = canonicalBytes r /\ snap_lifecycleFence taken = lifecycleFence r /\
  fullStoreVerificationRequired taken = hadReadinessGap r || restored r.
Proof. unfold snapshotFor. intros (d & Hd & [= <-])%bindR_ok. done. Qed.

End WithPlatform.
