(* ===== verification/DescriptorLaws.v ===== *)
(** * What the descriptor state promises

    A state and everything that can happen to it, with signature verifiers, a
    restoration authority and a clock that may answer anything: it holds one
    chain of signed descriptors, a snapshot is of use only while the relay is
    the one it was taken from, and a descriptor off the chain closes it for
    good. *)

From Stdlib Require Import ZArith Lia Bool List String Ascii Sorted.
From stdpp Require Import base tactics list strings relations.
From S2P Require Import Prelude JsMap Codec CodecLaws Authority Hashes SchemaKit SchemasDescribe SchemasDurability SchemasInternal Accepted DescriptorState DescriptorChain DescriptorBooks.
Import Descriptor.

(** ** Steps that only ask *)

(** The same records, after calls to the hooks. *)
Definition quiet (s0 s : DescriptorState) : Prop := exists n, s = set_calls n s0.

Lemma quiet_refl s : quiet s s.
Proof. exists (calls s). by destruct s. Qed.

Lemma quiet_trans s1 s2 s3 : quiet s1 s2 -> quiet s2 s3 -> quiet s1 s3.
Proof. intros [n ->] [m ->]. by exists m. Qed.

#[export] Instance quiet_preorder : PreOrder quiet.
Proof. split; [exact quiet_refl|exact quiet_trans]. Qed.

Lemma true_value v : is_true v = true <-> v = VBool true.
Proof. split; [by destruct v as [| | | | | | | |[]|]|by intros ->]. Qed.

Section Laws.
Context `{Platform} (outside : hooks) (limits : config).

Lemma outcome_lift {A} (m : result A) s0 s : quiet s0 s -> ends (fun x s' => m = Ok x /\ quiet s0 s') (quiet s0) (lift m s).
Proof. unfold lift. by destruct m. Qed.

Lemma outcome_check c e s0 s : quiet s0 s -> ends (fun _ s' => c = false /\ quiet s0 s') (quiet s0) (throwM_if c e s).
Proof. unfold throwM_if, lift, throw_if. by destruct c. Qed.

Lemma hook_spec hook s0 s : quiet s0 s -> ends (fun v s' => (exists n, hook n = Ok v) /\ quiet s0 s') (quiet s0) (call hook s).
Proof.
  intros [m ->]. unfold call. autorewrite with machine. unfold lift. destruct (hook _) as [v|] eqn:E; cbn.
  - split; [by eexists|]. by eexists.
  - by eexists.
Qed.

(** The next step of a program: [m] by its specification. *)
Tactic Notation "step_by" uconstr(spec) := eapply outcome_bind; [eapply spec; eassumption|].

Lemma epoch_spec s0 s : quiet s0 s -> ends (fun now s' => 0 <= now <= MAX_U32 /\ quiet s0 s') (quiet s0) (currentEpoch outside s).
Proof.
  intros Hq. unfold currentEpoch. step_by hook_spec. intros v s1 [_ Hq1]. destruct v; try exact Hq1.
  step_by outcome_check. intros [] s2 [Hc Hq2]. cbn. b2p. by split.
Qed.

Lemma signers_spec signers bs payload s0 s : quiet s0 s ->
  ends (fun _ s' => Forall (fun e : string * string * string => let '(signer, key, signature) := e in
      exists t n, decodeExact relayIdentityTransitionV1 bs = Ok t /\
        verifyIdentityTransitionSignature outside n (transition_request t bs payload signer key signature) = Ok (VBool true)) signers /\ quiet s0 s')
    (quiet s0) (verify_signers outside signers bs (without_tail bs 128) payload s).
Proof.
  revert s. induction signers as [|[[signer key] signature] signers IH]; intros s Hq; [by split; [constructor|]|]. cbn [verify_signers].
  step_by outcome_lift. intros t s1 [Ht Hq1]. step_by hook_spec. intros v s2 [[n Hn] Hq2]. step_by outcome_check.
  intros [] s3 [Hc%negb_false_iff%true_value Hq3]. subst v. eapply outcome_weaken; [by apply IH| |done].
  intros [] s4 [Hf Hq4]. split; [|done]. constructor; [|done]. by exists t, n.
Qed.

Lemma identity_spec value s0 s : quiet s0 s ->
  ends (fun _ s' => countersigned outside value /\ quiet s0 s') (quiet s0) (verifyIdentityTransition outside value s).
Proof.
  intros Hq. unfold verifyIdentityTransition. step_by outcome_lift. intros bs s1 [Hb Hq1]. cbv zeta. step_by outcome_lift.
  intros payload s2 [Hp Hq2]. step_by signers_spec. intros [] s3 [Hf Hq3]. step_by outcome_lift. intros t s4 [Ht Hq4].
  apply Forall_cons in Hf as [(t1 & n1 & Ht1 & Hn1) Hf]. apply Forall_cons in Hf as [(t2 & n2 & Ht2 & Hn2) _].
  rewrite Ht in Ht1, Ht2. injection Ht1 as <-. injection Ht2 as <-. cbn. split; [|done].
  exists bs, t, payload. split_and!; [done..|]. split; [by exists n1|by exists n2].
Qed.

Lemma verified_spec bs s0 s : quiet s0 s -> ends (fun d s' => verified outside bs d /\ quiet s0 s') (quiet s0) (verifiedDescriptor outside bs s).
Proof.
  intros Hq. unfold verifiedDescriptor. step_by outcome_lift. intros d s1 [Hd Hq1]. step_by outcome_lift. intros [] s2 [Hdh Hq2].
  step_by outcome_lift. intros [] s3 [Hp Hq3]. cbv zeta. step_by outcome_lift. intros payload s4 [Hpl Hq4].
  step_by hook_spec. intros v s5 [[n Hn] Hq5]. step_by outcome_check. intros [] s6 [Hc%negb_false_iff%true_value Hq6]. subst v.
  step_by outcome_lift. intros d' s7 [Hd' Hq7]. rewrite Hd in Hd'. injection Hd' as <-. step_by outcome_lift. intros [] s8 [_ Hq8].
  step_by outcome_lift. intros [] s9 [_ Hq9].
  apply (outcome_bind (fun _ s' => (nullish d.["identityTransition"] = false -> countersigned outside d.["identityTransition"]) /\ quiet s0 s')).
  - destruct (nullish _) eqn:E; [by split|]. eapply outcome_weaken; [by apply identity_spec|by intros [] s' [? ?]; split|done].
  - intros [] s10 [Hid Hq10]. cbn. split; [|done]. split; [done| |done..]. by exists n, payload.
Qed.

(** ** Activation *)

(** The invariant: one chain of signed descriptors, no longer than configured. *)
Definition ok (s : DescriptorState) : Prop := exists l, kept outside s l /\ on_top s l /\ Z.of_nat (List.length l) <= maxHistory limits.

Definition good (s : DescriptorState) : Prop := ok s \/ collision.

(** An operation that hands out a snapshot. *)
Definition gives (o : result snapshot * DescriptorState) : Prop := ends (fun taken s' => ok s' /\ genuine outside taken \/ collision) good o.

Lemma gives_collision o : collision -> gives o.
Proof. intros Hc. destruct o as [[taken|e] s']; by right. Qed.

Lemma kept_maps s s' l : kept outside s l -> currentRecord s' = currentRecord s -> byHash s' = byHash s -> bySequence s' = bySequence s -> kept outside s' l.
Proof. intros [] Hc Hh Hs. split; congruence. Qed.

Lemma ok_maps s s' : ok s -> currentRecord s' = currentRecord s -> byHash s' = byHash s -> bySequence s' = bySequence s ->
  state_fence s' = state_fence s -> state_generation s <= state_generation s' -> ok s'.
Proof.
  intros (l & Hk & Ht & Hl) Hc Hh Hs Hf Hg. exists l. split_and!; [by eapply kept_maps| |done].
  intros r Hr. destruct (Ht r Hr) as [-> ?]. split; [done|lia].
Qed.

Lemma ok_quiet s s' : quiet s s' -> ok s -> ok s'.
Proof. intros [n ->] Hs. by eapply ok_maps. Qed.

Lemma gives_quiet (m : result snapshot) s0 s : quiet s0 s -> ok s0 -> (forall taken, m = Ok taken -> genuine outside taken) -> gives (lift m s).
Proof. intros Hq Hs Hg. unfold gives, lift. pose proof (ok_quiet _ _ Hq Hs). destruct m as [taken|]; left; auto. Qed.

Lemma faulted_ok {A} reason s : ok s -> ends (fun (_ : A) _ => False) good (faulted reason s).
Proof. intros Hs. left. by eapply ok_maps. Qed.

Hypothesis history : 1 <= maxHistory limits.

Lemma install_next_spec s l d bs h fence gap rest now : kept outside s l -> verified outside bs d -> Hash.serviceDescriptorHash (VBytes bs) = Ok h ->
  (forall x, last l = Some x -> linked x (recordFor d bs h (state_generation s + 1) fence gap rest)) ->
  gives (install_next limits d bs h fence gap rest now s).
Proof.
  intros Hk Hv Hh Hl. unfold install_next. autorewrite with machine. cbv zeta. set (r := recordFor _ _ _ _ _ _ _) in *.
  assert (Hr : sound outside r) by (split; [by exists d|done]). autorewrite with machine. set (s1 := set_fence _ _).
  assert (Hk1 : kept outside s1 l) by (by eapply kept_maps).
  destruct (install_kept outside s1 l r Hk1 Hr Hl _ eq_refl) as [Hk2|Hc]; [|by apply gives_collision].
  destruct (prune_kept outside limits history now _ _ Hk2) as (s' & l' & Hp & Hk' & Hlast & _ & Hlen & Hg & Hf & _); [by destruct l|].
  unfold install at 1. autorewrite with machine. unfold bindM. rewrite Hp.
  destruct (snapshot_total outside r Hr) as (taken & Ht & Hgen). unfold lift. rewrite Ht. left. split; [|done].
  exists l'. split_and!; [done| |done]. rewrite last_snoc in Hlast. intros x Hx. rewrite Hlast in Hx. injection Hx as <-. rewrite Hf, Hg. split; [done|]. apply Z.le_refl.
Qed.

Lemma activate_spec s bs gap trusted : ok s -> gives (activate_serialized outside limits bs gap trusted s).
Proof.
  intros Hs. unfold activate_serialized. autorewrite with machine. destruct (fault s) as [reason|]; [by left|].
  eapply outcome_bind; [eapply outcome_weaken; [apply (verified_spec bs s s); reflexivity|intros ? ? Hx; exact Hx|intros s' Hq; left; by eapply ok_quiet]|].
  intros d s1 [Hv Hq1]. autorewrite with machine. destruct (Hash.serviceDescriptorHash _) as [h|] eqn:Hh; [|left; by eapply ok_quiet].
  eapply outcome_bind; [eapply outcome_weaken; [apply (epoch_spec s s1); done|intros ? ? Hx; exact Hx|intros s' Hq; left; by eapply ok_quiet]|].
  intros now s2 [_ Hq2]. autorewrite with machine. pose proof (ok_quiet _ _ Hq2 Hs) as Hs2.
  destruct (js_lt _ _); [by left|]. destruct (js_le _ _); [by left|]. autorewrite with machine.
  destruct Hs2 as (l & Hk & Ht & Hlen). rewrite (kept_current _ _ _ Hk). destruct (last l) as [c|] eqn:El.
  - destruct (js_lt d.["descriptorSequence"] _); [eapply outcome_weaken; [by apply faulted_ok; exists l|done|done]|].
    assert (Hc : sound outside c) by (pose proof (kept_sound _ _ _ Hk) as Hf; rewrite List.Forall_forall in Hf; apply Hf, list_elem_of_In; by apply last_Some_elem_of).
    destruct (strict_eqb _ _).
    + destruct (bytes_eqb _ _); cbn [negb]; [|eapply outcome_weaken; [by apply faulted_ok; exists l|done|done]].
      apply (gives_quiet _ s2); [done|by exists l|]. intros taken Hq. by exists c.
    + destruct (assertTransition _ _ _) as [[g ch]|e] eqn:Et; [|destruct e; try (left; by exists l); eapply outcome_weaken; [by apply faulted_ok; exists l|done|done]].
      apply (install_next_spec _ l); [done..|]. rewrite El. intros x [= <-]. destruct (Ht c El) as [Hf Hg].
      destruct (sound_verified _ _ Hc) as (dc & Hvc & _).
      eapply (transition_links outside); [exact Hc|apply Hv|apply Hvc|done|exact Et|exact Hf|done|cbn; lia].
  - destruct (_ || _); autorewrite with machine; [left; by exists l|]. destruct (assertGenesis d); [|left; by exists l].
    apply (install_next_spec _ l); [done..|]. by rewrite El.
Qed.

(** ** Restoration *)

(** Only generation numbers were given out. *)
Definition numbered (s0 s : DescriptorState) : Prop := exists n g, state_generation s0 <= g /\ s = set_calls n (set_generation g s0).

Lemma numbered_refl s : numbered s s.
Proof. exists (calls s), (state_generation s). split; [lia|by destruct s]. Qed.

Lemma numbered_quiet s0 s1 s : numbered s0 s1 -> quiet s1 s -> numbered s0 s.
Proof. intros (n & g & Hg & ->) [m ->]. by exists m, g. Qed.

Lemma numbered_next s0 s : numbered s0 s -> numbered s0 (set_generation (state_generation s + 1) s).
Proof. intros (n & g & Hg & ->). exists n, (g + 1). split; [lia|done]. Qed.

Lemma ok_numbered s0 s : numbered s0 s -> ok s0 -> ok s.
Proof. intros (n & g & Hg & ->) Hs. by eapply ok_maps. Qed.

(** The records that are to be installed, after [previous] in the chain. *)
Record pending_ok (previous : option record) (chain : list bytes) (fence : Z) (s : DescriptorState) (pending : list record) : Prop := {
  pending_sound : Forall (sound outside) pending;
  pending_linked : Sorted linked (match previous with Some p => [p] | None => [] end ++ pending);
  pending_bytes : map canonicalBytes pending = chain;
  pending_restored : Forall (fun r => restored r = true) pending;
  pending_fence : forall r, last pending = Some r -> lifecycleFence r = fence /\ generation r <= state_generation s;
  pending_unmoved : pending = [] -> forall p, previous = Some p -> lifecycleFence p = fence /\ generation p <= state_generation s
}.

Lemma chain_spec chain previous fence gap s0 s : numbered s0 s ->
  (forall p, previous = Some p -> sound outside p /\ lifecycleFence p = fence /\ generation p <= state_generation s) ->
  ends (fun out s' => numbered s0 s' /\ pending_ok previous chain (snd out) s' (fst out)) (numbered s0) (restore_chain outside limits chain previous fence gap s).
Proof.
  revert previous fence gap s. induction chain as [|bs chain IH]; intros previous fence gap s Hn Hp.
  - cbn. split; [done|]. split; cbn; try done; [destruct previous; repeat constructor|]. intros _ p Hq. apply Hp in Hq. tauto.
  - cbn [restore_chain]. eapply outcome_bind; [eapply outcome_weaken; [apply (verified_spec bs s s); reflexivity|intros ? ? Hx; exact Hx|intros s' Hq; by eapply numbered_quiet]|].
    intros d s1 [Hv Hq]. pose proof (numbered_quiet _ _ _ Hn Hq) as Hn1. autorewrite with machine.
    destruct (Hash.serviceDescriptorHash _) as [h|] eqn:Hh; [|exact Hn1]. autorewrite with machine.
    destruct (match previous with Some _ => _ | None => _ end) as [[fence' gap']|] eqn:Et; [|exact Hn1].
    autorewrite with machine. cbv zeta. set (r := recordFor _ _ _ _ _ _ _).
    assert (Hr : sound outside r) by (split; [by exists d|done]).
    assert (Hlink : forall p, previous = Some p -> linked p r).
    { intros p ->. destruct (Hp p eq_refl) as (Hps & Hpf & Hpg). apply bindR_ok in Et as ([rg ch] & Et & [= <- <-]).
      destruct (sound_verified _ _ Hps) as (dp & Hvp & _). destruct Hq as [m ->].
      eapply (transition_links outside); [exact Hps|apply Hv|apply Hvp|done|exact Et|exact Hpf|done|cbn; lia]. }
    set (s2 := set_generation _ _). assert (Hn2 : numbered s0 s2) by (by apply numbered_next).
    eapply outcome_bind; [apply (IH (Some r) fence' gap' s2 Hn2); intros p [= <-]; split_and!; [done|done|apply Z.le_refl]|].
    intros [pending fence''] s3 [Hn3 [Hg Hl Hb Hrest Hf Hu]]. cbn in *. split; [done|]. split; cbn.
    + by constructor.
    + destruct previous as [p|]; [|done]. constructor; [done|]. constructor. by apply Hlink.
    + by rewrite Hb.
    + by constructor.
    + intros x Hx. destruct pending; [injection Hx as <-; by apply Hu|by apply Hf].
    + done.
Qed.

(** What the authority is shown, and the echo it owes. *)
Definition restoration_request (chain : list bytes) (manifestBytes : bytes) (manifest last : val) (lastHash : bytes) : val := VObj [
  ("canonicalManifestBytes", VBytes manifestBytes);
  ("manifest", manifest);
  ("descriptorChainBytes", VList (map VBytes chain));
  ("descriptorSequenceFloor", last.["descriptorSequence"]);
  ("descriptorHashFloor", VBytes lastHash);
  ("relayPublicKey", last.["relayPublicKey"]);
  ("storeId", last.["storeId"]);
  ("durabilityProfileId", last.["durability"].["profileId"]);
  ("durabilityContinuityHash", last.["durabilityContinuityHash"]);
  ("durabilityProfileHash", last.["durabilityProfileHash"])].

Record echoes (evidence last : val) (lastHash : bytes) : Prop := {
  echo_verified : evidence.["verified"] = VBool true /\ evidence.["fullStoreVerified"] = VBool true;
  echo_sequence : exists n, (evidence.["descriptorSequenceFloor"] = VBig n \/ evidence.["descriptorSequenceFloor"] = VNum n) /\ last.["descriptorSequence"] = VBig n;
  echo_hash : evidence.["descriptorHashFloor"] = VBytes lastHash;
  echo_relay : evidence.["relayPublicKey"] = last.["relayPublicKey"] /\ evidence.["storeId"] = last.["storeId"];
  echo_durability : evidence.["durabilityContinuityHash"] = last.["durabilityContinuityHash"] /\ evidence.["durabilityProfileHash"] = last.["durabilityProfileHash"]
}.

(** The manifest names the last descriptor, and the authority vouched for both. *)
Definition vouched (chain : list bytes) (manifestBytes : option bytes) (last : val) (lastHash : bytes) : Prop :=
  exists bs manifest verify n evidence, manifestBytes = Some bs /\ decodeExact Internal.blindStoreManifestV1 bs = Ok manifest /\
    manifestMatchesDescriptor manifest last lastHash = true /\ verifyRestoration outside = Some verify /\
    verify n (restoration_request chain bs manifest last lastHash) = Ok evidence /\ echoes evidence last lastHash.

Lemma same_bytes_eq a b : sameBytes a b = true -> a = b.
Proof. by intros (bs & -> & ->)%sameBytes_eq. Qed.

Lemma restoration_spec chain manifestBytes last lastHash s0 s : quiet s0 s ->
  ends (fun _ s' => vouched chain manifestBytes last lastHash /\ quiet s0 s') (quiet s0) (verify_restoration outside chain manifestBytes last lastHash s).
Proof.
  intros Hq. unfold verify_restoration. destruct manifestBytes as [bs|]; [|done]. destruct (verifyRestoration outside) as [verify|] eqn:Ev; [|done].
  step_by outcome_lift. intros manifest s1 [Hm Hq1]. step_by outcome_check. intros [] s2 [Hmm%negb_false_iff Hq2].
  step_by hook_spec. intros evidence s3 [[n Hn] Hq3]. step_by outcome_check. intros [] s4 [Hv Hq4]. step_by outcome_lift. intros floor s5 [Hfl Hq5].
  step_by outcome_check. intros [] s6 [He Hq6]. step_by outcome_lift. intros manifest' s7 [_ Hq7]. cbn. split; [|done].
  exists bs, manifest, verify, n, evidence. split_and!; [done..|]. b2p.
  repeat match goal with Hx : sameBytes _ _ = true |- _ => apply same_bytes_eq in Hx | Hx : is_true _ = true |- _ => apply true_value in Hx end.
  split; [done| |done..].
  exists floor. split.
  - unfold u64 in Hfl. destruct evidence.["descriptorSequenceFloor"]; try done; apply bindR_ok in Hfl as ([] & _ & [= ->]); auto.
  - destruct last.["descriptorSequence"]; try done. match goal with Hx : strict_eqb (VBig floor) _ = true |- _ => cbn in Hx; by apply Z.eqb_eq in Hx as -> end.
Qed.

(** What a restoration that succeeds comes from. *)
Record restored_from (chain : list bytes) (manifestBytes : option bytes) (taken : snapshot) : Prop := {
  restored_last : last chain = Some (snap_canonicalBytes taken);
  restored_required : fullStoreVerificationRequired taken = true;
  restored_vouched : exists first d, head chain = Some first /\ descriptor_of first = Ok d /\
    (d.["descriptorSequence"] <> VBig 0 \/ manifestBytes <> None -> vouched chain manifestBytes (snap_descriptor taken) (snap_hash taken))
}.

Lemma last_of_list (l : list record) d x : last l = Some x -> List.last l d = x.
Proof. intros (l' & ->)%last_Some. apply last_last. Qed.

(** The end of [restore]: the records are installed. *)
Lemma install_pending_spec chain fence s pending c : ok s -> currentRecord s = None -> pending_ok None chain fence s pending -> last pending = Some c ->
  Z.of_nat (List.length chain) <= maxHistory limits ->
  ends (fun taken s' => (ok s' /\ snapshotFor c = Ok taken) \/ collision) good
    ((each install pending ;;* modify (set_fence fence) ;;* (let* now := currentEpoch outside in prune limits now ;;*
      let* current := gets currentRecord in match current with Some r => lift (snapshotFor r) | None => throw TypeError end)) s).
Proof.
  intros (l & Hk & _ & _) Hnone [Hg Hl Hb _ Hf _] Hc Hlen. rewrite (kept_current _ _ _ Hk) in Hnone. apply last_None in Hnone as ->.
  destruct (install_all_kept outside pending s [] Hk Hg Hl) as (s1 & He & [Hk1|Hcol] & Hsame); [|destruct (bindM _ _ _) as [[]]; by right].
  unfold bindM at 1. rewrite He. autorewrite with machine. set (s2 := set_fence fence s1).
  assert (Hk2 : kept outside s2 pending) by (by eapply kept_maps). destruct Hsame as (Hgen & _).
  assert (Ht2 : on_top s2 pending) by (intros r Hr; cbn; rewrite Hgen; by apply Hf).
  assert (Hl2 : Z.of_nat (List.length pending) <= maxHistory limits) by (by rewrite <- (length_map canonicalBytes), Hb).
  assert (Hs2 : ok s2) by (by exists pending).
  eapply outcome_bind; [eapply outcome_weaken; [apply (epoch_spec s2 s2); reflexivity|intros ? ? Hx; exact Hx|intros s' Hq; left; by eapply ok_quiet]|].
  intros now s3 [_ [n ->]]. assert (Hk3 : kept outside (set_calls n s2) pending) by (by eapply kept_maps).
  destruct (prune_kept outside limits history now _ _ Hk3) as (s' & l' & Hp & Hk' & Hlast & _ & Hlen' & Hg' & Hf' & _); [by intros ->|].
  unfold bindM at 1. rewrite Hp. autorewrite with machine. rewrite (kept_current _ _ _ Hk'), Hlast, Hc.
  assert (Hs' : ok s') by (exists l'; split_and!; [done|intros r Hr; rewrite Hf', Hg'; apply Ht2; congruence|done]).
  unfold lift. destruct (snapshotFor c) as [taken|]; left; [by split|done].
Qed.

Lemma restore_spec chain manifestBytes s : ok s -> Z.of_nat (List.length chain) <= maxHistory limits ->
  ends (fun taken s' => (ok s' /\ genuine outside taken /\ restored_from chain manifestBytes taken) \/ collision) good
    (restore_serialized outside limits chain manifestBytes s).
Proof.
  intros Hs Hlen. unfold restore_serialized. autorewrite with machine. destruct (currentRecord s) as [|] eqn:Ec; [by left|]. destruct (fault s) eqn:Ef; [by left|].
  eapply outcome_bind; [eapply outcome_weaken; [apply (chain_spec chain None 0 false s s); [apply numbered_refl|done]|intros ? ? Hx; exact Hx|intros s' Hn; left; by eapply ok_numbered]|].
  intros [pending fence] s1 [Hn Hp]. cbn [fst snd] in Hp. assert (Hs1 : ok s1) by (by eapply ok_numbered).
  destruct pending as [|r pending]; [by left|]. set (rs := r :: pending) in *. destruct (last rs) as [c|] eqn:Hc; [|by apply last_None in Hc].
  rewrite (last_of_list _ _ _ Hc). autorewrite with machine.
  destruct (decodeExact _ _) as [first|] eqn:Hfirst; [|by left]. autorewrite with machine. destruct (decodeExact blindServiceDescriptorV1 (canonicalBytes c)) as [d|] eqn:Hd; [|by left].
  eapply outcome_bind with (Q := fun _ s' => (first.["descriptorSequence"] <> VBig 0 \/ manifestBytes <> None -> vouched chain manifestBytes d (hash c)) /\ quiet s1 s').
  - destruct (_ || _) eqn:E; [eapply outcome_weaken; [apply (restoration_spec _ _ _ _ s1 s1); reflexivity|by intros [] s' [? ?]; split|intros s' Hq; left; by eapply ok_quiet]|].
    split; [|reflexivity]. b2p. apply same_bigint in H0. intros [?|?]; [done|by destruct manifestBytes].
  - intros [] s2 [Hv Hq2]. assert (Hp2 : pending_ok None chain fence s2 rs) by (destruct Hq2 as [n ->]; destruct Hp; by split).
    eapply outcome_weaken; [apply (install_pending_spec chain fence s2 rs c); [by eapply ok_quiet| |done..]| |done].
    + destruct Hq2 as [n ->]. destruct Hn as (n' & g & _ & ->). exact Ec.
    + intros taken s' [[Hs' Ht]|Hcol]; [left|by right]. pose proof (last_Some_elem_of _ _ Hc) as Hin%list_elem_of_In.
      destruct Hp as [Hg _ Hb Hr _ _]. rewrite List.Forall_forall in Hg, Hr. split; [done|]. split; [by exists c; split; [apply Hg|]|].
      destruct (snapshot_fields _ _ Ht) as (Hsd & Hsh & Hsb & _ & Hsr). split.
      * rewrite <- Hb, Hsb. apply last_Some in Hc as (l' & ->). rewrite map_app. apply last_snoc.
      * rewrite Hsr, (Hr c Hin). by destruct (hadReadinessGap c).
      * exists (canonicalBytes r), first. split_and!; [by rewrite <- Hb|done|]. intros Hcase. rewrite Hsh.
        unfold descriptor_of in Hsd. rewrite Hd in Hsd. injection Hsd as <-. by apply Hv.
Qed.

(** ** Every step *)

(** One call of an operation; a step that only asks may also fail. *)
Inductive descriptor_step : DescriptorState -> DescriptorState -> Prop :=
  | step_activate input options s res s' : activate outside limits input options s = (res, s') -> descriptor_step s s'
  | step_restore input options s res s' : restore outside limits input options s = (res, s') -> descriptor_step s s'
  | step_state s res s' : state outside s = (res, s') -> descriptor_step s s'
  | step_requireCurrent s res s' : requireCurrent outside s = (res, s') -> descriptor_step s s'
  | step_selected hash s res s' : selected outside hash s = (res, s') -> descriptor_step s s'
  | step_remainsUsable taken s res s' : remainsUsable outside taken s = (res, s') -> descriptor_step s s'
  | step_resultBinding taken evidence s res s' : resultBinding taken evidence s = (res, s') -> descriptor_step s s'.

Definition descriptor_steps : DescriptorState -> DescriptorState -> Prop := rtc descriptor_step.

(** What the operations hand out. *)
Inductive hands_out (s : DescriptorState) (taken : snapshot) : Prop :=
  | out_activate input options s' : activate outside limits input options s = (Ok taken, s') -> hands_out s taken
  | out_restore input options s' : restore outside limits input options s = (Ok taken, s') -> hands_out s taken
  | out_state s' : state outside s = (Ok (READY taken), s') -> hands_out s taken
  | out_requireCurrent s' : requireCurrent outside s = (Ok taken, s') -> hands_out s taken
  | out_selected hash s' : selected outside hash s = (Ok (Some taken), s') -> hands_out s taken.

Lemma activate_gives input options s : ok s -> gives (activate outside limits input options s).
Proof. intros Hs. unfold activate. autorewrite with machine. destruct (asBytes _ _); [by apply activate_spec|by left]. Qed.

Lemma all_bytes_ok l bss : all_bytes l = Ok bss -> l = map VBytes bss.
Proof.
  revert bss. induction l as [|v l IH]; intros bss; cbn; [by intros [= <-]|]. intros (bs & Hb & (rest & Hr & [= <-])%bindR_ok)%bindR_ok.
  destruct v; try done. cbn in Hb. injection Hb as <-. cbn. by rewrite (IH _ Hr).
Qed.

Lemma restore_gives input options s : ok s -> ends (fun taken s' => (ok s' /\ genuine outside taken /\
  exists chain manifestBytes, input.["descriptorChainBytes"] = VList (map VBytes chain) /\
    match manifestBytes with Some bs => input.["manifestBytes"] = VBytes bs | None => nullish input.["manifestBytes"] = true end /\
    restored_from chain manifestBytes taken) \/ collision) good (restore outside limits input options s).
Proof.
  intros Hs. unfold restore. destruct input.["descriptorChainBytes"] as [| | | | |l| | | |] eqn:Ei; try by left. autorewrite with machine.
  destruct (_ || _) eqn:El; [by left|]. destruct (all_bytes l) as [chain|] eqn:Ea; [|by left]. apply all_bytes_ok in Ea as ->. autorewrite with machine.
  destruct (if nullish _ then _ else _) as [manifestBytes|] eqn:Em; [|by left]. autorewrite with machine. destruct (is_true _ || _); [by left|].
  b2p. rewrite length_map in *. eapply outcome_weaken; [by apply restore_spec| |done]. intros taken s' [(Hs' & Hg & Hr)|Hc]; [left|by right].
  split_and!; [done|done|]. exists chain, manifestBytes. split_and!; [done| |done].
  destruct (nullish input.["manifestBytes"]) eqn:En; [by injection Em as <-|]. apply bindR_ok in Em as (bs & Hb & [= <-]).
  destruct input.["manifestBytes"]; try done. cbn in Hb. by injection Hb as <-.
Qed.

Lemma record_sound s r : ok s -> (currentRecord s = Some r \/ exists h, map_get bytes_eqb h (byHash s) = Some r) -> sound outside r.
Proof.
  intros (l & Hk & _) Hr. pose proof (kept_sound _ _ _ Hk) as Hf. rewrite List.Forall_forall in Hf. apply Hf. destruct Hr as [Hr|[h Hr]].
  - rewrite (kept_current _ _ _ Hk) in Hr. by apply list_elem_of_In, last_Some_elem_of.
  - by apply (lookup_kept outside s l) in Hr as [? _].
Qed.

(** Readers leave the records alone, and hand out what the records say. *)
Lemma state_spec s : ok s -> ends (fun v s' => (forall taken, v = READY taken -> genuine outside taken) /\ quiet s s') (quiet s) (state outside s).
Proof.
  intros Hs. unfold state. autorewrite with machine. destruct (fault s); [by split|]. destruct (currentRecord s) as [r|] eqn:Er; [|by split].
  assert (Hq : quiet s s) by reflexivity. step_by epoch_spec. intros now s1 [_ Hq1].
  destruct (_ <? _); [by split|]. destruct (_ <=? _); [by split|]. destruct (_ =? _); [by split|]. autorewrite with machine.
  destruct (snapshotFor r) as [taken|] eqn:Et; [|done]. split; [|done]. intros t [= <-]. exists r. split; [|done]. apply (record_sound s); auto.
Qed.

Lemma requireCurrent_spec s : ok s -> ends (fun taken s' => genuine outside taken /\ quiet s s') (quiet s) (requireCurrent outside s).
Proof. intros Hs. unfold requireCurrent. step_by state_spec. intros [taken|reason] s1 [Hg Hq1]; [split; auto|done]. Qed.

Lemma selected_spec hash s : ok s -> ends (fun found s' => (forall taken, found = Some taken -> genuine outside taken) /\ quiet s s') (quiet s) (selected outside hash s).
Proof.
  intros Hs. assert (Hq : quiet s s) by reflexivity. unfold selected. destruct (nullish hash).
  - step_by requireCurrent_spec. intros taken s1 [Hg Hq1]. split; [|done]. by intros t [= <-].
  - unfold historical. autorewrite with machine. destruct (asBytes _ _) as [h|]; [|done]. autorewrite with machine.
    destruct (map_get _ _ _) as [r|] eqn:Er; [|done]. autorewrite with machine. destruct (snapshotFor r) as [taken|] eqn:Et; [|done].
    split; [|done]. intros t [= <-]. exists r. split; [|done]. apply (record_sound s); eauto.
Qed.

(** The record a snapshot is of. *)
Definition snapshot_record (taken : snapshot) (r : record) : Prop := hash r = snap_hash taken /\ descriptorSequence r = snap_descriptorSequence taken /\
  generation r = snap_generation taken /\ lifecycleFence r = snap_lifecycleFence taken.

Lemma recordForSnapshot_spec taken s : ok s -> ends (fun found s' => s' = s /\ forall r, found = Some r ->
  exists t, taken = Some t /\ snapshot_record t r /\ exists h, map_get bytes_eqb h (byHash s) = Some r) (fun s' => s' = s) (recordForSnapshot taken s).
Proof.
  intros Hs. unfold recordForSnapshot. destruct taken as [t|]; [|done]. autorewrite with machine. destruct (asBytes _ _) as [h|] eqn:Eh; [|done].
  autorewrite with machine. split; [done|]. intros r Hr. exists t. split; [done|]. destruct (map_get _ _ _) as [r'|] eqn:Er; [|done].
  destruct (_ && _) eqn:Ec; [|done]. injection Hr as <-. b2p. split; [|by exists h]. split_and!; [|done..].
  destruct Hs as (l & Hk & _). apply (lookup_kept outside s l) in Er as [_ ->]; [|done]. apply bindR_ok in Eh as ([] & _ & [= <-]). done.
Qed.

Lemma usable_spec taken s : ok s -> ends (fun b s' => quiet s s' /\ (b = true -> fault s = None /\ exists t r c now n,
    taken = Some t /\ snapshot_record t r /\ (exists h, map_get bytes_eqb h (byHash s) = Some r) /\ currentRecord s = Some c /\
    lifecycleFence r = lifecycleFence c /\ epochNow outside n = Ok (VNum now) /\ issuedEpoch r <= now < expiresEpoch r /\
    storeLifecycleState c <> STORE_LIFECYCLE_STATE_RETIRED)) (quiet s) (remainsUsable outside taken s).
Proof.
  intros Hs. unfold remainsUsable. autorewrite with machine. destruct (fault s); [by split|].
  eapply outcome_bind; [eapply outcome_weaken; [by apply recordForSnapshot_spec|intros ? ? Hx; exact Hx|by intros ? ->]|].
  intros found s1 [-> Hf]. autorewrite with machine. destruct found as [r|]; [|by split]. destruct (currentRecord s) as [c|]; [|by split].
  destruct (_ =? _) eqn:Ef; cbn [negb]; [|by split]. destruct (Hf r eq_refl) as (t & -> & Hr & Hg).
  unfold currentEpoch. autorewrite with machine. assert (Hq0 : quiet s s) by reflexivity. step_by hook_spec. intros v s2 [[n Hn] Hq]. destruct v; try done.
  autorewrite with machine. destruct (_ || _); [done|]. autorewrite with machine. split; [done|]. intros Hb. b2p.
  split; [done|]. exists t, r, c, n0, n. by split_and!.
Qed.

Lemma binding_spec taken evidence s : ok s -> snd (resultBinding taken evidence s) = s.
Proof.
  intros Hs. apply (outcome_state (fun s' => s' = s)). unfold resultBinding.
  eapply outcome_bind; [eapply outcome_weaken; [by apply recordForSnapshot_spec|intros ? ? Hx; exact Hx|done]|].
  intros found s1 [-> _]. destruct found; [|done]. repeat (autorewrite with machine; case_match; try done).
Qed.

Lemma outcome_good {A} (Q : A -> DescriptorState -> Prop) o : ends Q good o -> (forall x s', Q x s' -> good s') -> good (snd o).
Proof. intros Ho HQ. destruct o as [[x|e] s']; [by eapply HQ|exact Ho]. Qed.

Lemma step_good s s' : ok s -> descriptor_step s s' -> good s'.
Proof.
  intros Hs Hstep. assert (Hquiet : quiet s s' -> good s') by (intros Hq; left; by eapply ok_quiet). destruct Hstep as [input options s res s' Ho|input options s res s' Ho|s res s' Ho|s res s' Ho|hash s res s' Ho|taken s res s' Ho|taken evidence s res s' Ho];
    match type of Ho with ?o = _ => assert (He : s' = snd o) by (by rewrite Ho) end; subst s'.
  - eapply outcome_good; [by apply activate_gives|]. intros ? ? [[? _]|?]; [by left|by right].
  - eapply outcome_good; [by apply restore_gives|]. intros ? ? [[? _]|?]; [by left|by right].
  - apply Hquiet. eapply outcome_state, outcome_weaken; [by apply state_spec|by intros ? ? [_ ?]|done].
  - apply Hquiet. eapply outcome_state, outcome_weaken; [by apply requireCurrent_spec|by intros ? ? [_ ?]|done].
  - apply Hquiet. eapply outcome_state, outcome_weaken; [by apply selected_spec|by intros ? ? [_ ?]|done].
  - apply Hquiet. eapply outcome_state, outcome_weaken; [by apply usable_spec|by intros ? ? [? _]|done].
  - apply Hquiet. by rewrite binding_spec.
Qed.

Lemma steps_good s s' : ok s -> descriptor_steps s s' -> good s'.
Proof.
  intros Hs Hsteps. assert (Hg : good s) by (by left). clear Hs. induction Hsteps as [|s s1 s' Hstep _ IH]; [done|].
  destruct Hg as [Hs|Hc]; [by apply IH, (step_good s)|by right].
Qed.

Lemma out_genuine s taken : ok s -> hands_out s taken -> genuine outside taken \/ collision.
Proof.
  intros Hs [input options s' Ho|input options s' Ho|s' Ho|s' Ho|hash s' Ho].
  - destruct (outcome_ok _ _ _ _ _ (activate_gives _ _ _ Hs) Ho) as [[_ ?]|?]; auto.
  - destruct (outcome_ok _ _ _ _ _ (restore_gives _ _ _ Hs) Ho) as [(_ & ? & _)|?]; auto.
  - destruct (outcome_ok _ _ _ _ _ (state_spec _ Hs) Ho) as [Hg _]. auto.
  - destruct (outcome_ok _ _ _ _ _ (requireCurrent_spec _ Hs) Ho) as [Hg _]. auto.
  - destruct (outcome_ok _ _ _ _ _ (selected_spec _ _ Hs) Ho) as [Hg _]. auto.
Qed.

(** ** Fences *)

Lemma fences_grow l r c : Sorted linked (r :: l) -> last (r :: l) = Some c -> lifecycleFence r <= lifecycleFence c.
Proof.
  revert r. induction l as [|x l IH]; intros r Hs Hc; [by injection Hc as ->|]. apply Sorted_inv in Hs as [Hs Hr%HdRel_inv].
  pose proof (linked_fence _ _ Hr). specialize (IH x Hs Hc). lia.
Qed.

(** The relay, the store and its life cycle as two descriptors have them. *)
Definition same_relay (d d' : val) : Prop :=
  d'.["relayPublicKey"] = d.["relayPublicKey"] /\ d'.["storeId"] = d.["storeId"] /\ d'.["storeLifecycleState"] = d.["storeLifecycleState"].

Lemma fence_same l r c d : Sorted linked (r :: l) -> last (r :: l) = Some c -> lifecycleFence r = lifecycleFence c ->
  descriptor_of (canonicalBytes r) = Ok d -> exists d', descriptor_of (canonicalBytes c) = Ok d' /\ same_relay d d'.
Proof.
  revert r d. induction l as [|x l IH]; intros r d Hs Hc Hf Hd; [injection Hc as ->; by exists d|].
  apply Sorted_inv in Hs as [Hs Hr%HdRel_inv]. pose proof (fences_grow _ _ _ Hs Hc). pose proof (linked_fence _ _ Hr).
  destruct (linked_successor _ _ Hr) as (d0 & d1 & Hd0 & Hd1 & _ & Hsame). rewrite Hd in Hd0. injection Hd0 as <-.
  destruct Hsame as (Hk & Hst & Hl & _); [lia|]. destruct (IH x d1 Hs Hc) as (d' & Hd' & Hk' & Hst' & Hl'); [lia|done|].
  exists d'. split; [done|]. split_and!; congruence.
Qed.

Lemma kept_fence s l r c d : kept outside s l -> In r l -> currentRecord s = Some c -> lifecycleFence r = lifecycleFence c ->
  descriptor_of (canonicalBytes r) = Ok d -> exists d', descriptor_of (canonicalBytes c) = Ok d' /\ same_relay d d'.
Proof.
  intros Hk Hin Hc Hf Hd. rewrite (kept_current _ _ _ Hk) in Hc. apply in_split in Hin as (l1 & l2 & ->).
  eapply fence_same; [| |exact Hf|exact Hd].
  - by apply (sorted_app_r _ l1), (kept_linked _ _ _ Hk).
  - rewrite last_app in Hc. destruct (last (r :: l2)) eqn:E; [exact Hc|by apply last_None in E].
Qed.

End Laws.

(** ** From the constructor on *)

Lemma bounded_option_ok value default maximum n : bounded_option value default maximum = Ok n -> 1 <= n <= maximum.
Proof.
  unfold bounded_option. cbv zeta. destruct (if nullish value then _ else _); try done. intros ([] & Hc%throw_if_ok & [= <-])%bindR_ok. b2p. lia.
Qed.

Section Properties.
Context `{Platform} (outside : hooks) (options : val) (limits : config) (s0 : DescriptorState).
Hypothesis created : newDescriptorState outside options = Ok (limits, s0).

Lemma new_history : 1 <= maxHistory limits.
Proof.
  pose proof created as Hn. apply bindR_ok in Hn as (m & Hm%bounded_option_ok & Hn). apply bindR_ok in Hn as (r & _ & Hn). cbv zeta in Hn.
  destruct (currentEpoch _ _) as [[|] ?]; [|done]. injection Hn as <- <-. apply Hm.
Qed.

Lemma new_ok : ok outside limits s0.
Proof.
  pose proof new_history as Hh. pose proof created as Hn. apply bindR_ok in Hn as (m & _ & Hn). apply bindR_ok in Hn as (r & _ & Hn). cbv zeta in Hn.
  assert (Hq : quiet newState newState) by reflexivity. pose proof (epoch_spec outside _ _ Hq) as He.
  destruct (currentEpoch _ _) as [[|] s]; [|done]. injection Hn as Hl ->. destruct He as [_ [n ->]].
  exists []. split_and!; [|done|cbn; lia]. split; cbn; try done; constructor.
Qed.

Definition reachable (s : DescriptorState) : Prop := descriptor_steps outside limits s0 s.

Lemma reachable_good s : reachable s -> good outside limits s.
Proof. apply steps_good; [apply new_history|apply new_ok]. Qed.

(** C27: Whatever is activated, restored or asked, in any order and whatever the
    hooks answer, the descriptor state holds one chain: every record has
    descriptor bytes that are canonical, whose signature the verifier accepted
    and whose durability hashes are right; each names the hash of the one before,
    is one ahead in sequence, and either keeps the relay's key, identity and
    store, or takes over from a retired one by a transition both keys signed; the
    last one is current, and no more are kept than configured. Or two byte
    strings with one hash have been found. *)
Theorem descriptor_chain s : reachable s -> ok outside limits s \/ collision.
Proof. apply reachable_good. Qed.

(** C31: While a snapshot remains usable, the relay is the one it was taken from:
    whatever happened between handing it out and asking, the current descriptor
    has the snapshot's relay key, store and life-cycle state, which is not
    retired, the state has not closed, and the clock is within the epochs of the
    snapshot's own descriptor. *)
Theorem usable_snapshot s1 s2 taken s' : reachable s1 -> hands_out outside limits s1 taken -> reachable s2 ->
  remainsUsable outside (Some taken) s2 = (Ok true, s') ->
  (exists current d d' n now, fault s2 = None /\ currentRecord s2 = Some current /\
    descriptor_of (snap_canonicalBytes taken) = Ok d /\ snap_descriptor taken = d /\ descriptor_of (canonicalBytes current) = Ok d' /\
    same_relay d d' /\ num d.["storeLifecycleState"] <> STORE_LIFECYCLE_STATE_RETIRED /\
    epochNow outside n = Ok (VNum now) /\ num d.["issuedEpoch"] <= now < num d.["expiresEpoch"]) \/ collision.
Proof.
  intros [Hs1|]%reachable_good Ht [Hs2|]%reachable_good Hu; [|by right..].
  assert (genuine outside taken \/ collision) as [(r0 & Hr0 & Ht0)|] by (eapply out_genuine; [exact new_history|exact Hs1|exact Ht]); [|by right].
  assert (Hend := outcome_ok _ _ _ _ _ (usable_spec _ _ _ _ Hs2) Hu). destruct Hend as [_ Htrue]. destruct (Htrue eq_refl) as (Hf & t & r & c & now & n & [= <-] & (Hh & _) & [h Hg] & Hc & Hfence & Hn & Hnow & Hret).
  destruct Hs2 as (l & Hk & _). pose proof (lookup_kept _ _ _ _ _ Hk Hg) as [Hin _]. pose proof (kept_sound _ _ _ Hk) as Hall. rewrite List.Forall_forall in Hall.
  pose proof (Hall r Hin) as Hr. destruct (snapshot_fields _ _ Ht0) as (Hd & Hsh & Hsb & _). rewrite Hsh in Hh.
  pose proof (sound_hash _ _ Hr0) as Hh0. rewrite <- Hh in Hh0.
  destruct (descriptor_hash_binds _ _ _ Hh0 (sound_hash _ _ Hr)) as [Hb|]; [left|by right]. rewrite Hb in Hd.
  destruct (kept_fence _ _ _ _ _ _ Hk Hin Hc Hfence Hd) as (d' & Hd' & Hsame).
  assert (Hcs : sound outside c) by (apply Hall, list_elem_of_In, last_Some_elem_of; by rewrite <- (kept_current _ _ _ Hk)).
  destruct (sound_verified _ _ Hr) as (d0 & [Hd0 _ _ _ _] & Hrf), (sound_verified _ _ Hcs) as (d1 & [Hd1 _ _ _ _] & Hcf).
  rewrite Hd in Hd0. injection Hd0 as <-. rewrite Hd' in Hd1. injection Hd1 as <-. rewrite Hrf in Hnow. rewrite Hcf in Hret. cbn in Hnow, Hret.
  exists c, (snap_descriptor taken), d', n, now. destruct Hsame as (Hk1 & Hk2 & Hk3). rewrite Hk3 in Hret.
  rewrite Hsb, Hb. split_and!; try done; apply Hnow.
Qed.

(** C33: A restored state never serves on its own word: the snapshot that
    [restore] hands out is of the last descriptor it was given and demands a full
    verification of the store; and when the chain does not start at the first
    descriptor, or a manifest comes with it, then the manifest is canonical and
    names this last descriptor, and the authority was shown all of it and echoed
    its hash, sequence number, relay, store and durability. *)
Theorem restore_vouched s input opts taken s' : reachable s -> restore outside limits input opts s = (Ok taken, s') ->
  (exists chain manifestBytes, input.["descriptorChainBytes"] = VList (map VBytes chain) /\
    match manifestBytes with Some bs => input.["manifestBytes"] = VBytes bs | None => nullish input.["manifestBytes"] = true end /\
    restored_from outside chain manifestBytes taken) \/ collision.
Proof.
  intros [Hs|]%reachable_good Hr; [|by right]. eapply outcome_ok in Hr; [|by apply restore_gives; [apply new_history|]].
  destruct Hr as [(_ & _ & Hr)|]; [by left|by right].
Qed.

End Properties.

(** ** Closed for good *)

Section Closed.
Context `{Platform} (outside : hooks) (limits : config).

(** No operation serves a current descriptor or changes one any more. *)
Record closed_by (reason : Z) (s : DescriptorState) : Prop := {
  closed_fault : fault s = Some reason;
  closed_activate : forall bs options, activate outside limits (VBytes bs) options s = (Err (Closed reason), s);
  closed_restore : forall input options, is_ok (fst (restore outside limits input options s)) = false;
  closed_current : requireCurrent outside s = (Err (Closed reason), s);
  closed_snapshots : forall taken, remainsUsable outside taken s = (Ok false, s)
}.

Lemma closed_refuses reason s : fault s = Some reason -> closed_by reason s.
Proof.
  intros Hf. split; [done| | | |].
  - intros bs options. unfold activate, activate_serialized. cbn. autorewrite with machine. by rewrite Hf.
  - intros input options. unfold restore. destruct input.["descriptorChainBytes"]; try done. autorewrite with machine.
    destruct (_ || _); [done|]. destruct (all_bytes _); [|done]. autorewrite with machine. destruct (if nullish _ then _ else _); [|done].
    autorewrite with machine. destruct (_ || _); [done|]. unfold restore_serialized. autorewrite with machine. rewrite Hf. by destruct (currentRecord s).
  - unfold requireCurrent, state. autorewrite with machine. by rewrite Hf.
  - intros taken. unfold remainsUsable. autorewrite with machine. by rewrite Hf.
Qed.

Lemma closed_step reason s s' : fault s = Some reason -> descriptor_step outside limits s s' -> s' = s.
Proof.
  intros Hf Hstep. pose proof (closed_refuses _ _ Hf) as [_ _ _ Hcur Huse]. destruct Hstep as [input options s res s' Ho|input options s res s' Ho|s res s' Ho|s res s' Ho|hash s res s' Ho|taken s res s' Ho|taken evidence s res s' Ho];
    match type of Ho with ?o = _ => assert (He : s' = snd o) by (by rewrite Ho) end; subst s'; clear Ho.
  - unfold activate, activate_serialized. autorewrite with machine. destruct (asBytes _ _); [|done]. autorewrite with machine. by rewrite Hf.
  - unfold restore. destruct input.["descriptorChainBytes"]; try done. autorewrite with machine.
    destruct (_ || _); [done|]. destruct (all_bytes _); [|done]. autorewrite with machine. destruct (if nullish _ then _ else _); [|done].
    autorewrite with machine. destruct (_ || _); [done|]. unfold restore_serialized. autorewrite with machine. rewrite Hf. by destruct (currentRecord s).
  - unfold state. autorewrite with machine. by rewrite Hf.
  - by rewrite Hcur.
  - unfold selected, historical. destruct (nullish hash); [unfold bindM; by rewrite Hcur|]. repeat (autorewrite with machine; case_match; try done).
  - by rewrite Huse.
  - unfold resultBinding, recordForSnapshot. repeat (autorewrite with machine; case_match; try done).
Qed.

(** Every error of the transition checks closes the state. *)
Definition closes {A} (m : result A) : Prop := forall e, m = Err e -> exists reason, e = Closed reason.

Lemma closes_if b r : closes (closed_if b r).
Proof. intros e. unfold closed_if, throw_if. destruct b; [intros [= <-]; by eexists|done]. Qed.

Lemma closes_bind {A B} (m : result A) (f : A -> result B) : closes m -> (forall x, closes (f x)) -> closes (bindR m f).
Proof. intros Hm Hf e. destruct m as [x|e']; [apply Hf|]. intros [= <-]. by apply Hm. Qed.

Lemma closes_decode e bs : closes (decodeExact e bs).
Proof. intros e'. unfold decodeExact. destruct (bindR _ _); [done|]. intros [= <-]. by eexists. Qed.

Lemma closes_transition c d allow : closes (assertTransition c d allow).
Proof.
  unfold assertTransition, assertSameKeyTransition, assertRotationTransition, assertDrainEpoch. cbv zeta.
  repeat first [apply closes_bind; [|intros ?] | apply closes_if | apply closes_decode | case_match | done].
Qed.

(** The current record's descriptor goes on to [d]. *)
Definition on_chain (c : record) (d : val) : Prop := exists dc, descriptor_of (canonicalBytes c) = Ok dc /\ successor dc d (hash c).

(** C32: A signed descriptor that is within its epochs, but neither is the current
    one nor follows it, closes the descriptor state: the activation fails, and
    after any further operations every activation and restoration is refused, no
    descriptor is current and no snapshot usable. *)
Theorem off_chain_closes bs opts s d s1 now s2 c h : fault s = None -> currentRecord s = Some c ->
  verifiedDescriptor outside bs s = (Ok d, s1) -> currentEpoch outside s1 = (Ok now, s2) -> num d.["issuedEpoch"] <= now < num d.["expiresEpoch"] ->
  Hash.serviceDescriptorHash (VBytes bs) = Ok h -> h <> hash c -> ~ on_chain c d ->
  exists reason s', activate outside limits (VBytes bs) opts s = (Err (Closed reason), s') /\
    forall s'', descriptor_steps outside limits s' s'' -> closed_by reason s''.
Proof.
  intros Hf Hc Hv He Hnow Hh Hne Hoff. assert (Hq : quiet s s) by reflexivity.
  destruct (outcome_ok _ _ _ _ _ (verified_spec outside bs _ _ Hq) Hv) as [Hver Hq1]. pose proof (verified_decodes _ _ _ Hver) as Hd.
  assert (Hq2 : quiet s s2) by (eapply (outcome_ok _ _ _ _ _ (epoch_spec outside _ _ Hq1) He)).
  assert (Hlast : forall reason s', fault s' = Some reason -> forall s'', descriptor_steps outside limits s' s'' -> closed_by reason s'').
  { intros reason s' Hs' s'' Hsteps. assert (s'' = s') as -> by (induction Hsteps as [|x y z Hxy _ IH]; [done|]; pose proof (closed_step _ _ _ Hs' Hxy) as ->; by apply IH). by apply closed_refuses. }
  assert (Hgoal : forall reason, activate_serialized outside limits bs (is_true opts.["emergencyGap"]) (is_true opts.["trustedRestore"]) s = (Err (Closed reason), set_fault reason s2) ->
    exists reason s', activate outside limits (VBytes bs) opts s = (Err (Closed reason), s') /\ forall s'', descriptor_steps outside limits s' s'' -> closed_by reason s'').
  { intros reason Ha. exists reason, (set_fault reason s2). split; [exact Ha|by apply Hlast]. }
  unfold activate_serialized in Hgoal. autorewrite with machine in Hgoal. rewrite Hf in Hgoal. unfold bindM at 1 in Hgoal. rewrite Hv in Hgoal.
  autorewrite with machine in Hgoal. rewrite Hh in Hgoal. unfold bindM at 1 in Hgoal. rewrite He in Hgoal. autorewrite with machine in Hgoal.
  rewrite (num_field _ _ "issuedEpoch" Hd ltac:(by left)), (num_field _ _ "expiresEpoch" Hd ltac:(by right; left)), (big_field _ _ "descriptorSequence" Hd ltac:(by left)) in Hgoal.
  cbn [js_lt js_le] in Hgoal. replace (currentRecord s2) with (Some c) in Hgoal by (by destruct Hq2 as [n ->]).
  rewrite (proj2 (Z.ltb_ge _ _) (proj1 Hnow)), (proj2 (Z.leb_gt _ _) (proj2 Hnow)) in Hgoal.
  destruct (_ <? _); [by apply (Hgoal ROLLBACK)|]. destruct (strict_eqb _ _).
  - destruct (bytes_eqb h (hash c)) eqn:E; [by apply bytes_eqb_eq in E|]. by apply (Hgoal FORK).
  - destruct (assertTransition _ _ _) as [[g ch]|e] eqn:Et.
    + destruct Hoff. assert (exists dc, descriptor_of (canonicalBytes c) = Ok dc) as [dc Hdc] by (apply bindR_ok in Et as (dc & Hdc & _); by exists dc).
      exists dc. split; [done|]. pose proof (lifecycle_range _ _ Hdc) as Hr. by apply (assertTransition_ok _ _ _ _ _ _ _ Hdc Hd Hr) in Et as [? _].
    + destruct (closes_transition _ _ _ _ Et) as [reason ->]. by apply (Hgoal reason).
Qed.

End Closed.
