(* ===== verification/DescriptorDemo.v ===== *)
(** * Descriptor states on a concrete platform

    A relay with three descriptors, a fork of the second one and a manifest; the
    theorems of DescriptorLaws.v applied to what the code computes on them. *)

From Stdlib Require Import ZArith Lia Bool List String Ascii Sorted.
From Stdlib Require Import Strings.Byte.
From stdpp Require Import base tactics list strings relations.
From S2P Require Import Prelude JsMap Codec CodecLaws DemoPlatform Authority Hashes SchemaKit SchemasDescribe SchemasDurability SchemasInternal Accepted DescribeLaws DescriptorState DescriptorChain DescriptorBooks DescriptorLaws.
Import DescriptorState.Descriptor.

#[local] Existing Instance demo_platform.

(** ** Bytes *)

Definition expect {A} (default : A) (m : result A) : A := match m with Ok x => x | Err _ => default end.

Definition continuity_hash : bytes := Eval vm_compute in
  expect [] (let! bs := encodeCanonical Durability.durabilityContinuityBindingV1 (continuityValue demo_durability) in Hash.durabilityContinuityHash (VBytes bs)).
Definition profile_hash : bytes := Eval vm_compute in
  expect [] (let! bs := encodeCanonical durabilityProfileV1 demo_durability in Hash.durabilityProfileHash (VBytes bs)).

(** The demonstration descriptor as an active relay signs it. *)
Definition with_fields (fields : list (string * val)) : val :=
  match demo_descriptor with
  | VObj fs => VObj (map (fun f => match assoc (fst f) fields with Some v => (fst f, v) | None => f end) fs)
  | v => v
  end.

Definition active_descriptor (sequence : Z) (previous : val) (issued : Z) (nonce : byte) : bytes :=
  expect [] (encodeCanonical blindServiceDescriptorV1 (with_fields [
    ("descriptorSequence", VBig sequence); ("previousDescriptorHash", previous);
    ("durabilityContinuityHash", VBytes continuity_hash); ("durabilityProfileHash", VBytes profile_hash);
    ("storeLifecycleState", VNum STORE_LIFECYCLE_STATE_ACTIVE); ("drainStartedEpoch", VNull);
    ("issuedEpoch", VNum issued); ("expiresEpoch", VNum (issued + 3)); ("descriptorNonce", key nonce)])).

Definition hash_of (bs : bytes) : bytes := expect [] (Hash.serviceDescriptorHash (VBytes bs)).

Definition first_descriptor : bytes := Eval vm_compute in active_descriptor 0 VNull 100 Byte.x0a.
Definition second_descriptor : bytes := Eval vm_compute in active_descriptor 1 (VBytes (hash_of first_descriptor)) 101 Byte.x0b.
Definition forked_descriptor : bytes := Eval vm_compute in active_descriptor 1 (VBytes (hash_of first_descriptor)) 101 Byte.x0c.


Definition manifest_fields : val := VObj [
  ("storeId", key Byte.x02); ("relayPublicKey", key Byte.x01); ("durabilityProfileId", VNum 1);
  ("durabilityContinuityHash", VBytes continuity_hash); ("durabilityProfileHash", VBytes profile_hash);
  ("formatMajor", VNum 1); ("formatMinor", VNum 0); ("storeFormatHash", key Byte.x41); ("specHash", key Byte.x31); ("abiHash", key Byte.x32);
  ("mapGeneration", VBig 1); ("bucketMapHash", key Byte.x51); ("checkpointWalSequence", VBig 1); ("checkpointHash", key Byte.x52);
  ("epochFloor", VNum 100); ("writerEpoch", VBig 1); ("writerFenceTokenHash", key Byte.x53); ("externalLeaseRevision", VBig 0);
  ("externalJournalId", key Byte.x00); ("externalWitnessPublicKey", key Byte.x00); ("restoreEvidenceFeedId", key Byte.x00);
  ("lastAckWalSequence", VBig 0); ("lastAckWalHash", key Byte.x00); ("externalCheckpointRevision", VBig 0); ("externalCheckpointHash", key Byte.x00);
  ("descriptorSequenceFloor", VBig 1); ("descriptorHashFloor", VBytes (hash_of second_descriptor)); ("migrationState", VNum 0);
  ("sourceFormatMajor", VNum 0); ("targetFormatMajor", VNum 0); ("migrationCursorHash", key Byte.x00); ("previousManifestHash", VNull);
  ("manifestRevision", VBig 0); ("mac", key Byte.x54)].

Definition demo_manifest : bytes := Eval vm_compute in expect [] (encodeCanonical Internal.blindStoreManifestV1 manifest_fields).

(** ** A relay *)

(** The authority answers with what it was asked, and says yes. *)
Definition echo (request : val) : val :=
  match request with VObj fs => VObj (("verified", VBool true) :: ("fullStoreVerified", VBool true) :: fs) | v => v end.

Definition demo_outside : hooks := {|
  verifySignature := fun _ _ => Ok (VBool true);
  verifyIdentityTransitionSignature := fun _ _ => Ok (VBool true);
  verifyRestoration := Some (fun _ request => Ok (echo request));
  epochNow := fun _ => Ok (VNum 102)
|}.

Definition demo_limits : config := {| maxHistory := 4096; retentionEpochs := 1460; allowEmergencyGaps := false |}.
Definition demo_new : DescriptorState := set_calls 1 newState.

Lemma demo_created : newDescriptorState demo_outside (VObj []) = Ok (demo_limits, demo_new).
Proof. reflexivity. Qed.

Definition demo_activate (bs : bytes) (s : DescriptorState) := activate demo_outside demo_limits (VBytes bs) VUndef s.

(** A computation that succeeds. *)
Definition no_snapshot : snapshot := {| snap_descriptor := VUndef; snap_canonicalBytes := []; snap_hash := []; snap_descriptorSequence := 0;
  snap_generation := 0; snap_lifecycleFence := 0; snap_hadReadinessGap := false; fullStoreVerificationRequired := false |}.
Definition value_of {A} (default : A) (o : result A * DescriptorState) : A := expect default (fst o).

Definition demo_one : DescriptorState := Eval vm_compute in snd (demo_activate first_descriptor demo_new).
Definition demo_taken : snapshot := Eval vm_compute in value_of no_snapshot (demo_activate first_descriptor demo_new).
Definition demo_two : DescriptorState := Eval vm_compute in snd (demo_activate second_descriptor demo_one).
Definition demo_later : snapshot := Eval vm_compute in value_of no_snapshot (demo_activate second_descriptor demo_one).

Lemma demo_activated : demo_activate first_descriptor demo_new = (Ok demo_taken, demo_one).
Proof. vm_compute. reflexivity. Qed.

Lemma demo_refreshed : demo_activate second_descriptor demo_one = (Ok demo_later, demo_two).
Proof. vm_compute. reflexivity. Qed.

Example demo_forks : fst (demo_activate forked_descriptor demo_two) = Err (Closed FORK).
Proof. vm_compute. reflexivity. Qed.

Definition demo_input : val := VObj [("descriptorChainBytes", VList [VBytes second_descriptor]); ("manifestBytes", VBytes demo_manifest)].
Definition demo_restored : DescriptorState := Eval vm_compute in snd (restore demo_outside demo_limits demo_input VUndef demo_new).
Definition demo_evidence : snapshot := Eval vm_compute in value_of no_snapshot (restore demo_outside demo_limits demo_input VUndef demo_new).
Lemma demo_restores : restore demo_outside demo_limits demo_input VUndef demo_new = (Ok demo_evidence, demo_restored).
Proof. vm_compute. reflexivity. Qed.

(** ** Witnesses *)

Lemma demo_reach_new : reachable demo_outside demo_limits demo_new demo_new.
Proof. apply rtc_refl. Qed.

Lemma demo_reach_two : reachable demo_outside demo_limits demo_new demo_two.
Proof.
  exact (rtc_l _ _ demo_one _ (step_activate _ _ (VBytes first_descriptor) VUndef _ _ _ demo_activated)
    (rtc_once _ _ (step_activate _ _ (VBytes second_descriptor) VUndef _ _ _ demo_refreshed))).
Qed.

Lemma descriptor_chain_witness : ok demo_outside demo_limits demo_two \/ collision.
Proof. exact (descriptor_chain demo_outside (VObj []) demo_limits demo_new demo_created demo_two demo_reach_two). Defined.

Lemma demo_usable : remainsUsable demo_outside (Some demo_taken) demo_two = (Ok true, set_calls (S (calls demo_two)) demo_two).
Proof. vm_compute. reflexivity. Qed.

Lemma usable_snapshot_witness : (exists current d d' n now, fault demo_two = None /\ currentRecord demo_two = Some current /\
    descriptor_of (snap_canonicalBytes demo_taken) = Ok d /\ snap_descriptor demo_taken = d /\ descriptor_of (canonicalBytes current) = Ok d' /\
    same_relay d d' /\ num d.["storeLifecycleState"] <> STORE_LIFECYCLE_STATE_RETIRED /\
    epochNow demo_outside n = Ok (VNum now) /\ num d.["issuedEpoch"] <= now < num d.["expiresEpoch"]) \/ collision.
Proof.
  exact (usable_snapshot demo_outside (VObj []) demo_limits demo_new demo_created demo_new demo_two demo_taken _ demo_reach_new
    (out_activate _ _ _ _ (VBytes first_descriptor) VUndef _ demo_activated) demo_reach_two demo_usable).
Defined.

Lemma restore_vouched_witness : (exists chain manifestBytes, demo_input.["descriptorChainBytes"] = VList (map VBytes chain) /\
    match manifestBytes with Some bs => demo_input.["manifestBytes"] = VBytes bs | None => nullish demo_input.["manifestBytes"] = true end /\
    restored_from demo_outside chain manifestBytes demo_evidence) \/ collision.
Proof. exact (restore_vouched demo_outside (VObj []) demo_limits demo_new demo_created demo_new demo_input VUndef demo_evidence demo_restored demo_reach_new demo_restores). Defined.

(** *** The fork *)

Definition demo_fork : val := Eval vm_compute in expect VUndef (descriptor_of forked_descriptor).
Definition demo_current : record := Eval vm_compute in match currentRecord demo_two with Some r => r | None => recordFor VUndef [] [] 0 0 false false end.
Definition demo_asked (n : nat) : DescriptorState := set_calls (n + calls demo_two) demo_two.

Lemma demo_fork_verified : verifiedDescriptor demo_outside forked_descriptor demo_two = (Ok demo_fork, demo_asked 1).
Proof. vm_compute. reflexivity. Qed.

Lemma demo_fork_off : ~ on_chain demo_current demo_fork.
Proof.
  intros (d & Hd & [Hs _ _]). assert (He : big d.["descriptorSequence"] = 1); [|rewrite He in Hs; vm_compute in Hs; discriminate].
  revert Hd. set (m := descriptor_of _). assert (Hm : m = Ok (snap_descriptor demo_later)) by (vm_compute; reflexivity). rewrite Hm. intros [= <-]. vm_compute. reflexivity.
Qed.

Lemma demo_fork_hash : hash_of forked_descriptor <> hash demo_current.
Proof. vm_compute. discriminate. Qed.

Lemma off_chain_closes_witness : exists reason s', demo_activate forked_descriptor demo_two = (Err (Closed reason), s') /\
  forall s'', descriptor_steps demo_outside demo_limits s' s'' -> closed_by demo_outside demo_limits reason s''.
Proof.
  apply (off_chain_closes demo_outside demo_limits forked_descriptor VUndef demo_two demo_fork (demo_asked 1) 102 (demo_asked 2) demo_current (hash_of forked_descriptor)).
  - reflexivity.
  - reflexivity.
  - exact demo_fork_verified.
  - reflexivity.
  - split; vm_compute; [discriminate|reflexivity].
  - reflexivity.
  - exact demo_fork_hash.
  - exact demo_fork_off.
Defined.
