(* ===== verification/PostEofAuthority.v ===== *)
(** * Authorities minted after the end of a request (packages/blind-daemon/post-eof-authority.js)

    The private server mints a capability when it has seen the end of a request,
    and the admission coordinator spends it. A capability is an empty frozen
    object, so all there is to it is its identity: a number, which [mint] is
    given as that of the new object. One issuer; capabilities of others are
    unknown here. *)

From Stdlib Require Import ZArith Lia Bool List String Ascii.
From Stdlib Require Import Strings.Byte.
From stdpp Require Import base tactics list strings.
From S2P Require Import Prelude.

Module PostEof.

Definition SPEND_INVALID : error := Thrown "SPEND_INVALID".
(** [fail] *)
Definition spend_if (cond : bool) : result unit := throw_if cond SPEND_INVALID.

Definition fixed (value : val) (n : Z) : result bytes :=
  match value with
  | VBytes bs => spend_if (negb (blen bs =? n)) ;;! Ok bs
  | _ => Err SPEND_INVALID
  end.
Definition bytes32 (value : val) : result bytes := fixed value 32.
Definition bytes16 (value : val) : result bytes := fixed value 16.

Definition integer (value : val) (maximum : Z) : result Z :=
  match value with
  | VNum n => spend_if ((n <? 0) || (maximum <? n)) ;;! Ok n
  | _ => Err SPEND_INVALID
  end.

Definition u64 (value : val) : result Z :=
  match value with
  | VNum n | VBig n => spend_if ((n <? 0) || (MAX_U64 <? n)) ;;! Ok n
  | _ => Err SPEND_INVALID
  end.

Record retained := {
  endpointId : Z;
  familyId : Z;
  operationId : Z;
  descriptorSequence : Z;
  descriptorHash : bytes;
  requestId : bytes;
  requestCommitment : bytes
}.

(** [AUTHORITIES] *)
Definition authorities : Type := list (nat * retained).

Definition find_authority {A} (authority : nat) (entries : list (nat * A)) : option A :=
  snd <$> List.find (fun e => Nat.eqb (fst e) authority) entries.
Definition delete_authority {A} (authority : nat) (entries : list (nat * A)) : list (nat * A) :=
  List.filter (fun e => negb (Nat.eqb (fst e) authority)) entries.

Definition mint (authority : nat) (input : val) : M authorities nat :=
  throwM_if (negb (is_true input.["actualPeerEof"]) || negb (is_true input.["exactRequestValidated"])) SPEND_INVALID ;;*
  let* endpointId := lift (integer input.["endpointId"] 0xffff) in
  let* familyId := lift (integer input.["familyId"] 0xff) in
  let* operationId := lift (integer input.["operationId"] 0xff) in
  let* descriptorSequence := lift (u64 input.["descriptorSequence"]) in
  let* descriptorHash := lift (bytes32 input.["descriptorHash"]) in
  let* requestId := lift (bytes16 input.["requestId"]) in
  let* requestCommitment := lift (bytes32 input.["requestCommitment"]) in
  modify (fun entries => entries ++ [(authority, {| endpointId := endpointId; familyId := familyId; operationId := operationId;
    descriptorSequence := descriptorSequence; descriptorHash := descriptorHash; requestId := requestId; requestCommitment := requestCommitment |})]) ;;*
  ret authority.

(** The authority is spent before the echo is looked at. *)
Definition consume (authority : option nat) (input : val) : M authorities bool :=
  match authority with
  | None => throw SPEND_INVALID
  | Some authority =>
      let* found := gets (find_authority authority) in
      match found with
      | None => throw SPEND_INVALID
      | Some r =>
          modify (delete_authority authority) ;;*
          throwM_if (negb (is_num input.["endpointId"] (endpointId r)) || negb (is_num input.["familyId"] (familyId r))
            || negb (is_num input.["operationId"] (operationId r))) SPEND_INVALID ;;*
          let* sequence := lift (u64 input.["descriptorSequence"]) in
          throwM_if (negb (descriptorSequence r =? sequence)) SPEND_INVALID ;;*
          let* hash := lift (bytes32 input.["descriptorHash"]) in
          throwM_if (negb (bytes_eqb (descriptorHash r) hash)) SPEND_INVALID ;;*
          let* request := lift (bytes16 input.["requestId"]) in
          throwM_if (negb (bytes_eqb (requestId r) request)) SPEND_INVALID ;;*
          let* commitment := lift (bytes32 input.["requestCommitment"]) in
          throwM_if (negb (bytes_eqb (requestCommitment r) commitment)) SPEND_INVALID ;;*
          ret true
      end
  end.

End PostEof.
