(* ===== verification/AdmissionCoordinator.v ===== *)
(** * Admission of operations (packages/blind-daemon/admission-coordinator.js)

    An operation that costs something is admitted in two steps: a preflight
    before its request has been read to the end, and a confirmation after it,
    which spends the capability the server minted at the end of the request. In
    between, the adapters that know the payment schemes are asked, and anything
    may happen: other calls, new descriptors, new parameters.

    The state is the coordinator's, with the descriptor state it reads, the
    authorities of the issuer that it is wired to in production-runtime.js, and
    the identity of the next object. Empty frozen objects are their identities.
    Verifiers and clock are hooks; what is awaited from adapters is a [request]
    that may be answered in any way. Abort signals are left out. *)

From Stdlib Require Import ZArith Lia Bool List String Ascii.
From Stdlib Require Import Strings.Byte.
From stdpp Require Import base tactics list strings.
From S2P Require Import Prelude JsMap AsyncCalls Codec CodecLaws Authority Hashes SchemaKit SchemasDescribe DescriptorState PostEofAuthority.

Module Admission.
Import Descriptor.

Definition MAX_WAL_COMMIT_RECORD_BYTES : Z := 16 * 1024.
Definition ADMISSION_MODE_NONE : Z := 0.
Definition ADMISSION_MODE_REQUIRED : Z := 2.

Definition SPEND_INVALID : error := Thrown "SPEND_INVALID".
Definition SPEND_REQUIRED : error := Thrown "SPEND_REQUIRED".
(** [if (cond) protocolFailure('SPEND_INVALID', ...)] *)
Definition spend_if (cond : bool) : result unit := throw_if cond SPEND_INVALID.

(** ** Values *)

Definition asBytes (value : val) (limits : option (Z * Z)) : result bytes :=
  match value with
  | VBytes bs =>
      spend_if (match limits with Some (lo, hi) => (blen bs <? lo) || (hi <? blen bs) | None => false end) ;;!
      Ok bs
  | _ => Err SPEND_INVALID
  end.

Definition nonzero (bs : bytes) : bool := existsb (fun b => negb (Byte.eqb b Byte.x00)) bs.

Definition u64 (value : val) : result Z :=
  match value with
  | VNum n | VBig n => spend_if ((n <? 0) || (MAX_U64 <? n)) ;;! Ok n
  | _ => Err SPEND_INVALID
  end.

Section WithPlatform.
Context `{Platform}.

Definition decodeExact (canonicalBytes : bytes) : result val :=
  match (let! value := decodeCanonical admissionParametersV1 (VBytes canonicalBytes) in
         let! encoded := encodeCanonical admissionParametersV1 value in
         throw_if (negb (bytes_eqb canonicalBytes encoded)) GenericError ;;!
         Ok value) with
  | Ok value => Ok value
  | Err _ => Err SPEND_INVALID
  end.

(** ** Records of parameters *)

Record parameters := { parameters_hash : bytes; parameters_bytes : bytes; parameters_expires : Z }.

Record view := { view_value : val; view_hash : bytes; view_bytes : bytes }.

Definition recordView (r : parameters) : result view :=
  let! value := decodeExact (parameters_bytes r) in
  Ok {| view_value := value; view_hash := parameters_hash r; view_bytes := parameters_bytes r |}.

Definition parameterMatchesProfile (r : parameters) (profile descriptor : val) : result bool :=
  let! value := decodeExact (parameters_bytes r) in
  Ok (strict_eqb value.["profileId"] profile.["profileId"] && strict_eqb value.["schemeId"] profile.["schemeId"] &&
    strict_eqb value.["conformanceClass"] profile.["conformanceClass"] && strict_eqb value.["roleBits"] profile.["roleBits"] &&
    sameBytes (VBytes (parameters_hash r)) profile.["parameterHash"] && sameBytes value.["relayPublicKey"] descriptor.["relayPublicKey"] &&
    js_lt value.["validFromEpoch"] descriptor.["expiresEpoch"] && js_lt descriptor.["issuedEpoch"] value.["expiresEpoch"]).

(** ** The binding of a preflight *)

Record operation := { op_familyId : Z; op_operationId : Z; op_admissionMode : Z }.
Record admission := { adm_profileId : val; adm_schemeId : val; adm_parameterHash : bytes; adm_token : bytes }.
Record cost := { cost_resourceClass : Z; cost_leaseClass : Z; cost_costUnits : val }.

Record binding := {
  b_operation : operation;
  b_admission : admission;
  b_requestId : bytes;
  b_requestCommitment : bytes;
  b_descriptorSequence : Z;
  b_descriptorHash : bytes;
  b_endpointId : val;
  b_endpointRoleBits : val;
  b_cost : cost;
  b_parameterBytes : bytes
}.

Definition operationBinding (profile : val) : result operation :=
  match profile.["familyId"], profile.["operationId"], profile.["admissionMode"] with
  | VNum familyId, VNum operationId, VNum admissionMode =>
      spend_if (falsy profile || (admissionMode =? ADMISSION_MODE_NONE)) ;;!
      Ok {| op_familyId := familyId; op_operationId := operationId; op_admissionMode := admissionMode |}
  | _, _, _ => Err SPEND_INVALID
  end.

Definition admissionCopy (input : val) : result admission :=
  throw_if (negb (is_object input)) SPEND_REQUIRED ;;!
  let! parameterHash := asBytes input.["parameterHash"] (Some (32, 32)) in
  let! token := asBytes input.["token"] (Some (1, 65535)) in
  Ok {| adm_profileId := input.["profileId"]; adm_schemeId := input.["schemeId"]; adm_parameterHash := parameterHash; adm_token := token |}.

Definition costBinding (value : val) : result (Z * Z) :=
  match value.["resourceClass"], value.["leaseClass"] with
  | VNum resourceClass, VNum leaseClass => spend_if (falsy value) ;;! Ok (resourceClass, leaseClass)
  | _, _ => Err SPEND_INVALID
  end.

Definition sameOperationBinding (left right : operation) : bool :=
  (op_familyId left =? op_familyId right) && (op_operationId left =? op_operationId right) && (op_admissionMode left =? op_admissionMode right).

Definition sameAdmissionBinding (left right : admission) : bool :=
  strict_eqb (adm_profileId left) (adm_profileId right) && strict_eqb (adm_schemeId left) (adm_schemeId right) &&
  bytes_eqb (adm_parameterHash left) (adm_parameterHash right) && bytes_eqb (adm_token left) (adm_token right).

Definition sameCostBinding (left right : cost) : bool :=
  (cost_resourceClass left =? cost_resourceClass right) && (cost_leaseClass left =? cost_leaseClass right) &&
  strict_eqb (cost_costUnits left) (cost_costUnits right).

(** The comparison of [confirmAfterEof]. *)
Definition same_binding (echoed b : binding) : bool :=
  sameOperationBinding (b_operation echoed) (b_operation b) && sameAdmissionBinding (b_admission echoed) (b_admission b) &&
  bytes_eqb (b_requestId echoed) (b_requestId b) && bytes_eqb (b_requestCommitment echoed) (b_requestCommitment b) &&
  (b_descriptorSequence echoed =? b_descriptorSequence b) && bytes_eqb (b_descriptorHash echoed) (b_descriptorHash b) &&
  strict_eqb (b_endpointId echoed) (b_endpointId b) && strict_eqb (b_endpointRoleBits echoed) (b_endpointRoleBits b) &&
  sameCostBinding (b_cost echoed) (b_cost b) && bytes_eqb (b_parameterBytes echoed) (b_parameterBytes b).

(** The row of the signed cost table. *)
Definition cost_row (rows familyId operationId : val) (resourceClass leaseClass : Z) : option val :=
  List.find (fun entry => strict_eqb entry.["familyId"] familyId && strict_eqb entry.["operationId"] operationId &&
    is_num entry.["resourceClass"] resourceClass && is_num entry.["leaseClass"] leaseClass) (elems rows).

Definition find_endpoint (descriptor endpointId : val) : option val :=
  List.find (fun entry => strict_eqb entry.["endpointId"] endpointId) (elems descriptor.["endpoints"]).

(** [(left & right) === 0] *)
Definition no_role (left right : val) : bool := js_and (num left) (num right) =? 0.

(** [now < parameters.validFromEpoch || now >= parameters.expiresEpoch ||
    token.byteLength > parameters.tokenMaxBytes] *)
Definition not_redeemable (value : val) (now : Z) (token : bytes) : bool :=
  js_lt (VNum now) value.["validFromEpoch"] || js_le value.["expiresEpoch"] (VNum now) || js_lt value.["tokenMaxBytes"] (VNum (blen token)).

(** ** The state *)

(** What is kept for a preflight authority. *)
Record preflight := {
  pre_binding : binding;
  pre_receiver : nat;
  pre_capability : nat
}.

Record world := {
  descriptors : DescriptorState;
  recordsByHash : list (bytes * parameters);
  parameterBytes : Z;
  (** [PREFLIGHT_AUTHORITIES], those of this coordinator *)
  preflights : list (nat * preflight);
  (** the authorities of the issuer *)
  issued : PostEof.authorities;
  (** the identity of the next object *)
  objects : nat
}.

Definition set_descriptors d w := {| descriptors := d; recordsByHash := recordsByHash w; parameterBytes := parameterBytes w;
  preflights := preflights w; issued := issued w; objects := objects w |}.
Definition set_records r n w := {| descriptors := descriptors w; recordsByHash := r; parameterBytes := n;
  preflights := preflights w; issued := issued w; objects := objects w |}.
Definition set_preflights p w := {| descriptors := descriptors w; recordsByHash := recordsByHash w; parameterBytes := parameterBytes w;
  preflights := p; issued := issued w; objects := objects w |}.
Definition set_issued i w := {| descriptors := descriptors w; recordsByHash := recordsByHash w; parameterBytes := parameterBytes w;
  preflights := preflights w; issued := i; objects := objects w |}.
Definition set_objects n w := {| descriptors := descriptors w; recordsByHash := recordsByHash w; parameterBytes := parameterBytes w;
  preflights := preflights w; issued := issued w; objects := n |}.

Definition on_descriptors {A} (m : M DescriptorState A) : M world A :=
  fun w => let (r, d) := m (descriptors w) in (r, set_descriptors d w).
Definition on_issuer {A} (m : M PostEof.authorities A) : M world A :=
  fun w => let (r, i) := m (issued w) in (r, set_issued i w).

(** [Object.freeze({})] *)
Definition new_object : M world nat :=
  let* n := gets objects in
  modify (set_objects (S n)) ;;*
  ret n.

Record limits := { maxRecords : Z; maxParameterBytes : Z }.

(** The adapter that was resolved: who it is and which methods it has. *)
Record adapter := { receiver : nat; has_prepare : bool; has_preparePreflight : bool; has_confirmAfterEof : bool }.

(** What is awaited: the resolver, the methods of an adapter, with the capability
    that it is shown again; and a promise that is already settled. *)
Inductive request : Type -> Type :=
  | ResolveAdapter (input : val) : request (option adapter)
  | PreparePreflight (receiver : nat) (input : val) : request (option nat)
  | ConfirmAfterEof (receiver : nat) (input : val) (capability : nat) : request val
  | Prepare (receiver : nat) (input : val) : request val
  | AlreadySettled : request unit.

Definition Async (A : Type) : Type := AsyncM world request A.

Section WithHooks.
(** The hooks of the descriptor state, and the verifier of parameters. *)
Context (outside : hooks) (verifyParameters : nat -> val -> result val) (bounds : limits).

Definition epoch : M world Z :=
  let* value := on_descriptors (call (epochNow outside)) in
  match value with
  | VNum n => throwM_if ((n <? 0) || (0xffffffff <? n)) SPEND_INVALID ;;* ret n
  | _ => throw SPEND_INVALID
  end.

(** All that is read of a snapshot that was handed in. *)
Definition snapshot_value (s : snapshot) : val := VObj [("hash", VBytes (snap_hash s))].

Definition currentSnapshot (candidate : val) : M world snapshot :=
  if nullish candidate then
    let* current := on_descriptors (state outside) in
    match current with READY s => ret s | CLOSED _ => throw SPEND_INVALID end
  else
    throwM_if (nullish candidate.["hash"]) SPEND_INVALID ;;*
    let* selected := on_descriptors (selected outside candidate.["hash"]) in
    match selected with
    | Some s =>
        let* usable := on_descriptors (remainsUsable outside (Some s)) in
        if usable then ret s else throw SPEND_INVALID
    | None => throw SPEND_INVALID
    end.

(** ** Parameters *)

Definition sweep (now : Z) : M world unit :=
  let* entries := gets recordsByHash in
  each (fun e : bytes * parameters =>
    if parameters_expires (snd e) <=? now then
      modify (fun w => set_records (map_delete bytes_eqb (fst e) (recordsByHash w)) (parameterBytes w - blen (parameters_bytes (snd e))) w)
    else ret tt) entries.

Definition installParameters (input : val) : M world view :=
  let* canonicalBytes := lift (asBytes input None) in
  let* value := lift (decodeExact canonicalBytes) in
  let* hash := lift (Hash.admissionParametersHash (VBytes canonicalBytes)) in
  let unsignedBytes := without_tail canonicalBytes 64 in
  let* payload := lift (Hash.resultSignaturePayload (VNum RESULT_SIGNATURE_DOMAIN_ID_ADMISSION_PARAMETERS) (VBytes unsignedBytes)) in
  let* verified := on_descriptors (call (fun n => verifyParameters n (VObj [
    ("domainId", VNum RESULT_SIGNATURE_DOMAIN_ID_ADMISSION_PARAMETERS);
    ("publicKey", value.["relayPublicKey"]);
    ("signature", value.["signature"]);
    ("payload", VBytes payload);
    ("canonicalBytes", VBytes canonicalBytes);
    ("parameters", value)]))) in
  throwM_if (negb (is_true verified)) SPEND_INVALID ;;*
  let* value := lift (decodeExact canonicalBytes) in
  let* existing := gets (fun w => map_get bytes_eqb hash (recordsByHash w)) in
  match existing with
  | Some r =>
      throwM_if (negb (bytes_eqb (parameters_bytes r) canonicalBytes)) SPEND_INVALID ;;*
      lift (recordView r)
  | None =>
      let* now := epoch in
      sweep now ;;*
      let* size := gets (fun w => Z.of_nat (List.length (recordsByHash w))) in
      let* used := gets parameterBytes in
      throwM_if ((maxRecords bounds <=? size) || (maxParameterBytes bounds <? used + blen canonicalBytes)) BUSY ;;*
      let r := {| parameters_hash := hash; parameters_bytes := canonicalBytes; parameters_expires := num value.["expiresEpoch"] |} in
      modify (fun w => set_records (map_set bytes_eqb hash r (recordsByHash w)) (parameterBytes w + blen canonicalBytes) w) ;;*
      lift (recordView r)
  end.

Record selection := { sel_profile : val; sel_record : view; sel_redeemable : bool }.

Definition profileRecord (descriptorSnapshot profileId schemeId : val) (onlyRedeemable : bool) : M world (option selection) :=
  if falsy descriptorSnapshot || falsy descriptorSnapshot.["hash"] then ret None
  else
    let* selectedSnapshot := on_descriptors (selected outside descriptorSnapshot.["hash"]) in
    match selectedSnapshot with
    | None => ret None
    | Some s =>
        let descriptor := snap_descriptor s in
        match List.find (fun entry => strict_eqb entry.["profileId"] profileId) (elems descriptor.["admissionProfiles"]) with
        | None => ret None
        | Some profile =>
            if negb (strict_eqb profile.["schemeId"] schemeId) then ret None
            else
              let* found := gets (fun w => map_get bytes_eqb (raw profile.["parameterHash"]) (recordsByHash w)) in
              match found with
              | None => ret None
              | Some r =>
                  let* matches := lift (parameterMatchesProfile r profile descriptor) in
                  if negb matches then ret None
                  else
                    let* value := lift (decodeExact (parameters_bytes r)) in
                    let* now := epoch in
                    let available := js_lt (VNum now) value.["expiresEpoch"] in
                    let redeemable := available && js_le value.["validFromEpoch"] (VNum now) in
                    if negb available || (onlyRedeemable && negb redeemable) then ret None
                    else
                      let* v := lift (recordView r) in
                      ret (Some {| sel_profile := profile; sel_record := v; sel_redeemable := redeemable |})
              end
        end
    end.

(** The [every] of the two functions below. *)
Fixpoint every_profile (s : snapshot) (profiles : list val) (onlyRedeemable : bool) : M world bool :=
  match profiles with
  | [] => ret true
  | profile :: rest =>
      let* found := profileRecord (snapshot_value s) profile.["profileId"] profile.["schemeId"] onlyRedeemable in
      match found with Some _ => every_profile s rest onlyRedeemable | None => ret false end
  end.

Definition all_profiles (descriptorSnapshot : val) (onlyRedeemable : bool) : M world bool :=
  let* s := catch (let* s := currentSnapshot descriptorSnapshot in ret (Some s)) (ret None) in
  match s with
  | None => ret false
  | Some s => every_profile s (elems (snap_descriptor s).["admissionProfiles"]) onlyRedeemable
  end.

Definition descriptorParametersAvailable (descriptorSnapshot : val) : M world bool := all_profiles descriptorSnapshot false.
Definition descriptorProfilesReady (descriptorSnapshot : val) : M world bool := all_profiles descriptorSnapshot true.

Definition parametersForRequest (input descriptorSnapshot : val) : M world (option bytes) :=
  let* s := currentSnapshot descriptorSnapshot in
  let* selected := profileRecord (snapshot_value s) input.["profileId"] input.["schemeId"] false in
  ret (view_bytes <$> (sel_record <$> selected)).

(** ** Preflight *)

Definition preflightBinding (input : val) : M world binding :=
  throwM_if (negb (is_object input)) SPEND_INVALID ;;*
  let* operation := lift (operationBinding input.["profile"]) in
  let* admission := lift (admissionCopy input.["admission"]) in
  let* requestCommitment := lift (asBytes input.["requestCommitment"] (Some (32, 32))) in
  let* requestId := lift (asBytes input.["requestId"] (Some (16, 16))) in
  let* (resourceClass, leaseClass) := lift (costBinding input.["cost"]) in
  let* descriptorSnapshot := currentSnapshot input.["descriptorSnapshot"] in
  let* current := currentSnapshot VNull in
  throwM_if (negb (snap_descriptorSequence descriptorSnapshot =? snap_descriptorSequence current)
    || negb (bytes_eqb (snap_hash descriptorSnapshot) (snap_hash current))) SPEND_INVALID ;;*
  let* selected := profileRecord (snapshot_value descriptorSnapshot) (adm_profileId admission) (adm_schemeId admission) true in
  match selected with
  | None => throw SPEND_INVALID
  | Some selected =>
      throwM_if (negb (sameBytes (VBytes (adm_parameterHash admission)) (sel_profile selected).["parameterHash"])) SPEND_INVALID ;;*
      match (if falsy input.["endpoint"] then None else find_endpoint (snap_descriptor descriptorSnapshot) input.["endpoint"].["endpointId"]) with
      | None => throw SPEND_INVALID
      | Some endpoint =>
          let parameters := view_value (sel_record selected) in
          throwM_if (negb (strict_eqb input.["endpoint"].["roleBits"] endpoint.["roleBits"])
            || no_role parameters.["roleBits"] endpoint.["roleBits"]) SPEND_INVALID ;;*
          let* now := epoch in
          throwM_if (not_redeemable parameters now (adm_token admission)) SPEND_INVALID ;;*
          match cost_row parameters.["resourceCosts"] (VNum (op_familyId operation)) (VNum (op_operationId operation)) resourceClass leaseClass with
          | None => throw SPEND_INVALID
          | Some row =>
              ret {|
                b_operation := operation;
                b_admission := admission;
                b_requestId := requestId;
                b_requestCommitment := requestCommitment;
                b_descriptorSequence := snap_descriptorSequence descriptorSnapshot;
                b_descriptorHash := snap_hash descriptorSnapshot;
                b_endpointId := endpoint.["endpointId"];
                b_endpointRoleBits := endpoint.["roleBits"];
                b_cost := {| cost_resourceClass := resourceClass; cost_leaseClass := leaseClass; cost_costUnits := row.["costUnits"] |};
                b_parameterBytes := view_bytes (sel_record selected)
              |}
          end
      end
  end.

Definition revalidatePreflight (b : binding) : M world snapshot :=
  let* s := currentSnapshot VNull in
  throwM_if (negb (snap_descriptorSequence s =? b_descriptorSequence b) || negb (bytes_eqb (snap_hash s) (b_descriptorHash b))) SPEND_INVALID ;;*
  let* usable := on_descriptors (remainsUsable outside (Some s)) in
  throwM_if (negb usable) SPEND_INVALID ;;*
  let* selected := profileRecord (snapshot_value s) (adm_profileId (b_admission b)) (adm_schemeId (b_admission b)) true in
  match selected with
  | None => throw SPEND_INVALID
  | Some selected =>
      throwM_if (negb (sameBytes (sel_profile selected).["parameterHash"] (VBytes (adm_parameterHash (b_admission b))))
        || negb (bytes_eqb (view_bytes (sel_record selected)) (b_parameterBytes b))) SPEND_INVALID ;;*
      let parameters := view_value (sel_record selected) in
      match find_endpoint (snap_descriptor s) (b_endpointId b) with
      | None => throw SPEND_INVALID
      | Some endpoint =>
          throwM_if (negb (strict_eqb endpoint.["roleBits"] (b_endpointRoleBits b)) || no_role parameters.["roleBits"] endpoint.["roleBits"]) SPEND_INVALID ;;*
          let* now := epoch in
          throwM_if (not_redeemable parameters now (adm_token (b_admission b))) SPEND_INVALID ;;*
          match cost_row parameters.["resourceCosts"] (VNum (op_familyId (b_operation b))) (VNum (op_operationId (b_operation b)))
                  (cost_resourceClass (b_cost b)) (cost_leaseClass (b_cost b)) with
          | None => throw SPEND_INVALID
          | Some row =>
              throwM_if (negb (strict_eqb row.["costUnits"] (cost_costUnits (b_cost b)))) SPEND_INVALID ;;*
              ret s
          end
      end
  end.

Definition cost_value (c : cost) : val := VObj [
  ("resourceClass", VNum (cost_resourceClass c)); ("leaseClass", VNum (cost_leaseClass c)); ("costUnits", cost_costUnits c)].

Definition admission_value (a : admission) : val := VObj [
  ("profileId", adm_profileId a); ("schemeId", adm_schemeId a); ("parameterHash", VBytes (adm_parameterHash a)); ("token", VBytes (adm_token a))].

(** The capability that goes with it is an argument of the request. *)
Definition adapterPreflightInput (b : binding) : result val :=
  let! parameters := decodeExact (b_parameterBytes b) in
  Ok (VObj [
    ("admission", admission_value (b_admission b));
    ("familyId", VNum (op_familyId (b_operation b)));
    ("operationId", VNum (op_operationId (b_operation b)));
    ("costClass", cost_value (b_cost b));
    ("requestCommitment", VBytes (b_requestCommitment b));
    ("parameters", parameters);
    ("endpointId", b_endpointId b);
    ("endpointRoleBits", b_endpointRoleBits b);
    ("descriptorSequence", VBig (b_descriptorSequence b));
    ("descriptorHash", VBytes (b_descriptorHash b));
    ("mutationAllowed", VBool false)]).

Definition preparePreflight (input : val) : Async nat :=
  let^ b := sync (preflightBinding input) in
  let^ s := sync (revalidatePreflight b) in
  let^ parameters := sync (lift (decodeExact (b_parameterBytes b))) in
  let^ resolved := await (ResolveAdapter (VObj [
    ("profileId", adm_profileId (b_admission b));
    ("schemeId", adm_schemeId (b_admission b));
    ("parameterHash", VBytes (adm_parameterHash (b_admission b)));
    ("descriptor", snap_descriptor s);
    ("parameters", parameters);
    ("endpointId", b_endpointId b);
    ("endpointRoleBits", b_endpointRoleBits b)])) in
  match resolved with
  | Some a =>
      sync (throwM_if (negb (has_preparePreflight a) || negb (has_confirmAfterEof a)) SPEND_INVALID) ;;^
      let^ shown := sync (lift (adapterPreflightInput b)) in
      let^ answer := await (PreparePreflight (receiver a) shown) in
      match answer with
      | Some capability =>
          sync (let* _ := revalidatePreflight b in
                let* authority := new_object in
                modify (fun w => set_preflights (preflights w ++ [(authority, {| pre_binding := b; pre_receiver := receiver a; pre_capability := capability |})]) w) ;;*
                ret authority)
      | None => sync (throw SPEND_INVALID)
      end
  | None => sync (throw SPEND_INVALID)
  end.

(** ** Confirmation *)

Record proof := {
  spendTag : bytes;
  proof_requestCommitment : bytes;
  costClass : cost;
  walCommitRecord : bytes;
  proof_profileId : val;
  proof_schemeId : val;
  proof_parameterHash : bytes
}.

(** What the adapter returned must be about this very binding. *)
Definition check_proof (prepared : val) (b : binding) : result proof :=
  spend_if (negb (is_object prepared)) ;;!
  let! spendTag := asBytes prepared.["spendTag"] (Some (32, 32)) in
  let! requestCommitment := asBytes prepared.["requestCommitment"] (Some (32, 32)) in
  let! parameterHash := asBytes prepared.["parameterHash"] (Some (32, 32)) in
  let! walCommitRecord := asBytes prepared.["walCommitRecord"] (Some (1, MAX_WAL_COMMIT_RECORD_BYTES)) in
  let preparedCost := prepared.["costClass"] in
  spend_if (negb (nonzero spendTag) || negb (bytes_eqb requestCommitment (b_requestCommitment b))
    || negb (strict_eqb prepared.["profileId"] (adm_profileId (b_admission b))) || negb (strict_eqb prepared.["schemeId"] (adm_schemeId (b_admission b)))
    || negb (bytes_eqb parameterHash (adm_parameterHash (b_admission b))) || falsy preparedCost
    || negb (is_num preparedCost.["resourceClass"] (cost_resourceClass (b_cost b)))
    || negb (is_num preparedCost.["leaseClass"] (cost_leaseClass (b_cost b)))) ;;!
  let! units := u64 preparedCost.["costUnits"] in
  spend_if (negb (strict_eqb (VBig units) (cost_costUnits (b_cost b)))) ;;!
  Ok {| spendTag := spendTag; proof_requestCommitment := requestCommitment; costClass := b_cost b; walCommitRecord := walCommitRecord;
    proof_profileId := adm_profileId (b_admission b); proof_schemeId := adm_schemeId (b_admission b); proof_parameterHash := adm_parameterHash (b_admission b) |}.

(** What the issuer is shown. *)
Definition consumption (b : binding) : val := VObj [
  ("descriptorSequence", VBig (b_descriptorSequence b));
  ("descriptorHash", VBytes (b_descriptorHash b));
  ("endpointId", b_endpointId b);
  ("familyId", VNum (op_familyId (b_operation b)));
  ("operationId", VNum (op_operationId (b_operation b)));
  ("requestId", VBytes (b_requestId b));
  ("requestCommitment", VBytes (b_requestCommitment b))].

(** The authority is spent by every attempt. *)
Definition confirm_begin (authority : option nat) (input : val) (postEofAuthority : option nat) : M world (preflight * bool) :=
  match authority with
  | None => throw SPEND_INVALID
  | Some authority =>
      let* found := gets (fun w => PostEof.find_authority authority (preflights w)) in
      match found with
      | None => throw SPEND_INVALID
      | Some retained =>
          modify (fun w => set_preflights (PostEof.delete_authority authority (preflights w)) w) ;;*
          let* echoed := preflightBinding input in
          throwM_if (negb (same_binding echoed (pre_binding retained))) SPEND_INVALID ;;*
          let* _ := revalidatePreflight (pre_binding retained) in
          throwM_if (match postEofAuthority with Some _ => false | None => true end) SPEND_INVALID ;;*
          let* consumed := on_issuer (PostEof.consume postEofAuthority (consumption (pre_binding retained))) in
          ret (retained, consumed)
      end
  end.

Definition confirmAfterEof (authority : option nat) (input : val) (postEofAuthority : option nat) : Async proof :=
  let^ (retained, consumed) := sync (confirm_begin authority input postEofAuthority) in
  let^ _ := await AlreadySettled in
  let b := pre_binding retained in
  sync (throwM_if (negb consumed) SPEND_INVALID ;;* let* _ := revalidatePreflight b in ret tt) ;;^
  let^ shown := sync (lift (adapterPreflightInput b)) in
  let^ prepared := await (ConfirmAfterEof (pre_receiver retained) shown (pre_capability retained)) in
  sync (let* _ := revalidatePreflight b in lift (check_proof prepared b)).

(** ** Admission in one step *)

(** Up to the first await: the snapshot, the admission, the cost and the bytes
    of the parameters, when there is an admission to check. *)
Record quote := {
  q_snapshot : snapshot;
  q_descriptor : val;
  q_admission : admission;
  q_requestCommitment : bytes;
  q_endpoint : val;
  q_profile : val;
  q_cost : cost;
  q_parameters : val;
  q_parameterBytes : bytes
}.

Definition prepare_quote (input : val) (admission : admission) : M world quote :=
  let profile := input.["profile"] in
  let* requestCommitment := lift (asBytes input.["requestCommitment"] (Some (32, 32))) in
  let* descriptorSnapshot := currentSnapshot input.["descriptorSnapshot"] in
  let* selected := profileRecord (snapshot_value descriptorSnapshot) (adm_profileId admission) (adm_schemeId admission) true in
  match selected with
  | None => throw SPEND_INVALID
  | Some selected =>
      throwM_if (negb (sameBytes (VBytes (adm_parameterHash admission)) (sel_profile selected).["parameterHash"])) SPEND_INVALID ;;*
      let* endpointId := lift (getx input.["endpoint"] "endpointId") in
      match find_endpoint (snap_descriptor descriptorSnapshot) endpointId with
      | None => throw SPEND_INVALID
      | Some endpoint =>
          let parameters := view_value (sel_record selected) in
          throwM_if (no_role parameters.["roleBits"] endpoint.["roleBits"]) SPEND_INVALID ;;*
          let* (resourceClass, leaseClass) := lift (costBinding input.["cost"]) in
          let* now := epoch in
          throwM_if (not_redeemable parameters now (adm_token admission)) SPEND_INVALID ;;*
          match cost_row parameters.["resourceCosts"] profile.["familyId"] profile.["operationId"] resourceClass leaseClass with
          | None => throw SPEND_INVALID
          | Some row =>
              let* again := currentSnapshot (snapshot_value descriptorSnapshot) in
              let* parameters := lift (decodeExact (view_bytes (sel_record selected))) in
              ret {| q_snapshot := descriptorSnapshot; q_descriptor := snap_descriptor again; q_admission := admission; q_requestCommitment := requestCommitment; q_endpoint := endpoint;
                q_profile := profile; q_cost := {| cost_resourceClass := resourceClass; cost_leaseClass := leaseClass; cost_costUnits := row.["costUnits"] |};
                q_parameters := parameters; q_parameterBytes := view_bytes (sel_record selected) |}
          end
      end
  end.

Definition usable (s : snapshot) : M world bool := on_descriptors (remainsUsable outside (Some s)).

(** After the adapter was resolved. *)
Definition requote (a : adapter) (q : quote) : M world quote :=
  throwM_if (negb (has_prepare a)) SPEND_INVALID ;;*
  let* still := usable (q_snapshot q) in
  throwM_if (negb still) SPEND_INVALID ;;*
  let* parameters := lift (decodeExact (q_parameterBytes q)) in
  match cost_row parameters.["resourceCosts"] (q_profile q).["familyId"] (q_profile q).["operationId"]
          (cost_resourceClass (q_cost q)) (cost_leaseClass (q_cost q)) with
  | None => throw SPEND_INVALID
  | Some row =>
      ret {| q_snapshot := q_snapshot q; q_descriptor := q_descriptor q; q_admission := q_admission q; q_requestCommitment := q_requestCommitment q;
        q_endpoint := q_endpoint q; q_profile := q_profile q; q_parameters := parameters; q_parameterBytes := q_parameterBytes q;
        q_cost := {| cost_resourceClass := cost_resourceClass (q_cost q); cost_leaseClass := cost_leaseClass (q_cost q); cost_costUnits := row.["costUnits"] |} |}
  end.

(** The checks of what the adapter prepared. *)
Definition check_prepared (prepared : val) (q : quote) : M world proof :=
  throwM_if (negb (is_object prepared)) SPEND_INVALID ;;*
  let* still := usable (q_snapshot q) in
  throwM_if (negb still) SPEND_INVALID ;;*
  let* spendTag := lift (asBytes prepared.["spendTag"] (Some (32, 32))) in
  let* preparedCommitment := lift (asBytes prepared.["requestCommitment"] (Some (32, 32))) in
  let* parameterHash := lift (asBytes prepared.["parameterHash"] (Some (32, 32))) in
  let* walCommitRecord := lift (asBytes prepared.["walCommitRecord"] (Some (1, MAX_WAL_COMMIT_RECORD_BYTES))) in
  let preparedCost := prepared.["costClass"] in
  let a := q_admission q in
  throwM_if (negb (nonzero spendTag) || negb (bytes_eqb preparedCommitment (q_requestCommitment q))
    || negb (strict_eqb prepared.["profileId"] (adm_profileId a)) || negb (strict_eqb prepared.["schemeId"] (adm_schemeId a))
    || negb (bytes_eqb parameterHash (adm_parameterHash a)) || falsy preparedCost
    || negb (is_num preparedCost.["resourceClass"] (cost_resourceClass (q_cost q)))
    || negb (is_num preparedCost.["leaseClass"] (cost_leaseClass (q_cost q)))) SPEND_INVALID ;;*
  let* units := lift (u64 preparedCost.["costUnits"]) in
  throwM_if (negb (strict_eqb (VBig units) (cost_costUnits (q_cost q)))) SPEND_INVALID ;;*
  let* now := epoch in
  throwM_if (js_lt (VNum now) (q_parameters q).["validFromEpoch"]) SPEND_INVALID ;;*
  let* now := epoch in
  throwM_if (js_le (q_parameters q).["expiresEpoch"] (VNum now)) SPEND_INVALID ;;*
  ret {| spendTag := spendTag; proof_requestCommitment := preparedCommitment; costClass := q_cost q; walCommitRecord := walCommitRecord;
    proof_profileId := adm_profileId a; proof_schemeId := adm_schemeId a; proof_parameterHash := adm_parameterHash a |}.

(** With an admission to check. *)
Definition prepare_admitted (input : val) (admission : admission) : Async proof :=
  let^ q := sync (prepare_quote input admission) in
  let^ resolved := await (ResolveAdapter (VObj [
    ("profileId", adm_profileId admission);
    ("schemeId", adm_schemeId admission);
    ("parameterHash", VBytes (adm_parameterHash admission));
    ("descriptor", q_descriptor q);
    ("parameters", q_parameters q);
    ("endpointId", (q_endpoint q).["endpointId"]);
    ("endpointRoleBits", (q_endpoint q).["roleBits"])])) in
  match resolved with
  | Some a =>
      let^ q := sync (requote a q) in
      let^ prepared := await (Prepare (receiver a) (VObj [
        ("admission", admission_value admission);
        ("familyId", (q_profile q).["familyId"]);
        ("operationId", (q_profile q).["operationId"]);
        ("costClass", cost_value (q_cost q));
        ("requestCommitment", VBytes (q_requestCommitment q));
        ("parameters", q_parameters q);
        ("endpointId", (q_endpoint q).["endpointId"])])) in
      sync (check_prepared prepared q)
  | None => sync (throw SPEND_INVALID)
  end.

Definition prepare (input : val) : Async (option proof) :=
  let^ admission := sync (lift (
    if nullish input.["admission"] then Ok None
    else let! parameterHash := asBytes input.["admission"].["parameterHash"] (Some (32, 32)) in
         let! token := asBytes input.["admission"].["token"] (Some (1, 65535)) in
         Ok (Some {| adm_profileId := input.["admission"].["profileId"]; adm_schemeId := input.["admission"].["schemeId"];
           adm_parameterHash := parameterHash; adm_token := token |}))) in
  let^ mode := sync (lift (getx input.["profile"] "admissionMode")) in
  match admission with
  | None =>
      if is_num mode ADMISSION_MODE_NONE then sync (ret None)
      else if is_num mode ADMISSION_MODE_REQUIRED then sync (throw SPEND_REQUIRED) else sync (ret None)
  | Some a =>
      if is_num mode ADMISSION_MODE_NONE then sync (throw BAD_ENCODING)
      else let^ p := prepare_admitted input a in sync (ret (Some p))
  end.

End WithHooks.

(** ** Construction *)

Definition bounded_option (value : val) (default minimum maximum : Z) : result Z :=
  let value := if nullish value then VNum default else value in
  match value with
  | VNum n => throw_if (negb (isSafeInteger n) || (n <? minimum) || (maximum <? n)) TypeError ;;! Ok n
  | _ => Err TypeError
  end.

(** Next to a descriptor state and a new issuer. *)
Definition newCoordinator (options : val) (d : DescriptorState) : result (limits * world) :=
  let! maxRecords := bounded_option options.["maxRecords"] 64 1 4096 in
  let! maxParameterBytes := bounded_option options.["maxParameterBytes"] (1024 * 1024) (16 * 1024) (64 * 1024 * 1024) in
  Ok ({| maxRecords := maxRecords; maxParameterBytes := maxParameterBytes |},
      {| descriptors := d; recordsByHash := []; parameterBytes := 0; preflights := []; issued := []; objects := 0 |}).

(** The issuer's [mint], by the server: the new object is its authority. *)
Definition mint (input : val) : M world nat :=
  let* authority := new_object in
  on_issuer (PostEof.mint authority input).

End WithPlatform.
End Admission.
