(* ===== verification/AdmissionLaws.v ===== *)
(** * What the admission coordinator promises

    The coordinator, its descriptor state and its issuer, with any number of
    calls in progress that go on in any order and get any answers. *)

From Stdlib Require Import ZArith Lia Bool List String Ascii.
From Stdlib Require Import Strings.Byte.
From stdpp Require Import base tactics list strings relations.
From S2P Require Import Prelude JsMap AsyncCalls Codec CodecLaws Authority Hashes SchemaKit SchemasDescribe Accepted DescriptorState DescriptorChain DescriptorBooks DescriptorLaws PostEofAuthority AdmissionCoordinator.
Import Descriptor Admission.

Section Laws.
Context `{Platform} (outside : hooks) (policy : config) (verifyParameters : nat -> val -> result val) (bounds : limits).

(** ** Invariants that every step keeps *)

(** What a signed parameter set says about a binding. *)
Record bound (b : binding) : Prop := {
  bound_parameters : exists v row, decodeExact (b_parameterBytes b) = Ok v /\ In row (elems v.["resourceCosts"]) /\
    row.["familyId"] = VNum (op_familyId (b_operation b)) /\ row.["operationId"] = VNum (op_operationId (b_operation b)) /\
    row.["resourceClass"] = VNum (cost_resourceClass (b_cost b)) /\ row.["leaseClass"] = VNum (cost_leaseClass (b_cost b)) /\
    row.["costUnits"] = cost_costUnits (b_cost b) /\ js_lt v.["tokenMaxBytes"] (VNum (blen (adm_token (b_admission b)))) = false;
  bound_requestId : blen (b_requestId b) = 16;
  bound_commitment : blen (b_requestCommitment b) = 32;
  bound_admitted : op_admissionMode (b_operation b) <> ADMISSION_MODE_NONE
}.

(** Signed parameters: the verifier accepted their signature over their bytes
    without it, under the relay key they name. *)
Definition verified (bs : bytes) (v : val) : Prop := decodeExact bs = Ok v /\ exists n payload,
  Hash.resultSignaturePayload (VNum RESULT_SIGNATURE_DOMAIN_ID_ADMISSION_PARAMETERS) (VBytes (without_tail bs 64)) = Ok payload /\
  verifyParameters n (VObj [
    ("domainId", VNum RESULT_SIGNATURE_DOMAIN_ID_ADMISSION_PARAMETERS); ("publicKey", v.["relayPublicKey"]); ("signature", v.["signature"]);
    ("payload", VBytes payload); ("canonicalBytes", VBytes bs); ("parameters", v)]) = Ok (VBool true).

(** A record of verified parameters, under their hash. *)
Definition installed (r : parameters) : Prop := exists v, verified (parameters_bytes r) v /\
  Hash.admissionParametersHash (VBytes (parameters_bytes r)) = Ok (parameters_hash r) /\ parameters_expires r = num v.["expiresEpoch"].

(** The coordinator holds the parameters of this binding. *)
Definition held (b : binding) (w : world) : Prop := exists r, map_get bytes_eqb (adm_parameterHash (b_admission b)) (recordsByHash w) = Some r /\
  parameters_bytes r = b_parameterBytes b.

(** The parameters of a binding were verified, and are those its admission names. *)
Definition vouched (b : binding) : Prop := exists v, verified (b_parameterBytes b) v /\
  Hash.admissionParametersHash (VBytes (b_parameterBytes b)) = Ok (adm_parameterHash (b_admission b)).

(** Steps of the descriptor state, and calls of its clock. *)
Record reading (I : world -> Prop) : Prop := {
  on_calls : forall n w, I w -> I (set_descriptors (set_calls n (descriptors w)) w);
  on_step : forall d w, I w -> descriptor_step outside policy (descriptors w) d -> I (set_descriptors d w)
}.

(** The steps that change something, one by one. *)
Record stable (I : world -> Prop) : Prop := {
  stable_reading : reading I;
  on_sweep : forall now w, I w -> I (snd (sweep now w));
  on_install : forall bs v h w, I w -> verified bs v -> Hash.admissionParametersHash (VBytes bs) = Ok h ->
    map_get bytes_eqb h (recordsByHash w) = None ->
    Z.of_nat (List.length (recordsByHash w)) < maxRecords bounds -> parameterBytes w + blen bs <= maxParameterBytes bounds ->
    I (set_records (map_set bytes_eqb h {| parameters_hash := h; parameters_bytes := bs; parameters_expires := num v.["expiresEpoch"] |} (recordsByHash w))
      (parameterBytes w + blen bs) w);
  on_object : forall w, I w -> I (set_objects (S (objects w)) w);
  on_preflight : forall p w, I w -> bound (pre_binding p) -> held (pre_binding p) w ->
    I (set_preflights (preflights w ++ [(objects w, p)]) (set_objects (S (objects w)) w));
  on_burn : forall a w, I w -> I (set_preflights (PostEof.delete_authority a (preflights w)) w);
  on_mint : forall r w, I w -> I (set_issued (issued w ++ [(objects w, r)]) (set_objects (S (objects w)) w));
  on_consume : forall a w, I w -> I (set_issued (PostEof.delete_authority a (issued w)) w)
}.

Lemma set_descriptors_same w : set_descriptors (descriptors w) w = w.
Proof. by destruct w. Qed.

Lemma set_issued_same w : set_issued (issued w) w = w.
Proof. by destruct w. Qed.

Lemma epoch_run w : exists n, snd (epoch outside w) = set_descriptors (set_calls n (descriptors w)) w.
Proof.
  unfold epoch, on_descriptors, call, bindM. cbn. destruct (epochNow outside _) as [v|]; cbn; [|by eexists].
  destruct v; try by eexists. unfold throwM_if, lift, throw_if. destruct (_ || _); by eexists.
Qed.

Lemma map_get_deleted {V} h h' (entries : list (bytes * V)) : map_get bytes_eqb h entries = None -> map_get bytes_eqb h (map_delete bytes_eqb h' entries) = None.
Proof.
  unfold map_get, map_delete. induction entries as [|e entries IH]; [done|]. cbn. destruct (bytes_eqb (fst e) h) eqn:E; [done|].
  intros Hn. destruct (bytes_eqb (fst e) h'); cbn; [by apply IH|]. rewrite E. by apply IH.
Qed.

Lemma sweep_absent now h : preserves (fun w => map_get bytes_eqb h (recordsByHash w) = None) (sweep now).
Proof. unfold sweep. keeping. apply preserves_modify. intros w Hw. by apply map_get_deleted. Qed.

(** Sweeping changes nothing but the records. *)
Lemma sweep_else now w : exists r n, snd (sweep now w) = set_records r n w.
Proof.
  apply (preserves_each (fun w' => exists r n, w' = set_records r n w)); [|exists (recordsByHash w), (parameterBytes w); by destruct w].
  intros e. case_match; [|apply preserves_ret]. apply preserves_modify. intros w' (r & n & ->). by eexists _, _.
Qed.

Section Reading.
Context (I : world -> Prop) (HI : reading I).

Lemma keeps_call hook : preserves I (on_descriptors (call hook)).
Proof. intros w Hw. unfold on_descriptors, call. cbn. by apply (on_calls I HI). Qed.

Lemma keeps_step {A} (m : M DescriptorState A) : (forall d, descriptor_step outside policy d (snd (m d))) -> preserves I (on_descriptors m).
Proof. intros Hm w Hw. unfold on_descriptors. specialize (Hm (descriptors w)). destruct (m _) as [r d]. by apply (on_step I HI). Qed.

Lemma keeps_state : preserves I (on_descriptors (state outside)).
Proof. apply keeps_step. intros d. destruct (state outside d) as [r d'] eqn:E. by eapply step_state. Qed.
Lemma keeps_selected h : preserves I (on_descriptors (selected outside h)).
Proof. apply keeps_step. intros d. destruct (selected outside h d) as [r d'] eqn:E. by eapply step_selected. Qed.
Lemma keeps_usable t : preserves I (on_descriptors (remainsUsable outside t)).
Proof. apply keeps_step. intros d. destruct (remainsUsable outside t d) as [r d'] eqn:E. by eapply step_remainsUsable. Qed.

#[local] Hint Resolve keeps_call keeps_state keeps_selected keeps_usable : keeps.

Lemma keeps_epoch : preserves I (epoch outside).
Proof. unfold epoch. keeping. Qed.
#[local] Hint Resolve keeps_epoch : keeps.

Lemma keeps_current c : preserves I (currentSnapshot outside c).
Proof. unfold currentSnapshot. keeping. Qed.
#[local] Hint Resolve keeps_current : keeps.

Lemma keeps_profile s p c r : preserves I (profileRecord outside s p c r).
Proof. unfold profileRecord. keeping. Qed.
#[local] Hint Resolve keeps_profile : keeps.

Lemma keeps_every s ps r : preserves I (every_profile outside s ps r).
Proof. induction ps as [|p ps IH]; cbn [every_profile]; keeping. Qed.
#[local] Hint Resolve keeps_every : keeps.

Lemma keeps_all_profiles s r : preserves I (all_profiles outside s r).
Proof. unfold all_profiles. keeping. Qed.

Lemma keeps_parametersForRequest i s : preserves I (parametersForRequest outside i s).
Proof. unfold parametersForRequest. keeping. Qed.

Lemma keeps_binding input : preserves I (preflightBinding outside input).
Proof. unfold preflightBinding. keeping. Qed.

Lemma keeps_revalidate b : preserves I (revalidatePreflight outside b).
Proof. unfold revalidatePreflight. keeping. Qed.
#[local] Hint Resolve keeps_binding keeps_revalidate : keeps.

Lemma keeps_quote input a : preserves I (prepare_quote outside input a).
Proof. unfold prepare_quote. keeping. Qed.

Lemma keeps_requote a q : preserves I (requote outside a q).
Proof. unfold requote, Admission.usable. keeping. Qed.

Lemma keeps_prepared v q : preserves I (check_prepared outside v q).
Proof. unfold check_prepared, Admission.usable. keeping. Qed.

End Reading.

Section Stable.
Context (I : world -> Prop) (HI : stable I).

(** *** Operations that change something *)

#[local] Hint Resolve stable_reading keeps_call keeps_state keeps_selected keeps_usable keeps_epoch keeps_current keeps_profile keeps_every
  keeps_binding keeps_revalidate keeps_quote keeps_requote keeps_prepared : keeps.

Lemma keeps_install input : preserves I (installParameters outside verifyParameters bounds input).
Proof.
  intros w Hw. unfold installParameters. autorewrite with machine. destruct (asBytes _ _) as [bs|]; [|done]. autorewrite with machine.
  destruct (decodeExact bs) as [v|] eqn:Hv; [|done]. autorewrite with machine. destruct (Hash.admissionParametersHash _) as [h|] eqn:Hh; [|done].
  autorewrite with machine. destruct (Hash.resultSignaturePayload _ _) as [payload|] eqn:Hp; [|done]. cbv zeta.
  unfold bindM at 1. unfold on_descriptors at 1. unfold call at 1. autorewrite with machine. unfold lift at 1. set (w1 := set_descriptors _ w).
  assert (Hw1 : I w1) by (by apply (on_calls I (stable_reading I HI))). destruct (verifyParameters _ _) as [ok|] eqn:Hok; [|done].
  autorewrite with machine. destruct (is_true ok) eqn:Ht; cbn [negb]; [|done]. apply true_value in Ht as ->.
  autorewrite with machine. destruct (map_get _ _ _) as [r|] eqn:Hm; [by apply preserves_bind; auto with keeps|].
  destruct (epoch_run w1) as [n He]. unfold bindM at 1. destruct (epoch outside w1) as [[now|] w2]; cbn [snd] in He; subst w2; [|exact (on_calls I (stable_reading I HI) n _ Hw1)].
  pose proof (on_sweep I HI now _ (on_calls I (stable_reading I HI) n _ Hw1)) as Hw3. pose proof (sweep_absent now h (set_descriptors (set_calls n (descriptors w1)) w1) Hm) as Hm3.
  unfold bindM at 1. destruct (sweep now _) as [[[]|] w3]; [|exact Hw3]. autorewrite with machine.
  destruct (_ || _) eqn:Eb; [exact Hw3|]. autorewrite with machine. b2p. cbn in Hw3, Hm3.
  apply (preserves_lift I). apply (on_install I HI bs v h); try done. split; [done|]. by exists (calls (descriptors w)), payload.
Qed.

Lemma mint_run n input i : snd (PostEof.mint n input i) = i \/ exists r, snd (PostEof.mint n input i) = i ++ [(n, r)].
Proof. unfold PostEof.mint. repeat (autorewrite with machine; try (case_match; try by left)). right. by eexists. Qed.

Lemma keeps_mint input : preserves I (mint input).
Proof.
  intros w Hw. unfold mint, new_object. autorewrite with machine. unfold on_issuer. cbn [issued set_objects].
  destruct (mint_run (objects w) input (issued w)) as [He|[r He]]; destruct (PostEof.mint _ _ _) as [res i]; cbn [snd] in *; subst i.
  - exact (on_object I HI w Hw).
  - exact (on_mint I HI r w Hw).
Qed.

Lemma consume_run a input i : snd (PostEof.consume a input i) = i \/ exists n, a = Some n /\ snd (PostEof.consume a input i) = PostEof.delete_authority n i.
Proof.
  unfold PostEof.consume. destruct a as [n|]; [|by left]. autorewrite with machine. destruct (PostEof.find_authority n i); [|by left].
  right. exists n. split; [done|]. repeat (autorewrite with machine; try (case_match; try done)).
Qed.

Lemma admission_keeps_consume a input : preserves I (on_issuer (PostEof.consume a input)).
Proof.
  intros w Hw. unfold on_issuer. destruct (consume_run a input (issued w)) as [He|(n & -> & He)];
    destruct (PostEof.consume _ _ _) as [r i]; cbn in *; subst i; [by rewrite set_issued_same|by apply (on_consume I HI)].
Qed.

Lemma keeps_confirm_begin a input e : preserves I (confirm_begin outside a input e).
Proof.
  unfold confirm_begin. pose proof admission_keeps_consume. keeping. apply preserves_modify. intros w. by apply (on_burn I HI).
Qed.

End Stable.
(** ** What a successful run has seen *)

(** Only the clock was asked. *)
Definition quietly (w w' : world) : Prop := exists n, w' = set_descriptors (set_calls n (descriptors w)) w.

Lemma quietly_trans w1 w2 w3 : quietly w1 w2 -> quietly w2 w3 -> quietly w1 w3.
Proof. intros [n ->] [m ->]. by exists m. Qed.

Lemma quietly_refl w : quietly w w.
Proof. exists (calls (descriptors w)). by destruct w as [[] ? ? ? ? ?]. Qed.

Lemma on_descriptors_ok {A} (m : M DescriptorState A) w x w' : on_descriptors m w = (Ok x, w') ->
  exists d, m (descriptors w) = (Ok x, d) /\ w' = set_descriptors d w.
Proof. unfold on_descriptors. destruct (m _) as [r d]. intros [= -> <-]. by exists d. Qed.

Lemma call_ok hook d v d' : call hook d = (Ok v, d') -> hook (calls d) = Ok v /\ quiet d d'.
Proof. unfold call. autorewrite with machine. unfold lift. intros [= Hh <-]. split; [done|by eexists]. Qed.

Lemma admission_epoch_ok w now w' : epoch outside w = (Ok now, w') -> quietly w w' /\ exists n, epochNow outside n = Ok (VNum now).
Proof.
  unfold epoch. intros He. apply bindM_ok in He as (v & w1 & Hc & He). apply on_descriptors_ok in Hc as (d & [Hn [m ->]]%call_ok & ->).
  destruct v; try done. run_ok. split; [by exists m|by eexists].
Qed.

Lemma state_ok d t d' : state outside d = (Ok (READY t), d') -> quiet d d' /\ fault d = None /\ exists c, currentRecord d = Some c /\ snapshotFor c = Ok t.
Proof.
  unfold state. autorewrite with machine. destruct (fault d); [done|]. destruct (currentRecord d) as [c|]; [|done]. intros Hs.
  apply bindM_ok in Hs as (now & d1 & He & Hs). assert (Hq : quiet d d) by reflexivity. destruct (outcome_ok _ _ _ _ _ (epoch_spec outside d d Hq) He) as [_ Hq1].
  repeat (case_match; [by discriminate Hs|]). run_ok. match goal with Hx : READY _ = READY _ |- _ => injection Hx as -> end. by eauto.
Qed.

Lemma historical_ok h d t d' : nullish h = false -> selected outside h d = (Ok (Some t), d') ->
  d' = d /\ exists bs r, h = VBytes bs /\ map_get bytes_eqb bs (byHash d) = Some r /\ snapshotFor r = Ok t.
Proof.
  unfold selected, historical. intros ->. intros Hs. run_ok. unfold gets in *. simplify_eq. destruct (map_get _ _ _) as [r|] eqn:Er; run_ok; [|done].
  match goal with Hx : Some _ = Some _ |- _ => injection Hx as -> end. split; [done|]. destruct h; try done.
  match goal with Hx : Descriptor.asBytes _ _ = Ok _ |- _ => apply bindR_ok in Hx as ([] & _ & [= ->]) end. eauto.
Qed.

Lemma admission_call_quiet d0 hook : preserves (quiet d0) (call hook).
Proof. intros d [n ->]. unfold call. by eexists. Qed.

Lemma usable_quiet d0 t : preserves (quiet d0) (remainsUsable outside t).
Proof. unfold remainsUsable, recordForSnapshot, currentEpoch. pose proof (admission_call_quiet d0 (epochNow outside)). keeping. Qed.

Lemma remains_ok t w b w' : on_descriptors (remainsUsable outside t) w = (Ok b, w') -> quietly w w'.
Proof.
  intros Hu. apply on_descriptors_ok in Hu as (d & Hu & ->). pose proof (usable_quiet (descriptors w) t (descriptors w) (quiet_refl _)) as Hq.
  rewrite Hu in Hq. destruct Hq as [n Hq]. cbn in Hq. subst d. by exists n.
Qed.

(** A profile of the descriptor with this hash, with its installed parameters. *)
Record chosen (w : world) (h : bytes) (profileId schemeId : val) (sel : selection) : Prop := {
  chosen_profile : exists r t, map_get bytes_eqb h (byHash (descriptors w)) = Some r /\ snapshotFor r = Ok t /\
    In (sel_profile sel) (elems (snap_descriptor t).["admissionProfiles"]) /\
    (view_value (sel_record sel)).["relayPublicKey"] = (snap_descriptor t).["relayPublicKey"];
  chosen_ids : strict_eqb (sel_profile sel).["profileId"] profileId = true /\ strict_eqb (sel_profile sel).["schemeId"] schemeId = true;
  chosen_record : exists r, map_get bytes_eqb (raw (sel_profile sel).["parameterHash"]) (recordsByHash w) = Some r /\
    view_bytes (sel_record sel) = parameters_bytes r;
  chosen_value : decodeExact (view_bytes (sel_record sel)) = Ok (view_value (sel_record sel))
}.

Lemma profile_ok s profileId schemeId w sel w' : profileRecord outside (snapshot_value s) profileId schemeId true w = (Ok (Some sel), w') ->
  quietly w w' /\ chosen w (snap_hash s) profileId schemeId sel.
Proof.
  unfold profileRecord. cbn [falsy orb]. intros Hp. apply bindM_ok in Hp as ([t|] & w1 & Hs & Hp); [|by run_ok].
  apply on_descriptors_ok in Hs as (d & Hs & ->). apply historical_ok in Hs as (-> & bs & r & Hbs & Hr & Ht); [|done]. injection Hbs as <-.
  rewrite set_descriptors_same in Hp. destruct (List.find _ _) as [profile|] eqn:Ef; [|by run_ok]. apply List.find_some in Ef as [Hin Hid].
  destruct (strict_eqb profile.["schemeId"] schemeId) eqn:Es; cbn [negb] in Hp; [|by run_ok].
  apply bindM_ok in Hp as (found & w2 & Hg & Hp). injection Hg as <- <-. destruct (map_get _ _ (recordsByHash w)) as [pr|] eqn:Ep; [|by run_ok].
  apply bindM_ok in Hp as (matches & w3 & Hm & Hp). apply lift_ok in Hm as [Hm ->]. destruct matches; cbn [negb] in Hp; [|by run_ok].
  apply bindM_ok in Hp as (v & w4 & Hv & Hp). apply lift_ok in Hv as [Hv ->]. apply bindM_ok in Hp as (now & w5 & He & Hp). apply admission_epoch_ok in He as [Hq _].
  destruct (_ || _); [by run_ok|]. apply bindM_ok in Hp as (vw & w6 & Hvw & Hp). apply lift_ok in Hvw as [Hvw ->]. injection Hp as <- <-.
  unfold recordView in Hvw. rewrite Hv in Hvw. injection Hvw as <-. unfold parameterMatchesProfile in Hm. rewrite Hv in Hm. injection Hm as Hm. b2p.
  split; [done|]. split; cbn; [|done|by exists pr|done].
  exists r, t. split_and!; [done..|]. by match goal with Hx : sameBytes v.["relayPublicKey"] _ = true |- _ => apply same_bytes_eq in Hx end.
Qed.

Lemma currentSnapshot_ok c w s w' : currentSnapshot outside c w = (Ok s, w') -> quietly w w' /\ exists r, snapshotFor r = Ok s /\
  (nullish c = true -> fault (descriptors w) = None /\ currentRecord (descriptors w) = Some r).
Proof.
  unfold currentSnapshot. destruct (nullish c).
  - intros Hc. apply bindM_ok in Hc as ([t|reason] & w1 & Hs & Hc); [|done]. apply on_descriptors_ok in Hs as (d & Hs & ->).
    apply state_ok in Hs as ([n ->] & Hf & r & Hr & Ht). injection Hc as <- <-. split; [by exists n|]. by exists r.
  - intros Hc. apply bindM_ok in Hc as ([] & w1 & Hn & Hc). apply throwM_ok in Hn as [Hn ->].
    apply bindM_ok in Hc as ([t|] & w2 & Hs & Hc); [|done]. apply on_descriptors_ok in Hs as (d & Hs & ->).
    apply historical_ok in Hs as (-> & bs & r & _ & _ & Ht); [|done]. rewrite set_descriptors_same in Hc.
    apply bindM_ok in Hc as (u & w3 & Hu & Hc). apply remains_ok in Hu. destruct u; [|done]. injection Hc as <- <-. split; [done|]. by exists r.
Qed.

Lemma quietly_records w w' : quietly w w' -> recordsByHash w' = recordsByHash w /\ byHash (descriptors w') = byHash (descriptors w) /\
  currentRecord (descriptors w') = currentRecord (descriptors w) /\ fault (descriptors w') = fault (descriptors w) /\ issued w' = issued w /\
  preflights w' = preflights w /\ objects w' = objects w.
Proof. by intros [n ->]. Qed.

Lemma find_row rows f o r l row : cost_row rows f o r l = Some row -> In row (elems rows) /\ strict_eqb row.["familyId"] f = true /\
  strict_eqb row.["operationId"] o = true /\ row.["resourceClass"] = VNum r /\ row.["leaseClass"] = VNum l.
Proof. unfold cost_row. intros [Hin Hr]%List.find_some. b2p. repeat match goal with Hx : is_num _ _ = true |- _ => apply is_num_iff in Hx end. done. Qed.

Lemma exact_bytes v n bs : Admission.asBytes v (Some (n, n)) = Ok bs -> v = VBytes bs /\ blen bs = n.
Proof. destruct v; try done. cbn. intros ([] & Hc%throw_if_ok & [= <-])%bindR_ok. b2p. split; [done|lia]. Qed.

Lemma operation_ok p op : operationBinding p = Ok op -> op_admissionMode op <> ADMISSION_MODE_NONE.
Proof.
  unfold operationBinding. destruct p.["familyId"]; try done. destruct p.["operationId"]; try done. destruct p.["admissionMode"]; try done.
  intros ([] & Hc%throw_if_ok & [= <-])%bindR_ok. b2p. done.
Qed.

Lemma admission_binding_bound input w b w' : preflightBinding outside input w = (Ok b, w') -> bound b.
Proof.
  unfold preflightBinding. intros Hb. run_ok.
  match goal with Hx : (let '(_, _) := ?p in _) _ = _ |- _ => destruct p as [rc lc] end. run_ok.
  match goal with Hx : profileRecord _ _ _ _ _ _ = (Ok ?o, _) |- _ => destruct o as [sel|]; [|by run_ok]; apply profile_ok in Hx as [_ [_ _ _ Hv]] end. run_ok.
  match goal with Hx : (match ?o with Some _ => _ | None => _ end) _ = _ |- _ => destruct o as [endpoint|]; [|by run_ok] end. run_ok.
  match goal with Hx : (match ?o with Some _ => _ | None => _ end) _ = _ |- _ => destruct o as [row|] eqn:Er; [|by run_ok] end. run_ok.
  apply find_row in Er as (Hin & Hf & Ho & Hrc & Hlc). apply is_num_iff in Hf, Ho. repeat match goal with Hx : Admission.asBytes _ (Some (?n, ?n)) = Ok _ |- _ => apply exact_bytes in Hx as [_ ?] end.
  split; cbn; [|done|done|by eapply operation_ok]. exists (view_value (sel_record sel)), row. split_and!; try done.
  match goal with Hx : not_redeemable _ _ _ = false |- _ => apply orb_false_elim in Hx as [_ ?] end. done.
Qed.

(** *** A binding that was validated *)

Lemma parameters_typed bs v : decodeExact bs = Ok v -> has_type admissionParametersBaseV1_type v = true.
Proof.
  unfold decodeExact. intros Hd. destruct (bindR _ _) as [x|] eqn:E in Hd; [|done]. injection Hd as <-. apply bindR_ok in E as (y & Hy & E).
  apply bindR_ok in E as (b & _ & E). apply bindR_ok in E as ([] & _ & [= <-]). exact (proj1 (codec_canonical _ _ _ _ Hy)).
Qed.

(** Within the epochs, and the token no longer than allowed. *)
Lemma redeemable_ok bs v now token : decodeExact bs = Ok v -> not_redeemable v now token = false ->
  num v.["validFromEpoch"] <= now < num v.["expiresEpoch"] /\ blen token <= num v.["tokenMaxBytes"].
Proof.
  intros Hv%parameters_typed. unfold not_redeemable.
  assert (Hf : forall n, In n ["validFromEpoch"; "expiresEpoch"; "tokenMaxBytes"] -> v.[n] = VNum (num v.[n])).
  { intros n Hn. apply type_num, (has_field n TNum _ v Hv). cbn in Hn. destruct Hn as [<-|[<-|[<-|[]]]]; reflexivity. }
  rewrite (Hf "validFromEpoch"), (Hf "expiresEpoch"), (Hf "tokenMaxBytes") by (cbn; tauto). cbn [js_lt js_le num]. intros Hn. b2p. lia.
Qed.

(** The binding holds in this state: its descriptor is the current one, and its
    profile's parameters, signed and in force, give this very cost. *)
Record live (b : binding) (w : world) : Prop := {
  live_open : fault (descriptors w) = None;
  live_descriptor : exists c, currentRecord (descriptors w) = Some c /\ hash c = b_descriptorHash b /\ descriptorSequence c = b_descriptorSequence b;
  live_parameters : exists sel n now row, chosen w (b_descriptorHash b) (adm_profileId (b_admission b)) (adm_schemeId (b_admission b)) sel /\
    let v := view_value (sel_record sel) in
    (sel_profile sel).["parameterHash"] = VBytes (adm_parameterHash (b_admission b)) /\ view_bytes (sel_record sel) = b_parameterBytes b /\
    epochNow outside n = Ok (VNum now) /\ num v.["validFromEpoch"] <= now < num v.["expiresEpoch"] /\
    blen (adm_token (b_admission b)) <= num v.["tokenMaxBytes"] /\
    cost_row v.["resourceCosts"] (VNum (op_familyId (b_operation b))) (VNum (op_operationId (b_operation b)))
      (cost_resourceClass (b_cost b)) (cost_leaseClass (b_cost b)) = Some row /\ strict_eqb row.["costUnits"] (cost_costUnits (b_cost b)) = true
}.

Lemma chosen_quietly w w' h p c sel : quietly w w' -> chosen w h p c sel -> chosen w' h p c sel.
Proof. intros (Hr & Hb & _)%quietly_records [H1 H2 H3 H4]. split; try done; [by rewrite Hb|by rewrite Hr]. Qed.

Lemma revalidate_ok b w s w' : revalidatePreflight outside b w = (Ok s, w') -> quietly w w' /\ live b w'.
Proof.
  unfold revalidatePreflight. intros Hr. apply bindM_ok in Hr as (c & w1 & Hc & Hr). apply currentSnapshot_ok in Hc as [Hq1 (r & Hs & Hcur)].
  destruct (Hcur eq_refl) as [Hf Hrec]. clear Hcur. apply bindM_ok in Hr as ([] & w2 & Hx & Hr). apply throwM_ok in Hx as [Hx ->].
  apply bindM_ok in Hr as (u & w3 & Hu & Hr). apply remains_ok in Hu. apply bindM_ok in Hr as ([] & w4 & Hy & Hr). apply throwM_ok in Hy as [_ ->].
  apply bindM_ok in Hr as ([sel|] & w5 & Hp & Hr); [|done]. apply profile_ok in Hp as [Hq3 Hch].
  apply bindM_ok in Hr as ([] & w6 & Hz & Hr). apply throwM_ok in Hz as [Hz ->]. destruct (find_endpoint _ _) as [endpoint|]; [|done].
  apply bindM_ok in Hr as ([] & w7 & Hz' & Hr). apply throwM_ok in Hz' as [_ ->]. apply bindM_ok in Hr as (now & w8 & He & Hr). apply admission_epoch_ok in He as [Hq4 (n & Hn)].
  apply bindM_ok in Hr as ([] & w9 & Hred & Hr). apply throwM_ok in Hred as [Hred ->]. destruct (cost_row _ _ _ _ _) as [row|] eqn:Erow; [|done].
  apply bindM_ok in Hr as ([] & w10 & Hcost & Hr). apply throwM_ok in Hcost as [Hcost ->]. injection Hr as <- <-.
  assert (Hq5 : quietly w3 w8) by (by eapply quietly_trans). assert (Hq : quietly w w8) by (eapply quietly_trans; [exact Hq1|by eapply quietly_trans]).
  split; [done|]. destruct (quietly_records _ _ Hq) as (_ & _ & Hqc & Hqf & _). apply bindR_ok in Hs as (d & _ & [= <-]). cbn in *.
  apply orb_false_elim in Hx as [Hseq%negb_false_iff%Z.eqb_eq Hhash%negb_false_iff%bytes_eqb_eq].
  apply orb_false_elim in Hz as [Hph%negb_false_iff%same_bytes_eq Hpb%negb_false_iff%bytes_eqb_eq]. apply negb_false_iff in Hcost.
  destruct (redeemable_ok _ _ _ _ (chosen_value _ _ _ _ _ Hch) Hred) as [Hnow Htok].
  split; [by rewrite Hqf|rewrite Hqc; by exists r|]. exists sel, n, now, row. cbv zeta. split_and!; try done; [|lia|lia].
  rewrite <- Hhash. exact (chosen_quietly _ _ _ _ _ _ Hq5 Hch).
Qed.

Lemma live_held b w : live b w -> held b w.
Proof.
  intros [_ _ (sel & n & now & row & [_ _ (r & Hr & Hb) _] & Hh & Hv & _)]. rewrite Hh in Hr. exists r. split; [exact Hr|congruence].
Qed.

(** ** Calls in progress *)

Definition any {A} : A -> world -> Prop := fun _ _ => True.

(** Whatever holds and is kept by every step holds afterwards. *)
Definition allowed (w w' : world) : Prop := forall I, stable I -> I w -> I w'.

#[local] Instance allowed_preorder : PreOrder allowed.
Proof. split; [by intros w I|]. intros w1 w2 w3 H1 H2 I HI Hw. by apply H2, H1. Qed.

Lemma segment_keeps {A} (m : M world A) w : (forall I, stable I -> preserves I m) -> segment (Q := request) allowed any w (sync m w).
Proof. intros Hm. apply segment_sync; [|done]. intros I HI. by apply Hm. Qed.

Lemma segment_answer {X} (q : request X) w : segment allowed any w (await q w).
Proof. by apply segment_await; [apply _|]. Qed.

#[local] Hint Resolve stable_reading keeps_binding keeps_revalidate keeps_quote keeps_requote keeps_prepared keeps_confirm_begin : keeps.

(** One step of an async function that changes what a step may change. *)
Ltac next := eapply (segment_bind allowed); [first [apply segment_keeps; solve [keeping] | apply segment_answer]|intros ? ? _].
Ltac last_step := apply segment_keeps; solve [keeping].

Lemma preparePreflight_allowed input w : segment allowed any w (preparePreflight outside input w).
Proof.
  unfold preparePreflight. eapply (segment_bind allowed) with (P := fun b _ => bound b).
  { apply segment_sync; [intros I HI; by apply keeps_binding, stable_reading|]. intros b w' Hb. by eapply admission_binding_bound. }
  intros b w1 Hb. next. next. next. match goal with a : option adapter |- _ => destruct a as [a|] end; [|last_step].
  next. next. next. match goal with c : option nat |- _ => destruct c as [c|] end; [|last_step].
  apply segment_keeps. intros I HI w2 Hw2. pose proof (keeps_revalidate I (stable_reading I HI) b w2 Hw2) as Hw3. unfold bindM at 1.
  destruct (revalidatePreflight outside b w2) as [[s|] w3] eqn:E; [|done]. apply revalidate_ok in E as [_ Hl]. unfold new_object. autorewrite with machine.
  refine (on_preflight I HI {| pre_binding := b; pre_receiver := _; pre_capability := _ |} w3 Hw3 Hb _). by apply live_held.
Qed.

Lemma confirmAfterEof_allowed a input e w : segment allowed any w (confirmAfterEof outside a input e w).
Proof.
  unfold confirmAfterEof. next. match goal with p : preflight * bool |- _ => destruct p as [retained consumed] end.
  next. next. next. next. last_step.
Qed.

Lemma prepare_allowed input w : segment allowed any w (prepare outside input w).
Proof.
  unfold prepare. next. next. match goal with a : option admission |- _ => destruct a as [a|] end; repeat (case_match; try last_step).
  eapply (segment_bind allowed); [|intros p w1 _; last_step]. unfold prepare_admitted. next. next.
  match goal with a : option adapter |- _ => destruct a end; [|last_step]. next. next. last_step.
Qed.

(** A call in progress, whatever it will return. *)
Inductive task : Type := | Task {A : Type} (m : async world request A).

(** One run of the event loop. *)
Inductive admission_step : world * list task -> world * list task -> Prop :=
  | step_descriptors w ts d : descriptor_step outside policy (descriptors w) d -> admission_step (w, ts) (set_descriptors d w, ts)
  | step_install input w ts res w' : installParameters outside verifyParameters bounds input w = (res, w') -> admission_step (w, ts) (w', ts)
  | step_mint input w ts res w' : mint input w = (res, w') -> admission_step (w, ts) (w', ts)
  | step_available s w ts res w' : descriptorParametersAvailable outside s w = (res, w') -> admission_step (w, ts) (w', ts)
  | step_ready s w ts res w' : descriptorProfilesReady outside s w = (res, w') -> admission_step (w, ts) (w', ts)
  | step_parameters input s w ts res w' : parametersForRequest outside input s w = (res, w') -> admission_step (w, ts) (w', ts)
  | step_profile s p c r w ts res w' : profileRecord outside s p c r w = (res, w') -> admission_step (w, ts) (w', ts)
  | step_prepare input w ts m w' : prepare outside input w = (m, w') -> admission_step (w, ts) (w', ts ++ [Task m])
  | step_preflight input w ts m w' : preparePreflight outside input w = (m, w') -> admission_step (w, ts) (w', ts ++ [Task m])
  | step_confirm a input e w ts m w' : confirmAfterEof outside a input e w = (m, w') -> admission_step (w, ts) (w', ts ++ [Task m])
  | step_resume {A X : Type} (q : request X) (k : result X -> world -> async world request A * world) answer w ts1 ts2 m w' :
      k answer w = (m, w') -> admission_step (w, ts1 ++ Task (Await q k) :: ts2) (w', ts1 ++ Task m :: ts2).

Definition admission_steps := rtc admission_step.

(** Every later run of the calls in progress changes what a step may change. *)
Definition harmless (ts : list task) : Prop := Forall (fun t => match t with Task m => settles allowed any m end) ts.

Lemma run_allowed {A} (m : M world A) w res w' : (forall I, stable I -> preserves I m) -> m w = (res, w') -> allowed w w'.
Proof. intros Hm He I HI Hw. specialize (Hm I HI w Hw). by rewrite He in Hm. Qed.

Lemma start_allowed {A} (o : async world request A * world) w ts m w' : segment allowed any w o -> o = (m, w') -> harmless ts ->
  allowed w w' /\ harmless (ts ++ [Task m]).
Proof. intros Ho -> Ht. destruct Ho as (Hw & _ & Hs). split; [done|]. apply Forall_app. split; [done|by constructor]. Qed.

Lemma step_allowed s s' : harmless (snd s) -> admission_step s s' -> allowed (fst s) (fst s') /\ harmless (snd s').
Proof.
  intros Ht Hstep. destruct Hstep; cbn [fst snd] in *; try (split; [|exact Ht]).
  - intros I HI Hw. by apply (on_step I (stable_reading I HI)).
  - eapply run_allowed; [|eassumption]. intros I HI. by apply keeps_install.
  - eapply run_allowed; [|eassumption]. intros I HI. by apply keeps_mint.
  - eapply run_allowed; [|eassumption]. intros I HI. by apply keeps_all_profiles, stable_reading.
  - eapply run_allowed; [|eassumption]. intros I HI. by apply keeps_all_profiles, stable_reading.
  - eapply run_allowed; [|eassumption]. intros I HI. by apply keeps_parametersForRequest, stable_reading.
  - eapply run_allowed; [|eassumption]. intros I HI. by apply keeps_profile, stable_reading.
  - eapply start_allowed; [apply prepare_allowed|eassumption|done].
  - eapply start_allowed; [apply preparePreflight_allowed|eassumption|done].
  - eapply start_allowed; [apply confirmAfterEof_allowed|eassumption|done].
  - unfold harmless in *. rewrite Forall_app, Forall_cons in *. destruct Ht as (Ht1 & Hk & Ht2). specialize (Hk answer w).
    match goal with He : k answer w = _ |- _ => rewrite He in Hk end. by destruct Hk as (Hw & _ & Hs).
Qed.

Lemma steps_allowed s s' : harmless (snd s) -> admission_steps s s' -> allowed (fst s) (fst s') /\ harmless (snd s').
Proof.
  intros Ht Hsteps. induction Hsteps as [s|s s1 s' Hstep _ IH]; [split; [reflexivity|done]|].
  destruct (step_allowed _ _ Ht Hstep) as [Ha Ht1]. destruct (IH Ht1) as [Ha' Ht']. split; [by transitivity (fst s1)|done].
Qed.

(** ** Authorities are spent once *)

Lemma find_deleted {A} a a' (l : list (nat * A)) : PostEof.find_authority a l = None -> PostEof.find_authority a (PostEof.delete_authority a' l) = None.
Proof.
  unfold PostEof.find_authority, PostEof.delete_authority. induction l as [|e l IH]; [done|]. cbn. destruct (Nat.eqb (fst e) a) eqn:E; [done|].
  intros Hn. destruct (Nat.eqb (fst e) a'); cbn; [by apply IH|]. rewrite E. by apply IH.
Qed.

Lemma find_spent {A} a (l : list (nat * A)) : PostEof.find_authority a (PostEof.delete_authority a l) = None.
Proof.
  unfold PostEof.find_authority, PostEof.delete_authority. induction l as [|e l IH]; [done|]. cbn. destruct (Nat.eqb (fst e) a) eqn:E; cbn; [exact IH|].
  rewrite E. exact IH.
Qed.

Lemma find_other {A} a n (x : A) l : PostEof.find_authority a l = None -> a <> n -> PostEof.find_authority a (l ++ [(n, x)]) = None.
Proof.
  unfold PostEof.find_authority. intros Hn Ha. induction l as [|e l IH]; cbn in *.
  - destruct (Nat.eqb n a) eqn:E; [|done]. by apply Nat.eqb_eq in E.
  - destruct (Nat.eqb (fst e) a); [done|by apply IH].
Qed.

(** [a] is an object that exists, and no preflight is kept for it. *)
Definition burned (a : nat) (w : world) : Prop := (a < objects w)%nat /\ PostEof.find_authority a (preflights w) = None.
(** Nor does the issuer know it. *)
Definition consumed (a : nat) (w : world) : Prop := (a < objects w)%nat /\ PostEof.find_authority a (issued w) = None.

Lemma stable_burned a : stable (burned a).
Proof.
  split; [by split|..]; try done.
  - intros now w Hw. by destruct (sweep_else now w) as (r & n & ->).
  - intros w [Ha Hf]. split; [cbn; lia|done].
  - intros p w [Ha Hf] _ _. split; [cbn; lia|]. apply find_other; [done|lia].
  - intros b w [Ha Hf]. split; [done|by apply find_deleted].
  - intros r w [Ha Hf]. split; [cbn; lia|done].
Qed.

Lemma stable_consumed a : stable (consumed a).
Proof.
  split; [by split|..]; try done.
  - intros now w Hw. by destruct (sweep_else now w) as (r & n & ->).
  - intros w [Ha Hf]. split; [cbn; lia|done].
  - intros p w [Ha Hf] _ _. split; [cbn; lia|done].
  - intros r w [Ha Hf]. split; [cbn; lia|]. apply find_other; [done|lia].
  - intros b w [Ha Hf]. split; [done|by apply find_deleted].
Qed.

(** What an attempt leaves. *)
Lemma confirm_burns a input e w : (a < objects w)%nat -> burned a (snd (confirmAfterEof outside (Some a) input e w)).
Proof.
  intros Ha. assert (Hb : burned a (snd (confirm_begin outside (Some a) input e w))).
  - unfold confirm_begin. autorewrite with machine. destruct (PostEof.find_authority a (preflights w)) as [retained|] eqn:E; [|by split].
    autorewrite with machine. pose proof (stable_burned a) as HI. set (w1 := set_preflights _ w). assert (Hw1 : burned a w1) by (split; [done|apply find_spent]).
    clearbody w1. revert w1 Hw1. change (preserves (burned a) (let* echoed := preflightBinding outside input in
      throwM_if (negb (same_binding echoed (pre_binding retained))) SPEND_INVALID ;;* let* _ := revalidatePreflight outside (pre_binding retained) in
      throwM_if (match e with Some _ => false | None => true end) SPEND_INVALID ;;*
      let* spent := on_issuer (PostEof.consume e (consumption (pre_binding retained))) in ret (retained, spent))).
    pose proof (admission_keeps_consume _ HI). pose proof (keeps_binding _ (stable_reading _ HI)). pose proof (keeps_revalidate _ (stable_reading _ HI)). keeping.
  - unfold confirmAfterEof, bindA, sync. destruct (confirm_begin _ _ _ _ _) as [[[retained spent]|err] w1]; cbn in *; exact Hb.
Qed.

Lemma burned_refused a input e w : burned a w -> confirmAfterEof outside (Some a) input e w = (Done (Err SPEND_INVALID), w).
Proof. intros [_ Hf]. unfold confirmAfterEof, bindA, sync, confirm_begin. autorewrite with machine. by rewrite Hf. Qed.

Lemma consumed_refused a input w : consumed a w -> on_issuer (PostEof.consume (Some a) input) w = (Err PostEof.SPEND_INVALID, w).
Proof. intros [_ Hf]. unfold on_issuer, PostEof.consume. autorewrite with machine. rewrite Hf. cbn. by rewrite set_issued_same. Qed.

(** ** The books *)

Definition total (rs : list parameters) : Z := fold_right (fun r n => blen (parameters_bytes r) + n) 0 rs.

Definition entry (r : parameters) : bytes * parameters := (parameters_hash r, r).

Record recorded (entries : list (bytes * parameters)) (size : Z) (rs : list parameters) : Prop := {
  recorded_map : entries = map entry rs;
  recorded_bytes : size = total rs;
  recorded_distinct : NoDup (map parameters_hash rs);
  recorded_sound : Forall installed rs
}.

Lemma admission_total_app l l' : total (l ++ l') = total l + total l'.
Proof. unfold total. induction l as [|r l IH]; cbn [fold_right app]; lia. Qed.

Lemma admission_total_nonneg l : 0 <= total l.
Proof. unfold total. induction l as [|r l IH]; cbn [fold_right]; [done|]. pose proof (blen_nonneg (parameters_bytes r)). lia. Qed.

Lemma entries_fresh h rs : ~ In h (map parameters_hash rs) -> Forall (fun e : bytes * parameters => bytes_eqb (fst e) h = false) (map entry rs).
Proof.
  intros Hn. apply Forall_map, List.Forall_forall. intros r Hr. cbn. destruct (bytes_eqb _ _) eqn:E; [|done].
  apply bytes_eqb_eq in E. destruct Hn. rewrite <- E. by apply in_map.
Qed.

(** The records that stay when [l] is swept. *)
Definition unexpired (now : Z) (l : list parameters) : list parameters := List.filter (fun r => negb (parameters_expires r <=? now)) l.

Lemma sweep_loop now l kept w : recorded (recordsByHash w) (parameterBytes w) (kept ++ l) ->
  let w' := snd (each (fun e : bytes * parameters => if parameters_expires (snd e) <=? now then
      modify (fun w => set_records (map_delete bytes_eqb (fst e) (recordsByHash w)) (parameterBytes w - blen (parameters_bytes (snd e))) w)
    else ret tt) (map entry l) w) in
  recorded (recordsByHash w') (parameterBytes w') (kept ++ unexpired now l).
Proof.
  cbv zeta. revert kept w. induction l as [|r l IH]; intros kept w Hw; [exact Hw|]. cbn [map each]. unfold unexpired. cbn [List.filter entry fst snd].
  destruct (parameters_expires r <=? now) eqn:E; cbn [negb].
  - rewrite bind_modify. apply IH. destruct Hw as [Hm Hb Hd Hs]. rewrite map_app in Hd. cbn in Hd. apply NoDup_app in Hd as (Hk & Hx & Hl). apply NoDup_cons in Hl as [Hr Hl].
    split; cbn.
    + rewrite Hm, !map_app. cbn [map entry]. rewrite map_delete_app, (map_delete_fresh _ _ (map entry kept)).
      * f_equal. apply (map_delete_first _ _ r); [apply bytes_eqb_refl|]. apply entries_fresh. by rewrite <- list_elem_of_In.
      * apply entries_fresh. intros Hin%list_elem_of_In. apply (Hx _ Hin). by left.
    + rewrite Hb, !admission_total_app. change (total (r :: l)) with (blen (parameters_bytes r) + total l). lia.
    + rewrite map_app. apply NoDup_app. split_and!; [done| |done]. intros h Hh Hh'. apply (Hx h Hh). by right.
    + rewrite Forall_app, Forall_cons in *. tauto.
  - rewrite bind_ret. replace (kept ++ r :: List.filter _ l) with ((kept ++ [r]) ++ unexpired now l) by (by rewrite <- app_assoc). apply IH. by rewrite <- app_assoc.
Qed.

Lemma sweep_recorded now w rs : recorded (recordsByHash w) (parameterBytes w) rs ->
  recorded (recordsByHash (snd (sweep now w))) (parameterBytes (snd (sweep now w))) (unexpired now rs).
Proof. intros Hw. unfold sweep. rewrite bind_gets, (recorded_map _ _ _ Hw). by apply (sweep_loop now rs []). Qed.

Lemma total_unexpired now l : total (unexpired now l) <= total l.
Proof.
  unfold total, unexpired in *. induction l as [|r l IH]; cbn [List.filter fold_right]; [done|]. pose proof (blen_nonneg (parameters_bytes r)).
  destruct (negb _); cbn [fold_right]; lia.
Qed.

Lemma unexpired_length now l : (List.length (unexpired now l) <= List.length l)%nat.
Proof. apply List.filter_length_le. Qed.

(** The invariant of the coordinator. *)
Record books (w : world) : Prop := {
  books_descriptors : good outside policy (descriptors w);
  books_records : exists rs, recorded (recordsByHash w) (parameterBytes w) rs /\ Z.of_nat (List.length rs) <= maxRecords bounds /\ total rs <= maxParameterBytes bounds;
  books_preflights : NoDup (map fst (preflights w)) /\ Forall (fun e => (fst e < objects w)%nat /\ bound (pre_binding (snd e)) /\ vouched (pre_binding (snd e))) (preflights w);
  books_issued : NoDup (map fst (issued w)) /\ Forall (fun e => (fst e < objects w)%nat) (issued w)
}.

Lemma keys_snoc {A} (P : nat * A -> Prop) (l : list (nat * A)) n x : NoDup (map fst l) -> Forall (fun e => (fst e < n)%nat /\ P e) l -> P (n, x) ->
  NoDup (map fst (l ++ [(n, x)])) /\ Forall (fun e => (fst e < S n)%nat /\ P e) (l ++ [(n, x)]).
Proof.
  intros Hd Hf Hp. split.
  - rewrite map_app. apply NoDup_app. split_and!; [done| |apply NoDup_singleton]. intros a Ha ->%list_elem_of_singleton.
    apply list_elem_of_In, in_map_iff in Ha as (e & He & Hin). rewrite List.Forall_forall in Hf. destruct (Hf e Hin). cbn in *. lia.
  - apply Forall_app. split; [|by repeat constructor]. eapply Forall_impl; [exact Hf|]. cbn. intros e [? ?]. split; [lia|done].
Qed.

Lemma keys_delete {A} (P : nat * A -> Prop) (l : list (nat * A)) a : NoDup (map fst l) -> Forall P l ->
  NoDup (map fst (PostEof.delete_authority a l)) /\ Forall P (PostEof.delete_authority a l).
Proof.
  unfold PostEof.delete_authority. induction l as [|e l IH]; [done|]. cbn. rewrite NoDup_cons, Forall_cons. intros [Hn Hd] [He Hf].
  destruct (IH Hd Hf) as [Hd' Hf']. destruct (negb _); cbn; [|done]. rewrite NoDup_cons, Forall_cons. split_and!; try done.
  intros Hin. apply Hn. apply list_elem_of_In, in_map_iff in Hin as (x & Hx & Hin). apply List.filter_In in Hin as [Hin _].
  apply list_elem_of_In, in_map_iff. by exists x.
Qed.

Lemma not_found h rs : map_get bytes_eqb h (map entry rs) = None -> ~ In h (map parameters_hash rs).
Proof.
  unfold map_get. induction rs as [|r rs IH]; cbn; [by intros _ []|]. destruct (bytes_eqb (parameters_hash r) h) eqn:E; [done|].
  intros Hn [He|Hin]; [|by apply IH]. by rewrite He, bytes_eqb_refl in E.
Qed.

Lemma install_recorded entries size rs r : recorded entries size rs -> installed r -> map_get bytes_eqb (parameters_hash r) entries = None ->
  recorded (map_set bytes_eqb (parameters_hash r) r entries) (size + blen (parameters_bytes r)) (rs ++ [r]).
Proof.
  intros [Hm Hb Hd Hs] Hr Hn. rewrite Hm in Hn. apply not_found in Hn. split.
  - rewrite Hm, map_set_fresh by (by apply entries_fresh). by rewrite map_app.
  - rewrite Hb, admission_total_app. change (total [r]) with (blen (parameters_bytes r) + 0). lia.
  - rewrite map_app. apply NoDup_app. split_and!; [done| |apply NoDup_singleton]. intros h Hh%list_elem_of_In. cbn. by intros ->%list_elem_of_singleton.
  - apply Forall_app. split; [done|by constructor].
Qed.

Lemma recorded_found h r rs : map_get bytes_eqb h (map entry rs) = Some r -> In r rs /\ parameters_hash r = h.
Proof.
  unfold map_get. induction rs as [|r' rs IH]; [done|]. cbn. destruct (bytes_eqb (parameters_hash r') h) eqn:E.
  - intros [= ->]. apply bytes_eqb_eq in E. split; [by left|done].
  - intros Hr. destruct (IH Hr) as [Hin Hh]. split; [by right|done].
Qed.

Lemma held_vouched b w rs : recorded (recordsByHash w) (parameterBytes w) rs -> held b w -> vouched b.
Proof.
  intros [Hm _ _ Hs] (r & Hr & Hb). rewrite Hm in Hr. apply recorded_found in Hr as [Hin Hh]. rewrite List.Forall_forall in Hs.
  destruct (Hs r Hin) as (v & Hv & Hhash & _). exists v. by rewrite <- Hb, <- Hh.
Qed.

Hypothesis history : 1 <= maxHistory policy.

Lemma good_step d d' : good outside policy d -> descriptor_step outside policy d d' -> good outside policy d'.
Proof. intros [Hd|Hc] Hs; [by eapply step_good|by right]. Qed.

Lemma stable_books : stable books.
Proof.
  split; [split|..].
  - intros n w [Bd Br Bp Bi]. split; cbn; [|done..]. destruct Bd as [Hd|Hc]; [left|by right]. by apply (ok_quiet _ _ (descriptors w)); [eexists|].
  - intros d w [Bd Br Bp Bi] Hstep. split; cbn; [by eapply good_step|done..].
  - intros now w [Bd (rs & Hr & Hl & Ht) Bp Bi]. pose proof (sweep_recorded now _ _ Hr) as Hr'. destruct (sweep_else now w) as (r & n & He). rewrite He in *.
    split; [done| |done..]. exists (unexpired now rs). pose proof (total_unexpired now rs). pose proof (unexpired_length now rs). split_and!; [done|lia|lia].
  - intros bs v h w [Bd (rs & Hr & Hl & Ht) Bp Bi] Hv Hh Hn Hsize Hbytes. set (r := {| parameters_hash := h |}).
    split; [done| |done..]. exists (rs ++ [r]). rewrite length_app, admission_total_app. rewrite (recorded_map _ _ _ Hr), length_map in Hsize. rewrite (recorded_bytes _ _ _ Hr) in Hbytes.
    split_and!; [|cbn [List.length]; lia|change (total [r]) with (blen bs + 0); lia].
    apply (install_recorded _ _ rs r); [done| |done]. by exists v.
  - intros w [Bd Br [Pd Pf] [Id If]]. split; cbn; [done..| |]; (split; [done|]); eapply Forall_impl; [exact Pf| |exact If|]; cbn; intros e He; [destruct He|]; split || idtac; lia || done.
  - intros p w [Bd Br [Pd Pf] [Id If]] Hp Hheld. assert (Hv : vouched (pre_binding p)) by (destruct Br as (rs & Hr & _); by eapply held_vouched).
    split; cbn; [done..| |]; [by apply keys_snoc|]. split; [done|]. eapply Forall_impl; [exact If|]. cbn. lia.
  - intros a w [Bd Br [Pd Pf] Bi]. split; cbn; [done..| |done]. by apply keys_delete.
  - intros r w [Bd Br [Pd Pf] [Id If]]. split; cbn; [done..| |].
    + split; [done|]. eapply Forall_impl; [exact Pf|]. cbn. intros e [? ?]. split; [lia|done].
    + destruct (keys_snoc (fun _ => True) (issued w) (objects w) r Id) as [Hd Hf]; [eapply Forall_impl; [exact If|done]|done|]. split; [done|]. eapply Forall_impl; [exact Hf|]. by intros e [? _].
  - intros a w [Bd Br Bp [Id If]]. split; cbn; [done..|]. by apply keys_delete.
Qed.

(** ** Confirmation *)

(** The issuer's authority is about this binding. *)
Record eof_matches (r : PostEof.retained) (b : binding) : Prop := {
  eof_endpoint : b_endpointId b = VNum (PostEof.endpointId r);
  eof_operation : PostEof.familyId r = op_familyId (b_operation b) /\ PostEof.operationId r = op_operationId (b_operation b);
  eof_descriptor : PostEof.descriptorSequence r = b_descriptorSequence b /\ PostEof.descriptorHash r = b_descriptorHash b;
  eof_request : PostEof.requestId r = b_requestId b /\ PostEof.requestCommitment r = b_requestCommitment b
}.

Lemma admission_consume_ok e b i c i' : PostEof.consume e (consumption b) i = (Ok c, i') ->
  c = true /\ exists eof r, e = Some eof /\ PostEof.find_authority eof i = Some r /\ eof_matches r b /\ i' = PostEof.delete_authority eof i.
Proof.
  unfold PostEof.consume. destruct e as [eof|]; [|done]. rewrite bind_gets. destruct (PostEof.find_authority eof i) as [r|] eqn:Er; [|done].
  rewrite bind_modify. intros Hc. run_ok. split; [done|]. exists eof, r. cbn in *.
  repeat match goal with
  | Hx : PostEof.fixed (VBytes _) _ = Ok _ |- _ => cbn in Hx; apply bindR_ok in Hx as ([] & _ & [= <-])
  | Hx : bindR _ _ = Ok _ |- _ => apply bindR_ok in Hx as ([] & _ & [= <-])
  | Hx : negb (bytes_eqb _ _) = false |- _ => apply negb_false_iff, bytes_eqb_eq in Hx
  end. b2p. unfold is_num in *. cbn in *. b2p.
  split_and!; try done. split; [|done..]. destruct (b_endpointId b); try done. cbn in *. b2p. by subst.
Qed.

(** What is returned is about this binding, whatever the adapter did. *)
Record proof_of (b : binding) (p : proof) : Prop := {
  proof_cost : costClass p = b_cost b;
  proof_commitment : proof_requestCommitment p = b_requestCommitment b;
  proof_admission : proof_profileId p = adm_profileId (b_admission b) /\ proof_schemeId p = adm_schemeId (b_admission b) /\
    proof_parameterHash p = adm_parameterHash (b_admission b);
  proof_tag : blen (spendTag p) = 32 /\ nonzero (spendTag p) = true;
  proof_record : 1 <= blen (walCommitRecord p) <= MAX_WAL_COMMIT_RECORD_BYTES
}.

Lemma bounded_bytes v lo hi bs : Admission.asBytes v (Some (lo, hi)) = Ok bs -> lo <= blen bs <= hi.
Proof. destruct v; try done. cbn. intros ([] & Hc%throw_if_ok & [= <-])%bindR_ok. b2p. lia. Qed.

Lemma check_proof_ok prepared b p : check_proof prepared b = Ok p -> proof_of b p.
Proof.
  unfold check_proof. intros Hp. apply bindR_ok in Hp as ([] & _ & Hp). apply bindR_ok in Hp as (tag & Ht & Hp). apply bindR_ok in Hp as (commitment & _ & Hp).
  apply bindR_ok in Hp as (h & _ & Hp). apply bindR_ok in Hp as (wal & Hw & Hp). cbv zeta in Hp. apply bindR_ok in Hp as ([] & Hc%throw_if_ok & Hp).
  apply bindR_ok in Hp as (units & _ & Hp). apply bindR_ok in Hp as ([] & _ & [= <-]). apply bounded_bytes in Hw. apply exact_bytes in Ht as [_ Ht].
  b2p. repeat match goal with Hx : bytes_eqb _ _ = true |- _ => apply bytes_eqb_eq in Hx end. by split.
Qed.

(** What an authority that was confirmed was: kept for a preflight, with an
    authority of the issuer for the same request. Both are gone in [w1], when the
    call first waits. *)
Definition confirmed (a : nat) (e : option nat) (w w1 : world) (p : proof) (w' : world) : Prop := exists retained eof r,
  PostEof.find_authority a (preflights w) = Some retained /\ e = Some eof /\ PostEof.find_authority eof (issued w) = Some r /\
  PostEof.find_authority a (preflights w1) = None /\ PostEof.find_authority eof (issued w1) = None /\
  eof_matches r (pre_binding retained) /\ proof_of (pre_binding retained) p /\ live (pre_binding retained) w'.

(** Nothing is asked of the runs themselves. *)
Definition anything (w w' : world) : Prop := True.
#[local] Instance anything_preorder : PreOrder anything.
Proof. done. Qed.

Lemma confirm_begin_ok a input e w retained c w' : confirm_begin outside (Some a) input e w = (Ok (retained, c), w') ->
  c = true /\ PostEof.find_authority a (preflights w) = Some retained /\
  exists eof r, e = Some eof /\ PostEof.find_authority eof (issued w) = Some r /\ eof_matches r (pre_binding retained) /\
    issued w' = PostEof.delete_authority eof (issued w) /\ preflights w' = PostEof.delete_authority a (preflights w).
Proof.
  unfold confirm_begin. rewrite bind_gets. destruct (PostEof.find_authority a (preflights w)) as [p|]; [|done]. rewrite bind_modify. intros Hc.
  set (w1 := set_preflights _ w) in Hc. assert (Hw1 : issued w1 = issued w /\ preflights w1 = PostEof.delete_authority a (preflights w)) by done. clearbody w1. destruct Hw1 as [Hw1 Hx1].
  apply bindM_ok in Hc as (echoed & w2 & Hb & Hc). apply bindM_ok in Hc as ([] & w3 & Hs & Hc). apply throwM_ok in Hs as [_ ->].
  apply bindM_ok in Hc as (s & w4 & Hr & Hc). apply revalidate_ok in Hr as [Hq4 _]. apply bindM_ok in Hc as ([] & w5 & He & Hc). apply throwM_ok in He as [_ ->].
  apply bindM_ok in Hc as (c' & w6 & Hi & Hc). injection Hc as -> -> ->.
  assert (Hw2 : issued w2 = issued w1 /\ preflights w2 = preflights w1).
  { assert (Hk : preserves (fun w => issued w = issued w1 /\ preflights w = preflights w1) (preflightBinding outside input)) by (by apply keeps_binding).
    specialize (Hk w1 (conj eq_refl eq_refl)). by rewrite Hb in Hk. }
  destruct Hw2 as [Hw2 Hx2]. destruct (quietly_records _ _ Hq4) as (_ & _ & _ & _ & Hw4 & Hx4 & _).
  unfold on_issuer in Hi. destruct (PostEof.consume _ _ _) as [[c''|] i] eqn:Ec; [|done]. injection Hi as -> <-.
  apply admission_consume_ok in Ec as (-> & eof & r & -> & Hf & Hm & ->). rewrite Hw4, Hw2, Hw1 in *. split; [done|]. split; [done|].
  exists eof, r. split_and!; try done. cbn. by rewrite Hx4, Hx2, Hx1.
Qed.

(** The first run of a confirmation ends where its checks end. *)
Lemma first_run a input e w rc w1 : confirm_begin outside a input e w = (Ok rc, w1) -> snd (confirmAfterEof outside a input e w) = w1.
Proof. intros Hb. unfold confirmAfterEof, bindA at 1, sync at 1. rewrite Hb. by destruct rc. Qed.

Lemma confirm_segment a input e w :
  segment anything (confirmed a e w (snd (confirmAfterEof outside (Some a) input e w))) w (confirmAfterEof outside (Some a) input e w).
Proof.
  set (w1 := snd (confirmAfterEof outside (Some a) input e w)).
  unfold confirmAfterEof. eapply (segment_bind anything) with (P := fun rc _ => PostEof.find_authority a (preflights w) = Some (fst rc) /\
    PostEof.find_authority a (preflights w1) = None /\
    exists eof r, e = Some eof /\ PostEof.find_authority eof (issued w) = Some r /\ PostEof.find_authority eof (issued w1) = None /\ eof_matches r (pre_binding (fst rc))).
  { apply segment_sync; [done|]. intros [retained c] w2 Hb. pose proof (first_run _ _ _ _ _ _ Hb) as Hfirst. fold w1 in Hfirst.
    apply confirm_begin_ok in Hb as (_ & Hf & eof & r & He & Hr & Hm & Hi & Hp). rewrite <- Hfirst in Hi, Hp. rewrite Hp. split; [done|].
    split; [apply find_spent|]. exists eof, r. rewrite Hi. split_and!; try done. apply find_spent. }
  intros [retained c] w2 (Hf & Ha & eof & r & He & Hr & Hg & Hm). clearbody w1. cbn [fst] in *.
  assert (Hskip : forall A (m : M world A) w, segment (Q := request) anything (fun _ _ => True) w (sync m w)) by (intros A m w'; by apply segment_sync).
  assert (Hwait : forall X (q : request X) w, segment anything (fun _ _ => True) w (await q w)) by (intros X q w'; by apply segment_await; [apply _|]).
  do 4 (eapply (segment_bind anything); [first [apply Hskip | apply Hwait]|intros ? ? _]).
  apply segment_sync; [done|]. intros p wn Hp. apply bindM_ok in Hp as (s & wm & Hv & Hp). apply revalidate_ok in Hv as [_ Hl]. apply lift_ok in Hp as [Hp ->].
  exists retained, eof, r. split_and!; try done. by eapply check_proof_ok.
Qed.

(** [m] has not settled in its first run. *)
Definition in_progress {A} (m : async world request A) : bool := match m with Await _ _ => true | Done _ => false end.

Lemma in_progress_ok a input e w : in_progress (fst (confirmAfterEof outside (Some a) input e w)) = true ->
  exists retained c, confirm_begin outside (Some a) input e w = (Ok (retained, c), snd (confirmAfterEof outside (Some a) input e w)).
Proof. unfold confirmAfterEof, bindA, sync. destruct (confirm_begin _ _ _ _ _) as [[[retained c]|] w1]; [|done]. intros _. by exists retained, c. Qed.

Lemma consumed_stuck a eof input w : consumed eof w -> in_progress (fst (confirmAfterEof outside (Some a) input (Some eof) w)) = false.
Proof.
  intros [_ Hf]. apply not_true_is_false. intros (retained & c & Hc)%in_progress_ok. apply confirm_begin_ok in Hc as (_ & _ & eof' & r & [= <-] & Hr & _). congruence.
Qed.

Lemma stable_exists a : stable (fun w => (a < objects w)%nat).
Proof. split; [by split|..]; try done; try (intros; cbn; lia). intros now w Hw. by destruct (sweep_else now w) as (r & n & ->). Qed.

Lemma find_exists {A} a (l : list (nat * A)) x : PostEof.find_authority a l = Some x -> In (a, x) l.
Proof.
  unfold PostEof.find_authority. destruct (List.find _ l) as [[a' x']|] eqn:E; [|done]. intros [= <-]. apply List.find_some in E as [Hin Ha%Nat.eqb_eq].
  cbn in *. by subst.
Qed.

End Laws.

(** C28: A confirmation that succeeds confirms what was prepared: whatever happens
    while it waits and whatever the adapter answers, its authority was kept for
    a preflight, the issuer had minted the other authority for the same request,
    operation, endpoint and descriptor, both were spent before the call first
    waited, the proof carries the preflight's cost, commitment and profile, and
    when it returns the preflight's descriptor is still the current one and its
    parameters, still installed and in force, still give that cost. *)
Theorem confirmation_bound `{Platform} (outside : hooks) a input e w :
  segment anything (confirmed outside a e w (snd (confirmAfterEof outside (Some a) input e w))) w (confirmAfterEof outside (Some a) input e w).
Proof. apply confirm_segment. exact {| maxHistory := 1; retentionEpochs := 1; allowEmergencyGaps := false |}. Qed.

(** ** Worlds that can come about *)

Section Properties.
Context `{Platform} (outside : hooks) (doptions options : val) (policy : config) (d0 : DescriptorState).
Context (verifyParameters : nat -> val -> result val) (bounds : limits) (w0 : world).
Hypothesis created : newDescriptorState outside doptions = Ok (policy, d0).
Hypothesis coordinator : newCoordinator options d0 = Ok (bounds, w0).

Definition admission_reachable (w : world) (ts : list task) : Prop := admission_steps outside policy verifyParameters bounds (w0, []) (w, ts).

Lemma new_books : books outside policy verifyParameters bounds w0.
Proof.
  pose proof coordinator as Hc. apply bindR_ok in Hc as (n & Hn & Hc). apply bindR_ok in Hc as (m & Hm & [= <- <-]).
  assert (Hpos : forall v d lo hi k, Admission.bounded_option v d lo hi = Ok k -> lo <= k).
  { intros v d lo hi k. unfold Admission.bounded_option. cbv zeta. destruct (if nullish v then _ else _); try done. intros ([] & Hx%throw_if_ok & [= <-])%bindR_ok. b2p. lia. }
  apply Hpos in Hn, Hm. split; cbn.
  - left. by eapply new_ok.
  - exists []. split; [split; cbn; try done; constructor|]. cbn. lia.
  - split; constructor.
  - split; constructor.
Qed.

Lemma reachable_books w ts : admission_reachable w ts -> books outside policy verifyParameters bounds w /\ harmless outside policy verifyParameters bounds ts.
Proof.
  intros Hr. apply steps_allowed in Hr as [Ha Ht]; [|constructor]. split; [|exact Ht].
  apply (Ha (books outside policy verifyParameters bounds)); [|apply new_books]. apply stable_books. by eapply new_history.
Qed.

(** C29: Whatever calls are in progress, in whatever order they go on and whatever
    adapters, verifiers and clock answer: the descriptor state next to the
    coordinator keeps its chain, or two byte strings with one hash have been
    found; the coordinator holds parameters whose signature was verified, under
    their hash, each once, no more than it may and with their bytes accounted
    for; and every preflight it keeps is for its own object and binds a cost that
    is a row of parameters whose signature was verified and whose hash is the one
    its admission names. *)
Theorem admission_books w ts : admission_reachable w ts -> books outside policy verifyParameters bounds w.
Proof. intros Hr. by apply reachable_books in Hr as [Hb _]. Qed.

(** C30: Authorities are spent once. Let a confirmation be tried with an authority
    that exists, at any time, with any input. Whatever happens afterwards, every
    further confirmation with it fails at once and changes nothing. And if the
    first got past its checks, then the issuer's authority is spent with it: no
    confirmation gets any further with that one. *)
Theorem authorities_single_use w ts a input e m w1 w2 ts2 : admission_reachable w ts -> (a < objects w)%nat ->
  confirmAfterEof outside (Some a) input e w = (m, w1) ->
  admission_steps outside policy verifyParameters bounds (w1, ts ++ [Task m]) (w2, ts2) ->
  (forall input' e', confirmAfterEof outside (Some a) input' e' w2 = (Done (Err Admission.SPEND_INVALID), w2)) /\
  (in_progress m = true -> forall a' input', in_progress (fst (confirmAfterEof outside (Some a') input' e w2)) = false).
Proof.
  intros Hr Ha Hc Hsteps. apply reachable_books in Hr as [Hb Ht].
  destruct (step_allowed outside policy verifyParameters bounds (w, ts) (w1, ts ++ [Task m]) Ht (step_confirm _ _ _ _ _ _ _ _ _ _ _ Hc)) as [_ Ht1].
  destruct (steps_allowed outside policy verifyParameters bounds _ _ Ht1 Hsteps) as [Hallowed _]. cbn [fst] in Hallowed.
  pose proof (confirm_burns outside policy verifyParameters bounds a input e w Ha) as Hburned. rewrite Hc in Hburned. split.
  - intros input' e'. apply burned_refused. by apply (Hallowed (burned a)); [apply stable_burned|].
  - intros Hp a' input'. replace m with (fst (confirmAfterEof outside (Some a) input e w)) in Hp by (by rewrite Hc).
    destruct (in_progress_ok outside _ _ _ _ Hp) as (retained & c & Hbegin). rewrite Hc in Hbegin. cbn [snd] in Hbegin.
    apply (confirm_begin_ok outside policy) in Hbegin as Hok. destruct Hok as (_ & _ & eof & r & -> & Hfind & _ & Hissued & _).
    apply (consumed_stuck outside policy). apply (Hallowed (consumed eof)); [apply stable_consumed|]. split; [|rewrite Hissued; apply find_spent].
    assert (He : (eof < objects w)%nat) by (destruct (books_issued _ _ _ _ _ Hb) as [_ Hf]; rewrite List.Forall_forall in Hf; exact (Hf _ (find_exists _ _ _ Hfind))).
    pose proof (keeps_confirm_begin outside policy verifyParameters bounds _ (stable_exists _ _ _ _ eof) (Some a) input (Some eof) w He) as Hk. by rewrite Hbegin in Hk.
Qed.

End Properties.
