(* ===== verification/AdmissionDemo.v ===== *)
(** * Admission on a concrete platform

    A relay with one admission profile: its parameters are installed, a preflight
    is prepared, its request ends, and it is confirmed. *)

From Stdlib Require Import ZArith Lia Bool List String Ascii.
From Stdlib Require Import Strings.Byte.
From stdpp Require Import base tactics list strings relations.
From S2P Require Import Prelude JsMap AsyncCalls Codec CodecLaws DemoPlatform Authority Hashes SchemaKit SchemasDescribe Accepted DescribeLaws DescriptorState DescriptorChain DescriptorBooks DescriptorLaws DescriptorDemo PostEofAuthority AdmissionCoordinator AdmissionLaws.
Import DescriptorState.Descriptor AdmissionCoordinator.Admission.

#[local] Existing Instance demo_platform.

(** ** Bytes *)

Definition demo_cost : val := VObj [("familyId", VNum 2); ("operationId", VNum 1); ("resourceClass", VNum 1); ("leaseClass", VNum 1); ("costUnits", VBig 7)].

Definition demo_parameters : bytes := Eval vm_compute in expect [] (encodeCanonical admissionParametersV1 (VObj [
  ("version", VNum 1); ("relayPublicKey", key Byte.x01); ("profileId", VNum 1); ("schemeId", VNum 1); ("conformanceClass", VNum 1);
  ("roleBits", VNum 1); ("verifierKey", VBytes []); ("resourceCosts", VList [demo_cost]); ("tokenMaxBytes", VNum 64);
  ("issuanceUrl", VNull); ("issuerRelayKey", VNull); ("validFromEpoch", VNum 90); ("expiresEpoch", VNum 200); ("nonce", key Byte.x61);
  ("signature", VBytes (replicate 64 Byte.x62))])).

Definition parameters_digest : bytes := Eval vm_compute in expect [] (Hash.admissionParametersHash (VBytes demo_parameters)).

(** The relay's first descriptor names these parameters. *)
Definition paid_descriptor : bytes := Eval vm_compute in expect [] (encodeCanonical blindServiceDescriptorV1 (with_fields [
    ("descriptorSequence", VBig 0); ("previousDescriptorHash", VNull);
    ("durabilityContinuityHash", VBytes continuity_hash); ("durabilityProfileHash", VBytes profile_hash);
    ("storeLifecycleState", VNum STORE_LIFECYCLE_STATE_ACTIVE); ("drainStartedEpoch", VNull);
    ("issuedEpoch", VNum 100); ("expiresEpoch", VNum 103); ("descriptorNonce", key Byte.x0a);
    ("admissionProfiles", VList [VObj [("profileId", VNum 1); ("schemeId", VNum 1); ("conformanceClass", VNum 1); ("roleBits", VNum 1);
      ("parameterUrl", VNull); ("parameterHash", VBytes parameters_digest)]])])).

Definition accepts_all : nat -> val -> result val := fun _ _ => Ok (VBool true).
Definition demo_bounds : limits := {| maxRecords := 64; maxParameterBytes := 1024 * 1024 |}.

Definition world_of {A} (o : result A * world) : world := snd o.

Definition demo_world : world := {| descriptors := demo_new; recordsByHash := []; parameterBytes := 0; preflights := []; issued := []; objects := 0 |}.
Lemma demo_coordinator : newCoordinator (VObj []) demo_new = Ok (demo_bounds, demo_world).
Proof. reflexivity. Qed.

Definition paid_state : DescriptorState := Eval vm_compute in snd (demo_activate paid_descriptor demo_new).
Definition paid_world : world := set_descriptors paid_state demo_world.
Definition stocked : world := Eval vm_compute in snd (installParameters demo_outside accepts_all demo_bounds (VBytes demo_parameters) paid_world).

Definition demo_operation : val := VObj [
  ("profile", VObj [("familyId", VNum 2); ("operationId", VNum 1); ("admissionMode", VNum 2)]);
  ("admission", VObj [("profileId", VNum 1); ("schemeId", VNum 1); ("parameterHash", VBytes parameters_digest); ("token", VBytes (replicate 8 Byte.x70))]);
  ("cost", VObj [("resourceClass", VNum 1); ("leaseClass", VNum 1)]);
  ("requestId", VBytes (replicate 16 Byte.x71)); ("requestCommitment", key Byte.x72);
  ("endpoint", VObj [("endpointId", VNum 1); ("roleBits", VNum 1)])].

(** ** The calls *)

(** What the adapter answers. *)
Definition demo_prepared : val := VObj [
  ("spendTag", key Byte.x73); ("requestCommitment", key Byte.x72); ("parameterHash", VBytes parameters_digest);
  ("walCommitRecord", VBytes [Byte.x01]); ("profileId", VNum 1); ("schemeId", VNum 1);
  ("costClass", VObj [("resourceClass", VNum 1); ("leaseClass", VNum 1); ("costUnits", VBig 7)])].

Definition demo_adapter : adapter := {| receiver := 1; has_prepare := true; has_preparePreflight := true; has_confirmAfterEof := true |}.

Definition answer_of {X} (q : request X) : result X :=
  match q with
  | ResolveAdapter _ => Ok (Some demo_adapter)
  | PreparePreflight _ _ => Ok (Some 9%nat)
  | ConfirmAfterEof _ _ _ => Ok demo_prepared
  | Prepare _ _ => Ok demo_prepared
  | AlreadySettled => Ok tt
  end.

(** Nothing else happens while the call waits. *)
Fixpoint run_through {A} (m : async world request A) (w : world) : result A * world :=
  match m with
  | Done r => (r, w)
  | Await q k => let (m', w') := k (answer_of q) w in run_through m' w'
  end.

Definition run_call {A} (o : async world request A * world) : result A * world := run_through (fst o) (snd o).

#[local] Notation preflight_call := (preparePreflight demo_outside demo_operation stocked).
Definition prepared : world := Eval vm_compute in world_of (run_call preflight_call).
Lemma demo_prepares : run_call preflight_call = (Ok 0%nat, prepared).
Proof. vm_compute. reflexivity. Qed.

(** The server saw the request end. *)
Definition demo_ended : val := VObj [
  ("actualPeerEof", VBool true); ("exactRequestValidated", VBool true); ("endpointId", VNum 1); ("familyId", VNum 2); ("operationId", VNum 1);
  ("descriptorSequence", VBig 0); ("descriptorHash", VBytes (hash_of paid_descriptor));
  ("requestId", VBytes (replicate 16 Byte.x71)); ("requestCommitment", key Byte.x72)].

Definition minted : world := Eval vm_compute in world_of (mint demo_ended prepared).
Lemma demo_mints : mint demo_ended prepared = (Ok 1%nat, minted).
Proof. vm_compute. reflexivity. Qed.

#[local] Notation confirm_call := (confirmAfterEof demo_outside (Some 0%nat) demo_operation (Some 1%nat) minted).

(** The confirmation of this relay succeeds. *)
Example demo_confirms : exists p w', run_call confirm_call = (Ok p, w') /\ spendTag p = replicate 32 Byte.x73 /\ cost_costUnits (costClass p) = VBig 7.
Proof. eexists _, _. split; [vm_compute; reflexivity|]. split; reflexivity. Qed.

(** And no other with its authorities. *)
Example demo_confirms_once : fst (run_call (confirmAfterEof demo_outside (Some 0%nat) demo_operation (Some 1%nat) (world_of (run_call confirm_call)))) = Err Admission.SPEND_INVALID.
Proof. vm_compute. reflexivity. Qed.

(** ** Reachability *)

Definition demo_reach := admission_reachable demo_outside demo_limits accepts_all demo_bounds demo_world.
Definition demo_steps := admission_steps demo_outside demo_limits accepts_all demo_bounds.

Lemma run_steps {A} (m : async world request A) ts w :
  demo_steps (w, ts ++ [Task m]) (snd (run_through m w), ts ++ [Task (Done (fst (run_through m w)))]).
Proof.
  revert w. induction m as [r|X q k IH] using async_rect'; intros w; cbn [run_through fst snd]; [apply rtc_refl|].
  specialize (IH (answer_of q) w). destruct (k (answer_of q) w) as [m' w'] eqn:E. cbn [fst] in IH.
  eapply rtc_l; [|exact (IH w')]. by eapply step_resume.
Qed.

Lemma call_steps {A} (o : async world request A * world) ts r w : run_call o = (r, w) ->
  demo_steps (snd o, ts ++ [Task (fst o)]) (w, ts ++ [Task (Done r)]).
Proof. intros Ho. pose proof (run_steps (fst o) ts (snd o)) as Hrun. fold (run_call o) in Hrun. by rewrite Ho in Hrun. Qed.

Lemma demo_reach_preflight : demo_reach prepared [Task (Done (A := nat) (Ok 0%nat))].
Proof.
  pose proof (call_steps preflight_call [] _ _ demo_prepares) as Hrun.
  assert (H1 : demo_activate paid_descriptor demo_new = (fst (demo_activate paid_descriptor demo_new), paid_state)) by (vm_compute; reflexivity).
  assert (H2 : installParameters demo_outside accepts_all demo_bounds (VBytes demo_parameters) paid_world =
    (fst (installParameters demo_outside accepts_all demo_bounds (VBytes demo_parameters) paid_world), stocked)) by (vm_compute; reflexivity).
  refine (rtc_l _ _ (paid_world, []) _ (step_descriptors _ _ _ _ demo_world [] paid_state (step_activate _ _ (VBytes paid_descriptor) VUndef demo_new _ _ H1)) _).
  refine (rtc_l _ _ (stocked, []) _ (step_install _ _ _ _ (VBytes demo_parameters) paid_world [] _ _ H2) _).
  exact (rtc_l _ _ _ _ (step_preflight _ _ _ _ demo_operation stocked [] _ _ (surjective_pairing preflight_call)) Hrun).
Qed.

Lemma demo_reach_minted : demo_reach minted [Task (Done (A := nat) (Ok 0%nat))].
Proof. unfold demo_reach, admission_reachable, admission_steps. exact (rtc_r _ _ _ demo_reach_preflight (step_mint _ _ _ _ demo_ended prepared _ _ _ demo_mints)). Qed.

Lemma demo_in_progress : in_progress (fst confirm_call) = true.
Proof. vm_compute. reflexivity. Qed.

(** ** Witnesses *)

Lemma admission_books_witness : books demo_outside demo_limits accepts_all demo_bounds minted.
Proof. exact (admission_books demo_outside (VObj []) (VObj []) demo_limits demo_new accepts_all demo_bounds demo_world demo_created demo_coordinator minted _ demo_reach_minted). Defined.

Lemma authorities_single_use_witness : let w2 := world_of (run_call confirm_call) in
  (forall input' e', confirmAfterEof demo_outside (Some 0%nat) input' e' w2 = (Done (Err Admission.SPEND_INVALID), w2)) /\
  (forall a' input', in_progress (fst (confirmAfterEof demo_outside (Some a') input' (Some 1%nat) w2)) = false).
Proof.
  destruct (authorities_single_use demo_outside (VObj []) (VObj []) demo_limits demo_new accepts_all demo_bounds demo_world demo_created demo_coordinator
    minted _ 0 demo_operation (Some 1%nat) (fst confirm_call) (snd confirm_call) (snd (run_call confirm_call)) _
    demo_reach_minted ltac:(cbn; lia) (surjective_pairing confirm_call) (run_steps (fst confirm_call) _ (snd confirm_call))) as [H1 H2].
  split; [exact H1|exact (H2 demo_in_progress)].
Defined.
