(* ===== verification/CellRecords.v ===== *)
(** * The records of the cell store (packages/blind-daemon/storage-engine.js, packages/blind-protocol/client-internal-schemas.js)

    What the cell storage engine writes to the log: one schema per type of
    frame, and the prepared admission that several of them carry as bytes. *)

From Stdlib Require Import ZArith Lia Bool List String Ascii.
From Stdlib Require Import Strings.Byte.
From stdpp Require Import base tactics list strings.
From S2P Require Import Prelude Codec CodecLaws Authority SchemaKit ResultBinding.

Module CellRecord.
Import Binding.

(** ** Types of frames *)

Definition INGRESS_RESERVED : Z := 1.
Definition ATTEMPT_CONSUMED : Z := 2.
Definition PUT_COMMITTED : Z := 3.
Definition PUT_TERMINAL : Z := 4.
Definition RENEW_COMMITTED : Z := 5.
Definition DROP_COMMITTED : Z := 6.
Definition POLICY_COMMITTED : Z := 7.
Definition GC_COMMITTED : Z := 8.
Definition FLOOR_ADVANCE : Z := 9.
Definition CLOCK_UNSAFE : Z := 10.
Definition CLOCK_CONFIRM : Z := 11.
Definition COMPACT : Z := 12.
Definition INTEGRITY_FAILED : Z := 13.
Definition READ_PIN_COMMITTED : Z := 14.
Definition READ_PIN_FINALIZED : Z := 15.
Definition READ_PIN_EXPIRED : Z := 16.
Definition PUT_ATOMIC_COMMITTED : Z := 17.

(** ** Encodings *)

(** [constant (u64be, 0n)]: the expected value is a BigInt. *)
Definition constantBig (encoding : encoding) (expected : Z) : Codec.encoding := {|
  preencode s value _ :=
    let value := if nullish value then VBig expected else value in
    fail_if (negb (strict_eqb value (VBig expected))) ;;!
    preencode encoding s (VBig expected) VUndef;
  encode s value _ :=
    let value := if nullish value then VBig expected else value in
    fail_if (negb (strict_eqb value (VBig expected))) ;;!
    encode encoding s (VBig expected) VUndef;
  decode s _ :=
    let! (value, s) := decode encoding s VUndef in
    fail_if (negb (strict_eqb value (VBig expected))) ;;!
    Ok (value, s)
|}.

#[export] Instance constantBig_lawful e n : Lawful e [] TBig -> Lawful (constantBig e n) [] TBig.
Proof.
  intros Hl.
  apply (wrapped_lawful e _ [] [] TBig TBig (fun _ => VBig n) (fun _ => VUndef)
    (fun v => fail_if (negb (strict_eqb (if nullish v then VBig n else v) (VBig n))))
    (fun v => fail_if (negb (strict_eqb v (VBig n))))); auto with hive.
  - intros v Ht Hc. split; [|done]. by destruct v.
  - intros v Ht Hc. oks. b2p. destruct v as [| | |z| | | | | |]; try discriminate. cbn in *. b2p. subst z. by rewrite Z.eqb_refl.
Qed.

#[global] Typeclasses Opaque constantBig.

Definition isZero (value : bytes) : bool := forallb (fun b => Byte.eqb b Byte.x00) value.

Definition nonzeroStateRevision : encoding := u64be.

(** ** Admissions and atomic puts *)

Definition validate_blindPreparedAdmissionStoreV1 (value : val) : result unit :=
  nonzero_fields value ["spendTag"; "requestCommitment"; "parameterHash"].

Definition validate_blindPutAtomicCommittedStoreV1 (value : val) : result unit :=
  nonzero_fields value ["spendTag"; "requestCommitment"; "requestFingerprint"; "storageSlot"; "declaredBlobHash";
    "createPublicKey"; "renewPublicKey"; "dropPublicKey"; "allocationCommitment"; "blobObjectId"; "resultIdentity"].

Definition blindPreparedAdmissionStoreV1 : encoding := struct [
  ("version", version1);
  ("spendTag", bytes32);
  ("requestCommitment", bytes32);
  ("profileId", ranged u16be 1 0xffff);
  ("schemeId", ranged u16be 1 0xffff);
  ("parameterHash", bytes32);
  ("resourceClass", u16be);
  ("leaseClass", u8);
  ("costUnits", u64be);
  ("walCommitRecord", boundedBytes 1 16384)
] (Some validate_blindPreparedAdmissionStoreV1).

Definition blindPreparedAdmissionStoreV1_type : jstype := TObj [
  ("version", TConst 1); ("spendTag", TBytes); ("requestCommitment", TBytes); ("profileId", TNum); ("schemeId", TNum);
  ("parameterHash", TBytes); ("resourceClass", TNum); ("leaseClass", TNum); ("costUnits", TBig); ("walCommitRecord", TBytes)].

#[export] Instance blindPreparedAdmissionStoreV1_lawful : Lawful blindPreparedAdmissionStoreV1 [] blindPreparedAdmissionStoreV1_type.
Proof. lawful. Qed.

Definition blindPutAtomicCommittedStoreV1 : encoding := struct [
  ("version", version1);
  ("spendTag", bytes32);
  ("requestCommitment", bytes32);
  ("requestFingerprint", bytes32);
  ("storageSlot", bytes32);
  ("allocationEpoch", u32be);
  ("sizeClass", ranged u8 1 5);
  ("leaseClass", ranged u8 1 4);
  ("declaredBlobHash", bytes32);
  ("createPublicKey", bytes32);
  ("renewPublicKey", bytes32);
  ("dropPublicKey", bytes32);
  ("allocationCommitment", bytes32);
  ("profileId", ranged u16be 1 0xffff);
  ("preparedAdmissionBytes", boundedBytes 1 17408);
  ("resultBindingBytes", boundedBytes 1 1024);
  ("declaredBytes", u32be);
  ("blobObjectId", bytes32);
  ("leaseEpoch", u32be);
  ("stateRevision", constantBig u64be 0);
  ("policyRevision", constantBig u64be 0);
  ("resultIdentity", bytes32);
  ("committedEpoch", u32be)
] (Some validate_blindPutAtomicCommittedStoreV1).

Definition blindPutAtomicCommittedStoreV1_type : jstype := TObj [
  ("version", TConst 1); ("spendTag", TBytes); ("requestCommitment", TBytes); ("requestFingerprint", TBytes); ("storageSlot",
  TBytes); ("allocationEpoch", TNum); ("sizeClass", TNum); ("leaseClass", TNum); ("declaredBlobHash", TBytes); ("createPublicKey",
  TBytes); ("renewPublicKey", TBytes); ("dropPublicKey", TBytes); ("allocationCommitment", TBytes); ("profileId", TNum);
  ("preparedAdmissionBytes", TBytes); ("resultBindingBytes", TBytes); ("declaredBytes", TNum); ("blobObjectId", TBytes);
  ("leaseEpoch", TNum); ("stateRevision", TBig); ("policyRevision", TBig); ("resultIdentity", TBytes); ("committedEpoch", TNum)].

#[export] Instance blindPutAtomicCommittedStoreV1_lawful : Lawful blindPutAtomicCommittedStoreV1 [] blindPutAtomicCommittedStoreV1_type.
Proof. lawful. Qed.

(** ** Payloads *)

Definition ingressReservedV1 : encoding := struct [
  ("version", version1);
  ("spendTag", bytes32);
  ("requestCommitment", bytes32);
  ("requestFingerprint", bytes32);
  ("storageSlot", bytes32);
  ("allocationEpoch", u32be);
  ("sizeClass", ranged u8 1 5);
  ("leaseClass", ranged u8 1 4);
  ("declaredBlobHash", bytes32);
  ("createPublicKey", bytes32);
  ("renewPublicKey", bytes32);
  ("dropPublicKey", bytes32);
  ("allocationCommitment", bytes32);
  ("profileId", ranged u16be 1 0xffff);
  ("preparedAdmissionBytes", boundedBytes 1 17408);
  ("resultBindingBytes", optional (boundedBytes 1 1024));
  ("declaredBytes", u32be);
  ("deadlineUnixMillis", u64be);
  ("remainingAttempts", constant u8 2);
  ("reservedEpoch", u32be)
] None.

Definition ingressReservedV1_type : jstype := TObj [
  ("version", TConst 1); ("spendTag", TBytes); ("requestCommitment", TBytes); ("requestFingerprint", TBytes); ("storageSlot",
  TBytes); ("allocationEpoch", TNum); ("sizeClass", TNum); ("leaseClass", TNum); ("declaredBlobHash", TBytes); ("createPublicKey",
  TBytes); ("renewPublicKey", TBytes); ("dropPublicKey", TBytes); ("allocationCommitment", TBytes); ("profileId", TNum);
  ("preparedAdmissionBytes", TBytes); ("resultBindingBytes", TOpt TBytes); ("declaredBytes", TNum); ("deadlineUnixMillis", TBig);
  ("remainingAttempts", TConst 2); ("reservedEpoch", TNum)].

#[export] Instance ingressReservedV1_lawful : Lawful ingressReservedV1 [] ingressReservedV1_type.
Proof. lawful. Qed.

Definition attemptConsumedV1 : encoding := struct [
  ("version", version1);
  ("spendTag", bytes32);
  ("requestCommitment", bytes32);
  ("remainingAttempts", ranged u8 0 1)
] None.

Definition attemptConsumedV1_type : jstype := TObj [
  ("version", TConst 1); ("spendTag", TBytes); ("requestCommitment", TBytes); ("remainingAttempts", TNum)].

#[export] Instance attemptConsumedV1_lawful : Lawful attemptConsumedV1 [] attemptConsumedV1_type.
Proof. lawful. Qed.

Definition putCommittedV1 : encoding := struct [
  ("version", version1);
  ("spendTag", bytes32);
  ("requestCommitment", bytes32);
  ("requestFingerprint", bytes32);
  ("storageSlot", bytes32);
  ("blobObjectId", bytes32);
  ("leaseEpoch", u32be);
  ("stateRevision", constantBig u64be 0);
  ("policyRevision", constantBig u64be 0);
  ("resultBindingBytes", optional (boundedBytes 1 1024));
  ("resultIdentity", bytes32);
  ("committedEpoch", u32be)
] None.

Definition putCommittedV1_type : jstype := TObj [
  ("version", TConst 1); ("spendTag", TBytes); ("requestCommitment", TBytes); ("requestFingerprint", TBytes); ("storageSlot",
  TBytes); ("blobObjectId", TBytes); ("leaseEpoch", TNum); ("stateRevision", TBig); ("policyRevision", TBig);
  ("resultBindingBytes", TOpt TBytes); ("resultIdentity", TBytes); ("committedEpoch", TNum)].

#[export] Instance putCommittedV1_lawful : Lawful putCommittedV1 [] putCommittedV1_type.
Proof. lawful. Qed.

Definition putTerminalV1 : encoding := struct [
  ("version", version1);
  ("spendTag", bytes32);
  ("requestCommitment", bytes32);
  ("requestFingerprint", bytes32);
  ("terminalReason", ranged u8 1 3);
  ("terminalEpoch", u32be)
] None.

Definition putTerminalV1_type : jstype := TObj [
  ("version", TConst 1); ("spendTag", TBytes); ("requestCommitment", TBytes); ("requestFingerprint", TBytes); ("terminalReason",
  TNum); ("terminalEpoch", TNum)].

#[export] Instance putTerminalV1_lawful : Lawful putTerminalV1 [] putTerminalV1_type.
Proof. lawful. Qed.

Definition renewCommittedV1 : encoding := struct [
  ("version", version1);
  ("spendTag", bytes32);
  ("requestCommitment", bytes32);
  ("requestFingerprint", bytes32);
  ("storageSlot", bytes32);
  ("profileId", ranged u16be 1 0xffff);
  ("oldStateRevision", nonzeroStateRevision);
  ("newStateRevision", nonzeroStateRevision);
  ("oldLeaseEpoch", u32be);
  ("newLeaseEpoch", u32be);
  ("leaseClass", ranged u8 1 4);
  ("preparedAdmissionBytes", boundedBytes 1 17408);
  ("resultBindingBytes", optional (boundedBytes 1 1024));
  ("resultIdentity", bytes32);
  ("committedEpoch", u32be)
] None.

Definition renewCommittedV1_type : jstype := TObj [
  ("version", TConst 1); ("spendTag", TBytes); ("requestCommitment", TBytes); ("requestFingerprint", TBytes); ("storageSlot",
  TBytes); ("profileId", TNum); ("oldStateRevision", TBig); ("newStateRevision", TBig); ("oldLeaseEpoch", TNum); ("newLeaseEpoch",
  TNum); ("leaseClass", TNum); ("preparedAdmissionBytes", TBytes); ("resultBindingBytes", TOpt TBytes); ("resultIdentity",
  TBytes); ("committedEpoch", TNum)].

#[export] Instance renewCommittedV1_lawful : Lawful renewCommittedV1 [] renewCommittedV1_type.
Proof. lawful. Qed.

Definition dropCommittedV1 : encoding := struct [
  ("version", version1);
  ("requestCommitment", bytes32);
  ("requestFingerprint", bytes32);
  ("storageSlot", bytes32);
  ("oldStateRevision", u64be);
  ("newStateRevision", nonzeroStateRevision);
  ("oldLeaseEpoch", u32be);
  ("resultBindingBytes", optional (boundedBytes 1 1024));
  ("resultIdentity", bytes32);
  ("committedEpoch", u32be)
] None.

Definition dropCommittedV1_type : jstype := TObj [
  ("version", TConst 1); ("requestCommitment", TBytes); ("requestFingerprint", TBytes); ("storageSlot", TBytes);
  ("oldStateRevision", TBig); ("newStateRevision", TBig); ("oldLeaseEpoch", TNum); ("resultBindingBytes", TOpt TBytes);
  ("resultIdentity", TBytes); ("committedEpoch", TNum)].

#[export] Instance dropCommittedV1_lawful : Lawful dropCommittedV1 [] dropCommittedV1_type.
Proof. lawful. Qed.

Definition policyCommittedV1 : encoding := struct [
  ("version", version1);
  ("storageSlot", bytes32);
  ("oldPolicyRevision", u64be);
  ("newPolicyRevision", nonzeroStateRevision);
  ("policyState", ranged u8 1 2);
  ("committedEpoch", u32be)
] None.

Definition policyCommittedV1_type : jstype := TObj [
  ("version", TConst 1); ("storageSlot", TBytes); ("oldPolicyRevision", TBig); ("newPolicyRevision", TBig); ("policyState", TNum);
  ("committedEpoch", TNum)].

#[export] Instance policyCommittedV1_lawful : Lawful policyCommittedV1 [] policyCommittedV1_type.
Proof. lawful. Qed.

Definition gcCommittedV1 : encoding := struct [
  ("version", version1);
  ("storageSlot", bytes32);
  ("oldStateRevision", u64be);
  ("newStateRevision", nonzeroStateRevision);
  ("expectedLeaseEpoch", u32be);
  ("tombstoneEpoch", u32be)
] None.

Definition gcCommittedV1_type : jstype := TObj [
  ("version", TConst 1); ("storageSlot", TBytes); ("oldStateRevision", TBig); ("newStateRevision", TBig); ("expectedLeaseEpoch",
  TNum); ("tombstoneEpoch", TNum)].

#[export] Instance gcCommittedV1_lawful : Lawful gcCommittedV1 [] gcCommittedV1_type.
Proof. lawful. Qed.

Definition floorTransitionV1 : encoding := struct [
  ("version", version1);
  ("oldEpochFloor", u32be);
  ("newEpochFloor", u32be)
] None.

Definition floorTransitionV1_type : jstype := TObj [
  ("version", TConst 1); ("oldEpochFloor", TNum); ("newEpochFloor", TNum)].

#[export] Instance floorTransitionV1_lawful : Lawful floorTransitionV1 [] floorTransitionV1_type.
Proof. lawful. Qed.

Definition clockUnsafeV1 : encoding := struct [
  ("version", version1);
  ("epochFloor", u32be);
  ("observedEpoch", u32be);
  ("direction", ranged u8 1 2)
] None.

Definition clockUnsafeV1_type : jstype := TObj [
  ("version", TConst 1); ("epochFloor", TNum); ("observedEpoch", TNum); ("direction", TNum)].

#[export] Instance clockUnsafeV1_lawful : Lawful clockUnsafeV1 [] clockUnsafeV1_type.
Proof. lawful. Qed.

Definition compactV1 : encoding := struct [
  ("version", version1);
  ("entryKind", ranged u8 1 3);
  ("key", bytes32);
  ("compactedEpoch", u32be)
] None.

Definition compactV1_type : jstype := TObj [
  ("version", TConst 1); ("entryKind", TNum); ("key", TBytes); ("compactedEpoch", TNum)].

#[export] Instance compactV1_lawful : Lawful compactV1 [] compactV1_type.
Proof. lawful. Qed.

Definition integrityFailedV1 : encoding := struct [
  ("version", version1);
  ("reason", ranged u8 1 3);
  ("detectedEpoch", u32be);
  ("evidenceHash", bytes32)
] None.

Definition integrityFailedV1_type : jstype := TObj [
  ("version", TConst 1); ("reason", TNum); ("detectedEpoch", TNum); ("evidenceHash", TBytes)].

#[export] Instance integrityFailedV1_lawful : Lawful integrityFailedV1 [] integrityFailedV1_type.
Proof. lawful. Qed.

Definition validate_chargedReadPinEntryV1 (value : val) : result unit :=
  let zero name := isZero (raw value.[name]) in
  throw_if (is_num value.["present"] 0 && (negb (is_num value.["sizeClass"] 0) || negb (is_num value.["allocationEpoch"] 0)
    || negb (is_num value.["leaseClass"] 0) || negb (is_num value.["leaseEpoch"] 0) || negb (strict_eqb value.["stateRevision"] (VBig 0))
    || negb (strict_eqb value.["policyRevision"] (VBig 0)) || negb (zero "cellBlobHash") || negb (zero "allocationCommitment"))) GenericError ;;!
  throw_if (is_num value.["present"] 1 && (is_num value.["sizeClass"] 0 || is_num value.["leaseClass"] 0
    || zero "storageSlot" || zero "cellBlobHash" || zero "allocationCommitment")) GenericError.

Definition chargedReadPinEntryV1 : encoding := struct [
  ("storageSlot", bytes32);
  ("present", ranged u8 0 1);
  ("sizeClass", ranged u8 0 5);
  ("allocationEpoch", u32be);
  ("leaseClass", ranged u8 0 4);
  ("leaseEpoch", u32be);
  ("stateRevision", u64be);
  ("policyRevision", u64be);
  ("cellBlobHash", bytes32);
  ("allocationCommitment", bytes32)
] (Some validate_chargedReadPinEntryV1).

Definition chargedReadPinEntryV1_type : jstype := TObj [
  ("storageSlot", TBytes); ("present", TNum); ("sizeClass", TNum); ("allocationEpoch", TNum); ("leaseClass", TNum); ("leaseEpoch",
  TNum); ("stateRevision", TBig); ("policyRevision", TBig); ("cellBlobHash", TBytes); ("allocationCommitment", TBytes)].

#[export] Instance chargedReadPinEntryV1_lawful : Lawful chargedReadPinEntryV1 [] chargedReadPinEntryV1_type.
Proof. lawful. Qed.

Definition chargedReadPinEntriesV1 : encoding := arrayOf chargedReadPinEntryV1 1 64.

Definition validate_chargedReadPinCommittedV1 (value : val) : result unit :=
  throw_if (negb (is_num value.["operationId"] OPERATION_CELL_GET) && negb (is_num value.["operationId"] OPERATION_CELL_PROVE)
    && negb (is_num value.["operationId"] OPERATION_CELL_BATCH_GET)) GenericError ;;!
  throw_if (negb (is_num value.["operationId"] OPERATION_CELL_BATCH_GET) && negb (Z.of_nat (List.length (elems value.["entries"])) =? 1)) GenericError.

Definition chargedReadPinCommittedV1 : encoding := struct [
  ("version", version1);
  ("operationId", ranged u8 OPERATION_CELL_GET OPERATION_CELL_BATCH_GET);
  ("spendTag", bytes32);
  ("requestCommitment", bytes32);
  ("requestFingerprint", bytes32);
  ("preparedAdmissionBytes", boundedBytes 1 17408);
  ("resultBindingBytes", boundedBytes 1 1024);
  ("receiptEpoch", u32be);
  ("retryExpiresUnixMillis", u64be);
  ("entries", chargedReadPinEntriesV1);
  ("committedEpoch", u32be)
] (Some validate_chargedReadPinCommittedV1).

Definition chargedReadPinCommittedV1_type : jstype := TObj [
  ("version", TConst 1); ("operationId", TNum); ("spendTag", TBytes); ("requestCommitment", TBytes); ("requestFingerprint",
  TBytes); ("preparedAdmissionBytes", TBytes); ("resultBindingBytes", TBytes); ("receiptEpoch", TNum); ("retryExpiresUnixMillis",
  TBig); ("entries", TArr chargedReadPinEntryV1_type); ("committedEpoch", TNum)].

#[export] Instance chargedReadPinCommittedV1_lawful : Lawful chargedReadPinCommittedV1 [] chargedReadPinCommittedV1_type.
Proof. lawful. Qed.

Definition chargedReadPinFinalizedV1 : encoding := struct [
  ("version", version1);
  ("spendTag", bytes32);
  ("requestCommitment", bytes32);
  ("resultCommitment", bytes32);
  ("finalizedEpoch", u32be)
] None.

Definition chargedReadPinFinalizedV1_type : jstype := TObj [
  ("version", TConst 1); ("spendTag", TBytes); ("requestCommitment", TBytes); ("resultCommitment", TBytes); ("finalizedEpoch",
  TNum)].

#[export] Instance chargedReadPinFinalizedV1_lawful : Lawful chargedReadPinFinalizedV1 [] chargedReadPinFinalizedV1_type.
Proof. lawful. Qed.

Definition chargedReadPinExpiredV1 : encoding := struct [
  ("version", version1);
  ("spendTag", bytes32);
  ("requestCommitment", bytes32);
  ("retryExpiresUnixMillis", u64be);
  ("observedUnixMillis", u64be);
  ("terminalEpoch", u32be)
] None.

Definition chargedReadPinExpiredV1_type : jstype := TObj [
  ("version", TConst 1); ("spendTag", TBytes); ("requestCommitment", TBytes); ("retryExpiresUnixMillis", TBig);
  ("observedUnixMillis", TBig); ("terminalEpoch", TNum)].

#[export] Instance chargedReadPinExpiredV1_lawful : Lawful chargedReadPinExpiredV1 [] chargedReadPinExpiredV1_type.
Proof. lawful. Qed.

(** ** The table *)

(** [WAL_PAYLOAD_CODEC] *)
Definition WAL_PAYLOAD_CODEC : list (Z * encoding) := [
  (INGRESS_RESERVED, ingressReservedV1);
  (ATTEMPT_CONSUMED, attemptConsumedV1);
  (PUT_COMMITTED, putCommittedV1);
  (PUT_TERMINAL, putTerminalV1);
  (RENEW_COMMITTED, renewCommittedV1);
  (DROP_COMMITTED, dropCommittedV1);
  (POLICY_COMMITTED, policyCommittedV1);
  (GC_COMMITTED, gcCommittedV1);
  (FLOOR_ADVANCE, floorTransitionV1);
  (CLOCK_UNSAFE, clockUnsafeV1);
  (CLOCK_CONFIRM, floorTransitionV1);
  (COMPACT, compactV1);
  (INTEGRITY_FAILED, integrityFailedV1);
  (READ_PIN_COMMITTED, chargedReadPinCommittedV1);
  (READ_PIN_FINALIZED, chargedReadPinFinalizedV1);
  (READ_PIN_EXPIRED, chargedReadPinExpiredV1);
  (PUT_ATOMIC_COMMITTED, blindPutAtomicCommittedStoreV1)].

(** The type of the value of each payload. *)
Definition WAL_PAYLOAD_TYPE : list (Z * jstype) := [
  (INGRESS_RESERVED, ingressReservedV1_type);
  (ATTEMPT_CONSUMED, attemptConsumedV1_type);
  (PUT_COMMITTED, putCommittedV1_type);
  (PUT_TERMINAL, putTerminalV1_type);
  (RENEW_COMMITTED, renewCommittedV1_type);
  (DROP_COMMITTED, dropCommittedV1_type);
  (POLICY_COMMITTED, policyCommittedV1_type);
  (GC_COMMITTED, gcCommittedV1_type);
  (FLOOR_ADVANCE, floorTransitionV1_type);
  (CLOCK_UNSAFE, clockUnsafeV1_type);
  (CLOCK_CONFIRM, floorTransitionV1_type);
  (COMPACT, compactV1_type);
  (INTEGRITY_FAILED, integrityFailedV1_type);
  (READ_PIN_COMMITTED, chargedReadPinCommittedV1_type);
  (READ_PIN_FINALIZED, chargedReadPinFinalizedV1_type);
  (READ_PIN_EXPIRED, chargedReadPinExpiredV1_type);
  (PUT_ATOMIC_COMMITTED, blindPutAtomicCommittedStoreV1_type)].

Definition codec_of (type : Z) : option encoding := snd <$> List.find (fun e => fst e =? type) WAL_PAYLOAD_CODEC.
Definition type_of (type : Z) : option jstype := snd <$> List.find (fun e => fst e =? type) WAL_PAYLOAD_TYPE.

Lemma codec_lawful type e : codec_of type = Some e -> exists t, type_of type = Some t /\ Lawful e [] t.
Proof.
  unfold codec_of, type_of, WAL_PAYLOAD_CODEC, WAL_PAYLOAD_TYPE. cbn [List.find fst].
  repeat (destruct (_ =? type); [intros [= <-]; eexists; split; [reflexivity|apply _]|]). discriminate.
Qed.

End CellRecord.
