(* ===== verification/ExpiryHeap.v ===== *)
(** * The expiry queue of the cell store (packages/blind-daemon/storage-engine.js)

    A binary heap in an array, with the pins of charged reads ordered by the
    time at which they expire: [pushExpiry] and [popExpiry], and that what is
    popped is always a least one. *)

From Stdlib Require Import ZArith Lia Bool List String Ascii.
From Stdlib Require Import Strings.Byte.
From stdpp Require Import base tactics list strings.
From S2P Require Import Prelude.

Module Expiry.

Record expiry := { retryExpiresUnixMillis : Z; spendKey : bytes; transactionId : bytes }.

(** [left < right] on texts in hexadecimal: the digits are in the order of their
    values, so it is the order of the bytes. *)
Fixpoint text_before (a b : bytes) : bool :=
  match a, b with
  | x :: a', y :: b' => if Byte.eqb x y then text_before a' b' else b2z x <? b2z y
  | [], _ :: _ => true
  | _, [] => false
  end.

Definition expiryBefore (left right : expiry) : bool :=
  (retryExpiresUnixMillis left <? retryExpiresUnixMillis right) ||
  ((retryExpiresUnixMillis left =? retryExpiresUnixMillis right) && text_before (spendKey left) (spendKey right)).

(** [(index - 1) >>> 1] *)
Definition parent (index : nat) : nat := Nat.div2 (index - 1).

(** [const swap = heap[j]; heap[j] = heap[i]; heap[i] = swap] *)
Definition swap (i j : nat) (heap : list expiry) : list expiry :=
  match heap !! i, heap !! j with
  | Some x, Some y => <[i := y]> (<[j := x]> heap)
  | _, _ => heap
  end.

(** [heap[i]] before [heap[j]] *)
Definition before (heap : list expiry) (i j : nat) : bool :=
  match heap !! i, heap !! j with Some x, Some y => expiryBefore x y | _, _ => false end.

Fixpoint push_loop (fuel : nat) (heap : list expiry) (index : nat) : list expiry :=
  match fuel with
  | O => heap
  | S fuel =>
      if Nat.eqb index 0 then heap
      else if negb (before heap index (parent index)) then heap
      else push_loop fuel (swap index (parent index) heap) (parent index)
  end.

Definition pushExpiry (heap : list expiry) (value : expiry) : list expiry :=
  push_loop (List.length heap) (heap ++ [value]) (List.length heap).

Fixpoint pop_loop (fuel : nat) (heap : list expiry) (index : nat) : list expiry :=
  match fuel with
  | O => heap
  | S fuel =>
      let left := (index * 2 + 1)%nat in
      let right := (left + 1)%nat in
      if Nat.leb (List.length heap) left then heap
      else
        let next := if Nat.ltb right (List.length heap) && before heap right left then right else left in
        if negb (before heap next index) then heap
        else pop_loop fuel (swap index next heap) next
  end.

Definition popExpiry (heap : list expiry) : option expiry * list expiry :=
  match heap with
  | [] => (None, [])
  | first :: _ =>
      let rest := removelast heap in
      match rest, last heap with
      | _ :: tail, Some final => (Some first, pop_loop (List.length rest) (final :: tail) 0)
      | _, _ => (Some first, [])
      end
  end.

(** ** The order *)

Definition le (x y : expiry) : Prop := expiryBefore y x = false.

Lemma byte_eqb_spec x y : Byte.eqb x y = true <-> x = y.
Proof. split; [apply Byte.byte_dec_bl|apply Byte.byte_dec_lb]. Qed.

Lemma byte_neq x y : Byte.eqb x y = false -> b2z x <> b2z y.
Proof. intros Hn He%b2z_inj%byte_eqb_spec. congruence. Qed.

(** Decides every comparison of bytes and leaves their numbers. *)
Ltac compare_bytes := repeat match goal with
  | |- context [Byte.eqb ?x ?y] => let E := fresh in destruct (Byte.eqb x y) eqn:E; [apply byte_eqb_spec in E; try subst x|apply byte_neq in E] end.

Lemma text_cotrans a b c : text_before a c = true -> text_before a b = true \/ text_before b c = true.
Proof.
  revert b c. induction a as [|x a IH]; intros [|y b] [|z c]; cbn; try tauto.
  compare_bytes; rewrite ?Z.ltb_lt; try done; auto; intros; lia.
Qed.

Lemma text_asym a b : text_before a b = true -> text_before b a = false.
Proof.
  revert b. induction a as [|x a IH]; intros [|y b]; cbn; try done. compare_bytes; rewrite ?Z.ltb_lt, ?Z.ltb_ge; try done; auto; intros; lia.
Qed.

Lemma before_cotrans x y z : expiryBefore x z = true -> expiryBefore x y = true \/ expiryBefore y z = true.
Proof.
  unfold expiryBefore. rewrite !orb_true_iff, !andb_true_iff, !Z.ltb_lt, !Z.eqb_eq. intros [Hlt|[He Ht]]; [lia|].
  destruct (Z.lt_trichotomy (retryExpiresUnixMillis x) (retryExpiresUnixMillis y)) as [|[Hxy|]]; [lia| |right; left; lia].
  destruct (text_cotrans _ (spendKey y) _ Ht); [left|right]; right; split; auto; lia.
Qed.

Lemma before_le x y : expiryBefore x y = true -> le x y.
Proof.
  unfold le, expiryBefore. rewrite orb_true_iff, orb_false_iff, andb_true_iff, andb_false_iff, !Z.ltb_lt, Z.ltb_ge, !Z.eqb_eq, Z.eqb_neq.
  intros [|[? ?%text_asym]]; lia || (split; [lia|by right]).
Qed.

#[export] Instance le_preorder : PreOrder le.
Proof.
  split.
  - intros x. apply not_true_is_false. intros Hx. pose proof (before_le _ _ Hx). unfold le in *. congruence.
  - intros x y z Hxy Hyz. unfold le in *. apply not_true_is_false. intros [|]%(before_cotrans _ y); congruence.
Qed.

(** ** Swapping keeps the entries *)

Lemma swap_lookup i j heap x y : heap !! i = Some x -> heap !! j = Some y ->
  forall k, swap i j heap !! k = if decide (k = i) then Some y else if decide (k = j) then Some x else heap !! k.
Proof.
  intros Hi Hj k. unfold swap. rewrite Hi, Hj. pose proof (lookup_lt_Some _ _ _ Hi). pose proof (lookup_lt_Some _ _ _ Hj).
  repeat case_decide; subst; rewrite ?list_lookup_insert_eq, ?list_lookup_insert_ne by (rewrite ?length_insert; auto); try done;
    rewrite list_lookup_insert; case_decide; rewrite ?list_lookup_insert_eq; tauto || done.
Qed.

Lemma swap_length i j heap : List.length (swap i j heap) = List.length heap.
Proof. unfold swap. repeat case_match; by rewrite ?length_insert. Qed.

Lemma swap_perm i j heap : swap i j heap ≡ₚ heap.
Proof.
  destruct (heap !! i) as [x|] eqn:Hi; [|unfold swap; by rewrite Hi]. destruct (heap !! j) as [y|] eqn:Hj; [|unfold swap; by rewrite Hi, Hj].
  apply Permutation_inj. split; [apply swap_length|]. exists (fun k => if decide (k = i) then j else if decide (k = j) then i else k). split.
  - intros k l. repeat case_decide; intros; subst; congruence || done.
  - intros k. rewrite (swap_lookup _ _ _ _ _ Hi Hj). repeat case_decide; subst; congruence.
Qed.

(** ** Order in the heap *)

(** The entry above is no later. *)
Definition settled (heap : list expiry) (k : nat) : Prop := forall x p, (0 < k)%nat -> heap !! k = Some x -> heap !! parent k = Some p -> le p x.

Definition ordered (heap : list expiry) : Prop := forall k, settled heap k.

Lemma parent_spec k : (0 < k)%nat -> (k = 2 * parent k + 1 \/ k = 2 * parent k + 2)%nat.
Proof. intros Hk. unfold parent. pose proof (Nat.div2_odd (k - 1)). destruct (Nat.odd _); cbn in *; lia. Qed.

Lemma ordered_first heap r k x : ordered heap -> heap !! 0%nat = Some r -> heap !! k = Some x -> le r x.
Proof.
  intros Ho Hr. revert x. induction k as [k IH] using lt_wf_ind. intros x Hx. destruct (decide (k = 0%nat)) as [->|Hk]; [by simplify_eq|].
  pose proof (parent_spec k ltac:(lia)). pose proof (lookup_lt_Some _ _ _ Hx).
  destruct (lookup_lt_is_Some_2 heap (parent k) ltac:(lia)) as [p Hp]. transitivity p; [apply (IH (parent k)); [lia|done]|apply (Ho k); lia || done].
Qed.

(** Everything is in order but the entry at [k] and the one above it; those
    below [k] are in order with the one above [k]. *)
Record rising (heap : list expiry) (k : nat) : Prop := {
  rising_settled : forall i, i <> k -> settled heap i;
  rising_below : forall i x g, (0 < k)%nat -> (0 < i)%nat -> parent i = k -> heap !! i = Some x -> heap !! parent k = Some g -> le g x
}.
(** Everything is in order but the entry at [k] and those below it. *)
Record sinking (heap : list expiry) (k : nat) : Prop := {
  sinking_settled : forall i, parent i <> k -> settled heap i;
  sinking_below : forall i x g, (0 < k)%nat -> (0 < i)%nat -> parent i = k -> heap !! i = Some x -> heap !! parent k = Some g -> le g x
}.

Lemma rising_done heap k : rising heap k -> settled heap k -> ordered heap.
Proof. intros [Hs _] Hk i. destruct (decide (i = k)) as [->|]; auto. Qed.

Lemma before_not heap k p : before heap k p = false -> forall x y, heap !! k = Some x -> heap !! p = Some y -> le y x.
Proof. unfold before. intros Hb x y Hx Hy. rewrite Hx, Hy in Hb. exact Hb. Qed.

Lemma before_at heap i j : before heap i j = true -> exists x y, heap !! i = Some x /\ heap !! j = Some y /\ expiryBefore x y = true.
Proof. unfold before. destruct (heap !! i) as [x|]; [|done]. destruct (heap !! j) as [y|]; [|done]. eauto. Qed.

Lemma rising_step heap k : (0 < k)%nat -> rising heap k -> before heap k (parent k) = true -> rising (swap k (parent k) heap) (parent k).
Proof.
  intros Hk [Hs Hb] (x & p & Hx & Hp & Hlt)%before_at. pose proof (parent_spec k Hk). pose proof (swap_lookup _ _ _ _ _ Hx Hp) as Hw. split.
  - intros i Hi u v Hpos Hu Hv. pose proof (parent_spec i Hpos). rewrite Hw in Hu, Hv. repeat case_decide; simplify_eq; try lia.
    + by apply (Hb i).
    + by apply before_le.
    + transitivity p; [by apply before_le|]. apply (Hs i); congruence.
    + by apply (Hs i).
  - intros i u g Hpos Hi Hpi Hu Hg. pose proof (parent_spec (parent k) Hpos). rewrite Hw in Hu, Hg. repeat case_decide; simplify_eq; try lia.
    + apply (Hs (parent k)); done || lia.
    + transitivity p; [apply (Hs (parent k)); done || lia|apply (Hs i); congruence || lia].
Qed.

Lemma push_loop_ordered fuel heap k : (k <= fuel)%nat -> rising heap k -> ordered (push_loop fuel heap k).
Proof.
  revert heap k. induction fuel as [|fuel IH]; intros heap k Hf Hr; cbn.
  - apply (rising_done heap k Hr). intros x p Hpos. lia.
  - destruct (Nat.eqb k 0) eqn:E0; [apply Nat.eqb_eq in E0; apply (rising_done heap k Hr); intros x p Hpos; lia|]. apply Nat.eqb_neq in E0.
    pose proof (parent_spec k ltac:(lia)). destruct (before heap k (parent k)) eqn:Eb; cbn [negb].
    + apply IH; [lia|]. apply rising_step; [lia|done..].
    + apply (rising_done heap k Hr). intros x p _. by apply before_not.
Qed.

Lemma push_loop_perm fuel heap k : push_loop fuel heap k ≡ₚ heap.
Proof. revert heap k. induction fuel as [|fuel IH]; intros heap k; cbn; [done|]. repeat case_match; try done. rewrite IH. apply swap_perm. Qed.

Lemma pushed_ordered heap v : ordered heap -> ordered (pushExpiry heap v).
Proof.
  intros Ho. apply push_loop_ordered; [done|]. split.
  - intros i Hi x p Hpos Hx Hp. pose proof (parent_spec i Hpos). pose proof (lookup_lt_Some _ _ _ Hx) as Hl. rewrite length_app in Hl. cbn in Hl.
    rewrite lookup_app_l in Hx, Hp by lia. by apply (Ho i).
  - intros i x g Hpos Hi He Hx. pose proof (parent_spec i Hi). pose proof (lookup_lt_Some _ _ _ Hx) as Hl. rewrite length_app in Hl. cbn in Hl. lia.
Qed.

Lemma pushed_perm heap v : pushExpiry heap v ≡ₚ v :: heap.
Proof. unfold pushExpiry. rewrite push_loop_perm. symmetry. apply Permutation_cons_append. Qed.

Lemma sinking_step heap k n : (0 < n)%nat -> parent n = k ->
  (forall i x y, (0 < i)%nat -> parent i = k -> heap !! i = Some x -> heap !! n = Some y -> le y x) ->
  sinking heap k -> before heap n k = true -> sinking (swap k n heap) n.
Proof.
  intros Hn Hpn Hmin [Hs Hb] (x & y & Hx & Hy & Hlt)%before_at. pose proof (parent_spec n Hn). pose proof (swap_lookup _ _ _ _ _ Hy Hx) as Hw. split.
  - intros i Hi u v Hpos Hu Hv. pose proof (parent_spec i Hpos). rewrite Hw in Hu, Hv. repeat case_decide; simplify_eq; try lia.
    all: first [by apply before_le | by apply (Hmin i) | by apply (Hb n) | by apply (Hs i)].
  - intros i u g Hpos Hi Hpi Hu Hg. rewrite Hw in Hu, Hg. pose proof (parent_spec i Hi). repeat case_decide; simplify_eq; try lia.
    apply (Hs i); done || lia || congruence.
Qed.

Lemma sinking_done heap k : sinking heap k -> (forall i, parent i = k -> settled heap i) -> ordered heap.
Proof. intros [Hs _] Hk i. destruct (decide (parent i = k)); auto. Qed.

(** The entry that [popExpiry] compares with is the least of those below. *)
Definition next_below (heap : list expiry) (k : nat) : nat :=
  if Nat.ltb (k * 2 + 1 + 1) (List.length heap) && before heap (k * 2 + 1 + 1) (k * 2 + 1) then (k * 2 + 1 + 1)%nat else (k * 2 + 1)%nat.

Lemma next_least heap k : (k * 2 + 1 < List.length heap)%nat -> (next_below heap k = k * 2 + 1 \/ next_below heap k = k * 2 + 1 + 1)%nat /\ (next_below heap k < List.length heap)%nat /\
  forall i x y, (0 < i)%nat -> parent i = k -> heap !! i = Some x -> heap !! next_below heap k = Some y -> le y x.
Proof.
  intros Hl. unfold next_below. destruct (Nat.ltb _ _ && before heap _ _) eqn:E; (split; [by auto|split; [first [exact Hl|by apply andb_prop in E as [?%Nat.ltb_lt _]]|]]); intros i x y Hi Hp Hx Hy;
    assert (Hc : (i = k * 2 + 1 \/ i = k * 2 + 1 + 1)%nat) by (pose proof (parent_spec i Hi); lia); clear Hp.
  - apply andb_prop in E as [_ (u & v & Hu & Hv & Hb)%before_at]. simplify_eq. destruct Hc as [->| ->]; simplify_eq; [by apply before_le|done].
  - destruct Hc as [->| ->]; simplify_eq; [done|]. pose proof (lookup_lt_Some _ _ _ Hx).
    apply andb_false_iff in E as [E%Nat.ltb_ge|E]; [lia|]. by apply (before_not _ _ _ E).
Qed.

Lemma pop_loop_ordered fuel heap k : (List.length heap <= fuel + k)%nat -> sinking heap k -> ordered (pop_loop fuel heap k).
Proof.
  assert (Hleaf : forall heap k, (List.length heap <= k * 2 + 1)%nat -> sinking heap k -> ordered heap).
  { clear. intros heap k Hl Hk. apply (sinking_done heap k Hk). intros i He x p Hpos Hx Hp. pose proof (parent_spec i Hpos). pose proof (lookup_lt_Some _ _ _ Hx). lia. }
  revert heap k. induction fuel as [|fuel IH]; intros heap k Hf Hk; cbn [pop_loop]; [apply (Hleaf heap k); [lia|done]|]. cbv zeta.
  destruct (Nat.leb _ _) eqn:El; [apply Nat.leb_le in El; by apply (Hleaf heap k)|apply Nat.leb_gt in El].
  destruct (next_least heap k El) as (Hn & Hlt & Hmin). fold (next_below heap k). set (next := next_below heap k) in *. clearbody next.
  assert (Hp : (0 < next)%nat /\ parent next = k) by (split; [lia|]; pose proof (parent_spec next ltac:(lia)); lia). destruct Hp as [Hpos Hpn].
  destruct (before heap next k) eqn:Eb; cbn [negb].
  - apply IH; [rewrite swap_length; lia|]. by apply sinking_step.
  - apply (sinking_done heap k Hk). intros i He x p Hi Hx Hp. destruct (lookup_lt_is_Some_2 heap next Hlt) as [y Hy].
    transitivity y; [|by apply (Hmin i)]. apply (before_not _ _ _ Eb); [done|congruence].
Qed.

Lemma pop_loop_perm fuel heap k : pop_loop fuel heap k ≡ₚ heap.
Proof.
  revert heap k. induction fuel as [|fuel IH]; intros heap k; cbn [pop_loop]; [done|]. cbv zeta. destruct (Nat.leb _ _); [done|].
  destruct (negb _); [done|]. rewrite IH. apply swap_perm.
Qed.

Lemma popExpiry_many a tail final : popExpiry ((a :: tail) ++ [final]) = (Some a, pop_loop (S (List.length tail)) (final :: tail) 0).
Proof. unfold popExpiry. rewrite removelast_app, last_snoc by done. cbn [removelast]. by rewrite app_nil_r. Qed.

(** What is popped is first, and the rest is in order again. *)
Lemma popped heap first rest : ordered heap -> popExpiry heap = (Some first, rest) ->
  heap ≡ₚ first :: rest /\ ordered rest /\ Forall (le first) rest.
Proof.
  intros Ho Hpop. assert (Hf : heap !! 0%nat = Some first /\ heap ≡ₚ first :: rest /\ ordered rest).
  - destruct heap as [|x heap]; [done|]. destruct (exists_last (l := x :: heap)) as (init & final & He); [done|]. rewrite He in *. clear He x heap.
    destruct init as [|a tail]; [injection Hpop as <- <-; split_and!; [done..|by intros k u v _ Hu]|].
    rewrite popExpiry_many in Hpop. apply pair_equal_spec in Hpop as [[= <-] <-]. split_and!; [done| |].
    + cbn [app]. apply perm_skip. etransitivity; [|symmetry; apply pop_loop_perm]. symmetry. apply Permutation_cons_append.
    + apply pop_loop_ordered; [cbn; lia|]. split; [|lia].
      intros i Hi u p Hpos Hu Hp. pose proof (parent_spec i Hpos). destruct i as [|i]; [lia|]. destruct (parent (S i)) as [|j] eqn:Ej; [done|]. cbn in Hu, Hp.
      pose proof (lookup_lt_Some _ _ _ Hu). pose proof (lookup_lt_Some _ _ _ Hp). apply (Ho (S i)); [lia| |].
      * change ((tail ++ [final]) !! i = Some u). by rewrite lookup_app_l by lia.
      * rewrite Ej. change ((tail ++ [final]) !! j = Some p). by rewrite lookup_app_l by lia.
  - destruct Hf as (H0 & Hp & Hr). split_and!; [done..|]. apply List.Forall_forall. intros y Hy.
    assert (Hin : In y heap) by (apply (Permutation_in y (Permutation_sym Hp)); by right). apply list_elem_of_In, list_elem_of_lookup in Hin as [k Hk].
    by apply (ordered_first heap first k).
Qed.

(** C22: The heap of expiries is a priority queue. Pushing onto an ordered heap
    gives an ordered heap with one entry more; popping takes an entry that none
    of the others comes before, by time and then by key, and leaves the others,
    ordered; and it finds nothing only in the empty heap. *)
Theorem expiry_queue heap : ordered heap ->
  (forall x, ordered (pushExpiry heap x) /\ pushExpiry heap x ≡ₚ x :: heap) /\
  (forall first rest, popExpiry heap = (Some first, rest) -> heap ≡ₚ first :: rest /\ ordered rest /\ Forall (fun x => expiryBefore x first = false) rest) /\
  (fst (popExpiry heap) = None <-> heap = []).
Proof.
  intros Ho. split_and!; [intros x; split; [by apply pushed_ordered|apply pushed_perm]|by intros; apply popped|].
  destruct heap as [|x heap]; [done|]. split; [|done]. destruct (exists_last (l := x :: heap)) as (init & final & ->); [done|].
  destruct init as [|a tail]; [done|]. by rewrite popExpiry_many.
Qed.

#[local] Notation at_millis n := {| retryExpiresUnixMillis := n; spendKey := [Byte.x01]; transactionId := [] |}.

Lemma expiry_queue_witness : let heap := pushExpiry (pushExpiry (pushExpiry [] (at_millis 30)) (at_millis 10)) (at_millis 20) in
  popExpiry heap = (Some (at_millis 10), [at_millis 20; at_millis 30]) /\ ordered [at_millis 20; at_millis 30].
Proof.
  assert (Ho : ordered (pushExpiry (pushExpiry (pushExpiry [] (at_millis 30)) (at_millis 10)) (at_millis 20))) by (by do 3 apply pushed_ordered; intros k u v _ Hu).
  split; [vm_compute; reflexivity|]. refine (proj1 (proj2 (proj1 (proj2 (expiry_queue _ Ho)) (at_millis 10) _ _))). vm_compute. reflexivity.
Defined.

End Expiry.
