(* ===== verification/CellStore.v ===== *)
(** * The cell store (packages/blind-daemon/storage-engine.js): state and log records

    What the engine keeps in memory, and [#applyFrame], the one function that
    changes it: each record of the log is checked against the state and applied,
    when it has just been written and again when the log is read. A record that
    does not fit is an integrity error, and the store does not open. *)

From Stdlib Require Import ZArith Lia Bool List String Ascii.
From Stdlib Require Import Strings.Byte.
From stdpp Require Import base tactics list strings.
From S2P Require Import Prelude JsMap Codec CodecLaws Authority Hashes SchemaKit ResultBinding WriteAheadLog CellRecords ExpiryHeap.

Module Cells.
Import CellRecord.

Definition EXPIRY_GRACE_EPOCHS : Z := 4.
Definition CLOCK_MAX_JUMP_EPOCHS : Z := 4.
Definition RETENTION_HORIZON_EPOCHS : Z := 1460.
Definition MAX_RESERVATION_MILLIS : Z := 15 * 60 * 1000.
Definition MAX_CHARGED_READ_PIN_CONTROL_BYTES : Z := 32 * 1024.
Definition CONTROL_RECORD_BYTES : Z := 512.
Definition TOMBSTONE_RECORD_BYTES : Z := 512.
Definition MAX_U32 : Z := 0xffffffff.
Definition SIX_HOURS_MILLIS : Z := 21600000.

Definition LEASE_EPOCHS : list (Z * Z) := [(1, 4); (2, 28); (3, 120); (4, 360)].
(** [LEASE_EPOCHS[leaseClass]] and [CELL_SIZE_CLASS[sizeClass]], of classes in the tables *)
Definition lease_epochs (leaseClass : Z) : Z := default 0 (table_get LEASE_EPOCHS (VNum leaseClass)).
Definition size_bytes (sizeClass : Z) : Z := default 0 (table_get CELL_SIZE_CLASS (VNum sizeClass)).

(** [new BlindWalIntegrityError(...)] *)
Definition integrity_if (cond : bool) : result unit := throw_if cond RECOVERY_GAP_READ_ONLY.
(** [try { ... } catch (error) { throw new BlindWalIntegrityError(error.message) }] *)
Definition integrity {A} (m : result A) : result A := match m with Ok x => Ok x | Err _ => Err RECOVERY_GAP_READ_ONLY end.

(** ** Values *)

Definition big (v : val) : Z := match v with VBig n => n | _ => 0 end.
Definition bytes_or_null (v : val) : option bytes := match v with VBytes bs => Some bs | _ => None end.
Definition val_of (bs : option bytes) : val := match bs with Some bs => VBytes bs | None => VNull end.
Definition same_option (left right : option bytes) : bool :=
  match left, right with Some a, Some b => bytes_eqb a b | None, None => true | _, _ => false end.

Definition fixed (value : val) (length : Z) (nonzero : bool) : result bytes :=
  match value with
  | VBytes bs => fail_if (negb (blen bs =? length)) ;;! fail_if (nonzero && isZero bs) ;;! Ok bs
  | _ => Err BAD_ENCODING
  end.

Definition integer (value : val) (minimum maximum : Z) : result Z :=
  match value with
  | VNum n => fail_if (negb (isSafeInteger n) || (n <? minimum) || (maximum <? n)) ;;! Ok n
  | _ => Err BAD_ENCODING
  end.

Definition u64 (value : val) : result Z :=
  match value with
  | VNum n => fail_if (negb (isSafeInteger n) || (n <? 0)) ;;! Ok n
  | VBig n => fail_if ((n <? 0) || (MAX_U64 <? n)) ;;! Ok n
  | _ => Err BAD_ENCODING
  end.

Definition u32bytes (value : Z) : bytes := be_bytes 4 value.
Definition u64bytes (value : Z) : bytes := be_bytes 8 value.

Section WithPlatform.
Context `{Platform}.

Definition hashParts (domain : string) (parts : list bytes) : bytes := Hash.blake2b256 (ascii_bytes domain ++ List.concat parts).

Definition requestFingerprint (parts : list bytes) : bytes := hashParts "hiverelay.blind.store-request-fingerprint.v1" parts.

Definition resultIdentity (operation : string) (slot requestCommitment blobHash : bytes) (leaseClass leaseEpoch stateRevision : Z) : bytes :=
  hashParts "hiverelay.blind.store-result-identity.v1"
    [ascii_bytes operation; slot; requestCommitment; blobHash; [z2b leaseClass]; u32bytes leaseEpoch; u64bytes stateRevision].

(** virtual-bucket.js *)
Definition deriveBlindVirtualBucket (serviceTag : Z) (locator : bytes) : Z :=
  let digest := Hash.blake2b256 (ascii_bytes "hiverelay.blind.virtual-bucket.v1" ++ [z2b serviceTag] ++ u64bytes (blen locator) ++ locator) in
  get_byte digest 0 * 0x100 + get_byte digest 1.

(** [this.transactionStore.virtualBucket(BLIND_STORE_SERVICE_TAG.CELL, storageSlot)] *)
Definition cell_bucket (storageSlot : bytes) : Z := deriveBlindVirtualBucket FAMILY_CELL storageSlot.

(** ** Configuration *)

Record config := {
  relayPublicKey : bytes;
  storeId : option bytes;
  durabilityContinuityHash : bytes;
  durabilityProfileHash : option bytes;
  reservationMillis : Z;
  maxStoredBytes : Z;
  maxStagingBytes : Z;
  maxStagingBytesPerProfile : Z;
  maxControlBytes : Z;
  maxTombstoneBytes : Z;
  maxCells : Z
}.

(** ** The state *)

Inductive object_state := Present | Tombstone.
Inductive policy_state := Visible | Suppressed.
Inductive tombstone_reason := OwnerDrop | ExpiredGc.

#[export] Instance object_state_eq : EqDecision object_state.
Proof. solve_decision. Defined.
#[export] Instance policy_state_eq : EqDecision policy_state.
Proof. solve_decision. Defined.

(** A cell; [c_blob] is the bucket and the object that holds its bytes. *)
Record cell := {
  c_storageSlot : bytes;
  c_allocationEpoch : Z;
  c_sizeClass : Z;
  c_leaseClass : Z;
  c_leaseEpoch : Z;
  c_stateRevision : Z;
  c_policyRevision : Z;
  c_cellBlobHash : bytes;
  c_blob : Z * bytes;
  c_createPublicKey : bytes;
  c_renewPublicKey : bytes;
  c_dropPublicKey : bytes;
  c_allocationCommitment : bytes;
  c_objectState : object_state;
  c_policyState : policy_state;
  c_tombstoneReason : option tombstone_reason;
  c_terminalEpoch : option Z;
  c_createSpendTag : bytes;
  c_resultIdentity : bytes;
  c_createdEpoch : Z
}.

(** What [publicCell] shows of a cell. *)
Record public_cell := {
  pc_storageSlot : bytes;
  pc_allocationEpoch : Z;
  pc_sizeClass : Z;
  pc_leaseClass : Z;
  pc_leaseEpoch : Z;
  pc_stateRevision : Z;
  pc_policyRevision : Z;
  pc_cellBlobHash : bytes;
  pc_allocationCommitment : bytes;
  pc_objectState : object_state;
  pc_policyState : policy_state
}.

Definition publicCell (c : cell) : public_cell := {|
  pc_storageSlot := c_storageSlot c; pc_allocationEpoch := c_allocationEpoch c; pc_sizeClass := c_sizeClass c; pc_leaseClass := c_leaseClass c;
  pc_leaseEpoch := c_leaseEpoch c; pc_stateRevision := c_stateRevision c; pc_policyRevision := c_policyRevision c; pc_cellBlobHash := c_cellBlobHash c;
  pc_allocationCommitment := c_allocationCommitment c; pc_objectState := c_objectState c; pc_policyState := c_policyState c |}.

Inductive status := Reserved | Committed | Terminal | ReadPinned | ReadFinalized | ReadExpired.
#[export] Instance status_eq : EqDecision status.
Proof. solve_decision. Defined.

(** What a reservation has besides: it ends with the put. *)
Record reservation := { deadlineUnixMillis : Z; remainingAttempts : Z; reservedEpoch : Z; inFlight : bool }.

(** The put of a cell, reserved first ([i_reservation]) or atomic. *)
Record ingress := {
  i_storageSlot : bytes;
  i_allocationEpoch : Z;
  i_sizeClass : Z;
  i_leaseClass : Z;
  i_declaredBlobHash : bytes;
  i_createPublicKey : bytes;
  i_renewPublicKey : bytes;
  i_dropPublicKey : bytes;
  i_allocationCommitment : bytes;
  i_profileId : Z;
  i_preparedAdmissionBytes : bytes;
  i_resultBindingBytes : option bytes;
  i_declaredBytes : Z;
  i_reservation : option reservation;
  i_resultIdentity : option bytes;
  i_terminalReason : option Z;
  i_resultCell : option public_cell
}.

Record renewal := {
  r_storageSlot : bytes;
  r_expectedStateRevision : Z;
  r_expectedLeaseEpoch : Z;
  r_requestedLeaseClass : Z;
  r_profileId : Z;
  r_resultIdentity : bytes;
  r_preparedAdmissionBytes : bytes;
  r_resultBindingBytes : option bytes;
  r_resultCell : public_cell
}.

(** One slot of a charged read, as it was when the read was paid for. *)
Record pinned := {
  n_storageSlot : bytes;
  n_present : Z;
  n_sizeClass : Z;
  n_allocationEpoch : Z;
  n_leaseClass : Z;
  n_leaseEpoch : Z;
  n_stateRevision : Z;
  n_policyRevision : Z;
  n_cellBlobHash : bytes;
  n_allocationCommitment : bytes
}.

(** A charged read. The entries and the bytes go when it expires. *)
Record pin := {
  p_retryExpiresUnixMillis : Z;
  p_entries : option (list pinned);
  p_preparedAdmissionBytes : option bytes;
  p_resultBindingBytes : option bytes;
  p_receiptEpoch : option Z;
  p_resultCommitment : option bytes;
  p_controlBytes : Z
}.

Inductive detail := Ingress (i : ingress) | Renewal (r : renewal) | Pin (p : pin).

(** An entry of [spends]. [e_operation] is the operation that made it; for a put
    the source has [undefined] or [null]. *)
Record spend := {
  e_status : status;
  e_operation : option Z;
  e_transactionId : bytes;
  e_spendTag : bytes;
  e_requestCommitment : bytes;
  e_requestFingerprint : bytes;
  e_reservedWalSequence : Z;
  e_terminalEpoch : option Z;
  e_committedEpoch : option Z;
  e_detail : detail
}.

(** An entry of [requestResults]: what a drop returned. *)
Record dropped := {
  d_requestCommitment : bytes;
  d_requestFingerprint : bytes;
  d_storageSlot : bytes;
  d_resultIdentity : bytes;
  d_resultBindingBytes : option bytes;
  d_committedEpoch : Z;
  d_transactionId : bytes;
  d_resultCell : public_cell
}.

Record accounting := {
  storedBytes : Z;
  stagingBytes : Z;
  controlBytes : Z;
  tombstoneBytes : Z;
  reservedCells : Z;
  stagingByProfile : list (Z * Z)
}.

(** What the atomic puts that are staged hold: [atomicStaging]. *)
Record staging := { a_bytes : Z; a_byProfile : list (Z * Z); a_items : Z }.

Record engine := {
  spends : list (bytes * spend);
  (** the spend key and the fingerprint *)
  commitments : list (bytes * (bytes * bytes));
  requestResults : list (bytes * dropped);
  cells : list (bytes * cell);
  books : accounting;
  atomicStaging : staging;
  epochFloor : Z;
  compactionWalHighWater : Z;
  clockUnsafe : bool;
  readOnlyReason : option string;
  (** reason, epoch and hash *)
  integrityEvidence : list (Z * Z * bytes);
  chargedReadExpiryHeap : list Expiry.expiry
}.

Definition new_engine : engine := {| spends := []; commitments := []; requestResults := []; cells := [];
  books := {| storedBytes := 0; stagingBytes := 0; controlBytes := 0; tombstoneBytes := 0; reservedCells := 0; stagingByProfile := [] |};
  atomicStaging := {| a_bytes := 0; a_byProfile := []; a_items := 0 |}; epochFloor := 0; compactionWalHighWater := 0; clockUnsafe := false; readOnlyReason := None; integrityEvidence := []; chargedReadExpiryHeap := [] |}.

(** *** Maps of the state *)

Definition get_spend (key : bytes) (s : engine) : option spend := map_get bytes_eqb key (spends s).
Definition get_commitment (key : bytes) (s : engine) : option (bytes * bytes) := map_get bytes_eqb key (commitments s).
Definition get_result (key : bytes) (s : engine) : option dropped := map_get bytes_eqb key (requestResults s).
Definition get_cell (key : bytes) (s : engine) : option cell := map_get bytes_eqb key (cells s).
Definition has {A} (o : option A) : bool := match o with Some _ => true | None => false end.

Definition set_spends x s := {| spends := x; commitments := commitments s; requestResults := requestResults s; cells := cells s; books := books s;
  atomicStaging := atomicStaging s; epochFloor := epochFloor s; compactionWalHighWater := compactionWalHighWater s; clockUnsafe := clockUnsafe s; readOnlyReason := readOnlyReason s;
  integrityEvidence := integrityEvidence s; chargedReadExpiryHeap := chargedReadExpiryHeap s |}.
Definition set_commitments x s := {| spends := spends s; commitments := x; requestResults := requestResults s; cells := cells s; books := books s;
  atomicStaging := atomicStaging s; epochFloor := epochFloor s; compactionWalHighWater := compactionWalHighWater s; clockUnsafe := clockUnsafe s; readOnlyReason := readOnlyReason s;
  integrityEvidence := integrityEvidence s; chargedReadExpiryHeap := chargedReadExpiryHeap s |}.
Definition set_results x s := {| spends := spends s; commitments := commitments s; requestResults := x; cells := cells s; books := books s;
  atomicStaging := atomicStaging s; epochFloor := epochFloor s; compactionWalHighWater := compactionWalHighWater s; clockUnsafe := clockUnsafe s; readOnlyReason := readOnlyReason s;
  integrityEvidence := integrityEvidence s; chargedReadExpiryHeap := chargedReadExpiryHeap s |}.
Definition set_cells x s := {| spends := spends s; commitments := commitments s; requestResults := requestResults s; cells := x; books := books s;
  atomicStaging := atomicStaging s; epochFloor := epochFloor s; compactionWalHighWater := compactionWalHighWater s; clockUnsafe := clockUnsafe s; readOnlyReason := readOnlyReason s;
  integrityEvidence := integrityEvidence s; chargedReadExpiryHeap := chargedReadExpiryHeap s |}.
Definition set_books x s := {| spends := spends s; commitments := commitments s; requestResults := requestResults s; cells := cells s; books := x;
  atomicStaging := atomicStaging s; epochFloor := epochFloor s; compactionWalHighWater := compactionWalHighWater s; clockUnsafe := clockUnsafe s; readOnlyReason := readOnlyReason s;
  integrityEvidence := integrityEvidence s; chargedReadExpiryHeap := chargedReadExpiryHeap s |}.
Definition set_clock floor unsafe s := {| spends := spends s; commitments := commitments s; requestResults := requestResults s; cells := cells s; books := books s;
  atomicStaging := atomicStaging s; epochFloor := floor; compactionWalHighWater := compactionWalHighWater s; clockUnsafe := unsafe; readOnlyReason := readOnlyReason s;
  integrityEvidence := integrityEvidence s; chargedReadExpiryHeap := chargedReadExpiryHeap s |}.
Definition set_highWater x s := {| spends := spends s; commitments := commitments s; requestResults := requestResults s; cells := cells s; books := books s;
  atomicStaging := atomicStaging s; epochFloor := epochFloor s; compactionWalHighWater := x; clockUnsafe := clockUnsafe s; readOnlyReason := readOnlyReason s;
  integrityEvidence := integrityEvidence s; chargedReadExpiryHeap := chargedReadExpiryHeap s |}.
Definition set_readOnly reason evidence s := {| spends := spends s; commitments := commitments s; requestResults := requestResults s; cells := cells s; books := books s;
  atomicStaging := atomicStaging s; epochFloor := epochFloor s; compactionWalHighWater := compactionWalHighWater s; clockUnsafe := clockUnsafe s; readOnlyReason := reason;
  integrityEvidence := evidence; chargedReadExpiryHeap := chargedReadExpiryHeap s |}.
Definition set_heap x s := {| spends := spends s; commitments := commitments s; requestResults := requestResults s; cells := cells s; books := books s;
  atomicStaging := atomicStaging s; epochFloor := epochFloor s; compactionWalHighWater := compactionWalHighWater s; clockUnsafe := clockUnsafe s; readOnlyReason := readOnlyReason s;
  integrityEvidence := integrityEvidence s; chargedReadExpiryHeap := x |}.

Definition set_staging x s := {| spends := spends s; commitments := commitments s; requestResults := requestResults s; cells := cells s; books := books s;
  atomicStaging := x; epochFloor := epochFloor s; compactionWalHighWater := compactionWalHighWater s; clockUnsafe := clockUnsafe s; readOnlyReason := readOnlyReason s;
  integrityEvidence := integrityEvidence s; chargedReadExpiryHeap := chargedReadExpiryHeap s |}.

Definition put_spend (key : bytes) (e : spend) (s : engine) : engine := set_spends (map_set bytes_eqb key e (spends s)) s.
Definition put_commitment (key : bytes) (c : bytes * bytes) (s : engine) : engine := set_commitments (map_set bytes_eqb key c (commitments s)) s.
Definition put_cell (key : bytes) (c : cell) (s : engine) : engine := set_cells (map_set bytes_eqb key c (cells s)) s.
Definition put_result (key : bytes) (r : dropped) (s : engine) : engine := set_results (map_set bytes_eqb key r (requestResults s)) s.

(** What an entry becomes. *)
Definition with_status (st : status) (terminal : option Z) (d : detail) (e : spend) : spend := {|
  e_status := st; e_operation := e_operation e; e_transactionId := e_transactionId e; e_spendTag := e_spendTag e; e_requestCommitment := e_requestCommitment e;
  e_requestFingerprint := e_requestFingerprint e; e_reservedWalSequence := e_reservedWalSequence e; e_terminalEpoch := terminal;
  e_committedEpoch := e_committedEpoch e; e_detail := d |}.
Definition with_committed (epoch : Z) (e : spend) : spend := {|
  e_status := e_status e; e_operation := e_operation e; e_transactionId := e_transactionId e; e_spendTag := e_spendTag e; e_requestCommitment := e_requestCommitment e;
  e_requestFingerprint := e_requestFingerprint e; e_reservedWalSequence := e_reservedWalSequence e; e_terminalEpoch := e_terminalEpoch e;
  e_committedEpoch := Some epoch; e_detail := e_detail e |}.
Definition with_reservation (r : option reservation) (i : ingress) : ingress := {|
  i_storageSlot := i_storageSlot i; i_allocationEpoch := i_allocationEpoch i; i_sizeClass := i_sizeClass i; i_leaseClass := i_leaseClass i;
  i_declaredBlobHash := i_declaredBlobHash i; i_createPublicKey := i_createPublicKey i; i_renewPublicKey := i_renewPublicKey i; i_dropPublicKey := i_dropPublicKey i;
  i_allocationCommitment := i_allocationCommitment i; i_profileId := i_profileId i; i_preparedAdmissionBytes := i_preparedAdmissionBytes i;
  i_resultBindingBytes := i_resultBindingBytes i; i_declaredBytes := i_declaredBytes i; i_reservation := r; i_resultIdentity := i_resultIdentity i;
  i_terminalReason := i_terminalReason i; i_resultCell := i_resultCell i |}.
Definition with_result (binding : option bytes) (identity : option bytes) (reason : option Z) (c : option public_cell) (i : ingress) : ingress := {|
  i_storageSlot := i_storageSlot i; i_allocationEpoch := i_allocationEpoch i; i_sizeClass := i_sizeClass i; i_leaseClass := i_leaseClass i;
  i_declaredBlobHash := i_declaredBlobHash i; i_createPublicKey := i_createPublicKey i; i_renewPublicKey := i_renewPublicKey i; i_dropPublicKey := i_dropPublicKey i;
  i_allocationCommitment := i_allocationCommitment i; i_profileId := i_profileId i; i_preparedAdmissionBytes := i_preparedAdmissionBytes i;
  i_resultBindingBytes := binding; i_declaredBytes := i_declaredBytes i; i_reservation := i_reservation i; i_resultIdentity := identity;
  i_terminalReason := reason; i_resultCell := c |}.
Definition fly (b : bool) (r : reservation) : reservation := {| deadlineUnixMillis := deadlineUnixMillis r; remainingAttempts := remainingAttempts r;
  reservedEpoch := reservedEpoch r; inFlight := b |}.

(** A cell after a transition of its state or its policy. *)
Definition with_state (leaseClass leaseEpoch stateRevision : Z) (c : cell) : cell := {|
  c_storageSlot := c_storageSlot c; c_allocationEpoch := c_allocationEpoch c; c_sizeClass := c_sizeClass c; c_leaseClass := leaseClass; c_leaseEpoch := leaseEpoch;
  c_stateRevision := stateRevision; c_policyRevision := c_policyRevision c; c_cellBlobHash := c_cellBlobHash c; c_blob := c_blob c;
  c_createPublicKey := c_createPublicKey c; c_renewPublicKey := c_renewPublicKey c; c_dropPublicKey := c_dropPublicKey c;
  c_allocationCommitment := c_allocationCommitment c; c_objectState := c_objectState c; c_policyState := c_policyState c; c_tombstoneReason := c_tombstoneReason c;
  c_terminalEpoch := c_terminalEpoch c; c_createSpendTag := c_createSpendTag c; c_resultIdentity := c_resultIdentity c; c_createdEpoch := c_createdEpoch c |}.
Definition with_policy (p : policy_state) (revision : Z) (c : cell) : cell := {|
  c_storageSlot := c_storageSlot c; c_allocationEpoch := c_allocationEpoch c; c_sizeClass := c_sizeClass c; c_leaseClass := c_leaseClass c; c_leaseEpoch := c_leaseEpoch c;
  c_stateRevision := c_stateRevision c; c_policyRevision := revision; c_cellBlobHash := c_cellBlobHash c; c_blob := c_blob c;
  c_createPublicKey := c_createPublicKey c; c_renewPublicKey := c_renewPublicKey c; c_dropPublicKey := c_dropPublicKey c;
  c_allocationCommitment := c_allocationCommitment c; c_objectState := c_objectState c; c_policyState := p; c_tombstoneReason := c_tombstoneReason c;
  c_terminalEpoch := c_terminalEpoch c; c_createSpendTag := c_createSpendTag c; c_resultIdentity := c_resultIdentity c; c_createdEpoch := c_createdEpoch c |}.
Definition entombed (reason : tombstone_reason) (stateRevision epoch : Z) (c : cell) : cell := {|
  c_storageSlot := c_storageSlot c; c_allocationEpoch := c_allocationEpoch c; c_sizeClass := c_sizeClass c; c_leaseClass := c_leaseClass c; c_leaseEpoch := c_leaseEpoch c;
  c_stateRevision := stateRevision; c_policyRevision := c_policyRevision c; c_cellBlobHash := c_cellBlobHash c; c_blob := c_blob c;
  c_createPublicKey := c_createPublicKey c; c_renewPublicKey := c_renewPublicKey c; c_dropPublicKey := c_dropPublicKey c;
  c_allocationCommitment := c_allocationCommitment c; c_objectState := Tombstone; c_policyState := c_policyState c; c_tombstoneReason := Some reason;
  c_terminalEpoch := Some epoch; c_createSpendTag := c_createSpendTag c; c_resultIdentity := c_resultIdentity c; c_createdEpoch := c_createdEpoch c |}.

End WithPlatform.
End Cells.
