(* ===== verification/CellApply.v ===== *)
(** * The cell store: applying a record of the log (packages/blind-daemon/storage-engine.js)

    [applyFrame] checks a frame against the state and changes it. It is what a
    commit does after its frame has been synced, and what opening the store does
    with every frame it reads. *)

From Stdlib Require Import ZArith Lia Bool List String Ascii.
From Stdlib Require Import Strings.Byte.
From stdpp Require Import base tactics list strings.
From S2P Require Import Prelude JsMap Codec CodecLaws Authority Hashes SchemaKit ResultBinding WriteAheadLog CellRecords ExpiryHeap CellStore.

Module Apply.
Import Binding CellRecord Cells.

Section WithPlatform.
Context `{Platform}.
Context (c : config).

(** ** Bindings, admissions and charged reads *)

(** [#resultBindingBytes] *)
Definition resultBindingBytes (value : val) : result (option bytes) :=
  if nullish value then Ok None else
  let! (canonicalBytes, binding) :=
    match (let! canonicalBytes := match value with VBytes bs => Ok bs | _ => encodeCanonical relayResultBindingV1 value end in
           let! binding := decodeCanonical relayResultBindingV1 (VBytes canonicalBytes) in
           let! again := encodeCanonical relayResultBindingV1 binding in
           throw_if (negb (bytes_eqb canonicalBytes again)) GenericError ;;!
           Ok (canonicalBytes, binding))
    with Ok x => Ok x | Err _ => Err BAD_ENCODING end in
  fail_if (negb (is_num binding.["durabilityProfileId"] 1) || negb (nullish binding.["externalCommitWitness"]) ||
           negb (bytes_eqb (raw binding.["relayPublicKey"]) (relayPublicKey c)) ||
           negb (bytes_eqb (raw binding.["durabilityContinuityHash"]) (durabilityContinuityHash c)) ||
           match storeId c with Some id => negb (bytes_eqb (raw binding.["storeId"]) id) | None => false end ||
           match durabilityProfileHash c with Some h => negb (bytes_eqb (raw binding.["durabilityProfileHash"]) h) | None => false end) ;;!
  Ok (Some canonicalBytes).

(** [#preparedAdmission]: the admission and its encoding *)
Definition preparedAdmission (value : val) : result (val * bytes) :=
  fail_if (negb (is_object value) || (falsy value.["costClass"] && nullish value.["resourceClass"])) ;;!
  let costClass := if falsy value.["costClass"] then value else value.["costClass"] in
  let! walCommitRecord := match value.["walCommitRecord"] with VBytes bs => Ok bs | _ => Err BAD_ENCODING end in
  fail_if ((blen walCommitRecord <? 1) || (16384 <? blen walCommitRecord)) ;;!
  let! spendTag := fixed value.["spendTag"] 32 true in
  let! requestCommitment := fixed value.["requestCommitment"] 32 true in
  let! profileId := integer value.["profileId"] 1 0xffff in
  let! schemeId := integer value.["schemeId"] 1 0xffff in
  let! parameterHash := fixed value.["parameterHash"] 32 true in
  let! resourceClass := integer costClass.["resourceClass"] 0 0xffff in
  let! leaseClass := integer costClass.["leaseClass"] 0 0xff in
  let! costUnits := u64 costClass.["costUnits"] in
  let prepared := VObj [("version", VNum 1); ("spendTag", VBytes spendTag); ("requestCommitment", VBytes requestCommitment);
    ("profileId", VNum profileId); ("schemeId", VNum schemeId); ("parameterHash", VBytes parameterHash);
    ("resourceClass", VNum resourceClass); ("leaseClass", VNum leaseClass); ("costUnits", VBig costUnits);
    ("walCommitRecord", VBytes walCommitRecord)] in
  let! canonicalBytes := encodeCanonical blindPreparedAdmissionStoreV1 prepared in
  Ok (prepared, canonicalBytes).

(** The [try] block of the frames with an admission: it is canonical and is for
    the spend, the commitment and the profile of the frame. *)
Definition bound_admission (value : val) (profile : bool) : result (val * bytes) :=
  let! decodedPrepared := decodeCanonical blindPreparedAdmissionStoreV1 value.["preparedAdmissionBytes"] in
  let! (prepared, canonicalBytes) := preparedAdmission decodedPrepared in
  throw_if (negb (bytes_eqb canonicalBytes (raw value.["preparedAdmissionBytes"])) ||
            negb (bytes_eqb (raw prepared.["spendTag"]) (raw value.["spendTag"])) ||
            negb (bytes_eqb (raw prepared.["requestCommitment"]) (raw value.["requestCommitment"])) ||
            (profile && negb (strict_eqb prepared.["profileId"] value.["profileId"]))) GenericError ;;!
  Ok (prepared, canonicalBytes).

Definition publiclyVisible (record : option cell) (epochFloor : Z) : bool :=
  match record with
  | Some r => bool_decide (c_objectState r = Present) && bool_decide (c_policyState r = Visible) && (epochFloor <=? c_leaseEpoch r + EXPIRY_GRACE_EPOCHS)
  | None => false
  end.

Definition ZERO32 : bytes := replicate 32 Byte.x00.

Definition chargedReadPinEntry (storageSlot : bytes) (record : option cell) (epochFloor : Z) : pinned :=
  match record with
  | Some r =>
      if publiclyVisible record epochFloor
      then {| n_storageSlot := storageSlot; n_present := 1; n_sizeClass := c_sizeClass r; n_allocationEpoch := c_allocationEpoch r;
              n_leaseClass := c_leaseClass r; n_leaseEpoch := c_leaseEpoch r; n_stateRevision := c_stateRevision r;
              n_policyRevision := c_policyRevision r; n_cellBlobHash := c_cellBlobHash r; n_allocationCommitment := c_allocationCommitment r |}
      else {| n_storageSlot := storageSlot; n_present := 0; n_sizeClass := 0; n_allocationEpoch := 0; n_leaseClass := 0; n_leaseEpoch := 0;
              n_stateRevision := 0; n_policyRevision := 0; n_cellBlobHash := ZERO32; n_allocationCommitment := ZERO32 |}
  | None => {| n_storageSlot := storageSlot; n_present := 0; n_sizeClass := 0; n_allocationEpoch := 0; n_leaseClass := 0; n_leaseEpoch := 0;
               n_stateRevision := 0; n_policyRevision := 0; n_cellBlobHash := ZERO32; n_allocationCommitment := ZERO32 |}
  end.

(** An entry as an object, and back. *)
Definition pinned_val (n : pinned) : val := VObj [
  ("storageSlot", VBytes (n_storageSlot n)); ("present", VNum (n_present n)); ("sizeClass", VNum (n_sizeClass n));
  ("allocationEpoch", VNum (n_allocationEpoch n)); ("leaseClass", VNum (n_leaseClass n)); ("leaseEpoch", VNum (n_leaseEpoch n));
  ("stateRevision", VBig (n_stateRevision n)); ("policyRevision", VBig (n_policyRevision n)); ("cellBlobHash", VBytes (n_cellBlobHash n));
  ("allocationCommitment", VBytes (n_allocationCommitment n))].
Definition pinned_of (v : val) : pinned := {|
  n_storageSlot := raw v.["storageSlot"]; n_present := num v.["present"]; n_sizeClass := num v.["sizeClass"];
  n_allocationEpoch := num v.["allocationEpoch"]; n_leaseClass := num v.["leaseClass"]; n_leaseEpoch := num v.["leaseEpoch"];
  n_stateRevision := big v.["stateRevision"]; n_policyRevision := big v.["policyRevision"]; n_cellBlobHash := raw v.["cellBlobHash"];
  n_allocationCommitment := raw v.["allocationCommitment"] |}.

(** [equal(encodeCanonical(chargedReadPinEntryV1, current), encodeCanonical(chargedReadPinEntryV1, pinned))] *)
Definition same_pin (current pinned : pinned) : result bool :=
  let! a := encodeCanonical chargedReadPinEntryV1 (pinned_val current) in
  let! b := encodeCanonical chargedReadPinEntryV1 (pinned_val pinned) in
  Ok (bytes_eqb a b).

Definition chargedBatchResultBytes (resultBindingBytes : bytes) (entries : list pinned) : Z :=
  fold_left (fun n entry => n + (if n_present entry =? 0 then 1 else 2 + size_bytes (n_sizeClass entry))) entries (162 + blen resultBindingBytes).

Definition chargedResultBand (bytes : Z) : result Z :=
  if bytes <=? 4 * 1024 then Ok 1
  else if bytes <=? 16 * 1024 then Ok 2
  else if bytes <=? 64 * 1024 then Ok 3
  else if bytes <=? 256 * 1024 then Ok 4
  else if bytes <=? 1024 * 1024 then Ok 5
  else if bytes <=? 4 * 1024 * 1024 then Ok 6
  else Err TOO_LARGE.

(** [#verifyChargedReadCost] *)
Definition verifyChargedReadCost (operationId : Z) (preparedAdmission : val) (entries : list pinned) (resultBindingBytes : bytes) : result unit :=
  let! expectedResourceClass :=
    if operationId =? OPERATION_CELL_BATCH_GET
    then chargedResultBand (chargedBatchResultBytes resultBindingBytes entries)
    else match entries with
         | first :: _ => Ok (if n_present first =? 0 then 1 else n_sizeClass first)
         | [] => Err TypeError
         end in
  throw_if (negb (is_num preparedAdmission.["resourceClass"] expectedResourceClass) || negb (is_num preparedAdmission.["leaseClass"] 0))
    (Thrown "SPEND_INVALID").

(** [#chargedReadSourcesMatch] *)
Fixpoint chargedReadSourcesMatch (entries : list pinned) (exact : bool) (s : engine) : result bool :=
  match entries with
  | [] => Ok true
  | pinned :: rest =>
      let record := get_cell (n_storageSlot pinned) s in
      if exact then
        let! same := same_pin (chargedReadPinEntry (n_storageSlot pinned) record (epochFloor s)) pinned in
        if negb same then Ok false else chargedReadSourcesMatch rest exact s
      else if n_present pinned =? 0 then chargedReadSourcesMatch rest exact s
      else match record with
           | Some r =>
               if negb (publiclyVisible record (epochFloor s)) || negb (c_sizeClass r =? n_sizeClass pinned) ||
                  negb (c_policyRevision r =? n_policyRevision pinned) || negb (bytes_eqb (c_cellBlobHash r) (n_cellBlobHash pinned)) ||
                  negb (bytes_eqb (c_allocationCommitment r) (n_allocationCommitment pinned))
               then Ok false else chargedReadSourcesMatch rest exact s
           | None => Ok false
           end
  end.

(** [encodeCanonical(chargedReadPinFinalizedV1, { ... }).byteLength], of zeros *)
Definition CHARGED_READ_FINALIZATION_CONTROL_BYTES : Z :=
  match encodeCanonical chargedReadPinFinalizedV1 (VObj [("version", VNum 1); ("spendTag", VBytes ZERO32); ("requestCommitment", VBytes ZERO32);
    ("resultCommitment", VBytes ZERO32); ("finalizedEpoch", VNum 0)]) with Ok bs => blen bs | Err _ => 0 end.

(** ** The books *)

Definition add_books (stored staging control tombstone reserved : Z) (profiles : list (Z * Z)) (a : accounting) : accounting := {|
  storedBytes := storedBytes a + stored; stagingBytes := stagingBytes a + staging; controlBytes := controlBytes a + control;
  tombstoneBytes := tombstoneBytes a + tombstone; reservedCells := reservedCells a + reserved; stagingByProfile := profiles |}.
Definition profile_bytes (profileId : Z) (profiles : list (Z * Z)) : Z := default 0 (map_get Z.eqb profileId profiles).
Definition account (stored staging control tombstone reserved : Z) (s : engine) : engine :=
  set_books (add_books stored staging control tombstone reserved (stagingByProfile (books s)) (books s)) s.

Definition valid_count (n : Z) : bool := isSafeInteger n && (0 <=? n).
Definition valid_share (n : Z) : bool := isSafeInteger n && (0 <? n).

(** [#assertAccounting] *)
Definition assertAccounting (s : engine) : result unit :=
  let a := books s in
  integrity_if (negb (forallb valid_count [storedBytes a; stagingBytes a; controlBytes a; tombstoneBytes a; reservedCells a])) ;;!
  integrity_if (negb (forallb (fun e => valid_share (snd e)) (stagingByProfile a))) ;;!
  integrity_if (negb (valid_count (a_bytes (atomicStaging s))) || negb (valid_count (a_items (atomicStaging s)))) ;;!
  integrity_if (negb (forallb (fun e => valid_share (snd e)) (a_byProfile (atomicStaging s)))).

(** [#releaseStaging] *)
Definition releaseStaging (i : ingress) (s : engine) : engine :=
  let a := books s in
  let profileBytes := profile_bytes (i_profileId i) (stagingByProfile a) - i_declaredBytes i in
  let profiles := if profileBytes =? 0 then map_delete Z.eqb (i_profileId i) (stagingByProfile a)
                  else map_set Z.eqb (i_profileId i) profileBytes (stagingByProfile a) in
  set_books (add_books 0 (- i_declaredBytes i) 0 0 0 profiles a) s.

(** ** Frames *)

(** The checks of a frame against the state, and then the change. *)
Definition checked {T} (check : engine -> result T) (change : T -> engine -> engine) : M engine unit :=
  fun s => match check s with Ok t => (Ok tt, change t s) | Err e => (Err e, s) end.

Definition frame_sequence (f : Wal.frame) : Z := Wal.sequence (Wal.head_of f).
Definition frame_transaction (f : Wal.frame) : bytes := Wal.transactionId (Wal.head_of f).
Definition frame_bucket (f : Wal.frame) : Z := Wal.virtualBucket (Wal.head_of f).

(** [#verifyBucket] *)
Definition verifyBucket (f : Wal.frame) (storageSlot : bytes) : result unit :=
  integrity_if (negb (frame_bucket f =? cell_bucket storageSlot)).

(** [new Set([createPublicKey, renewPublicKey, dropPublicKey].map(hex)).size === 3] *)
Definition distinct_keys (create renew drop : bytes) : bool :=
  negb (bytes_eqb create renew) && negb (bytes_eqb create drop) && negb (bytes_eqb renew drop).

(** The argument of [allocationCommitment] in the two frames that create a cell. *)
Definition allocation_of (value : val) : val := VObj [
  ("relayPublicKey", VBytes (relayPublicKey c)); ("storageSlot", value.["storageSlot"]); ("allocationEpoch", value.["allocationEpoch"]);
  ("sizeClass", value.["sizeClass"]); ("leaseClass", value.["leaseClass"]); ("declaredCellBlobHash", value.["declaredBlobHash"]);
  ("createPublicKey", value.["createPublicKey"]); ("renewPublicKey", value.["renewPublicKey"]); ("dropPublicKey", value.["dropPublicKey"])].

(** *** [#applyReservation] *)

Definition checkReservation (f : Wal.frame) (value : val) (s : engine) : result (option bytes * bytes) :=
  verifyBucket f (raw value.["storageSlot"]) ;;!
  integrity_if (has (get_spend (raw value.["spendTag"]) s) || has (get_commitment (raw value.["requestCommitment"]) s) ||
                has (get_cell (raw value.["storageSlot"]) s)) ;;!
  integrity_if (negb (size_bytes (num value.["sizeClass"]) =? num value.["declaredBytes"])) ;;!
  let! slot := Hash.cellStorageSlot value in
  integrity_if (negb (bytes_eqb slot (raw value.["storageSlot"]))) ;;!
  let! expectedAllocation := Hash.allocationCommitment (allocation_of value) in
  integrity_if (negb (bytes_eqb expectedAllocation (raw value.["allocationCommitment"]))) ;;!
  integrity_if (existsb (fun field => isZero (raw (get value field)))
    ["spendTag"; "requestCommitment"; "requestFingerprint"; "declaredBlobHash"; "createPublicKey"; "renewPublicKey"; "dropPublicKey"]) ;;!
  integrity_if (negb (distinct_keys (raw value.["createPublicKey"]) (raw value.["renewPublicKey"]) (raw value.["dropPublicKey"]))) ;;!
  integrity_if (negb (num value.["reservedEpoch"] =? epochFloor s) || (big value.["deadlineUnixMillis"] =? 0)) ;;!
  integrity (
    let! binding := resultBindingBytes value.["resultBindingBytes"] in
    let! (_, preparedAdmissionBytes) := bound_admission value true in
    Ok (binding, preparedAdmissionBytes)).

Definition reserved_ingress (value : val) (binding : option bytes) (preparedAdmissionBytes : bytes) : ingress := {|
  i_storageSlot := raw value.["storageSlot"]; i_allocationEpoch := num value.["allocationEpoch"]; i_sizeClass := num value.["sizeClass"];
  i_leaseClass := num value.["leaseClass"]; i_declaredBlobHash := raw value.["declaredBlobHash"]; i_createPublicKey := raw value.["createPublicKey"];
  i_renewPublicKey := raw value.["renewPublicKey"]; i_dropPublicKey := raw value.["dropPublicKey"];
  i_allocationCommitment := raw value.["allocationCommitment"]; i_profileId := num value.["profileId"];
  i_preparedAdmissionBytes := preparedAdmissionBytes; i_resultBindingBytes := binding; i_declaredBytes := num value.["declaredBytes"];
  i_reservation := Some {| deadlineUnixMillis := big value.["deadlineUnixMillis"]; remainingAttempts := num value.["remainingAttempts"];
    reservedEpoch := num value.["reservedEpoch"]; inFlight := false |};
  i_resultIdentity := None; i_terminalReason := None; i_resultCell := None |}.

(** The fields that every entry of [spends] takes from its frame. *)
Definition new_spend (f : Wal.frame) (value : val) (st : status) (operation committed : option Z) (d : detail) : spend := {|
  e_status := st; e_operation := operation; e_transactionId := frame_transaction f; e_spendTag := raw value.["spendTag"];
  e_requestCommitment := raw value.["requestCommitment"]; e_requestFingerprint := raw value.["requestFingerprint"];
  e_reservedWalSequence := frame_sequence f; e_terminalEpoch := None; e_committedEpoch := committed; e_detail := d |}.

(** [this.spends.set(...); this.commitments.set(...)] *)
Definition enter_spend (value : val) (e : spend) (s : engine) : engine :=
  put_commitment (raw value.["requestCommitment"]) (raw value.["spendTag"], raw value.["requestFingerprint"]) (put_spend (raw value.["spendTag"]) e s).

Definition applyReservation (f : Wal.frame) (value : val) : M engine unit :=
  checked (checkReservation f value) (fun t s =>
    let i := reserved_ingress value (fst t) (snd t) in
    let s := enter_spend value (new_spend f value Reserved None None (Ingress i)) s in
    let a := books s in
    let profiles := map_set Z.eqb (i_profileId i) (profile_bytes (i_profileId i) (stagingByProfile a) + i_declaredBytes i) (stagingByProfile a) in
    set_books (add_books 0 (i_declaredBytes i) CONTROL_RECORD_BYTES TOMBSTONE_RECORD_BYTES 1 profiles a) s).

(** [#reservationFor] *)
Definition reservationFor (f : Wal.frame) (value : val) (s : engine) : result (spend * ingress * reservation) :=
  match get_spend (raw value.["spendTag"]) s with
  | Some e =>
      integrity_if (bool_decide (e_status e <> Reserved) || negb (bytes_eqb (e_requestCommitment e) (raw value.["requestCommitment"])) ||
                    negb (bytes_eqb (e_transactionId e) (frame_transaction f))) ;;!
      match e_detail e with
      | Ingress i => match i_reservation i with Some r => Ok (e, i, r) | None => Err RECOVERY_GAP_READ_ONLY end
      | _ => Err RECOVERY_GAP_READ_ONLY
      end
  | None => Err RECOVERY_GAP_READ_ONLY
  end.

(** *** [#applyAttempt] *)

Definition checkAttempt (f : Wal.frame) (value : val) (s : engine) : result (spend * ingress * reservation) :=
  let! (e, i, r) := reservationFor f value s in
  verifyBucket f (i_storageSlot i) ;;!
  integrity_if (negb (num value.["remainingAttempts"] =? remainingAttempts r - 1)) ;;!
  Ok (e, i, r).

Definition applyAttempt (f : Wal.frame) (value : val) : M engine unit :=
  checked (checkAttempt f value) (fun '(e, i, r) s =>
    let r := {| deadlineUnixMillis := deadlineUnixMillis r; remainingAttempts := num value.["remainingAttempts"];
                reservedEpoch := reservedEpoch r; inFlight := inFlight r |} in
    put_spend (raw value.["spendTag"]) (with_status (e_status e) (e_terminalEpoch e) (Ingress (with_reservation (Some r) i)) e) s).

(** *** [#applyPut] *)

Definition checkPut (f : Wal.frame) (value : val) (s : engine) : result (spend * ingress * reservation * option bytes) :=
  let! (e, i, r) := reservationFor f value s in
  verifyBucket f (raw value.["storageSlot"]) ;;!
  integrity_if (negb (bytes_eqb (i_storageSlot i) (raw value.["storageSlot"])) ||
                negb (bytes_eqb (e_requestFingerprint e) (raw value.["requestFingerprint"]))) ;;!
  let expectedLeaseEpoch := num value.["committedEpoch"] + lease_epochs (i_leaseClass i) in
  let expectedResult := resultIdentity "stored" (i_storageSlot i) (e_requestCommitment e) (i_declaredBlobHash i) (i_leaseClass i) (num value.["leaseEpoch"]) 0 in
  let! binding := integrity (resultBindingBytes value.["resultBindingBytes"]) in
  integrity_if ((1 <? remainingAttempts r) || negb (num value.["committedEpoch"] =? epochFloor s) || negb (num value.["leaseEpoch"] =? expectedLeaseEpoch) ||
                negb (bytes_eqb (raw value.["resultIdentity"]) expectedResult) || isZero (raw value.["blobObjectId"]) ||
                negb (same_option (i_resultBindingBytes i) binding)) ;;!
  integrity_if (has (get_cell (raw value.["storageSlot"]) s)) ;;!
  Ok (e, i, r, binding).

Definition new_cell (f : Wal.frame) (value : val) (spendTag : bytes) (i : ingress) : cell := {|
  c_storageSlot := i_storageSlot i; c_allocationEpoch := i_allocationEpoch i; c_sizeClass := i_sizeClass i; c_leaseClass := i_leaseClass i;
  c_leaseEpoch := num value.["leaseEpoch"]; c_stateRevision := big value.["stateRevision"]; c_policyRevision := big value.["policyRevision"];
  c_cellBlobHash := i_declaredBlobHash i; c_blob := (frame_bucket f, raw value.["blobObjectId"]);
  c_createPublicKey := i_createPublicKey i; c_renewPublicKey := i_renewPublicKey i; c_dropPublicKey := i_dropPublicKey i;
  c_allocationCommitment := i_allocationCommitment i; c_objectState := Present; c_policyState := Visible; c_tombstoneReason := None;
  c_terminalEpoch := None; c_createSpendTag := spendTag; c_resultIdentity := raw value.["resultIdentity"]; c_createdEpoch := num value.["committedEpoch"] |}.

Definition applyPut (f : Wal.frame) (value : val) : M engine unit :=
  checked (checkPut f value) (fun '(e, i, r, binding) s =>
    let record := new_cell f value (e_spendTag e) i in
    let s := put_cell (raw value.["storageSlot"]) record s in
    let i := with_result binding (Some (raw value.["resultIdentity"])) (i_terminalReason i) (Some (publicCell record)) (with_reservation (Some (fly false r)) i) in
    let s := put_spend (raw value.["spendTag"]) (with_committed (num value.["committedEpoch"]) (with_status Committed (e_terminalEpoch e) (Ingress i) e)) s in
    account (i_declaredBytes i) 0 0 0 (-1) (releaseStaging i s)).

(** *** [#applyAtomicPut] *)

Definition put_fingerprint (value : val) (preparedAdmissionBytes : bytes) : bytes := requestFingerprint
  [raw value.["spendTag"]; raw value.["requestCommitment"]; raw value.["storageSlot"]; raw value.["allocationCommitment"]; raw value.["declaredBlobHash"];
   u32bytes (num value.["declaredBytes"]); [z2b (num value.["leaseClass"])]; u32bytes (num value.["profileId"]); Hash.blake2b256 preparedAdmissionBytes].

Definition checkAtomicPut (f : Wal.frame) (value : val) (s : engine) : result (option bytes * bytes) :=
  verifyBucket f (raw value.["storageSlot"]) ;;!
  integrity_if (has (get_spend (raw value.["spendTag"]) s) || has (get_commitment (raw value.["requestCommitment"]) s) ||
                has (get_cell (raw value.["storageSlot"]) s)) ;;!
  integrity_if (isZero (frame_transaction f)) ;;!
  integrity_if (negb (size_bytes (num value.["sizeClass"]) =? num value.["declaredBytes"])) ;;!
  let! slot := Hash.cellStorageSlot value in
  integrity_if (negb (bytes_eqb slot (raw value.["storageSlot"]))) ;;!
  integrity_if (negb (distinct_keys (raw value.["createPublicKey"]) (raw value.["renewPublicKey"]) (raw value.["dropPublicKey"]))) ;;!
  let! expectedAllocation := Hash.allocationCommitment (allocation_of value) in
  integrity_if (negb (bytes_eqb expectedAllocation (raw value.["allocationCommitment"]))) ;;!
  let! (binding, preparedAdmissionBytes) := integrity (
    let! binding := resultBindingBytes value.["resultBindingBytes"] in
    let! (_, preparedAdmissionBytes) := bound_admission value true in
    Ok (binding, preparedAdmissionBytes)) in
  let expectedLeaseEpoch := num value.["committedEpoch"] + lease_epochs (num value.["leaseClass"]) in
  let expectedResult := resultIdentity "stored" (raw value.["storageSlot"]) (raw value.["requestCommitment"]) (raw value.["declaredBlobHash"])
    (num value.["leaseClass"]) (num value.["leaseEpoch"]) 0 in
  integrity_if (negb (bytes_eqb (put_fingerprint value preparedAdmissionBytes) (raw value.["requestFingerprint"])) ||
                negb (num value.["committedEpoch"] =? epochFloor s) || negb (num value.["leaseEpoch"] =? expectedLeaseEpoch) ||
                negb (bytes_eqb expectedResult (raw value.["resultIdentity"])) || (num value.["committedEpoch"] + 1 <? num value.["allocationEpoch"]) ||
                (num value.["allocationEpoch"] + RETENTION_HORIZON_EPOCHS <=? num value.["committedEpoch"])) ;;!
  Ok (binding, preparedAdmissionBytes).

Definition atomic_ingress (value : val) (binding : option bytes) (preparedAdmissionBytes : bytes) : ingress := {|
  i_storageSlot := raw value.["storageSlot"]; i_allocationEpoch := num value.["allocationEpoch"]; i_sizeClass := num value.["sizeClass"];
  i_leaseClass := num value.["leaseClass"]; i_declaredBlobHash := raw value.["declaredBlobHash"]; i_createPublicKey := raw value.["createPublicKey"];
  i_renewPublicKey := raw value.["renewPublicKey"]; i_dropPublicKey := raw value.["dropPublicKey"];
  i_allocationCommitment := raw value.["allocationCommitment"]; i_profileId := num value.["profileId"];
  i_preparedAdmissionBytes := preparedAdmissionBytes; i_resultBindingBytes := binding; i_declaredBytes := num value.["declaredBytes"];
  i_reservation := None; i_resultIdentity := Some (raw value.["resultIdentity"]); i_terminalReason := None; i_resultCell := None |}.

Definition applyAtomicPut (f : Wal.frame) (value : val) : M engine unit :=
  checked (checkAtomicPut f value) (fun t s =>
    let i := atomic_ingress value (fst t) (snd t) in
    let record := new_cell f value (raw value.["spendTag"]) i in
    let i := with_result (i_resultBindingBytes i) (i_resultIdentity i) None (Some (publicCell record)) i in
    let s := enter_spend value (new_spend f value Committed None (Some (num value.["committedEpoch"])) (Ingress i)) s in
    let s := put_cell (raw value.["storageSlot"]) record s in
    account (num value.["declaredBytes"]) 0 CONTROL_RECORD_BYTES TOMBSTONE_RECORD_BYTES 0 s).

(** *** [#applyTerminal] *)

Definition checkTerminal (f : Wal.frame) (value : val) (s : engine) : result (spend * ingress * reservation) :=
  let! (e, i, r) := reservationFor f value s in
  verifyBucket f (i_storageSlot i) ;;!
  integrity_if (negb (bytes_eqb (e_requestFingerprint e) (raw value.["requestFingerprint"])) || negb (num value.["terminalEpoch"] =? epochFloor s)) ;;!
  Ok (e, i, r).

Definition applyTerminal (f : Wal.frame) (value : val) : M engine unit :=
  checked (checkTerminal f value) (fun '(e, i, r) s =>
    let i := with_result (i_resultBindingBytes i) (i_resultIdentity i) (Some (num value.["terminalReason"])) (i_resultCell i)
      (with_reservation (Some (fly false r)) i) in
    let s := put_spend (raw value.["spendTag"]) (with_status Terminal (Some (num value.["terminalEpoch"])) (Ingress i) e) s in
    account 0 0 0 (- TOMBSTONE_RECORD_BYTES) (-1) (releaseStaging i s)).

(** *** [#applyRenew] *)

Definition checkRenew (f : Wal.frame) (value : val) (s : engine) : result (cell * option bytes * bytes) :=
  verifyBucket f (raw value.["storageSlot"]) ;;!
  integrity_if (has (get_spend (raw value.["spendTag"]) s) || has (get_commitment (raw value.["requestCommitment"]) s)) ;;!
  match get_cell (raw value.["storageSlot"]) s with
  | None => Err RECOVERY_GAP_READ_ONLY
  | Some record =>
      integrity_if (bool_decide (c_objectState record <> Present) || negb (c_stateRevision record =? big value.["oldStateRevision"]) ||
                    negb (c_leaseEpoch record =? num value.["oldLeaseEpoch"]) || negb (big value.["newStateRevision"] =? big value.["oldStateRevision"] + 1) ||
                    (num value.["newLeaseEpoch"] <=? num value.["oldLeaseEpoch"])) ;;!
      let expectedLeaseEpoch := Z.max (num value.["oldLeaseEpoch"]) (num value.["committedEpoch"] + lease_epochs (num value.["leaseClass"])) in
      let expectedResult := resultIdentity "renewed" (raw value.["storageSlot"]) (raw value.["requestCommitment"]) (c_cellBlobHash record)
        (num value.["leaseClass"]) (num value.["newLeaseEpoch"]) (big value.["newStateRevision"]) in
      let! (binding, preparedAdmissionBytes) := integrity (
        let! binding := resultBindingBytes value.["resultBindingBytes"] in
        let! (_, preparedAdmissionBytes) := bound_admission value true in
        Ok (binding, preparedAdmissionBytes)) in
      integrity_if (negb (num value.["committedEpoch"] =? epochFloor s) || negb (num value.["newLeaseEpoch"] =? expectedLeaseEpoch) ||
                    negb (bytes_eqb (raw value.["resultIdentity"]) expectedResult)) ;;!
      Ok (record, binding, preparedAdmissionBytes)
  end.

(** [operation: 'renew'] *)
Definition OPERATION_RENEW : Z := OPERATION_CELL_RENEW.

Definition applyRenew (f : Wal.frame) (value : val) : M engine unit :=
  checked (checkRenew f value) (fun '(record, binding, preparedAdmissionBytes) s =>
    let record := with_state (num value.["leaseClass"]) (num value.["newLeaseEpoch"]) (big value.["newStateRevision"]) record in
    let s := put_cell (raw value.["storageSlot"]) record s in
    let r := {| r_storageSlot := raw value.["storageSlot"]; r_expectedStateRevision := big value.["oldStateRevision"];
      r_expectedLeaseEpoch := num value.["oldLeaseEpoch"]; r_requestedLeaseClass := num value.["leaseClass"]; r_profileId := num value.["profileId"];
      r_resultIdentity := raw value.["resultIdentity"]; r_preparedAdmissionBytes := preparedAdmissionBytes; r_resultBindingBytes := binding;
      r_resultCell := publicCell record |} in
    let s := enter_spend value (new_spend f value Committed (Some OPERATION_RENEW) (Some (num value.["committedEpoch"])) (Renewal r)) s in
    account 0 0 CONTROL_RECORD_BYTES 0 0 s).

(** *** [#applyDrop] *)

Definition checkDrop (f : Wal.frame) (value : val) (s : engine) : result (cell * option bytes) :=
  verifyBucket f (raw value.["storageSlot"]) ;;!
  integrity_if (has (get_result (raw value.["requestCommitment"]) s)) ;;!
  match get_cell (raw value.["storageSlot"]) s with
  | None => Err RECOVERY_GAP_READ_ONLY
  | Some record =>
      integrity_if (bool_decide (c_objectState record <> Present) || negb (c_stateRevision record =? big value.["oldStateRevision"]) ||
                    negb (c_leaseEpoch record =? num value.["oldLeaseEpoch"]) || negb (big value.["newStateRevision"] =? big value.["oldStateRevision"] + 1)) ;;!
      let expectedResult := resultIdentity "dropped" (raw value.["storageSlot"]) (raw value.["requestCommitment"]) (c_cellBlobHash record) 0
        (num value.["oldLeaseEpoch"]) (big value.["newStateRevision"]) in
      let! binding := integrity (resultBindingBytes value.["resultBindingBytes"]) in
      integrity_if (negb (num value.["committedEpoch"] =? epochFloor s) || negb (bytes_eqb (raw value.["resultIdentity"]) expectedResult)) ;;!
      Ok (record, binding)
  end.

Definition applyDrop (f : Wal.frame) (value : val) : M engine unit :=
  checked (checkDrop f value) (fun '(record, binding) s =>
    let record := entombed OwnerDrop (big value.["newStateRevision"]) (num value.["committedEpoch"]) record in
    let s := put_cell (raw value.["storageSlot"]) record s in
    let result := {| d_requestCommitment := raw value.["requestCommitment"]; d_requestFingerprint := raw value.["requestFingerprint"];
      d_storageSlot := raw value.["storageSlot"]; d_resultIdentity := raw value.["resultIdentity"]; d_resultBindingBytes := binding;
      d_committedEpoch := num value.["committedEpoch"]; d_transactionId := frame_transaction f; d_resultCell := publicCell record |} in
    let s := put_result (raw value.["requestCommitment"]) result s in
    account (- size_bytes (c_sizeClass record)) 0 0 0 0 s).

(** *** [#applyReadPin] *)

(** The loop over [value.entries] with its [slots] set. *)
Fixpoint checkPinned (slots : list bytes) (entries : list pinned) (s : engine) : result unit :=
  match entries with
  | [] => Ok tt
  | pinned :: rest =>
      integrity_if (existsb (bytes_eqb (n_storageSlot pinned)) slots) ;;!
      let! same := same_pin (chargedReadPinEntry (n_storageSlot pinned) (get_cell (n_storageSlot pinned) s) (epochFloor s)) pinned in
      integrity_if (negb same) ;;!
      checkPinned (n_storageSlot pinned :: slots) rest s
  end.

Definition read_fingerprint (operationId : Z) (spendTag requestCommitment preparedAdmissionBytes : bytes) : bytes :=
  requestFingerprint [[z2b operationId]; spendTag; requestCommitment; Hash.blake2b256 preparedAdmissionBytes].

Definition checkReadPin (f : Wal.frame) (value : val) (s : engine) : result (bytes * bytes) :=
  integrity_if (negb (frame_bucket f =? 0)) ;;!
  integrity_if (has (get_spend (raw value.["spendTag"]) s) || has (get_commitment (raw value.["requestCommitment"]) s) ||
                negb (num value.["committedEpoch"] =? epochFloor s) || negb (num value.["receiptEpoch"] =? epochFloor s) ||
                (big value.["retryExpiresUnixMillis"] =? 0) || isZero (raw value.["requestFingerprint"])) ;;!
  let! (prepared, preparedAdmissionBytes, binding) := integrity (
    let! (prepared, preparedAdmissionBytes) := bound_admission value false in
    let! binding := resultBindingBytes value.["resultBindingBytes"] in
    match binding with Some binding => Ok (prepared, preparedAdmissionBytes, binding) | None => Err GenericError end) in
  let operationId := num value.["operationId"] in
  let entries := map pinned_of (elems value.["entries"]) in
  checkPinned [] entries s ;;!
  integrity_if (negb (operationId =? OPERATION_CELL_BATCH_GET) && match entries with first :: _ => negb (n_present first =? 1) | [] => true end) ;;!
  integrity (
    throw_if (negb (bytes_eqb (raw value.["requestFingerprint"])
      (read_fingerprint operationId (raw value.["spendTag"]) (raw value.["requestCommitment"]) preparedAdmissionBytes))) GenericError ;;!
    verifyChargedReadCost operationId prepared entries binding) ;;!
  Ok (preparedAdmissionBytes, binding).

Definition applyReadPin (f : Wal.frame) (value : val) : M engine unit :=
  checked (checkReadPin f value) (fun t s =>
    let p := {| p_retryExpiresUnixMillis := big value.["retryExpiresUnixMillis"]; p_entries := Some (map pinned_of (elems value.["entries"]));
      p_preparedAdmissionBytes := Some (fst t); p_resultBindingBytes := Some (snd t); p_receiptEpoch := Some (num value.["receiptEpoch"]);
      p_resultCommitment := None; p_controlBytes := blen (Wal.payload f) + CHARGED_READ_FINALIZATION_CONTROL_BYTES |} in
    let s := enter_spend value (new_spend f value ReadPinned (Some (num value.["operationId"])) (Some (num value.["committedEpoch"])) (Pin p)) s in
    let s := account 0 0 (p_controlBytes p) 0 0 s in
    set_heap (Expiry.pushExpiry (chargedReadExpiryHeap s) {| Expiry.retryExpiresUnixMillis := p_retryExpiresUnixMillis p;
      Expiry.spendKey := raw value.["spendTag"]; Expiry.transactionId := frame_transaction f |}) s).

(** *** [#applyReadPinFinalized] and [#applyReadPinExpired] *)

(** The live pin of a spend. *)
Definition pin_for (f : Wal.frame) (value : val) (live : list status) (s : engine) : result (spend * pin) :=
  match get_spend (raw value.["spendTag"]) s with
  | Some e =>
      integrity_if (negb (bool_decide (e_status e ∈ live)) || negb (bytes_eqb (e_transactionId e) (frame_transaction f)) ||
                    negb (bytes_eqb (e_requestCommitment e) (raw value.["requestCommitment"]))) ;;!
      match e_detail e with Pin p => Ok (e, p) | _ => Err RECOVERY_GAP_READ_ONLY end
  | None => Err RECOVERY_GAP_READ_ONLY
  end.

Definition checkReadPinFinalized (f : Wal.frame) (value : val) (s : engine) : result (spend * pin) :=
  integrity_if (negb (frame_bucket f =? 0) || negb (num value.["finalizedEpoch"] =? epochFloor s)) ;;!
  let! (e, p) := pin_for f value [ReadPinned] s in
  integrity_if (isZero (raw value.["resultCommitment"]) || negb (blen (Wal.payload f) =? CHARGED_READ_FINALIZATION_CONTROL_BYTES)) ;;!
  let! matching := match p_entries p with Some entries => chargedReadSourcesMatch entries true s | None => Err TypeError end in
  integrity_if (negb matching) ;;!
  Ok (e, p).

Definition applyReadPinFinalized (f : Wal.frame) (value : val) : M engine unit :=
  checked (checkReadPinFinalized f value) (fun '(e, p) s =>
    let p := {| p_retryExpiresUnixMillis := p_retryExpiresUnixMillis p; p_entries := p_entries p; p_preparedAdmissionBytes := p_preparedAdmissionBytes p;
      p_resultBindingBytes := p_resultBindingBytes p; p_receiptEpoch := p_receiptEpoch p; p_resultCommitment := Some (raw value.["resultCommitment"]);
      p_controlBytes := p_controlBytes p |} in
    put_spend (raw value.["spendTag"]) (with_status ReadFinalized (e_terminalEpoch e) (Pin p) e) s).

Definition checkReadPinExpired (f : Wal.frame) (value : val) (s : engine) : result (spend * pin) :=
  integrity_if (negb (frame_bucket f =? 0) || negb (num value.["terminalEpoch"] =? epochFloor s)) ;;!
  let! (e, p) := pin_for f value [ReadPinned; ReadFinalized] s in
  integrity_if (negb (p_retryExpiresUnixMillis p =? big value.["retryExpiresUnixMillis"]) ||
                (big value.["observedUnixMillis"] <? big value.["retryExpiresUnixMillis"])) ;;!
  Ok (e, p).

Definition applyReadPinExpired (f : Wal.frame) (value : val) : M engine unit :=
  checked (checkReadPinExpired f value) (fun '(e, p) s =>
    let expired := {| p_retryExpiresUnixMillis := p_retryExpiresUnixMillis p; p_entries := None; p_preparedAdmissionBytes := None;
      p_resultBindingBytes := None; p_receiptEpoch := None; p_resultCommitment := None; p_controlBytes := CONTROL_RECORD_BYTES |} in
    let s := put_spend (raw value.["spendTag"]) (with_status ReadExpired (Some (num value.["terminalEpoch"])) (Pin expired) e) s in
    account 0 0 (CONTROL_RECORD_BYTES - p_controlBytes p) 0 0 s).

(** *** [#applyPolicy] *)

(** [POLICY_STATE] *)
Definition policy_code (p : policy_state) : Z := match p with Visible => 1 | Suppressed => 2 end.
Definition policy_of (code : Z) : policy_state := if code =? 1 then Visible else Suppressed.

Definition checkPolicy (f : Wal.frame) (value : val) (s : engine) : result cell :=
  verifyBucket f (raw value.["storageSlot"]) ;;!
  match get_cell (raw value.["storageSlot"]) s with
  | None => Err RECOVERY_GAP_READ_ONLY
  | Some record =>
      integrity_if (bool_decide (c_objectState record <> Present) || negb (c_policyRevision record =? big value.["oldPolicyRevision"]) ||
                    negb (big value.["newPolicyRevision"] =? big value.["oldPolicyRevision"] + 1) ||
                    (policy_code (c_policyState record) =? num value.["policyState"]) || negb (num value.["committedEpoch"] =? epochFloor s)) ;;!
      Ok record
  end.

Definition applyPolicy (f : Wal.frame) (value : val) : M engine unit :=
  checked (checkPolicy f value) (fun record s =>
    put_cell (raw value.["storageSlot"]) (with_policy (policy_of (num value.["policyState"])) (big value.["newPolicyRevision"]) record) s).

(** *** [#applyGc] *)

Definition checkGc (f : Wal.frame) (value : val) (s : engine) : result cell :=
  verifyBucket f (raw value.["storageSlot"]) ;;!
  match get_cell (raw value.["storageSlot"]) s with
  | None => Err RECOVERY_GAP_READ_ONLY
  | Some record =>
      integrity_if (bool_decide (c_objectState record <> Present) || negb (c_stateRevision record =? big value.["oldStateRevision"]) ||
                    negb (c_leaseEpoch record =? num value.["expectedLeaseEpoch"]) || negb (big value.["newStateRevision"] =? big value.["oldStateRevision"] + 1) ||
                    (num value.["tombstoneEpoch"] <=? num value.["expectedLeaseEpoch"] + EXPIRY_GRACE_EPOCHS) ||
                    negb (num value.["tombstoneEpoch"] =? epochFloor s)) ;;!
      Ok record
  end.

Definition applyGc (f : Wal.frame) (value : val) : M engine unit :=
  checked (checkGc f value) (fun record s =>
    let record := entombed ExpiredGc (big value.["newStateRevision"]) (num value.["tombstoneEpoch"]) record in
    account (- size_bytes (c_sizeClass record)) 0 0 0 0 (put_cell (raw value.["storageSlot"]) record s)).

(** *** The clock *)

(** [#applyFloor] *)
Definition checkFloor (value : val) (confirmed : bool) (s : engine) : result unit :=
  integrity_if (negb (num value.["oldEpochFloor"] =? epochFloor s) || (num value.["newEpochFloor"] <? num value.["oldEpochFloor"])) ;;!
  integrity_if (negb confirmed && (num value.["oldEpochFloor"] + CLOCK_MAX_JUMP_EPOCHS <? num value.["newEpochFloor"]) &&
                negb (num value.["oldEpochFloor"] =? 0)).

Definition applyFloor (value : val) (confirmed : bool) : M engine unit :=
  checked (checkFloor value confirmed) (fun _ s => set_clock (num value.["newEpochFloor"]) (if confirmed then false else clockUnsafe s) s).

(** [#applyClockUnsafe] *)
Definition checkClockUnsafe (value : val) (s : engine) : result unit :=
  integrity_if (negb (num value.["epochFloor"] =? epochFloor s) ||
                ((num value.["direction"] =? 1) && (num value.["epochFloor"] <=? num value.["observedEpoch"])) ||
                ((num value.["direction"] =? 2) && (num value.["observedEpoch"] <=? num value.["epochFloor"] + CLOCK_MAX_JUMP_EPOCHS))).

Definition applyClockUnsafe (value : val) : M engine unit :=
  checked (checkClockUnsafe value) (fun _ s => set_clock (epochFloor s) true s).

(** *** [#applyCompact] *)

Definition COMPACT_KIND_CELL : Z := 1.
Definition COMPACT_KIND_SPEND : Z := 2.
Definition COMPACT_KIND_REQUEST_RESULT : Z := 3.

(** When a spend ended: [entry.terminalEpoch == null ? entry.committedEpoch : entry.terminalEpoch] *)
Definition ageEpoch (e : spend) : option Z := match e_terminalEpoch e with Some epoch => Some epoch | None => e_committedEpoch e end.

(** [entry.controlBytes || CONTROL_RECORD_BYTES] *)
Definition control_of (e : spend) : Z :=
  match e_detail e with Pin p => if p_controlBytes p =? 0 then CONTROL_RECORD_BYTES else p_controlBytes p | _ => CONTROL_RECORD_BYTES end.

(** More epochs than the retention horizon since an epoch, when there is one. *)
Definition retired (now : Z) (epoch : option Z) : bool := match epoch with Some e => RETENTION_HORIZON_EPOCHS <? now - e | None => false end.

Definition applyCompact (f : Wal.frame) (value : val) : M engine unit :=
  let* s := gets (fun s => s) in
  let now := num value.["compactedEpoch"] in
  lift (integrity_if (negb (now =? epochFloor s))) ;;*
  modify (set_highWater (frame_sequence f)) ;;*
  let key := raw value.["key"] in
  if num value.["entryKind"] =? COMPACT_KIND_CELL then
    match get_cell key s with
    | Some record =>
        lift (integrity_if (bool_decide (c_objectState record <> Tombstone) || negb (retired now (c_terminalEpoch record)))) ;;*
        modify (fun s => account 0 0 0 (- TOMBSTONE_RECORD_BYTES) 0 (set_cells (map_delete bytes_eqb key (cells s)) s))
    | None => throw RECOVERY_GAP_READ_ONLY
    end
  else if num value.["entryKind"] =? COMPACT_KIND_SPEND then
    match get_spend key s with
    | Some e =>
        lift (integrity_if (negb (retired now (ageEpoch e)))) ;;*
        modify (fun s => account 0 0 (- control_of e) 0 0
          (set_commitments (map_delete bytes_eqb (e_requestCommitment e) (commitments s)) (set_spends (map_delete bytes_eqb key (spends s)) s)))
    | None => throw RECOVERY_GAP_READ_ONLY
    end
  else
    match get_result key s with
    | Some d =>
        lift (integrity_if (negb (retired now (Some (d_committedEpoch d))))) ;;*
        modify (fun s => set_results (map_delete bytes_eqb key (requestResults s)) s)
    | None => throw RECOVERY_GAP_READ_ONLY
    end.

(** *** [#applyIntegrity] *)

Definition applyIntegrity (value : val) (recovering : bool) : M engine unit := fun s =>
  let hash := raw value.["evidenceHash"] in
  let evidence := if recovering || forallb (fun item => negb (bytes_eqb (snd item) hash)) (integrityEvidence s)
    then integrityEvidence s ++ [(num value.["reason"], num value.["detectedEpoch"], hash)] else integrityEvidence s in
  (Ok tt, set_readOnly (Some "RECOVERY_GAP_READ_ONLY") evidence s).

(** ** [#applyFrame] *)

Definition applyValue (f : Wal.frame) (value : val) (recovering : bool) : M engine unit :=
  let type := Wal.type (Wal.head_of f) in
  if type =? INGRESS_RESERVED then applyReservation f value
  else if type =? ATTEMPT_CONSUMED then applyAttempt f value
  else if type =? PUT_COMMITTED then applyPut f value
  else if type =? PUT_TERMINAL then applyTerminal f value
  else if type =? RENEW_COMMITTED then applyRenew f value
  else if type =? DROP_COMMITTED then applyDrop f value
  else if type =? POLICY_COMMITTED then applyPolicy f value
  else if type =? GC_COMMITTED then applyGc f value
  else if type =? FLOOR_ADVANCE then applyFloor value false
  else if type =? CLOCK_UNSAFE then applyClockUnsafe value
  else if type =? CLOCK_CONFIRM then applyFloor value true
  else if type =? COMPACT then applyCompact f value
  else if type =? INTEGRITY_FAILED then applyIntegrity value recovering
  else if type =? READ_PIN_COMMITTED then applyReadPin f value
  else if type =? READ_PIN_FINALIZED then applyReadPinFinalized f value
  else if type =? READ_PIN_EXPIRED then applyReadPinExpired f value
  else if type =? PUT_ATOMIC_COMMITTED then applyAtomicPut f value
  else throw RECOVERY_GAP_READ_ONLY.

Definition applyFrame (f : Wal.frame) (recovering : bool) : M engine unit :=
  match codec_of (Wal.type (Wal.head_of f)) with
  | None => throw RECOVERY_GAP_READ_ONLY
  | Some codec =>
      let* value := lift (integrity (decodeCanonical codec (VBytes (Wal.payload f)))) in
      applyValue f value recovering ;;*
      fun s => (assertAccounting s, s)
  end.

(** The frames of a log, in order, as opening the store applies them. *)
Fixpoint replay (frames : list Wal.frame) : M engine unit :=
  match frames with [] => ret tt | f :: rest => applyFrame f true ;;* replay rest end.

End WithPlatform.
End Apply.
