(* ===== verification/CellBooks.v ===== *)
(** * The cell store: its books

    [sound] says what holds of the maps and the counters of the engine: spends and
    commitments name each other, every entry is in a state its kind can be in, and
    each counter is a sum over the maps. Every frame that applies keeps it. *)

From Stdlib Require Import ZArith Lia Bool List String Ascii.
From Stdlib Require Import Strings.Byte.
From stdpp Require Import base tactics list strings.
From S2P Require Import Prelude JsMap Codec CodecLaws Authority Hashes SchemaKit ResultBinding HashLaws Accepted WriteAheadLog CellRecords ExpiryHeap CellStore CellApply.

Module CellBooks.
Import Binding CellRecord Cells Apply.

(** ** What the counters count *)

Definition stored (_ : bytes) (r : cell) : Z := match c_objectState r with Present => size_bytes (c_sizeClass r) | Tombstone => 0 end.
Definition reserves (e : spend) : option ingress := match e_status e, e_detail e with Reserved, Ingress i => Some i | _, _ => None end.
Definition staged (_ : bytes) (e : spend) : Z := match reserves e with Some i => i_declaredBytes i | None => 0 end.
Definition staged_of (profile : Z) (_ : bytes) (e : spend) : Z :=
  match reserves e with Some i => if i_profileId i =? profile then i_declaredBytes i else 0 | None => 0 end.
Definition reserved (_ : bytes) (e : spend) : Z := match reserves e with Some _ => 1 | None => 0 end.
Definition control (_ : bytes) (e : spend) : Z := control_of e.
Definition one {A} (_ : bytes) (_ : A) : Z := 1.

#[export] Instance byte_eq_decision : EqDecision byte := Byte.byte_eq_dec.

Ltac fields := cbn [put_spend put_commitment put_cell put_result set_spends set_commitments set_results set_cells set_books set_clock set_highWater set_readOnly
  set_heap account add_books releaseStaging enter_spend spends commitments requestResults cells books storedBytes stagingBytes controlBytes tombstoneBytes
  reservedCells stagingByProfile epochFloor e_spendTag e_requestCommitment e_requestFingerprint e_detail e_status e_operation e_committedEpoch e_terminalEpoch
  with_status with_committed new_spend fst snd] in *.

(** ** Checks that passed *)

Lemma checked_ok {T} (check : engine -> result T) change s s' : checked check change s = (Ok tt, s') -> exists t, check s = Ok t /\ s' = change t s.
Proof. unfold checked. destruct (check s) as [t|e] eqn:E; [|done]. intros [= <-]. eauto. Qed.

Lemma integrity_ok {A} (m : result A) x : integrity m = Ok x -> m = Ok x.
Proof. by destruct m. Qed.

Lemma integrity_if_ok c u : integrity_if c = Ok u -> c = false.
Proof. unfold integrity_if. apply throw_if_ok. Qed.

Lemma has_none {A} (o : option A) : has o = false -> o = None.
Proof. by destruct o. Qed.

(** Takes the checks of a frame apart. *)
Ltac passed := oks; repeat (match goal with x : (_ * _)%type |- _ => destruct x end; cbn beta iota in *; oks);
  repeat match goal with H : integrity_if _ = Ok _ |- _ => apply integrity_if_ok in H end; b2p; simplify_eq;
  repeat match goal with H : has _ = false |- _ => apply has_none in H end.

Section WithPlatform.
Context `{Platform}.

(** What is hashed into the slot of a cell, and that a slot is that hash. *)
Definition slot_input (allocationEpoch : Z) (createPublicKey : bytes) : bytes :=
  ascii_bytes "hiverelay.blind.slot.v1" ++ be_bytes 4 allocationEpoch ++ createPublicKey.
Definition certified (allocationEpoch : Z) (createPublicKey slot : bytes) : Prop :=
  0 <= allocationEpoch <= MAX_U32 /\ blen createPublicKey = 32 /\ slot = Hash.blake2b256 (slot_input allocationEpoch createPublicKey).

Lemma slot_certified value slot : value.["createPublicKey"] = VBytes (raw value.["createPublicKey"]) -> Hash.cellStorageSlot value = Ok slot ->
  certified (num value.["allocationEpoch"]) (raw value.["createPublicKey"]) slot.
Proof.
  intros Hk Hq. unfold Hash.cellStorageSlot in Hq. apply bindR_ok in Hq as (p & Hp & [= <-]). unfold Hash.cellStorageSlotPreimage in Hp.
  apply bindR_ok in Hp as ([] & _ & Hp). apply tagged_inv in Hp as (b & Hb & ->). cbn [Hash.concat] in Hb.
  apply bindR_ok in Hb as (e & He & Hb). apply bindR_ok in Hb as (r & Hr & [= <-]). apply bindR_ok in Hr as (k & Hf & [= <-]).
  apply (encodeUnsigned_ok _ 4) in He as (n & -> & Hn & ->); [|done..]. apply fixedBytesInput_ok in Hf as [Hf Hl].
  rewrite Hk in Hf. injection Hf as <-. rewrite app_nil_r. change (256 ^ Z.of_nat 4) with 4294967296 in Hn. split_and!; [cbn; lia|cbn; unfold MAX_U32; lia|done|done].
Qed.

(** An entry is in a state its kind can be in. *)
Definition coherent (e : spend) : Prop :=
  match e_detail e with
  | Ingress i =>
      match e_status e with
      | Reserved => (exists r, i_reservation i = Some r) /\ e_committedEpoch e = None /\ e_terminalEpoch e = None
      | Committed => (exists epoch, e_committedEpoch e = Some epoch) /\ e_terminalEpoch e = None
      | Terminal => exists epoch, e_terminalEpoch e = Some epoch
      | _ => False
      end /\ e_operation e = None /\ i_declaredBytes i = size_bytes (i_sizeClass i) /\
      certified (i_allocationEpoch i) (i_createPublicKey i) (i_storageSlot i)
  | Renewal r => e_status e = Committed /\ e_operation e = Some OPERATION_RENEW /\ (exists epoch, e_committedEpoch e = Some epoch) /\ e_terminalEpoch e = None
  | Pin p =>
      match e_status e with
      | ReadPinned | ReadFinalized => (exists entries, p_entries p = Some entries) /\ e_terminalEpoch e = None
      | ReadExpired => p_entries p = None /\ exists epoch, e_terminalEpoch e = Some epoch
      | _ => False
      end /\ 0 < p_controlBytes p
  end.

Definition cell_coherent (r : cell) : Prop :=
  match c_objectState r with
  | Present => c_tombstoneReason r = None /\ c_terminalEpoch r = None
  | Tombstone => (exists reason, c_tombstoneReason r = Some reason) /\ exists epoch, c_terminalEpoch r = Some epoch
  end /\ certified (c_allocationEpoch r) (c_createPublicKey r) (c_storageSlot r).

(** The maps. *)
Record sound_maps (s : engine) : Prop := {
  spend_keys : NoDup (map fst (spends s));
  cell_keys : NoDup (map fst (cells s));
  result_keys : NoDup (map fst (requestResults s));
  spend_at : forall k e, get_spend k s = Some e -> e_spendTag e = k /\ coherent e /\ get_commitment (e_requestCommitment e) s = Some (k, e_requestFingerprint e);
  commitment_at : forall q k fp, get_commitment q s = Some (k, fp) -> exists e, get_spend k s = Some e /\ e_requestCommitment e = q /\ e_requestFingerprint e = fp;
  cell_at : forall k r, get_cell k s = Some r -> c_storageSlot r = k /\ cell_coherent r;
  result_at : forall q d, get_result q s = Some d -> d_requestCommitment d = q
}.

(** The counters. *)
Record balanced (s : engine) : Prop := {
  stored_sum : storedBytes (books s) = sum_of stored (cells s);
  staging_sum : stagingBytes (books s) = sum_of staged (spends s);
  control_sum : controlBytes (books s) = sum_of control (spends s);
  tombstone_sum : tombstoneBytes (books s) = TOMBSTONE_RECORD_BYTES * (sum_of one (cells s) + sum_of reserved (spends s));
  reserved_sum : reservedCells (books s) = sum_of reserved (spends s);
  profile_sum : forall p, profile_bytes p (stagingByProfile (books s)) = sum_of (staged_of p) (spends s)
}.

Definition sound (s : engine) : Prop := sound_maps s /\ balanced s.

Lemma new_sound : sound new_engine.
Proof. split; split; cbn; try done; try constructor. Qed.

(** ** Changes of the maps *)

(** Only the maps count. *)
Lemma maps_same s s' : spends s' = spends s -> commitments s' = commitments s -> requestResults s' = requestResults s -> cells s' = cells s -> sound_maps s -> sound_maps s'.
Proof. unfold sound. intros E1 E2 E3 E4 [? ? ? Hs Hc Hl Hr]. split; unfold get_spend, get_commitment, get_cell, get_result in *; by rewrite ?E1, ?E2, ?E3, ?E4 in *. Qed.

(** What is looked up after an entry has been set or deleted. *)
Lemma found_set {V} k k' (v x : V) m : map_get bytes_eqb k' (map_set bytes_eqb k v m) = Some x -> (k = k' /\ x = v) \/ (k <> k' /\ map_get bytes_eqb k' m = Some x).
Proof.
  rewrite get_set by apply bytes_eqb_eq. destruct (bytes_eqb k k') eqn:E; [apply bytes_eqb_eq in E as ->; intros [= <-]; by left|].
  intros Hg. right. split; [|done]. intros ->. by rewrite bytes_eqb_refl in E.
Qed.

Lemma found_deleted {V} k k' (x : V) m : map_get bytes_eqb k' (map_delete bytes_eqb k m) = Some x -> k <> k' /\ map_get bytes_eqb k' m = Some x.
Proof.
  rewrite get_delete by apply bytes_eqb_eq. destruct (bytes_eqb k k') eqn:E; [done|]. intros Hg. split; [|done]. intros ->. by rewrite bytes_eqb_refl in E.
Qed.

Lemma get_set_same {V} k (v : V) m : map_get bytes_eqb k (map_set bytes_eqb k v m) = Some v.
Proof. rewrite get_set by apply bytes_eqb_eq. by rewrite bytes_eqb_refl. Qed.

Lemma get_set_other {V} k k' (v : V) m : k <> k' -> map_get bytes_eqb k' (map_set bytes_eqb k v m) = map_get bytes_eqb k' m.
Proof. intros Hn. rewrite get_set by apply bytes_eqb_eq. destruct (bytes_eqb k k') eqn:E; [by apply bytes_eqb_eq in E|done]. Qed.

Lemma get_deleted_other {V} k k' (m : list (bytes * V)) : k <> k' -> map_get bytes_eqb k' (map_delete bytes_eqb k m) = map_get bytes_eqb k' m.
Proof. intros Hn. rewrite get_delete by apply bytes_eqb_eq. destruct (bytes_eqb k k') eqn:E; [by apply bytes_eqb_eq in E|done]. Qed.

Lemma entered_maps e q key fp s : sound_maps s -> get_spend key s = None -> get_commitment q s = None ->
  e_spendTag e = key -> e_requestCommitment e = q -> e_requestFingerprint e = fp -> coherent e -> sound_maps (put_commitment q (key, fp) (put_spend key e s)).
Proof.
  intros [Hk Hc Hr Hs Hq Hl Hd] Hn Hm <- <- <- He. unfold get_spend, get_commitment in *. split; unfold get_spend, get_commitment, get_cell, get_result; fields; try done.
  - by apply set_keys; [apply bytes_eqb_eq|].
  - intros k x [[<- ->]|[Hne Hx]]%found_set; [by rewrite get_set_same|]. destruct (Hs k x Hx) as (? & ? & Hq'). split_and!; [done..|].
    rewrite get_set_other; [done|]. intros E. rewrite E in Hm. congruence.
  - intros q' k fp [[<- [= -> ->]]|[Hne Hx]]%found_set; [rewrite get_set_same; eauto|]. destruct (Hq q' k fp Hx) as (x & Hx' & ? & ?).
    exists x. rewrite get_set_other; [done|]. intros E. rewrite E in Hn. congruence.
Qed.

Lemma updated_maps e e' key s : sound_maps s -> get_spend key s = Some e -> e_spendTag e' = e_spendTag e -> e_requestCommitment e' = e_requestCommitment e ->
  e_requestFingerprint e' = e_requestFingerprint e -> coherent e' -> sound_maps (put_spend key e' s).
Proof.
  intros [Hk Hc Hr Hs Hq Hl Hd] Hg E1 E2 E3 He. unfold get_spend, get_commitment in *. split; unfold get_spend, get_commitment, get_cell, get_result; fields; try done.
  - by apply set_keys; [apply bytes_eqb_eq|].
  - intros k x [[<- ->]|[Hne Hx]]%found_set; [|by apply Hs]. rewrite E1, E2, E3. destruct (Hs key e Hg) as (? & ? & ?). done.
  - intros q k fp Hx. destruct (Hq q k fp Hx) as (x & Hx' & ? & ?). destruct (decide (key = k)) as [->|Hne].
    + exists e'. rewrite get_set_same. simplify_eq. split_and!; congruence.
    + exists x. by rewrite get_set_other.
Qed.

Lemma celled_maps r key s : sound_maps s -> c_storageSlot r = key -> cell_coherent r -> sound_maps (put_cell key r s).
Proof.
  intros [Hk Hc Hr Hs Hq Hl Hd] Hkey Hco. unfold get_spend, get_commitment, get_cell in *. split; unfold get_spend, get_commitment, get_cell, get_result; fields; try done.
  - by apply set_keys; [apply bytes_eqb_eq|].
  - intros k x [[<- ->]|[Hne Hx]]%found_set; [done|by apply Hl].
Qed.

Lemma resulted_maps d q s : sound_maps s -> d_requestCommitment d = q -> sound_maps (put_result q d s).
Proof.
  intros [Hk Hc Hr Hs Hq Hl Hd] E. unfold get_result in *. split; unfold get_spend, get_commitment, get_cell, get_result; fields; try done.
  - by apply set_keys; [apply bytes_eqb_eq|].
  - intros k x [[<- ->]|[Hne Hx]]%found_set; [done|by apply Hd].
Qed.

Lemma cell_removed_maps key s : sound_maps s -> sound_maps (set_cells (map_delete bytes_eqb key (cells s)) s).
Proof.
  intros [Hk Hc Hr Hs Hq Hl Hd]. split; unfold get_spend, get_commitment, get_cell, get_result in *; fields; try done.
  - apply delete_keys; [apply bytes_eqb_eq|done].
  - intros k x [_ Hx]%found_deleted. by apply Hl.
Qed.

Lemma result_removed_maps key s : sound_maps s -> sound_maps (set_results (map_delete bytes_eqb key (requestResults s)) s).
Proof.
  intros [Hk Hc Hr Hs Hq Hl Hd]. split; unfold get_spend, get_commitment, get_cell, get_result in *; fields; try done.
  - apply delete_keys; [apply bytes_eqb_eq|done].
  - intros k x [_ Hx]%found_deleted. by apply Hd.
Qed.

Lemma spend_removed_maps key e s : sound_maps s -> get_spend key s = Some e ->
  sound_maps (set_commitments (map_delete bytes_eqb (e_requestCommitment e) (commitments s)) (set_spends (map_delete bytes_eqb key (spends s)) s)).
Proof.
  intros [Hk Hc Hr Hs Hq Hl Hd] Hg. unfold get_spend, get_commitment in *. split; unfold get_spend, get_commitment, get_cell, get_result in *; fields; try done.
  - apply delete_keys; [apply bytes_eqb_eq|done].
  - intros k x [Hne Hx]%found_deleted. destruct (Hs k x Hx) as (? & ? & Hq'). split_and!; [done..|]. rewrite get_deleted_other; [done|].
    intros E. destruct (Hs key e Hg) as (_ & _ & Hq2). rewrite E in Hq2. congruence.
  - intros q k fp [Hne Hx]%found_deleted. destruct (Hq q k fp Hx) as (x & Hx' & ? & ?). exists x. rewrite get_deleted_other; [done|].
    intros ->. rewrite Hg in Hx'. congruence.
Qed.

(** ** Changes of the sums *)

Lemma sum_entered f key e s : get_spend key s = None -> sum_of f (map_set bytes_eqb key e (spends s)) = sum_of f (spends s) + f key e.
Proof. intros Hn. by apply (sum_new bytes_eqb). Qed.

Lemma sum_updated f key e e' s : sound_maps s -> get_spend key s = Some e ->
  sum_of f (map_set bytes_eqb key e' (spends s)) = sum_of f (spends s) - f key e + f key e'.
Proof. intros Hs. apply (sum_replaced bytes_eqb bytes_eqb_eq), Hs. Qed.

Lemma sum_new_cell f key r s : get_cell key s = None -> sum_of f (map_set bytes_eqb key r (cells s)) = sum_of f (cells s) + f key r.
Proof. intros Hn. by apply (sum_new bytes_eqb). Qed.

Lemma sum_cell f key r r' s : sound_maps s -> get_cell key s = Some r ->
  sum_of f (map_set bytes_eqb key r' (cells s)) = sum_of f (cells s) - f key r + f key r'.
Proof. intros Hs. apply (sum_replaced bytes_eqb bytes_eqb_eq), Hs. Qed.

Lemma profile_set p q n profiles : profile_bytes p (map_set Z.eqb q n profiles) = if q =? p then n else profile_bytes p profiles.
Proof. unfold profile_bytes. rewrite get_set by apply Z.eqb_eq. by destruct (q =? p). Qed.

Lemma profile_deleted p q profiles : profile_bytes p (map_delete Z.eqb q profiles) = if q =? p then 0 else profile_bytes p profiles.
Proof. unfold profile_bytes. rewrite get_delete by apply Z.eqb_eq. by destruct (q =? p). Qed.

Lemma released_profile i p s : profile_bytes p (stagingByProfile (books (releaseStaging i s))) =
  profile_bytes p (stagingByProfile (books s)) - (if i_profileId i =? p then i_declaredBytes i else 0).
Proof.
  fields. destruct (_ =? 0) eqn:E; rewrite ?profile_deleted, ?profile_set; destruct (i_profileId i =? p) eqn:Ep; b2p; subst; lia.
Qed.

Lemma account_profiles a b d e n s : stagingByProfile (books (account a b d e n s)) = stagingByProfile (books s).
Proof. done. Qed.

(** ** What a check that passed says *)

Section Frames.
Context (c : config) (f : Wal.frame).
Implicit Types (value : val) (s : engine).

Lemma reservationFor_ok value s e i r : reservationFor f value s = Ok (e, i, r) ->
  get_spend (raw value.["spendTag"]) s = Some e /\ e_status e = Reserved /\ e_detail e = Ingress i /\ i_reservation i = Some r /\
  e_requestCommitment e = raw value.["requestCommitment"].
Proof.
  unfold reservationFor. destruct (get_spend _ s) as [x|]; [|done]. intros Hq. passed. destruct (e_detail x) as [j| |] eqn:Ed; try done.
  destruct (i_reservation j) as [y|] eqn:Er; [|done]. simplify_eq. apply bool_decide_eq_false in H0. split_and!; try done; [by apply dec_stable|].
  by apply bytes_eqb_eq.
Qed.

Lemma pin_for_ok value live s e p : pin_for f value live s = Ok (e, p) ->
  get_spend (raw value.["spendTag"]) s = Some e /\ e_status e ∈ live /\ e_detail e = Pin p /\ e_requestCommitment e = raw value.["requestCommitment"].
Proof.
  unfold pin_for. destruct (get_spend _ s) as [x|]; [|done]. intros Hq. passed. destruct (e_detail x) as [| |q] eqn:Ed; try done. simplify_eq.
  split_and!; try done; [by eapply bool_decide_eq_true|by apply bytes_eqb_eq].
Qed.

(** ** Each frame keeps the books *)

#[local] Arguments size_bytes : simpl never.

(** The counters after a change of one spend or one cell. *)
Ltac recount Hb :=
  destruct Hb as [B1 B2 B3 B4 B5 B6]; split;
  [..|let p := fresh "p" in intros p; rewrite ?account_profiles, ?released_profile; fields; rewrite ?profile_set;
      try (destruct (_ =? p) eqn:Ep; [apply Z.eqb_eq in Ep; subst p|cbn in Ep])]; fields;
  rewrite ?B1, ?B2, ?B3, ?B4, ?B5, ?B6; unfold get_spend, get_cell in *;
  repeat first [erewrite sum_entered by eassumption | erewrite sum_updated by eassumption | erewrite sum_new_cell by eassumption | erewrite sum_cell by eassumption];
  repeat match goal with |- context [sum_of ?g ?m] => generalize (sum_of g m); intros ? end;
  unfold stored, staged, staged_of, reserved, control, one, reserves, control_of, TOMBSTONE_RECORD_BYTES, CONTROL_RECORD_BYTES; cbn;
  repeat match goal with H : e_status _ = _ |- _ => rewrite H | H : e_detail _ = _ |- _ => rewrite H | H : c_objectState _ = _ |- _ => rewrite H end; cbn;
  rewrite ?Z.eqb_refl; repeat match goal with H : (_ =? _) = _ |- _ => rewrite H end; try lia.

(** What the encodings of the two frames that create cells say of the key. *)
Definition keyed value : Prop := value.["createPublicKey"] = VBytes (raw value.["createPublicKey"]).

Lemma reservation_sound value s s' : keyed value -> sound s -> applyReservation c f value s = (Ok tt, s') -> sound s'.
Proof.
  intros Hk [Hm Hb] (t & Hc & ->)%checked_ok. unfold checkReservation in Hc. passed. apply slot_certified in H3 as Hcert; [|done].
  apply bytes_eqb_eq in H4 as ->. split.
  - eapply maps_same; [..|eapply (entered_maps _ _ _ _ s Hm); try eassumption; reflexivity || idtac]; try reflexivity. cbn. eauto 10.
  - recount Hb.
Qed.

Lemma attempt_sound value s s' : sound s -> applyAttempt f value s = (Ok tt, s') -> sound s'.
Proof.
  intros [Hm Hb] ([[e i] r] & Hc & ->)%checked_ok. unfold checkAttempt in Hc. passed.
  apply reservationFor_ok in H0 as (Hg & Hs & Hd & Hr & _).
  assert (Hco := proj1 (proj2 (spend_at s Hm _ _ Hg))). unfold coherent in Hco. rewrite Hd, Hs in Hco. split.
  - eapply (updated_maps e); try eassumption; try reflexivity. cbn. rewrite Hs. split; [split; [eauto|tauto]|tauto].
  - recount Hb.
Qed.
Lemma put_sound value s s' : sound s -> applyPut c f value s = (Ok tt, s') -> sound s'.
Proof.
  intros [Hm Hb] ([[[e i] r] binding] & Hc & ->)%checked_ok. unfold checkPut in Hc. passed.
  apply reservationFor_ok in H0 as (Hg & Hs & Hd & Hr & _).
  destruct (spend_at s Hm _ _ Hg) as (Htag & Hco & _). unfold coherent in Hco. rewrite Hd, Hs in Hco. apply bytes_eqb_eq in H2. split.
  - eapply (maps_same (put_spend _ _ (put_cell _ _ s))); [reflexivity..|].
    eapply (updated_maps e); [apply celled_maps; [done..|unfold cell_coherent; cbn; tauto]|exact Hg|reflexivity..|]. cbn. split; [split; [eauto|tauto]|tauto].
  - assert (i_declaredBytes i = size_bytes (i_sizeClass i)) by tauto. recount Hb.
Qed.

Lemma terminal_sound value s s' : sound s -> applyTerminal f value s = (Ok tt, s') -> sound s'.
Proof.
  intros [Hm Hb] ([[e i] r] & Hc & ->)%checked_ok. unfold checkTerminal in Hc. passed.
  apply reservationFor_ok in H0 as (Hg & Hs & Hd & Hr & _).
  assert (Hco := proj1 (proj2 (spend_at s Hm _ _ Hg))). unfold coherent in Hco. rewrite Hd, Hs in Hco. split.
  - eapply (maps_same (put_spend _ _ s)); [reflexivity..|]. eapply (updated_maps e); [done|exact Hg|reflexivity..|]. cbn. split; [eauto|tauto].
  - recount Hb.
Qed.

Lemma atomic_sound value s s' : keyed value -> sound s -> applyAtomicPut c f value s = (Ok tt, s') -> sound s'.
Proof.
  intros Hk [Hm Hb] (t & Hc & ->)%checked_ok. unfold checkAtomicPut in Hc. passed. apply slot_certified in H4 as Hcert; [|done].
  apply bytes_eqb_eq in H5 as ->. split.
  - eapply (maps_same (put_cell _ _ (enter_spend _ _ s))); [reflexivity..|]. apply celled_maps; [|done|unfold cell_coherent; cbn; tauto].
    eapply (entered_maps _ _ _ _ s Hm); try eassumption; try reflexivity. cbn. eauto 10.
  - recount Hb.
Qed.

Lemma renew_sound value s s' : sound s -> applyRenew c f value s = (Ok tt, s') -> sound s'.
Proof.
  intros [Hm Hb] ([[record binding] admission] & Hc & ->)%checked_ok. unfold checkRenew in Hc. passed.
  destruct (get_cell _ s) as [record0|] eqn:Hcell; [|done]. passed.
  apply bool_decide_eq_false, dec_stable in H2. destruct (cell_at s Hm _ _ Hcell) as [Hslot Hco]. unfold cell_coherent in Hco. rewrite H2 in Hco. split.
  - eapply (maps_same (put_cell _ _ (enter_spend _ _ s))); [reflexivity..|]. apply celled_maps; [|done|unfold cell_coherent; cbn; by rewrite H2].
    eapply (entered_maps _ _ _ _ s Hm); try eassumption; try reflexivity. cbn. eauto 10.
  - recount Hb.
Qed.

Lemma drop_sound value s s' : sound s -> applyDrop c f value s = (Ok tt, s') -> sound s'.
Proof.
  intros [Hm Hb] ([record binding] & Hc & ->)%checked_ok. unfold checkDrop in Hc. passed. destruct (get_cell _ s) as [record0|] eqn:Hcell; [|done]. passed.
  apply bool_decide_eq_false, dec_stable in H2. destruct (cell_at s Hm _ _ Hcell) as [Hslot Hco]. split.
  - eapply (maps_same (put_result _ _ (put_cell _ _ s))); [reflexivity..|]. apply resulted_maps; [|done]. apply celled_maps; [done..|]. split; [cbn; eauto|apply Hco].
  - recount Hb.
Qed.

Lemma gc_sound value s s' : sound s -> applyGc f value s = (Ok tt, s') -> sound s'.
Proof.
  intros [Hm Hb] (record & Hc & ->)%checked_ok. unfold checkGc in Hc. passed. destruct (get_cell _ s) as [record0|] eqn:Hcell; [|done]. passed.
  apply bool_decide_eq_false, dec_stable in H1. destruct (cell_at s Hm _ _ Hcell) as [Hslot Hco]. split.
  - eapply (maps_same (put_cell _ _ s)); [reflexivity..|]. apply celled_maps; [done..|]. split; [cbn; eauto|apply Hco].
  - recount Hb.
Qed.

Lemma policy_sound value s s' : sound s -> applyPolicy f value s = (Ok tt, s') -> sound s'.
Proof.
  intros [Hm Hb] (record & Hc & ->)%checked_ok. unfold checkPolicy in Hc. passed. destruct (get_cell _ s) as [record0|] eqn:Hcell; [|done]. passed.
  apply bool_decide_eq_false, dec_stable in H1. destruct (cell_at s Hm _ _ Hcell) as [Hslot Hco]. unfold cell_coherent in Hco. rewrite H1 in Hco. split.
  - apply celled_maps; [done..|]. unfold cell_coherent. cbn. by rewrite H1.
  - recount Hb.
Qed.

Lemma finalization_positive : 0 < CHARGED_READ_FINALIZATION_CONTROL_BYTES.
Proof. reflexivity. Qed.

Lemma read_pin_sound value s s' : sound s -> applyReadPin c f value s = (Ok tt, s') -> sound s'.
Proof.
  intros [Hm Hb] (t & Hc & ->)%checked_ok. unfold checkReadPin in Hc. passed. pose proof finalization_positive. split.
  - eapply (maps_same (enter_spend _ _ s)); [reflexivity..|]. eapply (entered_maps _ _ _ _ s Hm); try eassumption; try reflexivity.
    cbn. split; [eauto|]. unfold blen. lia.
  - recount Hb. replace (_ =? 0) with false by (symmetry; apply Z.eqb_neq; unfold blen; lia). lia.
Qed.

Lemma finalized_sound value s s' : sound s -> applyReadPinFinalized f value s = (Ok tt, s') -> sound s'.
Proof.
  intros [Hm Hb] ([e p] & Hc & ->)%checked_ok. unfold checkReadPinFinalized in Hc. passed. apply pin_for_ok in H1 as (Hg & Hs & Hd & _).
  assert (Hco := proj1 (proj2 (spend_at s Hm _ _ Hg))). unfold coherent in Hco. rewrite Hd in Hco. apply list_elem_of_singleton in Hs. rewrite Hs in Hco. split.
  - eapply (updated_maps e); [done|exact Hg|reflexivity..|]. cbn. tauto.
  - recount Hb.
Qed.

Lemma expired_sound value s s' : sound s -> applyReadPinExpired f value s = (Ok tt, s') -> sound s'.
Proof.
  intros [Hm Hb] ([e p] & Hc & ->)%checked_ok. unfold checkReadPinExpired in Hc. passed. apply pin_for_ok in H1 as (Hg & Hs & Hd & _).
  assert (Hco := proj1 (proj2 (spend_at s Hm _ _ Hg))). unfold coherent in Hco. rewrite Hd in Hco.
  assert (Hpos : (p_controlBytes p =? 0) = false) by (apply Z.eqb_neq; lia). split.
  - eapply (maps_same (put_spend _ _ s)); [reflexivity..|]. eapply (updated_maps e); [done|exact Hg|reflexivity..|]. cbn. split; [eauto|done].
  - rewrite !elem_of_cons, elem_of_nil in Hs. destruct Hs as [Hs|[Hs|[]]]; recount Hb.
Qed.

Lemma clock_sound floor unsafe s : sound s -> sound (set_clock floor unsafe s).
Proof. intros [Hm Hb]. split; [by apply (maps_same s)|]. by destruct Hb. Qed.

Lemma compact_sound value s s' : sound s -> applyCompact f value s = (Ok tt, s') -> sound s'.
Proof.
  intros [Hm Hb] Hq. unfold applyCompact in Hq. autorewrite with machine in Hq. destruct (integrity_if _) as [[]|] eqn:E0; [|done].
  set (s0 := set_highWater _ s) in *. assert (Hm0 : sound_maps s0) by (by apply (maps_same s)). assert (Hb0 : balanced s0) by (by destruct Hb).
  change (get_cell (raw value.["key"]) s) with (get_cell (raw value.["key"]) s0) in Hq. change (get_spend (raw value.["key"]) s) with (get_spend (raw value.["key"]) s0) in Hq.
  change (get_result (raw value.["key"]) s) with (get_result (raw value.["key"]) s0) in Hq. clearbody s0. clear Hm Hb s E0.
  destruct (_ =? COMPACT_KIND_CELL); [|destruct (_ =? COMPACT_KIND_SPEND)].
  - destruct (get_cell _ s0) as [r|] eqn:Hg; [|done]. autorewrite with machine in Hq. destruct (integrity_if _) as [[]|] eqn:E1; [|done]. injection Hq as <-.
    apply integrity_if_ok in E1. b2p. apply bool_decide_eq_false, dec_stable in H0. split.
    + eapply (maps_same (set_cells _ s0)); [reflexivity..|]. by apply cell_removed_maps.
    + destruct Hb0 as [B1 B2 B3 B4 B5 B6]. split; fields; rewrite ?(sum_deleted bytes_eqb bytes_eqb_eq _ _ r) by (apply Hm0 || done);
        unfold stored, one, TOMBSTONE_RECORD_BYTES in *; rewrite ?H0; try lia. done.
  - destruct (get_spend _ s0) as [e|] eqn:Hg; [|done]. autorewrite with machine in Hq. destruct (integrity_if _) as [[]|] eqn:E1; [|done]. injection Hq as <-.
    apply integrity_if_ok in E1. b2p.
    assert (Hn : reserves e = None).
    { destruct (spend_at s0 Hm0 _ _ Hg) as (_ & Hco & _). unfold coherent in Hco. unfold reserves. destruct (e_status e); try done. destruct (e_detail e); try done.
      destruct Hco as ((_ & Ec & Et) & _). unfold retired, ageEpoch in E1. by rewrite Et, Ec in E1. }
    split.
    + eapply (maps_same (set_commitments _ (set_spends _ s0))); [reflexivity..|]. by apply spend_removed_maps.
    + destruct Hb0 as [B1 B2 B3 B4 B5 B6]. split; fields; intros; rewrite ?(sum_deleted bytes_eqb bytes_eqb_eq _ _ e) by (apply Hm0 || done);
        unfold control, staged, staged_of, reserved, TOMBSTONE_RECORD_BYTES in *; rewrite ?Hn, ?B6; try lia.
  - destruct (get_result _ s0) as [d|] eqn:Hg; [|done]. autorewrite with machine in Hq. destruct (integrity_if _) as [[]|] eqn:E1; [|done]. injection Hq as <-.
    split; [by apply result_removed_maps|by destruct Hb0].
Qed.

(** What the frame holds. *)
Definition holds_value value : Prop := exists codec, codec_of (Wal.type (Wal.head_of f)) = Some codec /\ decodeCanonical codec (VBytes (Wal.payload f)) = Ok value.

Lemma frame_ok recovering s s' : applyFrame c f recovering s = (Ok tt, s') ->
  exists value, holds_value value /\ applyValue c f value recovering s = (Ok tt, s') /\ assertAccounting s' = Ok tt.
Proof.
  intros Hq. unfold applyFrame in Hq. destruct (codec_of _) as [codec|] eqn:Ec; [|done]. autorewrite with machine in Hq.
  destruct (integrity _) as [value|] eqn:Ed; [|done]. apply integrity_ok in Ed. apply bindM_ok in Hq as ([] & s1 & Hv & Hq). injection Hq as Ha <-.
  exists value. split; [|done]. by exists codec.
Qed.

Lemma value_typed value t : holds_value value -> type_of (Wal.type (Wal.head_of f)) = Some t -> has_type t value = true.
Proof. intros (codec & Hc & Hd) Ht. apply codec_lawful in Hc as (t' & Ht' & Hl). rewrite Ht in Ht'. injection Ht' as <-. by eapply (codec_canonical codec t). Qed.

Lemma value_keyed value : holds_value value -> Wal.type (Wal.head_of f) = INGRESS_RESERVED \/ Wal.type (Wal.head_of f) = PUT_ATOMIC_COMMITTED -> keyed value.
Proof.
  intros Hv [Ht|Ht]; [pose proof (value_typed value ingressReservedV1_type Hv) as Hq|pose proof (value_typed value blindPutAtomicCommittedStoreV1_type Hv) as Hq];
    rewrite Ht in Hq; specialize (Hq eq_refl); apply has_bytes; by eapply (has_field "createPublicKey").
Qed.

Lemma value_sound value recovering s s' : holds_value value -> sound s -> applyValue c f value recovering s = (Ok tt, s') -> sound s'.
Proof.
  intros Hv Hs. pose proof (value_keyed value Hv) as Hk. unfold applyValue, applyFloor, applyClockUnsafe.
  destruct (_ =? INGRESS_RESERVED) eqn:E1; [apply reservation_sound; [apply Hk; left; by apply Z.eqb_eq|done]|].
  destruct (_ =? ATTEMPT_CONSUMED); [by apply attempt_sound|]. destruct (_ =? PUT_COMMITTED); [by apply put_sound|].
  destruct (_ =? PUT_TERMINAL); [by apply terminal_sound|]. destruct (_ =? RENEW_COMMITTED); [by apply renew_sound|].
  destruct (_ =? DROP_COMMITTED); [by apply drop_sound|]. destruct (_ =? POLICY_COMMITTED); [by apply policy_sound|].
  destruct (_ =? GC_COMMITTED); [by apply gc_sound|]. destruct (_ =? FLOOR_ADVANCE); [intros (t & Hc & ->)%checked_ok; by apply clock_sound|].
  destruct (_ =? CLOCK_UNSAFE); [intros (t & Hc & ->)%checked_ok; by apply clock_sound|].
  destruct (_ =? CLOCK_CONFIRM); [intros (t & Hc & ->)%checked_ok; by apply clock_sound|]. destruct (_ =? COMPACT); [by apply compact_sound|].
  destruct (_ =? INTEGRITY_FAILED); [intros [= <-]; destruct Hs as [Hm Hb]; split; [by apply (maps_same s)|by destruct Hb]|].
  destruct (_ =? READ_PIN_COMMITTED); [by apply read_pin_sound|]. destruct (_ =? READ_PIN_FINALIZED); [by apply finalized_sound|].
  destruct (_ =? READ_PIN_EXPIRED); [by apply expired_sound|]. destruct (_ =? PUT_ATOMIC_COMMITTED) eqn:E2; [|done].
  apply atomic_sound; [apply Hk; right; by apply Z.eqb_eq|done].
Qed.

Lemma frame_sound recovering s s' : sound s -> applyFrame c f recovering s = (Ok tt, s') -> sound s'.
Proof. intros Hs (value & Hv & Hq & _)%frame_ok. by eapply value_sound. Qed.

End Frames.
End WithPlatform.

End CellBooks.
