(* ===== verification/CellLife.v ===== *)
(** * The cell store: the lives of cells and spends

    What a record of the log may do to a cell and to a spend, as two small
    transition systems, and that every frame that applies takes at most one step
    of each, of one cell and of one spend. *)

From Stdlib Require Import ZArith Lia Bool List String Ascii.
From Stdlib Require Import Strings.Byte.
From stdpp Require Import base tactics list strings.
From S2P Require Import Prelude JsMap Codec CodecLaws Authority Hashes SchemaKit ResultBinding HashLaws Accepted StorageLaws WriteAheadLog CellRecords ExpiryHeap CellStore CellApply CellBooks.

Module CellLife.
Import Binding CellRecord Cells Apply CellBooks.

(** ** Cells *)

(** What never changes while the store remembers a cell. *)
Definition facts : Type := bytes * Z * Z * bytes * (Z * bytes) * (bytes * bytes * bytes) * bytes * bytes * bytes * Z.
Definition facts_of (r : cell) : facts := (c_storageSlot r, c_allocationEpoch r, c_sizeClass r, c_cellBlobHash r, c_blob r,
  (c_createPublicKey r, c_renewPublicKey r, c_dropPublicKey r), c_allocationCommitment r, c_createSpendTag r, c_resultIdentity r, c_createdEpoch r).

Inductive life :=
| Absent
| Live (what : facts) (leaseEpoch stateRevision policyRevision : Z) (policy : policy_state)
| Dead (what : facts) (stateRevision : Z) (reason : option tombstone_reason) (epoch : option Z).

Definition life_of (record : option cell) : life :=
  match record with
  | None => Absent
  | Some r =>
      match c_objectState r with
      | Present => Live (facts_of r) (c_leaseEpoch r) (c_stateRevision r) (c_policyRevision r) (c_policyState r)
      | Tombstone => Dead (facts_of r) (c_stateRevision r) (c_tombstoneReason r) (c_terminalEpoch r)
      end
  end.

Section WithPlatform.
Context `{Platform}.

(** What may happen to a cell at an epoch. *)
Inductive life_step (now : Z) : life -> life -> Prop :=
| stays l : life_step now l l
| creation r leaseClass : c_createdEpoch r = now -> certified (c_allocationEpoch r) (c_createPublicKey r) (c_storageSlot r) ->
    life_step now Absent (Live (facts_of r) (now + lease_epochs leaseClass) 0 0 Visible)
| prolonging x lease lease' revision policyRevision policy leaseClass : lease < lease' -> lease' = Z.max lease (now + lease_epochs leaseClass) ->
    life_step now (Live x lease revision policyRevision policy) (Live x lease' (revision + 1) policyRevision policy)
| moderation x lease revision policyRevision policy policy' : policy <> policy' ->
    life_step now (Live x lease revision policyRevision policy) (Live x lease revision (policyRevision + 1) policy')
| owner_drop x lease revision policyRevision policy :
    life_step now (Live x lease revision policyRevision policy) (Dead x (revision + 1) (Some OwnerDrop) (Some now))
| collection x lease revision policyRevision policy : lease + EXPIRY_GRACE_EPOCHS < now ->
    life_step now (Live x lease revision policyRevision policy) (Dead x (revision + 1) (Some ExpiredGc) (Some now))
| oblivion x revision reason epoch : RETENTION_HORIZON_EPOCHS < now - epoch -> life_step now (Dead x revision reason (Some epoch)) Absent.

(** A change of the cells in one place. *)
Inductive cells_change (now : Z) (s s' : engine) : Prop :=
| cells_same : cells s' = cells s -> cells_change now s s'
| cells_set k r : cells s' = map_set bytes_eqb k r (cells s) -> life_step now (life_of (get_cell k s)) (life_of (Some r)) -> cells_change now s s'
| cells_deleted k : cells s' = map_delete bytes_eqb k (cells s) -> life_step now (life_of (get_cell k s)) Absent -> cells_change now s s'.

Section Frames.
Context (c : config) (f : Wal.frame).
Implicit Types (value : val) (s : engine).

Lemma big_constant n v : has_type TBig v = true -> accepted (constantBig u64be n) v -> v = VBig n.
Proof.
  intros [m ->]%has_big (s & p & s' & Hq). cbn [preencode constantBig nullish] in Hq. oks. cbn [strict_eqb] in *. b2p. by subst.
Qed.

Lemma value_accepted value codec t : holds_value f value -> codec_of (Wal.type (Wal.head_of f)) = Some codec -> type_of (Wal.type (Wal.head_of f)) = Some t ->
  has_type t value = true /\ accepted codec value.
Proof.
  intros Hv Hc Ht. split; [by eapply value_typed|]. destruct Hv as (codec' & Hc' & Hd). rewrite Hc in Hc'. injection Hc' as <-.
  apply codec_lawful in Hc as (t' & _ & Hl). by eapply (decoded_accepted codec t').
Qed.

(** The revisions of a new cell, and the code of a policy. *)
Lemma put_revisions value : holds_value f value -> Wal.type (Wal.head_of f) = PUT_COMMITTED \/ Wal.type (Wal.head_of f) = PUT_ATOMIC_COMMITTED ->
  big value.["stateRevision"] = 0 /\ big value.["policyRevision"] = 0.
Proof.
  intros Hv [E|E].
  - destruct (value_accepted value putCommittedV1 putCommittedV1_type Hv) as [Ht Ha]; [by rewrite E..|].
    rewrite (big_constant 0 value.["stateRevision"]), (big_constant 0 value.["policyRevision"]); [done|..];
      first [eapply has_field; [exact Ht|reflexivity]|eapply accepted_field; [exact Ha|in_fields]].
  - destruct (value_accepted value blindPutAtomicCommittedStoreV1 blindPutAtomicCommittedStoreV1_type Hv) as [Ht Ha]; [by rewrite E..|].
    rewrite (big_constant 0 value.["stateRevision"]), (big_constant 0 value.["policyRevision"]); [done|..];
      first [eapply has_field; [exact Ht|reflexivity]|eapply accepted_field; [exact Ha|in_fields]].
Qed.

Lemma policy_range value : holds_value f value -> Wal.type (Wal.head_of f) = POLICY_COMMITTED -> 1 <= num value.["policyState"] <= 2.
Proof.
  intros Hv E. destruct (value_accepted value policyCommittedV1 policyCommittedV1_type Hv) as [Ht Ha]; [by rewrite E..|].
  apply (accepted_field "policyState" (ranged u8 1 2)) in Ha; [|in_fields]. by apply accepted_ranged in Ha as [_ ?].
Qed.


(** *** Each frame on the cells *)

Ltac cell_set k r := apply (cells_set _ _ _ k r); [reflexivity|].

Lemma put_cells value s s' : holds_value f value -> Wal.type (Wal.head_of f) = PUT_COMMITTED -> sound s ->
  applyPut c f value s = (Ok tt, s') -> cells_change (epochFloor s) s s'.
Proof.
  intros Hv Ht [Hm _] ([[[e i] r] binding] & Hc & ->)%checked_ok. destruct (put_revisions value Hv (or_introl Ht)) as [R1 R2]. unfold checkPut in Hc. passed.
  apply reservationFor_ok in H0 as (Hg & Hs & Hd & Hr & _). destruct (spend_at s Hm _ _ Hg) as (_ & Hco & _). unfold coherent in Hco. rewrite Hd, Hs in Hco.
  cell_set (raw value.["storageSlot"]) (new_cell f value (e_spendTag e) i). rewrite H5. cbn [life_of new_cell c_objectState c_leaseEpoch c_stateRevision c_policyRevision c_policyState].
  rewrite R1, R2. replace (num value.["leaseEpoch"]) with (epochFloor s + lease_epochs (i_leaseClass i)) by lia. apply creation; [done|]. cbn. tauto.
Qed.

Lemma atomic_cells value s s' : holds_value f value -> Wal.type (Wal.head_of f) = PUT_ATOMIC_COMMITTED ->
  applyAtomicPut c f value s = (Ok tt, s') -> cells_change (epochFloor s) s s'.
Proof.
  intros Hv Ht (t & Hc & ->)%checked_ok. destruct (put_revisions value Hv (or_intror Ht)) as [R1 R2].
  pose proof (value_keyed f value Hv (or_intror Ht)) as Hk. unfold checkAtomicPut in Hc. passed.
  eapply (cells_set _ _ _ (raw value.["storageSlot"])); [reflexivity|].
  match goal with E : get_cell _ s = None |- _ => rewrite E end. cbn [life_of new_cell c_objectState c_leaseEpoch c_stateRevision c_policyRevision c_policyState].
  rewrite R1, R2. replace (num value.["leaseEpoch"]) with (epochFloor s + lease_epochs (num value.["leaseClass"])) by lia. apply creation; [done|]. cbn.
  match goal with E : Hash.cellStorageSlot value = Ok _, E' : bytes_eqb _ (raw value.["storageSlot"]) = true |- _ =>
    apply slot_certified in E; [|done]; apply bytes_eqb_eq in E' as -> end. done.
Qed.

Lemma renew_cells value s s' : applyRenew c f value s = (Ok tt, s') -> cells_change (epochFloor s) s s'.
Proof.
  intros ([[record binding] admission] & Hc & ->)%checked_ok. unfold checkRenew in Hc. passed. destruct (get_cell _ s) as [record0|] eqn:Hcell; [|done]. passed.
  apply bool_decide_eq_false, dec_stable in H2. cell_set (raw value.["storageSlot"]) (with_state (num value.["leaseClass"]) (num value.["newLeaseEpoch"]) (big value.["newStateRevision"]) record).
  rewrite Hcell. cbn [life_of with_state c_objectState]. rewrite H2. cbn.
  match goal with E : big value.["newStateRevision"] = _ |- _ => rewrite E end. replace (big value.["oldStateRevision"]) with (c_stateRevision record) by done.
  apply (prolonging _ _ _ _ _ _ _ (num value.["leaseClass"])); lia.
Qed.

Lemma drop_cells value s s' : applyDrop c f value s = (Ok tt, s') -> cells_change (epochFloor s) s s'.
Proof.
  intros ([record binding] & Hc & ->)%checked_ok. unfold checkDrop in Hc. passed. destruct (get_cell _ s) as [record0|] eqn:Hcell; [|done]. passed.
  apply bool_decide_eq_false, dec_stable in H2. cell_set (raw value.["storageSlot"]) (entombed OwnerDrop (big value.["newStateRevision"]) (num value.["committedEpoch"]) record).
  rewrite Hcell. cbn [life_of]. rewrite H2. cbn.
  match goal with E : big value.["newStateRevision"] = _ |- _ => rewrite E end. replace (big value.["oldStateRevision"]) with (c_stateRevision record) by done.
  match goal with E : num value.["committedEpoch"] = _ |- _ => rewrite E end. apply owner_drop.
Qed.

Lemma gc_cells value s s' : applyGc f value s = (Ok tt, s') -> cells_change (epochFloor s) s s'.
Proof.
  intros (record & Hc & ->)%checked_ok. unfold checkGc in Hc. passed. destruct (get_cell _ s) as [record0|] eqn:Hcell; [|done]. passed.
  apply bool_decide_eq_false, dec_stable in H1. cell_set (raw value.["storageSlot"]) (entombed ExpiredGc (big value.["newStateRevision"]) (num value.["tombstoneEpoch"]) record).
  rewrite Hcell. cbn [life_of]. rewrite H1. cbn.
  match goal with E : big value.["newStateRevision"] = _ |- _ => rewrite E end. replace (big value.["oldStateRevision"]) with (c_stateRevision record) by done.
  match goal with E : num value.["tombstoneEpoch"] = _ |- _ => rewrite E in * end. apply collection. lia.
Qed.

Lemma policy_cells value s s' : holds_value f value -> Wal.type (Wal.head_of f) = POLICY_COMMITTED ->
  applyPolicy f value s = (Ok tt, s') -> cells_change (epochFloor s) s s'.
Proof.
  intros Hv Ht (record & Hc & ->)%checked_ok. pose proof (policy_range value Hv Ht) as Hr. unfold checkPolicy in Hc. passed.
  destruct (get_cell _ s) as [record0|] eqn:Hcell; [|done]. passed. apply bool_decide_eq_false, dec_stable in H1.
  cell_set (raw value.["storageSlot"]) (with_policy (policy_of (num value.["policyState"])) (big value.["newPolicyRevision"]) record).
  rewrite Hcell. cbn [life_of with_policy c_objectState]. rewrite H1. cbn.
  match goal with E : big value.["newPolicyRevision"] = _ |- _ => rewrite E end. replace (big value.["oldPolicyRevision"]) with (c_policyRevision record) by done.
  apply moderation. unfold policy_of. intros E. rewrite E in *. destruct (num value.["policyState"] =? 1) eqn:E1; b2p; cbn in *; lia.
Qed.

Lemma compact_cells value s s' : applyCompact f value s = (Ok tt, s') -> cells_change (epochFloor s) s s'.
Proof.
  intros Hq. unfold applyCompact in Hq. autorewrite with machine in Hq. destruct (integrity_if _) as [[]|] eqn:E0; [|done]. apply integrity_if_ok in E0. b2p.
  destruct (_ =? COMPACT_KIND_CELL); [|destruct (_ =? COMPACT_KIND_SPEND)].
  - destruct (get_cell _ s) as [r|] eqn:Hg; [|done]. autorewrite with machine in Hq. destruct (integrity_if _) as [[]|] eqn:E1; [|done]. injection Hq as <-.
    apply integrity_if_ok in E1. b2p. apply bool_decide_eq_false, dec_stable in H0. apply (cells_deleted _ _ _ (raw value.["key"])); [done|].
    rewrite Hg. cbn. rewrite H0. rewrite E0 in H1. unfold retired in H1. destruct (c_terminalEpoch r) as [epoch|]; [|done]. b2p. by apply oblivion.
  - destruct (get_spend _ s) as [e|] eqn:Hg; [|done]. autorewrite with machine in Hq. destruct (integrity_if _) as [[]|] eqn:E1; [|done]. injection Hq as <-. by apply cells_same.
  - destruct (get_result _ s) as [d|] eqn:Hg; [|done]. autorewrite with machine in Hq. destruct (integrity_if _) as [[]|] eqn:E1; [|done]. injection Hq as <-. by apply cells_same.
Qed.

(** The frames that leave the cells alone. *)
Lemma checked_cells {T} (check : engine -> result T) change s s' : (forall t s, cells (change t s) = cells s) -> checked check change s = (Ok tt, s') ->
  cells_change (epochFloor s) s s'.
Proof. intros Hsame (t & _ & ->)%checked_ok. apply cells_same, Hsame. Qed.

Lemma value_cells value recovering s s' : holds_value f value -> sound s -> applyValue c f value recovering s = (Ok tt, s') -> cells_change (epochFloor s) s s'.
Proof.
  intros Hv Hs. unfold applyValue.
  destruct (_ =? INGRESS_RESERVED); [by apply checked_cells|]. destruct (_ =? ATTEMPT_CONSUMED); [apply checked_cells; by intros [[e i] r]|].
  destruct (_ =? PUT_COMMITTED) eqn:E1; [apply Z.eqb_eq in E1; by apply put_cells|]. destruct (_ =? PUT_TERMINAL); [apply checked_cells; by intros [[e i] r]|].
  destruct (_ =? RENEW_COMMITTED); [apply renew_cells|]. destruct (_ =? DROP_COMMITTED); [apply drop_cells|].
  destruct (_ =? POLICY_COMMITTED) eqn:E2; [apply Z.eqb_eq in E2; by apply policy_cells|]. destruct (_ =? GC_COMMITTED); [apply gc_cells|].
  destruct (_ =? FLOOR_ADVANCE); [by apply checked_cells|]. destruct (_ =? CLOCK_UNSAFE); [by apply checked_cells|].
  destruct (_ =? CLOCK_CONFIRM); [by apply checked_cells|]. destruct (_ =? COMPACT); [apply compact_cells|].
  destruct (_ =? INTEGRITY_FAILED); [intros [= <-]; by apply cells_same|]. destruct (_ =? READ_PIN_COMMITTED); [by apply checked_cells|].
  destruct (_ =? READ_PIN_FINALIZED); [apply checked_cells; by intros [e p]|]. destruct (_ =? READ_PIN_EXPIRED); [apply checked_cells; by intros [e p]|].
  destruct (_ =? PUT_ATOMIC_COMMITTED) eqn:E3; [apply Z.eqb_eq in E3; by apply atomic_cells|done].
Qed.


(** ** The clock *)

Lemma compact_clock value s s' : applyCompact f value s = (Ok tt, s') -> epochFloor s' = epochFloor s.
Proof.
  intros Hq. unfold applyCompact in Hq. autorewrite with machine in Hq. destruct (integrity_if _) as [[]|]; [|done].
  destruct (_ =? COMPACT_KIND_CELL); [|destruct (_ =? COMPACT_KIND_SPEND)]; case_match; try done; autorewrite with machine in Hq;
    (destruct (integrity_if _) as [[]|]; [|done]); by injection Hq as <-.
Qed.

Lemma checked_clock {T} (check : engine -> result T) change s s' : (forall t s, epochFloor (change t s) = epochFloor s) -> checked check change s = (Ok tt, s') ->
  epochFloor s <= epochFloor s'.
Proof. intros Hsame (t & _ & ->)%checked_ok. rewrite Hsame. lia. Qed.

Lemma value_clock value recovering s s' : applyValue c f value recovering s = (Ok tt, s') -> epochFloor s <= epochFloor s'.
Proof.
  unfold applyValue.
  destruct (_ =? INGRESS_RESERVED); [by apply checked_clock|]. destruct (_ =? ATTEMPT_CONSUMED); [apply checked_clock; by intros [[e i] r]|].
  destruct (_ =? PUT_COMMITTED); [apply checked_clock; by intros [[[e i] r] b]|]. destruct (_ =? PUT_TERMINAL); [apply checked_clock; by intros [[e i] r]|].
  destruct (_ =? RENEW_COMMITTED); [apply checked_clock; by intros [[x b] a]|]. destruct (_ =? DROP_COMMITTED); [apply checked_clock; by intros [x b]|].
  destruct (_ =? POLICY_COMMITTED); [by apply checked_clock|]. destruct (_ =? GC_COMMITTED); [by apply checked_clock|].
  destruct (_ =? FLOOR_ADVANCE); [intros (t & Hc & ->)%checked_ok; unfold checkFloor in Hc; passed; cbn; lia|].
  destruct (_ =? CLOCK_UNSAFE); [by apply checked_clock|].
  destruct (_ =? CLOCK_CONFIRM); [intros (t & Hc & ->)%checked_ok; unfold checkFloor in Hc; passed; cbn; lia|].
  destruct (_ =? COMPACT); [intros ->%compact_clock; lia|]. destruct (_ =? INTEGRITY_FAILED); [by intros [= <-]|].
  destruct (_ =? READ_PIN_COMMITTED); [by apply checked_clock|]. destruct (_ =? READ_PIN_FINALIZED); [apply checked_clock; by intros [e p]|].
  destruct (_ =? READ_PIN_EXPIRED); [apply checked_clock; by intros [e p]|]. destruct (_ =? PUT_ATOMIC_COMMITTED); [by apply checked_clock|done].
Qed.

(** ** One cell at a time *)

Lemma change_steps now s s' : cells_change now s s' ->
  (forall k, life_step now (life_of (get_cell k s)) (life_of (get_cell k s'))) /\
  (forall k k', get_cell k s' <> get_cell k s -> get_cell k' s' <> get_cell k' s -> k = k').
Proof.
  unfold get_cell. intros [->|k r -> Hs|k -> Hs].
  - split; [intros; apply stays|done].
  - assert (Hk : forall k', map_get bytes_eqb k' (map_set bytes_eqb k r (cells s)) <> map_get bytes_eqb k' (cells s) -> k' = k).
    { intros k' Hn. destruct (decide (k = k')) as [|Hne]; [done|]. destruct Hn. by apply get_set_other. }
    split; [|intros k1 k2 H1%Hk H2%Hk; congruence]. intros k'. destruct (decide (k = k')) as [<-|Hne]; [by rewrite get_set_same|]. rewrite get_set_other by done. apply stays.
  - assert (Hk : forall k', map_get bytes_eqb k' (map_delete bytes_eqb k (cells s)) <> map_get bytes_eqb k' (cells s) -> k' = k).
    { intros k' Hn. destruct (decide (k = k')) as [|Hne]; [done|]. destruct Hn. by apply get_deleted_other. }
    split; [|intros k1 k2 H1%Hk H2%Hk; congruence]. intros k'. destruct (decide (k = k')) as [<-|Hne]; [|rewrite get_deleted_other by done; apply stays].
    rewrite get_delete by apply bytes_eqb_eq. by rewrite bytes_eqb_refl.
Qed.

End Frames.

(** C5: A cell lives one life. Whatever record of the log is applied, at most one
    cell changes, and only in one of these ways: it appears with revisions 0 and
    the lease of its class, under a slot that is the hash of its key and epoch;
    its lease grows and its revision goes up by one; its policy flips and the
    policy revision goes up by one; it becomes a tombstone, dropped by its owner
    or collected more than four epochs after its lease; or a tombstone is
    forgotten after more than 1460 epochs. Content, keys and lineage never
    change, and the clock never goes back. *)
Theorem cell_lifecycle c f recovering s s' : sound s -> applyFrame c f recovering s = (Ok tt, s') ->
  epochFloor s <= epochFloor s' /\
  (forall k, life_step (epochFloor s) (life_of (get_cell k s)) (life_of (get_cell k s'))) /\
  (forall k k', get_cell k s' <> get_cell k s -> get_cell k' s' <> get_cell k' s -> k = k').
Proof. intros Hs (value & Hv & Hq & _)%frame_ok. split; [by eapply value_clock|]. by eapply change_steps, value_cells. Qed.

(** ** A slot is never used again *)

(** A cell put at an epoch is still remembered, or long gone. *)
Definition remembered (slot : bytes) (epoch : Z) (s : engine) : Prop :=
  epoch <= epochFloor s /\
  ((exists r, get_cell slot s = Some r /\ cell_coherent r /\ forall t, c_terminalEpoch r = Some t -> epoch <= t) \/ epoch + RETENTION_HORIZON_EPOCHS < epochFloor s).

Lemma remembered_step c f recovering slot epoch s s' : sound s -> applyFrame c f recovering s = (Ok tt, s') -> remembered slot epoch s -> remembered slot epoch s'.
Proof.
  intros Hs Hq (He & Hr). assert (Hs' := frame_sound _ _ _ _ _ Hs Hq). apply frame_ok in Hq as (value & Hv & Hq & _).
  pose proof (value_clock _ _ _ _ _ _ Hq) as Hc. destruct (change_steps _ _ _ (value_cells _ _ _ _ _ _ Hv Hs Hq)) as [Hl _]. specialize (Hl slot). split; [lia|].
  destruct Hr as [(r & Hg & Hco & Ht)|Hr]; [|right; lia]. rewrite Hg in Hl. destruct (get_cell slot s') as [r'|] eqn:Hg'.
  - left. exists r'. destruct (cell_at s' (proj1 Hs') _ _ Hg') as [_ Hco']. split_and!; [done..|]. intros t Ht'.
    cbn in Hl. unfold cell_coherent in Hco, Hco'. destruct (c_objectState r), (c_objectState r'); destruct Hco' as [[Hra' Hrb'] _]; try congruence; inversion Hl; subst; try lia;
      first [apply Ht; congruence | assert (t = epochFloor s) as -> by congruence; lia].
  - cbn in Hl. destruct (c_objectState r) eqn:Eo; inversion Hl; subst. right. assert (epoch <= epoch0) by (by apply Ht). lia.
Qed.

(** Along a log. *)
Lemma replay_app c a b s s' : replay c (a ++ b) s = (Ok tt, s') -> exists s1, replay c a s = (Ok tt, s1) /\ replay c b s1 = (Ok tt, s').
Proof.
  revert s. induction a as [|f a IH]; intros s Hq; [by exists s|]. cbn [app replay] in *. apply bindM_ok in Hq as ([] & s1 & Hf & Hq).
  apply IH in Hq as (s2 & Ha & Hb). exists s2. split; [by rewrite (bind_run _ _ _ _ _ Hf)|done].
Qed.

Lemma replay_invariant c (I : engine -> Prop) log s s' :
  (forall f s s', sound s -> applyFrame c f true s = (Ok tt, s') -> I s -> I s') -> sound s -> I s -> replay c log s = (Ok tt, s') -> sound s' /\ I s'.
Proof.
  intros Hstep. revert s. induction log as [|f log IH]; intros s Hs Hi Hq; [by injection Hq as <-|]. cbn [replay] in Hq.
  apply bindM_ok in Hq as ([] & s1 & Hf & Hq). apply (IH s1); [by eapply frame_sound|by eapply Hstep|done].
Qed.

Lemma replay_sound c log s : replay c log new_engine = (Ok tt, s) -> sound s.
Proof. intros Hq. by apply (replay_invariant c (fun _ => True) log new_engine s) in Hq as [? _]; [..|apply new_sound|]. Qed.

(** What an atomic put says of its slot and its epoch. *)
Lemma atomic_put_window c f recovering value s s' : holds_value f value -> Wal.type (Wal.head_of f) = PUT_ATOMIC_COMMITTED ->
  applyFrame c f recovering s = (Ok tt, s') -> sound s ->
  certified (num value.["allocationEpoch"]) (raw value.["createPublicKey"]) (raw value.["storageSlot"]) /\
  num value.["allocationEpoch"] <= epochFloor s + 1 /\ epochFloor s < num value.["allocationEpoch"] + RETENTION_HORIZON_EPOCHS /\
  get_cell (raw value.["storageSlot"]) s = None /\ remembered (raw value.["storageSlot"]) (epochFloor s) s'.
Proof.
  intros Hv Ht Hq Hs. assert (Hs' := frame_sound _ _ _ _ _ Hs Hq). apply frame_ok in Hq as (value' & Hv' & Hq & _).
  assert (value' = value) as ->.
  { destruct Hv as (e & He & Hd), Hv' as (e' & He' & Hd'). rewrite He in He'. simplify_eq. congruence. }
  unfold applyValue in Hq. rewrite Ht in Hq. cbn in Hq. pose proof (value_keyed f value Hv (or_intror Ht)) as Hk.
  apply checked_ok in Hq as (t & Hc & ->). unfold checkAtomicPut in Hc. passed.
  match goal with E : Hash.cellStorageSlot value = Ok _, E' : bytes_eqb _ (raw value.["storageSlot"]) = true |- _ =>
    apply slot_certified in E; [|done]; apply bytes_eqb_eq in E' as -> end.
  split_and!; [done|lia|lia|done|]. split; [done|]. left. eexists. split; [apply get_set_same|]. split; [by eapply (cell_at _ (proj1 Hs')), get_set_same|by intros t].
Qed.

Lemma certified_inputs a k a' k' slot : certified a k slot -> certified a' k' slot -> collide (slot_input a k) (slot_input a' k') \/ a = a'.
Proof.
  intros (Ha & Hk & ->) (Ha' & Hk' & Hq). apply hash_tells in Hq as [Hc|Hq]; [by left|right].
  unfold slot_input in Hq. apply app_inv_head in Hq. apply app_inj_1 in Hq as [Hq _]; [|by rewrite !length_be_bytes].
  apply (be_bytes_inj 4); [unfold MAX_U32 in *; lia..|done].
Qed.

(** C4: A storage slot is used once, ever. There is no log that a store can be
    opened from with two atomic puts into the same slot, however many epochs lie
    between them and whatever was dropped, collected and compacted in between:
    the first is not forgotten before the window of its allocation epoch has
    closed. Only a collision of the hash of slots could make one. *)
Theorem slot_used_once c log1 f log2 g log3 s v w :
  ~ (replay c (log1 ++ f :: log2 ++ g :: log3) new_engine = (Ok tt, s) /\
     Wal.type (Wal.head_of f) = PUT_ATOMIC_COMMITTED /\ Wal.type (Wal.head_of g) = PUT_ATOMIC_COMMITTED /\
     holds_value f v /\ holds_value g w /\ raw v.["storageSlot"] = raw w.["storageSlot"] /\
     ~ collide (slot_input (num v.["allocationEpoch"]) (raw v.["createPublicKey"])) (slot_input (num w.["allocationEpoch"]) (raw w.["createPublicKey"]))).
Proof.
  intros (Hq & Hf & Hg & Hv & Hw & Heq & Hnc). apply replay_app in Hq as (s1 & H1 & Hq). apply replay_sound in H1 as Hs1. cbn [replay] in Hq.
  apply bindM_ok in Hq as ([] & s2 & H2 & Hq). apply replay_app in Hq as (s3 & H3 & Hq). cbn [replay] in Hq. apply bindM_ok in Hq as ([] & s4 & H4 & _).
  destruct (atomic_put_window _ _ _ _ _ _ Hv Hf H2 Hs1) as (C1 & W1 & _ & _ & Hr).
  assert (Hs2 := frame_sound _ _ _ _ _ Hs1 H2).
  apply (replay_invariant c (remembered (raw v.["storageSlot"]) (epochFloor s1))) in H3 as [Hs3 [_ Hr3]]; [|intros; by eapply remembered_step|done..].
  destruct (atomic_put_window _ _ _ _ _ _ Hw Hg H4 Hs3) as (C2 & _ & W2 & Hn & _). rewrite <- Heq in C2, Hn.
  destruct (certified_inputs _ _ _ _ _ C1 C2) as [Hc|He]; [done|]. exfalso.
  destruct Hr3 as [(r & Hr3 & _)|Hr3]; [congruence|]. lia.
Qed.

End WithPlatform.
End CellLife.
