(* ===== verification/CellSpends.v ===== *)
(** * The cell store: the lives of spends

    What a record of the log may do to an entry of [spends]: it is entered once,
    moves through the states of its kind, and leaves only when it has been over
    for longer than the retention horizon. *)

From Stdlib Require Import ZArith Lia Bool List String Ascii.
From Stdlib Require Import Strings.Byte.
From stdpp Require Import base tactics list strings.
From S2P Require Import Prelude JsMap Codec CodecLaws Authority Hashes SchemaKit ResultBinding HashLaws Accepted WriteAheadLog CellRecords ExpiryHeap CellStore CellApply CellBooks CellLife.

Module CellSpends.
Import Binding CellRecord Cells Apply CellBooks CellLife.

(** What identifies a spend and never changes. *)
Definition identity (e : spend) : bytes * bytes * bytes * bytes * Z * option Z :=
  (e_spendTag e, e_requestCommitment e, e_requestFingerprint e, e_transactionId e, e_reservedWalSequence e, e_operation e).

Inductive status_step : status -> status -> Prop :=
| attempt_taken : status_step Reserved Reserved
| put_stored : status_step Reserved Committed
| put_given_up : status_step Reserved Terminal
| read_finalized : status_step ReadPinned ReadFinalized
| read_pin_expired : status_step ReadPinned ReadExpired
| read_expired : status_step ReadFinalized ReadExpired.

Section WithPlatform.
Context `{Platform}.
Context (c : config).

Lemma binding_again v binding : resultBindingBytes c v = Ok binding -> resultBindingBytes c (val_of binding) = Ok binding.
Proof.
  unfold resultBindingBytes at 1. destruct (nullish v); [by intros [= <-]|]. intros Hq. apply bindR_ok in Hq as ([bs b] & Hb & Hq).
  match type of Hb with match ?m with _ => _ end = _ => destruct m as [x|] eqn:Em; [|done] end. injection Hb as ->. oks.
  cbn [val_of]. unfold resultBindingBytes. cbn [nullish bindR]. rewrite H3. cbn [bindR]. rewrite H4. cbn [bindR]. rewrite H5. cbn [throw_if bindR].
  by rewrite H0.
Qed.

Lemma admitted_binding {A} v (b : result (A * bytes)) binding bs : integrity (
    let! binding := resultBindingBytes c v in
    let! (_, preparedAdmissionBytes) := b in Ok (binding, preparedAdmissionBytes)) = Ok (binding, bs) -> resultBindingBytes c (val_of binding) = Ok binding.
Proof. intros Hq%integrity_ok. apply bindR_ok in Hq as (binding' & Hb & Hq). apply bindR_ok in Hq as ([a b'] & _ & [= -> _]). by eapply binding_again. Qed.

(** The result binding that an entry for a put holds, if any, is canonical. *)
Definition bound_by (e : spend) : Prop :=
  match e_detail e with Ingress i => resultBindingBytes c (val_of (i_resultBindingBytes i)) = Ok (i_resultBindingBytes i) | _ => True end.

Inductive spend_step (now : Z) : option spend -> option spend -> Prop :=
| spend_stays o : spend_step now o o
| spend_enters e : (e_status e = Reserved \/ e_status e = Committed \/ e_status e = ReadPinned) -> coherent e -> bound_by e ->
    (ageEpoch e = None \/ ageEpoch e = Some now) -> spend_step now None (Some e)
| spend_moves e e' : identity e' = identity e -> (bound_by e -> bound_by e') -> status_step (e_status e) (e_status e') -> (ageEpoch e' = ageEpoch e \/ ageEpoch e' = Some now) ->
    spend_step now (Some e) (Some e')
| spend_leaves e : retired now (ageEpoch e) = true -> spend_step now (Some e) None.

Inductive spends_change (now : Z) (s s' : engine) : Prop :=
| spends_same : spends s' = spends s -> spends_change now s s'
| spends_set k e : spends s' = map_set bytes_eqb k e (spends s) -> spend_step now (get_spend k s) (Some e) -> spends_change now s s'
| spends_deleted k : spends s' = map_delete bytes_eqb k (spends s) -> spend_step now (get_spend k s) None -> spends_change now s s'.

Section Frames.
Context (f : Wal.frame).
Implicit Types (value : val) (s : engine).

Ltac spend_set := eapply (spends_set _ _ _ (raw _.["spendTag"])); [reflexivity|].
Ltac entering := spend_set; match goal with E : get_spend _ _ = None |- _ => rewrite E end; apply spend_enters; [cbn; tauto| |try exact I|].

Lemma reservation_spends value s s' : keyed value -> applyReservation c f value s = (Ok tt, s') -> spends_change (epochFloor s) s s'.
Proof.
  intros Hk (t & Hc & ->)%checked_ok. unfold checkReservation in Hc. passed. entering.
  - match goal with E : Hash.cellStorageSlot value = Ok _, E' : bytes_eqb _ (raw value.["storageSlot"]) = true |- _ =>
      apply slot_certified in E; [|done]; apply bytes_eqb_eq in E' as -> end. cbn. eauto 10.
  - match goal with E : integrity _ = Ok _ |- _ => by apply admitted_binding in E end.
  - by left.
Qed.

Lemma attempt_spends value s s' : applyAttempt f value s = (Ok tt, s') -> spends_change (epochFloor s) s s'.
Proof.
  intros ([[e i] r] & Hc & ->)%checked_ok. unfold checkAttempt in Hc. passed. apply reservationFor_ok in H0 as (Hg & Hs & Hd & Hr & _).
  spend_set. rewrite Hg. apply spend_moves; cbn; [done|by unfold bound_by; cbn; rewrite ?Hd|rewrite Hs; constructor|by left].
Qed.

Lemma put_spends value s s' : sound s -> applyPut c f value s = (Ok tt, s') -> spends_change (epochFloor s) s s'.
Proof.
  intros [Hm _] ([[[e i] r] binding] & Hc & ->)%checked_ok. unfold checkPut in Hc. passed. apply reservationFor_ok in H0 as (Hg & Hs & Hd & Hr & _).
  destruct (spend_at s Hm _ _ Hg) as (_ & Hco & _). unfold coherent in Hco. rewrite Hd, Hs in Hco. destruct Hco as ((_ & _ & Ht) & _).
  match goal with E : integrity _ = Ok _ |- _ => apply integrity_ok, binding_again in E end.
  spend_set. rewrite Hg. apply spend_moves; [done|done|cbn; rewrite Hs; constructor|]. right. unfold ageEpoch. cbn. rewrite Ht. by f_equal.
Qed.

Lemma terminal_spends value s s' : applyTerminal f value s = (Ok tt, s') -> spends_change (epochFloor s) s s'.
Proof.
  intros ([[e i] r] & Hc & ->)%checked_ok. unfold checkTerminal in Hc. passed. apply reservationFor_ok in H0 as (Hg & Hs & Hd & Hr & _).
  spend_set. rewrite Hg. apply spend_moves; [done|by unfold bound_by; cbn; rewrite ?Hd|cbn; rewrite Hs; constructor|]. right. cbn. by f_equal.
Qed.

Lemma atomic_spends value s s' : keyed value -> applyAtomicPut c f value s = (Ok tt, s') -> spends_change (epochFloor s) s s'.
Proof.
  intros Hk (t & Hc & ->)%checked_ok. unfold checkAtomicPut in Hc. passed. entering.
  - match goal with E : Hash.cellStorageSlot value = Ok _, E' : bytes_eqb _ (raw value.["storageSlot"]) = true |- _ =>
      apply slot_certified in E; [|done]; apply bytes_eqb_eq in E' as -> end. cbn. eauto 10.
  - match goal with E : integrity _ = Ok _ |- _ => by apply admitted_binding in E end.
  - right. cbn. by f_equal.
Qed.

Lemma renew_spends value s s' : applyRenew c f value s = (Ok tt, s') -> spends_change (epochFloor s) s s'.
Proof.
  intros ([[record binding] admission] & Hc & ->)%checked_ok. unfold checkRenew in Hc. passed. destruct (get_cell _ s) as [record0|]; [|done]. passed.
  entering; [cbn; eauto 10|]. right. cbn. by f_equal.
Qed.

Lemma read_pin_spends value s s' : applyReadPin c f value s = (Ok tt, s') -> spends_change (epochFloor s) s s'.
Proof.
  intros (t & Hc & ->)%checked_ok. unfold checkReadPin in Hc. passed. pose proof finalization_positive.
  entering; [cbn; split; [eauto|unfold blen; lia]|]. right. cbn. by f_equal.
Qed.

Lemma finalized_spends value s s' : applyReadPinFinalized f value s = (Ok tt, s') -> spends_change (epochFloor s) s s'.
Proof.
  intros ([e p] & Hc & ->)%checked_ok. unfold checkReadPinFinalized in Hc. passed. apply pin_for_ok in H1 as (Hg & Hs & Hd & _). apply list_elem_of_singleton in Hs.
  spend_set. rewrite Hg. apply spend_moves; [done|by unfold bound_by; cbn; rewrite ?Hd|cbn; rewrite Hs; constructor|by left].
Qed.

Lemma expired_spends value s s' : applyReadPinExpired f value s = (Ok tt, s') -> spends_change (epochFloor s) s s'.
Proof.
  intros ([e p] & Hc & ->)%checked_ok. unfold checkReadPinExpired in Hc. passed. apply pin_for_ok in H1 as (Hg & Hs & Hd & _).
  rewrite !elem_of_cons, elem_of_nil in Hs. spend_set. rewrite Hg. apply spend_moves; [done|done| |right; cbn; by f_equal].
  cbn. destruct Hs as [->|[->|[]]]; constructor.
Qed.

Lemma compact_spends value s s' : applyCompact f value s = (Ok tt, s') -> spends_change (epochFloor s) s s'.
Proof.
  intros Hq. unfold applyCompact in Hq. autorewrite with machine in Hq. destruct (integrity_if _) as [[]|] eqn:E0; [|done]. apply integrity_if_ok in E0. b2p.
  destruct (_ =? COMPACT_KIND_CELL); [|destruct (_ =? COMPACT_KIND_SPEND)].
  - destruct (get_cell _ s) as [r|] eqn:Hg; [|done]. autorewrite with machine in Hq. destruct (integrity_if _) as [[]|]; [|done]. injection Hq as <-. by apply spends_same.
  - destruct (get_spend _ s) as [e|] eqn:Hg; [|done]. autorewrite with machine in Hq. destruct (integrity_if _) as [[]|] eqn:E1; [|done]. injection Hq as <-.
    apply integrity_if_ok in E1. b2p. apply (spends_deleted _ _ _ (raw value.["key"])); [done|]. rewrite Hg. apply spend_leaves. by rewrite <- E0.
  - destruct (get_result _ s) as [d|] eqn:Hg; [|done]. autorewrite with machine in Hq. destruct (integrity_if _) as [[]|]; [|done]. injection Hq as <-. by apply spends_same.
Qed.

Lemma checked_spends {T} (check : engine -> result T) change s s' : (forall t s, spends (change t s) = spends s) -> checked check change s = (Ok tt, s') ->
  spends_change (epochFloor s) s s'.
Proof. intros Hsame (t & _ & ->)%checked_ok. apply spends_same, Hsame. Qed.

Lemma value_spends value recovering s s' : holds_value f value -> sound s -> applyValue c f value recovering s = (Ok tt, s') -> spends_change (epochFloor s) s s'.
Proof.
  intros Hv Hs. pose proof (value_keyed f value Hv) as Hk. unfold applyValue.
  destruct (_ =? INGRESS_RESERVED) eqn:E1; [apply reservation_spends, Hk; left; by apply Z.eqb_eq|]. destruct (_ =? ATTEMPT_CONSUMED); [apply attempt_spends|].
  destruct (_ =? PUT_COMMITTED); [by apply put_spends|]. destruct (_ =? PUT_TERMINAL); [apply terminal_spends|].
  destruct (_ =? RENEW_COMMITTED); [apply renew_spends|]. destruct (_ =? DROP_COMMITTED); [apply checked_spends; by intros [x b]|].
  destruct (_ =? POLICY_COMMITTED); [by apply checked_spends|]. destruct (_ =? GC_COMMITTED); [by apply checked_spends|].
  destruct (_ =? FLOOR_ADVANCE); [by apply checked_spends|]. destruct (_ =? CLOCK_UNSAFE); [by apply checked_spends|].
  destruct (_ =? CLOCK_CONFIRM); [by apply checked_spends|]. destruct (_ =? COMPACT); [apply compact_spends|].
  destruct (_ =? INTEGRITY_FAILED); [intros [= <-]; by apply spends_same|]. destruct (_ =? READ_PIN_COMMITTED); [apply read_pin_spends|].
  destruct (_ =? READ_PIN_FINALIZED); [apply finalized_spends|]. destruct (_ =? READ_PIN_EXPIRED); [apply expired_spends|].
  destruct (_ =? PUT_ATOMIC_COMMITTED) eqn:E2; [apply atomic_spends, Hk; right; by apply Z.eqb_eq|done].
Qed.

Lemma spends_steps now s s' : spends_change now s s' -> forall k, spend_step now (get_spend k s) (get_spend k s').
Proof.
  unfold get_spend. intros [->|k e -> Hs|k -> Hs] k'; [apply spend_stays|..]; (destruct (decide (k = k')) as [<-|Hne]).
  - by rewrite get_set_same.
  - rewrite get_set_other by done. apply spend_stays.
  - rewrite get_delete by apply bytes_eqb_eq. by rewrite bytes_eqb_refl.
  - rewrite get_deleted_other by done. apply spend_stays.
Qed.

End Frames.

(** Every result binding of the store is canonical. *)
Definition all_bound (s : engine) : Prop := forall k e, get_spend k s = Some e -> bound_by e.

Lemma frame_bound f recovering s s' : sound s -> applyFrame c f recovering s = (Ok tt, s') -> all_bound s -> all_bound s'.
Proof.
  intros Hs (value & Hv & Hq & _)%frame_ok Hb k e He. pose proof (spends_steps _ _ _ (value_spends f value recovering s s' Hv Hs Hq) k) as Hstep.
  rewrite He in Hstep. destruct (get_spend k s) as [e0|] eqn:E; [apply Hb in E|]; inversion Hstep; subst; auto.
Qed.

Lemma replay_bound log s : replay c log new_engine = (Ok tt, s) -> sound s /\ all_bound s.
Proof. apply (replay_invariant c all_bound); [intros f s1 s2 Hs Hq; by eapply frame_bound|apply new_sound|done]. Qed.

(** C21: A spend buys one thing. Whatever record of the log is applied, an entry
    of the spends either stays, or is entered where there was none, or moves
    along the states of its kind with its commitment, fingerprint, transaction
    and place in the log unchanged, or leaves more than 1460 epochs after it was
    over; and the store never has two spends for one commitment. *)
Theorem spend_lifecycle f recovering s s' : sound s -> applyFrame c f recovering s = (Ok tt, s') ->
  (forall k, spend_step (epochFloor s) (get_spend k s) (get_spend k s')) /\
  (forall k k' e e', get_spend k s' = Some e -> get_spend k' s' = Some e' -> e_requestCommitment e = e_requestCommitment e' -> k = k').
Proof.
  intros Hs Hq. assert (Hs' := frame_sound _ _ _ _ _ Hs Hq). apply frame_ok in Hq as (value & Hv & Hq & _). split.
  - by eapply spends_steps, value_spends.
  - intros k k' e e' He He' Heq. destruct (spend_at s' (proj1 Hs') _ _ He) as (_ & _ & H1), (spend_at s' (proj1 Hs') _ _ He') as (_ & _ & H2). congruence.
Qed.

End WithPlatform.
End CellSpends.
