(* ===== verification/CellOperations.v ===== *)
(** * The cell store: its operations (packages/blind-daemon/storage-engine.js)

    An operation checks its input, waits for the locks of the spend and the cell
    it is about, looks at the state and either replies or appends one record to
    the log. What happens between the locks and the record is one step, a
    [section]: it replies, or hands a [proposal] to the log. When the record has
    been applied the operation replies from the state, with the functions called
    [..._reply].

    Times, transaction ids and the verdicts of signatures are arguments. What the
    object files hold is not modelled: bodies are staged, published, read and
    removed by the transaction store. *)

From Stdlib Require Import ZArith Lia Bool List String Ascii.
From Stdlib Require Import Strings.Byte.
From stdpp Require Import base tactics list strings.
From S2P Require Import Prelude JsMap Codec CodecLaws Authority Hashes SchemaKit ResultBinding WriteAheadLog CellRecords ExpiryHeap CellStore CellApply.

Module CellOps.
Import Binding CellRecord Cells Apply.

Definition INTERNAL : error := Thrown "INTERNAL".
Definition BAD_SLOT : error := Thrown "BAD_SLOT".
Definition BAD_CREATE_SIG : error := Thrown "BAD_CREATE_SIG".
Definition BAD_MANAGEMENT_SIG : error := Thrown "BAD_MANAGEMENT_SIG".
Definition SPEND_INVALID : error := Thrown "SPEND_INVALID".
Definition SPEND_REPLAY : error := Thrown "SPEND_REPLAY".
Definition NOT_FOUND : error := Thrown "NOT_FOUND".
Definition STALE_REVISION : error := Thrown "STALE_REVISION".
Definition RENEW_NOT_DUE : error := Thrown "RENEW_NOT_DUE".

(** [TERMINAL_REASON] *)
Definition INVALID_BODY : Z := 1.
Definition ATTEMPTS_EXHAUSTED : Z := 2.
Definition RESERVATION_EXPIRED : Z := 3.

(** What [#appendAndApply] hands to the log. *)
Record proposal := { q_type : Z; q_transactionId : bytes; q_virtualBucket : Z; q_payload : bytes }.

(** A section under the locks: a reply, or a proposal. *)
Definition section (R : Type) : Type := M engine (R + proposal).

Definition replies {R} (r : R) : section R := ret (inl r).

(** [#appendAndApply], up to the log *)
Definition append {R} (type : Z) (transactionId : bytes) (virtualBucket : Z) (value : val) : section R :=
  match codec_of type with
  | None => throw RECOVERY_GAP_READ_ONLY
  | Some codec =>
      let* payload := lift (encodeCanonical codec value) in
      ret (inr {| q_type := type; q_transactionId := transactionId; q_virtualBucket := virtualBucket; q_payload := payload |})
  end.

(** What the operations return: [resultView] *)
Record view := {
  v_status : string;
  v_replay : bool;
  v_receiptEpoch : option Z;
  v_resultBindingBytes : option bytes;
  v_resultIdentity : option bytes;
  v_cell : option public_cell
}.

Definition resultView (e : spend) (status : string) (replay : bool) : view :=
  match e_detail e with
  | Ingress i => {| v_status := status; v_replay := replay; v_receiptEpoch := e_committedEpoch e; v_resultBindingBytes := i_resultBindingBytes i;
      v_resultIdentity := i_resultIdentity i; v_cell := i_resultCell i |}
  | Renewal r => {| v_status := status; v_replay := replay; v_receiptEpoch := e_committedEpoch e; v_resultBindingBytes := r_resultBindingBytes r;
      v_resultIdentity := Some (r_resultIdentity r); v_cell := Some (r_resultCell r) |}
  | Pin p => {| v_status := status; v_replay := replay; v_receiptEpoch := e_committedEpoch e; v_resultBindingBytes := p_resultBindingBytes p;
      v_resultIdentity := None; v_cell := None |}
  end.

Definition dropView (d : dropped) (replay : bool) : view := {| v_status := "dropped"; v_replay := replay; v_receiptEpoch := Some (d_committedEpoch d);
  v_resultBindingBytes := d_resultBindingBytes d; v_resultIdentity := Some (d_resultIdentity d); v_cell := Some (d_resultCell d) |}.

(** ** Guards *)

(** [#assertWritable], of an open store *)
Definition assertWritable (leaseMutation : bool) (s : engine) : result unit :=
  throw_if match readOnlyReason s with Some _ => true | None => false end INTERNAL ;;!
  throw_if (leaseMutation && clockUnsafe s) BUSY.

Definition nowEpochFromMillis (millis : val) : result Z :=
  let! millis := u64 millis in
  let epoch := millis / SIX_HOURS_MILLIS in
  throw_if (0xffffffff <? epoch) INTERNAL ;;!
  Ok epoch.

(** [validateDistinctKeys] of the three keys of a cell *)
Definition validateDistinctKeys (create renew drop : val) : result (bytes * bytes * bytes) :=
  let! create := fixed create 32 true in
  let! renew := fixed renew 32 true in
  let! drop := fixed drop 32 true in
  fail_if (negb (distinct_keys create renew drop)) ;;!
  Ok (create, renew, drop).

Section WithPlatform.
Context `{Platform}.
Context (c : config).
(** Node's [verify] of an Ed25519 signature: key, message, signature *)
Context (verifySignature : bytes -> bytes -> bytes -> bool).

Definition verifyEd25519 (publicKey message : bytes) (signature : val) : result bool :=
  let! publicKey := fixed (VBytes publicKey) 32 true in
  let! signature := fixed signature 64 false in
  Ok (verifySignature publicKey message signature).

(** ** The clock *)

Inductive clock_state := READY | CLOCK_IS_UNSAFE | READ_ONLY.

(** [#refreshClock] under the lock, [observedEpoch] having been read before *)
Definition refreshClock (observedEpoch : Z) (transactionId : bytes) : section clock_state :=
  let* s := gets (fun s => s) in
  if clockUnsafe s then replies CLOCK_IS_UNSAFE
  else if observedEpoch =? epochFloor s then replies READY
  else if (observedEpoch <? epochFloor s) || (epochFloor s + CLOCK_MAX_JUMP_EPOCHS <? observedEpoch)
  then append CLOCK_UNSAFE transactionId 0 (VObj [("version", VNum 1); ("epochFloor", VNum (epochFloor s)); ("observedEpoch", VNum observedEpoch);
         ("direction", VNum (if observedEpoch <? epochFloor s then 1 else 2))])
  else append FLOOR_ADVANCE transactionId 0 (VObj [("version", VNum 1); ("oldEpochFloor", VNum (epochFloor s)); ("newEpochFloor", VNum observedEpoch)]).

(** [#confirmClock] before the lock and under it *)
Definition confirmClock_input (confirmedEpoch : val) (s : engine) : result Z :=
  assertWritable false s ;;!
  let! confirmedEpoch := integer confirmedEpoch 0 0xffffffff in
  fail_if (confirmedEpoch <? epochFloor s) ;;!
  Ok confirmedEpoch.
Definition confirmClock (confirmedEpoch : Z) (transactionId : bytes) : section clock_state :=
  let* s := gets (fun s => s) in
  append CLOCK_CONFIRM transactionId 0 (VObj [("version", VNum 1); ("oldEpochFloor", VNum (epochFloor s)); ("newEpochFloor", VNum confirmedEpoch)]).

(** ** Quotas *)

(** [#enforceRecoveredQuota] *)
Definition enforceRecoveredQuota (s : engine) : engine :=
  let a := books s in
  if (maxStoredBytes c <? storedBytes a + stagingBytes a) || (maxStagingBytes c <? stagingBytes a) || (maxControlBytes c <? controlBytes a) ||
     (maxTombstoneBytes c <? tombstoneBytes a) || (maxCells c <? Z.of_nat (List.length (cells s)) + reservedCells a) ||
     existsb (fun e => maxStagingBytesPerProfile c <? snd e) (stagingByProfile a)
  then set_readOnly (Some "RECOVERED_QUOTA_EXCEEDED") (integrityEvidence s) s
  else s.

(** [#checkCreateQuota] *)
Definition checkCreateQuota (declaredBytes profileId stagingCredit : Z) (s : engine) : result unit :=
  let a := books s in
  let ephemeralBytes := a_bytes (atomicStaging s) - stagingCredit in
  let ephemeralProfileBytes := profile_bytes profileId (a_byProfile (atomicStaging s)) - stagingCredit in
  throw_if ((ephemeralBytes <? 0) || (ephemeralProfileBytes <? 0)) INTERNAL ;;!
  throw_if (maxCells c <=? Z.of_nat (List.length (cells s)) + reservedCells a) BUSY ;;!
  throw_if (maxStoredBytes c <? storedBytes a + stagingBytes a + ephemeralBytes + declaredBytes) BUSY ;;!
  throw_if (maxStagingBytes c <? stagingBytes a + ephemeralBytes + declaredBytes) BUSY ;;!
  throw_if (maxStagingBytesPerProfile c <? profile_bytes profileId (stagingByProfile a) + ephemeralProfileBytes + declaredBytes) BUSY ;;!
  throw_if (maxControlBytes c <? controlBytes a + CONTROL_RECORD_BYTES) BUSY ;;!
  throw_if (maxTombstoneBytes c <? tombstoneBytes a + TOMBSTONE_RECORD_BYTES) BUSY.

(** [#leaseEpochFor] *)
Definition leaseEpochFor (leaseClass : Z) (s : engine) : result Z :=
  let duration := lease_epochs leaseClass in
  throw_if (MAX_U32 - duration <? epochFloor s) BUSY ;;!
  Ok (epochFloor s + duration).

(** ** Puts *)

(** What [#putInput] returns; the source of the body and the abort signal are left out. *)
Record put_input := {
  p_storageSlot : bytes;
  p_allocationEpoch : Z;
  p_sizeClass : Z;
  p_leaseClass : Z;
  p_declaredBlobHash : bytes;
  p_createPublicKey : bytes;
  p_renewPublicKey : bytes;
  p_dropPublicKey : bytes;
  p_allocationCommitment : bytes;
  p_requestCommitment : bytes;
  p_spendTag : bytes;
  p_profileId : Z;
  p_preparedAdmissionBytes : bytes;
  p_fingerprint : bytes;
  p_resultBindingBytes : option bytes
}.

(** [#putInput] of [{ request, preparedAdmission, resultBinding }] *)
Definition putInput (request admission resultBinding : val) : result put_input :=
  fail_if (falsy request || falsy admission) ;;!
  let! binding := resultBindingBytes c resultBinding in
  let! (createPublicKey, renewPublicKey, dropPublicKey) :=
    validateDistinctKeys request.["createPublicKey"] request.["renewPublicKey"] request.["dropPublicKey"] in
  let! storageSlot := fixed request.["storageSlot"] 32 true in
  let! allocationEpoch := integer request.["allocationEpoch"] 0 0xffffffff in
  let! sizeClass := integer request.["sizeClass"] 1 5 in
  let! leaseClass := integer request.["leaseClass"] 1 4 in
  let! clientNonce := fixed request.["clientNonce"] 32 false in
  let! declaredBlobHash := fixed request.["declaredBlobHash"] 32 true in
  let! slot := Hash.cellStorageSlot (VObj [("allocationEpoch", VNum allocationEpoch); ("createPublicKey", VBytes createPublicKey)]) in
  throw_if (negb (bytes_eqb slot storageSlot)) BAD_SLOT ;;!
  let! allocation := Hash.allocationCommitment (VObj [("relayPublicKey", VBytes (relayPublicKey c)); ("storageSlot", VBytes storageSlot);
    ("allocationEpoch", VNum allocationEpoch); ("sizeClass", VNum sizeClass); ("leaseClass", VNum leaseClass);
    ("declaredCellBlobHash", VBytes declaredBlobHash); ("createPublicKey", VBytes createPublicKey); ("renewPublicKey", VBytes renewPublicKey);
    ("dropPublicKey", VBytes dropPublicKey)]) in
  let! verified := verifyEd25519 createPublicKey allocation request.["createSignature"] in
  throw_if (negb verified) BAD_CREATE_SIG ;;!
  let! expectedRequestCommitment := Hash.commitment (Hash.cellPutPreimage
    (VObj [("allocationCommitment", VBytes allocation); ("clientNonce", VBytes clientNonce)])) in
  let! (prepared, canonicalBytes) := preparedAdmission admission in
  let spendTag := raw prepared.["spendTag"] in
  throw_if (negb (bytes_eqb expectedRequestCommitment (raw prepared.["requestCommitment"]))) SPEND_INVALID ;;!
  let profileId := num prepared.["profileId"] in
  let fingerprint := requestFingerprint [spendTag; expectedRequestCommitment; storageSlot; allocation; declaredBlobHash;
    u32bytes (size_bytes sizeClass); [z2b leaseClass]; u32bytes profileId; Hash.blake2b256 canonicalBytes] in
  Ok {| p_storageSlot := storageSlot; p_allocationEpoch := allocationEpoch; p_sizeClass := sizeClass; p_leaseClass := leaseClass;
        p_declaredBlobHash := declaredBlobHash; p_createPublicKey := createPublicKey; p_renewPublicKey := renewPublicKey; p_dropPublicKey := dropPublicKey;
        p_allocationCommitment := allocation; p_requestCommitment := expectedRequestCommitment; p_spendTag := spendTag; p_profileId := profileId;
        p_preparedAdmissionBytes := canonicalBytes; p_fingerprint := fingerprint; p_resultBindingBytes := binding |}.

(** The window of allocation epochs that [#putCell] accepts. *)
Definition checkAllocationWindow (allocationEpoch : Z) (s : engine) : result unit :=
  throw_if ((epochFloor s + 1 <? allocationEpoch) || (allocationEpoch + RETENTION_HORIZON_EPOCHS <=? epochFloor s)) BAD_SLOT.

(** [#spendReplay] of an entry that is there *)
Definition spendReplay (e : spend) (input : put_input) (s : engine) : result (option view) :=
  throw_if (negb (bytes_eqb (e_requestCommitment e) (p_requestCommitment input))) SPEND_REPLAY ;;!
  throw_if (negb (bytes_eqb (e_requestFingerprint e) (p_fingerprint input))) CONFLICT ;;!
  if bool_decide (e_status e = Committed) then
    let slot := match e_detail e with Ingress i => Some (i_storageSlot i) | Renewal r => Some (r_storageSlot r) | Pin _ => None end in
    throw_if (negb (publiclyVisible (slot ≫= fun slot => get_cell slot s) (epochFloor s))) RETRY_TERMINAL ;;!
    Ok (Some (resultView e "stored" true))
  else
    throw_if (bool_decide (e_status e = Terminal)) RETRY_TERMINAL ;;!
    Ok None.

(** [#terminalReservation] *)
Definition terminalReservation {R} (e : spend) (i : ingress) (reason : Z) (s : engine) : section R :=
  append PUT_TERMINAL (e_transactionId e) (cell_bucket (i_storageSlot i)) (VObj [("version", VNum 1); ("spendTag", VBytes (e_spendTag e));
    ("requestCommitment", VBytes (e_requestCommitment e)); ("requestFingerprint", VBytes (e_requestFingerprint e)); ("terminalReason", VNum reason);
    ("terminalEpoch", VNum (epochFloor s))]).

(** Replies of the steps of a put: a result, an entry to go on with, or the
    error that follows once the reservation has been ended. *)
Inductive put_reply := Stored (v : view) | GoesOn | Ended.

Definition TypeErrorM {S A} : M S A := throw TypeError.

(** [now > entry.deadlineUnixMillis ? RESERVATION_EXPIRED : ATTEMPTS_EXHAUSTED], when either is the case *)
Definition exhausted (now : Z) (r : reservation) : option Z :=
  if deadlineUnixMillis r <? now then Some RESERVATION_EXPIRED
  else if remainingAttempts r =? 0 then Some ATTEMPTS_EXHAUSTED else None.

(** [#reservePut] under the locks; [aborted] is what [assertPutLive] looks at. *)
Definition reservePut (input : put_input) (now : val) (transactionId : bytes) (aborted : bool) : section put_reply :=
  let* s := gets (fun s => s) in
  match get_spend (p_spendTag input) s with
  | Some e =>
      let* replay := lift (spendReplay e input s) in
      match replay with
      | Some v => replies (Stored v)
      | None =>
          let* now := lift (u64 now) in
          match e_detail e with
          | Ingress i =>
              match i_reservation i ≫= exhausted now with Some reason => terminalReservation e i reason s | None => replies GoesOn end
          | _ => replies GoesOn
          end
      end
  | None =>
      match get_commitment (p_requestCommitment input) s with
      | Some (_, fingerprint) => throw (if bytes_eqb fingerprint (p_fingerprint input) then SPEND_REPLAY else CONFLICT)
      | None =>
          throwM_if (has (get_cell (p_storageSlot input) s)) CONFLICT ;;*
          lift (checkCreateQuota (size_bytes (p_sizeClass input)) (p_profileId input) 0 s) ;;*
          let* nowMillis := lift (u64 now) in
          throwM_if (MAX_U64 - reservationMillis c <? nowMillis) BUSY ;;*
          throwM_if aborted INTERNAL ;;*
          append INGRESS_RESERVED transactionId (cell_bucket (p_storageSlot input)) (VObj [("version", VNum 1);
            ("spendTag", VBytes (p_spendTag input)); ("requestCommitment", VBytes (p_requestCommitment input));
            ("requestFingerprint", VBytes (p_fingerprint input)); ("storageSlot", VBytes (p_storageSlot input));
            ("allocationEpoch", VNum (p_allocationEpoch input)); ("sizeClass", VNum (p_sizeClass input)); ("leaseClass", VNum (p_leaseClass input));
            ("declaredBlobHash", VBytes (p_declaredBlobHash input)); ("createPublicKey", VBytes (p_createPublicKey input));
            ("renewPublicKey", VBytes (p_renewPublicKey input)); ("dropPublicKey", VBytes (p_dropPublicKey input));
            ("allocationCommitment", VBytes (p_allocationCommitment input)); ("profileId", VNum (p_profileId input));
            ("preparedAdmissionBytes", VBytes (p_preparedAdmissionBytes input)); ("resultBindingBytes", val_of (p_resultBindingBytes input));
            ("declaredBytes", VNum (size_bytes (p_sizeClass input))); ("deadlineUnixMillis", VBig (nowMillis + reservationMillis c));
            ("remainingAttempts", VNum 2); ("reservedEpoch", VNum (epochFloor s))])
      end
  end.

(** [entry.inFlight = flag], on the entry of a spend *)
Definition set_inFlight (spendTag : bytes) (flag : bool) (s : engine) : engine :=
  match get_spend spendTag s with
  | Some e =>
      match e_detail e with
      | Ingress i =>
          match i_reservation i with
          | Some r => put_spend spendTag (with_status (e_status e) (e_terminalEpoch e) (Ingress (with_reservation (Some (fly flag r)) i)) e) s
          | None => s
          end
      | _ => s
      end
  | None => s
  end.

(** [#consumeAttempt] under the locks; when the record has been applied the
    entry is in flight. *)
Definition consumeAttempt (input : put_input) (now : val) (aborted : bool) : section put_reply :=
  let* s := gets (fun s => s) in
  match get_spend (p_spendTag input) s with
  | None => throw INTERNAL
  | Some e =>
      let* replay := lift (spendReplay e input s) in
      match replay, e_detail e with
      | Some v, _ => replies (Stored v)
      | None, Ingress i =>
          match i_reservation i with
          | Some r =>
              throwM_if (inFlight r) BUSY ;;*
              let* now := lift (u64 now) in
              match exhausted now r with
              | Some reason => terminalReservation e i reason s
              | None =>
                  throwM_if aborted INTERNAL ;;*
                  append ATTEMPT_CONSUMED (e_transactionId e) (cell_bucket (i_storageSlot i)) (VObj [("version", VNum 1);
                    ("spendTag", VBytes (e_spendTag e)); ("requestCommitment", VBytes (e_requestCommitment e));
                    ("remainingAttempts", VNum (remainingAttempts r - 1))])
              end
          | None => TypeErrorM
          end
      | None, _ => TypeErrorM
      end
  end.

(** The end of [#putCell], when the body has been staged: up to the publication
    of the object. [same] is [current === entry]. What goes on is the entry, its
    put, the end of the lease and the identity of the result. *)
Definition publishPut (input : put_input) (same aborted : bool) : M engine (put_reply + spend * ingress * Z * bytes) :=
  (if aborted then modify (set_inFlight (p_spendTag input) false) ;;* throw INTERNAL else ret tt) ;;*
  let* s := gets (fun s => s) in
  match get_spend (p_spendTag input) s with
  | None => throw INTERNAL
  | Some e =>
      let* replay := lift (spendReplay e input s) in
      match replay, e_detail e with
      | Some v, _ => ret (inl (Stored v))
      | None, Ingress i =>
          if negb same || has (get_cell (i_storageSlot i) s) then modify (set_inFlight (p_spendTag input) false) ;;* throw BUSY
          else
            let* leaseEpoch := lift (leaseEpochFor (i_leaseClass i) s) in
            let identity := resultIdentity "stored" (i_storageSlot i) (e_requestCommitment e) (i_declaredBlobHash i) (i_leaseClass i) leaseEpoch 0 in
            ret (inr (e, i, leaseEpoch, identity))
      | None, _ => TypeErrorM
      end
  end.

(** and what follows when the object has been published under [objectId]. The
    epoch is read again here. *)
Definition commitPut (e : spend) (i : ingress) (leaseEpoch : Z) (identity objectId : bytes) : section put_reply :=
  let* s := gets (fun s => s) in
  append PUT_COMMITTED (e_transactionId e) (cell_bucket (i_storageSlot i)) (VObj [("version", VNum 1); ("spendTag", VBytes (e_spendTag e));
    ("requestCommitment", VBytes (e_requestCommitment e)); ("requestFingerprint", VBytes (e_requestFingerprint e));
    ("storageSlot", VBytes (i_storageSlot i)); ("blobObjectId", VBytes objectId); ("leaseEpoch", VNum leaseEpoch);
    ("stateRevision", VBig 0); ("policyRevision", VBig 0); ("resultBindingBytes", val_of (i_resultBindingBytes i));
    ("resultIdentity", VBytes identity); ("committedEpoch", VNum (epochFloor s))]).

(** What [#putCell] does under the locks when the body could not be staged, with
    [error.terminal] and whether its deadline had passed. *)
Definition failPut (spendTag : bytes) (terminal expired : bool) : section put_reply :=
  modify (set_inFlight spendTag false) ;;*
  let* s := gets (fun s => s) in
  match get_spend spendTag s with
  | Some e =>
      match e_detail e with
      | Ingress i =>
          match i_reservation i with
          | Some r =>
              if (terminal || (remainingAttempts r =? 0)) && bool_decide (e_status e = Reserved)
              then terminalReservation e i (if expired then RESERVATION_EXPIRED else if terminal then INVALID_BODY else ATTEMPTS_EXHAUSTED) s
              else replies (if terminal || (remainingAttempts r =? 0) then Ended else GoesOn)
          | None => TypeErrorM
          end
      | _ => TypeErrorM
      end
  | None => TypeErrorM
  end.

(** The step of [#sweepReservationBatch] on one entry, under its locks. *)
Definition sweepReservation (spendTag : bytes) (now : val) : section unit :=
  let* s := gets (fun s => s) in
  match get_spend spendTag s with
  | Some e =>
      match e_status e, e_detail e with
      | Reserved, Ingress i =>
          match i_reservation i with
          | Some r =>
              if inFlight r then replies tt else
              let* currentNow := lift (u64 now) in
              match exhausted currentNow r with Some reason => terminalReservation e i reason s | None => replies tt end
          | None => TypeErrorM
          end
      | _, _ => replies tt
      end
  | None => replies tt
  end.

(** ** Renewals *)

Record renew_input := {
  w_storageSlot : bytes;
  w_expectedRevision : Z;
  w_expectedLeaseEpoch : Z;
  w_leaseClass : Z;
  w_commitment : bytes;
  w_spendTag : bytes;
  w_profileId : Z;
  w_fingerprint : bytes;
  w_preparedAdmissionBytes : bytes;
  w_resultBindingBytes : option bytes;
  w_signature : val
}.

(** The argument of [cellManageRequestCommitment] in renewals and drops. *)
Definition manage_of (operation : string) (storageSlot : bytes) (expectedRevision expectedLeaseEpoch requestedLeaseClass : Z) (clientNonce : bytes) : val :=
  VObj [("operation", VStr operation); ("relayPublicKey", VBytes (relayPublicKey c)); ("storageSlot", VBytes storageSlot);
    ("expectedRevision", VBig expectedRevision); ("expectedLeaseEpoch", VNum expectedLeaseEpoch);
    ("requestedLeaseClass", VNum requestedLeaseClass); ("clientNonce", VBytes clientNonce)].

(** [#renewCell] before the locks, of [{ request, preparedAdmission, resultBinding }] *)
Definition renewInput (request admission resultBinding : val) : result renew_input :=
  fail_if (falsy request || falsy admission) ;;!
  let! binding := resultBindingBytes c resultBinding in
  let! storageSlot := fixed request.["storageSlot"] 32 true in
  let! expectedRevision := u64 request.["expectedRevision"] in
  let! expectedLeaseEpoch := integer request.["expectedLeaseEpoch"] 0 0xffffffff in
  let! leaseClass := integer request.["leaseClass"] 1 4 in
  let! clientNonce := fixed request.["clientNonce"] 32 false in
  let! commitment := Hash.commitment (Hash.cellManagePreimage (manage_of "cell-renew" storageSlot expectedRevision expectedLeaseEpoch leaseClass clientNonce)) in
  let! (prepared, canonicalBytes) := preparedAdmission admission in
  let spendTag := raw prepared.["spendTag"] in
  throw_if (negb (bytes_eqb commitment (raw prepared.["requestCommitment"]))) SPEND_INVALID ;;!
  let profileId := num prepared.["profileId"] in
  let fingerprint := requestFingerprint [spendTag; commitment; storageSlot; u64bytes expectedRevision; u32bytes expectedLeaseEpoch;
    [z2b leaseClass]; u32bytes profileId; Hash.blake2b256 canonicalBytes] in
  Ok {| w_storageSlot := storageSlot; w_expectedRevision := expectedRevision; w_expectedLeaseEpoch := expectedLeaseEpoch; w_leaseClass := leaseClass;
        w_commitment := commitment; w_spendTag := spendTag; w_profileId := profileId; w_fingerprint := fingerprint;
        w_preparedAdmissionBytes := canonicalBytes; w_resultBindingBytes := binding; w_signature := request.["signature"] |}.

(** [#managementRecord] *)
Definition managementRecord (storageSlot : bytes) (s : engine) : result cell :=
  match get_cell storageSlot s with Some r => Ok r | None => Err NOT_FOUND end.

(** [#renewCell] under the locks *)
Definition renewCell (input : renew_input) (transactionId : bytes) : section view :=
  let* s := gets (fun s => s) in
  let* record := lift (managementRecord (w_storageSlot input) s) in
  let* verified := lift (verifyEd25519 (c_renewPublicKey record) (w_commitment input) (w_signature input)) in
  throwM_if (negb verified) BAD_MANAGEMENT_SIG ;;*
  match get_spend (w_spendTag input) s with
  | Some existing =>
      throwM_if (negb (bytes_eqb (e_requestCommitment existing) (w_commitment input))) SPEND_REPLAY ;;*
      throwM_if (negb (bytes_eqb (e_requestFingerprint existing) (w_fingerprint input))) CONFLICT ;;*
      throwM_if (bool_decide (e_status existing <> Committed) || negb (bool_decide (e_operation existing = Some OPERATION_RENEW))) RETRY_TERMINAL ;;*
      throwM_if (negb (publiclyVisible (get_cell (w_storageSlot input) s) (epochFloor s))) RETRY_TERMINAL ;;*
      replies (resultView existing "renewed" true)
  | None =>
      match get_commitment (w_commitment input) s with
      | Some (_, fingerprint) => throw (if bytes_eqb fingerprint (w_fingerprint input) then SPEND_REPLAY else CONFLICT)
      | None =>
          throwM_if (bool_decide (c_objectState record <> Present) || (c_leaseEpoch record + EXPIRY_GRACE_EPOCHS <? epochFloor s)) NOT_FOUND ;;*
          throwM_if (negb (c_stateRevision record =? w_expectedRevision input) || negb (c_leaseEpoch record =? w_expectedLeaseEpoch input)) STALE_REVISION ;;*
          let targetLeaseEpoch := Z.max (c_leaseEpoch record) (epochFloor s + lease_epochs (w_leaseClass input)) in
          let* _ := lift (leaseEpochFor (w_leaseClass input) s) in
          throwM_if (targetLeaseEpoch =? c_leaseEpoch record) RENEW_NOT_DUE ;;*
          throwM_if (maxControlBytes c <? controlBytes (books s) + CONTROL_RECORD_BYTES) BUSY ;;*
          throwM_if (c_stateRevision record =? MAX_U64) BUSY ;;*
          let newRevision := c_stateRevision record + 1 in
          append RENEW_COMMITTED transactionId (cell_bucket (w_storageSlot input)) (VObj [("version", VNum 1); ("spendTag", VBytes (w_spendTag input));
            ("requestCommitment", VBytes (w_commitment input)); ("requestFingerprint", VBytes (w_fingerprint input));
            ("storageSlot", VBytes (w_storageSlot input)); ("profileId", VNum (w_profileId input)); ("oldStateRevision", VBig (c_stateRevision record));
            ("newStateRevision", VBig newRevision); ("oldLeaseEpoch", VNum (c_leaseEpoch record)); ("newLeaseEpoch", VNum targetLeaseEpoch);
            ("leaseClass", VNum (w_leaseClass input)); ("preparedAdmissionBytes", VBytes (w_preparedAdmissionBytes input));
            ("resultBindingBytes", val_of (w_resultBindingBytes input));
            ("resultIdentity", VBytes (resultIdentity "renewed" (w_storageSlot input) (w_commitment input) (c_cellBlobHash record) (w_leaseClass input)
              targetLeaseEpoch newRevision));
            ("committedEpoch", VNum (epochFloor s))])
      end
  end.

(** ** Drops *)

Record drop_input := {
  x_storageSlot : bytes;
  x_expectedRevision : Z;
  x_expectedLeaseEpoch : Z;
  x_commitment : bytes;
  x_fingerprint : bytes;
  x_resultBindingBytes : option bytes;
  x_signature : val
}.

(** [#dropCell] before the lock; the binding comes beside the request, or there
    is none. *)
Definition dropInput (request : val) : result drop_input :=
  fail_if (negb (is_object request)) ;;!
  let resultBinding := if nullish request.["request"] then VNull else request.["resultBinding"] in
  let request := if nullish request.["request"] then request else request.["request"] in
  let! binding := resultBindingBytes c resultBinding in
  let! storageSlot := fixed request.["storageSlot"] 32 true in
  let! expectedRevision := u64 request.["expectedRevision"] in
  let! expectedLeaseEpoch := integer request.["expectedLeaseEpoch"] 0 0xffffffff in
  let! clientNonce := fixed request.["clientNonce"] 32 false in
  let! commitment := Hash.commitment (Hash.cellManagePreimage (manage_of "cell-drop" storageSlot expectedRevision expectedLeaseEpoch 0 clientNonce)) in
  let fingerprint := requestFingerprint [commitment; storageSlot; u64bytes expectedRevision; u32bytes expectedLeaseEpoch] in
  Ok {| x_storageSlot := storageSlot; x_expectedRevision := expectedRevision; x_expectedLeaseEpoch := expectedLeaseEpoch; x_commitment := commitment;
        x_fingerprint := fingerprint; x_resultBindingBytes := binding; x_signature := request.["signature"] |}.

(** [#dropCell] under the lock *)
Definition dropCell (input : drop_input) (transactionId : bytes) : section view :=
  let* s := gets (fun s => s) in
  let* record := lift (managementRecord (x_storageSlot input) s) in
  let* verified := lift (verifyEd25519 (c_dropPublicKey record) (x_commitment input) (x_signature input)) in
  throwM_if (negb verified) BAD_MANAGEMENT_SIG ;;*
  match get_result (x_commitment input) s with
  | Some existing =>
      throwM_if (negb (bytes_eqb (d_requestFingerprint existing) (x_fingerprint input))) CONFLICT ;;*
      replies (dropView existing true)
  | None =>
      throwM_if (bool_decide (c_objectState record <> Present)) NOT_FOUND ;;*
      throwM_if (negb (c_stateRevision record =? x_expectedRevision input) || negb (c_leaseEpoch record =? x_expectedLeaseEpoch input)) STALE_REVISION ;;*
      throwM_if (c_stateRevision record =? MAX_U64) BUSY ;;*
      let newRevision := c_stateRevision record + 1 in
      append DROP_COMMITTED transactionId (cell_bucket (x_storageSlot input)) (VObj [("version", VNum 1); ("requestCommitment", VBytes (x_commitment input));
        ("requestFingerprint", VBytes (x_fingerprint input)); ("storageSlot", VBytes (x_storageSlot input));
        ("oldStateRevision", VBig (c_stateRevision record)); ("newStateRevision", VBig newRevision); ("oldLeaseEpoch", VNum (c_leaseEpoch record));
        ("resultBindingBytes", val_of (x_resultBindingBytes input));
        ("resultIdentity", VBytes (resultIdentity "dropped" (x_storageSlot input) (x_commitment input) (c_cellBlobHash record) 0 (c_leaseEpoch record) newRevision));
        ("committedEpoch", VNum (epochFloor s))])
  end.

(** ** Policy, collection and compaction *)

(** [#setPolicy] before the lock and under it *)
Definition setPolicy_input (storageSlot expectedPolicyRevision suppress : val) (s : engine) : result (bytes * Z * bool) :=
  assertWritable false s ;;!
  let! storageSlot := fixed storageSlot 32 true in
  let! expectedPolicyRevision := u64 expectedPolicyRevision in
  match suppress with VBool suppress => Ok (storageSlot, expectedPolicyRevision, suppress) | _ => Err BAD_ENCODING end.

Definition setPolicy (storageSlot : bytes) (expectedPolicyRevision : Z) (suppress : bool) (transactionId : bytes) : section public_cell :=
  let* s := gets (fun s => s) in
  let* record := lift (managementRecord storageSlot s) in
  throwM_if (bool_decide (c_objectState record <> Present)) NOT_FOUND ;;*
  throwM_if (negb (c_policyRevision record =? expectedPolicyRevision)) STALE_REVISION ;;*
  let policyState := if suppress then Suppressed else Visible in
  throwM_if (bool_decide (c_policyState record = policyState)) CONFLICT ;;*
  throwM_if (c_policyRevision record =? MAX_U64) BUSY ;;*
  append POLICY_COMMITTED transactionId (cell_bucket storageSlot) (VObj [("version", VNum 1); ("storageSlot", VBytes storageSlot);
    ("oldPolicyRevision", VBig (c_policyRevision record)); ("newPolicyRevision", VBig (c_policyRevision record + 1));
    ("policyState", VNum (policy_code policyState)); ("committedEpoch", VNum (epochFloor s))]).

(** The cells that [#gc] stops at while it goes over them. *)
Definition gc_due (record : cell) (s : engine) : bool :=
  negb (bool_decide (c_objectState record <> Present) || (epochFloor s <=? c_leaseEpoch record + EXPIRY_GRACE_EPOCHS)).

(** The step of [#gc] on one cell, under its lock; [same] is [record === candidate]. *)
Definition gc (storageSlot : bytes) (same : bool) (transactionId : bytes) : section unit :=
  let* s := gets (fun s => s) in
  match get_cell storageSlot s with
  | None => replies tt
  | Some record =>
      if negb same || bool_decide (c_objectState record <> Present) || (epochFloor s <=? c_leaseEpoch record + EXPIRY_GRACE_EPOCHS) then replies tt
      else if c_stateRevision record =? MAX_U64
      then modify (set_readOnly (Some "STATE_REVISION_EXHAUSTED") (integrityEvidence s)) ;;* replies tt
      else append GC_COMMITTED transactionId (cell_bucket (c_storageSlot record)) (VObj [("version", VNum 1); ("storageSlot", VBytes (c_storageSlot record));
        ("oldStateRevision", VBig (c_stateRevision record)); ("newStateRevision", VBig (c_stateRevision record + 1));
        ("expectedLeaseEpoch", VNum (c_leaseEpoch record)); ("tombstoneEpoch", VNum (epochFloor s))])
  end.

(** The candidates of [#compact], of each map in turn, [limit] of them. *)
Definition compact_candidates (limit : nat) (s : engine) : list (Z * bytes) :=
  let now := epochFloor s in
  take limit (
    map (fun e => (COMPACT_KIND_CELL, fst e))
      (List.filter (fun e => bool_decide (c_objectState (snd e) = Tombstone) && retired now (c_terminalEpoch (snd e))) (cells s)) ++
    map (fun e => (COMPACT_KIND_SPEND, fst e)) (List.filter (fun e => retired now (ageEpoch (snd e))) (spends s)) ++
    map (fun e => (COMPACT_KIND_REQUEST_RESULT, fst e)) (List.filter (fun e => retired now (Some (d_committedEpoch (snd e)))) (requestResults s))).

(** The step of [#compact] on one candidate; it takes no lock. *)
Definition compact (candidate : Z * bytes) (transactionId : bytes) : section unit :=
  let* s := gets (fun s => s) in
  append COMPACT transactionId 0 (VObj [("version", VNum 1); ("entryKind", VNum (fst candidate)); ("key", VBytes (snd candidate));
    ("compactedEpoch", VNum (epochFloor s))]).

(** ** Charged reads *)

Record read_input := {
  g_operationId : Z;
  g_slots : list bytes;
  g_requestCommitment : bytes;
  g_spendTag : bytes;
  g_preparedAdmissionBytes : bytes;
  g_resultBindingBytes : bytes;
  g_fingerprint : bytes
}.

Fixpoint fixed_slots (slots : list val) : result (list bytes) :=
  match slots with
  | [] => Ok []
  | slot :: rest => let! slot := fixed slot 32 true in let! rest := fixed_slots rest in Ok (slot :: rest)
  end.

(** [new Set(slots.map(hex)).size === slots.length] *)
Fixpoint distinct_slots (slots : list bytes) : bool :=
  match slots with [] => true | slot :: rest => negb (existsb (bytes_eqb slot) rest) && distinct_slots rest end.

(** [#chargedReadInput] of [{ operationId, request, requestCommitment, preparedAdmission, resultBinding }] *)
Definition chargedReadInput (operationId : Z) (request requestCommitment admission resultBinding : val) : result read_input :=
  fail_if ((negb (operationId =? OPERATION_CELL_GET) && negb (operationId =? OPERATION_CELL_PROVE) && negb (operationId =? OPERATION_CELL_BATCH_GET)) ||
           falsy request || falsy admission) ;;!
  let storageSlots := if operationId =? OPERATION_CELL_BATCH_GET then request.["slots"] else VList [request.["storageSlot"]] in
  let! storageSlots := match storageSlots with VList slots => Ok slots | _ => Err BAD_ENCODING end in
  fail_if ((Z.of_nat (List.length storageSlots) <? 1) || (64 <? Z.of_nat (List.length storageSlots))) ;;!
  let! slots := fixed_slots storageSlots in
  fail_if (negb (distinct_slots slots)) ;;!
  let! requestCommitment := fixed requestCommitment 32 true in
  let! (prepared, canonicalBytes) := preparedAdmission admission in
  throw_if (negb (bytes_eqb (raw prepared.["requestCommitment"]) requestCommitment)) SPEND_INVALID ;;!
  let! binding := resultBindingBytes c resultBinding in
  let! binding := match binding with Some binding => Ok binding | None => Err BAD_ENCODING end in
  let spendTag := raw prepared.["spendTag"] in
  Ok {| g_operationId := operationId; g_slots := slots; g_requestCommitment := requestCommitment; g_spendTag := spendTag;
        g_preparedAdmissionBytes := canonicalBytes; g_resultBindingBytes := binding;
        g_fingerprint := read_fingerprint operationId spendTag requestCommitment canonicalBytes |}.

(** [#newChargedReadPin] *)
Definition newChargedReadPin (authority : read_input) (now : val) (s : engine) : result val :=
  let entries := map (fun storageSlot => chargedReadPinEntry storageSlot (get_cell storageSlot s) (epochFloor s)) (g_slots authority) in
  throw_if (negb (g_operationId authority =? OPERATION_CELL_BATCH_GET) && match entries with first :: _ => negb (n_present first =? 1) | [] => true end) NOT_FOUND ;;!
  let! prepared := decodeCanonical blindPreparedAdmissionStoreV1 (VBytes (g_preparedAdmissionBytes authority)) in
  verifyChargedReadCost (g_operationId authority) prepared entries (g_resultBindingBytes authority) ;;!
  let! now := u64 now in
  throw_if (MAX_U64 - MAX_RESERVATION_MILLIS <? now) BUSY ;;!
  Ok (VObj [("version", VNum 1); ("operationId", VNum (g_operationId authority)); ("spendTag", VBytes (g_spendTag authority));
    ("requestCommitment", VBytes (g_requestCommitment authority)); ("requestFingerprint", VBytes (g_fingerprint authority));
    ("preparedAdmissionBytes", VBytes (g_preparedAdmissionBytes authority)); ("resultBindingBytes", VBytes (g_resultBindingBytes authority));
    ("receiptEpoch", VNum (epochFloor s)); ("retryExpiresUnixMillis", VBig (now + MAX_RESERVATION_MILLIS)); ("entries", VList (map pinned_val entries));
    ("committedEpoch", VNum (epochFloor s))]).

(** [#checkChargedReadControlCapacity] *)
Definition checkChargedReadControlCapacity (value : val) (s : engine) : result Z :=
  let! payload := encodeCanonical chargedReadPinCommittedV1 value in
  let payloadBytes := blen payload in
  throw_if ((MAX_CHARGED_READ_PIN_CONTROL_BYTES <? payloadBytes) ||
    (maxControlBytes c <? controlBytes (books s) + (payloadBytes + CHARGED_READ_FINALIZATION_CONTROL_BYTES))) BUSY ;;!
  Ok payloadBytes.

(** The beginning of [#materializeChargedRead], up to the reading of the bodies:
    the pin and its entries. *)
Definition materializeChargedRead (entry : option spend) (now : val) : result (spend * list pinned) :=
  match entry with
  | Some e =>
      match e_detail e, bool_decide (e_status e = ReadPinned) || bool_decide (e_status e = ReadFinalized) with
      | Pin p, true =>
          let! now := u64 now in
          throw_if (p_retryExpiresUnixMillis p <=? now) RETRY_TERMINAL ;;!
          match p_entries p with Some entries => Ok (e, entries) | None => Err TypeError end
      | _, _ => Err RETRY_TERMINAL
      end
  | None => Err RETRY_TERMINAL
  end.

(** [#chargedCellRead] under the locks *)
Definition chargedCellRead (authority : read_input) (now : val) (transactionId : bytes) : section (spend * list pinned) :=
  let* s := gets (fun s => s) in
  match get_spend (g_spendTag authority) s with
  | Some e =>
      throwM_if (negb (bytes_eqb (e_requestCommitment e) (g_requestCommitment authority))) SPEND_REPLAY ;;*
      throwM_if (negb (bytes_eqb (e_requestFingerprint e) (g_fingerprint authority)) ||
                 negb (bool_decide (e_operation e = Some (g_operationId authority)))) CONFLICT ;;*
      let* reply := lift (materializeChargedRead (Some e) now) in
      replies reply
  | None =>
      match get_commitment (g_requestCommitment authority) s with
      | Some (_, fingerprint) => throw (if bytes_eqb fingerprint (g_fingerprint authority) then SPEND_REPLAY else CONFLICT)
      | None =>
          let* value := lift (newChargedReadPin authority now s) in
          let* _ := lift (checkChargedReadControlCapacity value s) in
          append READ_PIN_COMMITTED transactionId 0 value
      end
  end.

(** [finalizeChargedCellRead] under the locks; [pinnedSlots] are those of the
    entry that was there before the locks. *)
Definition finalizeChargedCellRead (spendTag requestCommitment resultCommitment : bytes) (pinnedSlots : list bytes) (now : val) : section (bool * bytes) :=
  let* s := gets (fun s => s) in
  match get_spend spendTag s with
  | None => throw RETRY_TERMINAL
  | Some e =>
      match e_detail e with
      | Pin p =>
          throwM_if (negb (bool_decide (e_status e = ReadPinned) || bool_decide (e_status e = ReadFinalized)) ||
                     negb (bytes_eqb (e_requestCommitment e) requestCommitment)) RETRY_TERMINAL ;;*
          let* entries := lift (match p_entries p with Some entries => Ok entries | None => Err RETRY_TERMINAL end) in
          throwM_if (negb (Nat.eqb (List.length entries) (List.length pinnedSlots)) ||
                     existsb (fun '(a, b) => negb (bytes_eqb (n_storageSlot a) b)) (combine entries pinnedSlots)) RETRY_TERMINAL ;;*
          if bool_decide (e_status e = ReadFinalized) then
            throwM_if (negb (same_option (p_resultCommitment p) (Some resultCommitment))) INTERNAL ;;*
            let* matching := lift (chargedReadSourcesMatch entries false s) in
            throwM_if (negb matching) NOT_FOUND ;;*
            replies (true, resultCommitment)
          else
            let* now := lift (u64 now) in
            throwM_if (p_retryExpiresUnixMillis p <=? now) RETRY_TERMINAL ;;*
            let* matching := lift (chargedReadSourcesMatch entries true s) in
            throwM_if (negb matching) NOT_FOUND ;;*
            append READ_PIN_FINALIZED (e_transactionId e) 0 (VObj [("version", VNum 1); ("spendTag", VBytes spendTag);
              ("requestCommitment", VBytes requestCommitment); ("resultCommitment", VBytes resultCommitment); ("finalizedEpoch", VNum (epochFloor s))])
      | _ => throw RETRY_TERMINAL
      end
  end.

(** [#sweepExpiredChargedReadPins]: the next pin that is due, taken from the queue *)
Definition next_due (now : Z) (s : engine) : option Expiry.expiry * engine :=
  match chargedReadExpiryHeap s with
  | first :: _ =>
      if Expiry.retryExpiresUnixMillis first <=? now
      then let '(candidate, heap) := Expiry.popExpiry (chargedReadExpiryHeap s) in (candidate, set_heap heap s)
      else (None, s)
  | [] => (None, s)
  end.

(** and what is done with it under its lock. *)
Definition expirePin (candidate : Expiry.expiry) (now : Z) : section unit :=
  let* s := gets (fun s => s) in
  match get_spend (Expiry.spendKey candidate) s with
  | Some e =>
      match e_detail e with
      | Pin p =>
          if negb (bool_decide (e_status e = ReadPinned) || bool_decide (e_status e = ReadFinalized)) ||
             negb (bytes_eqb (e_transactionId e) (Expiry.transactionId candidate)) ||
             negb (p_retryExpiresUnixMillis p =? Expiry.retryExpiresUnixMillis candidate) || (now <? p_retryExpiresUnixMillis p)
          then replies tt
          else append READ_PIN_EXPIRED (e_transactionId e) 0 (VObj [("version", VNum 1); ("spendTag", VBytes (e_spendTag e));
            ("requestCommitment", VBytes (e_requestCommitment e)); ("retryExpiresUnixMillis", VBig (p_retryExpiresUnixMillis p));
            ("observedUnixMillis", VBig now); ("terminalEpoch", VNum (epochFloor s))])
      | _ => replies tt
      end
  | None => replies tt
  end.

(** ** Questions about the state *)

Inductive disposition := Fresh | Conflict | TerminalSpend | Replay | Resumable.

(** [preparedCellOperationState] under the lock *)
Definition preparedCellOperationState (operationId : Z) (spendTag requestCommitment : bytes) (s : engine) : disposition :=
  match get_spend spendTag s with
  | None => Fresh
  | Some e =>
      if negb (bytes_eqb (e_requestCommitment e) requestCommitment) then Conflict
      else if bool_decide (e_status e = Terminal) then TerminalSpend
      else if negb (bool_decide (e_operation e = if operationId =? OPERATION_CELL_PUT then None else Some OPERATION_RENEW)) then Conflict
      else if bool_decide (e_status e = Committed) then Replay else Resumable
  end.

(** [chargedCellReadState] under the lock *)
Definition chargedCellReadState (authority : read_input) (now : val) (s : engine) : result disposition :=
  match get_spend (g_spendTag authority) s with
  | None => Ok Fresh
  | Some e =>
      throw_if (negb (bytes_eqb (e_requestCommitment e) (g_requestCommitment authority))) SPEND_REPLAY ;;!
      throw_if (negb (bytes_eqb (e_requestFingerprint e) (g_fingerprint authority)) ||
                negb (bool_decide (e_operation e = Some (g_operationId authority)))) CONFLICT ;;!
      match e_status e, e_detail e with
      | ReadFinalized, Pin p => let! now := u64 now in throw_if (p_retryExpiresUnixMillis p <=? now) RETRY_TERMINAL ;;! Ok Replay
      | ReadPinned, Pin p => let! now := u64 now in throw_if (p_retryExpiresUnixMillis p <=? now) RETRY_TERMINAL ;;! Ok Resumable
      | _, _ => Err RETRY_TERMINAL
      end
  end.

(** [cellRequestResultState] under the lock *)
Definition cellRequestResultState (requestCommitment : bytes) (s : engine) : disposition :=
  if has (get_result requestCommitment s) then Replay else Fresh.

(** [verifyCellManagementCapability] under the lock *)
Definition verifyCellManagementCapability (operationId : Z) (storageSlot requestCommitment : bytes) (signature : val) (s : engine) : result bool :=
  let! record := managementRecord storageSlot s in
  verifyEd25519 (if operationId =? OPERATION_CELL_RENEW then c_renewPublicKey record else c_dropPublicKey record) requestCommitment signature.

(** [#liveReferenceKeys]: the objects of the cells that are there *)
Definition liveReferences (s : engine) : list (Z * bytes) :=
  map (fun e => c_blob (snd e)) (List.filter (fun e => bool_decide (c_objectState (snd e) = Present)) (cells s)).

Definition spendRetentionWalFloorSequence (s : engine) : Z :=
  fold_left (fun floor e => if e_reservedWalSequence (snd e) <? floor then e_reservedWalSequence (snd e) else floor) (spends s) MAX_U64.

(** ** Integrity *)

(** [#repairFailure], with the code of the reason *)
Record failure := { f_locatorCommitment : bytes; f_virtualBucket : Z; f_expectedLength : Z; f_expectedHash : bytes; f_reason : Z }.
Definition repairFailure (record : cell) (reason : Z) : failure := {|
  f_locatorCommitment := hashParts "hiverelay.blind.repair-locator-commitment.v1" [c_storageSlot record]; f_virtualBucket := fst (c_blob record);
  f_expectedLength := size_bytes (c_sizeClass record); f_expectedHash := c_cellBlobHash record; f_reason := reason |}.

(** [#evidenceHash] *)
Definition evidenceHash (failures : list failure) : bytes :=
  hashParts "hiverelay.blind.repair-evidence.v1" (List.concat (map (fun f =>
    [f_locatorCommitment f; u32bytes (f_virtualBucket f); u32bytes (f_expectedLength f); f_expectedHash f; [z2b (f_reason f)]]) failures)).

(** [#recordIntegrityFailures] of one failure or more *)
Definition recordIntegrityFailures (failures : list failure) (transactionId : bytes) : section unit :=
  let* s := gets (fun s => s) in
  let evidence := evidenceHash failures in
  if bool_decide (readOnlyReason s = Some "RECOVERY_GAP_READ_ONLY") && existsb (fun item => bytes_eqb (snd item) evidence) (integrityEvidence s)
  then replies tt
  else
    modify (set_readOnly (Some "RECOVERY_GAP_READ_ONLY") (integrityEvidence s)) ;;*
    match failures with
    | first :: _ => append INTEGRITY_FAILED transactionId 0 (VObj [("version", VNum 1); ("reason", VNum (f_reason first)); ("detectedEpoch", VNum (epochFloor s));
        ("evidenceHash", VBytes evidence)])
    | [] => TypeErrorM
    end.

End WithPlatform.
End CellOps.
