(* ===== verification/CellProposals.v ===== *)
(** * The cell store: what an operation appends can be applied

    An operation decides under its locks what to append, and the record is
    checked again when it is applied. A record that does not apply leaves the
    store unusable, now and whenever it is opened. Here: what each operation
    appends applies to the state it was decided in. *)

From Stdlib Require Import ZArith Lia Bool List String Ascii.
From Stdlib Require Import Strings.Byte.
From stdpp Require Import base tactics list strings.
From S2P Require Import Prelude JsMap Codec CodecLaws Authority Hashes SchemaKit ResultBinding HashLaws Accepted WriteAheadLog CellRecords ExpiryHeap CellStore CellApply CellBooks CellLife CellSpends CellOperations.

Module CellProposals.
Import Binding CellRecord Cells Apply CellBooks CellLife CellSpends CellOps.

(** The frame of the log that holds a proposal. *)
Record frame_for (q : proposal) (f : Wal.frame) : Prop := {
  for_type : Wal.type (Wal.head_of f) = q_type q;
  for_transaction : frame_transaction f = q_transactionId q;
  for_bucket : frame_bucket f = q_virtualBucket q;
  for_payload : Wal.payload f = q_payload q
}.

Lemma append_ok {R} type tx bucket value s (q : proposal) s' : append (R := R) type tx bucket value s = (Ok (inr q), s') ->
  s' = s /\ exists codec payload, codec_of type = Some codec /\ encodeCanonical codec value = Ok payload /\
  q = {| q_type := type; q_transactionId := tx; q_virtualBucket := bucket; q_payload := payload |}.
Proof.
  unfold append. destruct (codec_of type) as [codec|] eqn:Ec; [|done]. intros Hq. run_ok. simplify_eq. split; [done|]. eauto.
Qed.

(** ** Counters *)

(** Far from where numbers are no longer exact. *)
Definition ROOM : Z := MAX_SAFE_INTEGER - 2 ^ 21.
Definition room (s : engine) : Prop :=
  let a := books s in
  assertAccounting s = Ok tt /\ storedBytes a <= ROOM /\ stagingBytes a <= ROOM /\ controlBytes a <= ROOM /\ tombstoneBytes a <= ROOM /\
  reservedCells a <= ROOM /\ Forall (fun e => snd e <= ROOM) (stagingByProfile a).

Lemma size_bytes_range n : 0 <= size_bytes n <= 2 ^ 20.
Proof.
  unfold size_bytes, table_get, CELL_SIZE_CLASS. cbn [List.find is_num strict_eqb fst]. repeat (destruct (_ =? _); [done|]). done.
Qed.

Lemma size_bytes_positive n : 1 <= n <= 5 -> 0 < size_bytes n.
Proof. intros Hn. assert (n = 1 \/ n = 2 \/ n = 3 \/ n = 4 \/ n = 5) as [->|[->|[->|[->| ->]]]] by lia; done. Qed.

Section WithPlatform.
Context `{Platform}.

Lemma spends_nonneg s (g : bytes -> spend -> Z) : sound_maps s -> (forall k e, coherent e -> 0 <= g k e) -> 0 <= sum_of g (spends s).
Proof. intros Hm Hg. apply sum_of_nonneg. intros k e Hin. apply Hg. by eapply (spend_at s Hm k), (in_get _ bytes_eqb_eq); [apply Hm|]. Qed.

Lemma reserves_declared e i : coherent e -> reserves e = Some i -> 0 <= i_declaredBytes i <= 2 ^ 20.
Proof.
  unfold coherent, reserves. intros Hco Hr. destruct (e_status e); try done. destruct (e_detail e); try done. simplify_eq.
  destruct Hco as (_ & _ & -> & _). apply size_bytes_range.
Qed.

Lemma control_positive e : coherent e -> 0 < control_of e.
Proof. unfold coherent, control_of. destruct (e_detail e) as [| |p]; [done..|]. intros [_ Hp]. by destruct (p_controlBytes p =? 0). Qed.

(** The counters of a sound state are not negative. *)
Lemma books_nonneg s : sound s -> 0 <= storedBytes (books s) /\ 0 <= stagingBytes (books s) /\ 0 <= controlBytes (books s) /\
  0 <= tombstoneBytes (books s) /\ 0 <= reservedCells (books s) /\ forall p, 0 <= profile_bytes p (stagingByProfile (books s)).
Proof.
  intros [Hm [B1 B2 B3 B4 B5 B6]]. rewrite B1, B2, B3, B4, B5.
  assert (0 <= sum_of reserved (spends s)) by (apply spends_nonneg; [done|]; intros; unfold reserved; by destruct (reserves e)).
  assert (0 <= sum_of one (cells s)) by (by apply sum_of_nonneg).
  split_and!; [| | |unfold TOMBSTONE_RECORD_BYTES; lia|done|].
  - apply sum_of_nonneg. intros k r _. unfold stored. destruct (c_objectState r); [apply size_bytes_range|done].
  - apply spends_nonneg; [done|]. intros k e He. unfold staged. destruct (reserves e) eqn:Er; [|done]. by eapply reserves_declared.
  - apply spends_nonneg; [done|]. intros k e He. unfold control. pose proof (control_positive e He). lia.
  - intros p. rewrite B6. apply spends_nonneg; [done|]. intros k e He. unfold staged_of. destruct (reserves e) eqn:Er; [|done].
    destruct (_ =? p); [by eapply reserves_declared|done].
Qed.

Lemma valid_count_iff n : valid_count n = true <-> 0 <= n <= MAX_SAFE_INTEGER.
Proof. unfold valid_count, isSafeInteger, MAX_SAFE_INTEGER. rewrite !andb_true_iff, !Z.leb_le. lia. Qed.
Lemma valid_share_iff n : valid_share n = true <-> 0 < n <= MAX_SAFE_INTEGER.
Proof. unfold valid_share, isSafeInteger, MAX_SAFE_INTEGER. rewrite !andb_true_iff, !Z.leb_le, Z.ltb_lt. lia. Qed.

(** What [assertAccounting] asks of a sound state. *)
Lemma accounting_holds s s' : sound s' -> room s -> atomicStaging s' = atomicStaging s ->
  storedBytes (books s') <= MAX_SAFE_INTEGER -> stagingBytes (books s') <= MAX_SAFE_INTEGER -> controlBytes (books s') <= MAX_SAFE_INTEGER ->
  tombstoneBytes (books s') <= MAX_SAFE_INTEGER -> reservedCells (books s') <= MAX_SAFE_INTEGER ->
  Forall (fun e => valid_share (snd e) = true) (stagingByProfile (books s')) -> assertAccounting s' = Ok tt.
Proof.
  intros Hs (Ha & _) Est B1 B2 B3 B4 B5 Hf. pose proof (books_nonneg s' Hs) as (N1 & N2 & N3 & N4 & N5 & _).
  unfold assertAccounting in *. oks. unfold integrity_if in *. repeat match goal with E : throw_if _ _ = Ok _ |- _ => apply throw_if_ok in E end.
  rewrite Est. assert (E1 : forallb valid_count [storedBytes (books s'); stagingBytes (books s'); controlBytes (books s'); tombstoneBytes (books s'); reservedCells (books s')] = true).
  { cbn [forallb]. rewrite !andb_true_iff, !valid_count_iff. split_and!; done || lia. }
  assert (E2 : forallb (fun e => valid_share (snd e)) (stagingByProfile (books s')) = true) by (by apply forallb_forall, List.Forall_forall).
  rewrite E1, E2. cbn [negb throw_if bindR]. by rewrite H2, H3.
Qed.

Lemma room_shares s : room s -> Forall (fun e => 0 < snd e <= ROOM) (stagingByProfile (books s)).
Proof.
  intros (Ha & _ & _ & _ & _ & _ & Hf). unfold assertAccounting, integrity_if in Ha. oks. b2p. rewrite forallb_forall in H1.
  apply List.Forall_forall. intros e He. rewrite List.Forall_forall in Hf. specialize (H1 e He). apply valid_share_iff in H1. specialize (Hf e He). lia.
Qed.

Lemma checked_run {T} (check : engine -> result T) change s t : check s = Ok t -> checked check change s = (Ok tt, change t s).
Proof. unfold checked. by intros ->. Qed.

(** Counters that stay in range. *)
Lemma shares_valid s : room s -> Forall (fun e => valid_share (snd e) = true) (stagingByProfile (books s)).
Proof.
  intros Hr%room_shares. eapply Forall_impl; [exact Hr|]. intros e He. cbv beta in He. apply valid_share_iff. unfold ROOM in He. lia.
Qed.

End WithPlatform.

Ltac counters Hroom :=
  solve [let R1 := fresh "R" in let R2 := fresh "R" in let R3 := fresh "R" in let R4 := fresh "R" in let R5 := fresh "R" in
  pose proof (shares_valid _ Hroom); destruct Hroom as (_ & R1 & R2 & R3 & R4 & R5 & _); unfold ROOM in *;
  fields; cbn; unfold CONTROL_RECORD_BYTES, TOMBSTONE_RECORD_BYTES in *; first [lia | done]].

(** One frame of a type *)
Ltac applying Hf := unfold applyValue; rewrite (for_type _ _ Hf); cbn [q_type]; cbv beta iota delta [Z.eqb Pos.eqb INGRESS_RESERVED ATTEMPT_CONSUMED PUT_COMMITTED PUT_TERMINAL
  RENEW_COMMITTED DROP_COMMITTED POLICY_COMMITTED GC_COMMITTED FLOOR_ADVANCE CLOCK_UNSAFE CLOCK_CONFIRM COMPACT INTEGRITY_FAILED READ_PIN_COMMITTED
  READ_PIN_FINALIZED READ_PIN_EXPIRED PUT_ATOMIC_COMMITTED].

(** A frame whose check passes and that moves the counters little. *)
Ltac passes Hcheck Hroom sounds := eexists; split; [apply (checked_run _ _ _ _ Hcheck)|];
  match goal with Hs : sound ?s |- _ => assert (Hs' := sounds _ Hs (checked_run _ _ _ _ Hcheck)); apply (accounting_holds s); first [done | counters Hroom] end.

#[local] Arguments lease_epochs : simpl never.
#[local] Arguments size_bytes : simpl never.
#[local] Arguments resultIdentity : simpl never.
#[local] Arguments requestFingerprint : simpl never.
#[local] Arguments Z.max : simpl never.
#[local] Arguments Z.add : simpl never.
#[local] Arguments fixed : simpl never.
#[local] Arguments integer : simpl never.
#[local] Arguments u64 : simpl never.
#[local] Arguments encodeCanonical : simpl never.
#[local] Arguments bound_admission : simpl never.
#[local] Arguments resultBindingBytes : simpl never.

Section WithPlatform.
Context `{Platform}.

(** ** Bindings and admissions that have been checked once *)

Section Operations.
Context (c : config) (verifySignature : bytes -> bytes -> bytes -> bool).

Lemma fixed_ok v n nonzero bs : fixed v n nonzero = Ok bs -> v = VBytes bs /\ blen bs = n /\ (nonzero = true -> isZero bs = false).
Proof. unfold fixed. destruct v; try done. intros Hq. oks. b2p. split_and!; [done..|]. intros ->. done. Qed.

Lemma fixed_again v n nonzero bs : fixed v n nonzero = Ok bs -> fixed (VBytes bs) n nonzero = Ok bs.
Proof. unfold fixed at 1. destruct v; try done. intros Hq. oks. unfold fixed. by rewrite H0, H1. Qed.

Lemma integer_again v lo hi n : integer v lo hi = Ok n -> integer (VNum n) lo hi = Ok n.
Proof. unfold integer at 1. destruct v; try done. intros Hq. oks. unfold integer. by rewrite H0. Qed.

Lemma integer_range v lo hi n : integer v lo hi = Ok n -> lo <= n <= hi.
Proof. unfold integer. destruct v; try done. intros Hq. oks. b2p. lia. Qed.

Lemma u64_again v n : u64 v = Ok n -> u64 (VBig n) = Ok n.
Proof.
  unfold u64. intros Hq. destruct v; try done; oks; b2p; (replace (n <? 0) with false by (symmetry; apply Z.ltb_ge; lia));
    (replace (MAX_U64 <? n) with false by (symmetry; apply Z.ltb_ge; unfold isSafeInteger, MAX_SAFE_INTEGER, MAX_U64 in *; b2p; lia)); done.
Qed.

Lemma u64_range v n : u64 v = Ok n -> 0 <= n <= MAX_U64.
Proof. unfold u64. destruct v; try done; intros Hq; oks; b2p; unfold isSafeInteger, MAX_SAFE_INTEGER, MAX_U64 in *; b2p; lia. Qed.

(** A prepared admission, with what is known of its fields. *)
Lemma prepared_again v p bs : preparedAdmission v = Ok (p, bs) ->
  preparedAdmission p = Ok (p, bs) /\ has_type blindPreparedAdmissionStoreV1_type p = true /\ encodeCanonical blindPreparedAdmissionStoreV1 p = Ok bs /\
  (exists spendTag, p.["spendTag"] = VBytes spendTag /\ isZero spendTag = false) /\
  (exists profileId, p.["profileId"] = VNum profileId /\ 1 <= profileId <= 0xffff).
Proof.
  unfold preparedAdmission at 1. intros Hq. apply bindR_ok in Hq as ([] & Hi & Hq). cbv zeta in Hq.
  apply bindR_ok in Hq as (w & Hw & Hq). destruct (v.["walCommitRecord"]) as [| | | | |bs0| | | |]; try discriminate Hw. injection Hw as ->.
  apply bindR_ok in Hq as ([] & Hl & Hq).
  apply bindR_ok in Hq as (spendTag & H1 & Hq). apply bindR_ok in Hq as (requestCommitment & H2 & Hq). apply bindR_ok in Hq as (profileId & H3 & Hq).
  apply bindR_ok in Hq as (schemeId & H4 & Hq). apply bindR_ok in Hq as (parameterHash & H5 & Hq). apply bindR_ok in Hq as (resourceClass & H6 & Hq).
  apply bindR_ok in Hq as (leaseClass & H7 & Hq). apply bindR_ok in Hq as (costUnits & H8 & Hq). apply bindR_ok in Hq as (canonical & H9 & Hq).
  injection Hq as <- <-. split; [|split; [done|split; [done|split]]].
  - apply fixed_again in H1, H2, H5. apply integer_again in H3, H4, H6, H7. apply u64_again in H8.
    unfold preparedAdmission. cbn. cbn in Hl. rewrite Hl. cbn [bindR].
    rewrite H1, H2, H3, H4, H5, H6, H7, H8. cbn [bindR]. by rewrite H9.
  - exists spendTag. split; [done|]. by apply fixed_ok in H1 as (_ & _ & ->).
  - exists profileId. split; [done|]. by eapply integer_range.
Qed.

Lemma bound_again v p bs value profile : preparedAdmission v = Ok (p, bs) -> value.["preparedAdmissionBytes"] = VBytes bs ->
  raw value.["spendTag"] = raw p.["spendTag"] -> raw value.["requestCommitment"] = raw p.["requestCommitment"] ->
  (profile = true -> value.["profileId"] = p.["profileId"]) -> bound_admission value profile = Ok (p, bs).
Proof.
  intros (Ha & Ht & He & _ & (n & Hn & _))%prepared_again Hb Hs Hr Hp. unfold bound_admission. rewrite Hb.
  rewrite (codec_roundtrip blindPreparedAdmissionStoreV1 blindPreparedAdmissionStoreV1_type p bs Ht He). cbn [bindR]. rewrite Ha. cbn [bindR raw].
  rewrite Hs, Hr, !bytes_eqb_refl. cbn. destruct profile; [|done]. rewrite Hp, Hn by done. cbn. by rewrite Z.eqb_refl.
Qed.

(** ** Each operation *)

(** The frame of the proposal applies. *)
Definition applies (q : proposal) (s : engine) : Prop := forall f, frame_for q f -> exists s', applyFrame c f false s = (Ok tt, s').

Lemma integrity_pass (b : bool) : b = false -> integrity_if b = Ok tt.
Proof. by intros ->. Qed.

(** A proposal applies when its value passes the checks and the counters stay in
    range. *)
Lemma applies_value {R} type t tx bucket value s (q : proposal) s1 : append (R := R) type tx bucket value s = (Ok (inr q), s1) ->
  type_of type = Some t -> has_type t value = true ->
  (forall f, frame_for q f -> holds_value f value -> exists s', applyValue c f value false s = (Ok tt, s') /\ assertAccounting s' = Ok tt) ->
  s1 = s /\ applies q s.
Proof.
  intros (-> & codec & payload & Hc & He & ->)%append_ok Ht Hv Hq. split; [done|]. intros f Hf.
  destruct (codec_lawful _ _ Hc) as (t' & Ht' & Hl). rewrite Ht in Ht'. injection Ht' as <-.
  assert (Hd : decodeCanonical codec (VBytes (Wal.payload f)) = Ok value).
  { rewrite (for_payload _ _ Hf). by apply (codec_roundtrip codec t). }
  destruct (Hq f Hf) as (s' & Ha & Hb); [exists codec; by rewrite (for_type _ _ Hf)|]. exists s'.
  unfold applyFrame. rewrite (for_type _ _ Hf). cbn [q_type]. rewrite Hc, Hd. cbn [integrity]. rewrite bind_lift, (bind_run _ _ _ _ _ Ha). by rewrite Hb.
Qed.

Lemma bucket_for q f slot : frame_for q f -> q_virtualBucket q = cell_bucket slot -> verifyBucket f slot = Ok tt.
Proof. intros Hf Hb. unfold verifyBucket. rewrite (for_bucket _ _ Hf), Hb. by rewrite Z.eqb_refl. Qed.

(** The clock *)
Lemma refresh_applies observedEpoch tx s q s1 : sound s -> room s -> refreshClock observedEpoch tx s = (Ok (inr q), s1) -> s1 = s /\ applies q s.
Proof.
  intros Hs Hroom Hq. unfold refreshClock in Hq. autorewrite with machine in Hq. destruct (clockUnsafe s); [done|].
  destruct (observedEpoch =? epochFloor s) eqn:E0; [done|]. destruct (_ || _) eqn:E1.
  - eapply applies_value; [exact Hq|reflexivity..|]. intros f Hf _. unfold applyValue. apply append_ok in Hq as (_ & codec & payload & _ & _ & ->).
    rewrite (for_type _ _ Hf). cbn. eexists. split; [apply (checked_run _ _ _ tt)|apply Hroom]. unfold checkClockUnsafe. cbn. rewrite Z.eqb_refl. cbn.
    apply integrity_pass. b2p. apply orb_prop in E1 as [E1|E1]; b2p.
    + replace (observedEpoch <? epochFloor s) with true by (symmetry; apply Z.ltb_lt; lia). cbn. rewrite orb_false_r. apply Z.leb_gt. lia.
    + replace (observedEpoch <? epochFloor s) with false by (symmetry; apply Z.ltb_ge; unfold CLOCK_MAX_JUMP_EPOCHS in *; lia). cbn. apply Z.leb_gt. lia.
  - eapply applies_value; [exact Hq|reflexivity..|]. intros f Hf _. unfold applyValue. apply append_ok in Hq as (_ & codec & payload & _ & _ & ->).
    rewrite (for_type _ _ Hf). cbn. eexists. split; [apply (checked_run _ _ _ tt)|apply Hroom]. unfold checkFloor. cbn. rewrite Z.eqb_refl. b2p.
    replace (observedEpoch <? epochFloor s) with false by (symmetry; apply Z.ltb_ge; lia). cbn.
    replace (epochFloor s + CLOCK_MAX_JUMP_EPOCHS <? observedEpoch) with false by (symmetry; apply Z.ltb_ge; lia). done.
Qed.

(** What the input of a renewal says. *)
Lemma renewInput_ok request admission resultBinding input : renewInput c request admission resultBinding = Ok input ->
  resultBindingBytes c (val_of (w_resultBindingBytes input)) = Ok (w_resultBindingBytes input) /\
  (exists p, preparedAdmission admission = Ok (p, w_preparedAdmissionBytes input) /\ raw p.["spendTag"] = w_spendTag input /\
    raw p.["requestCommitment"] = w_commitment input /\ p.["profileId"] = VNum (w_profileId input)) /\
  1 <= w_leaseClass input <= 4.
Proof.
  unfold renewInput. intros Hq. apply bindR_ok in Hq as ([] & _ & Hq). apply bindR_ok in Hq as (binding & Hb & Hq).
  apply bindR_ok in Hq as (slot & _ & Hq). apply bindR_ok in Hq as (revision & _ & Hq). apply bindR_ok in Hq as (lease & _ & Hq).
  apply bindR_ok in Hq as (leaseClass & Hl & Hq). apply bindR_ok in Hq as (nonce & _ & Hq). apply bindR_ok in Hq as (commitment & _ & Hq).
  apply bindR_ok in Hq as ([p bs] & Hp & Hq). apply bindR_ok in Hq as ([] & Hc & Hq). injection Hq as <-. apply throw_if_ok, negb_false_iff, bytes_eqb_eq in Hc. cbn.
  split; [by eapply binding_again|]. split; [|by eapply integer_range]. exists p. split_and!; [done..|].
  apply prepared_again in Hp as (_ & _ & _ & _ & (n & Hn & _)). by rewrite Hn.
Qed.

Lemma lease_positive n : 1 <= n <= 4 -> 0 < lease_epochs n.
Proof. intros Hn. assert (n = 1 \/ n = 2 \/ n = 3 \/ n = 4) as [->|[->|[->| ->]]] by lia; done. Qed.

Lemma renew_applies request admission resultBinding input tx s q s1 : sound s -> room s -> renewInput c request admission resultBinding = Ok input ->
  renewCell c verifySignature input tx s = (Ok (inr q), s1) -> s1 = s /\ applies q s.
Proof.
  intros Hs Hroom (Hb & (p & Hp & Ht & Hr & Hn) & Hl)%renewInput_ok Hq. unfold renewCell in Hq. autorewrite with machine in Hq.
  unfold managementRecord in Hq. destruct (get_cell _ s) as [record|] eqn:Hcell; [|done]. autorewrite with machine in Hq.
  destruct (verifyEd25519 _ _ _ _) as [verified|]; [|done]. autorewrite with machine in Hq. destruct (negb verified); [done|].
  destruct (get_spend _ s) as [existing|] eqn:Hspend; [autorewrite with machine in Hq; repeat case_match; done|].
  destruct (get_commitment _ s) as [[]|] eqn:Hcom; [done|]. autorewrite with machine in Hq.
  destruct (_ || _) eqn:E1 in Hq; [done|]. destruct (_ || _) eqn:E2 in Hq; [done|]. destruct (leaseEpochFor _ s) as [lease|] eqn:E3; [|done].
  autorewrite with machine in Hq. destruct (_ =? c_leaseEpoch record) eqn:E4 in Hq; [done|]. destruct (maxControlBytes c <? _) eqn:E5; [done|].
  destruct (_ =? MAX_U64) eqn:E6 in Hq; [done|]. b2p.
  eapply applies_value; [exact Hq|reflexivity|destruct (w_resultBindingBytes input); reflexivity|].
  intros f Hf Hv. apply append_ok in Hq as (_ & codec & payload & _ & _ & ->).
  applying Hf. set (value := VObj _) in *.
  assert (Hcheck : checkRenew c f value s = Ok (record, w_resultBindingBytes input, w_preparedAdmissionBytes input)).
  { unfold checkRenew. change (raw value.["storageSlot"]) with (w_storageSlot input). rewrite (bucket_for _ _ _ Hf eq_refl). cbn [bindR].
    change (raw value.["spendTag"]) with (w_spendTag input). change (raw value.["requestCommitment"]) with (w_commitment input). rewrite Hspend, Hcom, Hcell. cbn [has orb integrity_if throw_if bindR].
    change (value.["resultBindingBytes"]) with (val_of (w_resultBindingBytes input)). rewrite Hb.
    rewrite (bound_again _ _ _ value true Hp) by done. cbn. rewrite H2, !Z.eqb_refl. cbn. rewrite bytes_eqb_refl. cbn.
    replace (_ <=? _) with false by (symmetry; apply Z.leb_gt; lia). cbn. done. }
  eexists. split; [apply (checked_run _ _ _ _ Hcheck)|].
  assert (Hs' := renew_sound c f value _ _ Hs (checked_run _ _ _ _ Hcheck)). apply (accounting_holds s); first [done | counters Hroom].
Qed.

Lemma dropInput_ok request input : dropInput c request = Ok input -> resultBindingBytes c (val_of (x_resultBindingBytes input)) = Ok (x_resultBindingBytes input).
Proof.
  unfold dropInput. intros Hq. apply bindR_ok in Hq as ([] & _ & Hq). cbv zeta in Hq. apply bindR_ok in Hq as (binding & Hb & Hq).
  apply bindR_ok in Hq as (slot & _ & Hq). apply bindR_ok in Hq as (revision & _ & Hq). apply bindR_ok in Hq as (lease & _ & Hq).
  apply bindR_ok in Hq as (nonce & _ & Hq). apply bindR_ok in Hq as (commitment & _ & Hq). injection Hq as <-. by eapply binding_again.
Qed.

Lemma drop_applies request input tx s q s1 : sound s -> room s -> dropInput c request = Ok input ->
  dropCell verifySignature input tx s = (Ok (inr q), s1) -> s1 = s /\ applies q s.
Proof.
  intros Hs Hroom Hb%dropInput_ok Hq. unfold dropCell in Hq. autorewrite with machine in Hq.
  unfold managementRecord in Hq. destruct (get_cell _ s) as [record|] eqn:Hcell; [|done]. autorewrite with machine in Hq.
  destruct (verifyEd25519 _ _ _ _) as [verified|]; [|done]. autorewrite with machine in Hq. destruct (negb verified); [done|].
  destruct (get_result _ s) as [existing|] eqn:Hres; [autorewrite with machine in Hq; repeat case_match; done|]. autorewrite with machine in Hq.
  destruct (bool_decide _) eqn:E1 in Hq; [done|]. destruct (_ || _) eqn:E2 in Hq; [done|]. destruct (_ =? MAX_U64) eqn:E6 in Hq; [done|]. b2p.
  eapply applies_value; [exact Hq|reflexivity|destruct (x_resultBindingBytes input); reflexivity|].
  intros f Hf Hv. apply append_ok in Hq as (_ & codec & payload & _ & _ & ->). applying Hf. set (value := VObj _) in *.
  assert (Hcheck : checkDrop c f value s = Ok (record, x_resultBindingBytes input)).
  { unfold checkDrop. change (raw value.["storageSlot"]) with (x_storageSlot input). rewrite (bucket_for _ _ _ Hf eq_refl). cbn [bindR].
    change (raw value.["requestCommitment"]) with (x_commitment input). rewrite Hres, Hcell. cbn [has integrity_if throw_if bindR].
    change (value.["resultBindingBytes"]) with (val_of (x_resultBindingBytes input)). rewrite Hb.
    cbn. rewrite E1, !Z.eqb_refl. cbn. by rewrite bytes_eqb_refl. }
  pose proof (size_bytes_range (c_sizeClass record)). passes Hcheck Hroom (drop_sound c f value s).
Qed.

Lemma policy_applies slot revision suppress tx s q s1 : sound s -> room s -> setPolicy slot revision suppress tx s = (Ok (inr q), s1) -> s1 = s /\ applies q s.
Proof.
  intros Hs Hroom Hq. unfold setPolicy in Hq. autorewrite with machine in Hq. unfold managementRecord in Hq. destruct (get_cell _ s) as [record|] eqn:Hcell; [|done].
  autorewrite with machine in Hq. destruct (bool_decide _) eqn:E1 in Hq; [done|]. destruct (negb _) eqn:E2 in Hq; [done|].
  destruct (bool_decide _) eqn:E3 in Hq; [done|]. destruct (_ =? MAX_U64) eqn:E6 in Hq; [done|]. b2p. apply bool_decide_eq_false in E3.
  eapply applies_value; [exact Hq|reflexivity|reflexivity|].
  intros f Hf Hv. apply append_ok in Hq as (_ & codec & payload & _ & _ & ->). applying Hf. set (value := VObj _) in *.
  assert (Hcheck : checkPolicy f value s = Ok record).
  { unfold checkPolicy. change (raw value.["storageSlot"]) with slot. rewrite (bucket_for _ _ _ Hf eq_refl). cbn [bindR]. rewrite Hcell.
    cbn. rewrite E1, !Z.eqb_refl. cbn. by destruct (c_policyState record), suppress. }
  passes Hcheck Hroom (policy_sound f value s).
Qed.

Lemma gc_applies slot same tx s q s1 : sound s -> room s -> gc slot same tx s = (Ok (inr q), s1) -> s1 = s /\ applies q s.
Proof.
  intros Hs Hroom Hq. unfold gc in Hq. autorewrite with machine in Hq. destruct (get_cell slot s) as [record|] eqn:Hcell; [|done].
  destruct (_ || _) eqn:E1 in Hq; [done|]. destruct (_ =? MAX_U64) eqn:E2 in Hq; [done|]. b2p.
  destruct (cell_at s (proj1 Hs) _ _ Hcell) as [Hslot _]. rewrite Hslot in Hq.
  eapply applies_value; [exact Hq|reflexivity|reflexivity|].
  intros f Hf Hv. apply append_ok in Hq as (_ & codec & payload & _ & _ & ->). applying Hf. set (value := VObj _) in *.
  assert (Hcheck : checkGc f value s = Ok record).
  { unfold checkGc. change (raw value.["storageSlot"]) with slot. rewrite (bucket_for _ _ _ Hf eq_refl). cbn [bindR]. rewrite Hcell.
    cbn. match goal with E : bool_decide _ = false |- _ => rewrite E end. rewrite !Z.eqb_refl. cbn. replace (_ <=? _) with false by (symmetry; apply Z.leb_gt; lia). done. }
  pose proof (size_bytes_range (c_sizeClass record)). passes Hcheck Hroom (gc_sound f value s).
Qed.

(** What the input of a put says. *)
Record put_checked (input : put_input) : Prop := {
  put_binding : resultBindingBytes c (val_of (p_resultBindingBytes input)) = Ok (p_resultBindingBytes input);
  put_admission : exists v p, preparedAdmission v = Ok (p, p_preparedAdmissionBytes input) /\ raw p.["spendTag"] = p_spendTag input /\
    raw p.["requestCommitment"] = p_requestCommitment input /\ p.["profileId"] = VNum (p_profileId input);
  put_slot : Hash.cellStorageSlot (VObj [("allocationEpoch", VNum (p_allocationEpoch input)); ("createPublicKey", VBytes (p_createPublicKey input))]) = Ok (p_storageSlot input);
  put_allocation : Hash.allocationCommitment (VObj [("relayPublicKey", VBytes (relayPublicKey c)); ("storageSlot", VBytes (p_storageSlot input));
    ("allocationEpoch", VNum (p_allocationEpoch input)); ("sizeClass", VNum (p_sizeClass input)); ("leaseClass", VNum (p_leaseClass input));
    ("declaredCellBlobHash", VBytes (p_declaredBlobHash input)); ("createPublicKey", VBytes (p_createPublicKey input));
    ("renewPublicKey", VBytes (p_renewPublicKey input)); ("dropPublicKey", VBytes (p_dropPublicKey input))]) = Ok (p_allocationCommitment input);
  put_keys : distinct_keys (p_createPublicKey input) (p_renewPublicKey input) (p_dropPublicKey input) = true;
  put_nonzero : existsb isZero [p_spendTag input; p_requestCommitment input; p_declaredBlobHash input; p_createPublicKey input; p_renewPublicKey input; p_dropPublicKey input] = false;
  put_sizeClass : 1 <= p_sizeClass input <= 5;
  put_leaseClass : 1 <= p_leaseClass input <= 4;
  put_signature : exists signature, verifySignature (p_createPublicKey input) (p_allocationCommitment input) signature = true
}.

Lemma prepared_fields v p bs : preparedAdmission v = Ok (p, bs) -> isZero (raw p.["spendTag"]) = false /\ isZero (raw p.["requestCommitment"]) = false.
Proof.
  unfold preparedAdmission. intros Hq. oks. simplify_eq. repeat match goal with E : fixed _ _ _ = Ok _ |- _ => apply fixed_ok in E as (_ & _ & E) end. cbn. auto.
Qed.

Lemma putInput_ok request admission resultBinding input : putInput c verifySignature request admission resultBinding = Ok input -> put_checked input.
Proof.
  unfold putInput, validateDistinctKeys. intros Hq. apply bindR_ok in Hq as ([] & _ & Hq). apply bindR_ok in Hq as (binding & Hb & Hq).
  apply bindR_ok in Hq as ([[create renew] drop] & Hk & Hq). apply bindR_ok in Hk as (create' & Hk1 & Hk). apply bindR_ok in Hk as (renew' & Hk2 & Hk).
  apply bindR_ok in Hk as (drop' & Hk3 & Hk). apply bindR_ok in Hk as ([] & Hd & Hk). injection Hk as -> -> ->. apply fail_if_ok, negb_false_iff in Hd.
  apply bindR_ok in Hq as (slot & _ & Hq). apply bindR_ok in Hq as (allocationEpoch & _ & Hq). apply bindR_ok in Hq as (sizeClass & Hs & Hq).
  apply bindR_ok in Hq as (leaseClass & Hl & Hq). apply bindR_ok in Hq as (nonce & _ & Hq). apply bindR_ok in Hq as (blob & Hblob & Hq).
  apply bindR_ok in Hq as (slot' & Hslot & Hq). apply bindR_ok in Hq as ([] & He & Hq). apply throw_if_ok, negb_false_iff, bytes_eqb_eq in He as ->.
  apply bindR_ok in Hq as (allocation & Ha & Hq). apply bindR_ok in Hq as (verified & Hv & Hq). apply bindR_ok in Hq as ([] & Hver & Hq).
  apply bindR_ok in Hq as (commitment & _ & Hq). apply bindR_ok in Hq as ([p bs] & Hp & Hq). cbv zeta in Hq. apply bindR_ok in Hq as ([] & Hc & Hq).
  apply throw_if_ok, negb_false_iff, bytes_eqb_eq in Hc. apply throw_if_ok, negb_false_iff in Hver. injection Hq as <-.
  destruct (prepared_fields _ _ _ Hp) as [Z1 Z2]. apply fixed_ok in Hk1 as (_ & _ & Z3), Hk2 as (_ & _ & Z4), Hk3 as (_ & _ & Z5), Hblob as (_ & _ & Z6).
  unfold verifyEd25519 in Hv. oks. split; cbn [p_storageSlot p_allocationEpoch p_sizeClass p_leaseClass p_declaredBlobHash p_createPublicKey p_renewPublicKey p_dropPublicKey
    p_allocationCommitment p_requestCommitment p_spendTag p_profileId p_preparedAdmissionBytes p_fingerprint p_resultBindingBytes]; try done.
  - by eapply binding_again.
  - exists admission, p. split_and!; try done. apply prepared_again in Hp as (_ & _ & _ & _ & (n & Hn & _)). by rewrite Hn.
  - cbn [existsb]. rewrite Z1, Z2, Z3, Z4, Z5, Z6; done.
  - by eapply integer_range.
  - by eapply integer_range.
  - apply fixed_ok in H0 as (Hx & _). injection Hx as <-. eauto.
Qed.

Lemma forall_set {V} (P : Z * V -> Prop) k v m : P (k, v) -> Forall P m -> Forall P (map_set Z.eqb k v m).
Proof.
  intros Hk Hm. unfold map_set. destruct (existsb _ m); [|apply Forall_app; split; [done|by constructor]].
  apply List.Forall_map. eapply Forall_impl; [exact Hm|]. intros [k0 v0] He. cbn. destruct (k0 =? k) eqn:E; [|done]. by apply Z.eqb_eq in E as ->.
Qed.

Lemma room_profile s p : room s -> profile_bytes p (stagingByProfile (books s)) <= ROOM.
Proof.
  intros Hr%room_shares. unfold profile_bytes. destruct (map_get Z.eqb p _) as [n|] eqn:E; [|done]. apply (get_in _ Z.eqb_eq) in E.
  rewrite List.Forall_forall in Hr. by apply Hr in E as [_ ?].
Qed.

Lemma reserve_new_applies input now tx s q s1 : sound s -> room s -> put_checked input -> isZero (p_fingerprint input) = false ->
  get_spend (p_spendTag input) s = None -> reservePut c input now tx false s = (Ok (inr q), s1) -> 0 < reservationMillis c -> s1 = s /\ applies q s.
Proof.
  intros Hs Hroom Hin Hz Hspend Hq Hmillis. unfold reservePut in Hq. autorewrite with machine in Hq. rewrite Hspend in Hq.
  destruct (get_commitment _ s) as [[]|] eqn:Hcom; [done|]. autorewrite with machine in Hq. destruct (has _) eqn:Hcell; [done|]. apply has_none in Hcell.
  destruct (checkCreateQuota _ _ _ _ s) as [[]|]; [|done]. autorewrite with machine in Hq. destruct (u64 now) as [nowMillis|] eqn:Hnow; [|done].
  autorewrite with machine in Hq. destruct (_ <? nowMillis) eqn:Hlate; [done|]. apply u64_range in Hnow.
  destruct Hin as [Hb (v & p & Hp & Ht & Hr & Hn) Hslot Hall Hkeys Hnz Hsize Hlease _].
  eapply applies_value; [exact Hq|reflexivity|destruct (p_resultBindingBytes input); reflexivity|].
  intros f Hf Hv. apply append_ok in Hq as (_ & codec & payload & _ & _ & ->). applying Hf. match type of Hv with holds_value _ ?x => set (value := x) in * end.
  pose proof (value_keyed f value Hv) as Hkeyed. rewrite (for_type _ _ Hf) in Hkeyed. specialize (Hkeyed (or_introl eq_refl)).
  assert (Hcheck : checkReservation c f value s = Ok (p_resultBindingBytes input, p_preparedAdmissionBytes input)).
  { unfold checkReservation. change (raw value.["storageSlot"]) with (p_storageSlot input). rewrite (bucket_for _ _ _ Hf eq_refl). cbn [bindR].
    change (raw value.["spendTag"]) with (p_spendTag input). change (raw value.["requestCommitment"]) with (p_requestCommitment input).
    rewrite Hspend, Hcom, Hcell. cbn [has orb integrity_if throw_if bindR].
    change (num value.["sizeClass"]) with (p_sizeClass input). change (num value.["declaredBytes"]) with (size_bytes (p_sizeClass input)).
    rewrite Z.eqb_refl. cbn [negb integrity_if throw_if bindR].
    change (Hash.cellStorageSlot value) with (Hash.cellStorageSlot (VObj [("allocationEpoch", VNum (p_allocationEpoch input)); ("createPublicKey", VBytes (p_createPublicKey input))])).
    rewrite Hslot. cbn [bindR]. rewrite bytes_eqb_refl. cbn [negb integrity_if throw_if bindR].
    change (allocation_of c value) with (VObj [("relayPublicKey", VBytes (relayPublicKey c)); ("storageSlot", VBytes (p_storageSlot input));
      ("allocationEpoch", VNum (p_allocationEpoch input)); ("sizeClass", VNum (p_sizeClass input)); ("leaseClass", VNum (p_leaseClass input));
      ("declaredCellBlobHash", VBytes (p_declaredBlobHash input)); ("createPublicKey", VBytes (p_createPublicKey input));
      ("renewPublicKey", VBytes (p_renewPublicKey input)); ("dropPublicKey", VBytes (p_dropPublicKey input))]).
    rewrite Hall. cbn [bindR]. change (raw value.["allocationCommitment"]) with (p_allocationCommitment input). rewrite bytes_eqb_refl. cbn [negb integrity_if throw_if bindR].
    change (existsb _ _) with (existsb isZero [p_spendTag input; p_requestCommitment input; p_fingerprint input; p_declaredBlobHash input; p_createPublicKey input;
      p_renewPublicKey input; p_dropPublicKey input]).
    cbn [existsb] in Hnz. b2p. repeat match goal with E : _ || _ = false |- _ => apply orb_false_elim in E as [? ?] end.
    cbn [existsb]. repeat match goal with E : isZero _ = false |- _ => rewrite E end. cbn [orb integrity_if throw_if bindR].
    change (raw value.["createPublicKey"]) with (p_createPublicKey input). change (raw value.["renewPublicKey"]) with (p_renewPublicKey input).
    change (raw value.["dropPublicKey"]) with (p_dropPublicKey input). rewrite Hkeys. cbn [negb integrity_if throw_if bindR].
    change (num value.["reservedEpoch"]) with (epochFloor s). change (big value.["deadlineUnixMillis"]) with (nowMillis + reservationMillis c).
    rewrite Z.eqb_refl. replace (_ =? 0) with false by (symmetry; apply Z.eqb_neq; lia). cbn [negb orb integrity_if throw_if bindR].
    change (value.["resultBindingBytes"]) with (val_of (p_resultBindingBytes input)). rewrite Hb. by rewrite (bound_again _ _ _ value true Hp). }
  pose proof (size_bytes_range (p_sizeClass input)). pose proof (size_bytes_positive _ Hsize).
  eexists; split; [apply (checked_run _ _ _ _ Hcheck)|]. assert (Hs' := reservation_sound c f value _ _ Hkeyed Hs (checked_run _ _ _ _ Hcheck)).
  pose proof (room_profile s (p_profileId input) Hroom). pose proof (books_nonneg s Hs) as (_ & _ & _ & _ & _ & N).
  apply (accounting_holds s); try done; try counters Hroom.
  fields. cbn. apply forall_set; [|by apply shares_valid]. cbn. apply valid_share_iff. specialize (N (p_profileId input)). unfold ROOM in *. lia.
Qed.

Lemma released_shares i s : room s -> 0 <= i_declaredBytes i -> 0 <= profile_bytes (i_profileId i) (stagingByProfile (books (releaseStaging i s))) ->
  Forall (fun e => valid_share (snd e) = true) (stagingByProfile (books (releaseStaging i s))).
Proof.
  intros Hroom Hd Hn. rewrite released_profile, Z.eqb_refl in Hn. pose proof (room_profile s (i_profileId i) Hroom). pose proof (shares_valid s Hroom) as Hv.
  unfold releaseStaging. fields. destruct (_ =? 0) eqn:E.
  - unfold map_delete. apply List.Forall_forall. intros e [He _]%List.filter_In. rewrite List.Forall_forall in Hv. by apply Hv.
  - b2p. apply forall_set; [|done]. cbn. apply valid_share_iff. unfold ROOM in *. lia.
Qed.

(** The entry of a reservation that is still open. *)
Lemma open_reservation key e i s : sound s -> get_spend key s = Some e -> e_detail e = Ingress i -> e_status e <> Committed -> e_status e <> Terminal ->
  e_status e = Reserved /\ e_spendTag e = key /\ (exists r, i_reservation i = Some r) /\ i_declaredBytes i = size_bytes (i_sizeClass i) /\
  e_committedEpoch e = None /\ e_terminalEpoch e = None.
Proof.
  clear verifySignature.
  intros Hs Hg Hd H1 H2. destruct (spend_at s (proj1 Hs) _ _ Hg) as (Ht & Hco & _). unfold coherent in Hco. rewrite Hd in Hco.
  destruct (e_status e); try tauto.
Qed.

Lemma reservation_found f value e i r s : get_spend (raw value.["spendTag"]) s = Some e -> e_status e = Reserved -> e_detail e = Ingress i -> i_reservation i = Some r ->
  raw value.["requestCommitment"] = e_requestCommitment e -> frame_transaction f = e_transactionId e -> reservationFor f value s = Ok (e, i, r).
Proof.
  intros Hg Hs Hd Hr Hc Ht. unfold reservationFor. rewrite Hg, Hs, Hd, Hr, Hc, Ht, !bytes_eqb_refl. by rewrite bool_decide_eq_false_2 by tauto.
Qed.

Lemma terminal_applies {R} key e i r reason s q s1 : sound s -> room s -> get_spend key s = Some e -> e_detail e = Ingress i -> e_status e = Reserved ->
  i_reservation i = Some r -> terminalReservation (R := R) e i reason s s = (Ok (inr q), s1) -> s1 = s /\ applies q s.
Proof.
  clear verifySignature.
  intros Hs Hroom Hg Hd Hst Hr Hq. unfold terminalReservation in Hq.
  destruct (open_reservation key e i s Hs Hg Hd) as (_ & Htag & _ & Hdecl & _); [congruence..|].
  eapply applies_value; [exact Hq|reflexivity|reflexivity|]. intros f Hf Hv. apply append_ok in Hq as (_ & codec & payload & _ & _ & ->).
  applying Hf. match type of Hv with holds_value _ ?x => set (value := x) in * end.
  assert (Hcheck : checkTerminal f value s = Ok (e, i, r)).
  { unfold checkTerminal. rewrite (reservation_found f value e i r s); [|cbn; by rewrite Htag|done..|apply Hf]. cbn [bindR].
    rewrite (bucket_for _ _ _ Hf eq_refl). cbn. by rewrite bytes_eqb_refl, Z.eqb_refl. }
  eexists; split; [apply (checked_run _ _ _ _ Hcheck)|]. assert (Hs' := terminal_sound f value _ _ Hs (checked_run _ _ _ _ Hcheck)).
  pose proof (books_nonneg _ Hs') as (_ & _ & _ & _ & _ & N). pose proof (size_bytes_range (i_sizeClass i)).
  apply (accounting_holds s); try done; try counters Hroom. rewrite account_profiles. apply released_shares; [done|cbn; lia|].
  specialize (N (i_profileId i)). by rewrite account_profiles in N.
Qed.

Lemma replay_none e input s : spendReplay e input s = Ok None ->
  e_requestCommitment e = p_requestCommitment input /\ e_requestFingerprint e = p_fingerprint input /\ e_status e <> Committed /\ e_status e <> Terminal.
Proof.
  unfold spendReplay. intros Hq. apply bindR_ok in Hq as ([] & H1 & Hq). apply bindR_ok in Hq as ([] & H2 & Hq).
  apply throw_if_ok, negb_false_iff, bytes_eqb_eq in H1, H2. destruct (bool_decide _) eqn:E1; [by oks|]. apply bindR_ok in Hq as ([] & H3 & _).
  apply throw_if_ok in H3. apply bool_decide_eq_false in E1, H3. done.
Qed.

Lemma reserve_applies input now tx s q s1 : sound s -> room s -> put_checked input -> isZero (p_fingerprint input) = false -> 0 < reservationMillis c ->
  reservePut c input now tx false s = (Ok (inr q), s1) -> s1 = s /\ applies q s.
Proof.
  intros Hs Hroom Hin Hz Hm Hq. destruct (get_spend (p_spendTag input) s) as [e|] eqn:Hg; [|by eapply reserve_new_applies].
  unfold reservePut in Hq. autorewrite with machine in Hq. rewrite Hg in Hq. autorewrite with machine in Hq. destruct (spendReplay e input s) as [[v|]|] eqn:Er; try done.
  apply replay_none in Er as (_ & _ & N1 & N2). autorewrite with machine in Hq. destruct (u64 now) as [n|]; [|done]. destruct (e_detail e) as [i| |] eqn:Ed; try done.
  destruct (open_reservation _ e i s Hs Hg Ed N1 N2) as (Hst & _ & (r & Hr) & _). rewrite Hr in Hq. cbn [mbind option_bind] in Hq.
  destruct (exhausted n r) as [reason|]; [|done]. by eapply (terminal_applies (R := put_reply)).
Qed.

Lemma sweep_applies key now s q s1 : sound s -> room s -> sweepReservation key now s = (Ok (inr q), s1) -> s1 = s /\ applies q s.
Proof.
  clear verifySignature.
  intros Hs Hroom Hq. unfold sweepReservation in Hq. autorewrite with machine in Hq. destruct (get_spend key s) as [e|] eqn:Hg; [|done].
  destruct (e_status e) eqn:Hst; try done. destruct (e_detail e) as [i| |] eqn:Hd; try done. destruct (i_reservation i) as [r|] eqn:Hr; [|done].
  destruct (inFlight r); [done|]. autorewrite with machine in Hq. destruct (u64 now) as [n|]; [|done]. destruct (exhausted n r) as [reason|]; [|done].
  by eapply (terminal_applies (R := unit)).
Qed.

Lemma consume_applies input now s q s1 : sound s -> room s -> consumeAttempt input now false s = (Ok (inr q), s1) -> s1 = s /\ applies q s.
Proof.
  intros Hs Hroom Hq. unfold consumeAttempt in Hq. autorewrite with machine in Hq. destruct (get_spend (p_spendTag input) s) as [e|] eqn:Hg; [|done].
  autorewrite with machine in Hq. destruct (spendReplay e input s) as [[v|]|] eqn:Er; try done. apply replay_none in Er as (_ & _ & N1 & N2).
  destruct (e_detail e) as [i| |] eqn:Ed; try done. destruct (open_reservation _ e i s Hs Hg Ed N1 N2) as (Hst & Htag & (r & Hr) & Hdecl & _). rewrite Hr in Hq.
  autorewrite with machine in Hq. destruct (inFlight r); [done|]. destruct (u64 now) as [n|]; [|done].
  destruct (exhausted n r) as [reason|]; [by eapply (terminal_applies (R := put_reply))|]. autorewrite with machine in Hq.
  eapply applies_value; [exact Hq|reflexivity|reflexivity|]. intros f Hf Hv. apply append_ok in Hq as (_ & codec & payload & _ & _ & ->).
  applying Hf. match type of Hv with holds_value _ ?x => set (value := x) in * end.
  assert (Hcheck : checkAttempt f value s = Ok (e, i, r)).
  { unfold checkAttempt. rewrite (reservation_found f value e i r s); [|cbn; by rewrite Htag|done..|apply Hf]. cbn [bindR].
    rewrite (bucket_for _ _ _ Hf eq_refl). cbn. by rewrite Z.eqb_refl. }
  passes Hcheck Hroom (attempt_sound f value s).
Qed.

Lemma publishing input same s e i leaseEpoch identity s1 : sound s -> publishPut input same false s = (Ok (inr (e, i, leaseEpoch, identity)), s1) ->
  s1 = s /\ get_spend (p_spendTag input) s = Some e /\ e_detail e = Ingress i /\ e_status e = Reserved /\ e_spendTag e = p_spendTag input /\
  (exists r, i_reservation i = Some r) /\ i_declaredBytes i = size_bytes (i_sizeClass i) /\ get_cell (i_storageSlot i) s = None /\
  leaseEpoch = epochFloor s + lease_epochs (i_leaseClass i) /\
  identity = resultIdentity "stored" (i_storageSlot i) (e_requestCommitment e) (i_declaredBlobHash i) (i_leaseClass i) leaseEpoch 0.
Proof.
  clear verifySignature.
  intros Hs Hq. unfold publishPut in Hq. autorewrite with machine in Hq. destruct (get_spend (p_spendTag input) s) as [e0|] eqn:Hg; [|done].
  autorewrite with machine in Hq. destruct (spendReplay e0 input s) as [[v|]|] eqn:Er; try done. apply replay_none in Er as (_ & _ & N1 & N2).
  destruct (e_detail e0) as [i0| |] eqn:Ed; try done. destruct (open_reservation _ e0 i0 s Hs Hg Ed N1 N2) as (Hst & Htag & Hr & Hdecl & _).
  destruct (_ || _) eqn:E in Hq; [by autorewrite with machine in Hq|]. b2p. match goal with E : has _ = false |- _ => apply has_none in E end.
  autorewrite with machine in Hq. destruct (leaseEpochFor _ s) as [lease|] eqn:Hlease; [|done]. injection Hq as <- <- <- <- <-.
  unfold leaseEpochFor in Hlease. oks. split_and!; done.
Qed.

Lemma commit_applies input same e i leaseEpoch identity objectId s s' q s1 : sound s -> room s -> all_bound c s -> isZero objectId = false ->
  publishPut input same false s = (Ok (inr (e, i, leaseEpoch, identity)), s') -> (forall r, i_reservation i = Some r -> remainingAttempts r <= 1) ->
  commitPut e i leaseEpoch identity objectId s = (Ok (inr q), s1) -> s1 = s /\ applies q s.
Proof.
  clear verifySignature.
  intros Hs Hroom Hbound Hobj Hp Hatt Hq. apply publishing in Hp as (_ & Hg & Hd & Hst & Htag & [r Hr] & Hdecl & Hcell & -> & ->); [|done]. specialize (Hatt r Hr).
  assert (Hb := Hbound _ _ Hg). unfold bound_by in Hb. rewrite Hd in Hb. unfold commitPut in Hq. autorewrite with machine in Hq.
  eapply applies_value; [exact Hq|reflexivity|destruct (i_resultBindingBytes i); reflexivity|]. intros f Hf Hv. apply append_ok in Hq as (_ & codec & payload & _ & _ & ->).
  applying Hf. match type of Hv with holds_value _ ?x => set (value := x) in * end.
  assert (Hcheck : checkPut c f value s = Ok (e, i, r, i_resultBindingBytes i)).
  { unfold checkPut. rewrite (reservation_found f value e i r s); [|cbn; by rewrite Htag|done..|apply Hf]. cbn [bindR].
    change (raw value.["storageSlot"]) with (i_storageSlot i). rewrite (bucket_for _ _ _ Hf eq_refl). cbn [bindR].
    change (raw value.["requestFingerprint"]) with (e_requestFingerprint e). rewrite !bytes_eqb_refl. cbn [negb orb integrity_if throw_if bindR].
    change (value.["resultBindingBytes"]) with (val_of (i_resultBindingBytes i)). rewrite Hb. cbn. rewrite !Z.eqb_refl. change (forallb _ objectId) with (isZero objectId). rewrite Hobj.
    replace (1 <? remainingAttempts r) with false by (symmetry; apply Z.ltb_ge; lia). cbn.
    replace (same_option _ _) with true by (destruct (i_resultBindingBytes i); cbn; by rewrite ?bytes_eqb_refl). cbn. by rewrite Hcell. }
  eexists; split; [apply (checked_run _ _ _ _ Hcheck)|]. assert (Hs' := put_sound c f value _ _ Hs (checked_run _ _ _ _ Hcheck)).
  pose proof (books_nonneg _ Hs') as (_ & _ & _ & _ & _ & N). pose proof (size_bytes_range (i_sizeClass i)).
  apply (accounting_holds s); try done; try counters Hroom. rewrite account_profiles. apply released_shares; [done|cbn; lia|].
  specialize (N (i_profileId i)). by rewrite account_profiles in N.
Qed.
End Operations.
End WithPlatform.
End CellProposals.
