(* ===== verification/CellReads.v ===== *)
(** * The cell store: the other records can be applied too

    The records of charged reads, of expiry, compaction, confirmed clocks and
    integrity failures: what is appended applies to the state it was decided in. *)

From Stdlib Require Import ZArith Lia Bool List String Ascii.
From Stdlib Require Import Strings.Byte.
From stdpp Require Import base tactics list strings.
From S2P Require Import Prelude JsMap Codec CodecLaws Authority Hashes SchemaKit ResultBinding HashLaws Accepted WriteAheadLog CellRecords ExpiryHeap CellStore CellApply CellBooks CellLife CellSpends CellOperations CellProposals.

Module CellReads.
Import Binding CellRecord Cells Apply CellBooks CellLife CellSpends CellOps CellProposals.

#[local] Arguments fixed : simpl never.
#[local] Arguments integer : simpl never.
#[local] Arguments u64 : simpl never.
#[local] Arguments encodeCanonical : simpl never.
#[local] Arguments bound_admission : simpl never.
#[local] Arguments resultBindingBytes : simpl never.
#[local] Arguments requestFingerprint : simpl never.
#[local] Arguments Z.add : simpl never.

Section WithPlatform.
Context `{Platform}.
Context (c : config) (verifySignature : bytes -> bytes -> bytes -> bool).

(** ** Entries of a pin *)

Lemma pinned_typed n : has_type chargedReadPinEntryV1_type (pinned_val n) = true.
Proof. reflexivity. Qed.

Lemma pinned_again n : pinned_of (pinned_val n) = n.
Proof. by destruct n. Qed.

Lemma pins_again entries : map pinned_of (map pinned_val entries) = entries.
Proof. rewrite map_map. rewrite (map_ext _ (fun n => n)) by apply pinned_again. apply map_id. Qed.

Lemma pin_encodes v : accepted chargedReadPinEntryV1 v -> exists bs, encodeCanonical chargedReadPinEntryV1 v = Ok bs.
Proof.
  intros (s & p & s' & Hq). change (preencode chargedReadPinEntryV1 s v p) with (preencode chargedReadPinEntryV1 s v VUndef) in Hq.
  apply sized_emits in Hq as [bs Hb]. exists bs. apply (encodeCanonical_emits chargedReadPinEntryV1 chargedReadPinEntryV1_type). exact Hb.
Qed.

Lemma same_pin_refl n : accepted chargedReadPinEntryV1 (pinned_val n) -> same_pin n n = Ok true.
Proof. intros [bs Hb]%pin_encodes. unfold same_pin. rewrite Hb. cbn. by rewrite bytes_eqb_refl. Qed.

Lemma entry_slot slot r now : n_storageSlot (chargedReadPinEntry slot r now) = slot.
Proof. unfold chargedReadPinEntry. destruct r; [by destruct (publiclyVisible _ _)|done]. Qed.

Lemma pin_value_typed a b d e i g h j entries l : has_type chargedReadPinCommittedV1_type (VObj [("version", VNum 1); ("operationId", VNum a); ("spendTag", VBytes b);
  ("requestCommitment", VBytes d); ("requestFingerprint", VBytes e); ("preparedAdmissionBytes", VBytes i); ("resultBindingBytes", VBytes g); ("receiptEpoch", VNum h);
  ("retryExpiresUnixMillis", VBig j); ("entries", VList (map pinned_val entries)); ("committedEpoch", VNum l)]) = true.
Proof.
  assert (Hf : forallb (has_type chargedReadPinEntryV1_type) (map pinned_val entries) = true) by (apply forallb_forall; by intros x (n & <- & _)%in_map_iff).
  unfold chargedReadPinCommittedV1_type. cbn -[chargedReadPinEntryV1_type]. by rewrite Hf.
Qed.

(** The entries that are made from the state match it. *)
Lemma pinned_match slots seen s : distinct_slots slots = true -> (forall slot, In slot slots -> existsb (bytes_eqb slot) seen = false) ->
  Forall (fun n => accepted chargedReadPinEntryV1 (pinned_val n)) (map (fun slot => chargedReadPinEntry slot (get_cell slot s) (epochFloor s)) slots) ->
  checkPinned seen (map (fun slot => chargedReadPinEntry slot (get_cell slot s) (epochFloor s)) slots) s = Ok tt.
Proof.
  revert seen. induction slots as [|slot slots IH]; intros seen Hd Hn Hf; [done|]. cbn [map] in *. apply Forall_cons in Hf as [Hf1 Hf]. cbn [distinct_slots] in Hd. b2p.
  cbn [checkPinned]. rewrite entry_slot, Hn by by left. cbn. rewrite (same_pin_refl _ Hf1). cbn. apply IH; [done| |done].
  intros slot' Hin. cbn. rewrite (Hn slot') by by right. rewrite orb_false_r. apply not_true_is_false. intros ->%bytes_eqb_eq.
  apply not_true_iff_false in H0. apply H0, existsb_exists. exists slot. by rewrite bytes_eqb_refl.
Qed.

Lemma finalization_bytes : CHARGED_READ_FINALIZATION_CONTROL_BYTES = 101.
Proof. reflexivity. Qed.

(** What the input of a charged read says. *)
Lemma chargedReadInput_ok operationId request requestCommitment admission resultBinding input : chargedReadInput c operationId request requestCommitment admission resultBinding = Ok input ->
  resultBindingBytes c (VBytes (g_resultBindingBytes input)) = Ok (Some (g_resultBindingBytes input)) /\
  (exists p, preparedAdmission admission = Ok (p, g_preparedAdmissionBytes input) /\ raw p.["spendTag"] = g_spendTag input /\ raw p.["requestCommitment"] = g_requestCommitment input) /\
  distinct_slots (g_slots input) = true /\
  g_fingerprint input = read_fingerprint (g_operationId input) (g_spendTag input) (g_requestCommitment input) (g_preparedAdmissionBytes input).
Proof.
  unfold chargedReadInput. intros Hq. apply bindR_ok in Hq as ([] & _ & Hq). cbv zeta in Hq. apply bindR_ok in Hq as (slots & _ & Hq).
  apply bindR_ok in Hq as ([] & _ & Hq). apply bindR_ok in Hq as (slots' & _ & Hq). apply bindR_ok in Hq as ([] & Hd & Hq).
  apply bindR_ok in Hq as (commitment & _ & Hq). apply bindR_ok in Hq as ([p bs] & Hp & Hq). apply bindR_ok in Hq as ([] & Hc & Hq).
  apply bindR_ok in Hq as (binding & Hb & Hq). destruct binding as [binding|]; [|done]. cbn [bindR] in Hq. injection Hq as <-.
  apply fail_if_ok, negb_false_iff in Hd. apply throw_if_ok, negb_false_iff, bytes_eqb_eq in Hc. cbn. split_and!; [by eapply (binding_again c _ (Some binding))| |done|done].
  by exists p.
Qed.

Lemma read_applies operationId request requestCommitment admission resultBinding input now tx s q s1 : sound s -> room s ->
  chargedReadInput c operationId request requestCommitment admission resultBinding = Ok input -> isZero (g_fingerprint input) = false ->
  chargedCellRead c input now tx s = (Ok (inr q), s1) -> s1 = s /\ applies c q s.
Proof.
  intros Hs Hroom (Hb & (p & Hp & Ht & Hr) & Hd & Hfp)%chargedReadInput_ok Hz Hq. unfold chargedCellRead in Hq. autorewrite with machine in Hq.
  destruct (get_spend (g_spendTag input) s) as [e|] eqn:Hg; [autorewrite with machine in Hq; repeat (case_match; try done); by autorewrite with machine in Hq|].
  destruct (get_commitment (g_requestCommitment input) s) as [[]|] eqn:Hcom; [done|]. autorewrite with machine in Hq.
  destruct (newChargedReadPin input now s) as [value0|] eqn:Hnew; [|done]. autorewrite with machine in Hq.
  destruct (checkChargedReadControlCapacity c value0 s) as [size|] eqn:Hcap; [|done]. unfold newChargedReadPin in Hnew. cbv zeta in Hnew.
  set (entries := map _ (g_slots input)) in Hnew. apply bindR_ok in Hnew as ([] & Hfirst & Hnew). apply throw_if_ok in Hfirst.
  destruct (prepared_again _ _ _ Hp) as (_ & Htype & Henc & _). rewrite (codec_roundtrip _ _ p _ Htype Henc) in Hnew. cbn [bindR] in Hnew.
  apply bindR_ok in Hnew as ([] & Hcost & Hnew). apply bindR_ok in Hnew as (millis & Hmillis & Hnew). apply bindR_ok in Hnew as ([] & Hlate & Hnew). injection Hnew as <-.
  apply u64_range in Hmillis. unfold checkChargedReadControlCapacity in Hcap. apply bindR_ok in Hcap as (payload & Hpay & Hcap). apply bindR_ok in Hcap as ([] & Hsize & _).
  apply throw_if_ok in Hsize. b2p. pose proof (encoded_accepted _ _ _ Hpay) as Hacc.
  assert (Hentries : Forall (accepted chargedReadPinEntryV1) (map pinned_val entries)).
  { apply (accepted_field "entries" chargedReadPinEntriesV1) in Hacc; [|in_fields]. by apply accepted_array in Hacc as (_ & _ & Hacc). }
  apply append_ok in Hq as Hq'. destruct Hq' as (_ & codec & payload' & Hcodec & Hpay' & Hqq). injection Hcodec as <-. rewrite Hpay in Hpay'. injection Hpay' as <-.
  eapply applies_value; [exact Hq|reflexivity|cbn [snd]; apply pin_value_typed|]. intros f Hf Hv. subst q. pose proof (for_payload _ _ Hf) as Hpl.
  applying Hf. match type of Hv with holds_value _ ?x => set (value := x) in * end.
  assert (Hcheck : checkReadPin c f value s = Ok (g_preparedAdmissionBytes input, g_resultBindingBytes input)).
  { unfold checkReadPin. rewrite (for_bucket _ _ Hf). cbn [q_virtualBucket Z.eqb negb integrity_if throw_if bindR].
    change (raw value.["spendTag"]) with (g_spendTag input). change (raw value.["requestCommitment"]) with (g_requestCommitment input). rewrite Hg, Hcom.
    change (num value.["committedEpoch"]) with (epochFloor s). change (num value.["receiptEpoch"]) with (epochFloor s).
    change (big value.["retryExpiresUnixMillis"]) with (millis + MAX_RESERVATION_MILLIS). change (raw value.["requestFingerprint"]) with (g_fingerprint input).
    rewrite Z.eqb_refl, Hz. replace (_ =? 0) with false by (symmetry; apply Z.eqb_neq; unfold MAX_RESERVATION_MILLIS; lia).
    cbn [has negb orb integrity_if throw_if bindR]. rewrite (bound_again _ _ _ value false Hp) by done. cbn [bindR].
    change (value.["resultBindingBytes"]) with (VBytes (g_resultBindingBytes input)). rewrite Hb. cbn [integrity bindR].
    change (elems value.["entries"]) with (map pinned_val entries). rewrite pins_again. change (num value.["operationId"]) with (g_operationId input).
    assert (Hm : checkPinned [] entries s = Ok tt) by (apply pinned_match; [done|done|rewrite List.Forall_map in Hentries; exact Hentries]). rewrite Hm.
    cbn [bindR]. rewrite Hfirst. cbn [integrity_if throw_if bindR]. rewrite Hfp, bytes_eqb_refl. cbn [negb throw_if bindR]. by rewrite Hcost. }
  assert (Hlen : blen (Wal.payload f) <= MAX_CHARGED_READ_PIN_CONTROL_BYTES) by (rewrite Hpl; exact H0). unfold MAX_CHARGED_READ_PIN_CONTROL_BYTES in Hlen.
  pose proof finalization_bytes as Hfin. passes Hcheck Hroom (read_pin_sound c f value s).
Qed.

(** ** Finalization and expiry *)

(** The size of the record of a finalization is one number. *)
Lemma finalized_size spendTag requestCommitment resultCommitment epoch payload : encodeCanonical chargedReadPinFinalizedV1 (VObj [("version", VNum 1);
    ("spendTag", VBytes spendTag); ("requestCommitment", VBytes requestCommitment); ("resultCommitment", VBytes resultCommitment); ("finalizedEpoch", VNum epoch)]) = Ok payload ->
  blen payload = 101.
Proof.
  intros He. set (v := VObj _) in *. assert (Hp : exists s, preencode chargedReadPinFinalizedV1 (St 0 0 []) v VUndef = Ok s).
  { unfold encodeCanonical in He. apply bindR_ok in He as (s & Hs & _). by exists s. }
  destruct Hp as [s Hs]. destruct (codec_total chargedReadPinFinalizedV1 chargedReadPinFinalizedV1_type _ _ Hs) as (bs & Hb & Hl). rewrite He in Hb. injection Hb as <-. rewrite Hl.
  clear He Hl. subst v. unfold chargedReadPinFinalizedV1 in Hs. cbn [preencode struct struct_fields] in Hs.
  apply bindR_ok in Hs as ([] & _ & Hs). apply bindR_ok in Hs as (s1 & H1 & Hs). apply bindR_ok in Hs as ([] & _ & Hs). injection Hs as <-.
  cbn in H1. oks. cbn in *. oks. reflexivity.
Qed.

Lemma finalize_applies spendTag requestCommitment resultCommitment slots now s q s1 : sound s -> room s -> isZero resultCommitment = false ->
  finalizeChargedCellRead spendTag requestCommitment resultCommitment slots now s = (Ok (inr q), s1) -> s1 = s /\ applies c q s.
Proof.
  intros Hs Hroom Hz Hq. unfold finalizeChargedCellRead in Hq. autorewrite with machine in Hq. destruct (get_spend spendTag s) as [e|] eqn:Hg; [|done].
  destruct (e_detail e) as [| |p] eqn:Hd; try done. autorewrite with machine in Hq. destruct (_ || _) eqn:E1 in Hq; [done|]. destruct (p_entries p) as [entries|] eqn:He; [|done].
  autorewrite with machine in Hq. destruct (_ || _) eqn:E2 in Hq; [done|]. destruct (bool_decide (e_status e = ReadFinalized)) eqn:E3.
  { autorewrite with machine in Hq. repeat (case_match; try done). autorewrite with machine in Hq. by case_match. }
  autorewrite with machine in Hq. destruct (u64 now) as [n|]; [|done]. autorewrite with machine in Hq. destruct (_ <=? n); [done|].
  destruct (chargedReadSourcesMatch entries true s) as [matching|] eqn:Hm; [|done]. autorewrite with machine in Hq. destruct matching; [|done]. cbn [negb] in Hq.
  b2p. match goal with E : bytes_eqb (e_requestCommitment e) _ = true |- _ => apply bytes_eqb_eq in E; rename E into Hrc end.
  match goal with E : _ || false = true |- _ => rewrite orb_false_r in E; apply bool_decide_eq_true in E; rename E into Hst end.
  eapply applies_value; [exact Hq|reflexivity|reflexivity|]. intros f Hf Hv. apply append_ok in Hq as (_ & codec & payload & Hcodec & Hpay & ->). injection Hcodec as <-.
  apply finalized_size in Hpay. pose proof (for_payload _ _ Hf) as Hpl. cbn [q_payload] in Hpl.
  applying Hf. match type of Hv with holds_value _ ?x => set (value := x) in * end.
  assert (Hcheck : checkReadPinFinalized f value s = Ok (e, p)).
  { unfold checkReadPinFinalized. rewrite (for_bucket _ _ Hf). change (num value.["finalizedEpoch"]) with (epochFloor s). cbn [q_virtualBucket]. rewrite !Z.eqb_refl. cbn [negb orb integrity_if throw_if bindR].
    unfold pin_for. change (raw value.["spendTag"]) with spendTag. change (raw value.["requestCommitment"]) with requestCommitment. change (raw value.["resultCommitment"]) with resultCommitment.
    rewrite Hg, Hd, Hst, Hrc, (for_transaction _ _ Hf). cbn [q_transactionId]. rewrite !bytes_eqb_refl. rewrite (bool_decide_eq_true_2 (ReadPinned ∈ [ReadPinned])) by (by left). cbn [negb orb integrity_if throw_if bindR].
    rewrite Hz, Hpl, Hpay, finalization_bytes, He. cbn [Z.eqb Pos.eqb negb orb integrity_if throw_if bindR]. by rewrite Hm. }
  passes Hcheck Hroom (finalized_sound f value s).
Qed.

Lemma expire_applies candidate now s q s1 : sound s -> room s -> expirePin candidate now s = (Ok (inr q), s1) -> s1 = s /\ applies c q s.
Proof.
  intros Hs Hroom Hq. unfold expirePin in Hq. autorewrite with machine in Hq. destruct (get_spend _ s) as [e|] eqn:Hg; [|done].
  destruct (e_detail e) as [| |p] eqn:Hd; try done. destruct (_ || _) eqn:E1 in Hq; [done|]. b2p.
  destruct (spend_at s (proj1 Hs) _ _ Hg) as (Htag & Hco & _). unfold coherent in Hco. rewrite Hd in Hco.
  eapply applies_value; [exact Hq|reflexivity|reflexivity|]. intros f Hf Hv. apply append_ok in Hq as (_ & codec & payload & _ & _ & ->).
  applying Hf. match type of Hv with holds_value _ ?x => set (value := x) in * end.
  assert (Hcheck : checkReadPinExpired f value s = Ok (e, p)).
  { unfold checkReadPinExpired. rewrite (for_bucket _ _ Hf). change (num value.["terminalEpoch"]) with (epochFloor s). cbn [q_virtualBucket]. rewrite !Z.eqb_refl. cbn [negb orb integrity_if throw_if bindR].
    unfold pin_for. change (raw value.["spendTag"]) with (e_spendTag e). change (raw value.["requestCommitment"]) with (e_requestCommitment e).
    rewrite Htag, Hg, Hd, (for_transaction _ _ Hf). cbn [q_transactionId]. rewrite !bytes_eqb_refl, bool_decide_eq_true_2.
    2:{ rewrite !elem_of_cons. apply orb_prop in H0 as [E|E]; apply bool_decide_eq_true in E; tauto. }
    cbn. rewrite Z.eqb_refl. replace (now <? _) with false by (symmetry; apply Z.ltb_ge; lia). done. }
  passes Hcheck Hroom (expired_sound f value s).
Qed.

(** ** The clock, compaction and integrity *)

Lemma confirm_applies confirmedEpoch tx s q s1 : room s -> epochFloor s <= confirmedEpoch -> confirmClock confirmedEpoch tx s = (Ok (inr q), s1) -> s1 = s /\ applies c q s.
Proof.
  intros Hroom Hle Hq. unfold confirmClock in Hq. autorewrite with machine in Hq. eapply applies_value; [exact Hq|reflexivity|reflexivity|].
  intros f Hf _. apply append_ok in Hq as (_ & codec & payload & _ & _ & ->). applying Hf. eexists. split; [apply (checked_run _ _ _ tt)|apply Hroom].
  unfold checkFloor. cbn. rewrite Z.eqb_refl. replace (confirmedEpoch <? epochFloor s) with false by (symmetry; apply Z.ltb_ge; lia). done.
Qed.

(** A frame that takes away from the counters. *)
Lemma less_accounted s s' : sound s' -> room s -> atomicStaging s' = atomicStaging s -> stagingByProfile (books s') = stagingByProfile (books s) ->
  storedBytes (books s') <= storedBytes (books s) -> stagingBytes (books s') <= stagingBytes (books s) -> controlBytes (books s') <= controlBytes (books s) ->
  tombstoneBytes (books s') <= tombstoneBytes (books s) -> reservedCells (books s') <= reservedCells (books s) -> assertAccounting s' = Ok tt.
Proof.
  intros Hs Hroom Hat Hsh B1 B2 B3 B4 B5. pose proof (shares_valid s Hroom) as Hv. pose proof Hroom as (_ & R1 & R2 & R3 & R4 & R5 & _). unfold ROOM in *.
  apply (accounting_holds s); [done..|lia|lia|lia|lia|lia|]. by rewrite Hsh.
Qed.

Lemma retired_now s epoch : retired (epochFloor s) epoch = true -> integrity_if (negb (retired (epochFloor s) epoch)) = Ok tt.
Proof. by intros ->. Qed.

Lemma in_firstn {T} n (l : list T) x : In x (take n l) -> In x l.
Proof. intros Hin. rewrite <- (take_drop n l). apply in_app_iff. by left. Qed.

Lemma compact_applies limit candidate tx s q s1 : sound s -> room s -> In candidate (compact_candidates limit s) -> compact candidate tx s = (Ok (inr q), s1) -> s1 = s /\ applies c q s.
Proof.
  intros Hs Hroom Hin Hq. unfold compact in Hq. autorewrite with machine in Hq. eapply applies_value; [exact Hq|reflexivity|reflexivity|].
  intros f Hf Hv. apply append_ok in Hq as (_ & codec & payload & _ & _ & ->). applying Hf. match type of Hv with holds_value _ ?x => set (value := x) in * end.
  assert (Hrun : exists s', applyCompact f value s = (Ok tt, s') /\ atomicStaging s' = atomicStaging s /\ stagingByProfile (books s') = stagingByProfile (books s) /\
    storedBytes (books s') <= storedBytes (books s) /\ stagingBytes (books s') <= stagingBytes (books s) /\ controlBytes (books s') <= controlBytes (books s) /\
    tombstoneBytes (books s') <= tombstoneBytes (books s) /\ reservedCells (books s') <= reservedCells (books s)).
  { unfold compact_candidates in Hin. cbv zeta in Hin. apply in_firstn in Hin. rewrite !in_app_iff, !in_map_iff in Hin.
    unfold applyCompact. autorewrite with machine. change (num value.["compactedEpoch"]) with (epochFloor s). rewrite Z.eqb_refl. cbn [negb integrity_if throw_if].
    change (num value.["entryKind"]) with (fst candidate). change (raw value.["key"]) with (snd candidate).
    destruct Hin as [([k r] & <- & [Hin Hr]%filter_In)|[([k e] & <- & [Hin Hr]%filter_In)|([k d] & <- & [Hin Hr]%filter_In)]]; cbn [fst snd] in *.
    - apply (in_get _ bytes_eqb_eq) in Hin; [|apply (proj1 Hs)]. fold (get_cell k s) in Hin. rewrite Hin. b2p. apply bool_decide_eq_true in H0. rewrite H1. cbn [negb]. rewrite orb_false_r.
      rewrite bool_decide_eq_false_2 by tauto. autorewrite with machine. eexists. split; [reflexivity|]. fields. cbn. unfold TOMBSTONE_RECORD_BYTES. split_and!; try done; try lia.
    - apply (in_get _ bytes_eqb_eq) in Hin; [|apply (proj1 Hs)]. fold (get_spend k s) in Hin. rewrite Hin, Hr.
      destruct (spend_at s (proj1 Hs) _ _ Hin) as (_ & Hco%control_positive & _). autorewrite with machine. eexists. split; [reflexivity|]. fields. cbn. unfold TOMBSTONE_RECORD_BYTES. split_and!; try done; try lia.
    - apply (in_get _ bytes_eqb_eq) in Hin; [|apply (proj1 Hs)]. fold (get_result k s) in Hin. rewrite Hin, Hr.
      autorewrite with machine. eexists. split; [reflexivity|]. split_and!; done. }
  destruct Hrun as (s' & Hrun & Hrest). exists s'. split; [exact Hrun|]. pose proof (compact_sound _ _ _ _ Hs Hrun) as Hs'. apply (less_accounted s); tauto.
Qed.
Lemma integrity_applies failures tx s q s1 : sound s -> room s -> recordIntegrityFailures failures tx s = (Ok (inr q), s1) ->
  (s1 = s \/ s1 = set_readOnly (Some "RECOVERY_GAP_READ_ONLY") (integrityEvidence s) s) /\ applies c q s1.
Proof.
  intros [Hm Hb] Hroom Hq. unfold recordIntegrityFailures in Hq. autorewrite with machine in Hq. destruct (_ && _); [done|]. autorewrite with machine in Hq.
  destruct failures as [|first rest]; [done|]. set (s0 := set_readOnly _ _ s) in *.
  assert (Hs0 : sound s0) by (split; [by apply (maps_same s)|by destruct Hb]). assert (Hroom0 : room s0) by exact Hroom.
  pose proof Hq as Hq'. apply append_ok in Hq' as (-> & _). split; [by right|]. apply (proj2 (A := s0 = s0)).
  eapply applies_value; [exact Hq|reflexivity|reflexivity|]. intros f Hf _. apply append_ok in Hq as (_ & codec & payload & _ & _ & ->). applying Hf.
  eexists. split; [reflexivity|]. apply Hroom0.
Qed.
End WithPlatform.
End CellReads.
