(* ===== verification/CellRecovery.v ===== *)
(** * The cell store: what a restart keeps

    [durable] is the part of the state that the log determines: all of it but the
    attempts in flight, the queue of expiries, the reason to be read only with its
    evidence, and what is staged. A record does the same to the durable part
    whatever the rest is, so replaying the log gives the durable part back. *)

From Stdlib Require Import ZArith Lia Bool List String Ascii.
From Stdlib Require Import Strings.Byte.
From stdpp Require Import base tactics list strings.
From S2P Require Import Prelude JsMap Codec CodecLaws Authority Hashes SchemaKit ResultBinding HashLaws Accepted WriteAheadLog CellRecords ExpiryHeap CellStore CellApply CellBooks CellLife CellSpends CellOperations.

Module CellRecovery.
Import Binding CellRecord Cells Apply CellBooks CellLife CellSpends CellOps.

Section WithPlatform.
Context `{Platform}.

(** ** The durable part *)

Definition landed (i : ingress) : ingress := with_reservation (fly false <$> i_reservation i) i.
Definition grounded (e : spend) : spend :=
  match e_detail e with Ingress i => with_status (e_status e) (e_terminalEpoch e) (Ingress (landed i)) e | _ => e end.

Definition no_staging : staging := {| a_bytes := 0; a_byProfile := []; a_items := 0 |}.
Definition durable (s : engine) : engine :=
  set_staging no_staging (set_readOnly None [] (set_heap [] (set_spends (map_values grounded (spends s)) s))).

Lemma grounded_twice e : grounded (grounded e) = grounded e.
Proof.
  destruct e as [? ? ? ? ? ? ? ? ? [i| |]]; try done. destruct i. unfold grounded, landed. cbn.
  by match goal with r : option reservation |- _ => destruct r end.
Qed.

Lemma durable_spend k s : get_spend k (durable s) = grounded <$> get_spend k s.
Proof. apply values_get. Qed.

Lemma has_fmap {A B} (g : A -> B) (o : option A) : has (g <$> o) = has o.
Proof. by destruct o. Qed.

Lemma values_twice (m : list (bytes * spend)) : map_values grounded (map_values grounded m) = map_values grounded m.
Proof. unfold map_values. rewrite map_map. apply map_ext. intros [k e]. cbn. by rewrite grounded_twice. Qed.

Lemma durable_ext s t : map_values grounded (spends s) = map_values grounded (spends t) -> commitments s = commitments t -> requestResults s = requestResults t ->
  cells s = cells t -> books s = books t -> epochFloor s = epochFloor t -> compactionWalHighWater s = compactionWalHighWater t -> clockUnsafe s = clockUnsafe t ->
  durable s = durable t.
Proof. destruct s, t. cbn -[map_values]. intros E1 -> -> -> -> -> -> ->. unfold durable, set_staging, set_readOnly, set_heap, set_spends. cbn -[map_values]. by rewrite E1. Qed.

Lemma durable_twice s : durable (durable s) = durable s.
Proof. by apply durable_ext; [apply values_twice|..]. Qed.

(** An entry with another detail is the same, in flight or not. *)
Lemma grounded_over st t d e : with_status st t d (grounded e) = with_status st t d e.
Proof. unfold grounded. by destruct (e_detail e). Qed.
Lemma grounded_status e : e_status (grounded e) = e_status e.
Proof. unfold grounded. by destruct (e_detail e). Qed.
Lemma grounded_terminal e : e_terminalEpoch (grounded e) = e_terminalEpoch e.
Proof. unfold grounded. by destruct (e_detail e). Qed.
Lemma grounded_committed e : e_committedEpoch (grounded e) = e_committedEpoch e.
Proof. unfold grounded. by destruct (e_detail e). Qed.
Lemma grounded_commitment e : e_requestCommitment (grounded e) = e_requestCommitment e.
Proof. unfold grounded. by destruct (e_detail e). Qed.
Lemma grounded_fingerprint e : e_requestFingerprint (grounded e) = e_requestFingerprint e.
Proof. unfold grounded. by destruct (e_detail e). Qed.
Lemma grounded_transaction e : e_transactionId (grounded e) = e_transactionId e.
Proof. unfold grounded. by destruct (e_detail e). Qed.
Lemma grounded_tag e : e_spendTag (grounded e) = e_spendTag e.
Proof. unfold grounded. by destruct (e_detail e). Qed.
Lemma grounded_control e : control_of (grounded e) = control_of e.
Proof. unfold grounded, control_of. by destruct (e_detail e) eqn:E; cbn; rewrite ?E. Qed.
Lemma grounded_age e : ageEpoch (grounded e) = ageEpoch e.
Proof. unfold ageEpoch. by rewrite grounded_terminal, grounded_committed. Qed.

(** ** What does not look at the rest *)

Definition insensitive {A} (m : M engine A) : Prop :=
  forall s, fst (m (durable s)) = fst (m s) /\ durable (snd (m (durable s))) = durable (snd (m s)).

Lemma checked_insensitive {T} (g : T -> T) check change :
  (forall s, check (durable s) = (let! t := check s in Ok (g t))) ->
  (forall t s, durable (change (g t) (durable s)) = durable (change t s)) -> insensitive (checked check change).
Proof. intros Hc Hg s. unfold checked. rewrite Hc. destruct (check s) as [t|e]; cbn; [by rewrite Hg|by rewrite durable_twice]. Qed.

Lemma checked_insensitive_id {T} (check : engine -> result T) change :
  (forall s, check (durable s) = check s) -> (forall t s, durable (change t (durable s)) = durable (change t s)) -> insensitive (checked check change).
Proof. intros Hc Hg. apply (checked_insensitive (fun t => t)); [|done]. intros s. rewrite Hc. by destruct (check s). Qed.

Ltac same_change := intros; apply durable_ext; try reflexivity; try (fields; cbn -[map_values map_delete map_set]; rewrite ?values_set, ?values_delete, ?values_twice; try done).

Section Frames.
Context (c : config) (f : Wal.frame).
Implicit Types (value : val) (s : engine).

Definition attempt_grounded (t : spend * ingress * reservation) : spend * ingress * reservation := let '(e, i, r) := t in (grounded e, landed i, fly false r).
Definition pin_grounded (t : spend * pin) : spend * pin := (grounded (fst t), snd t).

Lemma reservationFor_durable value s : reservationFor f value (durable s) = (let! t := reservationFor f value s in Ok (attempt_grounded t)).
Proof.
  unfold reservationFor. rewrite durable_spend. destruct (get_spend _ s) as [e|]; [|done]. cbn [fmap option_fmap option_map].
  rewrite grounded_status, grounded_commitment, grounded_transaction. destruct (integrity_if _) as [[]|]; [|done]. cbn [bindR].
  unfold grounded. destruct (e_detail e) as [i|r|p] eqn:E; cbn; rewrite ?E; [|done..]. destruct (i_reservation i) as [r|] eqn:Er; cbn; [unfold grounded; by rewrite E|done].
Qed.

Lemma pin_for_durable value live s : pin_for f value live (durable s) = (let! t := pin_for f value live s in Ok (pin_grounded t)).
Proof.
  unfold pin_for. rewrite durable_spend. destruct (get_spend _ s) as [e|]; [|done]. cbn [fmap option_fmap option_map].
  rewrite grounded_status, grounded_commitment, grounded_transaction. destruct (integrity_if _) as [[]|]; [|done]. cbn [bindR].
  unfold pin_grounded, grounded. destruct (e_detail e) as [i|r|p] eqn:E; cbn; rewrite ?E; done.
Qed.

Lemma reservation_insensitive value : insensitive (applyReservation c f value).
Proof.
  apply checked_insensitive_id; [|same_change].
  intros s. unfold checkReservation. rewrite durable_spend, has_fmap. reflexivity.
Qed.

Lemma attempt_insensitive value : insensitive (applyAttempt f value).
Proof.
  apply (checked_insensitive attempt_grounded).
  - intros s. unfold checkAttempt. rewrite reservationFor_durable. destruct (reservationFor f value s) as [[[e i] r]|]; [|done]. cbn.
    destruct (verifyBucket _ _) as [[]|]; [|done]. cbn. by destruct (integrity_if _) as [[]|].
  - intros [[e i] r] s. unfold attempt_grounded. rewrite grounded_over, grounded_status, grounded_terminal. same_change.
Qed.

Lemma put_insensitive value : insensitive (applyPut c f value).
Proof.
  apply (checked_insensitive (fun t => (attempt_grounded (fst t), snd t))).
  - intros s. unfold checkPut. rewrite reservationFor_durable. destruct (reservationFor f value s) as [[[e i] r]|]; [|done]. cbn -[get_cell lease_epochs].
    rewrite grounded_fingerprint, grounded_commitment. change (get_cell (raw value.["storageSlot"]) (durable s)) with (get_cell (raw value.["storageSlot"]) s).
    destruct (verifyBucket _ _) as [[]|]; [cbn [bindR]|done]. do 2 (match goal with |- (bindR (integrity_if ?b) _) = _ => destruct (integrity_if b) as [[]|]; [cbn [bindR]|done]
      | |- (bindR (integrity ?b) _) = _ => destruct (integrity b); [cbn [bindR]|done] end). do 2 (match goal with |- (bindR (integrity_if ?b) _) = _ => destruct (integrity_if b) as [[]|]; [cbn [bindR]|done] end). done.
  - intros [[[e i] r] binding] s. unfold attempt_grounded. cbn [fst snd]. rewrite grounded_over, grounded_tag, grounded_terminal. same_change.
Qed.

Lemma atomic_insensitive value : insensitive (applyAtomicPut c f value).
Proof.
  apply checked_insensitive_id; [|same_change].
  intros s. unfold checkAtomicPut. rewrite durable_spend, has_fmap. reflexivity.
Qed.

Lemma terminal_insensitive value : insensitive (applyTerminal f value).
Proof.
  apply (checked_insensitive attempt_grounded).
  - intros s. unfold checkTerminal. rewrite reservationFor_durable. destruct (reservationFor f value s) as [[[e i] r]|]; [|done]. cbn.
    rewrite grounded_fingerprint. destruct (verifyBucket _ _) as [[]|]; [|done]. cbn. by destruct (integrity_if _) as [[]|].
  - intros [[e i] r] s. unfold attempt_grounded. rewrite grounded_over. same_change.
Qed.

Lemma renew_insensitive value : insensitive (applyRenew c f value).
Proof.
  apply checked_insensitive_id; [|intros [[record binding] admission] s; same_change].
  intros s. unfold checkRenew. rewrite durable_spend, has_fmap. reflexivity.
Qed.

Lemma bindR_ext {A B} (m : result A) (g h : A -> result B) : (forall x, g x = h x) -> bindR m g = bindR m h.
Proof. intros Hgh. destruct m; [apply Hgh|done]. Qed.

Lemma pinned_durable slots entries s : checkPinned slots entries (durable s) = checkPinned slots entries s.
Proof.
  revert slots. induction entries as [|n entries IH]; intros slots; [done|]. cbn [checkPinned]. apply bindR_ext. intros []. apply bindR_ext. intros same. apply bindR_ext. intros []. apply IH.
Qed.

Lemma read_pin_insensitive value : insensitive (applyReadPin c f value).
Proof.
  apply checked_insensitive_id; [|same_change].
  intros s. unfold checkReadPin. rewrite durable_spend, has_fmap. apply bindR_ext. intros []. apply bindR_ext. intros []. apply bindR_ext. intros [[prepared admission] binding].
  cbv zeta. by rewrite pinned_durable.
Qed.

Lemma finalized_insensitive value : insensitive (applyReadPinFinalized f value).
Proof.
  apply (checked_insensitive pin_grounded).
  - intros s. unfold checkReadPinFinalized. rewrite pin_for_durable. change (epochFloor (durable s)) with (epochFloor s).
    assert (Hm : forall entries, chargedReadSourcesMatch entries true (durable s) = chargedReadSourcesMatch entries true s) by
      (induction entries as [|n entries IH]; [done|]; cbn [chargedReadSourcesMatch]; by rewrite ?IH).
    destruct (integrity_if _) as [[]|]; [cbn|done]. destruct (pin_for _ _ _ s) as [[e p]|]; [cbn|done]. destruct (integrity_if _) as [[]|]; [cbn|done].
    destruct (p_entries p) as [entries|]; [|done]. rewrite Hm. destruct (chargedReadSourcesMatch _ _ s) as [b|]; [cbn|done]. by destruct (integrity_if _) as [[]|].
  - intros [e p] s. unfold pin_grounded. cbn [fst snd]. rewrite grounded_over, grounded_terminal. same_change.
Qed.

Lemma expired_insensitive value : insensitive (applyReadPinExpired f value).
Proof.
  apply (checked_insensitive pin_grounded).
  - intros s. unfold checkReadPinExpired. rewrite pin_for_durable. change (epochFloor (durable s)) with (epochFloor s).
    destruct (integrity_if _) as [[]|]; [cbn|done]. destruct (pin_for _ _ _ s) as [[e p]|]; [cbn|done]. by destruct (integrity_if _) as [[]|].
  - intros [e p] s. unfold pin_grounded. cbn [fst snd]. rewrite grounded_over. same_change.
Qed.

Lemma compact_insensitive value : insensitive (applyCompact f value).
Proof.
  intros s. unfold applyCompact. autorewrite with machine. change (epochFloor (durable s)) with (epochFloor s).
  destruct (integrity_if _) as [[]|]; [|split; [done|same_change]].
  autorewrite with machine. destruct (_ =? COMPACT_KIND_CELL); [|destruct (_ =? COMPACT_KIND_SPEND)].
  - change (get_cell (raw value.["key"]) (durable s)) with (get_cell (raw value.["key"]) s). destruct (get_cell _ s) as [r|]; autorewrite with machine; [|split; [done|same_change]].
    destruct (integrity_if _) as [[]|]; autorewrite with machine; (split; [done|same_change]).
  - rewrite durable_spend. destruct (get_spend _ s) as [e|]; cbn [fmap option_fmap option_map]; autorewrite with machine; [|split; [done|same_change]].
    rewrite grounded_age. destruct (integrity_if _) as [[]|]; autorewrite with machine; (split; [done|]); rewrite ?grounded_control, ?grounded_commitment; same_change.
  - change (get_result (raw value.["key"]) (durable s)) with (get_result (raw value.["key"]) s). destruct (get_result _ s) as [d|]; autorewrite with machine; [|split; [done|same_change]].
    destruct (integrity_if _) as [[]|]; autorewrite with machine; (split; [done|same_change]).
Qed.

Lemma value_insensitive value recovering : insensitive (applyValue c f value recovering).
Proof.
  unfold applyValue.
  destruct (_ =? INGRESS_RESERVED); [apply reservation_insensitive|]. destruct (_ =? ATTEMPT_CONSUMED); [apply attempt_insensitive|].
  destruct (_ =? PUT_COMMITTED); [apply put_insensitive|]. destruct (_ =? PUT_TERMINAL); [apply terminal_insensitive|].
  destruct (_ =? RENEW_COMMITTED); [apply renew_insensitive|].
  destruct (_ =? DROP_COMMITTED); [apply checked_insensitive_id; [done|intros [x b] s; same_change]|].
  destruct (_ =? POLICY_COMMITTED); [apply checked_insensitive_id; [done|same_change]|].
  destruct (_ =? GC_COMMITTED); [apply checked_insensitive_id; [done|same_change]|].
  destruct (_ =? FLOOR_ADVANCE); [apply checked_insensitive_id; [done|same_change]|].
  destruct (_ =? CLOCK_UNSAFE); [apply checked_insensitive_id; [done|same_change]|].
  destruct (_ =? CLOCK_CONFIRM); [apply checked_insensitive_id; [done|same_change]|].
  destruct (_ =? COMPACT); [apply compact_insensitive|].
  destruct (_ =? INTEGRITY_FAILED); [intros s; split; [done|same_change]|].
  destruct (_ =? READ_PIN_COMMITTED); [apply read_pin_insensitive|]. destruct (_ =? READ_PIN_FINALIZED); [apply finalized_insensitive|].
  destruct (_ =? READ_PIN_EXPIRED); [apply expired_insensitive|]. destruct (_ =? PUT_ATOMIC_COMMITTED); [apply atomic_insensitive|].
  intros s. split; [done|same_change].
Qed.
(** Whether the store is being opened shows only in the evidence. *)
Lemma value_recovering value r r' s : fst (applyValue c f value r' s) = fst (applyValue c f value r s) /\
  durable (snd (applyValue c f value r' s)) = durable (snd (applyValue c f value r s)).
Proof.
  unfold applyValue. repeat match goal with
  | |- context [if ?b then applyIntegrity _ _ else _] => destruct b; [split; [done|same_change]|]
  | |- context [if ?b then _ else _] => destruct b; [done|] end. done.
Qed.

(** Records leave what is staged alone. *)
Lemma checked_staging {T} (check : engine -> result T) change s s' : (forall t s, atomicStaging (change t s) = atomicStaging s) ->
  checked check change s = (Ok tt, s') -> atomicStaging s' = atomicStaging s.
Proof. intros Hsame (t & _ & ->)%checked_ok. apply Hsame. Qed.

(** The frames that only check and change *)
Ltac plain_frames := repeat match goal with
  | |- (if ?b then applyCompact _ _ else _) _ = _ -> _ => fail 1
  | |- (if ?b then applyIntegrity _ _ else _) _ = _ -> _ => fail 1
  | |- (if ?b then _ else _) _ = _ -> _ => destruct b; [apply checked_staging; let t := fresh in intros t; repeat match goal with x : (_ * _)%type |- _ => destruct x end; reflexivity|]
  end.

Lemma value_staging value recovering s s' : applyValue c f value recovering s = (Ok tt, s') -> atomicStaging s' = atomicStaging s.
Proof.
  unfold applyValue.
  plain_frames.
  destruct (_ =? COMPACT).
  { intros Hq. unfold applyCompact in Hq. autorewrite with machine in Hq. destruct (integrity_if _) as [[]|]; [|done].
    cbv zeta in Hq. destruct (_ =? COMPACT_KIND_CELL); [destruct (get_cell _ s)|destruct (_ =? COMPACT_KIND_SPEND); [destruct (get_spend _ s)|destruct (get_result _ s)]]; try done;
      autorewrite with machine in Hq; (destruct (integrity_if _) as [[]|]; [|done]); by injection Hq as <-. }
  destruct (_ =? INTEGRITY_FAILED); [by intros [= <-]|].
  plain_frames. done.
Qed.

Lemma accounting_durable s : assertAccounting s = Ok tt -> assertAccounting (durable s) = Ok tt.
Proof. unfold assertAccounting. intros Hq. oks. unfold integrity_if in *. cbn -[forallb] in *. by rewrite H0, H1. Qed.

Lemma accounting_alike s t : durable s = durable t -> atomicStaging t = no_staging -> assertAccounting s = Ok tt -> assertAccounting t = Ok tt.
Proof.
  intros Hd Ht Ha%accounting_durable. rewrite Hd in Ha. unfold assertAccounting in *. rewrite Ht. exact Ha.
Qed.

(** A record that applies to a state applies to any other with the same durable
    part, with the same effect on it. *)
Lemma value_alike value recovering recovering' s t s' : durable s = durable t -> applyValue c f value recovering s = (Ok tt, s') ->
  exists t', applyValue c f value recovering' t = (Ok tt, t') /\ durable s' = durable t'.
Proof.
  intros Hd Hv. destruct (value_recovering value recovering recovering' s) as [E1 E2]. rewrite Hv in E1, E2. cbn in E1, E2.
  destruct (value_insensitive value recovering' s) as [F1 F2], (value_insensitive value recovering' t) as [G1 G2]. rewrite Hd in F1, F2. rewrite G1, E1 in F1. rewrite G2, E2 in F2.
  destruct (applyValue c f value recovering' t) as [r t1]. cbn in F1, F2. subst r. by exists t1.
Qed.

Lemma frame_alike recovering recovering' s t s' : durable s = durable t -> atomicStaging t = no_staging -> applyFrame c f recovering s = (Ok tt, s') ->
  exists t', applyFrame c f recovering' t = (Ok tt, t') /\ durable s' = durable t' /\ atomicStaging t' = no_staging.
Proof.
  intros Hd Ht Hq. unfold applyFrame in *. destruct (codec_of _) as [codec|]; [|done]. autorewrite with machine in *. destruct (integrity _) as [value|]; [|done].
  apply bindM_ok in Hq as ([] & s1 & Hv & Hq). injection Hq as Ha <-. destruct (value_alike value recovering recovering' s t s1 Hd Hv) as (t1 & Et & Hd1).
  assert (Hst : atomicStaging t1 = no_staging) by (by rewrite (value_staging _ _ _ _ Et)).
  exists t1. split; [|done]. rewrite (bind_run _ _ _ _ _ Et). cbn. f_equal. by apply (accounting_alike s1).
Qed.

End Frames.

(** ** What is sound stays sound *)

Lemma coherent_grounded e : coherent (grounded e) <-> coherent e.
Proof.
  unfold coherent, grounded. destruct (e_detail e) as [i|r|p] eqn:E; rewrite ?E; [|done..]. cbn.
  assert (Hr : (exists r, (fly false <$> i_reservation i) = Some r) <-> exists r, i_reservation i = Some r) by (destruct (i_reservation i); cbn; naive_solver).
  destruct (e_status e); try done. by rewrite Hr.
Qed.

Lemma reserves_grounded e : reserves (grounded e) = landed <$> reserves e.
Proof. unfold reserves. rewrite grounded_status. unfold grounded. by destruct (e_status e), (e_detail e) eqn:E; cbn; rewrite ?E. Qed.

Lemma sound_durable s : sound (durable s) <-> sound s.
Proof.
  assert (Hspend : forall k e, get_spend k s = Some e -> get_spend k (durable s) = Some (grounded e)) by (intros k e He; by rewrite durable_spend, He).
  assert (Hsum : forall g g', (forall k e, g k (grounded e) = g' k e) -> sum_of g (spends (durable s)) = sum_of g' (spends s)).
  { intros g g' Hg. change (spends (durable s)) with (map_values grounded (spends s)). rewrite sum_values. induction (spends s) as [|[k e] m IH]; [done|]. rewrite !sum_cons, IH. by rewrite Hg. }
  assert (H1 : sum_of staged (spends (durable s)) = sum_of staged (spends s)) by (apply Hsum; intros; unfold staged; rewrite reserves_grounded; by destruct (reserves e)).
  assert (H2 : forall p, sum_of (staged_of p) (spends (durable s)) = sum_of (staged_of p) (spends s))
    by (intros p; apply Hsum; intros; unfold staged_of; rewrite reserves_grounded; by destruct (reserves e)).
  assert (H3 : sum_of reserved (spends (durable s)) = sum_of reserved (spends s)) by (apply Hsum; intros; unfold reserved; rewrite reserves_grounded; by destruct (reserves e)).
  assert (H4 : sum_of control (spends (durable s)) = sum_of control (spends s)) by (apply Hsum; intros; apply grounded_control).
  split; intros [[K1 K2 K3 M1 M2 M3 M4] [B1 B2 B3 B4 B5 B6]].
  - split; split; try done; rewrite <- ?H1, <- ?H3, <- ?H4; try done; [| | |].
    + change (spends (durable s)) with (map_values grounded (spends s)) in K1. by rewrite values_keys in K1.
    + intros k e He. apply Hspend, M1 in He as (Ht & Hc & Hg). apply (proj1 (coherent_grounded e)) in Hc. rewrite grounded_tag in Ht. rewrite grounded_commitment, grounded_fingerprint in Hg. split_and!; [exact Ht|exact Hc|exact Hg].
    + intros q k fp Hq. destruct (M2 q k fp Hq) as (e & He & Hc & Hf). rewrite durable_spend in He. destruct (get_spend k s) as [e0|]; [|done]. injection He as <-.
      rewrite grounded_commitment in Hc. rewrite grounded_fingerprint in Hf. by exists e0.
    + intros p. rewrite <- H2. apply B6.
  - split; split; try done; rewrite ?H1, ?H3, ?H4; try done; [| | |].
    + change (spends (durable s)) with (map_values grounded (spends s)). by rewrite values_keys.
    + intros k e He. rewrite durable_spend in He. destruct (get_spend k s) as [e0|] eqn:Hg; [|done]. injection He as <-. destruct (M1 k e0 Hg) as (Ht & Hc & Hm).
      rewrite grounded_tag, coherent_grounded, grounded_commitment, grounded_fingerprint. split_and!; [exact Ht|exact Hc|exact Hm].
    + intros q k fp Hq. destruct (M2 q k fp Hq) as (e & He%Hspend & Hc & Hf). exists (grounded e). by rewrite grounded_commitment, grounded_fingerprint.
    + intros p. rewrite H2. apply B6.
Qed.

Lemma bound_grounded c e : bound_by c (grounded e) <-> bound_by c e.
Proof. unfold bound_by, grounded. by destruct (e_detail e) eqn:E; cbn; rewrite ?E. Qed.

Lemma bound_alike c s t : durable s = durable t -> all_bound c s -> all_bound c t.
Proof.
  intros Hd Hb k e He. assert (Hg : get_spend k (durable s) = Some (grounded e)) by (by rewrite Hd, durable_spend, He). rewrite durable_spend in Hg.
  destruct (get_spend k s) as [e0|] eqn:E; [|done]. injection Hg as Hg. apply bound_grounded. rewrite <- Hg. apply bound_grounded. by eapply Hb.
Qed.

Lemma replay_snoc c log f s s1 s2 : replay c log s = (Ok tt, s1) -> applyFrame c f true s1 = (Ok tt, s2) -> replay c (log ++ [f]) s = (Ok tt, s2).
Proof.
  revert s. induction log as [|g log IH]; intros s Hq Hf; cbn [app replay] in *.
  - injection Hq as <-. by rewrite (bind_run _ _ _ _ _ Hf).
  - apply bindM_ok in Hq as ([] & s0 & Hg & Hq). rewrite (bind_run _ _ _ _ _ Hg). by apply IH.
Qed.

(** ** What operations do beside the log *)

Lemma inflight_durable spendTag flag s : sound s -> durable (set_inFlight spendTag flag s) = durable s.
Proof.
  intros Hs. unfold set_inFlight. destruct (get_spend spendTag s) as [e|] eqn:Hg; [|done]. destruct (e_detail e) as [i| |] eqn:Hd; try done.
  destruct (i_reservation i) as [r|] eqn:Hr; [|done]. apply durable_ext; try done. fields. cbn -[map_values map_set map_delete]. rewrite values_set.
  apply map_set_same; [apply bytes_eqb_eq|rewrite values_keys; apply Hs|]. rewrite values_get. fold (get_spend spendTag s). rewrite Hg. cbn. f_equal.
  unfold grounded. cbn. rewrite Hd. unfold with_status, landed, with_reservation. cbn. by rewrite Hr.
Qed.

Lemma heap_durable x s : durable (set_heap x s) = durable s.
Proof. by apply durable_ext. Qed.
Lemma reason_durable reason evidence s : durable (set_readOnly reason evidence s) = durable s.
Proof. by apply durable_ext. Qed.
Lemma staging_durable x s : durable (set_staging x s) = durable s.
Proof. by apply durable_ext. Qed.

(** ** A store that is running *)

(** The log so far and the state: the store was opened on a log; records were
    appended and applied; and between them operations changed what is not
    durable. *)
Inductive live (c : config) : list Wal.frame -> engine -> Prop :=
| opened log s : replay c log new_engine = (Ok tt, s) -> live c log s
| appended log s f s' : live c log s -> applyFrame c f false s = (Ok tt, s') -> live c (log ++ [f]) s'
| between log s s' : live c log s -> durable s' = durable s -> live c log s'.

Lemma live_recovers c log s : live c log s -> exists s', replay c log new_engine = (Ok tt, s') /\ durable s' = durable s /\ atomicStaging s' = no_staging.
Proof.
  induction 1 as [log s Hq|log s f s' _ (t & Ht & Hd & Hst) Hf|log s s' _ (t & Ht & Hd & Hst) Hs]; [|..].
  - exists s. split_and!; [done..|]. apply (replay_invariant c (fun s => atomicStaging s = no_staging)) in Hq as [_ Hq]; [done| |apply new_sound|done].
    intros f s1 s2 _ (value & _ & Hv & _)%frame_ok Hi. by rewrite (value_staging c f value true s1 s2 Hv).
  - destruct (frame_alike c f false true s t s' (eq_sym Hd) Hst Hf) as (t' & Ht' & Hd' & Hst'). exists t'. split_and!; [|done..].
    by eapply replay_snoc.
  - exists t. split_and!; [done| |done]. by rewrite Hs.
Qed.

Lemma live_sound c log s : live c log s -> sound s /\ all_bound c s.
Proof.
  intros (t & Ht & Hd & _)%live_recovers. apply replay_bound in Ht as [Hs Hb]. split; [|by apply (bound_alike c t)].
  apply sound_durable. rewrite <- Hd. by apply sound_durable.
Qed.
End WithPlatform.
End CellRecovery.
