(* ===== verification/CellStaging.v ===== *)
(** * The cell store: atomic puts

    [storage-engine.js]: the body of an atomic put is staged first, against a
    ledger of its own ([atomicStaging]), under an authority that can be cancelled
    until the put is committed. The objects that are retained for it are kept
    here by the number of their authority. Each definition is what happens
    between two awaits; what staging and publishing a body does is not modelled. *)

From Stdlib Require Import ZArith Lia Bool List String Ascii.
From Stdlib Require Import Strings.Byte.
From stdpp Require Import base tactics list strings.
From S2P Require Import Prelude JsMap Codec Authority Hashes ResultBinding CellRecords CellStore CellApply CellOperations.

Module Staging.
Import Binding CellRecord Cells Apply CellOps.

(** What [#atomicStagingInput] returns. *)
Record atomic_input := {
  a_storageSlot : bytes;
  a_allocationEpoch : Z;
  a_sizeClass : Z;
  a_leaseClass : Z;
  a_declaredBlobHash : bytes;
  a_createPublicKey : bytes;
  a_renewPublicKey : bytes;
  a_dropPublicKey : bytes;
  a_allocationCommitment : bytes;
  a_requestCommitment : bytes;
  a_profileId : Z;
  a_resultBindingBytes : bytes;
  a_declaredBytes : Z
}.

Inductive phase := InStaging | Staged | Cancelled | Committing | Done | Ambiguous.
#[export] Instance phase_eq : EqDecision phase.
Proof. solve_decision. Defined.

(** What is retained for a put. [t_listed]: it is in [ATOMIC_STAGED_PUTS] and in
    [atomicStagedLeases]. *)
Record retained := {
  t_input : atomic_input;
  t_expiresUnixMillis : Z;
  t_phase : phase;
  t_released : bool;
  t_quotaReserved : bool;
  t_listed : bool
}.

Record lobby := { store : engine; objects : list (nat * retained); next_object : nat }.

Definition get_object (id : nat) (s : lobby) : option retained := map_get Nat.eqb id (objects s).
Definition set_store (e : engine) (s : lobby) : lobby := {| store := e; objects := objects s; next_object := next_object s |}.
Definition put_object (id : nat) (t : retained) (s : lobby) : lobby :=
  {| store := store s; objects := map_set Nat.eqb id t (objects s); next_object := next_object s |}.

Definition with_phase (p : phase) (t : retained) : retained := {| t_input := t_input t; t_expiresUnixMillis := t_expiresUnixMillis t; t_phase := p;
  t_released := t_released t; t_quotaReserved := t_quotaReserved t; t_listed := t_listed t |}.
Definition listing (listed : bool) (t : retained) : retained := {| t_input := t_input t; t_expiresUnixMillis := t_expiresUnixMillis t; t_phase := t_phase t;
  t_released := t_released t; t_quotaReserved := t_quotaReserved t; t_listed := listed |}.
Definition expiring (millis : Z) (t : retained) : retained := {| t_input := t_input t; t_expiresUnixMillis := millis; t_phase := t_phase t;
  t_released := t_released t; t_quotaReserved := t_quotaReserved t; t_listed := t_listed t |}.
Definition releasing (t : retained) : retained := {| t_input := t_input t; t_expiresUnixMillis := t_expiresUnixMillis t; t_phase := t_phase t;
  t_released := true; t_quotaReserved := t_quotaReserved t; t_listed := false |}.
Definition unreserved (t : retained) : retained := {| t_input := t_input t; t_expiresUnixMillis := t_expiresUnixMillis t; t_phase := t_phase t;
  t_released := t_released t; t_quotaReserved := false; t_listed := t_listed t |}.

Section WithPlatform.
Context `{Platform}.
Context (c : config) (verifySignature : bytes -> bytes -> bytes -> bool).

(** ** The input *)

Definition atomicStagingInput (input : val) : result atomic_input :=
  fail_if (falsy input || falsy input.["request"] || nullish input.["source"]) ;;!
  let request := input.["request"] in
  let! binding := resultBindingBytes c input.["resultBinding"] in
  let! binding := match binding with Some binding => Ok binding | None => Err BAD_ENCODING end in
  let! profileId := integer input.["admissionProfileId"] 1 0xffff in
  let! (createPublicKey, renewPublicKey, dropPublicKey) :=
    validateDistinctKeys request.["createPublicKey"] request.["renewPublicKey"] request.["dropPublicKey"] in
  let! storageSlot := fixed request.["storageSlot"] 32 true in
  let! allocationEpoch := integer request.["allocationEpoch"] 0 0xffffffff in
  let! sizeClass := integer request.["sizeClass"] 1 5 in
  let! leaseClass := integer request.["leaseClass"] 1 4 in
  let! clientNonce := fixed request.["clientNonce"] 32 false in
  let! declaredBlobHash := fixed request.["declaredBlobHash"] 32 true in
  let! slot := Hash.cellStorageSlot (VObj [("allocationEpoch", VNum allocationEpoch); ("createPublicKey", VBytes createPublicKey)]) in
  throw_if (negb (bytes_eqb slot storageSlot)) BAD_SLOT ;;!
  let! allocation := Hash.allocationCommitment (VObj [("relayPublicKey", VBytes (relayPublicKey c)); ("storageSlot", VBytes storageSlot);
    ("allocationEpoch", VNum allocationEpoch); ("sizeClass", VNum sizeClass); ("leaseClass", VNum leaseClass);
    ("declaredCellBlobHash", VBytes declaredBlobHash); ("createPublicKey", VBytes createPublicKey); ("renewPublicKey", VBytes renewPublicKey);
    ("dropPublicKey", VBytes dropPublicKey)]) in
  let! verified := verifyEd25519 verifySignature createPublicKey allocation request.["createSignature"] in
  throw_if (negb verified) BAD_CREATE_SIG ;;!
  let! requestCommitment := Hash.commitment (Hash.cellPutPreimage
    (VObj [("allocationCommitment", VBytes allocation); ("clientNonce", VBytes clientNonce)])) in
  Ok {| a_storageSlot := storageSlot; a_allocationEpoch := allocationEpoch; a_sizeClass := sizeClass; a_leaseClass := leaseClass;
        a_declaredBlobHash := declaredBlobHash; a_createPublicKey := createPublicKey; a_renewPublicKey := renewPublicKey; a_dropPublicKey := dropPublicKey;
        a_allocationCommitment := allocation; a_requestCommitment := requestCommitment; a_profileId := profileId; a_resultBindingBytes := binding;
        a_declaredBytes := size_bytes sizeClass |}.

(** ** The ledger *)

Definition staging_profile (profileId : Z) (s : lobby) : Z := profile_bytes profileId (a_byProfile (atomicStaging (store s))).

(** [this.atomicStaging.bytes += ...; items++; byProfile.set(...)] *)
Definition claimed (i : atomic_input) (s : engine) : engine :=
  let a := atomicStaging s in
  set_staging {| a_bytes := a_bytes a + a_declaredBytes i;
    a_byProfile := map_set Z.eqb (a_profileId i) (profile_bytes (a_profileId i) (a_byProfile a) + a_declaredBytes i) (a_byProfile a);
    a_items := a_items a + 1 |} s.

(** and back, in [#releaseAtomicStaging] *)
Definition unclaimed (i : atomic_input) (s : engine) : engine :=
  let a := atomicStaging s in
  let profileBytes := profile_bytes (a_profileId i) (a_byProfile a) - a_declaredBytes i in
  set_staging {| a_bytes := a_bytes a - a_declaredBytes i;
    a_byProfile := if profileBytes =? 0 then map_delete Z.eqb (a_profileId i) (a_byProfile a) else map_set Z.eqb (a_profileId i) profileBytes (a_byProfile a);
    a_items := a_items a - 1 |} s.

(** ** Staging *)

(** [stageAtomicCellPut] before its lock, of a store that may be [closing] (or
    taking a snapshot) and a signal that may have [aborted]: a new object *)
Definition stage_begin (closing : bool) (input : val) (aborted : bool) : M lobby nat :=
  throwM_if closing BUSY ;;*
  let* s := gets (fun s => s) in
  lift (assertWritable true (store s)) ;;*
  let* i := lift (atomicStagingInput input) in
  throwM_if aborted INTERNAL ;;*
  let id := next_object s in
  modify (fun s => {| store := store s; next_object := S id; objects := map_set Nat.eqb id {| t_input := i; t_expiresUnixMillis := 0; t_phase := InStaging;
    t_released := false; t_quotaReserved := false; t_listed := false |} (objects s) |}) ;;*
  ret id.

(** under its lock, *)
Definition stage_claim (id : nat) : M lobby unit :=
  let* s := gets (fun s => s) in
  match get_object id s with
  | None => TypeErrorM
  | Some t =>
      let i := t_input t in
      let a := books (store s) in
      let existingProfile := staging_profile (a_profileId i) s in
      throwM_if ((maxStoredBytes c <? storedBytes a + stagingBytes a + a_bytes (atomicStaging (store s)) + a_declaredBytes i) ||
                 (maxStagingBytes c <? stagingBytes a + a_bytes (atomicStaging (store s)) + a_declaredBytes i) ||
                 (maxStagingBytesPerProfile c <? profile_bytes (a_profileId i) (stagingByProfile a) + existingProfile + a_declaredBytes i)) BUSY ;;*
      modify (fun s => put_object id {| t_input := i; t_expiresUnixMillis := t_expiresUnixMillis t; t_phase := t_phase t; t_released := t_released t;
        t_quotaReserved := true; t_listed := t_listed t |} (set_store (claimed i (store s)) s))
  end.

(** then up to the staging of the body, *)
Definition stage_deadline (id : nat) (now : val) : M lobby Z :=
  let* now := lift (u64 now) in
  throwM_if (MAX_U64 - reservationMillis c <? now) BUSY ;;*
  modify (fun s => match get_object id s with Some t => put_object id (expiring (now + reservationMillis c) t) s | None => s end) ;;*
  ret (now + reservationMillis c).

(** and after it: the authority is issued. *)
Definition stage_issue (id : nat) (closing : bool) (now : val) (aborted : bool) : M lobby nat :=
  throwM_if aborted INTERNAL ;;*
  let* s := gets (fun s => s) in
  match get_object id s with
  | None => TypeErrorM
  | Some t =>
      throwM_if closing BUSY ;;*
      let* now := lift (u64 now) in
      throwM_if (t_expiresUnixMillis t <=? now) BUSY ;;*
      modify (put_object id (listing true (with_phase Staged t))) ;;*
      ret id
  end.

(** ** Release *)

(** [#releaseAtomicStaging] up to its first await *)
Definition release_begin (id : nat) : M lobby bool :=
  let* s := gets (fun s => s) in
  match get_object id s with
  | None => TypeErrorM
  | Some t => if t_released t then ret false else modify (put_object id (releasing t)) ;;* ret true
  end.

(** under the lock of the ledger, when [retained.quotaReserved] *)
Definition release_quota (id : nat) : M lobby unit :=
  let* s := gets (fun s => s) in
  match get_object id s with
  | None => TypeErrorM
  | Some t =>
      if t_quotaReserved t then
        modify (fun s => put_object id (unreserved t) (set_store (unclaimed (t_input t) (store s)) s)) ;;*
        let* s := gets (fun s => s) in
        lift (assertAccounting (store s))
      else ret tt
  end.

(** [cancelAtomicCellPut] up to the release *)
Definition cancel (id : nat) : M lobby bool :=
  let* s := gets (fun s => s) in
  match get_object id s with
  | None => ret false
  | Some t =>
      if negb (t_listed t) || negb (bool_decide (t_phase t = Staged)) then ret false
      else modify (put_object id (listing false (with_phase Cancelled t))) ;;* release_begin id
  end.

(** [#sweepExpiredAtomicStaging] on one lease *)
Definition sweep_lease (now : Z) (id : nat) : M lobby bool :=
  let* s := gets (fun s => s) in
  match get_object id s with
  | None => ret false
  | Some t => if negb (bool_decide (t_phase t = Staged)) || (now <? t_expiresUnixMillis t) then ret false else cancel id
  end.

(** ** The commit *)

(** An operation of the store, in the lobby *)
Definition in_store {A} (m : M engine A) : M lobby A := fun s => let (r, e) := m (store s) in (r, set_store e s).

(** [retained.owner === this] and listed *)
Definition live_lease (id : nat) (s : lobby) : option retained :=
  match get_object id s with Some t => if t_listed t then Some t else None | None => None end.

(** The fields of the put that [#spendReplay] looks at. *)
Definition as_put (t : atomic_input) (spendTag fingerprint admission : bytes) : put_input := {|
  p_storageSlot := a_storageSlot t; p_allocationEpoch := a_allocationEpoch t; p_sizeClass := a_sizeClass t; p_leaseClass := a_leaseClass t;
  p_declaredBlobHash := a_declaredBlobHash t; p_createPublicKey := a_createPublicKey t; p_renewPublicKey := a_renewPublicKey t; p_dropPublicKey := a_dropPublicKey t;
  p_allocationCommitment := a_allocationCommitment t; p_requestCommitment := a_requestCommitment t; p_spendTag := spendTag; p_profileId := a_profileId t;
  p_preparedAdmissionBytes := admission; p_fingerprint := fingerprint; p_resultBindingBytes := Some (a_resultBindingBytes t) |}.

(** [commitAtomicCellPut] before its locks, of an authority of this store; [fenced]
    says that [preCommitFence] is a function. Where it cancels, the cancellation
    is done up to its release. *)
Definition commit_begin (id : nat) (fenced : bool) (admission : val) (now : val) : M lobby put_input :=
  let* s := gets (fun s => s) in
  match live_lease id s with
  | None => throw BAD_ENCODING
  | Some t =>
      throwM_if (negb fenced) BAD_ENCODING ;;*
      let* now := lift (u64 now) in
      (if t_expiresUnixMillis t <=? now then cancel id ;;* throw BUSY else ret tt) ;;*
      let* (prepared, canonicalBytes) := lift (preparedAdmission admission) in
      let i := t_input t in
      (if negb (bytes_eqb (raw prepared.["requestCommitment"]) (a_requestCommitment i)) || negb (is_num prepared.["profileId"] (a_profileId i))
       then cancel id ;;* throw SPEND_INVALID else ret tt) ;;*
      let spendTag := raw prepared.["spendTag"] in
      let fingerprint := requestFingerprint [spendTag; a_requestCommitment i; a_storageSlot i; a_allocationCommitment i; a_declaredBlobHash i;
        u32bytes (a_declaredBytes i); [z2b (a_leaseClass i)]; u32bytes (a_profileId i); Hash.blake2b256 canonicalBytes] in
      ret (as_put i spendTag fingerprint canonicalBytes)
  end.

(** Under the locks of the spend and the cell, up to the publication of the
    object: a result that is there already, or the end of the lease and the
    identity of the result. [fence] is what [preCommitFence] returned. *)
Definition commit_fence (id : nat) (put : put_input) (now : val) (fence : result val) (aborted : bool) : M lobby (view + Z * bytes) :=
  let* s := gets (fun s => s) in
  match get_object id s with
  | None => throw INTERNAL
  | Some t =>
      throwM_if (negb (t_listed t) || t_released t || negb (bool_decide (t_phase t = Staged))) INTERNAL ;;*
      let* now := lift (u64 now) in
      (if t_expiresUnixMillis t <=? now
       then modify (put_object id (listing false (with_phase Cancelled t))) ;;* release_begin id ;;* throw BUSY else ret tt) ;;*
      let e := store s in
      let* replay := lift (match get_spend (p_spendTag put) e with Some existing => spendReplay existing put e | None => Ok None end) in
      match replay with
      | Some v => modify (put_object id (listing false t)) ;;* release_begin id ;;* ret (inl v)
      | None =>
          match get_commitment (p_requestCommitment put) e with
          | Some (_, fingerprint) => throw (if bytes_eqb fingerprint (p_fingerprint put) then SPEND_REPLAY else CONFLICT)
          | None =>
              throwM_if (has (get_cell (p_storageSlot put) e)) CONFLICT ;;*
              lift (checkAllocationWindow (p_allocationEpoch put) e) ;;*
              lift (checkCreateQuota c (a_declaredBytes (t_input t)) (p_profileId put) (a_declaredBytes (t_input t)) e) ;;*
              let* leaseEpoch := lift (leaseEpochFor (p_leaseClass put) e) in
              let identity := resultIdentity "stored" (p_storageSlot put) (p_requestCommitment put) (p_declaredBlobHash put) (p_leaseClass put) leaseEpoch 0 in
              let* fence := lift fence in
              throwM_if (negb (strict_eqb fence (VBool true))) INTERNAL ;;*
              throwM_if aborted INTERNAL ;;*
              modify (put_object id (listing false (with_phase Committing t))) ;;*
              ret (inr (leaseEpoch, identity))
          end
      end
  end.

(** When the object has been published; the epoch is read again. *)
Definition commit_record (put : put_input) (leaseEpoch : Z) (identity objectId transactionId : bytes) : section view :=
  let* s := gets (fun s => s) in
  append PUT_ATOMIC_COMMITTED transactionId (cell_bucket (p_storageSlot put)) (VObj [("version", VNum 1);
    ("spendTag", VBytes (p_spendTag put)); ("requestCommitment", VBytes (p_requestCommitment put));
    ("requestFingerprint", VBytes (p_fingerprint put)); ("storageSlot", VBytes (p_storageSlot put));
    ("allocationEpoch", VNum (p_allocationEpoch put)); ("sizeClass", VNum (p_sizeClass put)); ("leaseClass", VNum (p_leaseClass put));
    ("declaredBlobHash", VBytes (p_declaredBlobHash put)); ("createPublicKey", VBytes (p_createPublicKey put));
    ("renewPublicKey", VBytes (p_renewPublicKey put)); ("dropPublicKey", VBytes (p_dropPublicKey put));
    ("allocationCommitment", VBytes (p_allocationCommitment put)); ("profileId", VNum (p_profileId put));
    ("preparedAdmissionBytes", VBytes (p_preparedAdmissionBytes put)); ("resultBindingBytes", val_of (p_resultBindingBytes put));
    ("declaredBytes", VNum (size_bytes (p_sizeClass put))); ("blobObjectId", VBytes objectId); ("leaseEpoch", VNum leaseEpoch);
    ("stateRevision", VBig 0); ("policyRevision", VBig 0); ("resultIdentity", VBytes identity); ("committedEpoch", VNum (epochFloor s))]).

(** After the record has been applied, up to the release *)
Definition commit_done (id : nat) (put : put_input) : M lobby view :=
  let* s := gets (fun s => s) in
  match get_spend (p_spendTag put) (store s), get_object id s with
  | Some committed, Some t =>
      modify (put_object id (with_phase Done t)) ;;*
      release_begin id ;;*
      ret (resultView committed "stored" false)
  | _, _ => TypeErrorM
  end.

(** or when publishing or appending failed. *)
Definition commit_failed (id : nat) : M lobby bool :=
  let* s := gets (fun s => s) in
  match get_object id s with
  | None => TypeErrorM
  | Some t =>
      modify (fun s => put_object id (with_phase Ambiguous t)
        (set_store (set_readOnly (Some "AMBIGUOUS_ATOMIC_PUBLISH_REQUIRES_RECOVERY") (integrityEvidence (store s)) (store s)) s)) ;;*
      release_begin id
  end.

(** The outer [catch] of [commitAtomicCellPut] *)
Definition commit_catch (id : nat) : M lobby bool :=
  let* s := gets (fun s => s) in
  if has (live_lease id s) then cancel id else ret false.

End WithPlatform.
End Staging.
