(* ===== verification/CellLedger.v ===== *)
(** * The cell store: the ledger of staged bodies

    Whatever is staged, cancelled, expired, committed and released, the ledger is
    the sum of what is retained with its quota reserved; so the credit that a
    commit takes back is always there. *)

From Stdlib Require Import ZArith Lia Bool List String Ascii.
From Stdlib Require Import Strings.Byte.
From stdpp Require Import base tactics list strings relations.
From S2P Require Import Prelude JsMap Codec Authority Hashes ResultBinding CellRecords CellStore CellApply CellBooks CellOperations CellProposals CellStaging.

Module CellLedger.
Import Binding CellRecord Cells Apply CellBooks CellOps CellProposals Staging.

(** What an object holds of the ledger. *)
Definition held (_ : nat) (t : retained) : Z := if t_quotaReserved t then a_declaredBytes (t_input t) else 0.
Definition held_of (profile : Z) (_ : nat) (t : retained) : Z := if t_quotaReserved t && (a_profileId (t_input t) =? profile) then a_declaredBytes (t_input t) else 0.
Definition held_one (_ : nat) (t : retained) : Z := if t_quotaReserved t then 1 else 0.

Section WithPlatform.
Context `{Platform}.

Record ledger (s : lobby) : Prop := {
  ledger_keys : NoDup (map fst (objects s));
  ledger_fresh : forall id t, get_object id s = Some t -> (id < next_object s)%nat;
  ledger_flags : forall id t, get_object id s = Some t -> (t_listed t = true -> t_quotaReserved t = true /\ t_released t = false) /\ 0 <= a_declaredBytes (t_input t);
  ledger_bytes : a_bytes (atomicStaging (store s)) = sum_of held (objects s);
  ledger_items : a_items (atomicStaging (store s)) = sum_of held_one (objects s);
  ledger_profiles : forall p, profile_bytes p (a_byProfile (atomicStaging (store s))) = sum_of (held_of p) (objects s)
}.

(** The store is opened with nothing staged. *)
Definition first_lobby (e : engine) : lobby := {| store := e; objects := []; next_object := 0 |}.

Lemma first_ledger e : atomicStaging e = {| a_bytes := 0; a_byProfile := []; a_items := 0 |} -> ledger (first_lobby e).
Proof. intros He. split; cbn; rewrite ?He; try done. constructor. Qed.

Lemma get_object_set id id' t s : get_object id' (put_object id t s) = if (id =? id')%nat then Some t else get_object id' s.
Proof. unfold get_object, put_object. cbn. apply get_set, Nat.eqb_eq. Qed.

(** An object that changes in other ways *)
Lemma ledger_relabel id t t' s : ledger s -> get_object id s = Some t -> t_input t' = t_input t -> t_quotaReserved t' = t_quotaReserved t ->
  (t_listed t' = true -> t_quotaReserved t' = true /\ t_released t' = false) -> ledger (put_object id t' s).
Proof.
  intros [K1 K2 K3 B1 B2 B3] Hg Hi Hq Hl.
  assert (Hsum : forall f, f id t' = f id t -> sum_of f (map_set Nat.eqb id t' (objects s)) = sum_of f (objects s)).
  { intros f Hf. rewrite (sum_replaced Nat.eqb Nat.eqb_eq f id t' t) by done. lia. }
  split; cbn [put_object store objects next_object].
  - apply set_keys; [apply Nat.eqb_eq|done].
  - intros id' t0. rewrite get_object_set. destruct (id =? id')%nat eqn:E; [apply Nat.eqb_eq in E as <-; intros _; by eapply K2|apply K2].
  - intros id' t0. rewrite get_object_set. destruct (id =? id')%nat eqn:E; [|apply K3]. intros [= <-]. split; [done|]. rewrite Hi. by apply (K3 id t).
  - rewrite Hsum; [done|]. unfold held. by rewrite Hi, Hq.
  - rewrite Hsum; [done|]. unfold held_one. by rewrite Hq.
  - intros p. rewrite Hsum; [done|]. unfold held_of. by rewrite Hi, Hq.
Qed.

Lemma ledger_store e s : atomicStaging e = atomicStaging (store s) -> ledger s -> ledger (set_store e s).
Proof. intros He [K1 K2 K3 B1 B2 B3]. split; cbn; rewrite ?He; done. Qed.

Section Steps.
Context (c : config) (verifySignature : bytes -> bytes -> bytes -> bool).

Lemma claim_ledger id t s s' r : ledger s -> get_object id s = Some t -> t_quotaReserved t = false -> t_listed t = false -> stage_claim c id s = (r, s') -> ledger s'.
Proof.
  intros Hs Hg Hq Hl Hr. unfold stage_claim in Hr. autorewrite with machine in Hr. rewrite Hg in Hr. autorewrite with machine in Hr.
  destruct (_ || _); [by injection Hr as <- <-|]. injection Hr as <- <-. destruct Hs as [K1 K2 K3 B1 B2 B3].
  assert (Hsum : forall f t', sum_of f (map_set Nat.eqb id t' (objects s)) = sum_of f (objects s) - f id t + f id t').
  { intros f t'. by rewrite (sum_replaced Nat.eqb Nat.eqb_eq f id t' t). }
  split; cbn [put_object set_store store objects next_object claimed set_staging atomicStaging a_bytes a_byProfile a_items].
  - apply set_keys; [apply Nat.eqb_eq|done].
  - intros id' t0. rewrite get_object_set. destruct (id =? id')%nat eqn:E; [apply Nat.eqb_eq in E as <-; intros _; by eapply K2|apply K2].
  - intros id' t0. rewrite get_object_set. destruct (id =? id')%nat eqn:E; [|apply K3]. intros [= <-]. cbn. rewrite Hl. split; [done|]. by apply (K3 id t).
  - rewrite Hsum. unfold held at 2 3. rewrite Hq. cbn. lia.
  - rewrite Hsum. unfold held_one at 2 3. rewrite Hq. cbn. lia.
  - intros p. rewrite Hsum, profile_set, !B3. assert (held_of p id t = 0) as -> by (unfold held_of; by rewrite Hq).
    match goal with |- context [held_of p id ?x] => change (held_of p id x) with (if a_profileId (t_input t) =? p then a_declaredBytes (t_input t) else 0) end.
    destruct (_ =? p) eqn:E; [apply Z.eqb_eq in E as ->|]; lia.
Qed.

Lemma unclaim_ledger id t s s' r : ledger s -> get_object id s = Some t -> t_released t = true -> release_quota id s = (r, s') -> ledger s'.
Proof.
  intros Hs Hg Hrel Hr. unfold release_quota in Hr. autorewrite with machine in Hr. rewrite Hg in Hr. destruct (t_quotaReserved t) eqn:Hq; [|by injection Hr as <- <-].
  autorewrite with machine in Hr. injection Hr as <- <-. destruct Hs as [K1 K2 K3 B1 B2 B3].
  assert (Hsum : forall f t', sum_of f (map_set Nat.eqb id t' (objects s)) = sum_of f (objects s) - f id t + f id t').
  { intros f t'. by rewrite (sum_replaced Nat.eqb Nat.eqb_eq f id t' t). }
  split; cbn [put_object set_store store objects next_object unclaimed set_staging atomicStaging a_bytes a_byProfile a_items].
  - apply set_keys; [apply Nat.eqb_eq|done].
  - intros id' t0. rewrite get_object_set. destruct (id =? id')%nat eqn:E; [apply Nat.eqb_eq in E as <-; intros _; by eapply K2|apply K2].
  - intros id' t0. rewrite get_object_set. destruct (id =? id')%nat eqn:E; [|apply K3]. intros [= <-]. cbn. destruct (K3 id t Hg) as [H1 H2]. split; [|done].
    intros Hl. destruct (H1 Hl). congruence.
  - rewrite Hsum. unfold held at 2 3. rewrite Hq. cbn. lia.
  - rewrite Hsum. unfold held_one at 2 3. rewrite Hq. cbn. lia.
  - intros p. rewrite Hsum. pose proof (B3 (a_profileId (t_input t))) as Bt. assert (held_of p id t = if a_profileId (t_input t) =? p then a_declaredBytes (t_input t) else 0) as -> by (unfold held_of; by rewrite Hq).
    change (held_of p id (unreserved t)) with 0. destruct (_ - _ =? 0) eqn:E0; rewrite ?profile_set, ?profile_deleted; destruct (_ =? p) eqn:E; rewrite ?B3; try (apply Z.eqb_eq in E as <-); try apply Z.eqb_eq in E0; lia.
Qed.

Lemma begin_ledger closing input aborted s s' r : ledger s -> stage_begin c verifySignature closing input aborted s = (r, s') -> ledger s'.
Proof.
  intros Hs Hr. unfold stage_begin in Hr. autorewrite with machine in Hr. destruct closing; [by injection Hr as <- <-|]. autorewrite with machine in Hr.
  destruct (assertWritable _ _); [|by injection Hr as <- <-]. autorewrite with machine in Hr. destruct (atomicStagingInput _ _ _) as [i|] eqn:Hi; [|by injection Hr as <- <-].
  autorewrite with machine in Hr. destruct aborted; [by injection Hr as <- <-|]. injection Hr as <- <-. destruct Hs as [K1 K2 K3 B1 B2 B3].
  assert (Hn : get_object (next_object s) s = None) by (destruct (get_object _ s) eqn:E; [apply K2 in E; lia|done]).
  assert (Hd : 0 <= a_declaredBytes i) by (unfold atomicStagingInput in Hi; oks; repeat (match goal with x : (_ * _)%type |- _ => destruct x end; cbn beta iota in *; oks); cbn; apply size_bytes_range).
  assert (Hsum : forall f t', sum_of f (map_set Nat.eqb (next_object s) t' (objects s)) = sum_of f (objects s) + f (next_object s) t').
  { intros f t'. by rewrite (sum_new Nat.eqb). }
  split; cbn [store objects next_object]; try (intros; rewrite Hsum; unfold held, held_of, held_one in *; cbn; rewrite ?B3; lia).
  - apply set_keys; [apply Nat.eqb_eq|done].
  - unfold get_object; cbn [objects]. intros id t. rewrite get_set by apply Nat.eqb_eq. destruct (_ =? id)%nat eqn:E; [apply Nat.eqb_eq in E; lia|]. intros Hg%K2. lia.
  - unfold get_object; cbn [objects]. intros id t. rewrite get_set by apply Nat.eqb_eq. destruct (_ =? id)%nat eqn:E; [|apply K3]. intros [= <-]. done.
Qed.
(** The other steps change no claim. *)
Lemma release_ledger id s s' r : ledger s -> release_begin id s = (r, s') -> ledger s'.
Proof.
  intros Hs Hr. unfold release_begin in Hr. autorewrite with machine in Hr. destruct (get_object id s) as [t|] eqn:Hg; [|by injection Hr as <- <-].
  destruct (t_released t); [by injection Hr as <- <-|]. injection Hr as <- <-. by apply (ledger_relabel id t).
Qed.

Lemma unlisted_ledger id t t' s s' r : ledger s -> get_object id s = Some t -> t_input t' = t_input t -> t_quotaReserved t' = t_quotaReserved t -> t_listed t' = false ->
  release_begin id (put_object id t' s) = (r, s') -> ledger s'.
Proof. intros Hs Hg Hi Hq Hl. apply release_ledger. apply (ledger_relabel id t); [done..|]. by rewrite Hl. Qed.

Lemma cancel_ledger id s s' r : ledger s -> cancel id s = (r, s') -> ledger s'.
Proof.
  intros Hs Hr. unfold cancel in Hr. autorewrite with machine in Hr. destruct (get_object id s) as [t|] eqn:Hg; [|by injection Hr as <- <-].
  destruct (_ || _); [by injection Hr as <- <-|]. autorewrite with machine in Hr. by apply (unlisted_ledger id t (listing false (with_phase Cancelled t)) s s' r).
Qed.

Lemma after_throw {S A B C} (m : M S A) e (k : B -> M S C) s r s' : bindM (bindM m (fun _ => throw e)) k s = (r, s') -> exists r0, m s = (r0, s').
Proof. unfold bindM, throw. destruct (m s) as [[x|e0] s1]; intros [= _ <-]; eauto. Qed.

Lemma sweep_ledger now id s s' r : ledger s -> sweep_lease now id s = (r, s') -> ledger s'.
Proof.
  intros Hs Hr. unfold sweep_lease in Hr. autorewrite with machine in Hr. destruct (get_object id s) as [t|] eqn:Hg; [|by injection Hr as <- <-].
  destruct (_ || _); [by injection Hr as <- <-|]. by eapply cancel_ledger.
Qed.

Lemma deadline_ledger id now s s' r : ledger s -> stage_deadline c id now s = (r, s') -> ledger s'.
Proof.
  intros Hs Hr. unfold stage_deadline in Hr. autorewrite with machine in Hr. destruct (u64 now); [|by injection Hr as <- <-]. autorewrite with machine in Hr.
  destruct (_ <? _); [by injection Hr as <- <-|]. autorewrite with machine in Hr. injection Hr as <- <-. destruct (get_object id s) as [t|] eqn:Hg; [|done].
  apply (ledger_relabel id t); [done..|]. apply Hs in Hg as [Hl _]. exact Hl.
Qed.

Lemma issue_ledger id closing now aborted t s s' r : ledger s -> get_object id s = Some t -> t_quotaReserved t = true -> t_released t = false ->
  stage_issue id closing now aborted s = (r, s') -> ledger s'.
Proof.
  intros Hs Hg Hq Hrel Hr. unfold stage_issue in Hr. autorewrite with machine in Hr. destruct aborted; [by injection Hr as <- <-|]. autorewrite with machine in Hr.
  rewrite Hg in Hr. autorewrite with machine in Hr. destruct closing; [by injection Hr as <- <-|]. autorewrite with machine in Hr.
  destruct (u64 now); [|by injection Hr as <- <-]. autorewrite with machine in Hr. destruct (_ <=? _); [by injection Hr as <- <-|]. injection Hr as <- <-.
  by apply (ledger_relabel id t).
Qed.

Lemma commit_begin_ledger id fenced admission now s s' r : ledger s -> commit_begin id fenced admission now s = (r, s') -> ledger s'.
Proof.
  intros Hs Hr. unfold commit_begin in Hr. autorewrite with machine in Hr. destruct (live_lease id s) as [t|]; [|by injection Hr as <- <-]. autorewrite with machine in Hr.
  destruct fenced; [|by injection Hr as <- <-]. autorewrite with machine in Hr. cbn [negb] in Hr. destruct (u64 now); [|by injection Hr as <- <-].
  destruct (_ <=? _); [apply after_throw in Hr as [r0 Hr]; by eapply cancel_ledger|].
  autorewrite with machine in Hr. destruct (preparedAdmission admission) as [[p bs]|]; [|by injection Hr as <- <-]. autorewrite with machine in Hr.
  destruct (_ || _); [apply after_throw in Hr as [r0 Hr]; by eapply cancel_ledger|]. by injection Hr as <- <-.
Qed.

Lemma fence_ledger id put now fence aborted s s' r : ledger s -> commit_fence c id put now fence aborted s = (r, s') -> ledger s'.
Proof.
  intros Hs Hr. unfold commit_fence in Hr. autorewrite with machine in Hr. destruct (get_object id s) as [t|] eqn:Hg; [|by injection Hr as <- <-]. autorewrite with machine in Hr.
  destruct (_ || _); [by injection Hr as <- <-|]. destruct (u64 now); [|by injection Hr as <- <-].
  assert (Hun : forall t' r0, t_input t' = t_input t -> t_quotaReserved t' = t_quotaReserved t -> t_listed t' = false -> release_begin id (put_object id t' s) = (r0, s') -> ledger s')
    by (intros; by apply (unlisted_ledger id t t' s s' r0)).
  destruct (_ <=? _).
  { rewrite bind_bind, bind_modify in Hr. apply after_throw in Hr as [r0 Hr]. by apply Hun in Hr. }
  autorewrite with machine in Hr. destruct (match get_spend _ _ with Some _ => _ | None => _ end) as [[v|]|]; [| |by injection Hr as <- <-].
  { autorewrite with machine in Hr. unfold bindM in Hr. destruct (release_begin id _) as [r0 s1] eqn:E. apply (Hun (listing false t) r0); [done..|]. destruct r0; injection Hr as <- <-; exact E. }
  destruct (get_commitment _ _) as [[]|]; [by injection Hr as <- <-|]. autorewrite with machine in Hr.
  repeat (match type of Hr with (if ?b then _ else _) = _ => destruct b | (match ?m with Ok _ => _ | Err _ => _ end) = _ => destruct m end;
    [try by injection Hr as <- <-|try by injection Hr as <- <-]; autorewrite with machine in Hr).
  injection Hr as <- <-. by apply (ledger_relabel id t).
Qed.

Lemma phase_ledger id t p s : ledger s -> get_object id s = Some t -> ledger (put_object id (with_phase p t) s).
Proof. intros Hs Hg. apply (ledger_relabel id t); [done..|]. by apply Hs in Hg as [Hl _]. Qed.

Lemma done_ledger id put s s' r : ledger s -> commit_done id put s = (r, s') -> ledger s'.
Proof.
  intros Hs Hr. unfold commit_done in Hr. autorewrite with machine in Hr. destruct (get_spend _ _); [|by injection Hr as <- <-].
  destruct (get_object id s) as [t|] eqn:Hg; [|by injection Hr as <- <-]. autorewrite with machine in Hr. unfold bindM in Hr.
  destruct (release_begin id _) as [r0 s1] eqn:E. apply (release_ledger id _ s' r0 (phase_ledger id t Done s Hs Hg)). destruct r0; injection Hr as <- <-; exact E.
Qed.

Lemma failed_ledger id s s' r : ledger s -> commit_failed id s = (r, s') -> ledger s'.
Proof.
  intros Hs Hr. unfold commit_failed in Hr. autorewrite with machine in Hr. destruct (get_object id s) as [t|] eqn:Hg; [|by injection Hr as <- <-]. autorewrite with machine in Hr.
  eapply release_ledger, Hr. apply phase_ledger; [|exact Hg]. by apply ledger_store.
Qed.

Lemma catch_ledger id s s' r : ledger s -> commit_catch id s = (r, s') -> ledger s'.
Proof.
  intros Hs Hr. unfold commit_catch in Hr. autorewrite with machine in Hr. destruct (has _); [by eapply cancel_ledger|by injection Hr as <- <-].
Qed.

(** ** Any order of steps *)

(** What can happen between two awaits, for any number of puts at once. An object
    is claimed for once, its authority is issued when it is claimed for, and its
    claim is given back once it is released. The rest of the store leaves the
    ledger alone. *)
Inductive lobby_step : lobby -> lobby -> Prop :=
| does_begin closing input aborted r s s' : stage_begin c verifySignature closing input aborted s = (r, s') -> lobby_step s s'
| does_claim id t r s s' : get_object id s = Some t -> t_quotaReserved t = false -> t_listed t = false -> stage_claim c id s = (r, s') -> lobby_step s s'
| does_deadline id now r s s' : stage_deadline c id now s = (r, s') -> lobby_step s s'
| does_issue id closing now aborted t r s s' : get_object id s = Some t -> t_quotaReserved t = true -> t_released t = false ->
    stage_issue id closing now aborted s = (r, s') -> lobby_step s s'
| does_release id r s s' : release_begin id s = (r, s') -> lobby_step s s'
| does_unclaim id t r s s' : get_object id s = Some t -> t_released t = true -> release_quota id s = (r, s') -> lobby_step s s'
| does_cancel id r s s' : cancel id s = (r, s') -> lobby_step s s'
| does_sweep now id r s s' : sweep_lease now id s = (r, s') -> lobby_step s s'
| does_commit id fenced admission now r s s' : commit_begin id fenced admission now s = (r, s') -> lobby_step s s'
| does_fence id put now fence aborted r s s' : commit_fence c id put now fence aborted s = (r, s') -> lobby_step s s'
| does_done id put r s s' : commit_done id put s = (r, s') -> lobby_step s s'
| does_failed id r s s' : commit_failed id s = (r, s') -> lobby_step s s'
| does_catch id r s s' : commit_catch id s = (r, s') -> lobby_step s s'
| does_else e s : atomicStaging e = atomicStaging (store s) -> lobby_step s (set_store e s).

Lemma step_ledger s s' : lobby_step s s' -> ledger s -> ledger s'.
Proof.
  intros [] Hs; [by eapply begin_ledger|by eapply claim_ledger|by eapply deadline_ledger|by eapply issue_ledger|by eapply release_ledger|by eapply unclaim_ledger|
    by eapply cancel_ledger|by eapply sweep_ledger|by eapply commit_begin_ledger|by eapply fence_ledger|by eapply done_ledger|by eapply failed_ledger|by eapply catch_ledger|
    by apply ledger_store].
Qed.

Lemma steps_ledger s s' : rtc lobby_step s s' -> ledger s -> ledger s'.
Proof. induction 1; [done|]. intros Hs. by apply IHrtc, (step_ledger x). Qed.

Lemma held_within f id t s : ledger s -> get_object id s = Some t -> (forall k x, 0 <= a_declaredBytes (t_input x) -> 0 <= f k x) -> f id t <= sum_of f (objects s).
Proof.
  intros Hs Hg Hf. destruct (only_entry Nat.eqb Nat.eqb_eq id (objects s) t (ledger_keys s Hs) Hg) as (l & r & E & _).
  assert (Hall : forall k x, In (k, x) (objects s) -> 0 <= f k x) by (intros k x Hin; apply Hf, (ledger_flags s Hs k), (in_get _ Nat.eqb_eq); [apply Hs|done]).
  rewrite E in Hall |- *. rewrite sum_of_app, sum_cons.
  assert (0 <= sum_of f l) by (apply sum_of_nonneg; intros; apply Hall, in_app_iff; by left).
  assert (0 <= sum_of f r) by (apply sum_of_nonneg; intros; apply Hall, in_app_iff; right; by right). lia.
Qed.

(** C20: The ledger of staged bodies is exact. Whatever is staged, cancelled, swept,
    committed, failed and released, and in whatever order, it counts the bytes,
    the items and the bytes of each profile of the objects whose quota is
    reserved; and an authority that is issued has its credit there, so the quota
    check of a commit never finds the credit invalid. *)
Theorem staging_ledger_exact e s : atomicStaging e = {| a_bytes := 0; a_byProfile := []; a_items := 0 |} -> rtc lobby_step (first_lobby e) s ->
  a_bytes (atomicStaging (store s)) = sum_of held (objects s) /\ a_items (atomicStaging (store s)) = sum_of held_one (objects s) /\
  (forall p, profile_bytes p (a_byProfile (atomicStaging (store s))) = sum_of (held_of p) (objects s)) /\
  (forall id t, get_object id s = Some t -> t_listed t = true ->
    checkCreateQuota c (a_declaredBytes (t_input t)) (a_profileId (t_input t)) (a_declaredBytes (t_input t)) (store s) <> Err INTERNAL).
Proof.
  intros He Hr. pose proof (steps_ledger _ _ Hr (first_ledger e He)) as Hs. split_and!; [apply Hs..|]. intros id t Hg Hl.
  destruct (ledger_flags s Hs id t Hg) as [Hq _]. destruct (Hq Hl) as [Hq' _].
  assert (H1 : a_declaredBytes (t_input t) <= a_bytes (atomicStaging (store s))).
  { rewrite (ledger_bytes s Hs). replace (a_declaredBytes (t_input t)) with (held id t) by (unfold held; by rewrite Hq'). apply held_within; [done..|]. intros k x Hx. unfold held. by destruct (t_quotaReserved x). }
  assert (H2 : a_declaredBytes (t_input t) <= profile_bytes (a_profileId (t_input t)) (a_byProfile (atomicStaging (store s)))).
  { rewrite (ledger_profiles s Hs). replace (a_declaredBytes (t_input t)) with (held_of (a_profileId (t_input t)) id t) by (unfold held_of; by rewrite Hq', Z.eqb_refl). apply held_within; [done..|].
    intros k x Hx. unfold held_of. by destruct (_ && _). }
  unfold checkCreateQuota. replace (_ || _) with false by (symmetry; apply orb_false_intro; apply Z.ltb_ge; lia). cbn [throw_if bindR].
  repeat (match goal with |- context [throw_if ?b BUSY] => destruct (throw_if b BUSY) as [[]|?] eqn:? end; [cbn [bindR]|unfold throw_if in *; by case_match; simplify_eq]). done.
Qed.
End Steps.
End WithPlatform.
End CellLedger.
