(* ===== verification/CellAtomic.v ===== *)
(** * The cell store: what the commit of an atomic put appends *)

From Stdlib Require Import ZArith Lia Bool List String Ascii.
From Stdlib Require Import Strings.Byte.
From stdpp Require Import base tactics list strings.
From S2P Require Import Prelude JsMap Codec CodecLaws Authority Hashes SchemaKit ResultBinding HashLaws Accepted WriteAheadLog CellRecords ExpiryHeap CellStore CellApply CellBooks CellLife CellSpends CellOperations CellProposals CellStaging.

Module CellAtomic.
Import Binding CellRecord Cells Apply CellBooks CellLife CellSpends CellOps CellProposals Staging.

#[local] Arguments lease_epochs : simpl never.
#[local] Arguments size_bytes : simpl never.
#[local] Arguments resultIdentity : simpl never.
#[local] Arguments requestFingerprint : simpl never.
#[local] Arguments Z.add : simpl never.
#[local] Arguments fixed : simpl never.
#[local] Arguments integer : simpl never.
#[local] Arguments u64 : simpl never.
#[local] Arguments encodeCanonical : simpl never.
#[local] Arguments bound_admission : simpl never.
#[local] Arguments resultBindingBytes : simpl never.

Section WithPlatform.
Context `{Platform}.
Context (c : config) (verifySignature : bytes -> bytes -> bytes -> bool).

(** What a commit starts with: the put is the staged one with an admission. *)
Definition put_fingerprint_of (put : put_input) : bytes := requestFingerprint
  [p_spendTag put; p_requestCommitment put; p_storageSlot put; p_allocationCommitment put; p_declaredBlobHash put;
   u32bytes (size_bytes (p_sizeClass put)); [z2b (p_leaseClass put)]; u32bytes (p_profileId put); Hash.blake2b256 (p_preparedAdmissionBytes put)].

Lemma commit_begin_ok input id t fenced admission now l put l' : atomicStagingInput c verifySignature input = Ok (t_input t) -> live_lease id l = Some t ->
  commit_begin id fenced admission now l = (Ok put, l') -> put_checked c verifySignature put /\ p_fingerprint put = put_fingerprint_of put /\
  exists binding, p_resultBindingBytes put = Some binding.
Proof.
  intros Hi Hl Hq. unfold commit_begin in Hq. autorewrite with machine in Hq. rewrite Hl in Hq. autorewrite with machine in Hq. destruct fenced; [|done].
  autorewrite with machine in Hq. cbn [negb] in Hq. destruct (u64 now); [|done]. destruct (_ <=? _); [by unfold bindM in Hq; destruct (cancel id l) as [[]]|].
  autorewrite with machine in Hq. destruct (preparedAdmission admission) as [[p bs]|] eqn:Hp; [|done]. autorewrite with machine in Hq.
  destruct (_ || _) eqn:Hc; [by unfold bindM in Hq; destruct (cancel id l) as [[]]|]. injection Hq as <- <-.
  apply orb_false_elim in Hc as [Hc Hn]. apply negb_false_iff, bytes_eqb_eq in Hc. apply negb_false_iff in Hn.
  unfold atomicStagingInput, validateDistinctKeys in Hi. apply bindR_ok in Hi as ([] & _ & Hi). cbv zeta in Hi. apply bindR_ok in Hi as (binding & Hb & Hi).
  apply bindR_ok in Hi as (binding' & Hbb & Hi). destruct binding as [binding|]; [|done]. injection Hbb as ->. apply bindR_ok in Hi as (profileId & _ & Hi).
  apply bindR_ok in Hi as ([[create renew] drop] & Hk & Hi). apply bindR_ok in Hk as (create' & Hk1 & Hk). apply bindR_ok in Hk as (renew' & Hk2 & Hk).
  apply bindR_ok in Hk as (drop' & Hk3 & Hk). apply bindR_ok in Hk as ([] & Hd & Hk). injection Hk as -> -> ->. apply fail_if_ok, negb_false_iff in Hd.
  apply bindR_ok in Hi as (slot & _ & Hi). apply bindR_ok in Hi as (allocationEpoch & _ & Hi). apply bindR_ok in Hi as (sizeClass & Hs & Hi).
  apply bindR_ok in Hi as (leaseClass & Hle & Hi). apply bindR_ok in Hi as (nonce & _ & Hi). apply bindR_ok in Hi as (blob & Hblob & Hi).
  apply bindR_ok in Hi as (slot' & Hslot & Hi). apply bindR_ok in Hi as ([] & He & Hi). apply throw_if_ok, negb_false_iff, bytes_eqb_eq in He as ->.
  apply bindR_ok in Hi as (allocation & Ha & Hi). apply bindR_ok in Hi as (verified & Hv & Hi). apply bindR_ok in Hi as ([] & Hver & Hi).
  apply bindR_ok in Hi as (commitment & _ & Hi). apply throw_if_ok, negb_false_iff in Hver. injection Hi as Hi. rewrite <- Hi in *. cbn in Hc, Hn.
  destruct (prepared_fields _ _ _ Hp) as [Z1 Z2]. apply fixed_ok in Hk1 as (_ & _ & Z3), Hk2 as (_ & _ & Z4), Hk3 as (_ & _ & Z5), Hblob as (_ & _ & Z6).
  unfold verifyEd25519 in Hv. oks. split; [|split; [done|by eexists]]. split; cbn [as_put p_storageSlot p_allocationEpoch p_sizeClass p_leaseClass p_declaredBlobHash p_createPublicKey p_renewPublicKey p_dropPublicKey
    p_allocationCommitment p_requestCommitment p_spendTag p_profileId p_preparedAdmissionBytes p_fingerprint p_resultBindingBytes a_storageSlot a_allocationEpoch a_sizeClass
    a_leaseClass a_declaredBlobHash a_createPublicKey a_renewPublicKey a_dropPublicKey a_allocationCommitment a_requestCommitment a_profileId a_resultBindingBytes]; try done.
  - by eapply binding_again.
  - exists admission, p. split_and!; try done. apply prepared_again in Hp as (_ & _ & _ & _ & (n & Hn' & _)). rewrite Hn' in Hn |- *. cbn in Hn. b2p. by subst.
  - cbn [existsb]. rewrite Z1, Z2, Z3, Z4, Z5, Z6; done.
  - by eapply integer_range.
  - by eapply integer_range.
  - apply fixed_ok in H0 as (Hx & _). injection Hx as <-. eauto.
Qed.
(** What the fence has seen of the store. *)
Lemma fence_ok id put now fence l leaseEpoch identity l' : commit_fence c id put now fence false l = (Ok (inr (leaseEpoch, identity)), l') ->
  let s := store l in
  store l' = s /\ get_commitment (p_requestCommitment put) s = None /\ get_cell (p_storageSlot put) s = None /\
  p_allocationEpoch put <= epochFloor s + 1 /\ epochFloor s < p_allocationEpoch put + RETENTION_HORIZON_EPOCHS /\
  leaseEpoch = epochFloor s + lease_epochs (p_leaseClass put) /\
  identity = resultIdentity "stored" (p_storageSlot put) (p_requestCommitment put) (p_declaredBlobHash put) (p_leaseClass put) leaseEpoch 0.
Proof.
  intros Hq. unfold commit_fence in Hq. autorewrite with machine in Hq. destruct (get_object id l) as [t|]; [|done]. autorewrite with machine in Hq.
  destruct (_ || _); [done|]. destruct (u64 now); [|done]. destruct (_ <=? _).
  { exfalso. rewrite bind_bind, bind_modify in Hq. unfold bindM in Hq. by destruct (release_begin id _) as [[]]. }
  autorewrite with machine in Hq. destruct (match get_spend _ _ with Some _ => _ | None => _ end) as [[v|]|]; [| |done].
  { exfalso. autorewrite with machine in Hq. unfold bindM in Hq. by destruct (release_begin id _) as [[]]. }
  destruct (get_commitment _ _) as [[]|] eqn:Hcom; [done|]. autorewrite with machine in Hq. destruct (has _) eqn:Hcell; [done|]. apply has_none in Hcell.
  destruct (checkAllocationWindow _ _) as [[]|] eqn:Hw; [|done]. autorewrite with machine in Hq. destruct (checkCreateQuota _ _ _ _ _) as [[]|]; [|done]. autorewrite with machine in Hq.
  destruct (leaseEpochFor _ _) as [lease|] eqn:Hlease; [|done]. autorewrite with machine in Hq. destruct fence; [|done]. autorewrite with machine in Hq.
  destruct (negb _); [done|]. injection Hq as <- <- <-. unfold checkAllocationWindow in Hw. apply throw_if_ok in Hw. b2p. unfold leaseEpochFor in Hlease. oks.
  cbn [store put_object]. split_and!; done || lia.
Qed.

Lemma spend_free put s : sound s -> get_commitment (p_requestCommitment put) s = None -> forall e, get_spend (p_spendTag put) s = Some e ->
  spendReplay e put s = Ok None -> False.
Proof.
  intros Hs Hc e He (Hr & _)%replay_none. destruct (spend_at s (proj1 Hs) _ _ He) as (_ & _ & Hm). rewrite Hr, Hc in Hm. done.
Qed.

Lemma fence_spend id put now fence l leaseEpoch identity l' : sound (store l) -> commit_fence c id put now fence false l = (Ok (inr (leaseEpoch, identity)), l') ->
  get_spend (p_spendTag put) (store l) = None.
Proof.
  intros Hs Hq. pose proof (fence_ok _ _ _ _ _ _ _ _ Hq) as (_ & Hc & _). unfold commit_fence in Hq. autorewrite with machine in Hq.
  destruct (get_object id l) as [t|]; [|done]. autorewrite with machine in Hq. destruct (_ || _); [done|]. destruct (u64 now); [|done]. destruct (_ <=? _).
  { exfalso. rewrite bind_bind, bind_modify in Hq. unfold bindM in Hq. by destruct (release_begin id _) as [[]]. }
  autorewrite with machine in Hq. destruct (get_spend (p_spendTag put) (store l)) as [e|] eqn:He; [|done]. exfalso.
  destruct (spendReplay e put (store l)) as [[v|]|] eqn:Er; [| |done].
  - autorewrite with machine in Hq. unfold bindM in Hq. by destruct (release_begin id _) as [[]].
  - by eapply spend_free.
Qed.

Lemma atomic_applies id put now fence l leaseEpoch identity l' objectId tx q s1 : sound (store l) -> room (store l) -> put_checked c verifySignature put ->
  p_fingerprint put = put_fingerprint_of put -> (exists binding, p_resultBindingBytes put = Some binding) -> isZero tx = false ->
  commit_fence c id put now fence false l = (Ok (inr (leaseEpoch, identity)), l') -> commit_record put leaseEpoch identity objectId tx (store l) = (Ok (inr q), s1) ->
  s1 = store l /\ applies c q (store l).
Proof.
  intros Hs Hroom [Hb (v & p & Hp & Ht & Hr & Hn) Hslot Hall Hkeys Hnz Hsize Hlease _] Hfp [binding Hbinding] Htx Hq Hrec.
  pose proof (fence_spend _ _ _ _ _ _ _ _ Hs Hq) as Hspend. apply fence_ok in Hq as (_ & Hcom & Hcell & W1 & W2 & -> & ->).
  unfold commit_record in Hrec. autorewrite with machine in Hrec. set (s := store l) in *.
  eapply applies_value; [exact Hrec|reflexivity|by rewrite Hbinding|].
  intros f Hf Hv. apply append_ok in Hrec as (_ & codec & payload & _ & _ & ->). applying Hf. match type of Hv with holds_value _ ?x => set (value := x) in * end.
  pose proof (value_keyed f value Hv) as Hkeyed. rewrite (for_type _ _ Hf) in Hkeyed. specialize (Hkeyed (or_intror eq_refl)).
  assert (Hcheck : checkAtomicPut c f value s = Ok (p_resultBindingBytes put, p_preparedAdmissionBytes put)).
  { unfold checkAtomicPut. change (raw value.["storageSlot"]) with (p_storageSlot put). rewrite (bucket_for _ _ _ Hf eq_refl). cbn [bindR].
    change (raw value.["spendTag"]) with (p_spendTag put). change (raw value.["requestCommitment"]) with (p_requestCommitment put).
    rewrite Hspend, Hcom, Hcell. cbn [has orb integrity_if throw_if bindR]. rewrite (for_transaction _ _ Hf). cbn [q_transactionId]. rewrite Htx. cbn [integrity_if throw_if bindR].
    change (num value.["sizeClass"]) with (p_sizeClass put). change (num value.["declaredBytes"]) with (size_bytes (p_sizeClass put)).
    rewrite Z.eqb_refl. cbn [negb integrity_if throw_if bindR].
    change (Hash.cellStorageSlot value) with (Hash.cellStorageSlot (VObj [("allocationEpoch", VNum (p_allocationEpoch put)); ("createPublicKey", VBytes (p_createPublicKey put))])).
    rewrite Hslot. cbn [bindR]. rewrite bytes_eqb_refl. cbn [negb integrity_if throw_if bindR].
    change (raw value.["createPublicKey"]) with (p_createPublicKey put). change (raw value.["renewPublicKey"]) with (p_renewPublicKey put).
    change (raw value.["dropPublicKey"]) with (p_dropPublicKey put). rewrite Hkeys. cbn [negb integrity_if throw_if bindR].
    change (allocation_of c value) with (VObj [("relayPublicKey", VBytes (relayPublicKey c)); ("storageSlot", VBytes (p_storageSlot put));
      ("allocationEpoch", VNum (p_allocationEpoch put)); ("sizeClass", VNum (p_sizeClass put)); ("leaseClass", VNum (p_leaseClass put));
      ("declaredCellBlobHash", VBytes (p_declaredBlobHash put)); ("createPublicKey", VBytes (p_createPublicKey put));
      ("renewPublicKey", VBytes (p_renewPublicKey put)); ("dropPublicKey", VBytes (p_dropPublicKey put))]).
    rewrite Hall. cbn [bindR]. change (raw value.["allocationCommitment"]) with (p_allocationCommitment put). rewrite bytes_eqb_refl. cbn [negb integrity_if throw_if bindR].
    change (value.["resultBindingBytes"]) with (val_of (p_resultBindingBytes put)). rewrite Hb, (bound_again _ _ _ value true Hp) by done. cbn [bindR integrity].
    change (put_fingerprint value _) with (put_fingerprint_of put). change (raw value.["requestFingerprint"]) with (p_fingerprint put). rewrite Hfp, bytes_eqb_refl.
    change (num value.["committedEpoch"]) with (epochFloor s). change (num value.["leaseClass"]) with (p_leaseClass put).
    change (num value.["leaseEpoch"]) with (epochFloor s + lease_epochs (p_leaseClass put)). change (raw value.["declaredBlobHash"]) with (p_declaredBlobHash put).
    change (num value.["allocationEpoch"]) with (p_allocationEpoch put).
    match goal with |- context [bytes_eqb ?x (raw value.["resultIdentity"])] => change (raw value.["resultIdentity"]) with x end.
    rewrite !Z.eqb_refl, bytes_eqb_refl. subst s. replace (_ <? _) with false by (symmetry; apply Z.ltb_ge; lia). replace (_ <=? _) with false by (symmetry; apply Z.leb_gt; lia). done. }
  pose proof (size_bytes_range (p_sizeClass put)).
  eexists; split; [apply (checked_run _ _ _ _ Hcheck)|]. assert (Hs' := atomic_sound c f value _ _ Hkeyed Hs (checked_run _ _ _ _ Hcheck)).
  apply (accounting_holds s); try done; try counters Hroom.
Qed.
End WithPlatform.
End CellAtomic.
