(* ===== verification/CellSafety.v ===== *)
(** * The cell store: nothing it decides ruins it

    The store as a whole: what it decides can be replayed, its books balance, a
    restart gives its state back, and only the holders of keys change cells. *)

From Stdlib Require Import ZArith Lia Bool List String Ascii.
From Stdlib Require Import Strings.Byte.
From stdpp Require Import base tactics list strings.
From S2P Require Import Prelude JsMap Codec CodecLaws Authority Hashes SchemaKit ResultBinding HashLaws Accepted WriteAheadLog CellRecords ExpiryHeap CellStore CellApply CellBooks CellLife CellSpends CellOperations CellProposals CellReads CellRecovery CellStaging CellAtomic.

Module CellSafety.
Import Binding CellRecord Cells Apply CellBooks CellLife CellSpends CellOps CellProposals CellReads CellRecovery Staging CellAtomic.

Section WithPlatform.
Context `{Platform}.
Context (c : config) (verifySignature : bytes -> bytes -> bytes -> bool).

(** ** What is decided under the locks *)

(** An operation of the store, in a state of it, hands a record to the log and
    leaves a state behind. Object and transaction identifiers are not zero, nor are fingerprints;
    a put is published after its attempt was taken, and a clock is confirmed at
    an epoch that is still not behind. *)
Inductive decides (s : engine) : proposal -> engine -> Prop :=
| decides_clock observedEpoch tx q s1 : refreshClock observedEpoch tx s = (Ok (inr q), s1) -> decides s q s1
| decides_confirm confirmedEpoch tx q s1 : epochFloor s <= confirmedEpoch -> confirmClock confirmedEpoch tx s = (Ok (inr q), s1) -> decides s q s1
| decides_reserve request admission resultBinding input now tx q s1 : putInput c verifySignature request admission resultBinding = Ok input ->
    isZero (p_fingerprint input) = false -> 0 < reservationMillis c -> reservePut c input now tx false s = (Ok (inr q), s1) -> decides s q s1
| decides_attempt input now q s1 : consumeAttempt input now false s = (Ok (inr q), s1) -> decides s q s1
| decides_publish input same e i leaseEpoch identity objectId q s0 s1 : isZero objectId = false ->
    publishPut input same false s = (Ok (inr (e, i, leaseEpoch, identity)), s0) -> (forall r, i_reservation i = Some r -> remainingAttempts r <= 1) ->
    commitPut e i leaseEpoch identity objectId s = (Ok (inr q), s1) -> decides s q s1
| decides_fail spendTag terminal expired q s1 : failPut spendTag terminal expired s = (Ok (inr q), s1) -> decides s q s1
| decides_atomic input t id fenced admission now0 l0 put l1 now fence l leaseEpoch identity l2 objectId tx q s1 :
    atomicStagingInput c verifySignature input = Ok (t_input t) -> live_lease id l0 = Some t -> commit_begin id fenced admission now0 l0 = (Ok put, l1) ->
    store l = s -> isZero tx = false -> commit_fence c id put now fence false l = (Ok (inr (leaseEpoch, identity)), l2) ->
    commit_record put leaseEpoch identity objectId tx s = (Ok (inr q), s1) -> decides s q s1
| decides_sweep spendTag now q s1 : sweepReservation spendTag now s = (Ok (inr q), s1) -> decides s q s1
| decides_renew request admission resultBinding input tx q s1 : renewInput c request admission resultBinding = Ok input ->
    renewCell c verifySignature input tx s = (Ok (inr q), s1) -> decides s q s1
| decides_drop request input tx q s1 : dropInput c request = Ok input -> dropCell verifySignature input tx s = (Ok (inr q), s1) -> decides s q s1
| decides_policy storageSlot revision suppress tx q s1 : setPolicy storageSlot revision suppress tx s = (Ok (inr q), s1) -> decides s q s1
| decides_gc storageSlot tx same q s1 : gc storageSlot same tx s = (Ok (inr q), s1) -> decides s q s1
| decides_compact limit candidate tx q s1 : In candidate (compact_candidates limit s) -> compact candidate tx s = (Ok (inr q), s1) -> decides s q s1
| decides_read operationId request requestCommitment admission resultBinding input now tx q s1 :
    chargedReadInput c operationId request requestCommitment admission resultBinding = Ok input -> isZero (g_fingerprint input) = false ->
    chargedCellRead c input now tx s = (Ok (inr q), s1) -> decides s q s1
| decides_finalize spendTag requestCommitment resultCommitment slots now q s1 : isZero resultCommitment = false ->
    finalizeChargedCellRead spendTag requestCommitment resultCommitment slots now s = (Ok (inr q), s1) -> decides s q s1
| decides_expiry candidate now q s1 : expirePin candidate now s = (Ok (inr q), s1) -> decides s q s1
| decides_integrity failures tx q s1 : recordIntegrityFailures failures tx s = (Ok (inr q), s1) -> decides s q s1.

Lemma fail_decided spendTag terminal expired s q s1 : sound s -> room s -> failPut spendTag terminal expired s = (Ok (inr q), s1) ->
  durable s1 = durable s /\ applies c q s1.
Proof.
  intros Hs Hroom Hq. unfold failPut in Hq. autorewrite with machine in Hq. pose proof (inflight_durable spendTag false s Hs) as Hd.
  assert (Hroom' : room (set_inFlight spendTag false s)) by (unfold room; unfold set_inFlight; repeat case_match; exact Hroom).
  set (s0 := set_inFlight spendTag false s) in *. assert (Hs0 : sound s0) by (apply sound_durable; rewrite Hd; by apply sound_durable).
  destruct (get_spend spendTag s0) as [e|] eqn:Hg; [|done]. destruct (e_detail e) as [i| |] eqn:He; try done. destruct (i_reservation i) as [r|] eqn:Hr; [|done].
  destruct (_ && _) eqn:Hc in Hq; [|done]. apply andb_prop in Hc as [_ Hst]. apply bool_decide_eq_true in Hst.
  destruct (terminal_applies c spendTag e i r _ s0 q s1 Hs0 Hroom' Hg He Hst Hr Hq) as [-> Ha]. done.
Qed.

Lemma decided s q s1 : sound s -> all_bound c s -> room s -> decides s q s1 -> durable s1 = durable s /\ applies c q s1.
Proof.
  intros Hs Hb Hroom Hd.
  assert (Hsame : s1 = s /\ applies c q s -> durable s1 = durable s /\ applies c q s1) by (by intros [-> ?]).
  destruct Hd; try (match goal with E : failPut _ _ _ s = _ |- _ => by eapply fail_decided end); [apply Hsame..|].
  - by eapply refresh_applies.
  - by eapply confirm_applies.
  - eapply reserve_applies; [done..| |done|done|done]. by eapply putInput_ok.
  - by eapply consume_applies.
  - by eapply commit_applies.
  - match goal with E : store l = s |- _ => subst s end.
    match goal with E : commit_begin _ _ _ _ _ = _ |- _ => eapply commit_begin_ok in E as (Hput & Hfp & Hbd); [|done..] end. by eapply atomic_applies.
  - by eapply sweep_applies.
  - by eapply renew_applies.
  - by eapply drop_applies.
  - by eapply policy_applies.
  - by eapply gc_applies.
  - by eapply compact_applies.
  - by eapply read_applies.
  - by eapply finalize_applies.
  - by eapply expire_applies.
  - destruct (integrity_applies c failures tx s q s1 Hs Hroom H0) as [[->| ->] Ha]; (split; [reflexivity|done]) || (split; [by apply durable_ext|done]).
Qed.
(** C3: A restart gives the state back. Whatever a store did since it was
    opened, replaying its log succeeds and gives its state again, up to the
    attempts in flight, the queue of expiries, the staged bodies and the reason to
    be read only. *)
Theorem restart_restores log s : live c log s -> exists s', replay c log new_engine = (Ok tt, s') /\ durable s' = durable s.
Proof. intros (s' & Hr & Hd & _)%live_recovers. by exists s'. Qed.

(** C6: The books balance. In a store that is running every counter is the sum
    it stands for over the cells and the spends, an entry is found under its own
    key in a state its kind can be in, and spends and commitments name each other. *)
Theorem books_balance log s : live c log s -> sound s.
Proof. by intros [Hs _]%live_sound. Qed.

(** C2: What the store decides it can replay. Whatever an operation of a store
    that is running hands to the log (the clock, reservations, attempts, puts,
    atomic puts, renewals, drops, policy, collection, compaction, charged reads,
    integrity failures), with counters that have room to 2^53, the record applies to the
    state it was decided in, and replaying the log with the record at its end
    succeeds and gives the same durable state. *)
Theorem decisions_replay log s q s1 f : live c log s -> room s -> decides s q s1 -> frame_for q f ->
  exists s2 s3, applyFrame c f false s1 = (Ok tt, s2) /\ live c (log ++ [f]) s2 /\
    replay c (log ++ [f]) new_engine = (Ok tt, s3) /\ durable s3 = durable s2.
Proof.
  intros Hl Hroom Hd Hf. destruct (live_sound c log s Hl) as [Hs Hb]. destruct (decided s q s1 Hs Hb Hroom Hd) as [Hsame Ha].
  destruct (Ha f Hf) as [s2 Hq]. assert (Hl2 : live c (log ++ [f]) s2) by (eapply appended; [|exact Hq]; by eapply between).
  destruct (live_recovers c _ _ Hl2) as (s3 & Hr & Hd3 & _). by exists s2, s3.
Qed.

Lemma verified_ok publicKey message signature : verifyEd25519 verifySignature publicKey message signature = Ok true ->
  exists bs, signature = VBytes bs /\ blen bs = 64 /\ verifySignature publicKey message bs = true.
Proof.
  unfold verifyEd25519. intros (key & (E & _)%fixed_ok & Hq)%bindR_ok. injection E as ->.
  apply bindR_ok in Hq as (bs & (-> & Hl & _)%fixed_ok & [= Hv]). by exists bs.
Qed.

Lemma managed_ok slot s record : managementRecord slot s = Ok record -> get_cell slot s = Some record.
Proof. unfold managementRecord. destruct (get_cell slot s); [by intros [= ->]|done]. Qed.

Lemma integer_num v lo hi n : integer v lo hi = Ok n -> v = VNum n.
Proof. unfold integer. destruct v; try done. intros Hq. oks. done. Qed.

(** The commitment of a request to renew or drop. *)
Definition commits (label : string) (slot : bytes) (revision leaseEpoch leaseClass : Z) (nonce commitment : bytes) : Prop :=
  Hash.commitment (Hash.cellManagePreimage (manage_of c label slot revision leaseEpoch leaseClass nonce)) = Ok commitment.

Lemma renew_commitment request admission resultBinding input : renewInput c request admission resultBinding = Ok input -> exists nonce,
  request.["storageSlot"] = VBytes (w_storageSlot input) /\ u64 request.["expectedRevision"] = Ok (w_expectedRevision input) /\
  request.["expectedLeaseEpoch"] = VNum (w_expectedLeaseEpoch input) /\ request.["leaseClass"] = VNum (w_leaseClass input) /\
  request.["clientNonce"] = VBytes nonce /\ request.["signature"] = w_signature input /\
  commits "cell-renew" (w_storageSlot input) (w_expectedRevision input) (w_expectedLeaseEpoch input) (w_leaseClass input) nonce (w_commitment input).
Proof.
  unfold renewInput. intros Hq. apply bindR_ok in Hq as ([] & _ & Hq). apply bindR_ok in Hq as (binding & _ & Hq).
  apply bindR_ok in Hq as (slot & (Hslot & _)%fixed_ok & Hq). apply bindR_ok in Hq as (revision & Hrev & Hq). apply bindR_ok in Hq as (lease & Hlease%integer_num & Hq).
  apply bindR_ok in Hq as (leaseClass & Hclass%integer_num & Hq). apply bindR_ok in Hq as (nonce & (Hnonce & _)%fixed_ok & Hq). apply bindR_ok in Hq as (commitment & Hc & Hq).
  apply bindR_ok in Hq as ([p bs] & _ & Hq). apply bindR_ok in Hq as ([] & _ & Hq). injection Hq as <-. exists nonce. by split_and!.
Qed.

(** The request itself, or the one in the envelope it came in. *)
Definition drop_request (request : val) : val := if nullish request.["request"] then request else request.["request"].

Lemma drop_commitment request input : dropInput c request = Ok input -> exists nonce,
  (drop_request request).["storageSlot"] = VBytes (x_storageSlot input) /\ u64 (drop_request request).["expectedRevision"] = Ok (x_expectedRevision input) /\
  (drop_request request).["expectedLeaseEpoch"] = VNum (x_expectedLeaseEpoch input) /\
  (drop_request request).["clientNonce"] = VBytes nonce /\ (drop_request request).["signature"] = x_signature input /\
  commits "cell-drop" (x_storageSlot input) (x_expectedRevision input) (x_expectedLeaseEpoch input) 0 nonce (x_commitment input).
Proof.
  unfold dropInput. intros Hq. apply bindR_ok in Hq as ([] & _ & Hq). cbv zeta in Hq. fold (drop_request request) in Hq. apply bindR_ok in Hq as (binding & _ & Hq).
  apply bindR_ok in Hq as (slot & (Hslot & _)%fixed_ok & Hq). apply bindR_ok in Hq as (revision & Hrev & Hq). apply bindR_ok in Hq as (lease & Hlease%integer_num & Hq).
  apply bindR_ok in Hq as (nonce & (Hnonce & _)%fixed_ok & Hq). apply bindR_ok in Hq as (commitment & Hc & Hq). injection Hq as <-. exists nonce. by split_and!.
Qed.

(** The request is for a cell as it is, and its own signature is one of that
    cell's key on everything the request says. *)
Record signed_request (label : string) (key_of : cell -> bytes) (request : val) (leaseClass : Z) (s : engine) (slot : bytes) (record : cell)
    (nonce signature : bytes) : Prop := {
  request_slot : request.["storageSlot"] = VBytes slot;
  request_revision : u64 request.["expectedRevision"] = Ok (c_stateRevision record);
  request_lease : request.["expectedLeaseEpoch"] = VNum (c_leaseEpoch record);
  request_nonce : request.["clientNonce"] = VBytes nonce;
  request_signature : request.["signature"] = VBytes signature;
  request_cell : get_cell slot s = Some record;
  request_present : c_objectState record = Present;
  request_verified : exists commitment, commits label slot (c_stateRevision record) (c_leaseEpoch record) leaseClass nonce commitment /\
    verifySignature (key_of record) commitment signature = true
}.

(** C7: Only the holder of a key renews or drops a cell. When the store decides a
    renewal or a drop, the slot that the request names holds a cell with the
    revision and the lease that the request names, and the signature that the
    request carries verifies, under the key of that cell for that kind of change,
    on the commitment to the slot, revision, lease, lease class and nonce of the
    request. *)
Theorem management_is_signed s q s1 :
  (forall request admission resultBinding input tx, renewInput c request admission resultBinding = Ok input ->
    renewCell c verifySignature input tx s = (Ok (inr q), s1) ->
    exists leaseClass slot record nonce signature, request.["leaseClass"] = VNum leaseClass /\
      signed_request "cell-renew" c_renewPublicKey request leaseClass s slot record nonce signature) /\
  (forall request input tx, dropInput c request = Ok input -> dropCell verifySignature input tx s = (Ok (inr q), s1) ->
    exists slot record nonce signature, signed_request "cell-drop" c_dropPublicKey (drop_request request) 0 s slot record nonce signature).
Proof.
  split.
  - intros request admission resultBinding input tx (nonce & Hslot & Hrev & Hlease & Hclass & Hnonce & Hsig & Hn)%renew_commitment Hq. unfold renewCell in Hq. autorewrite with machine in Hq.
    destruct (managementRecord _ s) as [record|] eqn:Hrec; [|done]. apply managed_ok in Hrec. autorewrite with machine in Hq.
    destruct (verifyEd25519 _ _ _ _) as [[]|] eqn:Hv; [|done..]. apply verified_ok in Hv as (signature & Hw & _ & Hv). cbn [negb] in Hq.
    destruct (get_spend _ s); [autorewrite with machine in Hq; repeat case_match; done|]. destruct (get_commitment _ s) as [[]|]; [done|]. autorewrite with machine in Hq.
    destruct (_ || _) eqn:E1 in Hq; [done|]. destruct (_ || _) eqn:E2 in Hq; [done|]. b2p.
    match goal with E : bool_decide _ = false |- _ => apply bool_decide_eq_false, dec_stable in E end.
    exists (w_leaseClass input), (w_storageSlot input), record, nonce, signature. split; [done|]. split; try congruence. exists (w_commitment input). split; [congruence|done].
  - intros request input tx (nonce & Hslot & Hrev & Hlease & Hnonce & Hsig & Hn)%drop_commitment Hq. unfold dropCell in Hq. autorewrite with machine in Hq.
    destruct (managementRecord _ s) as [record|] eqn:Hrec; [|done]. apply managed_ok in Hrec. autorewrite with machine in Hq.
    destruct (verifyEd25519 _ _ _ _) as [[]|] eqn:Hv; [|done..]. apply verified_ok in Hv as (signature & Hw & _ & Hv). cbn [negb] in Hq.
    destruct (get_result _ s); [autorewrite with machine in Hq; repeat case_match; done|]. autorewrite with machine in Hq.
    destruct (bool_decide _) eqn:E1 in Hq; [done|]. destruct (_ || _) eqn:E2 in Hq; [done|]. b2p. apply bool_decide_eq_false, dec_stable in E1.
    exists (x_storageSlot input), record, nonce, signature. split; try congruence. exists (x_commitment input). split; [congruence|done].
Qed.

(** ** Compaction takes no lock *)

(** A record that compacts an entry does not apply a second time, so of two
    calls that found the same entry the second leaves a log that does not open. *)
Theorem compacts_once f g value s s' s2 : applyCompact f value s = (Ok tt, s') -> applyCompact g value s' <> (Ok tt, s2).
Proof.
  intros Hq Hq2. unfold applyCompact in Hq, Hq2. autorewrite with machine in Hq, Hq2. destruct (integrity_if _) as [[]|] in Hq; [|done].
  destruct (integrity_if _) as [[]|] in Hq2; [|done]. cbv zeta in Hq, Hq2. set (key := raw value.["key"]) in *.
  destruct (_ =? COMPACT_KIND_CELL); [destruct (get_cell key s) in Hq|destruct (_ =? COMPACT_KIND_SPEND); [destruct (get_spend key s) in Hq|destruct (get_result key s) in Hq]]; try done;
    autorewrite with machine in Hq; (destruct (integrity_if _) as [[]|] in Hq; [|done]); injection Hq as <-;
    unfold get_cell, get_spend, get_result in Hq2; cbn -[map_delete map_get] in Hq2; rewrite get_delete, bytes_eqb_refl in Hq2 by apply bytes_eqb_eq; done.
Qed.

(** ** What the clock does to a record in the queue *)

Lemma same_value f v w : holds_value f v -> holds_value f w -> v = w.
Proof. intros (e & He & Hd) (e' & He' & Hd'). rewrite He in He'. simplify_eq. congruence. Qed.

Lemma proposed {R} type t tx bucket value s (q : proposal) s1 f : append (R := R) type tx bucket value s = (Ok (inr q), s1) ->
  type_of type = Some t -> has_type t value = true -> frame_for q f -> holds_value f value.
Proof.
  intros (-> & codec & payload & Hc & He & ->)%append_ok Ht Hv Hf. destruct (codec_lawful _ _ Hc) as (t' & Ht' & Hl). rewrite Ht in Ht'. injection Ht' as <-.
  exists codec. rewrite (for_type _ _ Hf), (for_payload _ _ Hf). split; [done|]. by apply (codec_roundtrip codec t).
Qed.

(** What does not apply spoils the log it is in. *)
Lemma spoils log s f value : live c log s -> holds_value f value -> (forall r s', applyValue c f value r s <> (Ok tt, s')) ->
  forall recovering s', applyFrame c f recovering s <> (Ok tt, s') /\ replay c (log ++ [f]) new_engine <> (Ok tt, s').
Proof.
  intros Hl Hv Hno recovering s'. split.
  - intros (value' & Hv' & Ha & _)%frame_ok. rewrite (same_value f value' value Hv' Hv) in Ha. by eapply Hno.
  - intros (s5 & H1 & H2)%replay_app. destruct (live_recovers c log s Hl) as (s6 & H6 & Hd6 & _). rewrite H1 in H6. injection H6 as <-.
    cbn [replay] in H2. apply bindM_ok in H2 as ([] & s7 & (value' & Hv' & Ha & _)%frame_ok & _). rewrite (same_value f value' value Hv' Hv) in Ha.
    destruct (value_alike c f value true recovering s5 s s7 Hd6 Ha) as (t & Ht & _). by eapply Hno.
Qed.

(** The field of a record that says in which epoch it was made. *)
Definition epoch_field (type : Z) : option string := snd <$> List.find (fun e => fst e =? type) [
  (INGRESS_RESERVED, "reservedEpoch"); (PUT_COMMITTED, "committedEpoch"); (PUT_TERMINAL, "terminalEpoch"); (RENEW_COMMITTED, "committedEpoch");
  (DROP_COMMITTED, "committedEpoch"); (POLICY_COMMITTED, "committedEpoch"); (GC_COMMITTED, "tombstoneEpoch"); (FLOOR_ADVANCE, "oldEpochFloor");
  (CLOCK_UNSAFE, "epochFloor"); (CLOCK_CONFIRM, "oldEpochFloor"); (COMPACT, "compactedEpoch"); (READ_PIN_COMMITTED, "committedEpoch");
  (READ_PIN_FINALIZED, "finalizedEpoch"); (READ_PIN_EXPIRED, "terminalEpoch"); (PUT_ATOMIC_COMMITTED, "committedEpoch")].

Lemma checked_epoch {T} (check : engine -> result T) change s s' n : checked check change s = (Ok tt, s') ->
  (forall t, check s = Ok t -> n = epochFloor s) -> n = epochFloor s.
Proof. intros (t & Hc & _)%checked_ok Hn. by eapply Hn. Qed.

Lemma value_epoch f value recovering s s' k : applyValue c f value recovering s = (Ok tt, s') -> epoch_field (Wal.type (Wal.head_of f)) = Some k ->
  num (get value k) = epochFloor s.
Proof.
  unfold applyValue. generalize (Wal.type (Wal.head_of f)) as type. intros type Hq Hk.
  repeat match type of Hq with (if type =? ?X then _ else _) _ = _ => destruct (type =? X) eqn:E;
    [apply Z.eqb_eq in E as ->; try discriminate Hk;
     try (eapply checked_epoch; [exact Hq|]; intros t Hc;
       unfold checkReservation, checkPut, checkTerminal, checkRenew, checkDrop, checkReadPin, checkReadPinFinalized, checkReadPinExpired,
         checkAtomicPut, checkPolicy, checkGc, checkFloor, checkClockUnsafe in Hc;
       injection Hk as <-; passed; try (destruct (get_cell _ s); [passed|done]); done)
    |clear E] end; [|done].
  injection Hk as <-. unfold applyCompact in Hq. autorewrite with machine in Hq. destruct (integrity_if _) as [[]|] eqn:E in Hq; [|done]. apply integrity_if_ok in E. b2p. done.
Qed.

(** C8: A record may not wait while the clock moves. Every record but those of
    attempts and integrity failures names the epoch it was decided in, and is put
    into the queue of the log at once. When the floor has moved by the time its
    turn comes, it does not apply, and no store can be opened on the log it is in. *)
Theorem decisions_age log0 log s q s1 f s2 recovering s3 :
  live c log0 s -> room s -> decides s q s1 -> frame_for q f -> epoch_field (q_type q) <> None ->
  live c log s2 -> epochFloor s2 <> epochFloor s ->
  applyFrame c f recovering s2 <> (Ok tt, s3) /\ replay c (log ++ [f]) new_engine <> (Ok tt, s3).
Proof.
  intros Hl0 Hroom Hd Hf Hk Hl Hne. destruct (live_sound c log0 s Hl0) as [Hs Hb]. destruct (decided s q s1 Hs Hb Hroom Hd) as [Hsame Ha].
  destruct (Ha f Hf) as [s' (value & Hv & Hq & _)%frame_ok]. rewrite <- (for_type _ _ Hf) in Hk. destruct (epoch_field _) as [k|] eqn:E; [|done].
  eapply value_epoch in Hq; [|done]. apply (spoils log s2 f value Hl Hv). intros r s4 Hq2. eapply value_epoch in Hq2; [|done].
  assert (epochFloor s1 = epochFloor s) by (change (epochFloor (durable s1) = epochFloor (durable s)); by rewrite Hsame). congruence.
Qed.

(** What a put says of its epochs. *)
Lemma put_epochs f value recovering s s' e i : holds_value f value -> Wal.type (Wal.head_of f) = PUT_COMMITTED -> get_spend (raw value.["spendTag"]) s = Some e ->
  e_detail e = Ingress i -> applyValue c f value recovering s = (Ok tt, s') ->
  num value.["committedEpoch"] = epochFloor s /\ num value.["leaseEpoch"] = num value.["committedEpoch"] + lease_epochs (i_leaseClass i).
Proof.
  intros Hv Ht He Hd Hq. unfold applyValue in Hq. rewrite Ht in Hq. change (applyPut c f value s = (Ok tt, s')) in Hq.
  apply checked_ok in Hq as (t & Hc & _). unfold checkPut in Hc. passed. match goal with E : reservationFor _ _ _ = Ok _ |- _ => apply reservationFor_ok in E as (Hg & _ & Hd' & _) end. rewrite He in Hg. injection Hg as ->. rewrite Hd in Hd'. injection Hd' as ->. by split.
Qed.

(** Nor may it move while a put is published. The end of the lease is computed before
    the object is published and the epoch of the record is read after. When the
    floor has moved in between, the record that is handed to the log does not
    apply, and a store cannot be opened on a log that has it. *)
Theorem put_is_bound_to_its_epoch log input same e i leaseEpoch identity objectId s s0 s2 q s3 f recovering s4 :
  sound s -> publishPut input same false s = (Ok (inr (e, i, leaseEpoch, identity)), s0) ->
  live c log s2 -> epochFloor s2 <> epochFloor s -> get_spend (p_spendTag input) s2 = Some e ->
  commitPut e i leaseEpoch identity objectId s2 = (Ok (inr q), s3) -> frame_for q f ->
  applyFrame c f recovering s2 <> (Ok tt, s4) /\ replay c (log ++ [f]) new_engine <> (Ok tt, s4).
Proof.
  intros Hs Hp Hl Hne Hg Hq Hf. destruct (publishing input same s e i leaseEpoch identity s0 Hs Hp) as (_ & _ & Hd & _ & Htag & _ & _ & _ & -> & _).
  unfold commitPut in Hq. autorewrite with machine in Hq. set (value := VObj _) in *.
  assert (Hv : holds_value f value) by (apply (proposed _ _ _ _ _ _ _ _ f Hq eq_refl); [by destruct (i_resultBindingBytes i)|done]).
  apply append_ok in Hq as (_ & codec & payload & Hc & Hpay & ->).
  assert (Hno : forall r s', applyValue c f value r s2 <> (Ok tt, s')).
  { intros r s' Ha. eapply put_epochs in Ha; [|done|apply Hf|cbn; rewrite Htag; exact Hg|exact Hd]. cbn in Ha. lia. }
  by apply (spoils log s2 f value Hl Hv).
Qed.
End WithPlatform.
End CellSafety.
