(* ===== verification/CellDemo.v ===== *)
(** * The cell store on a concrete platform

    A store of one relay: a cell is put atomically, renewed and dropped; another
    is reserved, its attempt is taken and it is published. *)

From Stdlib Require Import ZArith Lia Bool List String Ascii.
From Stdlib Require Import Strings.Byte.
From stdpp Require Import base tactics list strings relations.
From S2P Require Import Prelude JsMap Codec CodecLaws DemoPlatform Authority Hashes SchemaKit ResultBinding HashLaws Accepted WriteAheadLog CellRecords ExpiryHeap CellStore CellApply CellBooks CellLife CellSpends CellOperations CellProposals CellReads CellRecovery CellStaging CellLedger CellAtomic CellSafety DescriptorDemo.
Import Binding CellRecord Cells Apply CellBooks CellLife CellSpends CellOps CellProposals CellReads CellRecovery Staging CellLedger CellAtomic CellSafety.

#[local] Existing Instance demo_platform.

(** ** The store and the requests *)

Definition demo_config : config := {|
  relayPublicKey := replicate 32 Byte.x01; storeId := None; durabilityContinuityHash := replicate 32 Byte.x02; durabilityProfileHash := None;
  reservationMillis := 600000; maxStoredBytes := 2 ^ 30; maxStagingBytes := 2 ^ 26; maxStagingBytesPerProfile := 2 ^ 24; maxControlBytes := 2 ^ 24;
  maxTombstoneBytes := 2 ^ 24; maxCells := 4096 |}.

Definition any_signature : bytes -> bytes -> bytes -> bool := fun _ _ _ => true.

Definition demo_binding : val := VObj [
  ("version", VNum 1); ("relayPublicKey", key Byte.x01); ("storeId", key Byte.x03); ("descriptorSequence", VBig 4); ("descriptorHash", key Byte.x05);
  ("durabilityProfileId", VNum 1); ("durabilityContinuityHash", key Byte.x02); ("durabilityProfileHash", key Byte.x06);
  ("restoreEvidenceHeadSequence", VBig 0); ("restoreEvidenceHeadHash", key Byte.x00); ("externalCommitWitness", VNull)].

(** A key for creating cells, and the slot that is its hash at epoch 1. *)
Definition slot_of (create : byte) : bytes :=
  expect [] (Hash.cellStorageSlot (VObj [("allocationEpoch", VNum 1); ("createPublicKey", key create)])).

Definition put_request (create : byte) : val := VObj [
  ("createPublicKey", key create); ("renewPublicKey", key Byte.x22); ("dropPublicKey", key Byte.x23); ("storageSlot", VBytes (slot_of create));
  ("allocationEpoch", VNum 1); ("sizeClass", VNum 1); ("leaseClass", VNum 1); ("clientNonce", key Byte.x24); ("declaredBlobHash", key Byte.x25);
  ("createSignature", VBytes (replicate 64 Byte.x26))].

Definition allocation_for (create : byte) : bytes := expect [] (Hash.allocationCommitment (VObj [("relayPublicKey", key Byte.x01); ("storageSlot", VBytes (slot_of create));
  ("allocationEpoch", VNum 1); ("sizeClass", VNum 1); ("leaseClass", VNum 1); ("declaredCellBlobHash", key Byte.x25);
  ("createPublicKey", key create); ("renewPublicKey", key Byte.x22); ("dropPublicKey", key Byte.x23)])).

Definition admission_for (spend : byte) (commitment : bytes) : val := VObj [
  ("spendTag", key spend); ("requestCommitment", VBytes commitment); ("profileId", VNum 1); ("schemeId", VNum 1); ("parameterHash", key Byte.x31);
  ("costClass", VObj [("resourceClass", VNum 1); ("leaseClass", VNum 1); ("costUnits", VBig 7)]); ("walCommitRecord", VBytes [Byte.x01])].

Definition put_commitment_of (create : byte) : bytes :=
  expect [] (Hash.commitment (Hash.cellPutPreimage (VObj [("allocationCommitment", VBytes (allocation_for create)); ("clientNonce", key Byte.x24)]))).

(** A record of the log, of a proposal *)
Definition record_of (sequence : Z) (q : proposal) : Wal.frame := {|
  Wal.head_of := {| Wal.type := q_type q; Wal.totalLength := 224 + blen (q_payload q); Wal.payloadLength := blen (q_payload q); Wal.sequence := sequence;
    Wal.transactionId := q_transactionId q; Wal.virtualBucket := q_virtualBucket q; Wal.mapGeneration := 1; Wal.ownerFenceTokenHash := replicate 32 Byte.x41;
    Wal.previousWalHash := replicate 32 Byte.x42; Wal.durabilityContinuityHash := replicate 32 Byte.x02; Wal.payloadHash := replicate 32 Byte.x43 |};
  Wal.payload := q_payload q; Wal.walHash := replicate 32 Byte.x44; Wal.frameBytes := 224 + blen (q_payload q) |}.

Lemma record_for sequence q : frame_for q (record_of sequence q).
Proof. by split. Qed.

Definition no_proposal : proposal := {| q_type := 0; q_transactionId := []; q_virtualBucket := 0; q_payload := [] |}.
Definition proposal_of {R} (o : result (R + proposal) * engine) : proposal := match o with (Ok (inr q), _) => q | _ => no_proposal end.
Definition after (f : Wal.frame) (s : engine) : engine := snd (applyFrame demo_config f false s).
Definition tx (b : byte) : bytes := replicate 32 b.
Definition millis (n : Z) : val := VBig n.

(** ** An atomic put *)

Definition demo_staging : val := VObj [("request", put_request Byte.x21); ("source", VObj []); ("resultBinding", demo_binding); ("admissionProfileId", VNum 1)].

Definition lobby1 : lobby := Eval vm_compute in snd (stage_begin demo_config any_signature false demo_staging false (first_lobby new_engine)).
Definition lobby2 : lobby := Eval vm_compute in snd (stage_claim demo_config 0 lobby1).
Definition lobby3 : lobby := Eval vm_compute in snd (stage_deadline demo_config 0 (millis 1000) lobby2).
Definition lobby4 : lobby := Eval vm_compute in snd (stage_issue 0 false (millis 2000) false lobby3).
Definition commit_of (l : lobby) := commit_begin 0 true (admission_for Byte.x32 (put_commitment_of Byte.x21)) (millis 3000) l.

Example demo_committing : exists put, fst (commit_of lobby4) = Ok put.
Proof. eexists. vm_compute. reflexivity. Qed.

Definition demo_put : put_input := Eval vm_compute in match fst (commit_of lobby4) with Ok put => put | Err _ => as_put {|
  a_storageSlot := []; a_allocationEpoch := 0; a_sizeClass := 0; a_leaseClass := 0; a_declaredBlobHash := []; a_createPublicKey := []; a_renewPublicKey := [];
  a_dropPublicKey := []; a_allocationCommitment := []; a_requestCommitment := []; a_profileId := 0; a_resultBindingBytes := []; a_declaredBytes := 0 |} [] [] [] end.

Lemma demo_commit : commit_of lobby4 = (Ok demo_put, lobby4).
Proof. vm_compute. reflexivity. Qed.

#[local] Notation demo_fence := (commit_fence demo_config 0 demo_put (millis 3000) (Ok (VBool true)) false lobby4).
Definition demo_identity : bytes := Eval vm_compute in match fst demo_fence with Ok (inr (_, identity)) => identity | _ => [] end.
Definition lobby5 : lobby := Eval vm_compute in snd demo_fence.

Lemma demo_fenced : demo_fence = (Ok (inr (4, demo_identity)), lobby5).
Proof. vm_compute. reflexivity. Qed.

#[local] Notation put_call := (commit_record demo_put 4 demo_identity (tx Byte.x51) (tx Byte.x52) new_engine).
Definition put_proposal : proposal := Eval vm_compute in proposal_of put_call.
Lemma demo_put_proposed : put_call = (Ok (inr put_proposal), new_engine).
Proof. vm_compute. reflexivity. Qed.

Definition put_record : Wal.frame := Eval vm_compute in record_of 1 put_proposal.
Definition put_state : engine := Eval vm_compute in after put_record new_engine.
Lemma demo_put_applies : applyFrame demo_config put_record false new_engine = (Ok tt, put_state).
Proof. vm_compute. reflexivity. Qed.

Definition demo_slot : bytes := Eval vm_compute in slot_of Byte.x21.
Example demo_stored : exists r, get_cell demo_slot put_state = Some r /\ c_leaseEpoch r = 4 /\ c_objectState r = Present.
Proof. eexists. split; [vm_compute; reflexivity|]. split; reflexivity. Qed.

Lemma put_live : live demo_config [put_record] put_state.
Proof. exact (appended demo_config [] new_engine put_record put_state (opened demo_config [] new_engine eq_refl) demo_put_applies). Qed.

(** ** A renewal and a drop *)

Definition manage_request (nonce : byte) : val := VObj [
  ("storageSlot", VBytes demo_slot); ("expectedRevision", VBig 0); ("expectedLeaseEpoch", VNum 4); ("leaseClass", VNum 2); ("clientNonce", key nonce);
  ("signature", VBytes (replicate 64 Byte.x26))].

Definition renew_commitment_of (nonce : byte) : bytes := expect [] (Hash.commitment (Hash.cellManagePreimage
  (manage_of demo_config "cell-renew" demo_slot 0 4 2 (replicate 32 nonce)))).

Definition renew_demo : result renew_input := Eval vm_compute in renewInput demo_config (manage_request Byte.x61) (admission_for Byte.x33 (renew_commitment_of Byte.x61)) VNull.
Definition no_renewal : renew_input := {| w_storageSlot := []; w_expectedRevision := 0; w_expectedLeaseEpoch := 0; w_leaseClass := 0; w_commitment := []; w_spendTag := [];
  w_profileId := 0; w_fingerprint := []; w_preparedAdmissionBytes := []; w_resultBindingBytes := None; w_signature := VNull |}.
Definition demo_renewal : renew_input := Eval vm_compute in expect no_renewal renew_demo.
Lemma demo_renews : renewInput demo_config (manage_request Byte.x61) (admission_for Byte.x33 (renew_commitment_of Byte.x61)) VNull = Ok demo_renewal.
Proof. vm_compute. reflexivity. Qed.

#[local] Notation renew_call := (renewCell demo_config any_signature demo_renewal (tx Byte.x53) put_state).
Definition renew_proposal : proposal := Eval vm_compute in proposal_of renew_call.
Lemma demo_renewal_proposed : renew_call = (Ok (inr renew_proposal), put_state).
Proof. vm_compute. reflexivity. Qed.

(** ** A reserved put, and a clock that moves *)

Definition reserve_admission : val := admission_for Byte.x34 (put_commitment_of Byte.x28).
Definition demo_reserve : result put_input := Eval vm_compute in putInput demo_config any_signature (put_request Byte.x28) reserve_admission VNull.
Definition reserve_input : put_input := Eval vm_compute in expect demo_put demo_reserve.

#[local] Notation reserve_call := (reservePut demo_config reserve_input (millis 1000) (tx Byte.x54) false new_engine).
Definition reserve_record : Wal.frame := Eval vm_compute in record_of 1 (proposal_of reserve_call).
Definition reserved_state : engine := Eval vm_compute in after reserve_record new_engine.
#[local] Notation attempt_call := (consumeAttempt reserve_input (millis 2000) false reserved_state).
Definition attempt_record : Wal.frame := Eval vm_compute in record_of 2 (proposal_of attempt_call).
Definition attempted_state : engine := Eval vm_compute in after attempt_record reserved_state.
#[local] Notation publish_call := (publishPut reserve_input true false attempted_state).

Definition no_spend : spend := {| e_status := Terminal; e_operation := None; e_transactionId := []; e_spendTag := []; e_requestCommitment := []; e_requestFingerprint := [];
  e_reservedWalSequence := 0; e_terminalEpoch := None; e_committedEpoch := None; e_detail := Pin {| Cells.p_retryExpiresUnixMillis := 0; Cells.p_entries := None;
  Cells.p_preparedAdmissionBytes := None; Cells.p_resultBindingBytes := None; Cells.p_receiptEpoch := None; Cells.p_resultCommitment := None; Cells.p_controlBytes := 0 |} |}.
Definition attempted_spend : spend := Eval vm_compute in default no_spend (get_spend (p_spendTag reserve_input) attempted_state).
Definition published : option (ingress * Z * bytes) := Eval vm_compute in match fst publish_call with Ok (inr (_, i, lease, identity)) => Some (i, lease, identity) | _ => None end.

(** Twelve hours pass while the object is written. *)
Definition clock_record : Wal.frame := Eval vm_compute in record_of 3 (proposal_of (refreshClock 2 (tx Byte.x55) attempted_state)).
Definition later_state : engine := Eval vm_compute in after clock_record attempted_state.
Definition reserve_log : list Wal.frame := [reserve_record; attempt_record; clock_record].

Lemma later_live : live demo_config reserve_log later_state.
Proof.
  apply (appended demo_config [reserve_record; attempt_record] attempted_state clock_record); [|vm_compute; reflexivity].
  apply (appended demo_config [reserve_record] reserved_state attempt_record); [|vm_compute; reflexivity].
  apply (appended demo_config [] new_engine reserve_record); [by apply opened|vm_compute; reflexivity].
Qed.

Lemma attempted_sound : sound attempted_state.
Proof.
  apply (live_sound demo_config [reserve_record; attempt_record]).
  apply (appended demo_config [reserve_record] reserved_state attempt_record); [|vm_compute; reflexivity].
  apply (appended demo_config [] new_engine reserve_record); [by apply opened|vm_compute; reflexivity].
Qed.

(** The clock moves while a renewal that was decided waits. *)
Definition moved_record : Wal.frame := Eval vm_compute in record_of 2 (proposal_of (refreshClock 2 (tx Byte.x56) put_state)).
Definition moved_state : engine := Eval vm_compute in after moved_record put_state.

Lemma moved_live : live demo_config [put_record; moved_record] moved_state.
Proof. apply (appended demo_config [put_record] put_state moved_record); [exact put_live|vm_compute; reflexivity]. Qed.

(** ** Witnesses *)

Lemma put_room : room put_state.
Proof.
  split; [vm_compute; reflexivity|]. split_and!; [apply Z.leb_le; vm_compute; reflexivity..|constructor].
Qed.

Lemma cell_lifecycle_witness : epochFloor new_engine <= epochFloor put_state /\
  life_step 0 (life_of (get_cell demo_slot new_engine)) (life_of (get_cell demo_slot put_state)).
Proof.
  destruct (cell_lifecycle demo_config put_record false new_engine put_state new_sound demo_put_applies) as (H1 & H2 & _). split; [exact H1|exact (H2 demo_slot)].
Defined.

Lemma spend_lifecycle_witness : spend_step demo_config 0 (get_spend (p_spendTag demo_put) new_engine) (get_spend (p_spendTag demo_put) put_state).
Proof. exact (proj1 (spend_lifecycle demo_config put_record false new_engine put_state new_sound demo_put_applies) (p_spendTag demo_put)). Defined.

Lemma books_balance_witness : sound put_state.
Proof. exact (books_balance demo_config [put_record] put_state put_live). Defined.

Lemma restart_restores_witness : exists s', replay demo_config [put_record] new_engine = (Ok tt, s') /\ durable s' = durable put_state.
Proof. exact (restart_restores demo_config [put_record] put_state put_live). Defined.

Lemma decisions_replay_witness : exists s3, replay demo_config [put_record; record_of 2 renew_proposal] new_engine = (Ok tt, s3).
Proof.
  destruct (decisions_replay demo_config any_signature [put_record] put_state renew_proposal put_state (record_of 2 renew_proposal) put_live put_room
    (decides_renew demo_config any_signature put_state _ _ _ _ _ _ _ demo_renews demo_renewal_proposed) (record_for 2 renew_proposal)) as (_ & s3 & _ & _ & H3 & _).
  exists s3. exact H3.
Defined.

Lemma management_is_signed_witness : exists leaseClass slot record nonce signature, (manage_request Byte.x61).["leaseClass"] = VNum leaseClass /\
  signed_request demo_config any_signature "cell-renew" c_renewPublicKey (manage_request Byte.x61) leaseClass put_state slot record nonce signature.
Proof.
  exact (proj1 (management_is_signed demo_config any_signature put_state renew_proposal put_state) _ _ _ _ _ demo_renews demo_renewal_proposed).
Defined.

Lemma decisions_age_witness : ~ exists s3, replay demo_config [put_record; moved_record; record_of 3 renew_proposal] new_engine = (Ok tt, s3).
Proof.
  intros [s3 Hs3]. revert Hs3. refine (proj2 (decisions_age demo_config any_signature [put_record] [put_record; moved_record] put_state renew_proposal put_state (record_of 3 renew_proposal)
    moved_state false s3 put_live put_room (decides_renew demo_config any_signature put_state _ _ _ _ _ _ _ demo_renews demo_renewal_proposed)
    (record_for 3 renew_proposal) _ moved_live _)); vm_compute; discriminate.
Defined.

Lemma put_is_bound_to_its_epoch_witness : exists f, forall s4, replay demo_config (reserve_log ++ [f]) new_engine <> (Ok tt, s4).
Proof.
  eexists. intros s4.
  refine (proj2 (put_is_bound_to_its_epoch demo_config reserve_log reserve_input true attempted_spend _ _ _ (tx Byte.x51) attempted_state attempted_state later_state _ _ (record_of 4 _) false s4
    attempted_sound _ later_live _ _ _ (record_for 4 _))).
  - vm_compute. reflexivity.
  - vm_compute. discriminate.
  - vm_compute. reflexivity.
  - vm_compute. reflexivity.
Defined.

Lemma staging_ledger_exact_witness : a_bytes (atomicStaging (store lobby4)) = sum_of held (objects lobby4).
Proof.
  refine (proj1 (staging_ledger_exact demo_config any_signature new_engine lobby4 eq_refl _)).
  refine (rtc_l _ _ lobby1 _ (does_begin demo_config any_signature false demo_staging false (Ok 0%nat) _ _ _) _); [vm_compute; reflexivity|].
  refine (rtc_l _ _ lobby2 _ (does_claim demo_config any_signature 0 _ (Ok tt) _ _ _ _ _ _) _); [vm_compute; reflexivity..|].
  refine (rtc_l _ _ lobby3 _ (does_deadline demo_config any_signature 0 (millis 1000) (Ok 601000) _ _ _) _); [vm_compute; reflexivity|].
  refine (rtc_l _ _ lobby4 _ (does_issue demo_config any_signature 0 false (millis 2000) false _ (Ok 0%nat) _ _ _ _ _ _) (rtc_refl _ _)); vm_compute; reflexivity.
Defined.
